(* ===== verification/_CoqProject ===== *)
-Q . S2P
Prelude.v
Div64.v
Bytes.v
Bio.v
Log.v
LogCommit.v
Buddy.v
Slab.v
Perm.v
Pipe.v
CString.v
MemoryMap.v
Vm.v
Uvm.v
PageTable.v
Sleeplock.v
Txn.v
Bmap.v
Inode.v
FileData.v
Trunc.v
Durable.v
Icache.v
Dir.v
DirOld.v
Names.v
Qsort.v
Print.v
Dentry.v
