(* ===== verification/Prelude.v ===== *)
(** * VIMIX OS: a verification development

    VIMIX is a small Unix-like operating system for RISC-V, written in C, with the
    structure of xv6 and a file system, memory management and system calls of its
    own.  This library models parts of its kernel and user space as executable
    functions and step relations and proves what they compute.

    ** The program and the files of this library

    All paths are relative to [src/].

    - Machine-level helpers.  [Div64] is [kernel/lib/div64.c], the 64-bit division
      of 32-bit targets.  [CString] is [kernel/lib/string.c] over a memory of
      bytes.  [Bytes] holds 32-bit values in block buffers, shared by the files
      that model on-disk structures.  [Qsort] is the sort of the C library
      ([kernel/lib/qsort_impl.c]), [Print] formatted printing
      ([kernel/lib/print_impl.c]) up to [snprintf].

    - Memory.  [Buddy] is the page allocator ([kernel/mm/kalloc.c]); its class
      [PageAllocator] states what it promises, and [Slab] (the slabs, caches,
      [kmalloc] and [kfree] of [kernel/mm/slab.c], [cache.c], [kalloc.c]), [Vm] (the
      page tables of [kernel/mm/vm.c]) and [PageTable] are proved against the class.
      [MemoryMap] is the list of regions of [kernel/mm/memory_map.c]; [Uvm] has the
      copies between kernel and user memory of [kernel/mm/vm.c]; [PageTable] is
      [kernel/mm/page_table.c] with the heap and stack functions of [vm.c] and
      combines [Vm], [MemoryMap] and the allocator.

    - Disk and file system.  [Bio] is the buffer cache ([kernel/kernel/bio.c],
      [buf.c]) over block devices that record the sequence of writes; [Log] is the
      write-ahead log of vimixfs ([kernel/fs/vimixfs/log.c]) on top of [Bio], with
      its reservation protocol; [LogCommit] has the theorems on commit, crash and
      recovery.  [Txn] states what the log and the cache promise to a process inside of
      a transaction, as the class [BlockStore], and proves that they keep it.

    - Files ([kernel/fs/vimixfs/vimixfs.c], [bmap.c]), proved against [BlockStore].
      [Bmap] has the bitmap of used blocks and the tree of blocks of an inode;
      [Inode] the inodes on disk and reading and writing of files, with the theorems in
      [FileData]; [Trunc] truncation, the changes of mode and owner and the loop of
      transactions of a long write; [Durable] connects them with the log: what is on
      the disk after the transactions.  [Dir] has directories up to [readdir] of the C
      library, [DirOld] the earlier versions of two of their functions that the source
      keeps, [Names] creating, linking and removing of files on several inodes in
      memory.  [Icache] has the list of inodes in memory under concurrent use, with its
      lock ([kernel/lib/rwspinlock.c]) and the reference counts
      ([kernel/kernel/kref.h]).  [Dentry] has the tree of directory entries in memory
      with its reference counts and the list of unused entries
      ([kernel/fs/dentry.c], [dentry_cache.c]), the lookup of paths ([fs_lookup.c])
      and the removal of names ([do_rm] of [kernel/syscalls/sys_link.c]); its file
      system is a parameter.

    - Processes.  [Sleeplock] has sleep locks, [sleep], [wakeup], [yield], the
      scheduler and signals as interleavings of atomic steps
      ([kernel/lib/sleeplock.c], [spinlock.c], [kernel/kernel/proc.c],
      [scheduler.c]).  [Perm] has the permission checks and the credential system
      calls ([kernel/kernel/permission.c], [kernel/syscalls/sys_cred.c]).  [Pipe]
      has pipes and the circular buffer of the console ([kernel/ipc/pipe.c],
      [kernel/lib/cbuffer.c]).

    This file holds what they share: machine integers, the result and state monads,
    tactics, hints and lemmas on lists and integers.

    ** Conventions of the models

    A C integer is a [Z] in the range of its type, with the wrap-around of unsigned
    types written out ([u8], [u32], [u64], [s64] ...).  A function that can fail, or
    that the code does not define on some argument, returns [res]: [Ret] for a
    result, [Panic] for a call of [panic], [Undef] for an access the C code must not
    make (a null or freed object, an index out of range), [Blocked] where the process
    would sleep, and [NoFuel] where a loop bound was too small.  Stateful code is in
    the state monad [ST] over [res].  Pointers are integers, or the identities of
    objects where only identity matters.

    Loops that are not structural take fuel: 64 iterations in [Div64] (the bits of
    the dividend); the number of pages of a range in [Buddy], [Vm] and [PageTable]; the
    length in bytes in [Uvm] and [CString]; the number of regions in [MemoryMap]; the
    number of blocks or entries of a file in [Inode], [Trunc] and [Dir]; the number of
    entries or the length of the path in [Dentry]; bounds from the length of the array
    or of the format in [Qsort] and [Print].  The
    theorems prove that the result is a [Ret] (or [Some]) with this fuel, so the
    bounds are enough; [Div64.div_64_min_diverges] shows the one call for which no
    bound is.

    ** What the theorems show

    - [LogCommit.commit_crash_atomic], [commit_installs]: transactions are atomic under
      crashes at every device write, also during recovery; [Log]: in all interleavings
      clients never overflow their reservation; [Bio.bio_read_spec]: reads see the
      last write.
    - [Bmap], [FileData], [Trunc]: a file refines an array of bytes: reading and writing
      are the operations on the array, new blocks are fresh, and truncation gives back
      the direct blocks.  [Durable]: after the transactions that [write], [chmod] and
      [chown] use, the disk has the new contents.  The models count the blocks
      that a transaction logs, so the theorems also show that the reservations of the
      code are enough where they are.
    - [Dir]: a directory refines a finite map from names to inode numbers; [DirOld]: its
      operations agree with their earlier versions; [Names]: creating a file and
      unlinking one that is open change the directory, the inode and nothing else.
    - [Icache.icache_safe]: the list of inodes and its reference counts are consistent in
      every interleaving until an inode is used after it was freed, which only one that
      drops the last reference can do; [Icache.icache_put_race] is a schedule that
      does.
    - [Dentry.path_lookup_transparent]: the cache of directory entries does not show: the
      lookup of a path finds what the walk on the file system finds, with balanced
      references, while other processes use the cache; [Dentry.do_rm_spec]: a name is
      removed completely or not at all; [Dentry.lru_bounded]: nothing in use is freed,
      and the list of unused entries has its maximal length.
    - [Sleeplock.sleep_lock_safe], [sleep_lock_live]: mutual exclusion, lock discipline,
      no lost wakeup, no deadlock, and waiting processes get the lock.
    - [Buddy], [Slab]: allocators hand out disjoint, aligned, fresh memory, keep their
      invariants, and freeing gives back exactly what was allocated.
    - [Vm], [MemoryMap]: page tables refine a map from addresses to frames, memory maps
      refine a map from addresses to backing; [PageTable]: heap growth keeps the two
      in agreement and restores everything on failure; [Uvm]: user copies move exactly
      the bytes that are mapped, and refuse all others.
    - [Perm]: what the permission checks decide; unprivileged processes cannot gain
      ids.  [Pipe]: bytes arrive in order, whatever the schedule.
    - [CString], [Div64]: the functions compute their specification.  [Qsort]: the array is
      sorted, with a bound on the depth of the calls.  [Print]: numbers are printed as
      numerals where they fit the buffer, nothing is written outside of the target, and
      [strtoll] reads the numbers back.
    - Some theorems state where the code does not do what it means to do:
      [Div64.divdi3_truncates_iff], [Div64.div_64_min_diverges],
      [LogCommit.commit_overruns_log], [Perm.open_flags_bypass_checks],
      [MemoryMap.memory_map_split_at_end_overlaps], [CString.strstr_spec_unless_suffix],
      [PageTable.page_table_apply_mapping_spec], [Trunc.trunc_loses_block],
      [Trunc.truncate_grow_then_read_panics], [Icache.icache_put_race],
      [Names.rmdir_leaks_parent], [Print.print_numbers_spec],
      [Dentry.rmdir_root_undefined].

    ** Not modelled

    - Code whose effect is outside of what the source defines: device drivers
      ([kernel/drivers]), trap, boot and assembly code ([kernel/arch], [kernel/init],
      [kernel/kernel/trap.c]), and third-party code ([kernel/lib/libfdt],
      [usr/lib/tomlc17], dhrystone).
    - Mounting ([kernel/fs/mount.c]), the file table
      ([kernel/kernel/file.c]), [fork], [exec] and [wait], the decoding of system calls
      ([kernel/syscalls]), sysfs and devfs: they need a model of several processes
      with their memory and open files that the files above do not have.
    - [Names] runs one process at a time and always has memory for an inode; the
      interleavings of the list of inodes are in [Icache], without the contents of the
      inodes.  [Dentry] lets other processes run only where the code waits for the locks
      of inodes, not between the spin locks, and they may not move or remove entries
      that the process uses.
    - User programs, the tools that make and check file systems, and the rest of the C
      library.
    - Of the modelled files, functions that only print or export statistics; the
      components of the manifest name what else is left out. *)
From stdpp Require Export base tactics numbers list option strings gmap.
From Stdlib Require Export ZArith Lia.

#[global] Open Scope Z_scope.

(** ** Machine integers

    Values of C integer types are [Z]s in the range of the type; a conversion
    to an [w]-bit unsigned type is [x mod 2^w], a conversion to a signed type
    picks the representative in [[-2^(w-1), 2^(w-1))] (what gcc does). *)

Definition uwrap (w x : Z) : Z := x mod 2 ^ w.
Definition swrap (w x : Z) : Z := (x + 2 ^ (w - 1)) mod 2 ^ w - 2 ^ (w - 1).

Abbreviation u8 := (uwrap 8).
Abbreviation u16 := (uwrap 16).
Abbreviation u32 := (uwrap 32).
Abbreviation u64 := (uwrap 64).
Abbreviation s32 := (swrap 32).
Abbreviation s64 := (swrap 64).

Definition is_u (w x : Z) : Prop := 0 <= x < 2 ^ w.
Definition is_s (w x : Z) : Prop := - 2 ^ (w - 1) <= x < 2 ^ (w - 1).

#[global] Instance is_u_dec w x : Decision (is_u w x) := _.
#[global] Instance is_s_dec w x : Decision (is_s w x) := _.

(** ** Results of kernel code

    [Panic] is a call of [panic()], [Undef] a C undefined behaviour (an access
    outside of an object, a NULL dereference, a division by zero), [Blocked]
    a call that sleeps on a lock another holder has to release first, [NoFuel]
    the exhaustion of the fuel of a definition whose recursion is not
    structural; theorems about such a definition show that it is not reached. *)

Inductive res (A : Type) : Type :=
| Ret (a : A)
| Panic
| Undef
| Blocked
| NoFuel.
Arguments Ret {A} a.
Arguments Panic {A}.
Arguments Undef {A}.
Arguments Blocked {A}.
Arguments NoFuel {A}.

#[global] Instance res_ret : MRet res := @Ret.
#[global] Instance res_bind : MBind res := fun A B f m =>
  match m with
  | Ret a => f a
  | Panic => Panic
  | Undef => Undef
  | Blocked => Blocked
  | NoFuel => NoFuel
  end.

(** A memory read of the C program: [None] is an access out of bounds. *)
Definition load {A} (o : option A) : res A :=
  match o with Some a => Ret a | None => Undef end.

Definition panic_unless (b : bool) : res unit := if b then Ret tt else Panic.

(** ** Code that threads a state

    [ST S A] is code that reads and updates a state of type [S] and returns an
    [A]; C code that updates a global object is an [ST] over that object. *)

Definition ST (S A : Type) : Type := S -> res (A * S).

#[global] Instance ST_ret {S} : MRet (ST S) := fun A a s => Ret (a, s).
#[global] Instance ST_bind {S} : MBind (ST S) := fun A B f m s =>
  match m s with
  | Ret (a, s') => f a s'
  | Panic => Panic
  | Undef => Undef
  | Blocked => Blocked
  | NoFuel => NoFuel
  end.

Definition get {S} : ST S S := fun s => Ret (s, s).
Definition put {S} (s : S) : ST S unit := fun _ => Ret (tt, s).
Definition modify {S} (f : S -> S) : ST S unit := fun s => Ret (tt, f s).
Definition lift {S A} (r : res A) : ST S A := fun s =>
  match r with
  | Ret a => Ret (a, s)
  | Panic => Panic
  | Undef => Undef
  | Blocked => Blocked
  | NoFuel => NoFuel
  end.

(** The state after a run that returns. *)
Definition ran {S A} (m : ST S A) (s : S) : S := match m s with Ret (_, s') => s' | _ => s end.

(** ** Error numbers (kernel/include/kernel/errno.h) *)

Definition EPERM : Z := 1.
Definition ENOENT : Z := 2.
Definition EBADF : Z := 9.
Definition ENOMEM : Z := 12.
Definition EACCES : Z := 13.
Definition EFAULT : Z := 14.
Definition ENODEV : Z := 19.
Definition ENOTDIR : Z := 20.
Definition EISDIR : Z := 21.
Definition EINVAL : Z := 22.
Definition EMFILE : Z := 24.
Definition ENOSPC : Z := 28.
Definition ESPIPE : Z := 29.

(** limits.h *)
Definition NAME_MAX : Z := 60.

(** ** Hint databases *)

Create HintDb vimix discriminated.

(** ** Tactics *)

(** Case split on every boolean test in the goal or in the hypotheses, turning
    the integer comparisons into propositions. *)
Ltac zbool :=
  repeat match goal with
  | H : (_ =? _) = true |- _ => apply Z.eqb_eq in H
  | H : (_ =? _) = false |- _ => apply Z.eqb_neq in H
  | H : (_ <=? _) = true |- _ => apply Z.leb_le in H
  | H : (_ <=? _) = false |- _ => apply Z.leb_gt in H
  | H : (_ <? _) = true |- _ => apply Z.ltb_lt in H
  | H : (_ <? _) = false |- _ => apply Z.ltb_ge in H
  | H : (_ && _)%bool = true |- _ => apply andb_true_iff in H as [??]
  | H : (_ || _)%bool = false |- _ => apply orb_false_iff in H as [??]
  | H : negb _ = true |- _ => apply negb_true_iff in H
  | H : negb _ = false |- _ => apply negb_false_iff in H
  end.

Ltac zcase :=
  match goal with
  | |- context [if ?b then _ else _] => destruct b eqn:?
  | H : context [if ?b then _ else _] |- _ => destruct b eqn:?
  end; zbool.

(** Split a run of [ST] or [res] code in a hypothesis [m s = Ret r] into the
    runs of its parts. *)
Lemma ST_bind_Ret {S A B} (m : ST S A) (f : A -> ST S B) s b s' :
  (m ≫= f) s = Ret (b, s') <->
  exists a s1, m s = Ret (a, s1) /\ f a s1 = Ret (b, s').
Proof.
  unfold mbind, ST_bind. split.
  - destruct (m s) as [[a s1]| | | |]; intros E; try discriminate. eauto.
  - intros (a & s1 & -> & E). done.
Qed.

Lemma bind_run {S A B} (m : ST S A) (f : A -> ST S B) s a s' :
  m s = Ret (a, s') -> (m ≫= f) s = f a s'.
Proof. intros E. unfold mbind, ST_bind. by rewrite E. Qed.

Lemma res_bind_Ret {A B} (m : res A) (f : A -> res B) b :
  (m ≫= f) = Ret b <-> exists a, m = Ret a /\ f a = Ret b.
Proof.
  unfold mbind, res_bind. split.
  - destruct m; intros E; try discriminate. eauto.
  - intros (a & -> & E). done.
Qed.

Ltac inv_run :=
  repeat match goal with
  | H : (_ ≫= _) _ = Ret (_, _) |- _ =>
      apply ST_bind_Ret in H as (? & ? & ? & ?)
  | H : (_ ≫= _) = Ret _ |- _ => apply res_bind_Ret in H as (? & ? & ?)
  | H : get _ = Ret _ |- _ => injection H as <- <-
  | H : put _ _ = Ret _ |- _ => injection H as <- <-
  | H : modify _ _ = Ret _ |- _ => injection H as <- <-
  | H : mret _ _ = Ret _ |- _ => injection H as <- <-
  | H : Ret _ = Ret _ |- _ => injection H as ?; subst
  | H : Panic = Ret _ |- _ => discriminate H
  | H : Undef = Ret _ |- _ => discriminate H
  | H : Blocked = Ret _ |- _ => discriminate H
  | H : NoFuel = Ret _ |- _ => discriminate H
  end.

(** ** Machine integer lemmas *)

Lemma uwrap_id w x : is_u w x -> uwrap w x = x.
Proof. unfold is_u, uwrap. intros; by apply Z.mod_small. Qed.

Lemma uwrap_range w x : 0 <= w -> is_u w (uwrap w x).
Proof. intros. apply Z.mod_pos_bound. by apply Z.pow_pos_nonneg. Qed.

Lemma swrap_id w x : is_s w x -> 0 < w -> swrap w x = x.
Proof.
  unfold is_s, swrap. intros H Hw.
  assert (2 ^ w = 2 * 2 ^ (w - 1)) as E.
  { rewrite <- Z.pow_succ_r by lia. f_equal; lia. }
  rewrite Z.mod_small; lia.
Qed.

Lemma swrap_range w x : 0 < w -> is_s w (swrap w x).
Proof.
  unfold is_s, swrap. intros Hw.
  assert (2 ^ w = 2 * 2 ^ (w - 1)) as E.
  { rewrite <- Z.pow_succ_r by lia. f_equal; lia. }
  pose proof (Z.mod_pos_bound (x + 2 ^ (w - 1)) (2 ^ w)).
  assert (0 < 2 ^ (w - 1)) by (apply Z.pow_pos_nonneg; lia). lia.
Qed.

Lemma uwrap_swrap w x : 0 < w -> uwrap w (swrap w x) = uwrap w x.
Proof.
  intros. unfold uwrap, swrap.
  rewrite Zminus_mod_idemp_l. f_equal. lia.
Qed.

#[export] Hint Resolve uwrap_range swrap_range : vimix.

Lemma uwrap_bits w x j :
  0 <= w -> 0 <= j -> Z.testbit (uwrap w x) j = ((j <? w) && Z.testbit x j)%bool.
Proof.
  intros. unfold uwrap. destruct (Z.ltb_spec j w); simpl.
  - by apply Z.mod_pow2_bits_low.
  - by apply Z.mod_pow2_bits_high.
Qed.

Lemma small_bits_high w x j : is_u w x -> 0 <= w <= j -> Z.testbit x j = false.
Proof.
  intros Hx Hj. rewrite <- (uwrap_id w x) by done.
  rewrite uwrap_bits by lia. by rewrite (proj2 (Z.ltb_ge j w)) by lia.
Qed.

Lemma signed_bits_high w x j :
  is_s w x -> 0 < w -> w - 1 <= j -> Z.testbit x j = (x <? 0).
Proof.
  unfold is_s. intros Hx Hw Hj.
  assert (2 ^ (w - 1) <= 2 ^ j) by (apply Z.pow_le_mono_r; lia).
  assert (0 < 2 ^ (w - 1)) by (apply Z.pow_pos_nonneg; lia).
  rewrite Z.testbit_odd, Z.shiftr_div_pow2 by lia.
  destruct (Z.ltb_spec x 0).
  - replace (x / 2 ^ j) with (-1); [done|].
    apply Z.div_unique with (x + 2 ^ j); lia.
  - by rewrite Z.div_small by lia.
Qed.

Lemma swrap_bits w x j :
  0 < w -> 0 <= j -> Z.testbit (swrap w x) j = Z.testbit x (Z.min j (w - 1)).
Proof.
  intros Hw Hj.
  assert (forall k, 0 <= k < w -> Z.testbit (swrap w x) k = Z.testbit x k) as Hlow.
  { intros k Hk. transitivity (Z.testbit (uwrap w (swrap w x)) k).
    - rewrite uwrap_bits by lia. by rewrite (proj2 (Z.ltb_lt k w)) by lia.
    - rewrite uwrap_swrap, uwrap_bits by lia. by rewrite (proj2 (Z.ltb_lt k w)) by lia. }
  destruct (Z.le_gt_cases (w - 1) j).
  - rewrite Z.min_r by lia.
    rewrite <- (Hlow (w - 1)) by lia.
    rewrite !(signed_bits_high w) by (try apply swrap_range; lia). done.
  - rewrite Z.min_l by lia. apply Hlow; lia.
Qed.

Lemma swrap_lor w a b : 0 < w -> Z.lor (swrap w a) (swrap w b) = swrap w (Z.lor a b).
Proof.
  intros Hw. apply Z.bits_inj'. intros j Hj.
  by rewrite Z.lor_spec, !swrap_bits, Z.lor_spec.
Qed.

Lemma swrap_uwrap w x : 0 < w -> swrap w (uwrap w x) = swrap w x.
Proof. intros. unfold uwrap, swrap. by rewrite Zplus_mod_idemp_l. Qed.

Lemma land_1 x : Z.land x 1 = x mod 2.
Proof. change 1 with (Z.ones 1). by rewrite Z.land_ones. Qed.

(** ** Sums of lists of integers *)

Definition zsum (l : list Z) : Z := foldr Z.add 0 l.

Lemma zsum_insert l i x y : l !! i = Some x -> zsum (<[i := y]> l) = zsum l - x + y.
Proof.
  revert i. induction l as [|z l IH]; intros [|i] E; simplify_eq/=; [lia|].
  rewrite IH by done. lia.
Qed.

Lemma zsum_le l1 l2 :
  length l1 = length l2 ->
  (forall i x y, l1 !! i = Some x -> l2 !! i = Some y -> x <= y) -> zsum l1 <= zsum l2.
Proof.
  revert l2. induction l1 as [|x l1 IH]; intros [|y l2] E H; simplify_eq/=; [done|].
  pose proof (H O x y eq_refl eq_refl). enough (zsum l1 <= zsum l2) by lia.
  apply IH; [done|]. intros i. apply (H (S i)).
Qed.

Lemma zsum_lt l1 l2 i x y :
  length l1 = length l2 ->
  (forall i x y, l1 !! i = Some x -> l2 !! i = Some y -> x <= y) ->
  l1 !! i = Some x -> l2 !! i = Some y -> x < y -> zsum l1 < zsum l2.
Proof.
  intros E H Hx Hy Hlt. enough (zsum (<[i := x + 1]> l1) <= zsum l2).
  { rewrite (zsum_insert _ _ x) in H0 by done. lia. }
  apply zsum_le; [by rewrite length_insert|]. intros j u v.
  rewrite list_lookup_insert. case_decide as C; intros Hu Hv; [|by eapply H].
  destruct C as [-> _]. simplify_eq. lia.
Qed.

Lemma zsum_nonneg l : (forall i x, l !! i = Some x -> 0 <= x) -> 0 <= zsum l.
Proof.
  induction l as [|x l IH]; intros H; simpl; [done|].
  pose proof (H O x eq_refl). assert (0 <= zsum l); [|lia].
  apply IH. intros i. apply (H (S i)).
Qed.

(** ** Functions updated at one point *)

Definition upd {A} (i : nat) (x : A) (f : nat -> A) : nat -> A := fun j => if decide (j = i) then x else f j.

Lemma upd_eq {A} i (x : A) f : upd i x f i = x.
Proof. unfold upd. by rewrite decide_True. Qed.

Lemma upd_ne {A} i j (x : A) f : j <> i -> upd i x f j = f j.
Proof. intros. unfold upd. by rewrite decide_False. Qed.
