(* ===== verification/Div64.v ===== *)
(** * 64-bit division on 32-bit targets (kernel/lib/div64.c)

    [div_u64] is the shift-and-subtract loop; [div_64] adds the signs by
    recursion; [__udivdi3], [__umoddi3], [__divdi3] and [__moddi3] are the
    entry points the compiler calls.  [long long] values are [Z]s in
    [[-2^63, 2^63)], [unsigned long long] values are [Z]s in [[0, 2^64)]. *)
From S2P Require Import Prelude.

(** One iteration of the loop of [div_u64] for bit [i]; the state is
    [(quot, rem)], both of type [long long]. *)
Definition div_u64_step (n d i : Z) (st : Z * Z) : Z * Z :=
  let '(quot, rem) := st in
  let rem := s64 (Z.shiftl rem 1) in
  let rem := s64 (Z.lor (u64 rem) (Z.land (Z.shiftr n i) 1)) in
  if d <=? u64 rem
  then (Z.lor quot (s64 (Z.shiftl 1 i)), s64 (u64 (u64 rem - d)))
  else (quot, rem).

(** The loop [for (i = k - 1; i >= 0; --i)]. *)
Fixpoint div_u64_loop (k : nat) (n d : Z) (st : Z * Z) : Z * Z :=
  match k with
  | O => st
  | S k => div_u64_loop k n d (div_u64_step n d (Z.of_nat k) st)
  end.

(** [div_u64 n d] returns the quotient and [*r]. *)
Definition div_u64 (n d : Z) : Z * Z := div_u64_loop 64 n d (0, 0).

(** [div_64]: the recursion of the C function, which has no structural
    argument; each level removes the sign of [d], then the sign of [n]. *)
Fixpoint div_64 (fuel : nat) (n d : Z) : res (Z * Z) :=
  match fuel with
  | O => NoFuel
  | S fuel =>
      if d =? 0 then Undef
      else if d <? 0 then
        '(quot, r) ← div_64 fuel n (s64 (- d));
        Ret (s64 (- quot), r)
      else if n <? 0 then
        '(quot, r) ← div_64 fuel (s64 (- n)) d;
        if r =? 0 then Ret (s64 (- quot), r)
        else Ret (s64 (s64 (- quot) - 1), s64 (d - r))
      else Ret (div_u64 (u64 n) (u64 d))
  end.

(** Three levels are enough whenever the recursion ends at all. *)
Definition div_64_fuel : nat := 3.

Definition divdi3 (n d : Z) : res Z := '(q, _) ← div_64 div_64_fuel n d; Ret q.
Definition moddi3 (n d : Z) : res Z := '(_, r) ← div_64 div_64_fuel n d; Ret r.
Definition udivdi3 (n d : Z) : Z := u64 (fst (div_u64 n d)).
Definition umoddi3 (n d : Z) : Z := u64 (snd (div_u64 n d)).

(** ** The loop invariant *)

(** After the bits [63..i] of [n] are processed, [rem] holds the remainder of
    the prefix [n / 2^i] and [quot] its quotient, shifted into place. *)
Definition div_u64_inv (n d i : Z) (st : Z * Z) : Prop :=
  st = (s64 (n / 2 ^ i / d * 2 ^ i), s64 ((n / 2 ^ i) mod d)).

Lemma lor_disjoint_low a b i :
  0 <= i -> 0 <= b < 2 ^ i -> Z.lor (a * 2 ^ i) b = a * 2 ^ i + b.
Proof.
  intros Hi Hb. symmetry. rewrite <- Z.add_lor_land.
  enough (Z.land (a * 2 ^ i) b = 0) by lia.
  apply Z.bits_inj'. intros j Hj. rewrite Z.land_spec, Z.bits_0.
  destruct (Z.lt_ge_cases j i).
  - by rewrite Z.mul_pow2_bits_low.
  - by rewrite (small_bits_high i b), andb_false_r.
Qed.

Section Loop.
Context (n d : Z) (Hn : is_u 64 n) (Hd : 0 < d < 2 ^ 64).

(** The bits of the quotient above bit [i] and bit [i] itself do not overlap. *)
Lemma quot_set_bit q i :
  0 <= i -> Z.lor (q * 2 ^ (i + 1)) (Z.shiftl 1 i) = (2 * q + 1) * 2 ^ i.
Proof.
  intros Hi. rewrite Z.shiftl_mul_pow2, Z.mul_1_l by lia.
  rewrite lor_disjoint_low; rewrite ?Z.pow_add_r by lia; nia.
Qed.

Lemma prefix_bit i :
  0 <= i ->
  n / 2 ^ i = 2 * (n / 2 ^ (i + 1)) + Z.land (Z.shiftr n i) 1.
Proof.
  intros Hi. rewrite Z.pow_add_r, <- Z.div_div by lia.
  rewrite land_1, Z.shiftr_div_pow2 by lia. change (2 ^ 1) with 2.
  pose proof (Z.div_mod (n / 2 ^ i) 2). lia.
Qed.

Lemma div_u64_step_inv i st :
  0 <= i < 64 -> div_u64_inv n d (i + 1) st ->
  div_u64_inv n d i (div_u64_step n d i st).
Proof using Hn Hd.
  unfold div_u64_inv, div_u64_step. intros Hi ->.
  pose proof (prefix_bit i) as Hp.
  set (p := n / 2 ^ (i + 1)) in *. set (b := Z.land (Z.shiftr n i) 1) in *.
  assert (0 <= b <= 1) as Hb.
  { subst b. rewrite land_1. pose proof (Z.mod_pos_bound (Z.shiftr n i) 2). lia. }
  assert (0 <= p < 2 ^ 63) as Hpr.
  { unfold is_u in Hn. subst p. split; [apply Z.div_pos; lia|].
    apply Z.div_lt_upper_bound; [lia|].
    apply Z.lt_le_trans with (2 ^ 64); [lia|].
    rewrite <- Z.pow_add_r by lia. apply Z.pow_le_mono_r; lia. }
  pose proof (Z.mod_pos_bound p d) as Hm.
  pose proof (Z.mod_le p d) as Hle.
  pose proof (Z.div_mod p d) as Hdm.
  set (r := p mod d) in *. set (q := p / d) in *.
  rewrite (swrap_id 64 r) by (unfold is_s; lia).
  rewrite Z.shiftl_mul_pow2 by lia.
  rewrite !uwrap_swrap by lia. rewrite (uwrap_id 64 (r * 2 ^ 1)) by (unfold is_u; lia).
  rewrite lor_disjoint_low by lia.
  rewrite (uwrap_id 64 (r * 2 ^ 1 + b)) by (unfold is_u; lia).
  rewrite swrap_lor, quot_set_bit by lia.
  rewrite swrap_uwrap by lia.
  destruct (Z.leb_spec d (r * 2 ^ 1 + b)).
  - rewrite <- (Z.div_unique (n / 2 ^ i) d (2 * q + 1) (2 * r + b - d)) by lia.
    rewrite <- (Z.mod_unique (n / 2 ^ i) d (2 * q + 1) (2 * r + b - d)) by lia.
    f_equal. f_equal. lia.
  - rewrite <- (Z.div_unique (n / 2 ^ i) d (2 * q) (2 * r + b)) by lia.
    rewrite <- (Z.mod_unique (n / 2 ^ i) d (2 * q) (2 * r + b)) by lia.
    rewrite Z.pow_add_r by lia. f_equal; f_equal; lia.
Qed.

Lemma div_u64_loop_inv k st :
  (k <= 64)%nat -> div_u64_inv n d (Z.of_nat k) st ->
  div_u64_inv n d 0 (div_u64_loop k n d st).
Proof using Hn Hd.
  revert st. induction k as [|k IH]; intros st Hk Hinv; [done|].
  simpl. apply IH; [lia|]. apply div_u64_step_inv; [lia|].
  by replace (Z.of_nat k + 1) with (Z.of_nat (S k)) by lia.
Qed.

Lemma div_u64_value : div_u64 n d = (s64 (n / d), s64 (n mod d)).
Proof using Hn Hd.
  assert (div_u64_inv n d 0 (div_u64 n d)) as E.
  { apply div_u64_loop_inv; [lia|]. unfold div_u64_inv.
    rewrite (Z.div_small n) by (unfold is_u in Hn; lia). by rewrite Z.mod_0_l by lia. }
  rewrite E. by rewrite Z.pow_0_r, Z.div_1_r, Z.mul_1_r.
Qed.

(** C35: [__udivdi3] and [__umoddi3] compute the unsigned 64-bit quotient and
    remainder for every dividend and every non-zero divisor, although the loop
    keeps the remainder in a signed [long long]. *)
Theorem udivdi3_umoddi3_correct : udivdi3 n d = n / d /\ umoddi3 n d = n mod d.
Proof using Hn Hd.
  unfold udivdi3, umoddi3. rewrite div_u64_value. simpl.
  unfold is_u in Hn. rewrite !uwrap_swrap by lia.
  pose proof (Z.mod_pos_bound n d). pose proof (Z.mod_le n d).
  assert (n / d <= n) by (apply Z.div_le_upper_bound; nia).
  assert (0 <= n / d) by (apply Z.div_pos; lia).
  split; apply uwrap_id; unfold is_u; lia.
Qed.
End Loop.

(** ** Signed division *)

Lemma div_64_nonneg fuel n d :
  0 <= n < 2 ^ 63 -> 0 < d < 2 ^ 63 ->
  div_64 (S fuel) n d = Ret (n / d, n mod d).
Proof.
  intros Hn Hd. simpl. repeat zcase; try lia.
  rewrite !uwrap_id by (unfold is_u; lia).
  rewrite div_u64_value by (unfold is_u; lia).
  pose proof (Z.mod_pos_bound n d). pose proof (Z.mod_le n d).
  assert (n / d <= n) by (apply Z.div_le_upper_bound; nia).
  assert (0 <= n / d) by (apply Z.div_pos; lia).
  by rewrite !swrap_id by (unfold is_s; lia).
Qed.

(** For a positive divisor [div_64] is floor division. *)
Lemma div_64_pos fuel n d :
  - 2 ^ 63 < n < 2 ^ 63 -> 0 < d < 2 ^ 63 ->
  div_64 (S (S fuel)) n d = Ret (n / d, n mod d).
Proof.
  intros Hn Hd. destruct (Z.lt_ge_cases n 0); [|apply div_64_nonneg; lia].
  remember (S fuel) as f. cbn [div_64]. subst f. repeat zcase; try lia.
  rewrite swrap_id by (unfold is_s; lia).
  rewrite div_64_nonneg by lia. cbn.
  pose proof (Z.div_mod (- n) d). pose proof (Z.mod_pos_bound (- n) d).
  assert (- n / d <= - n) by (apply Z.div_le_upper_bound; nia).
  assert (0 <= - n / d) by (apply Z.div_pos; lia).
  rewrite !(swrap_id 64 (- (- n / d))) by (unfold is_s; lia).
  zcase; cbn; [|rewrite !swrap_id by (unfold is_s; lia)]; do 2 f_equal.
  - apply Z.div_unique with 0; lia.
  - apply Z.mod_unique with (- (- n / d)); lia.
  - apply Z.div_unique with (d - - n mod d); lia.
  - apply Z.mod_unique with (- (- n / d) - 1); lia.
Qed.

Lemma div_64_neg fuel n d :
  - 2 ^ 63 < n < 2 ^ 63 -> - 2 ^ 63 < d < 0 ->
  div_64 (S (S (S fuel))) n d = Ret (- (n / - d), n mod - d).
Proof.
  intros Hn Hd. remember (S (S fuel)) as f. cbn [div_64]. subst f.
  repeat zcase; try lia.
  rewrite (swrap_id 64 (- d)) by (unfold is_s; lia).
  rewrite div_64_pos by lia. cbn.
  rewrite swrap_id; [done| |done].
  pose proof (Z.div_mod n (- d)). pose proof (Z.mod_pos_bound n (- d)).
  unfold is_s; nia.
Qed.

(** What [__divdi3]/[__moddi3] return.  The pair is floor division by
    [|d|] with the quotient negated for a negative divisor, so the result is
    C's truncating quotient exactly when the dividend is not negative or the
    division is exact. *)
Theorem divdi3_truncates_iff n d :
  - 2 ^ 63 < n < 2 ^ 63 -> - 2 ^ 63 < d < 2 ^ 63 -> d <> 0 ->
  divdi3 n d = Ret (Z.sgn d * (n / Z.abs d)) /\
  moddi3 n d = Ret (n mod Z.abs d) /\
  (divdi3 n d = Ret (Z.quot n d) <-> 0 <= n \/ (d | n)).
Proof.
  intros Hn Hd Hd0.
  assert (div_64 div_64_fuel n d = Ret (Z.sgn d * (n / Z.abs d), n mod Z.abs d)) as E.
  { destruct (Z.lt_ge_cases d 0).
    - rewrite Z.sgn_neg, Z.abs_neq by lia. unfold div_64_fuel.
      by rewrite div_64_neg by lia.
    - rewrite Z.sgn_pos, Z.abs_eq, Z.mul_1_l by lia. by apply div_64_pos; lia. }
  unfold divdi3, moddi3. rewrite E. cbn. do 2 (split; [done|]).
  rewrite <- Z.divide_abs_l.
  assert (d = Z.abs d /\ Z.sgn d = 1 \/ d = - Z.abs d /\ Z.sgn d = -1) as Hsd by lia.
  assert (Z.quot n d = Z.sgn d * Z.quot n (Z.abs d)) as ->.
  { destruct Hsd as [[Ha Hsd]|[Ha Hsd]]; rewrite Hsd, Ha at 1.
    - lia.
    - rewrite Z.quot_opp_r by lia. lia. }
  set (a := Z.abs d) in *. assert (0 < a) by lia.
  rewrite (Z.quot_div n a) by lia. rewrite (Z.sgn_pos a) by lia.
  rewrite (Z.abs_eq a) by lia. rewrite Z.mul_1_r.
  pose proof (Z.div_mod n a). pose proof (Z.mod_pos_bound n a).
  destruct (Z.lt_ge_cases n 0) as [Hneg|Hpos].
  - rewrite (Z.sgn_neg n), (Z.abs_neq n) by lia.
    pose proof (Z.div_mod (- n) a). pose proof (Z.mod_pos_bound (- n) a).
    split.
    + intros [= Heq]. right. apply Z.mod_divide; [lia|].
      assert (n / a = -1 * (- n / a)) by nia. nia.
    + intros [|Hdiv]; [lia|]. apply Z.mod_divide in Hdiv; [|lia].
      do 2 f_equal. nia.
  - rewrite (Z.abs_eq n) by lia.
    split; [by left|]. intros _. do 2 f_equal.
    destruct (decide (n = 0)) as [->|]; [rewrite Z.div_0_l; lia|].
    rewrite (Z.sgn_pos n) by lia. lia.
Qed.

(** For the most negative dividend the sign removal does not make
    progress ([-n] wraps to [n]) and the recursion of [div_64] never ends. *)
Theorem div_64_min_diverges fuel d :
  0 < d < 2 ^ 63 -> div_64 fuel (- 2 ^ 63) d = NoFuel.
Proof.
  intros Hd. induction fuel as [|fuel IH]; [done|].
  cbn [div_64]. repeat zcase; try lia.
  change (s64 (- - 2 ^ 63)) with (- 2 ^ 63). by rewrite IH.
Qed.

(** ** Witnesses *)

Lemma udivdi3_umoddi3_correct_witness :
  udivdi3 (2 ^ 64 - 1) (2 ^ 63 + 1) = (2 ^ 64 - 1) / (2 ^ 63 + 1) /\
  umoddi3 (2 ^ 64 - 1) (2 ^ 63 + 1) = (2 ^ 64 - 1) mod (2 ^ 63 + 1).
Proof. apply udivdi3_umoddi3_correct; unfold is_u; lia. Defined.

Lemma divdi3_truncates_iff_witness :
  divdi3 (-7) 2 = Ret (-4) /\ moddi3 (-7) 2 = Ret 1 /\
  (divdi3 (-7) 2 = Ret (-3) <-> 0 <= -7 \/ (2 | -7)).
Proof. apply (divdi3_truncates_iff (-7) 2); lia. Defined.

Lemma div_64_min_diverges_witness : div_64 1000 (- 2 ^ 63) 10 = NoFuel.
Proof. apply div_64_min_diverges; lia. Defined.
