(* ===== verification/Bytes.v ===== *)
(** * Integers in byte buffers

    The C code reads and writes [uint32_t]/[int32_t] objects inside of block
    buffers through pointer casts; RISC-V is little endian.  Shared by the log
    header and the indirect blocks of the file system. *)
From S2P Require Import Prelude.

(** [*(uint32_t * )(data + off)]: [None] when it is not inside of the buffer. *)
Definition get_u32 (off : nat) (b : list Z) : option Z :=
  x0 ← b !! off; x1 ← b !! (off + 1)%nat; x2 ← b !! (off + 2)%nat; x3 ← b !! (off + 3)%nat;
  Some (x0 + 256 * (x1 + 256 * (x2 + 256 * x3))).

(** [*(uint32_t * )(data + off) = v] *)
Definition put_u32 (off : nat) (v : Z) (b : list Z) : option (list Z) :=
  if decide (off + 4 <= length b)%nat then
    Some (<[off := v mod 256]>
            (<[(off + 1)%nat := (v / 256) mod 256]>
               (<[(off + 2)%nat := (v / 256 / 256) mod 256]>
                  (<[(off + 3)%nat := (v / 256 / 256 / 256) mod 256]> b))))
  else None.

Lemma put_u32_Some off v b :
  (off + 4 <= length b)%nat -> exists b', put_u32 off v b = Some b' /\ length b' = length b.
Proof.
  intros H. unfold put_u32. rewrite decide_True by done. eexists. split; [done|].
  by rewrite !length_insert.
Qed.

Lemma length_put_u32 off v b b' : put_u32 off v b = Some b' -> length b' = length b.
Proof.
  unfold put_u32. case_decide; [|done]. intros [= <-]. by rewrite !length_insert.
Qed.

Lemma get_put_u32_eq off v b b' :
  is_u 32 v -> put_u32 off v b = Some b' -> get_u32 off b' = Some v.
Proof.
  unfold is_u, put_u32, get_u32. intros Hv. case_decide as Hl; [|done]. intros [= <-].
  set (b' := <[off := _]> _).
  assert (b' !! off = Some (v mod 256)) as ->.
  { apply list_lookup_insert_eq. rewrite !length_insert. lia. }
  assert (b' !! (off + 1)%nat = Some ((v / 256) mod 256)) as ->.
  { unfold b'. rewrite list_lookup_insert_ne by lia.
    apply list_lookup_insert_eq. rewrite !length_insert. lia. }
  assert (b' !! (off + 2)%nat = Some ((v / 256 / 256) mod 256)) as ->.
  { unfold b'. rewrite !list_lookup_insert_ne by lia.
    apply list_lookup_insert_eq. rewrite !length_insert. lia. }
  assert (b' !! (off + 3)%nat = Some ((v / 256 / 256 / 256) mod 256)) as ->.
  { unfold b'. rewrite !list_lookup_insert_ne by lia.
    apply list_lookup_insert_eq. lia. }
  simpl.
  f_equal.
  pose proof (Z.div_mod v 256). pose proof (Z.div_mod (v / 256) 256).
  pose proof (Z.div_mod (v / 256 / 256) 256).
  assert (v / 256 / 256 / 256 < 256) by (rewrite !Z.div_div by lia; apply Z.div_lt_upper_bound; lia).
  assert (0 <= v / 256 / 256 / 256) by (rewrite !Z.div_div by lia; apply Z.div_pos; lia).
  rewrite (Z.mod_small (v / 256 / 256 / 256)) by lia. lia.
Qed.

Lemma get_put_u32_ne off off' v b b' :
  (off + 4 <= off' \/ off' + 4 <= off)%nat -> put_u32 off v b = Some b' ->
  get_u32 off' b' = get_u32 off' b.
Proof.
  unfold put_u32, get_u32. intros Hd. case_decide as Hl; [|done]. intros [= <-].
  by rewrite !list_lookup_insert_ne by lia.
Qed.

#[export] Hint Resolve get_put_u32_eq length_put_u32 : vimix.
