(* ===== verification/Bio.v ===== *)
(** * The block I/O buffer cache (kernel/kernel/bio.c, kernel/kernel/buf.c)

    The state is the global [g_buf_cache] with its list of buffers (in list
    order, least recently released first once released), the content of the
    block devices, and the list of the writes sent to the devices in the order
    they were sent: a crash keeps the effect of a prefix of that list.

    [struct buf *] is the identity [b_id] of a buffer.  [kmalloc] of a buffer
    takes the next element of [heap], the contents of the free memory objects
    that can hold a buffer; it fails when there is none.  [sleep_lock] on a
    locked buffer is [Blocked]: another process has to release it first. *)
From S2P Require Import Prelude.

Definition BLOCK_SIZE : Z := 1024.

(** Block contents are lists of bytes. *)
Abbreviation block := (list Z).

Record buf := mk_buf {
  b_id : nat;
  b_valid : bool;
  b_owned_by_driver : bool;
  b_dev : Z;
  b_blockno : Z;
  b_locked : bool;
  b_refcnt : Z;
  b_data : block
}.

Record bio := mk_bio {
  buf_list : list buf;
  num_buffers : Z;
  min_buffers : Z;
  max_free_buffers : Z;
  free_buffers : Z;
  disk : gmap (Z * Z) block;
  writes : list ((Z * Z) * block);
  heap : list block;
  next_id : nat
}.

Definition b_key (b : buf) : Z * Z := (b_dev b, b_blockno b).

(** Field updates. *)
Definition set_refcnt (n : Z) (b : buf) : buf :=
  mk_buf (b_id b) (b_valid b) (b_owned_by_driver b) (b_dev b) (b_blockno b)
    (b_locked b) n (b_data b).
Definition set_locked (l : bool) (b : buf) : buf :=
  mk_buf (b_id b) (b_valid b) (b_owned_by_driver b) (b_dev b) (b_blockno b)
    l (b_refcnt b) (b_data b).
Definition set_valid (v : bool) (b : buf) : buf :=
  mk_buf (b_id b) v (b_owned_by_driver b) (b_dev b) (b_blockno b)
    (b_locked b) (b_refcnt b) (b_data b).
Definition set_data (d : block) (b : buf) : buf :=
  mk_buf (b_id b) (b_valid b) (b_owned_by_driver b) (b_dev b) (b_blockno b)
    (b_locked b) (b_refcnt b) d.

Definition set_bufs (l : list buf) (s : bio) : bio :=
  mk_bio l (num_buffers s) (min_buffers s) (max_free_buffers s) (free_buffers s)
    (disk s) (writes s) (heap s) (next_id s).
Definition set_free (n : Z) (s : bio) : bio :=
  mk_bio (buf_list s) (num_buffers s) (min_buffers s) (max_free_buffers s) n
    (disk s) (writes s) (heap s) (next_id s).

(** Dereference of a [struct buf *]. *)
Definition find_buf (id : nat) (l : list buf) : option buf :=
  List.find (fun b => Nat.eqb (b_id b) id) l.

Definition upd_buf (id : nat) (f : buf -> buf) (l : list buf) : list buf :=
  map (fun b => if Nat.eqb (b_id b) id then f b else b) l.

(** [list_del]. *)
Definition del_buf (id : nat) (l : list buf) : list buf :=
  List.filter (fun b => negb (Nat.eqb (b_id b) id)) l.

Definition deref (id : nat) : ST bio buf :=
  fun s => match find_buf id (buf_list s) with
           | Some b => Ret (b, s)
           | None => Undef
           end.

Definition modify_buf (id : nat) (f : buf -> buf) : ST bio unit :=
  modify (fun s => set_bufs (upd_buf id f (buf_list s)) s).

(** ** buf.c *)

Definition buf_reinit (dev blockno : Z) (b : buf) : buf :=
  mk_buf (b_id b) false false dev blockno (b_locked b) 1 (b_data b).

(** [buf_init] on a new object: [list_add] puts it at the front. *)
Definition buf_init (id : nat) (content : block) (dev blockno : Z) : ST bio unit :=
  modify (fun s =>
    let b := buf_reinit dev blockno (mk_buf id false false 0 0 false 0 content) in
    mk_bio (b :: buf_list s) (u64 (num_buffers s + 1)) (min_buffers s)
      (max_free_buffers s) (free_buffers s) (disk s) (writes s) (heap s) (next_id s)).

(** [buf_alloc_init]: [None] is NULL. *)
Definition buf_alloc_init (dev blockno : Z) : ST bio (option nat) :=
  s ← get;
  match heap s with
  | [] => mret None
  | content :: rest =>
      let id := next_id s in
      put (mk_bio (buf_list s) (num_buffers s) (min_buffers s) (max_free_buffers s)
             (free_buffers s) (disk s) (writes s) rest (S id));;
      buf_init id content dev blockno;;
      mret (Some id)
  end.

Definition buf_deinit (id : nat) : ST bio unit :=
  modify (fun s =>
    mk_bio (del_buf id (buf_list s)) (u64 (num_buffers s - 1)) (min_buffers s)
      (max_free_buffers s) (free_buffers s) (disk s) (writes s) (heap s) (next_id s)).

(** [kfree] of a buffer: the object can be allocated again. *)
Definition kfree_buf (b : buf) : ST bio unit :=
  modify (fun s =>
    mk_bio (buf_list s) (num_buffers s) (min_buffers s) (max_free_buffers s)
      (free_buffers s) (disk s) (writes s) (heap s ++ [b_data b]) (next_id s)).

(** ** bio.c *)

Definition sleep_lock (id : nat) : ST bio unit :=
  b ← deref id;
  if b_locked b then lift Blocked else modify_buf id (set_locked true).

Definition sleep_unlock (id : nat) : ST bio unit := modify_buf id (set_locked false).

(** The search loop of [bio_get_from_cache]: the buffer of the block, if any,
    and the first unused buffer seen before it. *)
Fixpoint cache_scan (dev blockno : Z) (l : list buf) (free : option nat)
    : option buf * option nat :=
  match l with
  | [] => (None, free)
  | b :: l =>
      if ((b_dev b =? dev) && (b_blockno b =? blockno))%bool then (Some b, free)
      else cache_scan dev blockno l
             (if b_refcnt b =? 0
              then match free with None => Some (b_id b) | Some _ => free end
              else free)
  end.

Definition bio_get_from_cache (dev blockno : Z) : ST bio nat :=
  s ← get;
  id ← match cache_scan dev blockno (buf_list s) None with
       | (Some b, _) =>
           (if b_refcnt b =? 0
            then modify (fun s => set_free (u64 (free_buffers s - 1)) s)
            else mret tt);;
           modify_buf (b_id b) (set_refcnt (u32 (b_refcnt b + 1)));;
           mret (b_id b)
       | (None, None) =>
           o ← buf_alloc_init dev blockno;
           match o with
           | Some id => mret id
           | None => lift Undef
           end
       | (None, Some id) =>
           modify_buf id (buf_reinit dev blockno);;
           modify (fun s => set_free (u64 (free_buffers s - 1)) s);;
           mret id
       end;
  sleep_lock id;;
  mret id.

Definition zero_block : block := replicate (Z.to_nat BLOCK_SIZE) 0.

(** What the device holds for a block. *)
Definition disk_block (d : gmap (Z * Z) block) (k : Z * Z) : block :=
  default zero_block (d !! k).

Section Devices.
(** Whether a device number is a registered block device (the device list is
    not part of this component). *)
Context (is_block_device : Z -> bool).

Definition bio_read (dev blockno : Z) : ST bio nat :=
  id ← bio_get_from_cache dev blockno;
  b ← deref id;
  (if b_valid b then mret tt
   else
     (if is_block_device dev then mret tt else lift Panic);;
     s ← get;
     modify_buf id (set_data (disk_block (disk s) (b_key b)));;
     modify_buf id (set_valid true));;
  mret id.

Definition bio_write (id : nat) : ST bio unit :=
  b ← deref id;
  (if is_block_device (b_dev b) then mret tt else lift Panic);;
  modify (fun s =>
    mk_bio (buf_list s) (num_buffers s) (min_buffers s) (max_free_buffers s)
      (free_buffers s) (<[b_key b := b_data b]> (disk s))
      (writes s ++ [(b_key b, b_data b)]) (heap s) (next_id s)).
End Devices.

Definition bio_has_too_many_buffers (s : bio) : bool :=
  if num_buffers s <=? min_buffers s then false
  else if free_buffers s <=? max_free_buffers s then false
  else true.

Definition bio_might_free (id : nat) : ST bio unit :=
  s ← get;
  b ← deref id;
  if bio_has_too_many_buffers s
  then buf_deinit id;; kfree_buf b
  else
    modify (fun s => set_bufs (del_buf id (buf_list s) ++ [b]) s);;
    modify (fun s => set_free (u64 (free_buffers s + 1)) s).

Definition bio_release (id : nat) : ST bio unit :=
  sleep_unlock id;;
  b ← deref id;
  modify_buf id (set_refcnt (u32 (b_refcnt b - 1)));;
  if u32 (b_refcnt b - 1) =? 0 then bio_might_free id else mret tt.

Definition bio_get (id : nat) : ST bio unit :=
  b ← deref id;
  modify_buf id (set_refcnt (u32 (b_refcnt b + 1))).

Definition bio_put (id : nat) : ST bio unit :=
  b ← deref id;
  modify_buf id (set_refcnt (u32 (b_refcnt b - 1))).

(** One iteration of the loop of [bio_cache_free_extra_buffers]. *)
Definition free_extra_step (id : nat) : ST bio unit :=
  s ← get;
  b ← deref id;
  if ((b_refcnt b =? 0) && bio_has_too_many_buffers s)%bool
  then
    modify (fun s => set_free (u64 (free_buffers s - 1)) s);;
    buf_deinit id;; kfree_buf b
  else mret tt.

Fixpoint free_extra_loop (ids : list nat) : ST bio unit :=
  match ids with
  | [] => mret tt
  | id :: ids => free_extra_step id;; free_extra_loop ids
  end.

Definition bio_cache_free_extra_buffers : ST bio unit :=
  s ← get; free_extra_loop (map b_id (buf_list s)).

(** The allocation loop of [bio_cache_set_min_buffers], [n] iterations. *)
Fixpoint alloc_min_loop (n : nat) : ST bio unit :=
  match n with
  | O => mret tt
  | S n =>
      o ← buf_alloc_init 0 0;
      match o with
      | None => lift Panic
      | Some id =>
          modify_buf id (set_refcnt 0);;
          modify (fun s => set_free (u64 (free_buffers s + 1)) s);;
          alloc_min_loop n
      end
  end.

Definition set_min (n : Z) (s : bio) : bio :=
  mk_bio (buf_list s) (num_buffers s) n (max_free_buffers s) (free_buffers s)
    (disk s) (writes s) (heap s) (next_id s).
Definition set_max (n : Z) (s : bio) : bio :=
  mk_bio (buf_list s) (num_buffers s) (min_buffers s) n (free_buffers s)
    (disk s) (writes s) (heap s) (next_id s).

Definition bio_cache_set_min_buffers (n : Z) : ST bio Z :=
  if n <? 3 then mret (- EINVAL)
  else
    modify (set_min (u64 n));;
    s ← get;
    alloc_min_loop (Z.to_nat (min_buffers s - num_buffers s));;
    bio_cache_free_extra_buffers;;
    mret 0.

Definition bio_cache_set_max_free_buffers (n : Z) : ST bio Z :=
  if n <? 0 then mret (- EINVAL)
  else
    modify (set_max (u64 n));;
    bio_cache_free_extra_buffers;;
    mret 0.

(** [bio_init]: the cache is empty, then filled to 16 buffers. *)
Definition bio_init : ST bio unit :=
  modify (fun s => mk_bio [] 0 (min_buffers s) 16 0 (disk s) (writes s) (heap s) (next_id s));;
  _ ← bio_cache_set_min_buffers 16;
  mret tt.

(** ** The cache invariant *)

Definition is_free (b : buf) : bool := b_refcnt b =? 0.

Definition count_free (l : list buf) : Z := Z.of_nat (length (List.filter is_free l)).

(** Device 0 is [INVALID_DEVICE]: the buffers made by
    [bio_cache_set_min_buffers] carry it until they are reused. *)
Definition good (k : Z * Z) : Prop := fst k <> 0.

(** A block of a real device has at most one buffer. *)
Definition uniq_keys (l : list buf) : Prop :=
  forall b c, b ∈ l -> c ∈ l -> b_key b = b_key c -> good (b_key b) -> b = c.

(** Counters agree with the list, identities are unique and below [next_id],
    unused buffers are unlocked. *)
Record bio_inv (s : bio) : Prop := {
  inv_ids : NoDup (map b_id (buf_list s));
  inv_fresh : Forall (fun b => (b_id b < next_id s)%nat) (buf_list s);
  inv_num : num_buffers s = Z.of_nat (length (buf_list s));
  inv_free : free_buffers s = count_free (buf_list s);
  inv_room : Z.of_nat (length (buf_list s) + length (heap s)) < 2 ^ 32;
  inv_ref : Forall (fun b => is_u 32 (b_refcnt b)) (buf_list s);
  inv_unlocked : Forall (fun b => b_refcnt b = 0 -> b_locked b = false) (buf_list s);
  inv_keys : uniq_keys (buf_list s)
}.

Definition by_key (k : Z * Z) (l : list buf) : option buf :=
  List.find (fun b => bool_decide (b_key b = k)) l.

(** What [bio_read] returns for a block: the cached copy, if there is a valid
    one, or what the device holds; the references to its buffer; its lock. *)
Definition view (s : bio) (k : Z * Z) : block :=
  match by_key k (buf_list s) with
  | Some b => if b_valid b then b_data b else disk_block (disk s) k
  | None => disk_block (disk s) k
  end.

Definition refs (s : bio) (k : Z * Z) : Z :=
  match by_key k (buf_list s) with Some b => b_refcnt b | None => 0 end.

Definition lockd (s : bio) (k : Z * Z) : bool :=
  match by_key k (buf_list s) with Some b => b_locked b | None => false end.

(** [id] is a pointer to the buffer of block [k]. *)
Definition holds (s : bio) (id : nat) (k : Z * Z) : Prop :=
  exists b, b ∈ buf_list s /\ b_id b = id /\ b_key b = k.

(** Buffers that can still be handed out. *)
Definition spare (s : bio) : Z := Z.of_nat (length (heap s)) + count_free (buf_list s).

(** Unused buffers hold what the device holds, so reusing or freeing one
    loses nothing. *)
Definition bio_clean (s : bio) : Prop :=
  Forall (fun b => b_refcnt b = 0 -> b_valid b = true ->
            b_data b = disk_block (disk s) (b_key b)) (buf_list s).

(** ** Lists of buffers *)

#[global] Instance buf_eq_dec : EqDecision buf.
Proof. solve_decision. Defined.

Lemma find_buf_Some id l b : find_buf id l = Some b -> b ∈ l /\ b_id b = id.
Proof.
  unfold find_buf. intros [Hin E]%find_some. apply Nat.eqb_eq in E.
  by rewrite list_elem_of_In.
Qed.

Lemma find_buf_elem l b :
  NoDup (map b_id l) -> b ∈ l -> find_buf (b_id b) l = Some b.
Proof.
  unfold find_buf. induction l as [|c l IH]; intros Hnd Hin.
  - by apply not_elem_of_nil in Hin.
  - simpl in *. apply NoDup_cons in Hnd as [Hni Hnd].
    apply elem_of_cons in Hin as [->|Hin]; [by rewrite Nat.eqb_refl|].
    destruct (Nat.eqb_spec (b_id c) (b_id b)) as [E|]; [|auto].
    destruct Hni. rewrite E. rewrite list_elem_of_In. apply in_map.
    by rewrite <- list_elem_of_In.
Qed.

Lemma ids_inj l b c :
  NoDup (map b_id l) -> b ∈ l -> c ∈ l -> b_id b = b_id c -> b = c.
Proof.
  intros Hnd Hb Hc E. apply find_buf_elem in Hb, Hc; [|done..].
  rewrite E in Hb. congruence.
Qed.

Lemma elem_of_upd id f l c :
  c ∈ upd_buf id f l <->
  exists b, b ∈ l /\ c = if Nat.eqb (b_id b) id then f b else b.
Proof.
  unfold upd_buf. rewrite list_elem_of_In, in_map_iff.
  split; intros (b & H1 & H2); exists b.
  - by rewrite list_elem_of_In.
  - rewrite list_elem_of_In in H1. by subst.
Qed.

(** With unique identities, updating one buffer replaces exactly that one. *)
Lemma elem_of_upd_at f l b c :
  NoDup (map b_id l) -> b ∈ l ->
  c ∈ upd_buf (b_id b) f l <-> c = f b \/ (c ∈ l /\ b_id c <> b_id b).
Proof.
  intros Hnd Hb. rewrite elem_of_upd. split.
  - intros (d & Hd & ->). destruct (Nat.eqb_spec (b_id d) (b_id b)); [left|by right].
    f_equal. by eapply ids_inj.
  - intros [->|[Hc Hne]].
    + exists b. by rewrite Nat.eqb_refl.
    + exists c. by rewrite (proj2 (Nat.eqb_neq _ _) Hne).
Qed.

Lemma upd_ids id f l :
  (forall b, b_id (f b) = b_id b) -> map b_id (upd_buf id f l) = map b_id l.
Proof.
  intros Hf. unfold upd_buf. rewrite map_map. apply map_ext. intros b.
  by destruct (Nat.eqb (b_id b) id).
Qed.

Lemma elem_of_del id l c : c ∈ del_buf id l <-> c ∈ l /\ b_id c <> id.
Proof.
  unfold del_buf. rewrite !list_elem_of_In, filter_In, negb_true_iff, Nat.eqb_neq. done.
Qed.

Lemma by_key_Some l k b :
  uniq_keys l -> good k -> by_key k l = Some b <-> b ∈ l /\ b_key b = k.
Proof.
  intros Hu Hk. unfold by_key. split.
  - intros [Hin E]%find_some. rewrite bool_decide_eq_true in E.
    by rewrite list_elem_of_In.
  - intros [Hin E]. destruct (List.find _ l) as [c|] eqn:F.
    + apply find_some in F as [Hc F]. rewrite bool_decide_eq_true in F.
      f_equal. apply Hu; [by rewrite list_elem_of_In|done|congruence|by rewrite F].
    + rewrite list_elem_of_In in Hin. eapply find_none in F; [|done].
      by rewrite bool_decide_eq_false in F.
Qed.

Lemma by_key_None l k : by_key k l = None <-> (forall b, b ∈ l -> b_key b <> k).
Proof.
  unfold by_key. split.
  - intros F b Hin E. rewrite list_elem_of_In in Hin.
    eapply find_none in F; [|done]. by rewrite bool_decide_eq_false in F.
  - intros H. destruct (List.find _ l) as [c|] eqn:F; [|done].
    apply find_some in F as [Hc F]. rewrite bool_decide_eq_true in F.
    destruct (H c); [by rewrite list_elem_of_In|done].
Qed.

Lemma upd_not_found id f l : id ∉ map b_id l -> upd_buf id f l = l.
Proof.
  intros Hni. unfold upd_buf. induction l as [|b l IH]; [done|].
  simpl in *. apply not_elem_of_cons in Hni as [Hne Hni].
  rewrite (proj2 (Nat.eqb_neq _ _) (not_eq_sym Hne)), IH; done.
Qed.

Lemma del_not_found id l : id ∉ map b_id l -> del_buf id l = l.
Proof.
  intros Hni. unfold del_buf. induction l as [|b l IH]; [done|].
  simpl in *. apply not_elem_of_cons in Hni as [Hne Hni].
  rewrite (proj2 (Nat.eqb_neq _ _) (not_eq_sym Hne)). simpl. by rewrite IH.
Qed.

Lemma count_free_cons b l : count_free (b :: l) = Z.b2z (is_free b) + count_free l.
Proof. unfold count_free. simpl. destruct (is_free b); simpl; lia. Qed.

Lemma count_free_app l1 l2 : count_free (l1 ++ l2) = count_free l1 + count_free l2.
Proof. unfold count_free. rewrite List.filter_app, length_app. lia. Qed.

Lemma count_free_upd f l b :
  NoDup (map b_id l) -> b ∈ l ->
  count_free (upd_buf (b_id b) f l) =
  count_free l - Z.b2z (is_free b) + Z.b2z (is_free (f b)).
Proof.
  induction l as [|c l IH]; intros Hnd Hin; [by apply not_elem_of_nil in Hin|].
  simpl in Hnd. apply NoDup_cons in Hnd as [Hni Hnd]. simpl.
  rewrite !count_free_cons. apply elem_of_cons in Hin as [->|Hin].
  - rewrite Nat.eqb_refl. fold (upd_buf (b_id c) f l). rewrite upd_not_found by done. lia.
  - fold (upd_buf (b_id b) f l). rewrite IH by done.
    destruct (Nat.eqb_spec (b_id c) (b_id b)) as [E|]; [|lia].
    destruct Hni. rewrite E, list_elem_of_In. apply in_map. by rewrite <- list_elem_of_In.
Qed.

Lemma del_perm l b :
  NoDup (map b_id l) -> b ∈ l -> l ≡ₚ b :: del_buf (b_id b) l.
Proof.
  induction l as [|c l IH]; intros Hnd Hin; [by apply not_elem_of_nil in Hin|].
  simpl in Hnd. apply NoDup_cons in Hnd as [Hni Hnd]. simpl.
  apply elem_of_cons in Hin as [->|Hin].
  - rewrite Nat.eqb_refl. simpl. fold (del_buf (b_id c) l). by rewrite del_not_found.
  - fold (del_buf (b_id b) l).
    destruct (Nat.eqb_spec (b_id c) (b_id b)) as [E|]; simpl.
    + destruct Hni. rewrite E, list_elem_of_In. apply in_map. by rewrite <- list_elem_of_In.
    + rewrite Permutation_swap. apply perm_skip. by apply IH.
Qed.

Lemma count_free_perm l1 l2 : l1 ≡ₚ l2 -> count_free l1 = count_free l2.
Proof.
  unfold count_free. intros E. f_equal. apply Permutation_length.
  induction E; simpl.
  - done.
  - destruct (is_free x); by rewrite IHE.
  - destruct (is_free x), (is_free y); done || by apply perm_swap.
  - by etrans.
Qed.

Lemma count_free_del l b :
  NoDup (map b_id l) -> b ∈ l ->
  count_free (del_buf (b_id b) l) = count_free l - Z.b2z (is_free b).
Proof.
  intros Hnd Hin. rewrite (count_free_perm l _ (del_perm l b Hnd Hin)), count_free_cons. lia.
Qed.

Lemma length_del l b :
  NoDup (map b_id l) -> b ∈ l -> S (length (del_buf (b_id b) l)) = length l.
Proof. intros Hnd Hin. by rewrite (del_perm l b Hnd Hin) at 2. Qed.

Lemma count_free_bounds l : 0 <= count_free l <= Z.of_nat (length l).
Proof. unfold count_free. pose proof (List.filter_length_le is_free l). lia. Qed.

Lemma uniq_upd f l b :
  NoDup (map b_id l) -> uniq_keys l -> b ∈ l ->
  (b_key (f b) = b_key b \/ by_key (b_key (f b)) l = None) ->
  uniq_keys (upd_buf (b_id b) f l).
Proof.
  intros Hnd Hu Hb Hk c d Hc Hd E Hg.
  rewrite elem_of_upd_at in Hc, Hd by done.
  assert (forall e, e ∈ l -> b_id e <> b_id b -> b_key e = b_key (f b) ->
            good (b_key (f b)) -> False) as Hno.
  { intros e He Hne Hke Hge. destruct Hk as [Hk|Hk].
    - apply Hne. f_equal. apply Hu; [done..|congruence|by rewrite Hke].
    - rewrite by_key_None in Hk. by eapply Hk. }
  destruct Hc as [->|[Hc Hcn]], Hd as [->|[Hd Hdn]]; [done|..|by apply Hu].
  - destruct (Hno d); [done..|congruence|done].
  - destruct (Hno c); [done..|congruence|by rewrite <- E].
Qed.

Lemma by_key_upd f l b k :
  NoDup (map b_id l) -> uniq_keys l -> b ∈ l -> good k ->
  (b_key (f b) = b_key b \/ by_key (b_key (f b)) l = None) ->
  by_key k (upd_buf (b_id b) f l) =
  if decide (b_key (f b) = k) then Some (f b)
  else if decide (b_key b = k) then None else by_key k l.
Proof.
  intros Hnd Hu Hb Hg Hk. pose proof (uniq_upd f l b Hnd Hu Hb Hk) as Hu'.
  repeat case_decide.
  - apply by_key_Some; [done..|]. rewrite elem_of_upd_at by done. auto.
  - apply by_key_None. intros c [->|[Hc Hne]]%elem_of_upd_at E; [done| |done..].
    apply Hne. f_equal. apply Hu; [done..|congruence|by rewrite E].
  - destruct (by_key k l) as [c|] eqn:E.
    + apply by_key_Some in E as [Hc E]; [|done..].
      apply by_key_Some; [done..|]. rewrite elem_of_upd_at by done.
      split; [|done]. right. split; [done|]. intros Heq.
      assert (c = b) as -> by by eapply ids_inj. done.
    + rewrite by_key_None in E. apply by_key_None.
      intros c [->|[Hc Hne]]%elem_of_upd_at; [done|by apply E|done..].
Qed.

(** ** Effect of the operations, per block *)

Definition vald (s : bio) (k : Z * Z) : bool :=
  match by_key k (buf_list s) with Some b => b_valid b | None => false end.

(** From [s] to [s'] only the buffer of block [k] changes; an unused buffer
    of another block may have been dropped. *)
Record step_at (s s' : bio) (k : Z * Z) : Prop := {
  sa_inv : bio_inv s';
  sa_refs k' : good k' -> k' <> k -> refs s' k' = refs s k';
  sa_lockd k' : good k' -> k' <> k -> lockd s' k' = lockd s k';
  sa_view k' : good k' -> k' <> k -> view s' k' = view s k';
  sa_vald k' : good k' -> k' <> k -> refs s k' <> 0 -> vald s' k' = vald s k';
  sa_holds id k' : good k' -> refs s k' <> 0 -> refs s' k' <> 0 ->
    holds s id k' -> holds s' id k'
}.

Lemma holds_by_key s id k :
  bio_inv s -> good k -> holds s id k ->
  exists b, by_key k (buf_list s) = Some b /\ b ∈ buf_list s /\ b_id b = id /\
    b_key b = k /\ find_buf id (buf_list s) = Some b.
Proof.
  intros Hi Hg (b & Hb & <- & Hk). exists b. repeat split; auto.
  - apply by_key_Some; [apply Hi|done|done].
  - apply find_buf_elem; [apply Hi|done].
Qed.

(** The invariant after one buffer changed and the counters followed. *)
Lemma bio_inv_upd s s' f b :
  bio_inv s -> b ∈ buf_list s ->
  (forall c, b_id (f c) = b_id c) ->
  (b_key (f b) = b_key b \/ by_key (b_key (f b)) (buf_list s) = None) ->
  is_u 32 (b_refcnt (f b)) ->
  (b_refcnt (f b) = 0 -> b_locked (f b) = false) ->
  buf_list s' = upd_buf (b_id b) f (buf_list s) ->
  free_buffers s' = free_buffers s - Z.b2z (is_free b) + Z.b2z (is_free (f b)) ->
  num_buffers s' = num_buffers s -> heap s' = heap s -> next_id s' = next_id s ->
  bio_inv s'.
Proof.
  intros Hi Hb Hid Hk Hr Hl El Ef En Eh Ei.
  pose proof (inv_ids s Hi) as Hnd. pose proof (inv_keys s Hi) as Hu.
  constructor; rewrite ?El, ?Ef, ?En, ?Eh, ?Ei.
  - by rewrite upd_ids.
  - apply Forall_forall. intros c [->|[Hc _]]%elem_of_upd_at; [rewrite Hid| |done..];
      pose proof (inv_fresh s Hi) as Hf; rewrite Forall_forall in Hf; by apply Hf.
  - unfold upd_buf. rewrite length_map. apply Hi.
  - rewrite count_free_upd by done. by rewrite (inv_free s Hi).
  - unfold upd_buf. rewrite length_map. apply Hi.
  - apply Forall_forall. intros c [->|[Hc _]]%elem_of_upd_at; [done| |done..].
    pose proof (inv_ref s Hi) as Hf; rewrite Forall_forall in Hf; by apply Hf.
  - apply Forall_forall. intros c [->|[Hc _]]%elem_of_upd_at; [done| |done..].
    pose proof (inv_unlocked s Hi) as Hf; rewrite Forall_forall in Hf; by apply Hf.
  - by apply uniq_upd.
Qed.

(** Changing the buffer of [k] in place. *)
Lemma step_at_upd s s' f b k :
  bio_inv s -> b ∈ buf_list s -> b_key b = k -> good k ->
  (forall c, b_id (f c) = b_id c) -> b_key (f b) = k ->
  is_u 32 (b_refcnt (f b)) ->
  (b_refcnt (f b) = 0 -> b_locked (f b) = false) ->
  buf_list s' = upd_buf (b_id b) f (buf_list s) ->
  free_buffers s' = free_buffers s - Z.b2z (is_free b) + Z.b2z (is_free (f b)) ->
  num_buffers s' = num_buffers s -> heap s' = heap s -> next_id s' = next_id s ->
  (forall k', k' <> k -> disk_block (disk s') k' = disk_block (disk s) k') ->
  step_at s s' k /\ by_key k (buf_list s') = Some (f b) /\
  spare s' = spare s - Z.b2z (is_free b) + Z.b2z (is_free (f b)).
Proof.
  intros Hi Hb Hk Hg Hid Hkf Hr Hl El Ef En Eh Ei Ed.
  assert (b_key (f b) = b_key b \/ by_key (b_key (f b)) (buf_list s) = None) as Hor
    by (left; congruence).
  pose proof (inv_ids s Hi) as Hnd. pose proof (inv_keys s Hi) as Hu.
  assert (forall k', good k' -> k' <> k ->
            by_key k' (buf_list s') = by_key k' (buf_list s)) as Hbk.
  { intros k' Hg' Hne. rewrite El, by_key_upd by done.
    rewrite !decide_False by congruence. done. }
  split; [constructor|split].
  - by eapply bio_inv_upd.
  - intros k' Hg' Hne. unfold refs. by rewrite Hbk.
  - intros k' Hg' Hne. unfold lockd. by rewrite Hbk.
  - intros k' Hg' Hne. unfold view. by rewrite Hbk, Ed.
  - intros k' Hg' Hne _. unfold vald. by rewrite Hbk.
  - intros id k' _ _ _ (c & Hc & Hci & Hck). unfold holds. rewrite El.
    destruct (decide (b_id c = b_id b)) as [E|Hne].
    + exists (f b). rewrite elem_of_upd_at, Hid by done.
      assert (c = b) as -> by by eapply ids_inj. rewrite Hkf. split; [by left|]. split; [done|congruence].
    + exists c. rewrite elem_of_upd_at by done. auto.
  - rewrite El, by_key_upd by done. by rewrite decide_True.
  - unfold spare. rewrite Eh, El, count_free_upd by done. lia.
Qed.

(** Outcome of handing out the buffer of [k]: one more reference, locked, with
    the content seen before; nothing is lost. *)
Record taken (s s' : bio) (id : nat) (k : Z * Z) : Prop := {
  tk_step : step_at s s' k;
  tk_clean : bio_clean s';
  tk_holds : holds s' id k;
  tk_refs : refs s' k = refs s k + 1;
  tk_lockd : lockd s' k = true;
  tk_view : view s' k = view s k;
  tk_vald : vald s k = true -> vald s' k = true;
  tk_disk : disk s' = disk s;
  tk_writes : writes s' = writes s;
  tk_spare : spare s' = spare s - (if refs s k =? 0 then 1 else 0)
}.

Lemma cache_scan_fst dev bn l f : fst (cache_scan dev bn l f) = by_key (dev, bn) l.
Proof.
  revert f. induction l as [|b l IH]; intros f; [done|].
  simpl. unfold by_key, b_key. simpl.
  destruct (Z.eqb_spec (b_dev b) dev), (Z.eqb_spec (b_blockno b) bn); simpl;
    case_bool_decide; simplify_eq; try done; apply IH.
Qed.

Lemma cache_scan_free dev bn l f o :
  cache_scan dev bn l f = (None, o) ->
  match o with
  | Some id => f = Some id \/ exists b, b ∈ l /\ b_id b = id /\ b_refcnt b = 0
  | None => f = None /\ forall b, b ∈ l -> b_refcnt b <> 0
  end.
Proof.
  revert f. induction l as [|b l IH]; intros f; simpl.
  - intros [= <-]. destruct f; [by left|]. split; [done|]. by intros b ?%not_elem_of_nil.
  - destruct (_ && _)%bool; [done|]. intros E. apply IH in E.
    destruct o as [id|].
    + destruct E as [E|(c & Hc & ?)]; [|right; exists c; rewrite elem_of_cons; tauto].
      destruct (Z.eqb_spec (b_refcnt b) 0); [|by left].
      destruct f; [by left|]. simplify_eq. right. exists b. rewrite elem_of_cons. tauto.
    + destruct E as [E Hl]. destruct (Z.eqb_spec (b_refcnt b) 0); [by destruct f|].
      split; [done|]. intros c [->|Hc]%elem_of_cons; auto.
Qed.

Lemma count_free_pos s b :
  bio_inv s -> b ∈ buf_list s -> b_refcnt b = 0 -> 1 <= count_free (buf_list s).
Proof.
  intros Hi Hb Hr. pose proof (count_free_del (buf_list s) b (inv_ids s Hi) Hb) as E.
  pose proof (count_free_bounds (del_buf (b_id b) (buf_list s))).
  unfold is_free in E. rewrite Hr in E. simpl in E. lia.
Qed.

Lemma count_free_none l : (forall b, b ∈ l -> b_refcnt b <> 0) -> count_free l = 0.
Proof.
  induction l as [|b l IH]; intros H; [done|]. rewrite count_free_cons.
  rewrite IH by (intros c Hc; apply H; rewrite elem_of_cons; tauto).
  unfold is_free. rewrite (proj2 (Z.eqb_neq _ _)) by (apply H; rewrite elem_of_cons; tauto).
  done.
Qed.

Lemma free_dec s b :
  bio_inv s -> b ∈ buf_list s -> b_refcnt b = 0 ->
  u64 (free_buffers s - 1) = free_buffers s - 1.
Proof.
  intros Hi Hb Hr. pose proof (count_free_pos s b Hi Hb Hr).
  pose proof (count_free_bounds (buf_list s)). pose proof (inv_room s Hi).
  rewrite (inv_free s Hi). apply uwrap_id. unfold is_u. lia.
Qed.

Lemma free_inc s : bio_inv s -> u64 (free_buffers s + 1) = free_buffers s + 1.
Proof.
  intros Hi. pose proof (count_free_bounds (buf_list s)). pose proof (inv_room s Hi).
  rewrite (inv_free s Hi). apply uwrap_id. unfold is_u. lia.
Qed.

Lemma upd_upd id f g l :
  (forall b, b_id (g b) = b_id b) ->
  upd_buf id f (upd_buf id g l) = upd_buf id (fun b => f (g b)) l.
Proof.
  intros Hg. unfold upd_buf. rewrite map_map. apply map_ext. intros b.
  destruct (Nat.eqb (b_id b) id) eqn:E; rewrite ?Hg, ?E; done.
Qed.

Lemma clean_upd s s' f b :
  bio_inv s -> bio_clean s -> b ∈ buf_list s ->
  buf_list s' = upd_buf (b_id b) f (buf_list s) -> disk s' = disk s ->
  (b_refcnt (f b) = 0 -> b_valid (f b) = true ->
     b_data (f b) = disk_block (disk s) (b_key (f b))) ->
  bio_clean s'.
Proof.
  intros Hi Hc Hb El Ed Hf. unfold bio_clean in *. rewrite El, Ed.
  rewrite Forall_forall in Hc |- *.
  intros c [->|[Hin _]]%elem_of_upd_at; [done|by apply Hc|apply Hi|done].
Qed.

(** The buffer is in the cache. *)
Lemma take_cached s b k :
  bio_inv s -> bio_clean s -> good k -> by_key k (buf_list s) = Some b ->
  b_locked b = false -> b_refcnt b < 2 ^ 32 - 1 ->
  taken s
    (set_bufs (upd_buf (b_id b) (fun c => set_locked true (set_refcnt (b_refcnt b + 1) c))
                 (buf_list s))
       (set_free (free_buffers s - Z.b2z (is_free b)) s))
    (b_id b) k.
Proof.
  intros Hi Hcl Hg Hbk Hl Hr. set (f := fun c => _). set (s' := set_bufs _ _).
  pose proof Hbk as Hin. apply by_key_Some in Hin as [Hin Hk]; [|apply Hi|done].
  pose proof (inv_ref s Hi) as Hrf. rewrite Forall_forall in Hrf.
  specialize (Hrf b Hin). unfold is_u in Hrf.
  assert (is_free (f b) = false) as Hfree by (unfold is_free; simpl; lia).
  destruct (step_at_upd s s' f b k) as (Hst & Hbk' & Hsp); try done.
  { by unfold is_u; simpl; lia. }
  { simpl. lia. }
  { rewrite Hfree. subst s'. simpl. lia. }
  constructor; try done.
  - eapply (clean_upd s s' f b); try done. simpl. lia.
  - exists (f b). subst s'. simpl. rewrite elem_of_upd_at; [|apply Hi|done]. auto.
  - unfold refs. by rewrite Hbk, Hbk'.
  - unfold lockd. by rewrite Hbk'.
  - unfold view. by rewrite Hbk, Hbk'.
  - unfold vald. by rewrite Hbk, Hbk'.
  - rewrite Hsp, Hfree. unfold refs. rewrite Hbk. unfold is_free.
    destruct (b_refcnt b =? 0); simpl; lia.
Qed.

(** An unused buffer is reinitialised for the block. *)
Lemma take_reused s b dev bn :
  bio_inv s -> bio_clean s -> good (dev, bn) ->
  by_key (dev, bn) (buf_list s) = None -> b ∈ buf_list s -> b_refcnt b = 0 ->
  taken s
    (set_bufs (upd_buf (b_id b) (fun c => set_locked true (buf_reinit dev bn c)) (buf_list s))
       (set_free (free_buffers s - 1) s))
    (b_id b) (dev, bn).
Proof.
  intros Hi Hcl Hg Hnone Hin Hr. set (f := fun c => _). set (s' := set_bufs _ _).
  set (k := (dev, bn)) in *.
  pose proof (inv_ids s Hi) as Hnd. pose proof (inv_keys s Hi) as Hu.
  assert (b_key (f b) = b_key b \/ by_key (b_key (f b)) (buf_list s) = None) as Hor
    by by right.
  assert (bio_inv s') as Hi'.
  { eapply (bio_inv_upd s s' f b); try done. subst s'. simpl.
    unfold is_free. simpl. rewrite Hr. simpl. lia. }
  assert (forall k', good k' -> by_key k' (buf_list s') =
            if decide (k = k') then Some (f b)
            else if decide (b_key b = k') then None else by_key k' (buf_list s)) as Hbk.
  { intros k' Hg'. by apply by_key_upd. }
  assert (by_key k (buf_list s') = Some (f b)) as Hbk'.
  { by rewrite Hbk, decide_True. }
  assert (good (b_key b) -> by_key (b_key b) (buf_list s) = Some b) as Hb.
  { intros Hgb. by apply by_key_Some. }
  constructor; try done.
  - constructor; [done|..].
    all: cycle 4.
    { intros id k' Hg' Href Href' (c & Hc & Hci & Hck). exists c. split; [|done].
      apply elem_of_upd_at; try done. right. split; [done|]. intros E.
      assert (c = b) as -> by by eapply ids_inj. unfold refs in Href.
      by rewrite <- Hck, Hb, Hr in Href by (by rewrite Hck). }
    all: intros k' Hg' Hne; unfold refs, lockd, view, vald; rewrite ?Hbk by done;
      rewrite decide_False by congruence; case_decide as Hd; try done;
      rewrite <- Hd, ?Hb in * by done; try done.
    + pose proof (inv_unlocked s Hi) as Hf. rewrite Forall_forall in Hf. by rewrite Hf.
    + unfold bio_clean in Hcl. rewrite Forall_forall in Hcl.
      destruct (b_valid b) eqn:Hv; [|done]. by rewrite Hcl.
  - eapply (clean_upd s s' f b); try done.
  - exists (f b). split; [|done]. by apply elem_of_upd_at; auto.
  - unfold refs. by rewrite Hbk', Hnone.
  - unfold lockd. by rewrite Hbk'.
  - unfold view. by rewrite Hbk', Hnone.
  - unfold vald. by rewrite Hnone.
  - unfold spare, refs. subst s'. simpl. rewrite count_free_upd by done.
    rewrite Hnone. unfold is_free. simpl. rewrite Hr. simpl. lia.
Qed.

(** A new buffer at the front of the list. *)
Lemma take_alloc s dev bn content rest :
  bio_inv s -> bio_clean s -> good (dev, bn) ->
  by_key (dev, bn) (buf_list s) = None -> heap s = content :: rest ->
  taken s
    (mk_bio (mk_buf (next_id s) false false dev bn true 1 content :: buf_list s)
       (num_buffers s + 1) (min_buffers s) (max_free_buffers s) (free_buffers s)
       (disk s) (writes s) rest (S (next_id s)))
    (next_id s) (dev, bn).
Proof.
  intros Hi Hcl Hg Hnone Hh. set (b := mk_buf _ _ _ _ _ _ _ _). set (s' := mk_bio _ _ _ _ _ _ _ _ _).
  set (k := (dev, bn)) in *. destruct Hi as [Hnd Hf Hn Hfr Hro Hre Hun Hu].
  assert (bio_inv s') as Hi'.
  { rewrite Forall_forall in Hf. subst s'. constructor; simpl.
    - apply NoDup_cons. split; [|done]. intros Hin.
      apply list_elem_of_In, in_map_iff in Hin as (c & E & Hc).
      rewrite <- list_elem_of_In in Hc. apply Hf in Hc. lia.
    - apply Forall_cons. split; [simpl; lia|]. apply Forall_forall. intros c Hc.
      apply Hf in Hc. lia.
    - rewrite Hn. lia.
    - by rewrite count_free_cons.
    - rewrite Hh in Hro. simpl in Hro. lia.
    - by apply Forall_cons.
    - by apply Forall_cons.
    - rewrite by_key_None in Hnone.
      intros c d [->|Hc]%elem_of_cons [->|Hd]%elem_of_cons E Hgd; [done|..|by apply Hu].
      + by destruct (Hnone d).
      + by destruct (Hnone c). }
  assert (forall k', good k' -> by_key k' (buf_list s') =
            if decide (k = k') then Some b else by_key k' (buf_list s)) as Hbk.
  { intros k' Hg'. unfold by_key. simpl. change (b_key b) with k. by case_decide; case_bool_decide. }
  assert (by_key k (buf_list s') = Some b) as Hbk' by by rewrite Hbk, decide_True.
  constructor; try done.
  - constructor; [done|..].
    all: cycle 4.
    { intros id k' _ _ _ (c & Hc & ?). exists c. split; [|done]. apply elem_of_cons. by right. }
    all: intros k' Hg' Hne; unfold refs, lockd, view, vald; rewrite Hbk by done;
      by rewrite decide_False by congruence.
  - by apply Forall_cons.
  - exists b. split; [|done]. apply elem_of_cons. by left.
  - unfold refs. by rewrite Hbk', Hnone.
  - unfold lockd. by rewrite Hbk'.
  - unfold view. by rewrite Hbk', Hnone.
  - unfold vald. by rewrite Hnone.
  - unfold spare, refs. rewrite Hnone, Hh. simpl. rewrite count_free_cons. simpl. lia.
Qed.

(** [sleep_lock] on an unlocked buffer. *)
Lemma sleep_lock_run s id b :
  find_buf id (buf_list s) = Some b -> b_locked b = false ->
  sleep_lock id s = Ret (tt, set_bufs (upd_buf id (set_locked true) (buf_list s)) s).
Proof.
  intros Hf Hl. unfold sleep_lock, deref, mbind, ST_bind. by rewrite Hf, Hl.
Qed.

Lemma find_buf_upd s b f :
  bio_inv s -> b ∈ buf_list s -> (forall c, b_id (f c) = b_id c) ->
  find_buf (b_id b) (upd_buf (b_id b) f (buf_list s)) = Some (f b).
Proof.
  intros Hi Hb Hf. rewrite <- (Hf b) at 1. apply find_buf_elem.
  - rewrite upd_ids by done. apply Hi.
  - rewrite elem_of_upd_at; [by left|apply Hi|done].
Qed.

Lemma bio_get_from_cache_spec s dev bn :
  bio_inv s -> bio_clean s -> good (dev, bn) ->
  lockd s (dev, bn) = false -> refs s (dev, bn) < 2 ^ 32 - 1 ->
  (refs s (dev, bn) <> 0 \/ 0 < spare s) ->
  exists id s', bio_get_from_cache dev bn s = Ret (id, s') /\ taken s s' id (dev, bn).
Proof.
  intros Hi Hcl Hg Hl Hr Hsp. unfold lockd, refs in *.
  pose proof (cache_scan_fst dev bn (buf_list s) None) as Hfst.
  pose proof (count_free_bounds (buf_list s)) as Hcb. pose proof (inv_room s Hi) as Hroom.
  unfold bio_get_from_cache. unfold mbind at 1, ST_bind at 1, get.
  destruct (cache_scan dev bn (buf_list s) None) as [[b|] o] eqn:Hscan; simpl in Hfst;
    rewrite <- Hfst in *.
  - pose proof Hfst as Hin. symmetry in Hin. apply by_key_Some in Hin as [Hin Hk]; [|apply Hi|done].
    pose proof (inv_ref s Hi) as Hrf. rewrite Forall_forall in Hrf.
    specialize (Hrf b Hin). unfold is_u in Hrf.
    eexists (b_id b), _. split; [|by apply (take_cached s b)].
    rewrite (uwrap_id 32) by (unfold is_u; lia).
    unfold is_free. destruct (Z.eqb_spec (b_refcnt b) 0) as [E|]; simpl;
      unfold mbind, ST_bind, modify_buf, modify, mret, ST_ret; simpl.
    + rewrite (free_dec s b) by done.
      erewrite sleep_lock_run; [|by apply (find_buf_upd s b)|done].
      simpl. by rewrite upd_upd.
    + erewrite sleep_lock_run; [|by apply (find_buf_upd s b)|done].
      simpl. rewrite upd_upd by done. rewrite Z.sub_0_r. by destruct s.
  - apply cache_scan_free in Hscan. destruct o as [id|].
    + destruct Hscan as [?|(b & Hin & <- & E)]; [done|].
      eexists (b_id b), _. split; [|by apply (take_reused s b)].
      unfold mbind, ST_bind, modify_buf, modify, mret, ST_ret; simpl.
      rewrite (free_dec s b) by done.
      pose proof (inv_unlocked s Hi) as Hf. rewrite Forall_forall in Hf.
      erewrite sleep_lock_run; [|by apply (find_buf_upd s b)|exact (Hf b Hin E)].
      simpl. by rewrite upd_upd.
    + destruct Hscan as [_ Hnf]. unfold spare in Hsp.
      rewrite (count_free_none _ Hnf) in Hsp.
      destruct (heap s) as [|content rest] eqn:Hh; [simpl in Hsp; lia|].
      eexists (next_id s), _. split; [|by apply (take_alloc s dev bn content rest)].
      unfold buf_alloc_init, buf_init, mbind, ST_bind, get, put, modify, mret, ST_ret. simpl.
      rewrite Hh. simpl. rewrite (uwrap_id 64) by (unfold is_u; rewrite (inv_num s Hi); lia).
      erewrite sleep_lock_run; simpl; [|by rewrite Nat.eqb_refl|done].
      rewrite Nat.eqb_refl. fold (upd_buf (next_id s) (set_locked true) (buf_list s)).
      rewrite upd_not_found; [done|].
      intros Hin. apply list_elem_of_In, in_map_iff in Hin as (c & E & Hc).
      rewrite <- list_elem_of_In in Hc.
      pose proof (inv_fresh s Hi) as Hf. rewrite Forall_forall in Hf. apply Hf in Hc. lia.
Qed.

(** The buffer of [k] is in use and stays so. *)
Record kept (s s' : bio) (id : nat) (k : Z * Z) : Prop := {
  kp_step : step_at s s' k;
  kp_clean : bio_clean s';
  kp_holds : holds s' id k;
  kp_lockd : lockd s' k = lockd s k;
  kp_writes : writes s' = writes s;
  kp_disk : disk s' = disk s;
  kp_spare : spare s' = spare s
}.

(** A change of the buffer [id] points to that keeps it in use. *)
Lemma modify_spec s id k f :
  bio_inv s -> bio_clean s -> good k -> holds s id k -> refs s k <> 0 ->
  (forall c, b_id (f c) = b_id c) -> (forall c, b_key (f c) = b_key c) ->
  (forall c, b_locked (f c) = b_locked c) ->
  (forall b, by_key k (buf_list s) = Some b ->
     is_u 32 (b_refcnt (f b)) /\ b_refcnt (f b) <> 0) ->
  exists s' b, modify_buf id f s = Ret (tt, s') /\ kept s s' id k /\
    by_key k (buf_list s) = Some b /\ by_key k (buf_list s') = Some (f b) /\
    find_buf id (buf_list s) = Some b.
Proof.
  intros Hi Hcl Hg Hh Hr Hid Hkey Hlk Hrf.
  destruct (holds_by_key s id k Hi Hg Hh) as (b & Hbk & Hin & <- & Hk & Hfb).
  destruct (Hrf b Hbk) as [Hu Hn]. unfold refs in Hr. rewrite Hbk in Hr.
  set (s' := set_bufs (upd_buf (b_id b) f (buf_list s)) s).
  destruct (step_at_upd s s' f b k) as (Hst & Hbk' & Hsp); try done.
  { by rewrite Hkey. }
  { subst s'. simpl. unfold is_free.
    rewrite (proj2 (Z.eqb_neq _ _) Hr), (proj2 (Z.eqb_neq _ _) Hn). simpl. lia. }
  exists s', b. split; [done|]. split; [|done]. constructor; try done.
  - by eapply (clean_upd s s' f b).
  - exists (f b). rewrite Hid, Hkey. split; [|done].
    apply elem_of_upd_at; [apply Hi|done|by left].
  - unfold lockd. by rewrite Hbk, Hbk', Hlk.
  - rewrite Hsp. unfold is_free.
    rewrite (proj2 (Z.eqb_neq _ _) Hr), (proj2 (Z.eqb_neq _ _) Hn). simpl. lia.
Qed.

Lemma refs_range s k : bio_inv s -> good k -> is_u 32 (refs s k).
Proof.
  intros Hi Hg. unfold refs. destruct (by_key k (buf_list s)) as [b|] eqn:E; [|done].
  apply by_key_Some in E as [Hin _]; [|apply Hi|done].
  pose proof (inv_ref s Hi) as Hf. rewrite Forall_forall in Hf. by apply Hf.
Qed.

(** Writing the content of a buffer in use. *)
Lemma set_data_spec s id k d :
  bio_inv s -> bio_clean s -> good k -> holds s id k -> refs s k <> 0 ->
  vald s k = true ->
  exists s', modify_buf id (set_data d) s = Ret (tt, s') /\ kept s s' id k /\
    refs s' k = refs s k /\ vald s' k = true /\ view s' k = d.
Proof.
  intros Hi Hcl Hg Hh Hr Hv. pose proof (refs_range s k Hi Hg) as Hrg.
  destruct (modify_spec s id k (set_data d)) as (s' & b & Hrun & Hkp & Hb & Hb' & _); try done.
  { intros b Hb. unfold refs in *. by rewrite Hb in *. }
  exists s'. unfold vald, refs, view in *. rewrite Hb, Hb' in *. simpl in *. by rewrite Hv.
Qed.

Lemma set_valid_spec s id k :
  bio_inv s -> bio_clean s -> good k -> holds s id k -> refs s k <> 0 ->
  exists s', modify_buf id (set_valid true) s = Ret (tt, s') /\ kept s s' id k /\
    refs s' k = refs s k /\ vald s' k = true.
Proof.
  intros Hi Hcl Hg Hh Hr. pose proof (refs_range s k Hi Hg) as Hrg.
  destruct (modify_spec s id k (set_valid true)) as (s' & b & Hrun & Hkp & Hb & Hb' & _); try done.
  { intros b Hb. unfold refs in *. by rewrite Hb in *. }
  exists s'. unfold vald, refs in *. by rewrite Hb, Hb' in *.
Qed.

(** [bio_get] and [bio_put] on a buffer that stays referenced. *)
Lemma bio_get_spec s id k :
  bio_inv s -> bio_clean s -> good k -> holds s id k -> refs s k <> 0 ->
  refs s k < 2 ^ 32 - 1 ->
  exists s', bio_get id s = Ret (tt, s') /\ kept s s' id k /\
    refs s' k = refs s k + 1 /\ vald s' k = vald s k /\ view s' k = view s k.
Proof.
  intros Hi Hcl Hg Hh Hr Hm. pose proof (refs_range s k Hi Hg) as Hrg.
  destruct (holds_by_key s id k Hi Hg Hh) as (b & Hbk & Hin & <- & Hk & Hfb).
  unfold bio_get, mbind, ST_bind, deref. rewrite Hfb. unfold refs, is_u in *. rewrite Hbk in *.
  rewrite uwrap_id by (unfold is_u; lia).
  destruct (modify_spec s (b_id b) k (set_refcnt (b_refcnt b + 1)))
    as (s' & c & Hrun & Hkp & Hb & Hb' & _); try done.
  { unfold refs. by rewrite Hbk. }
  { intros c _. simpl. unfold is_u. lia. }
  exists s'. unfold vald, view. rewrite Hrun, Hb, Hb'. assert (b = c) as -> by congruence.
  rewrite (kp_disk _ _ _ _ Hkp). done.
Qed.

Lemma bio_put_spec s id k :
  bio_inv s -> bio_clean s -> good k -> holds s id k -> 2 <= refs s k ->
  exists s', bio_put id s = Ret (tt, s') /\ kept s s' id k /\
    refs s' k = refs s k - 1 /\ vald s' k = vald s k /\ view s' k = view s k.
Proof.
  intros Hi Hcl Hg Hh Hr. pose proof (refs_range s k Hi Hg) as Hrg.
  destruct (holds_by_key s id k Hi Hg Hh) as (b & Hbk & Hin & <- & Hk & Hfb).
  unfold bio_put, mbind, ST_bind, deref. rewrite Hfb. unfold refs, is_u in *. rewrite Hbk in *.
  rewrite uwrap_id by (unfold is_u; lia).
  destruct (modify_spec s (b_id b) k (set_refcnt (b_refcnt b - 1)))
    as (s' & c & Hrun & Hkp & Hb & Hb' & _); try done.
  { unfold refs. rewrite Hbk. lia. }
  { intros c _. simpl. unfold is_u. lia. }
  exists s'. unfold vald, view. rewrite Hrun, Hb, Hb'. assert (b = c) as -> by congruence.
  rewrite (kp_disk _ _ _ _ Hkp). done.
Qed.

Lemma disk_block_insert d k v k' :
  disk_block (<[k := v]> d) k' = if decide (k = k') then v else disk_block d k'.
Proof. unfold disk_block. rewrite lookup_insert. by case_decide. Qed.

Lemma step_at_trans s s1 s2 k :
  step_at s s1 k -> step_at s1 s2 k ->
  (refs s2 k <> 0 -> refs s1 k <> 0) -> step_at s s2 k.
Proof.
  intros [H1 H2 H3 H4 H5 H6] [J1 J2 J3 J4 J5 J6] Hk. constructor; [done|..].
  - intros k' Hg Hne. by rewrite J2, H2.
  - intros k' Hg Hne. by rewrite J3, H3.
  - intros k' Hg Hne. by rewrite J4, H4.
  - intros k' Hg Hne Hr. rewrite J5, H5; try done. by rewrite H2.
  - intros id k' Hg Hr Hr2 Hh.
    assert (refs s1 k' <> 0) as Hr1.
    { destruct (decide (k' = k)) as [->|]; [auto|by rewrite H2]. }
    by apply J6, H6.
Qed.

(** [bio_read] takes the buffer of the block and makes it valid. *)
Lemma bio_read_run devs s dev bn :
  bio_inv s -> bio_clean s -> good (dev, bn) -> devs dev = true ->
  lockd s (dev, bn) = false -> refs s (dev, bn) < 2 ^ 32 - 1 ->
  (refs s (dev, bn) <> 0 \/ 0 < spare s) ->
  exists id s', bio_read devs dev bn s = Ret (id, s') /\
    taken s s' id (dev, bn) /\ vald s' (dev, bn) = true.
Proof.
  intros Hi Hcl Hg Hdev Hl Hr Hsp.
  destruct (bio_get_from_cache_spec s dev bn) as (id & s1 & Hrun & Htk); try done.
  set (k := (dev, bn)) in *. destruct Htk as [Hst Hc1 Hh Href Hlk Hv Hvl Hd Hw Hs].
  pose proof (sa_inv _ _ _ Hst) as Hi1. pose proof (refs_range s k Hi Hg) as Hrg.
  unfold is_u in Hrg.
  assert (refs s1 k <> 0) as Hr1 by lia.
  destruct (holds_by_key s1 id k Hi1 Hg Hh) as (b & Hbk & Hin & Hid & Hk & Hfb).
  unfold bio_read. unfold mbind at 1, ST_bind at 1. rewrite Hrun.
  unfold mbind at 1, ST_bind at 1, deref. rewrite Hfb.
  destruct (b_valid b) eqn:Hvb.
  - exists id, s1. split; [done|]. split; [by constructor|]. unfold vald. by rewrite Hbk.
  - set (f := fun c => set_valid true (set_data (disk_block (disk s1) k) c)).
    destruct (modify_spec s1 id k f) as (s2 & c & Hrun2 & Hkp & Hb & Hb' & _); try done.
    { intros c Hc. unfold refs in *. rewrite Hc in *. simpl. unfold is_u. lia. }
    destruct Hkp as [Kst Kcl Kh Kl Kw Kd Ks].
    assert (c = b) as -> by congruence.
    exists id, s2. split.
    { unfold mbind, ST_bind, mret, ST_ret, get. rewrite Hdev.
      unfold modify_buf, modify in Hrun2 |- *. simpl. rewrite Hk, upd_upd by done.
      injection Hrun2 as <-. done. }
    split; [|unfold vald; by rewrite Hb'].
    assert (refs s2 k = refs s1 k) as Hr2 by (unfold refs; by rewrite Hb, Hb').
    constructor; try congruence.
    + by eapply step_at_trans.
    + rewrite <- Hv. unfold view. rewrite Hb, Hb'. simpl. by rewrite Hvb.
    + intros _. unfold vald. by rewrite Hb'.
Qed.

(** Writing a buffer to its device: the device holds what the buffer holds,
    and the write is the next one sent. *)
Lemma bio_write_spec devs s id k :
  bio_inv s -> bio_clean s -> good k -> holds s id k -> refs s k <> 0 ->
  vald s k = true -> devs (fst k) = true ->
  exists s', bio_write devs id s = Ret (tt, s') /\ step_at s s' k /\
    bio_clean s' /\ holds s' id k /\ refs s' k = refs s k /\ lockd s' k = lockd s k /\
    vald s' k = true /\ view s' k = view s k /\ spare s' = spare s /\
    disk s' = <[k := view s k]> (disk s) /\ writes s' = writes s ++ [(k, view s k)].
Proof.
  intros Hi Hcl Hg Hh Hr Hv Hdev.
  destruct (holds_by_key s id k Hi Hg Hh) as (b & Hbk & Hin & <- & Hk & Hfb).
  unfold bio_write, mbind, ST_bind, deref, modify, mret, ST_ret. rewrite Hfb.
  rewrite <- Hk in Hdev. simpl in Hdev. rewrite Hdev. eexists. split; [done|].
  set (s' := mk_bio _ _ _ _ _ _ _ _ _).
  assert (view s k = b_data b) as Hvw.
  { unfold view, vald in *. rewrite Hbk in *. by rewrite Hv. }
  assert (forall k', k' <> k -> disk_block (disk s') k' = disk_block (disk s) k') as Hdk.
  { intros k' Hne. subst s'. simpl. rewrite disk_block_insert, decide_False; congruence. }
  assert (forall k', good k' -> k' <> k -> view s' k' = view s k') as Hview.
  { intros k' Hg' Hne. unfold view. subst s'. simpl.
    rewrite disk_block_insert, decide_False by congruence. done. }
  repeat split; try done.
  all: try (by destruct Hi).
  - unfold bio_clean in *. rewrite Forall_forall in Hcl |- *. intros c Hc Hc0 Hcv.
    rewrite Hdk; [by apply Hcl|]. intros E. apply Hr. unfold refs. rewrite Hbk.
    rewrite <- Hc0. f_equal. apply (inv_keys s Hi); [done..|congruence|by rewrite Hk].
  - unfold view. simpl. unfold vald in Hv. rewrite Hbk in *. by rewrite Hv.
  - subst s'. simpl. by rewrite Hvw, Hk.
  - subst s'. simpl. by rewrite Hvw, Hk.
Qed.

(** The cache was reorganised: no block can tell the difference. *)
Record same_blocks (s s' : bio) : Prop := {
  sb_inv : bio_inv s';
  sb_clean : bio_clean s';
  sb_refs k : good k -> refs s' k = refs s k;
  sb_lockd k : good k -> lockd s' k = lockd s k;
  sb_view k : good k -> view s' k = view s k;
  sb_vald k : good k -> refs s k <> 0 -> vald s' k = vald s k;
  sb_holds id k : good k -> refs s k <> 0 -> holds s id k -> holds s' id k;
  sb_disk : disk s' = disk s;
  sb_writes : writes s' = writes s;
  sb_spare : spare s' = spare s
}.

Lemma same_blocks_refl s : bio_inv s -> bio_clean s -> same_blocks s s.
Proof. by constructor. Qed.

Lemma same_blocks_trans s1 s2 s3 :
  same_blocks s1 s2 -> same_blocks s2 s3 -> same_blocks s1 s3.
Proof.
  intros [A1 A2 A3 A4 A5 A6 A7 A8 A9 A10] [B1 B2 B3 B4 B5 B6 B7 B8 B9 B10].
  constructor; try congruence.
  - intros k Hg. by rewrite B3, A3.
  - intros k Hg. by rewrite B4, A4.
  - intros k Hg. by rewrite B5, A5.
  - intros k Hg Hr. rewrite B6, A6; try done. by rewrite A3.
  - intros id k Hg Hr Hh. apply B7; [done|by rewrite A3|by apply A7].
Qed.

Lemma step_at_same s s1 s2 k :
  step_at s s1 k -> same_blocks s1 s2 -> step_at s s2 k.
Proof.
  intros [H1 H2 H3 H4 H5 H6] [B1 B2 B3 B4 B5 B6 B7 _ _ _]. constructor; [done|..].
  - intros k' Hg Hne. by rewrite B3, H2.
  - intros k' Hg Hne. by rewrite B4, H3.
  - intros k' Hg Hne. by rewrite B5, H4.
  - intros k' Hg Hne Hr. rewrite B6, H5; try done. by rewrite H2.
  - intros id k' Hg Hr Hr2 Hh. rewrite B3 in Hr2 by done. by apply B7, H6.
Qed.

(** Moving a buffer to the end of the list. *)
Lemma same_blocks_move s b :
  bio_inv s -> bio_clean s -> b ∈ buf_list s ->
  same_blocks s (set_bufs (del_buf (b_id b) (buf_list s) ++ [b]) s).
Proof.
  intros Hi Hcl Hb. set (s' := set_bufs _ s).
  assert (buf_list s' ≡ₚ buf_list s) as Hp.
  { subst s'. simpl. rewrite (del_perm (buf_list s) b (inv_ids s Hi) Hb) at 2.
    by rewrite Permutation_app_comm. }
  assert (forall c, c ∈ buf_list s' <-> c ∈ buf_list s) as Hel by (intros c; by rewrite Hp).
  destruct Hi as [Hnd Hf Hn Hfr Hro Hre Hun Hu].
  assert (uniq_keys (buf_list s')) as Hu'.
  { intros c d. rewrite !Hel. apply Hu. }
  assert (forall k, good k -> by_key k (buf_list s') = by_key k (buf_list s)) as Hbk.
  { intros k Hg. destruct (by_key k (buf_list s)) as [c|] eqn:E.
    - rewrite by_key_Some in E |- * by done. by rewrite Hel.
    - rewrite by_key_None in E |- *. intros c. rewrite Hel. apply E. }
  constructor; try done.
  - constructor; try done.
    + by rewrite Hp.
    + by rewrite Hp.
    + by rewrite Hp, <- Hn.
    + by rewrite (count_free_perm _ _ Hp), <- Hfr.
    + by rewrite Hp.
    + by rewrite Hp.
    + by rewrite Hp.
  - unfold bio_clean. by rewrite Hp.
  - intros k Hg. unfold refs. by rewrite Hbk.
  - intros k Hg. unfold lockd. by rewrite Hbk.
  - intros k Hg. unfold view. by rewrite Hbk.
  - intros k Hg _. unfold vald. by rewrite Hbk.
  - intros id k _ _ (c & Hc & ?). exists c. by rewrite Hel.
  - unfold spare. by rewrite (count_free_perm _ _ Hp).
Qed.

(** Dropping an unused buffer. *)
Definition drop_buf (b : buf) (s : bio) : bio :=
  mk_bio (del_buf (b_id b) (buf_list s)) (num_buffers s - 1) (min_buffers s)
    (max_free_buffers s) (free_buffers s - 1) (disk s) (writes s)
    (heap s ++ [b_data b]) (next_id s).

Lemma same_blocks_drop s b :
  bio_inv s -> bio_clean s -> b ∈ buf_list s -> b_refcnt b = 0 ->
  same_blocks s (drop_buf b s).
Proof.
  intros Hi Hcl Hb Hr. set (s' := drop_buf b s). pose proof Hi as [Hnd Hf Hn Hfr Hro Hre Hun Hu].
  pose proof (length_del _ b Hnd Hb) as Hlen.
  pose proof (count_free_del _ b Hnd Hb) as Hcnt.
  unfold is_free in Hcnt. rewrite Hr in Hcnt. simpl in Hcnt.
  pose proof (del_perm _ b Hnd Hb) as Hp.
  assert (forall P, Forall P (buf_list s) -> Forall P (buf_list s')) as Hall.
  { intros P. rewrite !Forall_forall. intros HP c [Hc _]%elem_of_del. by apply HP. }
  assert (uniq_keys (buf_list s')) as Hu'.
  { intros c d [Hc _]%elem_of_del [Hd _]%elem_of_del. by apply Hu. }
  assert (forall k, good k -> by_key k (buf_list s') =
            if decide (b_key b = k) then None else by_key k (buf_list s)) as Hbk.
  { intros k Hg. case_decide as Hd.
    - apply by_key_None. intros c [Hc Hne]%elem_of_del E. apply Hne. f_equal.
      apply Hu; [done..|congruence|by rewrite E].
    - destruct (by_key k (buf_list s)) as [c|] eqn:E.
      + rewrite by_key_Some in E |- * by done. destruct E as [Hc E]. split; [|done].
        apply elem_of_del. split; [done|]. intros Heq.
        by assert (c = b) as -> by by eapply ids_inj.
      + rewrite by_key_None in E |- *. intros c [Hc _]%elem_of_del. by apply E. }
  assert (good (b_key b) -> by_key (b_key b) (buf_list s) = Some b) as Hbb.
  { intros Hgb. by apply by_key_Some. }
  constructor; try done.
  - constructor; try done; try by apply Hall.
    + subst s'. simpl. rewrite Hp in Hnd. simpl in Hnd. by apply NoDup_cons in Hnd as [_ Hnd].
    + subst s'. simpl. lia.
    + subst s'. simpl. lia.
    + subst s'. simpl. rewrite length_app. simpl. lia.
  - unfold bio_clean. by apply Hall.
  - intros k Hg. unfold refs. rewrite Hbk by done. case_decide as Hd; [|done].
    rewrite <- Hd, Hbb; [done|by rewrite Hd].
  - intros k Hg. unfold lockd. rewrite Hbk by done. case_decide as Hd; [|done].
    rewrite <- Hd, Hbb by (by rewrite Hd). rewrite Forall_forall in Hun. by rewrite Hun.
  - intros k Hg. unfold view. rewrite Hbk by done. case_decide as Hd; [|done].
    rewrite <- Hd, Hbb by (by rewrite Hd). destruct (b_valid b) eqn:Hv; [|done].
    unfold bio_clean in Hcl. rewrite Forall_forall in Hcl. by rewrite Hcl.
  - intros k Hg Hrk. unfold vald, refs in *. rewrite Hbk by done. case_decide as Hd; [|done].
    rewrite <- Hd, Hbb in Hrk; [done|by rewrite Hd].
  - intros id k Hg Hrk (c & Hc & Hci & Hck). exists c. split; [|done].
    apply elem_of_del. split; [done|]. intros E.
    assert (c = b) as -> by by eapply ids_inj. unfold refs in Hrk.
    rewrite <- Hck, Hbb in Hrk; [done|by rewrite Hck].
  - unfold spare. subst s'. simpl. rewrite length_app. simpl. lia.
Qed.

(** [bio_might_free] on a buffer whose last reference was just dropped; the
    counter of free buffers still excludes it. *)
Lemma bio_might_free_run s b :
  bio_inv (set_free (free_buffers s + 1) s) ->
  bio_clean s -> b ∈ buf_list s -> b_refcnt b = 0 ->
  exists s', bio_might_free (b_id b) s = Ret (tt, s') /\
    same_blocks (set_free (free_buffers s + 1) s) s'.
Proof.
  intros Hi Hcl Hb Hr. set (s1 := set_free _ s) in *.
  pose proof (find_buf_elem (buf_list s) b (inv_ids s1 Hi) Hb) as Hfb.
  assert (free_buffers s + 1 = count_free (buf_list s)) as Hfc by apply (inv_free s1 Hi).
  pose proof (count_free_bounds (buf_list s)) as Hb1. pose proof (inv_room s1 Hi) as Hro.
  pose proof (inv_num s1 Hi) as Hn. simpl in Hn, Hro.
  assert (1 <= num_buffers s) as Hn1.
  { rewrite Hn. destruct (buf_list s); [by apply not_elem_of_nil in Hb|]. simpl. lia. }
  unfold bio_might_free, mbind, ST_bind, get, deref. rewrite Hfb.
  destruct (bio_has_too_many_buffers s).
  - eexists. split; [done|]. cbn.
    rewrite (uwrap_id 64 (num_buffers s - 1)) by (unfold is_u; lia).
    assert (free_buffers s = free_buffers s1 - 1) as E by (subst s1; simpl; lia).
    rewrite E. by apply (same_blocks_drop s1 b).
  - eexists. split; [done|]. cbn.
    rewrite (uwrap_id 64 (free_buffers s + 1)) by (unfold is_u; lia).
    by apply (same_blocks_move s1 b).
Qed.

(** Outcome of giving the buffer of [k] back. *)
Record released (s s' : bio) (k : Z * Z) : Prop := {
  rl_step : step_at s s' k;
  rl_clean : bio_clean s';
  rl_refs : refs s' k = refs s k - 1;
  rl_lockd : lockd s' k = false;
  rl_view : view s' k = view s k;
  rl_vald : refs s k <> 1 -> vald s' k = vald s k;
  rl_disk : disk s' = disk s;
  rl_writes : writes s' = writes s;
  rl_spare : spare s' = spare s + (if refs s k =? 1 then 1 else 0)
}.

Lemma bio_release_spec s id k :
  bio_inv s -> bio_clean s -> good k -> holds s id k -> refs s k <> 0 ->
  (refs s k = 1 -> view s k = disk_block (disk s) k) ->
  exists s', bio_release id s = Ret (tt, s') /\ released s s' k.
Proof.
  intros Hi Hcl Hg Hh Hr Hd. pose proof (refs_range s k Hi Hg) as Hrg.
  destruct (holds_by_key s id k Hi Hg Hh) as (b & Hbk & Hin & <- & Hk & Hfb).
  assert (refs s k = b_refcnt b) as Hrb by (unfold refs; by rewrite Hbk).
  set (f := fun c => set_refcnt (b_refcnt b - 1) (set_locked false c)).
  set (s1 := set_bufs (upd_buf (b_id b) f (buf_list s)) s).
  set (s2 := set_free (free_buffers s + Z.b2z (is_free (f b))) s1).
  assert (is_free b = false) as Hnf by (unfold is_free; lia).
  destruct (step_at_upd s s2 f b k) as (Hst & Hbk' & Hsp); try done.
  { unfold is_u in *. simpl. lia. }
  { subst s2. simpl. rewrite Hnf. simpl. lia. }
  rewrite Hnf, Z.sub_0_r in Hsp.
  assert (bio_clean s2) as Hcl2.
  { eapply (clean_upd s s2 f b); try done. change (b_key (f b)) with (b_key b).
    intros H0 Hv. rewrite Hk, <- Hd by (simpl in H0; lia). simpl in Hv |- *.
    unfold view. by rewrite Hbk, Hv. }
  assert (is_free (f b) = (refs s k =? 1)) as Hfree by (unfold is_free; simpl; lia).
  assert (released s s2 k) as Hrel.
  { constructor; try done.
    - unfold refs. by rewrite Hbk, Hbk'.
    - unfold lockd. by rewrite Hbk'.
    - unfold view. by rewrite Hbk, Hbk'.
    - intros _. unfold vald. by rewrite Hbk, Hbk'.
    - rewrite Hsp, Hfree. by destruct (refs s k =? 1). }
  assert (bio_release (b_id b) s =
          if u32 (b_refcnt b - 1) =? 0 then bio_might_free (b_id b) s1 else Ret (tt, s1)) as ->.
  { unfold bio_release, sleep_unlock, modify_buf, modify, mbind, ST_bind, deref, mret, ST_ret.
    simpl. rewrite (find_buf_upd s b) by done. simpl.
    rewrite upd_upd by done. rewrite uwrap_id by (unfold is_u in *; lia).
    by destruct (b_refcnt b - 1 =? 0). }
  unfold is_u in Hrg. rewrite uwrap_id by (unfold is_u; lia).
  destruct (Z.eqb_spec (b_refcnt b - 1) 0) as [E|E].
  - assert (Z.b2z (is_free (f b)) = 1) as Ef by (unfold is_free; simpl; rewrite E; done).
    destruct (bio_might_free_run s1 (f b)) as (s3 & Hrun & Hsame); try done.
    { pose proof (sa_inv _ _ _ Hst) as Hi2. subst s2. by rewrite Ef in Hi2. }
    { apply elem_of_upd_at; [apply Hi|done|by left]. }
    exists s3. split; [done|]. change (free_buffers s1) with (free_buffers s) in Hsame.
    assert (set_free (free_buffers s + 1) s1 = s2) as Hs2 by (subst s2; by rewrite Ef).
    rewrite Hs2 in Hsame. destruct Hrel as [R1 R2 R3 R4 R5 R6 R7 R8 R9].
    destruct Hsame as [B1 B2 B3 B4 B5 B6 B7 B8 B9 B10].
    constructor; try congruence.
    + eapply step_at_same; [done|]. by constructor.
    + by rewrite B3.
    + by rewrite B4.
    + by rewrite B5.
    + lia.
  - exists s1. split; [done|].
    assert (s2 = s1) as E2; [|by rewrite E2 in Hrel]. unfold s2, is_free. simpl.
    rewrite (proj2 (Z.eqb_neq _ _) E), Z.add_0_r. by destruct s.
Qed.

(** ** Resizing the cache *)

Lemma too_many_spec s :
  bio_has_too_many_buffers s = true <->
  min_buffers s < num_buffers s /\ max_free_buffers s < free_buffers s.
Proof.
  unfold bio_has_too_many_buffers. repeat zcase; split; intros; try done; lia.
Qed.

Lemma free_extra_step_run s b :
  bio_inv s -> b ∈ buf_list s ->
  free_extra_step (b_id b) s =
  Ret (tt, if ((b_refcnt b =? 0) && bio_has_too_many_buffers s)%bool
           then drop_buf b s else s).
Proof.
  intros Hi Hb. unfold free_extra_step, mbind, ST_bind, get, deref.
  rewrite (find_buf_elem (buf_list s) b (inv_ids s Hi) Hb).
  destruct (Z.eqb_spec (b_refcnt b) 0) as [E|]; simpl; [|done].
  destruct (bio_has_too_many_buffers s); [|done].
  unfold modify, buf_deinit, kfree_buf, modify. cbn. rewrite (free_dec s b) by done.
  rewrite uwrap_id; [done|]. pose proof (inv_room s Hi). pose proof (inv_num s Hi) as Hn.
  unfold is_u. destruct (buf_list s); [by apply not_elem_of_nil in Hb|]. simpl in *. lia.
Qed.

(** The loop drops unused buffers of the list only, and stops only when the
    limits are met or every visited buffer is in use. *)
Lemma free_extra_loop_spec ids s :
  bio_inv s -> bio_clean s -> NoDup ids ->
  (forall id, id ∈ ids -> exists b, b ∈ buf_list s /\ b_id b = id) ->
  exists s', free_extra_loop ids s = Ret (tt, s') /\ same_blocks s s' /\
    (forall b, b ∈ buf_list s' -> b ∈ buf_list s) /\
    min_buffers s' = min_buffers s /\ max_free_buffers s' = max_free_buffers s /\
    Z.min (num_buffers s) (min_buffers s) <= num_buffers s' <= num_buffers s /\
    free_buffers s' <= free_buffers s /\
    (bio_has_too_many_buffers s' = true ->
       forall b, b ∈ buf_list s' -> b_id b ∈ ids -> b_refcnt b <> 0).
Proof.
  revert s. induction ids as [|id ids IH]; intros s Hi Hcl Hnd Hids; simpl.
  - exists s. split; [done|]. split; [by apply same_blocks_refl|].
    split_and!; try done; try lia. intros _ b _ Hin. by apply not_elem_of_nil in Hin.
  - apply NoDup_cons in Hnd as [Hni Hnd].
    destruct (Hids id) as (b & Hb & <-); [apply elem_of_cons; by left|].
    unfold mbind, ST_bind. rewrite (free_extra_step_run s b) by done.
    set (s1 := if (_ && _)%bool then drop_buf b s else s).
    assert (same_blocks s s1) as Hs1.
    { subst s1. destruct (Z.eqb_spec (b_refcnt b) 0); simpl; [|by apply same_blocks_refl].
      destruct (bio_has_too_many_buffers s); [by apply same_blocks_drop|by apply same_blocks_refl]. }
    assert (forall c, c ∈ buf_list s1 -> c ∈ buf_list s) as Hsub.
    { subst s1. destruct (_ && _)%bool; [|done]. by intros c [??]%elem_of_del. }
    assert (min_buffers s1 = min_buffers s /\ max_free_buffers s1 = max_free_buffers s /\
            Z.min (num_buffers s) (min_buffers s) <= num_buffers s1 <= num_buffers s /\
            free_buffers s1 <= free_buffers s) as (Hm & Hx & Hn & Hf).
    { subst s1. destruct ((b_refcnt b =? 0) && bio_has_too_many_buffers s)%bool eqn:E; simpl;
        [|split_and!; lia || done]. zbool. rewrite too_many_spec in *. split_and!; lia || done. }
    destruct (IH s1) as (s' & Hrun & Hsame & Hsub' & Hm' & Hx' & Hn' & Hf' & Htm);
      [apply Hs1|apply Hs1|done|..].
    { intros id Hid. destruct (Hids id) as (c & Hc & Hci); [apply elem_of_cons; by right|].
      exists c. split; [|done]. subst s1. destruct (_ && _)%bool; [|done].
      apply elem_of_del. split; [done|]. congruence. }
    exists s'. split; [done|]. split_and!; try lia; try congruence.
    + by eapply same_blocks_trans.
    + intros c Hc. by apply Hsub, Hsub'.
    + intros Ht c Hc [E|Hin]%elem_of_cons; [|by apply Htm].
      assert (c = b) as -> by (eapply ids_inj; [apply Hi|by apply Hsub, Hsub'|done..]).
      intros E0. apply Hsub' in Hc. subst s1. rewrite E0 in Hc. simpl in Hc.
      assert (bio_has_too_many_buffers s = true) as Hts.
      { rewrite too_many_spec in Ht |- *. lia. }
      rewrite Hts in Hc. apply elem_of_del in Hc as [_ Hne]. done.
Qed.

Lemma free_extra_spec s :
  bio_inv s -> bio_clean s -> 0 <= max_free_buffers s ->
  exists s', bio_cache_free_extra_buffers s = Ret (tt, s') /\ same_blocks s s' /\
    min_buffers s' = min_buffers s /\ max_free_buffers s' = max_free_buffers s /\
    Z.min (num_buffers s) (min_buffers s) <= num_buffers s' /\
    bio_has_too_many_buffers s' = false.
Proof.
  intros Hi Hcl Hx.
  destruct (free_extra_loop_spec (map b_id (buf_list s)) s)
    as (s' & Hrun & Hsame & Hsub & Hm & Hmx & Hn & Hf & Htm); try done.
  - apply Hi.
  - intros id Hid. apply list_elem_of_In, in_map_iff in Hid as (b & <- & Hb).
    exists b. by rewrite list_elem_of_In.
  - exists s'. split_and!; try done; try lia.
    destruct (bio_has_too_many_buffers s') eqn:E; [|done].
    rewrite too_many_spec, (inv_free s' (sb_inv _ _ Hsame)), count_free_none in E; [lia|].
    intros b Hb. apply Htm; [done..|]. apply list_elem_of_In, in_map.
    rewrite <- list_elem_of_In. by apply Hsub.
Qed.

(** A new unused buffer for the invalid device. *)
Lemma same_blocks_add s content rest :
  bio_inv s -> bio_clean s -> heap s = content :: rest ->
  same_blocks s
    (mk_bio (mk_buf (next_id s) false false 0 0 false 0 content :: buf_list s)
       (num_buffers s + 1) (min_buffers s) (max_free_buffers s) (free_buffers s + 1)
       (disk s) (writes s) rest (S (next_id s))).
Proof.
  intros Hi Hcl Hh. set (b := mk_buf _ _ _ _ _ _ _ _). set (s' := mk_bio _ _ _ _ _ _ _ _ _).
  destruct Hi as [Hnd Hf Hn Hfr Hro Hre Hun Hu].
  assert (forall k, good k -> by_key k (buf_list s') = by_key k (buf_list s)) as Hbk.
  { intros k Hg. unfold by_key. simpl. case_bool_decide as E; [|done].
    by rewrite <- E in Hg. }
  constructor; try done.
  - rewrite Forall_forall in Hf. subst s'. constructor; simpl.
    + apply NoDup_cons. split; [|done]. intros Hin.
      apply list_elem_of_In, in_map_iff in Hin as (c & E & Hc).
      rewrite <- list_elem_of_In in Hc. apply Hf in Hc. lia.
    + apply Forall_cons. split; [simpl; lia|]. apply Forall_forall. intros c Hc.
      apply Hf in Hc. lia.
    + rewrite Hn. lia.
    + rewrite count_free_cons. simpl. lia.
    + rewrite Hh in Hro. simpl in Hro. lia.
    + by apply Forall_cons.
    + by apply Forall_cons.
    + intros c d [->|Hc]%elem_of_cons [->|Hd]%elem_of_cons E Hgd; [done|..|by apply Hu].
      * done.
      * by rewrite E in Hgd.
  - by apply Forall_cons.
  - intros k Hg. unfold refs. by rewrite Hbk.
  - intros k Hg. unfold lockd. by rewrite Hbk.
  - intros k Hg. unfold view. by rewrite Hbk.
  - intros k Hg _. unfold vald. by rewrite Hbk.
  - intros id k _ _ (c & Hc & ?). exists c. split; [|done]. apply elem_of_cons. by right.
  - unfold spare. rewrite Hh. simpl. rewrite count_free_cons. simpl. lia.
Qed.

Lemma alloc_min_loop_spec n s :
  bio_inv s -> bio_clean s -> (n <= length (heap s))%nat ->
  exists s', alloc_min_loop n s = Ret (tt, s') /\ same_blocks s s' /\
    num_buffers s' = num_buffers s + Z.of_nat n /\
    min_buffers s' = min_buffers s /\ max_free_buffers s' = max_free_buffers s.
Proof.
  revert s. induction n as [|n IH]; intros s Hi Hcl Hh.
  - exists s. split; [done|]. split; [by apply same_blocks_refl|]. split_and!; try done; lia.
  - destruct (heap s) as [|content rest] eqn:E; [simpl in Hh; lia|].
    pose proof (same_blocks_add s content rest Hi Hcl E) as Hs.
    set (s1 := mk_bio _ _ _ _ _ _ _ _ _) in Hs.
    destruct (IH s1) as (s' & Hrun & Hsame & Hn & Hm & Hx); [apply Hs|apply Hs|simpl in *; lia|].
    exists s'. split; [|split; [by eapply same_blocks_trans|simpl in *; split_and!; congruence || lia]].
    rewrite <- Hrun. cbn [alloc_min_loop].
    unfold buf_alloc_init, buf_init, modify_buf, mbind, ST_bind, get, put, modify, mret, ST_ret.
    cbn. rewrite E. cbn. rewrite Nat.eqb_refl. fold (upd_buf (next_id s) (set_refcnt 0) (buf_list s)).
    rewrite upd_not_found.
    + rewrite free_inc by done. rewrite uwrap_id; [done|].
      pose proof (inv_room s Hi) as Hro. rewrite (inv_num s Hi). rewrite E in Hro.
      simpl in Hro. unfold is_u. lia.
    + intros Hin. apply list_elem_of_In, in_map_iff in Hin as (c & Ec & Hc).
      rewrite <- list_elem_of_In in Hc.
      pose proof (inv_fresh s Hi) as Hf. rewrite Forall_forall in Hf. apply Hf in Hc. lia.
Qed.

Lemma same_blocks_set_min s n : bio_inv s -> bio_clean s -> same_blocks s (set_min n s).
Proof. intros [] Hcl. by constructor. Qed.

Lemma same_blocks_set_max s n : bio_inv s -> bio_clean s -> same_blocks s (set_max n s).
Proof. intros [] Hcl. by constructor. Qed.

Lemma set_min_run s n :
  bio_inv s -> bio_clean s -> 0 <= max_free_buffers s -> n < 2 ^ 63 ->
  (Z.to_nat (n - num_buffers s) <= length (heap s))%nat ->
  exists s', bio_cache_set_min_buffers n s = Ret (if n <? 3 then - EINVAL else 0, s') /\
    same_blocks s s' /\
    (n < 3 -> s' = s) /\
    (3 <= n -> min_buffers s' = n /\ n <= num_buffers s' /\
               bio_has_too_many_buffers s' = false).
Proof.
  intros Hi Hcl Hx Hn63 Hh. unfold bio_cache_set_min_buffers.
  destruct (Z.ltb_spec n 3) as [Hlt|Hge].
  { exists s. split; [done|]. split; [by apply same_blocks_refl|]. split; [done|lia]. }
  rewrite uwrap_id by (unfold is_u; lia). unfold mbind, ST_bind, modify, get, mret, ST_ret. cbn.
  pose proof (same_blocks_set_min s n Hi Hcl) as Hs1.
  destruct (alloc_min_loop_spec (Z.to_nat (n - num_buffers s)) (set_min n s))
    as (s2 & Hrun2 & Hs2 & Hn2 & Hm2 & Hx2); [apply Hs1|apply Hs1|done|].
  destruct (free_extra_spec s2) as (s3 & Hrun3 & Hs3 & Hm3 & Hx3 & Hn3 & Ht3);
    [apply Hs2|apply Hs2|by rewrite Hx2|].
  rewrite Hrun2, Hrun3. exists s3. split; [done|].
  split; [by eapply same_blocks_trans, same_blocks_trans|]. split; [lia|].
  intros _. cbn in Hn2, Hm2. split_and!; [congruence|lia|done].
Qed.

(** [bio_cache_set_max_free_buffers] *)
Lemma set_max_free_buffers_spec s n :
  bio_inv s -> bio_clean s -> n < 2 ^ 63 ->
  exists s', bio_cache_set_max_free_buffers n s = Ret (if n <? 0 then - EINVAL else 0, s') /\
    same_blocks s s' /\ (n < 0 -> s' = s) /\
    (0 <= n -> max_free_buffers s' = n /\ bio_has_too_many_buffers s' = false).
Proof.
  intros Hi Hcl Hn63. unfold bio_cache_set_max_free_buffers.
  destruct (Z.ltb_spec n 0) as [Hlt|Hge].
  { exists s. split; [done|]. split; [by apply same_blocks_refl|]. split; [done|lia]. }
  rewrite uwrap_id by (unfold is_u; lia). unfold mbind, ST_bind, modify, mret, ST_ret.
  pose proof (same_blocks_set_max s n Hi Hcl) as Hs1.
  destruct (free_extra_spec (set_max n s)) as (s3 & Hrun3 & Hs3 & Hm3 & Hx3 & Hn3 & Ht3);
    [apply Hs1|apply Hs1|done|].
  rewrite Hrun3. exists s3. split; [done|]. split; [by eapply same_blocks_trans|].
  split; [lia|]. intros _. by rewrite Hx3.
Qed.

(** [bio_init] establishes the invariant. *)
Lemma bio_init_spec s :
  (16 <= length (heap s))%nat -> Z.of_nat (length (heap s)) < 2 ^ 32 ->
  exists s', bio_init s = Ret (tt, s') /\ bio_inv s' /\ bio_clean s' /\
    min_buffers s' = 16 /\ 16 <= num_buffers s' /\ disk s' = disk s /\
    writes s' = writes s /\ spare s' = Z.of_nat (length (heap s)) /\
    (forall k, good k -> refs s' k = 0 /\ lockd s' k = false /\ view s' k = disk_block (disk s) k).
Proof.
  intros Hh Hr. unfold bio_init. unfold mbind, ST_bind, modify, mret, ST_ret.
  set (s0 := mk_bio _ _ _ _ _ _ _ _ _).
  assert (bio_inv s0) as Hi0.
  { constructor; try done; try by constructor. by intros ?? ?%not_elem_of_nil. }
  destruct (set_min_run s0 16) as (s' & Hrun & Hsame & _ & Hge); try done.
  { by constructor. }
  rewrite Hrun. exists s'. destruct Hge as (Hm & Hn & _); [lia|].
  destruct Hsame as [B1 B2 B3 B4 B5 B6 B7 B8 B9 B10].
  split_and!; try done.
  - rewrite B10. unfold spare. subst s0. simpl. change (count_free []) with 0. lia.
  - intros k Hg. by rewrite B3, B4, B5.
Qed.

(** ** Properties *)

(** C21: [bio_read] returns a locked, referenced, valid buffer that holds the
    block's current content: the cached copy if there is one, what the device
    holds otherwise.  No other block's content, lock or reference count changes
    and nothing is written to a device: what is evicted to make room is what
    the device already holds. *)
Theorem bio_read_spec devs s dev bn :
  bio_inv s -> bio_clean s -> good (dev, bn) -> devs dev = true ->
  lockd s (dev, bn) = false -> refs s (dev, bn) < 2 ^ 32 - 1 ->
  (refs s (dev, bn) <> 0 \/ 0 < spare s) ->
  exists id s' b, bio_read devs dev bn s = Ret (id, s') /\
    deref id s' = Ret (b, s') /\ b_key b = (dev, bn) /\ b_valid b = true /\
    b_locked b = true /\ b_refcnt b = refs s (dev, bn) + 1 /\
    b_data b = view s (dev, bn) /\ taken s s' id (dev, bn).
Proof.
  intros Hi Hcl Hg Hdev Hl Hr Hsp.
  destruct (bio_read_run devs s dev bn) as (id & s' & Hrun & Htk & Hv); try done.
  pose proof (sa_inv _ _ _ (tk_step _ _ _ _ Htk)) as Hi'.
  destruct (holds_by_key s' id (dev, bn) Hi' Hg (tk_holds _ _ _ _ Htk))
    as (b & Hbk & Hin & Hid & Hk & Hfb).
  pose proof (tk_refs _ _ _ _ Htk) as H1. pose proof (tk_lockd _ _ _ _ Htk) as H2.
  pose proof (tk_view _ _ _ _ Htk) as H3.
  unfold refs at 1 in H1. unfold lockd in H2. unfold view at 1 in H3. unfold vald in Hv.
  rewrite Hbk in *. rewrite Hv in H3.
  exists id, s', b. unfold deref. rewrite Hfb. done.
Qed.

(** Changing the minimum number of buffers.  Values below 3 are refused
    and change nothing; otherwise the call returns 0 with at least [n] buffers,
    the limits respected, and no block's content, lock or reference changed. *)
Theorem set_min_buffers_spec s n :
  bio_inv s -> bio_clean s -> 0 <= max_free_buffers s -> n < 2 ^ 63 ->
  (Z.to_nat (n - num_buffers s) <= length (heap s))%nat ->
  exists s', bio_cache_set_min_buffers n s = Ret (if n <? 3 then - EINVAL else 0, s') /\
    same_blocks s s' /\
    (n < 3 -> s' = s) /\
    (3 <= n -> min_buffers s' = n /\ n <= num_buffers s' /\
               bio_has_too_many_buffers s' = false).
Proof. apply set_min_run. Qed.

(** ** Witnesses *)

Definition boot_bio : bio := mk_bio [] 0 0 0 0 {[(1, 7) := [1; 2; 3]]} [] (replicate 18 [9]) 0.
Definition booted : bio := match bio_init boot_bio with Ret (_, s) => s | _ => boot_bio end.

Lemma booted_ok :
  bio_inv booted /\ bio_clean booted /\ spare booted = 18 /\
  (forall k, good k -> refs booted k = 0 /\ lockd booted k = false /\
             view booted k = disk_block (disk boot_bio) k).
Proof.
  destruct (bio_init_spec boot_bio) as (s & Hrun & Hi & Hcl & Hm & Hn & Hd & Hw & Hs & Hv);
    [simpl; lia|done|].
  unfold booted. rewrite Hrun. auto.
Qed.

Lemma bio_read_spec_witness :
  exists id s' b, bio_read (Z.eqb 1) 1 7 booted = Ret (id, s') /\
    deref id s' = Ret (b, s') /\ b_key b = (1, 7) /\ b_valid b = true /\
    b_locked b = true /\ b_refcnt b = refs booted (1, 7) + 1 /\
    b_data b = view booted (1, 7) /\ taken booted s' id (1, 7).
Proof.
  destruct booted_ok as (Hi & Hc & Hs & Hv). destruct (Hv (1, 7)) as (H1 & H2 & H3); [done|].
  assert (refs booted (1, 7) < 2 ^ 32 - 1) as Hr by (rewrite H1; lia).
  assert (refs booted (1, 7) <> 0 \/ 0 < spare booted) as Hsp by (rewrite Hs; lia).
  exact (bio_read_spec (Z.eqb 1) booted 1 7 Hi Hc ltac:(done) eq_refl H2 Hr Hsp).
Defined.

Lemma set_min_buffers_spec_witness :
  exists s', bio_cache_set_min_buffers 17 booted = Ret (0, s') /\
    same_blocks booted s' /\ (17 < 3 -> s' = booted) /\
    (3 <= 17 -> min_buffers s' = 17 /\ 17 <= num_buffers s' /\
               bio_has_too_many_buffers s' = false).
Proof.
  apply (set_min_buffers_spec booted 17);
    [apply booted_ok|apply booted_ok|vm_compute; discriminate|lia|].
  vm_compute. lia.
Defined.
