(* ===== verification/Log.v ===== *)
(** * The write-ahead log of vimixfs (kernel/fs/vimixfs/log.c)

    The state is the [struct log] of a mounted file system, the buffer cache it
    works on ([Bio]) and the [debug_log_depth] of the processes.  This file
    holds the operations and the theorems on the reservation protocol between
    concurrent clients; the theorems on commit, crash and recovery are in
    [LogCommit].

    A [sleep] in the code is [Blocked]: the process has released the log's
    spinlock, left the state as it was and tries again when it is woken. *)
From S2P Require Import Prelude Bytes Bio.

Definition MAX_CONCURRENT_LOG_CLIENTS : nat := 4.
Definition VIMIXFS_MAX_LOG_BLOCKS : Z := BLOCK_SIZE / 4 - 1.

Record log := mk_log {
  lg_start : Z;
  lg_size : Z;
  lg_outstanding : Z;
  lg_committing : Z;
  lg_dev : Z;
  lh_n : Z;
  lh_block : list Z;
  clients : list Z;
  blocks_used : list Z;
  blocks_reserved : list Z;
  blocks_used_old_clients : Z
}.

Record lfs := mk_lfs {
  l_log : log;
  l_bio : bio;
  l_depth : gmap Z Z
}.

Definition on_bio {A} (m : ST bio A) : ST lfs A := fun s =>
  match m (l_bio s) with
  | Ret (a, b) => Ret (a, mk_lfs (l_log s) b (l_depth s))
  | Panic => Panic
  | Undef => Undef
  | Blocked => Blocked
  | NoFuel => NoFuel
  end.

Definition set_lh_n (n : Z) (l : log) : log :=
  mk_log (lg_start l) (lg_size l) (lg_outstanding l) (lg_committing l) (lg_dev l)
    n (lh_block l) (clients l) (blocks_used l) (blocks_reserved l)
    (blocks_used_old_clients l).
Definition set_lh_block (b : list Z) (l : log) : log :=
  mk_log (lg_start l) (lg_size l) (lg_outstanding l) (lg_committing l) (lg_dev l)
    (lh_n l) b (clients l) (blocks_used l) (blocks_reserved l)
    (blocks_used_old_clients l).
Definition set_old_clients (n : Z) (l : log) : log :=
  mk_log (lg_start l) (lg_size l) (lg_outstanding l) (lg_committing l) (lg_dev l)
    (lh_n l) (lh_block l) (clients l) (blocks_used l) (blocks_reserved l) n.

Definition modify_log (f : log -> log) : ST lfs unit :=
  modify (fun s => mk_lfs (f (l_log s)) (l_bio s) (l_depth s)).

(** ** Commit and recovery *)

Section Commit.
Context (devs : Z -> bool).

(** Device block of the [tail]-th logged block. *)
Definition log_slot (l : log) (tail : Z) : Z := u32 (lg_start l + tail + 1).

(** One iteration of the loop of [install_trans]. *)
Definition install_one (recovering : bool) (tail : Z) : ST lfs unit :=
  s ← get;
  let l := l_log s in
  home ← lift (load (lh_block l !! Z.to_nat tail));
  on_bio (
    lbuf ← bio_read devs (lg_dev l) (log_slot l tail);
    dbuf ← bio_get_from_cache (lg_dev l) home;
    modify_buf dbuf (set_valid true);;
    lb ← deref lbuf;
    modify_buf dbuf (set_data (b_data lb));;
    bio_write devs dbuf;;
    (if recovering then mret tt else bio_put dbuf);;
    bio_release lbuf;;
    bio_release dbuf).

(** The loop [for (tail = k; k < k + n; tail++)]. *)
Fixpoint install_loop (recovering : bool) (n : nat) (tail : Z) : ST lfs unit :=
  match n with
  | O => mret tt
  | S n => install_one recovering tail;; install_loop recovering n (tail + 1)
  end.

Definition install_trans (recovering : bool) : ST lfs unit :=
  s ← get; install_loop recovering (Z.to_nat (lh_n (l_log s))) 0.

(** [lh->block[i]] of a header block in a buffer. *)
Definition head_off (i : nat) : nat := (4 + 4 * i)%nat.

(** The copy loop of [read_head] from index [i]; [None] is an access outside
    of the header block or of [log->lh_block]. *)
Fixpoint read_head_loop (n : nat) (i : nat) (data : block) (dst : list Z) : option (list Z) :=
  match n with
  | O => Some dst
  | S n =>
      v ← get_u32 (head_off i) data;
      if decide (i < length dst)%nat
      then read_head_loop n (S i) data (<[i := v]> dst) else None
  end.

Definition read_head : ST lfs unit :=
  s ← get;
  let l := l_log s in
  buf ← on_bio (bio_read devs (lg_dev l) (lg_start l));
  b ← on_bio (deref buf);
  n ← lift (load (get_u32 0 (b_data b)));
  blocks ← lift (load (read_head_loop (Z.to_nat n) 0 (b_data b) (lh_block l)));
  modify_log (set_lh_n n);;
  modify_log (set_lh_block blocks);;
  on_bio (bio_release buf).

(** The copy loop of [write_head]. *)
Fixpoint write_head_loop (i : nat) (src : list Z) (data : block) : option block :=
  match src with
  | [] => Some data
  | v :: src => data ← put_u32 (head_off i) v data; write_head_loop (S i) src data
  end.

(** The header block for the first [n] entries of [blocks]. *)
Definition head_block (n : Z) (blocks : list Z) : option block :=
  if decide (Z.to_nat n <= length blocks)%nat then
    data ← put_u32 0 n zero_block;
    write_head_loop 0 (take (Z.to_nat n) blocks) data
  else None.

Definition write_head : ST lfs unit :=
  s ← get;
  let l := l_log s in
  buf ← on_bio (bio_get_from_cache (lg_dev l) (lg_start l));
  on_bio (modify_buf buf (set_valid true));;
  data ← lift (load (head_block (lh_n l) (lh_block l)));
  on_bio (modify_buf buf (set_data data));;
  on_bio (bio_write devs buf);;
  on_bio (bio_release buf).

Definition recover_from_log : ST lfs unit :=
  read_head;;
  install_trans true;;
  modify_log (set_lh_n 0);;
  write_head.

(** One iteration of the loop of [write_log]. *)
Definition write_log_one (tail : Z) : ST lfs unit :=
  s ← get;
  let l := l_log s in
  on_bio (
    to ← bio_get_from_cache (lg_dev l) (log_slot l tail);
    modify_buf to (set_valid true);;
    home ← lift (load (lh_block l !! Z.to_nat tail));
    from ← bio_read devs (lg_dev l) home;
    fb ← deref from;
    modify_buf to (set_data (b_data fb));;
    bio_write devs to;;
    bio_release from;;
    bio_release to).

Fixpoint write_log_loop (n : nat) (tail : Z) : ST lfs unit :=
  match n with
  | O => mret tt
  | S n => write_log_one tail;; write_log_loop n (tail + 1)
  end.

Definition write_log : ST lfs unit :=
  s ← get; write_log_loop (Z.to_nat (lh_n (l_log s))) 0.

Definition commit : ST lfs unit :=
  s ← get;
  if 0 <? lh_n (l_log s) then
    write_log;;
    write_head;;
    install_trans false;;
    modify_log (set_lh_n 0);;
    write_head;;
    modify_log (set_old_clients 0)
  else mret tt.
End Commit.

(** ** Mounting and transactions *)

(** [proc->debug_log_depth] of process [pid] changes by [d]; the new value. *)
Definition add_depth (pid d : Z) : ST lfs Z :=
  s ← get;
  let n := default 0 (l_depth s !! pid) + d in
  put (mk_lfs (l_log s) (l_bio s) (<[pid := n]> (l_depth s)));;
  mret n.

(** Index of [pid] in [log->clients], -1 if it is no client. *)
Fixpoint find_client (pid : Z) (cs : list Z) (i : Z) : Z :=
  match cs with
  | [] => -1
  | c :: cs => if c =? pid then i else find_client pid cs (i + 1)
  end.

Definition log_client_from_pid (l : log) (pid : Z) : Z := find_client pid (clients l) 0.

(** The part of the super block that [log_init] reads. *)
Record log_sb := mk_log_sb { sb_nlog : Z; sb_logstart : Z }.

Section Transactions.
Context (devs : Z -> bool).

(** [log_init]; [oom] says whether the [kmalloc] of the block list fails.
    [outstanding] keeps the value it had: the caller zeroed the structure. *)
Definition log_init (oom : bool) (dev : Z) (sb : log_sb) : ST lfs Z :=
  modify_log (fun l =>
    mk_log (s32 (sb_logstart sb)) (s32 (sb_nlog sb)) (lg_outstanding l) 0 dev
      0 [] (clients l) (blocks_used l) (blocks_reserved l) 0);;
  if oom then mret (- ENOMEM)
  else
    modify_log (set_lh_block (replicate (Z.to_nat (sb_nlog sb)) 0));;
    modify_log (fun l =>
      mk_log (lg_start l) (lg_size l) (lg_outstanding l) (lg_committing l) (lg_dev l)
        (lh_n l) (lh_block l)
        (replicate MAX_CONCURRENT_LOG_CLIENTS 0)
        (replicate MAX_CONCURRENT_LOG_CLIENTS 0)
        (replicate MAX_CONCURRENT_LOG_CLIENTS 0)
        (blocks_used_old_clients l));;
    recover_from_log devs;;
    mret 0.

(** Space that is used by finished clients or reserved, in [size_t]. *)
Definition reserved_blocks (l : log) : Z :=
  foldl (fun r x => u64 (r + u64 x)) (u64 (blocks_used_old_clients l)) (blocks_reserved l).

(** Put [pid] with its reservation into the first free client slot. *)
Definition claim_slot (i : nat) (pid to_reserve : Z) (l : log) : log :=
  mk_log (lg_start l) (lg_size l) (lg_outstanding l) (lg_committing l) (lg_dev l)
    (lh_n l) (lh_block l)
    (<[i := pid]> (clients l)) (<[i := 0]> (blocks_used l))
    (<[i := s32 to_reserve]> (blocks_reserved l)) (blocks_used_old_clients l).

Definition set_outstanding (n : Z) (l : log) : log :=
  mk_log (lg_start l) (lg_size l) n (lg_committing l) (lg_dev l)
    (lh_n l) (lh_block l) (clients l) (blocks_used l) (blocks_reserved l)
    (blocks_used_old_clients l).

Definition set_committing (n : Z) (l : log) : log :=
  mk_log (lg_start l) (lg_size l) (lg_outstanding l) n (lg_dev l)
    (lh_n l) (lh_block l) (clients l) (blocks_used l) (blocks_reserved l)
    (blocks_used_old_clients l).

Definition log_begin_fs_transaction_explicit (pid request_min request_ideal : Z)
    : ST lfs Z :=
  depth ← add_depth pid 1;
  lift (panic_unless (depth =? 1));;
  s ← get;
  let l := l_log s in
  if negb (lg_committing l =? 0) then lift Blocked
  else
    let available := u64 (u64 (lg_size l) - reserved_blocks l) in
    if available <? request_min then lift Blocked
    else
      let to_reserve := Z.min available request_ideal in
      let i := find_client 0 (clients l) 0 in
      if i =? -1 then lift Blocked
      else
        modify_log (claim_slot (Z.to_nat i) pid to_reserve);;
        modify_log (fun l => set_outstanding (lg_outstanding l + 1) l);;
        mret i.

Definition log_begin_fs_transaction (pid : Z) : ST lfs Z :=
  log_begin_fs_transaction_explicit pid 10 10.

(** The slot of a client that ends its transaction is freed. *)
Definition leave_slot (i : nat) (used : Z) (l : log) : log :=
  mk_log (lg_start l) (lg_size l) (lg_outstanding l) (lg_committing l) (lg_dev l)
    (lh_n l) (lh_block l)
    (<[i := 0]> (clients l)) (<[i := 0]> (blocks_used l))
    (<[i := 0]> (blocks_reserved l)) (blocks_used_old_clients l + used).

(** The first critical section of [log_end_fs_transaction]: whether this was
    the last transaction, so that the caller commits. *)
Definition log_end_locked (pid : Z) : ST lfs bool :=
  s ← get;
  lift (panic_unless (lg_committing (l_log s) =? 0));;
  modify_log (fun l => set_outstanding (lg_outstanding l - 1) l);;
  let client := log_client_from_pid (l_log s) pid in
  lift (panic_unless (negb (client =? -1)));;
  used ← lift (load (blocks_used (l_log s) !! Z.to_nat client));
  modify_log (leave_slot (Z.to_nat client) used);;
  if lg_outstanding (l_log s) - 1 =? 0
  then modify_log (set_committing 1);; mret true
  else mret false.

(** The commit of the last client, which runs without the lock, and the
    second critical section. *)
Definition log_end_commit : ST lfs unit :=
  commit devs;;
  modify_log (set_committing 0).

Definition log_end_fs_transaction (pid : Z) : ST lfs unit :=
  do_commit ← log_end_locked pid;
  (if do_commit : bool then log_end_commit else mret tt);;
  depth ← add_depth pid (-1);
  lift (panic_unless (depth =? 0)).

(** The absorption loop of [log_write]: index of [blockno] in the first [n]
    entries, [n] if it is not among them. *)
Definition log_index (blockno : Z) (l : log) : Z :=
  let i := find_client blockno (take (Z.to_nat (lh_n l)) (lh_block l)) 0 in
  if i =? -1 then lh_n l else i.

Definition count_used (i : nat) (used : Z) (l : log) : log :=
  mk_log (lg_start l) (lg_size l) (lg_outstanding l) (lg_committing l) (lg_dev l)
    (lh_n l) (lh_block l) (clients l) (<[i := used]> (blocks_used l))
    (blocks_reserved l) (blocks_used_old_clients l).

Definition log_write (pid : Z) (b : nat) : ST lfs unit :=
  s ← get;
  let l := l_log s in
  lift (panic_unless (lh_n l <? u32 (lg_size l)));;
  lift (panic_unless (1 <=? lg_outstanding l));;
  bf ← on_bio (deref b);
  let i := log_index (b_blockno bf) l in
  if negb (i =? lh_n l) then mret tt
  else
    lift (if decide (Z.to_nat i < length (lh_block l))%nat then Ret tt else Undef);;
    modify_log (fun l => set_lh_block (<[Z.to_nat i := b_blockno bf]> (lh_block l)) l);;
    on_bio (bio_get b);;
    modify_log (fun l => set_lh_n (u32 (lh_n l + 1)) l);;
    let client := log_client_from_pid l pid in
    lift (panic_unless (negb (client =? -1)));;
    used ← lift (load (blocks_used l !! Z.to_nat client));
    modify_log (count_used (Z.to_nat client) (used + 1)).

Definition log_get_client_available_blocks (l : log) (client : Z) : res Z :=
  r ← load (blocks_reserved l !! Z.to_nat client);
  u ← load (blocks_used l !! Z.to_nat client);
  mret (u64 (s32 (r - u))).
End Transactions.

(** ** The reservation protocol *)

Definition active (cs : list Z) : Z := zsum ((fun c => if c =? 0 then 0 else 1) <$> cs).

(** Every client stays within its reservation, the reservations and the blocks
    of finished clients fit into the log, and the number of logged blocks is
    what the clients have used. *)
Record log_ok (l : log) : Prop := {
  ok_size : 0 <= lg_size l < 2 ^ 31;
  ok_block : length (lh_block l) = Z.to_nat (lg_size l);
  ok_clients : length (clients l) = MAX_CONCURRENT_LOG_CLIENTS;
  ok_lused : length (blocks_used l) = MAX_CONCURRENT_LOG_CLIENTS;
  ok_lreserved : length (blocks_reserved l) = MAX_CONCURRENT_LOG_CLIENTS;
  ok_pids i j p : p <> 0 -> clients l !! i = Some p -> clients l !! j = Some p -> i = j;
  ok_idle i : clients l !! i = Some 0 ->
    blocks_used l !! i = Some 0 /\ blocks_reserved l !! i = Some 0;
  ok_within i u r : blocks_used l !! i = Some u -> blocks_reserved l !! i = Some r ->
    0 <= u <= r;
  ok_outstanding : lg_outstanding l = active (clients l);
  ok_old : 0 <= blocks_used_old_clients l;
  ok_n : lh_n l = blocks_used_old_clients l + zsum (blocks_used l);
  ok_room : blocks_used_old_clients l + zsum (blocks_reserved l) <= lg_size l;
  ok_committing : lg_committing l = 0 \/ (lg_committing l = 1 /\ lg_outstanding l = 0)
}.

Lemma find_client_spec p cs k :
  0 <= k ->
  (find_client p cs k = -1 /\ p ∉ cs) \/
  (exists i, find_client p cs k = k + Z.of_nat i /\ cs !! i = Some p).
Proof.
  revert k. induction cs as [|c cs IH]; intros k Hk; simpl.
  - left. split; [done|]. apply not_elem_of_nil.
  - zcase.
    + right. exists O. simpl. subst. split; [lia|done].
    + destruct (IH (k + 1)) as [[-> Hn]|(i & -> & Hi)]; [lia|left|right].
      * split; [done|]. by apply not_elem_of_cons.
      * exists (S i). split; [lia|done].
Qed.

Lemma find_client_0 p cs :
  (find_client p cs 0 = -1 /\ p ∉ cs) \/
  (exists i, find_client p cs 0 = Z.of_nat i /\ cs !! i = Some p /\ (i < length cs)%nat).
Proof.
  destruct (find_client_spec p cs 0) as [?|(i & E & Hi)]; [lia|by left|right].
  exists i. split; [lia|]. split; [done|]. by eapply lookup_lt_Some.
Qed.

Lemma active_insert cs i c c' :
  cs !! i = Some c ->
  active (<[i := c']> cs) =
  active cs - (if c =? 0 then 0 else 1) + (if c' =? 0 then 0 else 1).
Proof.
  intros E. unfold active. rewrite list_fmap_insert. apply zsum_insert.
  by rewrite list_lookup_fmap, E.
Qed.

Lemma active_zero cs : active cs = 0 -> forall i c, cs !! i = Some c -> c = 0.
Proof.
  intros H i c Hc. destruct (Z.eq_dec c 0) as [|Hne]; [done|].
  pose proof (active_insert cs i c 0 Hc) as E. rewrite H in E.
  assert (0 <= active (<[i := 0]> cs)) as Hp.
  { apply zsum_nonneg. intros j x. rewrite list_lookup_fmap.
    destruct (_ !! j) as [z|]; simpl; [|done]. intros [= <-]. destruct (z =? 0); lia. }
  apply Z.eqb_neq in Hne. rewrite Hne in E. simpl in E. lia.
Qed.

Lemma reserved_pos l :
  log_ok l -> forall i x, blocks_reserved l !! i = Some x -> 0 <= x.
Proof.
  intros Hok i x Hx. destruct (blocks_used l !! i) as [u|] eqn:E.
  - pose proof (ok_within _ Hok i u x E Hx). lia.
  - apply lookup_ge_None in E. apply lookup_lt_Some in Hx.
    rewrite (ok_lused _ Hok) in E. rewrite (ok_lreserved _ Hok) in Hx. lia.
Qed.

Lemma reserved_nonneg l : log_ok l -> 0 <= zsum (blocks_reserved l).
Proof. intros Hok. apply zsum_nonneg, (reserved_pos l Hok). Qed.

(** The reservations are small, so the [size_t] sum is exact. *)
Lemma reserved_blocks_sum l :
  log_ok l -> reserved_blocks l = blocks_used_old_clients l + zsum (blocks_reserved l).
Proof.
  intros Hok. pose proof (reserved_pos l Hok) as Hpos. pose proof (ok_size _ Hok) as Hs.
  pose proof (ok_old _ Hok) as Ho. pose proof (ok_room _ Hok) as Hr. unfold reserved_blocks.
  pose proof (zsum_nonneg _ Hpos) as H0. rewrite (uwrap_id 64) by (unfold is_u; lia).
  revert Hpos Hr H0 Ho. generalize (blocks_used_old_clients l) as a, (blocks_reserved l) as rs.
  intros a rs; revert a. induction rs as [|r rs IH]; intros a Hpos Hr H0 Ho; [simpl; lia|].
  change (zsum (r :: rs)) with (r + zsum rs) in *. cbn [foldl].
  pose proof (Hpos O r eq_refl).
  assert (forall i x, rs !! i = Some x -> 0 <= x) as Hp' by (intros i; apply (Hpos (S i))).
  pose proof (zsum_nonneg _ Hp').
  rewrite (uwrap_id 64 r), (uwrap_id 64 (a + r)) by (unfold is_u; lia).
  rewrite IH; [lia|done|lia..].
Qed.

(** The log invariant and: a process with a client slot is inside a
    transaction. *)
Record proto_ok (s : lfs) : Prop := {
  pr_log : log_ok (l_log s);
  pr_depth pid : pid <> 0 -> pid ∈ clients (l_log s) -> default 0 (l_depth s !! pid) = 1
}.

(** The blocks [log_begin_fs_transaction_explicit] can still hand out. *)
Definition available_blocks (l : log) : Z :=
  lg_size l - (blocks_used_old_clients l + zsum (blocks_reserved l)).

Lemma claim_ok l i pid n :
  log_ok l -> clients l !! i = Some 0 -> pid <> 0 -> pid ∉ clients l ->
  0 <= n <= available_blocks l -> lg_committing l = 0 ->
  log_ok (set_outstanding (lg_outstanding l + 1) (claim_slot i pid n l)).
Proof.
  intros Hok Hi Hp Hni Hn Hc. unfold available_blocks in Hn.
  pose proof (ok_size _ Hok). destruct (ok_idle _ Hok i Hi) as [Hu Hr].
  assert (s32 n = n) as En.
  { apply swrap_id; [|lia]. unfold is_s.
    pose proof (reserved_nonneg l Hok). pose proof (ok_old _ Hok). lia. }
  destruct Hok. constructor; simpl; rewrite ?length_insert, ?En; try done.
  - intros a b p Hpp. rewrite !list_lookup_insert_Some.
    intros [(<- & <- & _)|[_ Ha]] [(<- & E & _)|[_ Hb]]; [done|..|by eapply ok_pids0].
    + destruct Hni. by eapply list_elem_of_lookup_2.
    + subst. destruct Hni. by eapply list_elem_of_lookup_2.
  - intros j. rewrite !list_lookup_insert_Some.
    intros [(_ & E & _)|[Hne Hj]]; [done|]. destruct (ok_idle0 j Hj). auto.
  - intros j u r. rewrite !list_lookup_insert_Some.
    intros [(<- & <- & _)|[Hne Hj]] [(E & <- & _)|[Hne' Hj']]; [lia|done..|by eapply ok_within0].
  - rewrite (active_insert _ _ 0) by done. simpl.
    rewrite (proj2 (Z.eqb_neq _ _) Hp). lia.
  - rewrite (zsum_insert _ _ 0) by done. lia.
  - rewrite (zsum_insert _ _ 0) by done. lia.
  - by left.
Qed.

Lemma leave_ok l i pid u :
  log_ok l -> clients l !! i = Some pid -> pid <> 0 -> blocks_used l !! i = Some u ->
  lg_committing l = 0 ->
  log_ok (leave_slot i u (set_outstanding (lg_outstanding l - 1) l)).
Proof.
  intros Hok Hi Hp Hu Hc.
  destruct (blocks_reserved l !! i) as [r|] eqn:Hr; cycle 1.
  { apply lookup_ge_None in Hr. apply lookup_lt_Some in Hu.
    rewrite (ok_lused _ Hok) in Hu. rewrite (ok_lreserved _ Hok) in Hr. lia. }
  destruct Hok. pose proof (ok_within0 i u r Hu Hr).
  constructor; simpl; rewrite ?length_insert; try done.
  - intros a b p Hpp. rewrite !list_lookup_insert_Some.
    intros [(<- & <- & _)|[_ Ha]] [(<- & E & _)|[_ Hb]]; [done..|by subst|by eapply ok_pids0].
  - intros j. apply lookup_lt_Some in Hu as Hlu. apply lookup_lt_Some in Hr as Hlr.
    rewrite !list_lookup_insert_Some.
    intros [(<- & _ & _)|[Hne Hj]]; [auto|]. destruct (ok_idle0 j Hj). auto.
  - intros j v w. rewrite !list_lookup_insert_Some.
    intros [(<- & <- & _)|[Hne Hj]] [(E & <- & _)|[Hne' Hj']]; [lia|done..|by eapply ok_within0].
  - rewrite (active_insert _ _ pid) by done. simpl.
    rewrite (proj2 (Z.eqb_neq _ _) Hp). lia.
  - lia.
  - rewrite (zsum_insert _ _ u) by done. lia.
  - rewrite (zsum_insert _ _ r) by done. lia.
  - by left.
Qed.

Lemma used_reserved l i pid :
  log_ok l -> clients l !! i = Some pid ->
  exists u r, blocks_used l !! i = Some u /\ blocks_reserved l !! i = Some r.
Proof.
  intros Hok Hi. apply lookup_lt_Some in Hi.
  pose proof (ok_clients _ Hok). pose proof (ok_lused _ Hok). pose proof (ok_lreserved _ Hok).
  destruct (lookup_lt_is_Some_2 (blocks_used l) i) as [u Hu]; [lia|].
  destruct (lookup_lt_is_Some_2 (blocks_reserved l) i) as [r Hr]; [lia|]. eauto.
Qed.

Lemma client_of l i pid :
  log_ok l -> clients l !! i = Some pid -> pid <> 0 -> log_client_from_pid l pid = Z.of_nat i.
Proof.
  intros Hok Hi Hp. unfold log_client_from_pid.
  destruct (find_client_0 pid (clients l)) as [[_ Hn]|(j & -> & Hj & _)].
  - destruct Hn. by eapply list_elem_of_lookup_2.
  - f_equal. by eapply (ok_pids _ Hok).
Qed.

(** Inside its reservation a client always finds room in the log. *)
Lemma log_room l i u r :
  log_ok l -> blocks_used l !! i = Some u -> blocks_reserved l !! i = Some r -> u < r ->
  0 <= lh_n l < lg_size l.
Proof.
  intros Hok Hu Hr Hlt.
  assert (zsum (blocks_used l) < zsum (blocks_reserved l)).
  { eapply (zsum_lt _ _ i u r); try done.
    - by rewrite (ok_lused _ Hok), (ok_lreserved _ Hok).
    - intros j x y Hx Hy. pose proof (ok_within _ Hok j x y Hx Hy). lia. }
  assert (0 <= zsum (blocks_used l)).
  { apply zsum_nonneg. intros j x Hx.
    destruct (blocks_reserved l !! j) as [y|] eqn:E.
    - pose proof (ok_within _ Hok j x y Hx E). lia.
    - apply lookup_ge_None in E. apply lookup_lt_Some in Hx.
      rewrite (ok_lused _ Hok) in Hx. rewrite (ok_lreserved _ Hok) in E. lia. }
  pose proof (ok_room _ Hok). pose proof (ok_n _ Hok). pose proof (ok_old _ Hok). lia.
Qed.

(** The log after block [bn] has been appended by client [i]. *)
Definition logged (i : nat) (u bn : Z) (l : log) : log :=
  count_used i (u + 1)
    (set_lh_n (lh_n l + 1) (set_lh_block (<[Z.to_nat (lh_n l) := bn]> (lh_block l)) l)).

Lemma logged_ok l i u r bn :
  log_ok l -> blocks_used l !! i = Some u -> blocks_reserved l !! i = Some r -> u < r ->
  clients l !! i <> Some 0 -> log_ok (logged i u bn l).
Proof.
  intros Hok Hu Hr Hlt Hcl. destruct Hok.
  constructor; simpl; rewrite ?length_insert; try done.
  - intros j Hj. rewrite list_lookup_insert_Some. destruct (ok_idle0 j Hj).
    assert (i <> j) by congruence. auto.
  - intros j v w. rewrite list_lookup_insert_Some.
    intros [(<- & <- & _)|[Hne Hj]] Hw; [|by eapply ok_within0].
    pose proof (ok_within0 i u r Hu Hr). simplify_eq. lia.
  - rewrite (zsum_insert _ _ u) by done. lia.
Qed.

Lemma log_index_spec bn l :
  (Z.to_nat (lh_n l) <= length (lh_block l))%nat -> 0 <= lh_n l ->
  (log_index bn l = lh_n l /\ bn ∉ take (Z.to_nat (lh_n l)) (lh_block l)) \/
  (log_index bn l <> lh_n l /\ bn ∈ take (Z.to_nat (lh_n l)) (lh_block l)).
Proof.
  intros Hle H0. unfold log_index.
  destruct (find_client_0 bn (take (Z.to_nat (lh_n l)) (lh_block l)))
    as [[-> Hn]|(i & -> & Hi & Hlt)]; simpl; [by left|right].
  rewrite (proj2 (Z.eqb_neq _ _)) by lia. rewrite length_take in Hlt.
  split; [lia|]. by eapply list_elem_of_lookup_2.
Qed.

Lemma log_write_run s i pid u r b bf :
  log_ok (l_log s) -> clients (l_log s) !! i = Some pid -> pid <> 0 ->
  blocks_used (l_log s) !! i = Some u -> blocks_reserved (l_log s) !! i = Some r -> u < r ->
  find_buf b (buf_list (l_bio s)) = Some bf ->
  log_write pid b s =
  Ret (tt,
    if decide (b_blockno bf ∈ take (Z.to_nat (lh_n (l_log s))) (lh_block (l_log s)))
    then s
    else mk_lfs (logged i u (b_blockno bf) (l_log s))
           (set_bufs (upd_buf b (set_refcnt (u32 (b_refcnt bf + 1))) (buf_list (l_bio s)))
              (l_bio s))
           (l_depth s)).
Proof.
  intros Hok Hi Hp Hu Hr Hlt Hb. set (l := l_log s) in *.
  pose proof (log_room l i u r Hok Hu Hr Hlt) as Hn. pose proof (ok_size _ Hok) as Hsz.
  pose proof (ok_block _ Hok) as Hbl.
  assert (1 <= lg_outstanding l) as Ho.
  { rewrite (ok_outstanding _ Hok). pose proof (active_insert (clients l) i pid 0 Hi) as E.
    rewrite (proj2 (Z.eqb_neq _ _) Hp) in E. simpl in E.
    assert (0 <= active (<[i := 0]> (clients l))); [|lia].
    apply zsum_nonneg. intros j x. rewrite list_lookup_fmap.
    destruct (_ !! j) as [z|]; simpl; [|done]. intros [= <-]. destruct (z =? 0); lia. }
  unfold log_write, mbind, ST_bind, get. fold l. cbv zeta.
  rewrite (uwrap_id 32 (lg_size l)) by (unfold is_u; lia).
  rewrite (proj2 (Z.ltb_lt _ _)) by lia. rewrite (proj2 (Z.leb_le _ _)) by lia.
  cbn [lift panic_unless]. unfold on_bio at 1, deref at 1. rewrite Hb.
  change (mk_lfs (l_log s) (l_bio s) (l_depth s)) with (mk_lfs l (l_bio s) (l_depth s)).
  destruct (log_index_spec (b_blockno bf) l) as [[E Hnin]|[E Hin]]; [lia..| |].
  - rewrite E, Z.eqb_refl. rewrite decide_True by lia. cbn [negb lift].
    rewrite (decide_False (P := _ ∈ _)) by done.
    unfold modify_log, modify, on_bio, bio_get, mbind, ST_bind, deref. simpl. rewrite Hb. simpl.
    rewrite (client_of l i pid) by done. rewrite (proj2 (Z.eqb_neq _ _)) by lia. simpl.
    rewrite Nat2Z.id, Hu. simpl. unfold logged.
    rewrite (uwrap_id 32 (lh_n l + 1)) by (unfold is_u; lia). done.
  - rewrite (proj2 (Z.eqb_neq _ _)) by done. cbn [negb].
    rewrite (decide_True (P := _ ∈ _)) by done. by destruct s.
Qed.

(** [log_begin_fs_transaction_explicit] on every branch. *)
Lemma log_begin_run s pid mn ideal :
  log_ok (l_log s) -> default 0 (l_depth s !! pid) = 0 -> 0 <= ideal ->
  log_begin_fs_transaction_explicit pid mn ideal s =
  let l := l_log s in
  let i := find_client 0 (clients l) 0 in
  if ((lg_committing l =? 0) && (mn <=? available_blocks l) && negb (i =? -1))%bool
  then Ret (i, mk_lfs (set_outstanding (lg_outstanding l + 1)
                         (claim_slot (Z.to_nat i) pid (Z.min (available_blocks l) ideal) l))
                 (l_bio s) (<[pid := 1]> (l_depth s)))
  else Blocked.
Proof.
  intros Hok Hd Hid. cbv zeta. pose proof (ok_size _ Hok). pose proof (ok_room _ Hok).
  assert (0 <= available_blocks (l_log s) < 2 ^ 31) as Ha.
  { unfold available_blocks. pose proof (ok_old _ Hok).
    pose proof (reserved_nonneg _ Hok). lia. }
  unfold log_begin_fs_transaction_explicit, add_depth, mbind, ST_bind, get, put, mret, ST_ret.
  rewrite Hd. simpl. rewrite reserved_blocks_sum by done.
  rewrite (uwrap_id 64 (lg_size _)) by (unfold is_u; lia).
  fold (available_blocks (l_log s)). rewrite (uwrap_id 64) by (unfold is_u; lia).
  destruct (lg_committing (l_log s) =? 0); simpl; [|done].
  rewrite Z.ltb_antisym. destruct (mn <=? _); simpl; [|done].
  destruct (find_client 0 _ 0 =? -1); done.
Qed.

Lemma begin_proto_ok s pid i n :
  proto_ok s -> default 0 (l_depth s !! pid) = 0 -> pid <> 0 ->
  clients (l_log s) !! i = Some 0 -> 0 <= n <= available_blocks (l_log s) ->
  lg_committing (l_log s) = 0 ->
  proto_ok (mk_lfs (set_outstanding (lg_outstanding (l_log s) + 1) (claim_slot i pid n (l_log s)))
              (l_bio s) (<[pid := 1]> (l_depth s))).
Proof.
  intros [Hok Hde] Hd Hp Hi Hn Hc.
  assert (pid ∉ clients (l_log s)) as Hni by (intros Hin; specialize (Hde pid Hp Hin); lia).
  constructor; simpl; [by apply claim_ok|].
  intros q Hq Hin. destruct (decide (q = pid)) as [->|Hne]; [by rewrite lookup_insert_eq|].
  rewrite lookup_insert_ne by done. apply Hde; [done|].
  apply list_elem_of_lookup in Hin as [j Hj]. apply list_lookup_insert_Some in Hj.
  destruct Hj as [(_ & E & _)|[_ Hj]]; [done|]. by eapply list_elem_of_lookup_2.
Qed.

Definition end_log (i : nat) (u : Z) (l : log) : log :=
  let l' := leave_slot i u (set_outstanding (lg_outstanding l - 1) l) in
  if lg_outstanding l - 1 =? 0 then set_committing 1 l' else l'.

Lemma log_end_locked_run s i pid u :
  log_ok (l_log s) -> clients (l_log s) !! i = Some pid -> pid <> 0 ->
  blocks_used (l_log s) !! i = Some u -> lg_committing (l_log s) = 0 ->
  log_end_locked pid s =
  Ret (lg_outstanding (l_log s) - 1 =? 0, mk_lfs (end_log i u (l_log s)) (l_bio s) (l_depth s)).
Proof.
  intros Hok Hi Hp Hu Hc.
  unfold log_end_locked, mbind, ST_bind, get, lift, modify_log, modify, mret, ST_ret.
  rewrite Hc. simpl. rewrite (client_of _ i) by done.
  rewrite (proj2 (Z.eqb_neq _ _)) by lia. simpl. rewrite Nat2Z.id, Hu. simpl.
  unfold end_log. by destruct (_ =? 0).
Qed.

Lemma end_log_ok l i pid u :
  log_ok l -> clients l !! i = Some pid -> pid <> 0 -> blocks_used l !! i = Some u ->
  lg_committing l = 0 -> log_ok (end_log i u l).
Proof.
  intros Hok Hi Hp Hu Hc. pose proof (leave_ok l i pid u Hok Hi Hp Hu Hc) as Hl.
  unfold end_log. destruct (_ =? 0) eqn:E; [|done]. apply Z.eqb_eq in E.
  destruct Hl. constructor; try done. by right.
Qed.

(** After the last client has left, the commit empties the log. *)
Lemma committed_ok l :
  log_ok l -> lg_outstanding l = 0 ->
  log_ok (set_committing 0 (set_old_clients 0 (set_lh_n 0 l))).
Proof.
  intros Hok Ho. pose proof (active_zero (clients l)) as Hz.
  rewrite <- (ok_outstanding _ Hok) in Hz. specialize (Hz Ho).
  assert (zsum (blocks_used l) = 0 /\ zsum (blocks_reserved l) = 0) as [Hu Hr].
  { pose proof (ok_clients _ Hok). destruct Hok.
    destruct (clients l) as [|c1 [|c2 [|c3 [|c4 []]]]]; try discriminate.
    rewrite (Hz 0%nat c1 eq_refl), (Hz 1%nat c2 eq_refl), (Hz 2%nat c3 eq_refl),
      (Hz 3%nat c4 eq_refl) in ok_idle0.
    destruct (ok_idle0 0%nat eq_refl), (ok_idle0 1%nat eq_refl), (ok_idle0 2%nat eq_refl),
      (ok_idle0 3%nat eq_refl).
    destruct (blocks_used l) as [|u1 [|u2 [|u3 [|u4 []]]]]; try discriminate.
    destruct (blocks_reserved l) as [|r1 [|r2 [|r3 [|r4 []]]]]; try discriminate.
    by simplify_eq/=. }
  destruct Hok. constructor; simpl; try done; lia.
Qed.

(** *** The steps of concurrent processes *)

(** Code that does not change the log or the depths. *)
Definition keeps_log {A} (m : ST lfs A) : Prop :=
  forall s a s', m s = Ret (a, s') -> l_log s' = l_log s /\ l_depth s' = l_depth s.

Lemma keeps_on_bio {A} (m : ST bio A) : keeps_log (on_bio m).
Proof. intros s a s'. unfold on_bio. destruct (m _) as [[]| | | |]; by intros [= <- <-]. Qed.

Lemma keeps_lift {A} (r : res A) : keeps_log (lift r).
Proof. intros s a s'. unfold lift. destruct r; by intros [= <- <-]. Qed.

Lemma keeps_ret {A} (a : A) : keeps_log (mret a).
Proof. intros s b s'. by intros [= <- <-]. Qed.

Lemma keeps_get : keeps_log get.
Proof. intros s b s'. by intros [= <- <-]. Qed.

Lemma keeps_bind {A B} (m : ST lfs A) (f : A -> ST lfs B) :
  keeps_log m -> (forall a, keeps_log (f a)) -> keeps_log (m ≫= f).
Proof.
  intros Hm Hf s b s' (a & s1 & E1 & E2)%ST_bind_Ret.
  destruct (Hm _ _ _ E1), (Hf _ _ _ _ E2). split; congruence.
Qed.

#[export] Hint Resolve keeps_on_bio keeps_lift keeps_ret keeps_get : vimix.
#[export] Hint Extern 2 (keeps_log (_ ≫= _)) => apply keeps_bind; [|intros ?] : vimix.

Lemma keeps_write_log devs : keeps_log (write_log devs).
Proof.
  unfold write_log. apply keeps_bind; [auto with vimix|]. intros s.
  generalize (Z.to_nat (lh_n (l_log s))) as n, 0 as t. induction n; intros t; simpl.
  - auto with vimix.
  - apply keeps_bind; [|auto]. unfold write_log_one. auto with vimix.
Qed.

Lemma keeps_install devs rec : keeps_log (install_trans devs rec).
Proof.
  unfold install_trans. apply keeps_bind; [auto with vimix|]. intros s.
  generalize (Z.to_nat (lh_n (l_log s))) as n, 0 as t. induction n; intros t; simpl.
  - auto with vimix.
  - apply keeps_bind; [|auto]. unfold install_one. auto with vimix.
Qed.

Lemma keeps_write_head devs : keeps_log (write_head devs).
Proof. unfold write_head. auto 10 with vimix. Qed.

Lemma commit_log devs s s' :
  commit devs s = Ret (tt, s') -> log_ok (l_log s) -> lg_outstanding (l_log s) = 0 ->
  l_log s' = set_old_clients 0 (set_lh_n 0 (l_log s)) /\ l_depth s' = l_depth s.
Proof.
  intros E Hok Ho. unfold commit in E. apply ST_bind_Ret in E as (l & s0 & [= <- <-] & E).
  destruct (0 <? lh_n (l_log s)) eqn:Hn.
  - apply ST_bind_Ret in E as ([] & s1 & E1 & E). apply keeps_write_log in E1 as [E1 F1].
    apply ST_bind_Ret in E as ([] & s2 & E2 & E). apply keeps_write_head in E2 as [E2 F2].
    apply ST_bind_Ret in E as ([] & s3 & E3 & E). apply keeps_install in E3 as [E3 F3].
    apply ST_bind_Ret in E as ([] & s4 & [= <-] & E).
    apply ST_bind_Ret in E as ([] & s5 & E5 & E). apply keeps_write_head in E5 as [E5 F5].
    injection E as <-. simpl in *. by rewrite E5, F5, E3, E2, E1, F3, F2, F1.
  - injection E as <-. split; [|done]. apply Z.ltb_ge in Hn.
    pose proof (committed_ok _ Hok Ho) as Hc. pose proof (ok_n _ Hok).
    pose proof (ok_n _ Hc) as Hz. simpl in Hz. pose proof (ok_old _ Hok).
    assert (lh_n (l_log s) = 0) by lia. assert (blocks_used_old_clients (l_log s) = 0) by lia.
    unfold set_old_clients, set_lh_n. destruct (l_log s); simpl in *. congruence.
Qed.

(** What the processes do, in any order.  [step_write] is the obligation of a
    client: it logs a block only while it has reserved blocks left.
    [step_cache] is anything done to the cache outside of the log. *)
Inductive log_step (devs : Z -> bool) : lfs -> lfs -> Prop :=
| step_begin pid mn ideal i s s' :
    0 < pid -> 0 <= ideal ->
    log_begin_fs_transaction_explicit pid mn ideal s = Ret (i, s') -> log_step devs s s'
| step_write pid b s s' i u r :
    0 < pid -> clients (l_log s) !! i = Some pid ->
    blocks_used (l_log s) !! i = Some u -> blocks_reserved (l_log s) !! i = Some r -> u < r ->
    log_write pid b s = Ret (tt, s') -> log_step devs s s'
| step_end pid last s s' :
    0 < pid -> log_end_locked pid s = Ret (last, s') -> log_step devs s s'
| step_commit s s' :
    lg_committing (l_log s) = 1 -> log_end_commit devs s = Ret (tt, s') -> log_step devs s s'
| step_leave pid n s s' :
    pid ∉ clients (l_log s) -> add_depth pid (-1) s = Ret (n, s') -> log_step devs s s'
| step_cache s b' :
    log_step devs s (mk_lfs (l_log s) b' (l_depth s)).

Lemma log_end_locked_inv s pid last s' :
  log_ok (l_log s) -> 0 < pid -> log_end_locked pid s = Ret (last, s') ->
  exists i u, clients (l_log s) !! i = Some pid /\ blocks_used (l_log s) !! i = Some u /\
    lg_committing (l_log s) = 0.
Proof.
  intros Hok Hp E. unfold log_end_locked in E.
  apply ST_bind_Ret in E as (? & ? & [= <- <-] & E).
  apply ST_bind_Ret in E as ([] & s1 & E1 & E).
  apply ST_bind_Ret in E as ([] & s2 & _ & E).
  apply ST_bind_Ret in E as ([] & s3 & E3 & E).
  destruct (lg_committing (l_log s) =? 0) eqn:Hc; [|discriminate]. apply Z.eqb_eq in Hc.
  unfold log_client_from_pid in E3.
  destruct (find_client_0 pid (clients (l_log s))) as [[F _]|(i & F & Hi & _)];
    rewrite F in E3; [discriminate|].
  destruct (used_reserved _ i pid Hok Hi) as (u & r & Hu & _). eauto 10.
Qed.

Lemma log_begin_inv s pid mn ideal i s' :
  log_begin_fs_transaction_explicit pid mn ideal s = Ret (i, s') ->
  default 0 (l_depth s !! pid) = 0.
Proof.
  intros E. unfold log_begin_fs_transaction_explicit in E.
  apply ST_bind_Ret in E as (d & s1 & E1 & E). apply ST_bind_Ret in E as ([] & s2 & E2 & _).
  injection E1 as <- <-. destruct (_ =? 1) eqn:Hd; [|discriminate]. apply Z.eqb_eq in Hd. lia.
Qed.

Lemma log_step_ok devs s s' : proto_ok s -> log_step devs s s' -> proto_ok s'.
Proof.
  intros [Hok Hde] Hst. destruct Hst as [pid mn ideal i s s' Hp Hid E
    |pid b s s' i u r Hp Hi Hu Hr Hlt E|pid last s s' Hp E|s s' Hc E|pid n s s' Hni E|s b'].
  - pose proof (log_begin_inv _ _ _ _ _ _ E) as Hd. rewrite log_begin_run in E by done.
    cbv zeta in E. zcase; [|discriminate]. injection E as <- <-.
    destruct (find_client_0 0 (clients (l_log s))) as [[F _]|(j & F & Hj & _)]; [lia|].
    rewrite F, Nat2Z.id. pose proof (ok_room _ Hok).
    apply begin_proto_ok; try done; unfold available_blocks in *; lia.
  - assert (exists bf, find_buf b (buf_list (l_bio s)) = Some bf) as [bf Hb].
    { unfold log_write in E. apply ST_bind_Ret in E as (? & ? & [= <- <-] & E).
      apply ST_bind_Ret in E as ([] & s1 & E1 & E). apply ST_bind_Ret in E as ([] & s2 & E2 & E).
      apply keeps_lift in E1 as H1. destruct (_ <? _); [|discriminate].
      destruct (_ <=? _); [|discriminate]. injection E1 as <-. injection E2 as <-.
      apply ST_bind_Ret in E as (bf & s3 & E3 & E). unfold on_bio, deref in E3.
      destruct (find_buf _ _) as [c|] eqn:F; [eauto|discriminate]. }
    rewrite (log_write_run s i pid u r b bf) in E by (done || lia).
    injection E as <-. case_decide; [done|]. constructor; [|done]. simpl.
    eapply logged_ok; try done. rewrite Hi. intros [= ->]. lia.
  - destruct (log_end_locked_inv s pid last s') as (i & u & Hi & Hu & Hc); try done.
    rewrite (log_end_locked_run s i pid u) in E by (done || lia). injection E as <- <-.
    constructor; simpl; [eapply end_log_ok; try done; lia|].
    intros q Hq Hin. apply Hde; [done|]. unfold end_log in Hin.
    replace (clients _) with (<[i := 0]> (clients (l_log s))) in Hin by by destruct (_ =? 0).
    apply list_elem_of_lookup in Hin as [j Hj]. apply list_lookup_insert_Some in Hj.
    destruct Hj as [(_ & E & _)|[_ Hj]]; [done|]. by eapply list_elem_of_lookup_2.
  - unfold log_end_commit in E. apply ST_bind_Ret in E as ([] & s1 & E1 & [= <-]).
    assert (lg_outstanding (l_log s) = 0) as Ho by (destruct (ok_committing _ Hok); lia).
    destruct (commit_log devs s s1) as [F1 F2]; try done.
    constructor; simpl; rewrite F1; [by apply committed_ok|]. simpl. by rewrite F2.
  - injection E as <- <-. constructor; simpl; [done|]. intros q Hq Hin.
    rewrite lookup_insert_ne by (intros ->; done). by apply Hde.
  - by constructor.
Qed.

Lemma read_head_loop_length n i data dst dst' :
  read_head_loop n i data dst = Some dst' -> length dst' = length dst.
Proof.
  revert i dst. induction n as [|n IH]; intros i dst E; simplify_eq/=; [done|].
  destruct (get_u32 _ _); simplify_eq/=. case_decide; [|done].
  apply IH in E. by rewrite length_insert in E.
Qed.

(** Mounting establishes the invariant, with no client and an empty log. *)
Lemma log_init_ok devs dev sb s s' :
  log_init devs false dev sb s = Ret (0, s') ->
  0 <= sb_nlog sb < 2 ^ 31 -> lg_outstanding (l_log s) = 0 ->
  proto_ok s' /\ lg_size (l_log s') = sb_nlog sb /\ lh_n (l_log s') = 0.
Proof.
  intros E Hn Ho. unfold log_init in E.
  apply ST_bind_Ret in E as ([] & s1 & [= <-] & E).
  apply ST_bind_Ret in E as ([] & s2 & [= <-] & E).
  apply ST_bind_Ret in E as ([] & s3 & [= <-] & E).
  apply ST_bind_Ret in E as ([] & s4 & E & [= <-]).
  unfold recover_from_log in E. apply ST_bind_Ret in E as ([] & s5 & E1 & E).
  apply ST_bind_Ret in E as ([] & s6 & E2 & E). apply ST_bind_Ret in E as ([] & s7 & [= <-] & E).
  apply keeps_write_head in E as [F _]. simpl in F. apply keeps_install in E2 as [F2 _].
  rewrite F2 in F. unfold read_head in E1.
  apply ST_bind_Ret in E1 as (? & ? & [= <- <-] & E1).
  apply ST_bind_Ret in E1 as (id & t1 & G1 & E1). apply keeps_on_bio in G1 as [G1 _].
  apply ST_bind_Ret in E1 as (b & t2 & G2 & E1). apply keeps_on_bio in G2 as [G2 _].
  apply ST_bind_Ret in E1 as (n & t3 & G3 & E1). apply keeps_lift in G3 as [G3 _].
  apply ST_bind_Ret in E1 as (bs & t4 & G4 & E1). pose proof (proj1 (keeps_lift _ _ _ _ G4)) as G4'.
  apply ST_bind_Ret in E1 as ([] & t5 & [= <-] & E1).
  apply ST_bind_Ret in E1 as ([] & t6 & [= <-] & E1). apply keeps_on_bio in E1 as [G5 _].
  simpl in *. rewrite G5, G4', G3, G2, G1 in F. simpl in F.
  destruct (read_head_loop _ _ _ _) as [bs'|] eqn:R; [|discriminate]. injection G4 as <- <-.
  apply read_head_loop_length in R. rewrite length_replicate in R.
  rewrite (swrap_id 32 (sb_nlog sb)) in F by (unfold is_s; lia).
  split; [|by rewrite F]. constructor; rewrite F; simpl.
  - constructor; simpl; try done; try lia.
    + intros [|[|[|[|i]]]] j p Hp Hi; discriminate Hi || (simpl in Hi; congruence).
    + intros [|[|[|[|i]]]] u r Hu Hr; discriminate Hu || (simplify_eq/=; lia).
  - intros q Hq Hin. repeat (apply elem_of_cons in Hin as [->|Hin]; [done|]).
    by apply not_elem_of_nil in Hin.
Qed.

(** *** Properties of the reservation protocol *)

(** C3: concurrent transactions and the log space.  After mounting, in every
    state reached by any interleaving of transactions of processes that log
    blocks only within their reservation, the logged blocks fit into the
    reserved space, and a client with reserved blocks left can log a buffer:
    [log_write] neither panics nor writes out of bounds, records the buffer's
    block number once, and takes a reference only for a new block. *)
Theorem log_write_within_reservation devs dev sb s0 s1 s i pid u r b bf :
  log_init devs false dev sb s0 = Ret (0, s1) ->
  0 <= sb_nlog sb < 2 ^ 31 -> lg_outstanding (l_log s0) = 0 ->
  rtc (log_step devs) s1 s ->
  pid <> 0 -> clients (l_log s) !! i = Some pid ->
  blocks_used (l_log s) !! i = Some u -> blocks_reserved (l_log s) !! i = Some r -> u < r ->
  find_buf b (buf_list (l_bio s)) = Some bf ->
  exists s', log_write pid b s = Ret (tt, s') /\ proto_ok s' /\
    let old := take (Z.to_nat (lh_n (l_log s))) (lh_block (l_log s)) in
    let new := take (Z.to_nat (lh_n (l_log s'))) (lh_block (l_log s')) in
    new = (if decide (b_blockno bf ∈ old) then old else old ++ [b_blockno bf]) /\
    find_buf b (buf_list (l_bio s')) =
      Some (if decide (b_blockno bf ∈ old) then bf
            else set_refcnt (u32 (b_refcnt bf + 1)) bf).
Proof.
  intros E Hn Ho Hreach Hp Hi Hu Hr Hlt Hb.
  assert (proto_ok s) as Hpr.
  { destruct (log_init_ok _ _ _ _ _ E Hn Ho) as [H0 _]. clear -H0 Hreach.
    induction Hreach; eauto using log_step_ok. }
  pose proof (pr_log _ Hpr) as Hok. rewrite (log_write_run s i pid u r b bf) by done.
  eexists. split; [done|]. cbv zeta. destruct (decide _) as [Hin|Hin]; [split_and!; done|].
  pose proof (log_room _ _ _ _ Hok Hu Hr Hlt) as Hroom. pose proof (ok_block _ Hok) as Hbl.
  split_and!; simpl.
  - constructor; [|apply Hpr]. eapply logged_ok; try done. congruence.
  - replace (Z.to_nat (lh_n (l_log s) + 1)) with (S (Z.to_nat (lh_n (l_log s)))) by lia.
    rewrite (take_S_r _ _ (b_blockno bf)) by (apply list_lookup_insert_eq; lia).
    by rewrite take_insert_ge by lia.
  - clear -Hb. unfold find_buf, upd_buf in *. induction (buf_list (l_bio s)) as [|c l IH]; [done|].
    simpl in *. destruct (Nat.eqb (b_id c) b) eqn:F; simpl; rewrite F; [congruence|auto].
Qed.

(** Starting a transaction.  The caller gets a slot with a reservation of
    [min(available, ideal)] blocks, at least the minimum it asked for, exactly
    when no commit is running, the minimum is available and a slot is free;
    otherwise it sleeps and nothing is reserved. *)
Theorem log_begin_reserves s pid mn ideal :
  proto_ok s -> default 0 (l_depth s !! pid) = 0 -> 0 < pid -> 0 <= mn <= ideal ->
  if bool_decide (lg_committing (l_log s) = 0 /\ mn <= available_blocks (l_log s) /\
                  0 ∈ clients (l_log s))
  then exists i s', log_begin_fs_transaction_explicit pid mn ideal s = Ret (i, s') /\
    proto_ok s' /\ log_client_from_pid (l_log s') pid = i /\ l_bio s' = l_bio s /\
    log_get_client_available_blocks (l_log s') i =
      Ret (Z.min (available_blocks (l_log s)) ideal) /\
    mn <= Z.min (available_blocks (l_log s)) ideal /\
    lg_outstanding (l_log s') = lg_outstanding (l_log s) + 1
  else log_begin_fs_transaction_explicit pid mn ideal s = Blocked.
Proof.
  intros Hpr Hd Hp Hmn. pose proof (pr_log _ Hpr) as Hok.
  rewrite log_begin_run by (done || lia). cbv zeta.
  destruct (find_client_0 0 (clients (l_log s))) as [[F Hni]|(j & F & Hj & Hlt)]; rewrite F.
  { rewrite andb_false_r. case_bool_decide; [tauto|done]. }
  rewrite (proj2 (Z.eqb_neq (Z.of_nat j) (-1))) by lia. rewrite andb_true_r.
  case_bool_decide as Hc; cycle 1.
  { zcase; [|done]. destruct Hc. split_and!; [lia|lia|by eapply list_elem_of_lookup_2]. }
  destruct Hc as (Hc & Ha & _). rewrite Hc, (proj2 (Z.leb_le _ _) Ha). simpl.
  set (n := Z.min _ _). rewrite Nat2Z.id. pose proof (ok_size _ Hok).
  assert (0 <= n <= available_blocks (l_log s)) as Hnr by lia.
  assert (proto_ok (mk_lfs (set_outstanding (lg_outstanding (l_log s) + 1)
            (claim_slot j pid n (l_log s))) (l_bio s) (<[pid:=1]> (l_depth s)))) as Hpr'.
  { apply begin_proto_ok; done || lia. }
  assert (0 <= n < 2 ^ 31) as Hnb.
  { pose proof (ok_old _ Hok). unfold available_blocks in Hnr.
    pose proof (reserved_nonneg _ Hok). lia. }
  eexists _, _. split; [done|]. split; [exact Hpr'|]. split.
  { apply (client_of _ j pid (pr_log _ Hpr')); [|lia]. by apply list_lookup_insert_eq. }
  split; [done|]. split; [|split; [lia|done]].
  unfold log_get_client_available_blocks. simpl. rewrite Nat2Z.id.
  rewrite !list_lookup_insert_eq by (rewrite ?(ok_lused _ Hok), ?(ok_lreserved _ Hok);
    rewrite (ok_clients _ Hok) in Hlt; done).
  unfold mbind, res_bind, mret, res_ret, load. rewrite Z.sub_0_r.
  rewrite !(swrap_id 32 n) by (unfold is_s; lia). by rewrite uwrap_id by (unfold is_u; lia).
Qed.

(** *** Witnesses: a log of 12 blocks at block 2 of device 1 *)

Definition unmounted : lfs := mk_lfs (mk_log 0 0 0 0 0 0 [] [] [] [] 0) booted ∅.
Definition mounted : lfs := ran (log_init (Z.eqb 1) false 1 (mk_log_sb 12 2)) unmounted.
Definition in_transaction : lfs := ran (log_begin_fs_transaction 5) mounted.
Definition with_buffer : lfs := ran (on_bio (bio_read (Z.eqb 1) 1 40)) in_transaction.

Lemma mounted_ok : log_init (Z.eqb 1) false 1 (mk_log_sb 12 2) unmounted = Ret (0, mounted).
Proof. vm_compute. reflexivity. Qed.

Lemma with_buffer_reached : rtc (log_step (Z.eqb 1)) mounted with_buffer.
Proof.
  eapply rtc_l.
  { apply (step_begin _ 5 10 10 0 mounted in_transaction); [lia..|]. vm_compute. reflexivity. }
  eapply rtc_l; [|apply rtc_refl].
  replace with_buffer with (mk_lfs (l_log in_transaction) (l_bio with_buffer) (l_depth in_transaction)).
  - apply step_cache.
  - vm_compute. reflexivity.
Qed.

Definition buffer_40 : buf :=
  match by_key (1, 40) (buf_list (l_bio with_buffer)) with
  | Some b => b
  | None => mk_buf 0 false false 0 0 false 0 []
  end.

Lemma with_buffer_facts :
  clients (l_log with_buffer) !! 0%nat = Some 5 /\
  blocks_used (l_log with_buffer) !! 0%nat = Some 0 /\
  blocks_reserved (l_log with_buffer) !! 0%nat = Some 10 /\
  find_buf (b_id buffer_40) (buf_list (l_bio with_buffer)) = Some buffer_40.
Proof. vm_compute. auto. Qed.

Lemma mounted_proto_ok : proto_ok mounted.
Proof.
  apply (log_init_ok (Z.eqb 1) 1 (mk_log_sb 12 2) unmounted); [apply mounted_ok|simpl; lia|done].
Qed.

Lemma mounted_ready :
  lg_committing (l_log mounted) = 0 /\ 10 <= available_blocks (l_log mounted) /\
  0 ∈ clients (l_log mounted).
Proof.
  split; [vm_compute; reflexivity|]. split; [vm_compute; discriminate|].
  apply list_elem_of_lookup. exists 0%nat. vm_compute. reflexivity.
Qed.

Lemma mounted_depth : default 0 (l_depth mounted !! 5) = 0.
Proof. vm_compute. reflexivity. Qed.

Lemma log_write_within_reservation_witness :
  exists s', log_write 5 (b_id buffer_40) with_buffer = Ret (tt, s') /\ proto_ok s'.
Proof.
  destruct with_buffer_facts as (H1 & H2 & H3 & H4).
  assert (0 <= sb_nlog (mk_log_sb 12 2) < 2 ^ 31) as Hn by (simpl; lia).
  destruct (log_write_within_reservation (Z.eqb 1) 1 (mk_log_sb 12 2) unmounted mounted
    with_buffer 0 5 0 10 (b_id buffer_40) buffer_40 mounted_ok Hn eq_refl with_buffer_reached
    ltac:(lia) H1 H2 H3 ltac:(lia) H4) as (s' & E & Hp & _).
  exists s'. exact (conj E Hp).
Defined.

Lemma log_begin_reserves_witness :
  exists i s', log_begin_fs_transaction_explicit 5 10 10 mounted = Ret (i, s') /\ proto_ok s'.
Proof.
  pose proof (log_begin_reserves mounted 5 10 10 mounted_proto_ok mounted_depth
    ltac:(lia) ltac:(lia)) as H.
  rewrite (bool_decide_true _ mounted_ready) in H.
  destruct H as (i & s' & H1 & H2 & _). exists i, s'. exact (conj H1 H2).
Defined.
