(* ===== verification/LogCommit.v ===== *)
(** * Commit, crash and recovery of the log (kernel/fs/vimixfs/log.c)

    The effect of [write_log], [write_head], [install_trans], [commit] and
    [recover_from_log] on the cache and on the sequence of device writes.  A
    crash leaves the effect of a prefix of the writes; the theorems state that
    recovery from every such state yields the state before the transaction or
    the state after it. *)
From S2P Require Import Prelude Bytes Bio Log.

(** ** Blocks that a sequence of operations works on *)

Record outside (s s' : bio) (ks : list (Z * Z)) : Prop := {
  os_refs k : good k -> k ∉ ks -> refs s' k = refs s k;
  os_lockd k : good k -> k ∉ ks -> lockd s' k = lockd s k;
  os_view k : good k -> k ∉ ks -> view s' k = view s k
}.

(** [id] is the buffer of [k], with [r] references, locked or not, with the
    content [v], read from the device or not. *)
Record at_buf (s : bio) (id : nat) (k : Z * Z) (r : Z) (l : bool) (v : block) (vl : bool)
    : Prop := {
  ab_holds : holds s id k;
  ab_refs : refs s k = r;
  ab_lockd : lockd s k = l;
  ab_view : view s k = v;
  ab_vald : vald s k = vl
}.

Lemma outside_step s s' k ks : step_at s s' k -> k ∈ ks -> outside s s' ks.
Proof.
  intros H Hk. constructor; intros k' Hg Hn.
  - apply (sa_refs _ _ _ H); [done|]. intros ->. done.
  - apply (sa_lockd _ _ _ H); [done|]. intros ->. done.
  - apply (sa_view _ _ _ H); [done|]. intros ->. done.
Qed.

Lemma outside_trans s1 s2 s3 ks : outside s1 s2 ks -> outside s2 s3 ks -> outside s1 s3 ks.
Proof.
  intros [A1 A2 A3] [B1 B2 B3]. constructor; intros k Hg Hn.
  - by rewrite B1, A1.
  - by rewrite B2, A2.
  - by rewrite B3, A3.
Qed.

Lemma at_buf_frame s s' k id k' r l v vl :
  step_at s s' k -> good k' -> k' <> k -> r <> 0 ->
  at_buf s id k' r l v vl -> at_buf s' id k' r l v vl.
Proof.
  intros H Hg Hn Hr [A1 A2 A3 A4 A5].
  pose proof (sa_refs _ _ _ H k' Hg Hn) as E. constructor.
  - apply (sa_holds _ _ _ H); [done|congruence..|done].
  - congruence.
  - by rewrite (sa_lockd _ _ _ H).
  - by rewrite (sa_view _ _ _ H).
  - rewrite (sa_vald _ _ _ H); [done..|congruence].
Qed.

(** An unused block has no cached copy that differs from the device. *)
Lemma view_unused s k :
  bio_inv s -> bio_clean s -> good k -> refs s k = 0 -> view s k = disk_block (disk s) k.
Proof.
  intros Hi Hc Hg Hr. unfold refs, view in *.
  destruct (by_key k (buf_list s)) as [b|] eqn:E; [|done].
  apply by_key_Some in E as [Hin Hk]; [|apply Hi|done].
  destruct (b_valid b) eqn:Hv; [|done]. unfold bio_clean in Hc. rewrite Forall_forall in Hc.
  rewrite <- Hk. by apply Hc.
Qed.

(** ** The operations on a held buffer *)

Section Ops.
Context (devs : Z -> bool) (k : Z * Z) (Hg : good k).

Lemma ab_read s :
  bio_inv s -> bio_clean s -> devs (fst k) = true ->
  lockd s k = false -> refs s k < 2 ^ 32 - 1 -> (refs s k <> 0 \/ 0 < spare s) ->
  exists id s', bio_read devs (fst k) (snd k) s = Ret (id, s') /\ step_at s s' k /\
    bio_clean s' /\ at_buf s' id k (refs s k + 1) true (view s k) true /\
    disk s' = disk s /\ writes s' = writes s /\
    spare s' = spare s - (if refs s k =? 0 then 1 else 0).
Proof.
  destruct k as [d n]. simpl. intros Hi Hc Hd Hl Hr Hs.
  destruct (bio_read_run devs s d n) as (id & s' & E & [] & Hv); try done.
  exists id, s'. split_and!; try done.
Qed.

Lemma ab_get s :
  bio_inv s -> bio_clean s ->
  lockd s k = false -> refs s k < 2 ^ 32 - 1 -> (refs s k <> 0 \/ 0 < spare s) ->
  exists id s' vl, bio_get_from_cache (fst k) (snd k) s = Ret (id, s') /\ step_at s s' k /\
    bio_clean s' /\ at_buf s' id k (refs s k + 1) true (view s k) vl /\
    disk s' = disk s /\ writes s' = writes s /\
    spare s' = spare s - (if refs s k =? 0 then 1 else 0).
Proof.
  destruct k as [d n]. simpl. intros Hi Hc Hl Hr Hs.
  destruct (bio_get_from_cache_spec s d n) as (id & s' & E & []); try done.
  exists id, s', (vald s' (d, n)). split_and!; try done.
Qed.

Lemma ab_set_valid s id r l v vl :
  bio_inv s -> bio_clean s -> r <> 0 -> at_buf s id k r l v vl ->
  exists s' v', modify_buf id (set_valid true) s = Ret (tt, s') /\ step_at s s' k /\
    bio_clean s' /\ at_buf s' id k r l v' true /\
    disk s' = disk s /\ writes s' = writes s /\ spare s' = spare s.
Proof.
  intros Hi Hc Hr [A1 A2 A3 A4 A5].
  destruct (set_valid_spec s id k) as (s' & E & [] & H1 & H2); try done; [congruence|].
  exists s', (view s' k). split_and!; try done. constructor; congruence.
Qed.

Lemma ab_set_data s id r l v d :
  bio_inv s -> bio_clean s -> r <> 0 -> at_buf s id k r l v true ->
  exists s', modify_buf id (set_data d) s = Ret (tt, s') /\ step_at s s' k /\
    bio_clean s' /\ at_buf s' id k r l d true /\
    disk s' = disk s /\ writes s' = writes s /\ spare s' = spare s.
Proof.
  intros Hi Hc Hr [A1 A2 A3 A4 A5].
  destruct (set_data_spec s id k d) as (s' & E & [] & H1 & H2 & H3); try done; [congruence|].
  exists s'. split_and!; try done. constructor; congruence.
Qed.

Lemma ab_deref s id r l v :
  bio_inv s -> at_buf s id k r l v true ->
  exists b, deref id s = Ret (b, s) /\ b_data b = v.
Proof.
  intros Hi [A1 A2 A3 A4 A5].
  destruct (holds_by_key s id k Hi Hg A1) as (b & Hbk & _ & _ & _ & Hf).
  exists b. unfold deref. rewrite Hf. split; [done|].
  unfold view, vald in *. rewrite Hbk in *. by rewrite A5 in A4.
Qed.

Lemma ab_write s id r l v :
  bio_inv s -> bio_clean s -> r <> 0 -> devs (fst k) = true -> at_buf s id k r l v true ->
  exists s', bio_write devs id s = Ret (tt, s') /\ step_at s s' k /\
    bio_clean s' /\ at_buf s' id k r l v true /\
    disk s' = <[k := v]> (disk s) /\ writes s' = writes s ++ [(k, v)] /\ spare s' = spare s.
Proof.
  intros Hi Hc Hr Hd [A1 A2 A3 A4 A5].
  destruct (bio_write_spec devs s id k)
    as (s' & E & Hst & Hc' & Hh & H1 & H2 & H3 & H4 & H5 & H6 & H7); try done; [congruence|].
  rewrite A4 in *. exists s'. split_and!; try done. constructor; congruence.
Qed.

Lemma ab_put s id r l v :
  bio_inv s -> bio_clean s -> 2 <= r -> at_buf s id k r l v true ->
  exists s', bio_put id s = Ret (tt, s') /\ step_at s s' k /\
    bio_clean s' /\ at_buf s' id k (r - 1) l v true /\
    disk s' = disk s /\ writes s' = writes s /\ spare s' = spare s.
Proof.
  intros Hi Hc Hr [A1 A2 A3 A4 A5].
  destruct (bio_put_spec s id k) as (s' & E & [] & H1 & H2 & H3); try done; [congruence|].
  exists s'. split_and!; try done. constructor; congruence.
Qed.

Lemma ab_release s id r l v vl :
  bio_inv s -> bio_clean s -> r <> 0 -> at_buf s id k r l v vl ->
  (r = 1 -> v = disk_block (disk s) k) ->
  exists s', bio_release id s = Ret (tt, s') /\ step_at s s' k /\
    bio_clean s' /\ refs s' k = r - 1 /\ lockd s' k = false /\ view s' k = v /\
    disk s' = disk s /\ writes s' = writes s /\
    spare s' = spare s + (if r =? 1 then 1 else 0).
Proof.
  intros Hi Hc Hr [A1 A2 A3 A4 A5] Hv.
  destruct (bio_release_spec s id k) as (s' & E & []); try done; [congruence| |].
  { intros. rewrite A4. apply Hv. congruence. }
  rewrite A2 in *. rewrite A4 in *. exists s'. by split_and!.
Qed.
End Ops.

(** ** Copying one block *)

(** The block [ks] was copied to [kd] and written; [d] references to [kd] were
    dropped. *)
Record copied (s s' : bio) (ks kd : Z * Z) (d : Z) : Prop := {
  cp_inv : bio_inv s';
  cp_clean : bio_clean s';
  cp_refs k : good k -> refs s' k = refs s k - (if decide (k = kd) then d else 0);
  cp_lockd k : good k -> lockd s' k = lockd s k;
  cp_view k : good k -> view s' k = if decide (k = kd) then view s ks else view s k;
  cp_disk : disk s' = <[kd := view s ks]> (disk s);
  cp_writes : writes s' = writes s ++ [(kd, view s ks)];
  cp_spare : spare s <= spare s'
}.

(** The common end of the loop bodies of [write_log] and [install_trans]. *)
Definition copy_tail (devs : Z -> bool) (recovering : bool) (src dst : nat) : ST bio unit :=
  lb ← deref src;
  modify_buf dst (set_data (b_data lb));;
  bio_write devs dst;;
  (if recovering then mret tt else bio_put dst);;
  bio_release src;;
  bio_release dst.

Section Copy.
Context (devs : Z -> bool) (ks kd : Z * Z).
Context (Hgs : good ks) (Hgd : good kd) (Hne : ks <> kd) (Hdev : devs (fst kd) = true).

Lemma copy_tail_run (recovering : bool) s src dst rs rd v w :
  let d := if recovering then 0 else 1 in
  bio_inv s -> bio_clean s ->
  at_buf s src ks rs true v true -> at_buf s dst kd rd true w true ->
  1 <= rs -> 1 + d <= rd -> (rs = 1 -> v = disk_block (disk s) ks) ->
  exists s', copy_tail devs recovering src dst s = Ret (tt, s') /\
    bio_inv s' /\ bio_clean s' /\ outside s s' [ks; kd] /\
    refs s' ks = rs - 1 /\ lockd s' ks = false /\ view s' ks = v /\
    refs s' kd = rd - 1 - d /\ lockd s' kd = false /\ view s' kd = v /\
    disk s' = <[kd := v]> (disk s) /\ writes s' = writes s ++ [(kd, v)] /\
    spare s' = spare s + (if rs =? 1 then 1 else 0) + (if rd - d =? 1 then 1 else 0).
Proof.
  intros d Hi Hc As Ad Hrs Hrd Hv. unfold copy_tail.
  assert (0 <= d) by (subst d; destruct recovering; lia).
  destruct (ab_deref ks Hgs s src rs true v Hi As) as (b & E0 & Eb).
  rewrite (bind_run _ _ _ _ _ E0), Eb.
  destruct (ab_set_data kd Hgd s dst rd true w v) as (s1 & E1 & S1 & C1 & A1 & D1 & W1 & P1);
    [done|done|lia|done|]. rewrite (bind_run _ _ _ _ _ E1).
  pose proof (at_buf_frame _ _ _ src ks rs true v true S1 Hgs Hne ltac:(lia) As) as As1.
  destruct (ab_write devs kd Hgd s1 dst rd true v) as (s2 & E2 & S2 & C2 & A2 & D2 & W2 & P2);
    [apply S1|done|lia|done|done|]. rewrite (bind_run _ _ _ _ _ E2).
  pose proof (at_buf_frame _ _ _ src ks rs true v true S2 Hgs Hne ltac:(lia) As1) as As2.
  assert (exists s3, (if recovering then mret tt else bio_put dst) s2 = Ret (tt, s3) /\
            bio_inv s3 /\ outside s2 s3 [ks; kd] /\ at_buf s3 src ks rs true v true /\
            bio_clean s3 /\ at_buf s3 dst kd (rd - d) true v true /\
            disk s3 = disk s2 /\ writes s3 = writes s2 /\ spare s3 = spare s2)
    as (s3 & E3 & I3 & O3 & As3 & C3 & A3 & D3 & W3 & P3).
  { subst d. destruct recovering.
    - exists s2. rewrite Z.sub_0_r. split_and!; try done. apply S2.
    - destruct (ab_put kd Hgd s2 dst rd true v) as (s3 & E3 & S3 & C3 & A3 & D3 & W3 & P3);
        [apply S2|done|lia|done|]. exists s3. split_and!; try done; [apply S3| |].
      + eapply outside_step; [done|set_solver].
      + eapply at_buf_frame; try done. lia. }
  rewrite (bind_run _ _ _ _ _ E3).
  destruct (ab_release ks Hgs s3 src rs true v true)
    as (s4 & E4 & S4 & C4 & R4 & L4 & V4 & D4 & W4 & P4); [done|done|lia|done| |].
  { intros Hr1. rewrite D3, D2, disk_block_insert, decide_False by done. rewrite D1. auto. }
  rewrite (bind_run _ _ _ _ _ E4).
  pose proof (at_buf_frame _ _ _ dst kd (rd - d) true v true S4 Hgd (not_eq_sym Hne)
    ltac:(lia) A3) as A4.
  destruct (ab_release kd Hgd s4 dst (rd - d) true v true)
    as (s5 & E5 & S5 & C5 & R5 & L5 & V5 & D5 & W5 & P5); [apply S4|done|lia|done| |].
  { intros _. by rewrite D4, D3, D2, disk_block_insert, decide_True. }
  exists s5. split; [done|]. split; [apply S5|]. split; [done|]. split.
  { eapply outside_trans; [eapply (outside_step _ _ kd); [exact S1|set_solver]|].
    eapply outside_trans; [eapply (outside_step _ _ kd); [exact S2|set_solver]|].
    eapply outside_trans; [exact O3|].
    eapply outside_trans; [eapply (outside_step _ _ ks); [exact S4|set_solver]|].
    eapply (outside_step _ _ kd); [exact S5|set_solver]. }
  rewrite (sa_refs _ _ _ S5), (sa_lockd _ _ _ S5), (sa_view _ _ _ S5) by done.
  split_and!; try done; try congruence; try lia.
Qed.

Lemma copied_of s0 s s' rs rd (recovering : bool) v :
  let d := if recovering then 0 else 1 in
  bio_inv s' -> bio_clean s' -> outside s0 s [ks; kd] -> outside s s' [ks; kd] ->
  rs = refs s0 ks + 1 -> rd = refs s0 kd + 1 -> v = view s0 ks ->
  lockd s0 ks = false -> lockd s0 kd = false ->
  refs s' ks = rs - 1 -> lockd s' ks = false -> view s' ks = v ->
  refs s' kd = rd - 1 - d -> lockd s' kd = false -> view s' kd = v ->
  disk s' = <[kd := v]> (disk s0) -> writes s' = writes s0 ++ [(kd, v)] ->
  spare s0 <= spare s' -> copied s0 s' ks kd d.
Proof.
  intros d Hi Hc O1 O2 -> -> -> L1 L2 R1 L3 V1 R2 L4 V2 D W P.
  pose proof (outside_trans _ _ _ _ O1 O2) as O.
  assert (forall k, k <> ks -> k <> kd -> k ∉ [ks; kd]) as Hno.
  { intros k N1 N2 [->|[->|[]%not_elem_of_nil]%elem_of_cons]%elem_of_cons; done. }
  constructor; try done; intros k Hk;
    (destruct (decide (k = kd)) as [->|Hkd]; [|destruct (decide (k = ks)) as [->|Hks]]);
    try congruence; try lia.
  - rewrite (os_refs _ _ _ O) by auto. lia.
  - by rewrite (os_lockd _ _ _ O) by auto.
  - by rewrite (os_view _ _ _ O) by auto.
Qed.

(** Loop body of [write_log]: the log block is taken first. *)
Lemma copy_to_log_run s :
  bio_inv s -> bio_clean s -> devs (fst ks) = true ->
  lockd s ks = false -> lockd s kd = false ->
  refs s ks < 2 ^ 32 - 1 -> refs s kd < 2 ^ 32 - 1 -> 2 <= spare s ->
  exists s',
    (to ← bio_get_from_cache (fst kd) (snd kd);
     modify_buf to (set_valid true);;
     from ← bio_read devs (fst ks) (snd ks);
     copy_tail devs true from to) s = Ret (tt, s') /\ copied s s' ks kd 0.
Proof.
  intros Hi Hc Hds Ls Ld Rs Rd Hsp.
  pose proof (refs_range s ks Hi Hgs) as [Rs0 _]. pose proof (refs_range s kd Hi Hgd) as [Rd0 _].
  destruct (ab_get kd Hgd s) as (dst & s1 & vl & E1 & S1 & C1 & A1 & D1 & W1 & P1);
    [done..|right; lia|]. rewrite (bind_run _ _ _ _ _ E1).
  destruct (ab_set_valid kd Hgd s1 dst (refs s kd + 1) true (view s kd) vl)
    as (s2 & w & E2 & S2 & C2 & A2 & D2 & W2 & P2); [apply S1|done|lia|done|].
  rewrite (bind_run _ _ _ _ _ E2).
  assert (refs s2 ks = refs s ks /\ lockd s2 ks = false /\ view s2 ks = view s ks) as (F1 & F2 & F3).
  { rewrite (sa_refs _ _ _ S2), (sa_lockd _ _ _ S2), (sa_view _ _ _ S2) by done.
    by rewrite (sa_refs _ _ _ S1), (sa_lockd _ _ _ S1), (sa_view _ _ _ S1) by done. }
  destruct (ab_read devs ks Hgs s2) as (src & s3 & E3 & S3 & C3 & A3 & D3 & W3 & P3);
    [apply S2|done|done|done|lia| |].
  { right. rewrite P2, P1. zcase; lia. }
  rewrite (bind_run _ _ _ _ _ E3). rewrite F1, F3 in *.
  pose proof (at_buf_frame _ _ _ dst kd (refs s kd + 1) true w true S3 Hgd (not_eq_sym Hne) ltac:(lia) A2) as A2'.
  destruct (copy_tail_run true s3 src dst (refs s ks + 1) (refs s kd + 1) (view s ks) w)
    as (s4 & E4 & I4 & C4 & O4 & H1 & H2 & H3 & H4 & H5 & H6 & H7 & H8 & H9);
    [apply S3|done|done|done|lia|lia| |].
  { intros Hr. rewrite D3, D2, D1. apply view_unused; done || lia. }
  exists s4. split; [done|]. apply (copied_of s s3 s4 (refs s ks + 1) (refs s kd + 1) true (view s ks)); try done.
  - eapply outside_trans; [eapply (outside_step _ _ kd); [exact S1|set_solver]|].
    eapply outside_trans; [eapply (outside_step _ _ kd); [exact S2|set_solver]|].
    eapply (outside_step _ _ ks); [exact S3|set_solver].
  - by rewrite H7, D3, D2, D1.
  - by rewrite H8, W3, W2, W1.
  - rewrite H9, P3, P2, P1. cbn iota. rewrite Z.sub_0_r.
    destruct (Z.eqb_spec (refs s ks + 1) 1), (Z.eqb_spec (refs s kd + 1) 1),
      (Z.eqb_spec (refs s ks) 0), (Z.eqb_spec (refs s kd) 0); lia.
Qed.

(** Loop body of [install_trans]: the log block is read first. *)
Lemma copy_home_run (recovering : bool) s :
  bio_inv s -> bio_clean s -> devs (fst ks) = true ->
  lockd s ks = false -> lockd s kd = false ->
  refs s ks < 2 ^ 32 - 1 -> refs s kd < 2 ^ 32 - 1 -> 2 <= spare s ->
  (recovering = false -> 1 <= refs s kd) ->
  exists s',
    (lbuf ← bio_read devs (fst ks) (snd ks);
     dbuf ← bio_get_from_cache (fst kd) (snd kd);
     modify_buf dbuf (set_valid true);;
     copy_tail devs recovering lbuf dbuf) s = Ret (tt, s') /\
    copied s s' ks kd (if recovering then 0 else 1).
Proof.
  intros Hi Hc Hds Ls Ld Rs Rd Hsp Hpin.
  pose proof (refs_range s ks Hi Hgs) as [Rs0 _]. pose proof (refs_range s kd Hi Hgd) as [Rd0 _].
  destruct (ab_read devs ks Hgs s) as (src & s1 & E1 & S1 & C1 & A1 & D1 & W1 & P1);
    [done..|right; lia|]. rewrite (bind_run _ _ _ _ _ E1).
  assert (refs s1 kd = refs s kd /\ lockd s1 kd = false) as (F1 & F2).
  { by rewrite (sa_refs _ _ _ S1), (sa_lockd _ _ _ S1) by done. }
  destruct (ab_get kd Hgd s1) as (dst & s2 & vl & E2 & S2 & C2 & A2 & D2 & W2 & P2);
    [apply S1|done|done|lia| |].
  { right. rewrite P1. zcase; lia. }
  rewrite (bind_run _ _ _ _ _ E2). rewrite F1 in *.
  destruct (ab_set_valid kd Hgd s2 dst (refs s kd + 1) true (view s1 kd) vl)
    as (s3 & w & E3 & S3 & C3 & A3 & D3 & W3 & P3); [apply S2|done|lia|done|].
  rewrite (bind_run _ _ _ _ _ E3).
  pose proof (at_buf_frame _ _ _ src ks (refs s ks + 1) true (view s ks) true S2 Hgs Hne ltac:(lia) A1) as A1'.
  pose proof (at_buf_frame _ _ _ src ks (refs s ks + 1) true (view s ks) true S3 Hgs Hne ltac:(lia) A1') as A1''.
  destruct (copy_tail_run recovering s3 src dst (refs s ks + 1) (refs s kd + 1) (view s ks) w)
    as (s4 & E4 & I4 & C4 & O4 & H1 & H2 & H3 & H4 & H5 & H6 & H7 & H8 & H9);
    [apply S3|done|done|done|lia|destruct recovering; [lia|specialize (Hpin eq_refl); lia]| |].
  { intros Hr. rewrite D3, D2, D1. apply view_unused; done || lia. }
  exists s4. split; [done|]. apply (copied_of s s3 s4 (refs s ks + 1) (refs s kd + 1) recovering (view s ks)); try done.
  - eapply outside_trans; [eapply (outside_step _ _ ks); [exact S1|set_solver]|].
    eapply outside_trans; [eapply (outside_step _ _ kd); [exact S2|set_solver]|].
    eapply (outside_step _ _ kd); [exact S3|set_solver].
  - by rewrite H7, D3, D2, D1.
  - by rewrite H8, W3, W2, W1.
  - rewrite H9, P3, P2, P1.
    destruct (Z.eqb_spec (refs s ks + 1) 1), (Z.eqb_spec (refs s ks) 0),
      (Z.eqb_spec (refs s kd) 0), recovering; try (specialize (Hpin eq_refl));
      cbn iota; zcase; lia.
Qed.
End Copy.

(** ** Sequences of writes *)

(** The blocks [v] after the writes [ws]. *)
Fixpoint over (v : Z * Z -> block) (ws : list ((Z * Z) * block)) (k : Z * Z) : block :=
  match ws with
  | [] => v k
  | (k', x) :: ws => over (fun k => if decide (k = k') then x else v k) ws k
  end.

(** The device after the writes [ws]. *)
Definition apply_writes (d : gmap (Z * Z) block) (ws : list ((Z * Z) * block))
    : gmap (Z * Z) block :=
  foldl (fun d w => <[fst w := snd w]> d) d ws.

Lemma over_ext v v' ws k : (forall k, v k = v' k) -> over v ws k = over v' ws k.
Proof.
  revert v v'. induction ws as [|[k' x] ws IH]; intros v v' H; simpl; [done|].
  apply IH. intros k2. by destruct (decide _).
Qed.

Lemma over_app v ws1 ws2 k : over v (ws1 ++ ws2) k = over (over v ws1) ws2 k.
Proof.
  revert v. induction ws1 as [|[k' x] ws1 IH]; intros v; simpl; [done|]. by rewrite IH.
Qed.

Lemma over_notin v ws k : k ∉ map fst ws -> over v ws k = v k.
Proof.
  revert v. induction ws as [|[k' x] ws IH]; intros v H; simpl in *; [done|].
  apply not_elem_of_cons in H as [Hne H]. rewrite IH by done. by rewrite decide_False.
Qed.

(** When all writes to a block write the same content. *)
Lemma over_const v ws f k :
  (forall k x, (k, x) ∈ ws -> x = f k) ->
  over v ws k = if decide (k ∈ map fst ws) then f k else v k.
Proof.
  revert v. induction ws as [|[k' x] ws IH]; intros v H; cbn [over map fst].
  { rewrite decide_False; [done|]. apply not_elem_of_nil. }
  rewrite IH by (intros; apply H; by apply elem_of_cons; right).
  destruct (decide (k ∈ map fst ws)) as [Hin|Hni].
  - rewrite decide_True; [done|]. by apply elem_of_cons; right.
  - destruct (decide (k = k')) as [->|Hne].
    + rewrite decide_True by (by apply elem_of_cons; left). apply H. by apply elem_of_cons; left.
    + rewrite decide_False; [done|]. intros [|]%elem_of_cons; done.
Qed.

Lemma disk_apply_writes d ws k : disk_block (apply_writes d ws) k = over (disk_block d) ws k.
Proof.
  unfold apply_writes. revert d. induction ws as [|[k' x] ws IH]; intros d; simpl; [done|].
  rewrite IH. apply over_ext. intros k2. rewrite disk_block_insert.
  destruct (decide (k' = k2)), (decide (k2 = k')); congruence.
Qed.

Lemma apply_writes_app d ws1 ws2 :
  apply_writes d (ws1 ++ ws2) = apply_writes (apply_writes d ws1) ws2.
Proof. apply foldl_app. Qed.

Definition times (k : Z * Z) (ks : list (Z * Z)) : Z :=
  Z.of_nat (length (filter (fun k' => k' = k) ks)).

Lemma times_app k l1 l2 : times k (l1 ++ l2) = times k l1 + times k l2.
Proof. unfold times. rewrite filter_app, length_app. lia. Qed.

Lemma times_cons k k' l : times k (k' :: l) = (if decide (k' = k) then 1 else 0) + times k l.
Proof. unfold times. rewrite filter_cons. case_decide; simpl; lia. Qed.

Lemma times_nodup k l : NoDup l -> times k l = if decide (k ∈ l) then 1 else 0.
Proof.
  induction 1 as [|x l Hx Hnd IH].
  - rewrite decide_False by apply not_elem_of_nil. done.
  - rewrite times_cons, IH. destruct (decide (x = k)) as [->|Hne].
    + rewrite decide_False by done. rewrite decide_True by (by apply elem_of_cons; left). done.
    + destruct (decide (k ∈ l)) as [Hin|Hni].
      * rewrite decide_True by (by apply elem_of_cons; right). done.
      * rewrite decide_False; [done|]. intros [->|]%elem_of_cons; done.
Qed.

(** From [s] to [s'] the blocks of [ws] were written, in the cache and on the
    device, and a reference to each block of [ks] was dropped. *)
Record effect (s s' : bio) (ws : list ((Z * Z) * block)) (ks : list (Z * Z)) : Prop := {
  ef_inv : bio_inv s';
  ef_clean : bio_clean s';
  ef_refs k : good k -> refs s' k = refs s k - times k ks;
  ef_lockd k : good k -> lockd s' k = lockd s k;
  ef_view k : good k -> view s' k = over (view s) ws k;
  ef_disk : disk s' = apply_writes (disk s) ws;
  ef_writes : writes s' = writes s ++ ws;
  ef_spare : spare s <= spare s'
}.

Lemma over_ext_good v v' ws k :
  (forall k, good k -> v k = v' k) -> good k -> over v ws k = over v' ws k.
Proof.
  revert v v'. induction ws as [|[k' x] ws IH]; intros v v' H Hk; simpl; [auto|].
  apply IH; [|done]. intros k2 Hk2. destruct (decide _); auto.
Qed.

Lemma effect_refl s : bio_inv s -> bio_clean s -> effect s s [] [].
Proof.
  intros Hi Hc. constructor; try done.
  - intros k Hk. change (times k []) with 0. lia.
  - by rewrite app_nil_r.
Qed.

Lemma effect_trans s1 s2 s3 w1 w2 k1 k2 :
  effect s1 s2 w1 k1 -> effect s2 s3 w2 k2 -> effect s1 s3 (w1 ++ w2) (k1 ++ k2).
Proof.
  intros [] []. constructor; try done.
  - intros k Hk. rewrite times_app, ef_refs1, ef_refs0 by done. lia.
  - intros k Hk. by rewrite ef_lockd1, ef_lockd0 by done.
  - intros k Hk. rewrite ef_view1, over_app by done. by apply over_ext_good.
  - by rewrite ef_disk1, ef_disk0, apply_writes_app.
  - by rewrite ef_writes1, ef_writes0, app_assoc.
  - lia.
Qed.

Lemma effect_copied s s' ks kd (recovering : bool) :
  copied s s' ks kd (if recovering then 0 else 1) ->
  effect s s' [(kd, view s ks)] (if recovering then [] else [kd]).
Proof.
  intros []. constructor; try done.
  intros k Hk. rewrite cp_refs0 by done. unfold times.
  destruct recovering; simpl; [by destruct (decide _)|].
  rewrite filter_cons, filter_nil.
  destruct (decide (k = kd)), (decide (kd = k)); simpl; congruence || lia.
Qed.

(** ** The loops *)

(** No buffer of the device is locked and two more buffers can be taken. *)
Record calm (dev : Z) (b : bio) : Prop := {
  cl_inv : bio_inv b;
  cl_clean : bio_clean b;
  cl_spare : 2 <= spare b;
  cl_lockd n : lockd b (dev, n) = false;
  cl_refs n : refs b (dev, n) < 2 ^ 32 - 1
}.

(** Blocks [hs] are the home blocks of a log of device [lg_dev]; they are not
    in the part of the log area that the transaction uses. *)
Record geometry (devs : Z -> bool) (l : log) (hs : list Z) : Prop := {
  ge_dev : lg_dev l <> 0;
  ge_devs : devs (lg_dev l) = true;
  ge_start : 0 <= lg_start l;
  ge_end : lg_start l + Z.of_nat (length hs) + 1 <= 2 ^ 32;
  ge_homes h : h ∈ hs -> ~ (lg_start l <= h <= lg_start l + Z.of_nat (length hs))
}.

Lemma calm_effect dev b b' ws ks : dev <> 0 -> calm dev b -> effect b b' ws ks -> calm dev b'.
Proof.
  intros Hd [] []. constructor; try done.
  - lia.
  - intros n. by rewrite ef_lockd0.
  - intros n. rewrite ef_refs0 by done. specialize (cl_refs0 n). unfold times. lia.
Qed.

(** Writes of [write_log] for the blocks [hs] from slot [t] on, with the
    contents [v]; writes of [install_trans]. *)
Fixpoint slot_writes (l : log) (t : Z) (v : Z * Z -> block) (hs : list Z)
    : list ((Z * Z) * block) :=
  match hs with
  | [] => []
  | h :: hs => ((lg_dev l, log_slot l t), v (lg_dev l, h)) :: slot_writes l (t + 1) v hs
  end.

Fixpoint home_writes (l : log) (t : Z) (v : Z * Z -> block) (hs : list Z)
    : list ((Z * Z) * block) :=
  match hs with
  | [] => []
  | h :: hs => ((lg_dev l, h), v (lg_dev l, log_slot l t)) :: home_writes l (t + 1) v hs
  end.

Lemma slot_writes_ext l t v v' hs :
  (forall h, h ∈ hs -> v (lg_dev l, h) = v' (lg_dev l, h)) ->
  slot_writes l t v hs = slot_writes l t v' hs.
Proof.
  revert t. induction hs as [|h hs IH]; intros t H; simpl; [done|].
  rewrite H by (by apply elem_of_cons; left). f_equal. apply IH.
  intros h' Hh'. apply H. by apply elem_of_cons; right.
Qed.

Lemma home_writes_ext l t v v' hs :
  (forall i, (i < length hs)%nat ->
     v (lg_dev l, log_slot l (t + Z.of_nat i)) = v' (lg_dev l, log_slot l (t + Z.of_nat i))) ->
  home_writes l t v hs = home_writes l t v' hs.
Proof.
  revert t. induction hs as [|h hs IH]; intros t H; simpl; [done|].
  pose proof (H O ltac:(simpl; lia)) as H0. simpl in H0. rewrite Z.add_0_r in H0.
  rewrite H0. f_equal. apply IH. intros i Hi.
  pose proof (H (S i) ltac:(simpl; lia)) as H1.
  by replace (t + 1 + Z.of_nat i) with (t + Z.of_nat (S i)) by lia.
Qed.

Lemma on_bio_run {A} (m : ST bio A) l b dp a b' :
  m b = Ret (a, b') -> on_bio m (mk_lfs l b dp) = Ret (a, mk_lfs l b' dp).
Proof. intros E. unfold on_bio. simpl. by rewrite E. Qed.

Lemma log_slot_eq l t : 0 <= lg_start l + t + 1 < 2 ^ 32 -> log_slot l t = lg_start l + t + 1.
Proof. intros. unfold log_slot. by apply uwrap_id. Qed.

Section Loops.
Context (devs : Z -> bool) (l : log) (all : list Z) (Hgeo : geometry devs l all).

Let dev := lg_dev l.

(** [hs] are the blocks from index [t] on. *)
Definition suffix_at (t : Z) (hs : list Z) : Prop :=
  0 <= t /\ t + Z.of_nat (length hs) <= Z.of_nat (length all) /\
  (forall i h, hs !! i = Some h -> h ∈ all /\ lh_block l !! (Z.to_nat t + i)%nat = Some h).

Lemma suffix_at_cons t h hs :
  suffix_at t (h :: hs) ->
  h ∈ all /\ lh_block l !! Z.to_nat t = Some h /\ suffix_at (t + 1) hs /\
  log_slot l t = lg_start l + t + 1 /\ log_slot l t <> h /\
  (forall h', h' ∈ hs -> h' <> log_slot l t) /\
  (forall i, (i < length hs)%nat -> log_slot l (t + 1 + Z.of_nat i) <> h).
Proof.
  intros (H0 & Hlen & H). simpl in Hlen. destruct Hgeo as [_ _ G3 G4 G5].
  destruct (H O h eq_refl) as [Hin Hl]. rewrite Nat.add_0_r in Hl.
  rewrite log_slot_eq by lia. pose proof (G5 h Hin).
  split_and!; try done.
  - split; [lia|]. split; [lia|]. intros i h' Hi. destruct (H (S i) h' Hi) as [? E].
    split; [done|]. by replace (Z.to_nat (t + 1) + i)%nat with (Z.to_nat t + S i)%nat by lia.
  - lia.
  - intros h' [i Hi]%list_elem_of_lookup. destruct (H (S i) h' Hi) as [Ha _].
    pose proof (G5 h' Ha). lia.
  - intros i Hi. rewrite log_slot_eq by lia. lia.
Qed.

Lemma write_log_loop_run hs t b dp :
  calm dev b -> suffix_at t hs ->
  exists b', write_log_loop devs (length hs) t (mk_lfs l b dp) = Ret (tt, mk_lfs l b' dp) /\
    effect b b' (slot_writes l t (view b) hs) [].
Proof.
  revert t b. induction hs as [|h hs IH]; intros t b Hcalm Hs; simpl.
  { exists b. split; [done|]. apply effect_refl; apply Hcalm. }
  apply suffix_at_cons in Hs as (Hin & Hl & Hs & Hslot & Hne & Hnot & _).
  pose proof (ge_dev _ _ _ Hgeo) as Hd. pose proof (ge_devs _ _ _ Hgeo) as Hdv.
  pose proof Hcalm as [I C P L R].
  destruct (copy_to_log_run devs (dev, h) (dev, log_slot l t) Hd Hd) with (s := b)
    as (b1 & E1 & Hc1); try done; [congruence|].
  assert (effect b b1 [((dev, log_slot l t), view b (dev, h))] []) as F1
    by exact (effect_copied _ _ _ _ true Hc1).
  destruct (IH (t + 1) b1) as (b2 & E2 & F2); [by eapply calm_effect|done|].
  exists b2. split.
  - rewrite (bind_run _ _ _ tt (mk_lfs l b1 dp)); [done|].
    unfold write_log_one. rewrite (bind_run get _ _ _ _ eq_refl). apply on_bio_run.
    simpl. rewrite Hl. exact E1.
  - pose proof (effect_trans _ _ _ _ _ _ _ F1 F2) as F.
    rewrite (slot_writes_ext l (t + 1) (view b1) (view b)) in F; [done|].
    intros h' Hh'. rewrite (ef_view _ _ _ _ F1) by done. simpl. rewrite decide_False; [done|].
    intros [= E]. by apply (Hnot h').
Qed.

Lemma install_loop_run (recovering : bool) hs t b dp :
  calm dev b -> suffix_at t hs -> NoDup hs ->
  (recovering = false -> forall h, h ∈ hs -> 1 <= refs b (dev, h)) ->
  exists b', install_loop devs recovering (length hs) t (mk_lfs l b dp) =
               Ret (tt, mk_lfs l b' dp) /\
    effect b b' (home_writes l t (view b) hs)
      (if recovering then [] else map (pair dev) hs).
Proof.
  revert t b. induction hs as [|h hs IH]; intros t b Hcalm Hs Hnd Hpin; simpl.
  { exists b. split; [done|]. destruct recovering; apply effect_refl; apply Hcalm. }
  apply suffix_at_cons in Hs as (Hin & Hl & Hs & Hslot & Hne & _ & Hnot).
  apply NoDup_cons in Hnd as [Hni Hnd].
  pose proof (ge_dev _ _ _ Hgeo) as Hd. pose proof (ge_devs _ _ _ Hgeo) as Hdv.
  pose proof Hcalm as [I C P L R].
  destruct (copy_home_run devs (dev, log_slot l t) (dev, h) Hd Hd) with (s := b)
    (recovering := recovering) as (b1 & E1 & Hc1); try done; [congruence| |].
  { intros Hr. apply Hpin; [done|]. by apply elem_of_cons; left. }
  pose proof (effect_copied _ _ _ _ recovering Hc1) as F1.
  destruct (IH (t + 1) b1) as (b2 & E2 & F2); [by eapply calm_effect|done|done| |].
  { intros Hr h' Hh'. rewrite (ef_refs _ _ _ _ F1) by done. rewrite Hr, times_cons.
    rewrite decide_False; [|intros [= ->]; done]. unfold times. simpl.
    specialize (Hpin Hr h'). assert (h' ∈ h :: hs) as Hh2 by (by apply elem_of_cons; right).
    specialize (Hpin Hh2). lia. }
  exists b2. split.
  - rewrite (bind_run _ _ _ tt (mk_lfs l b1 dp)); [done|].
    unfold install_one. rewrite (bind_run get _ _ _ _ eq_refl). simpl. rewrite Hl.
    unfold lift, load, mbind at 1, ST_bind at 1. apply on_bio_run. exact E1.
  - pose proof (effect_trans _ _ _ _ _ _ _ F1 F2) as F.
    rewrite (home_writes_ext l (t + 1) (view b1) (view b)) in F; [by destruct recovering|].
    intros i Hi. rewrite (ef_view _ _ _ _ F1) by done. simpl. rewrite decide_False; [done|].
    intros [= E]. by apply (Hnot i).
Qed.
End Loops.

(** ** The log header *)

(** [data] is a header block that lists the blocks [hs]. *)
Definition is_head (data : block) (hs : list Z) : Prop :=
  get_u32 0 data = Some (Z.of_nat (length hs)) /\
  forall i h, hs !! i = Some h -> get_u32 (head_off i) data = Some h.

Lemma write_head_loop_run i src data :
  (head_off (i + length src) <= length data)%nat -> Forall (is_u 32) src ->
  exists data', write_head_loop i src data = Some data' /\ length data' = length data /\
    (forall j h, src !! j = Some h -> get_u32 (head_off (i + j)) data' = Some h) /\
    (forall off, (off + 4 <= head_off i)%nat -> get_u32 off data' = get_u32 off data).
Proof.
  unfold head_off. revert i data. induction src as [|v src IH]; intros i data Hl Hu; simpl in *.
  { exists data. by split_and!. }
  apply Forall_cons in Hu as [Hv Hu].
  destruct (put_u32_Some (head_off i) v data) as (d1 & E1 & L1); [unfold head_off; lia|].
  rewrite E1. simpl. destruct (IH (S i) d1) as (d2 & E2 & L2 & G2 & K2); [rewrite L1; lia|done|].
  exists d2. split_and!; [done|congruence| |].
  - intros [|j] h Hj; simplify_eq/=.
    + rewrite K2 by lia. rewrite Nat.add_0_r. by apply (get_put_u32_eq (head_off i) h data).
    + specialize (G2 j h Hj). by replace (i + S j)%nat with (S i + j)%nat by lia.
  - intros off Ho. rewrite K2 by lia. eapply get_put_u32_ne; [|done]. unfold head_off. lia.
Qed.

Lemma length_zero_block : length zero_block = 1024%nat.
Proof. unfold zero_block. by rewrite length_replicate. Qed.

Lemma head_block_run n blocks hs :
  take (Z.to_nat n) blocks = hs -> Z.of_nat (length hs) = n -> n <= VIMIXFS_MAX_LOG_BLOCKS ->
  Forall (is_u 32) hs -> exists data, head_block n blocks = Some data /\ is_head data hs.
Proof.
  intros Ht Hn Hmax Hu. change VIMIXFS_MAX_LOG_BLOCKS with 255 in Hmax. unfold head_block.
  rewrite decide_True by (rewrite <- Ht, length_take in Hn; lia). rewrite Ht.
  destruct (put_u32_Some 0 n zero_block) as (d1 & E1 & L1); [rewrite length_zero_block; lia|].
  rewrite E1. simpl. rewrite length_zero_block in L1.
  destruct (write_head_loop_run 0 hs d1) as (d2 & E2 & L2 & G & K);
    [unfold head_off; rewrite L1; lia|done|].
  exists d2. split; [done|]. split; [|done].
  rewrite K by (unfold head_off; lia). rewrite Hn. eapply get_put_u32_eq; [|done].
  unfold is_u. lia.
Qed.

Lemma read_head_loop_run hs i data dst :
  (forall j h, hs !! j = Some h -> get_u32 (head_off (i + j)) data = Some h) ->
  (i + length hs <= length dst)%nat ->
  exists dst', read_head_loop (length hs) i data dst = Some dst' /\
    length dst' = length dst /\
    (forall j h, hs !! j = Some h -> dst' !! (i + j)%nat = Some h) /\
    (forall j, (j < i)%nat -> dst' !! j = dst !! j).
Proof.
  revert i dst. induction hs as [|h hs IH]; intros i dst H Hl; simpl in *.
  { exists dst. by split_and!. }
  pose proof (H O h eq_refl) as H0. rewrite Nat.add_0_r in H0. rewrite H0. simpl.
  rewrite decide_True by lia.
  destruct (IH (S i) (<[i := h]> dst)) as (d & E & L & G & K).
  - intros j h' Hj. specialize (H (S j) h' Hj).
    by replace (S i + j)%nat with (i + S j)%nat by lia.
  - rewrite length_insert. lia.
  - rewrite length_insert in L. exists d. split_and!; [done|done| |].
    + intros [|j] h' Hj; simplify_eq/=.
      * rewrite Nat.add_0_r, K by lia. apply list_lookup_insert_eq. lia.
      * replace (i + S j)%nat with (S i + j)%nat by lia. by apply G.
    + intros j Hj. rewrite K by lia. apply list_lookup_insert_ne. lia.
Qed.

Section Head.
Context (devs : Z -> bool) (l : log) (Hd : lg_dev l <> 0) (Hdevs : devs (lg_dev l) = true).

Let dev := lg_dev l.
Let head := (lg_dev l, lg_start l).

Lemma write_head_run data b dp :
  calm dev b -> head_block (lh_n l) (lh_block l) = Some data ->
  exists b', write_head devs (mk_lfs l b dp) = Ret (tt, mk_lfs l b' dp) /\
    effect b b' [(head, data)] [].
Proof.
  intros [I C P L R] Hdata. assert (good head) as Hg by done.
  pose proof (refs_range b head I Hg) as [R0 _].
  destruct (ab_get head Hg b) as (id & b1 & vl & E1 & S1 & C1 & A1 & D1 & W1 & P1);
    [done..|apply L|apply R|right; lia|].
  destruct (ab_set_valid head Hg b1 id (refs b head + 1) true (view b head) vl)
    as (b2 & w & E2 & S2 & C2 & A2 & D2 & W2 & P2); [apply S1|done|lia|done|].
  destruct (ab_set_data head Hg b2 id (refs b head + 1) true w data)
    as (b3 & E3 & S3 & C3 & A3 & D3 & W3 & P3); [apply S2|done|lia|done|].
  destruct (ab_write devs head Hg b3 id (refs b head + 1) true data)
    as (b4 & E4 & S4 & C4 & A4 & D4 & W4 & P4); [apply S3|done|lia|done|done|].
  destruct (ab_release head Hg b4 id (refs b head + 1) true data true)
    as (b5 & E5 & S5 & C5 & R5 & L5 & V5 & D5 & W5 & P5); [apply S4|done|lia|done| |].
  { intros _. by rewrite D4, disk_block_insert, decide_True. }
  exists b5. split.
  - unfold write_head. rewrite (bind_run get _ _ _ _ eq_refl). simpl.
    rewrite (bind_run _ _ _ _ _ (on_bio_run _ l b dp _ _ E1)).
    rewrite (bind_run _ _ _ _ _ (on_bio_run _ l b1 dp _ _ E2)). rewrite Hdata.
    unfold lift, load, mbind at 1, ST_bind at 1.
    rewrite (bind_run _ _ _ _ _ (on_bio_run _ l b2 dp _ _ E3)).
    rewrite (bind_run _ _ _ _ _ (on_bio_run _ l b3 dp _ _ E4)).
    exact (on_bio_run _ l b4 dp _ _ E5).
  - assert (outside b b5 [head]) as [O1 O2 O3].
    { repeat (eapply outside_trans; [eapply (outside_step _ _ head); [eassumption|set_solver]|]).
      constructor; done. }
    assert (forall k, k <> head -> k ∉ [head]) as Hno.
    { intros k Hk [->|[]%not_elem_of_nil]%elem_of_cons. done. }
    constructor; try done; [apply S5| | | | | |].
    + intros k Hk. change (times k []) with 0.
      destruct (decide (k = head)) as [->|Hne]; [lia|]. rewrite O1 by auto. lia.
    + intros k Hk. destruct (decide (k = head)) as [->|Hne]; [|by rewrite O2 by auto].
      rewrite L5. symmetry. apply L.
    + intros k Hk. simpl. destruct (decide (k = head)) as [->|Hne]; [done|]. by rewrite O3 by auto.
    + by rewrite D5, D4, D3, D2, D1.
    + by rewrite W5, W4, W3, W2, W1.
    + rewrite P5, P4, P3, P2, P1.
      destruct (Z.eqb_spec (refs b head) 0), (Z.eqb_spec (refs b head + 1) 1); lia.
Qed.

Lemma read_head_run hs b dp :
  calm dev b -> is_head (view b head) hs -> (length hs <= length (lh_block l))%nat ->
  exists b' bl,
    read_head devs (mk_lfs l b dp) =
      Ret (tt, mk_lfs (set_lh_block bl (set_lh_n (Z.of_nat (length hs)) l)) b' dp) /\
    take (length hs) bl = hs /\ length bl = length (lh_block l) /\ effect b b' [] [].
Proof.
  intros [I C P L R] [Hn Hh] Hlen. assert (good head) as Hg by done.
  pose proof (refs_range b head I Hg) as [R0 _].
  destruct (ab_read devs head Hg b) as (id & b1 & E1 & S1 & C1 & A1 & D1 & W1 & P1);
    [done..|apply L|apply R|right; lia|].
  destruct (ab_deref head Hg b1 id (refs b head + 1) true (view b head)) as (bf & E2 & Ebf);
    [apply S1|done|].
  destruct (ab_release head Hg b1 id (refs b head + 1) true (view b head) true)
    as (b2 & E3 & S3 & C3 & R3 & L3 & V3 & D3 & W3 & P3); [apply S1|done|lia|done| |].
  { intros Hr. rewrite D1. apply view_unused; done || lia. }
  destruct (read_head_loop_run hs 0 (view b head) (lh_block l)) as (bl & Eb & Lb & Gb & _);
    [done|done|].
  exists b2, bl. split; [|split; [|split; [done|]]].
  - unfold read_head. rewrite (bind_run get _ _ _ _ eq_refl). simpl.
    rewrite (bind_run _ _ _ _ _ (on_bio_run _ l b dp _ _ E1)).
    rewrite (bind_run _ _ _ _ _ (on_bio_run _ l b1 dp _ _ E2)). rewrite Ebf, Hn.
    unfold lift, load, mbind at 1, ST_bind at 1. rewrite Nat2Z.id, Eb.
    unfold mbind, ST_bind, modify_log, modify. simpl. exact (on_bio_run _ _ b1 dp _ _ E3).
  - apply list_eq. intros i. destruct (hs !! i) as [h|] eqn:Hi.
    + pose proof (lookup_lt_Some _ _ _ Hi). rewrite lookup_take_lt by lia. by apply (Gb i).
    + apply lookup_ge_None in Hi. apply lookup_ge_None. rewrite length_take. lia.
  - assert (outside b b2 [head]) as [O1 O2 O3].
    { eapply outside_trans; [eapply (outside_step _ _ head); [exact S1|set_solver]|].
      eapply (outside_step _ _ head); [exact S3|set_solver]. }
    assert (forall k, k <> head -> k ∉ [head]) as Hno.
    { intros k Hk [->|[]%not_elem_of_nil]%elem_of_cons. done. }
    constructor; try done; [apply S3| | | | | |].
    + intros k Hk. change (times k []) with 0.
      destruct (decide (k = head)) as [->|Hne]; [lia|]. rewrite O1 by auto. lia.
    + intros k Hk. destruct (decide (k = head)) as [->|Hne]; [|by rewrite O2 by auto].
      rewrite L3. symmetry. apply L.
    + intros k Hk. simpl. destruct (decide (k = head)) as [->|Hne]; [done|]. by rewrite O3 by auto.
    + by rewrite D3, D1.
    + by rewrite W3, W1, app_nil_r.
    + rewrite P3, P1.
      destruct (Z.eqb_spec (refs b head) 0), (Z.eqb_spec (refs b head + 1) 1); lia.
Qed.
End Head.

(** ** Commit *)

(** The new contents of the blocks of a transaction. *)
Definition new_blocks (dev : Z) (v : Z * Z -> block) (hs : list Z) : list ((Z * Z) * block) :=
  map (fun h => ((dev, h), v (dev, h))) hs.

Lemma slot_writes_keys l t v hs k :
  0 <= t -> 0 <= lg_start l -> lg_start l + t + Z.of_nat (length hs) + 1 <= 2 ^ 32 ->
  k ∈ map fst (slot_writes l t v hs) ->
  fst k = lg_dev l /\ lg_start l + t + 1 <= snd k <= lg_start l + t + Z.of_nat (length hs).
Proof.
  revert t. induction hs as [|h hs IH]; intros t Ht Hs He Hin; simpl in *.
  { by apply not_elem_of_nil in Hin. }
  apply elem_of_cons in Hin as [->|Hin].
  - simpl. rewrite log_slot_eq by lia. split; [done|lia].
  - apply IH in Hin; lia.
Qed.

Lemma over_slot_writes l t v w hs i h :
  0 <= t -> 0 <= lg_start l -> lg_start l + t + Z.of_nat (length hs) + 1 <= 2 ^ 32 ->
  hs !! i = Some h ->
  over w (slot_writes l t v hs) (lg_dev l, log_slot l (t + Z.of_nat i)) = v (lg_dev l, h).
Proof.
  revert t w i. induction hs as [|h' hs IH]; intros t w [|i] Ht Hs He Hi; simplify_eq/=.
  - rewrite Z.add_0_r, over_notin; [by rewrite decide_True|].
    intros Hin. apply slot_writes_keys in Hin as [_ Hk]; [|lia..].
    simpl in Hk. rewrite log_slot_eq in Hk by lia. lia.
  - replace (t + Z.of_nat (S i)) with (t + 1 + Z.of_nat i) by lia. apply IH; done || lia.
Qed.

Lemma home_writes_new l t w v hs :
  (forall i h, hs !! i = Some h ->
     w (lg_dev l, log_slot l (t + Z.of_nat i)) = v (lg_dev l, h)) ->
  home_writes l t w hs = new_blocks (lg_dev l) v hs.
Proof.
  revert t. induction hs as [|h hs IH]; intros t H; simpl; [done|]. unfold new_blocks in *.
  simpl. pose proof (H O h eq_refl) as H0. simpl in H0. rewrite Z.add_0_r in H0. rewrite H0.
  f_equal. apply IH. intros i h' Hi. rewrite <- (H (S i) h' Hi). do 2 f_equal. f_equal. lia.
Qed.

(** What a transaction of the blocks [hs] needs: they are listed in the log's
    header, fit into a header block, and are pinned in the cache. *)
Record ready (devs : Z -> bool) (l : log) (b : bio) (hs : list Z) : Prop := {
  rd_geo : geometry devs l hs;
  rd_n : lh_n l = Z.of_nat (length hs);
  rd_blocks : take (length hs) (lh_block l) = hs;
  rd_max : lh_n l <= VIMIXFS_MAX_LOG_BLOCKS;
  rd_nodup : NoDup hs;
  rd_u32 : Forall (is_u 32) hs;
  rd_calm : calm (lg_dev l) b;
  rd_pinned h : h ∈ hs -> 1 <= refs b (lg_dev l, h)
}.

Lemma suffix_all l hs :
  take (length hs) (lh_block l) = hs -> suffix_at l hs 0 hs.
Proof.
  intros H. split; [lia|]. split; [lia|]. intros i h Hi. split; [by eapply list_elem_of_lookup_2|].
  simpl. rewrite <- H in Hi. by apply lookup_take_Some in Hi as [? _].
Qed.

Lemma commit_run devs l b dp hs :
  ready devs l b hs -> hs <> [] ->
  exists b' d1 d0,
    commit devs (mk_lfs l b dp) =
      Ret (tt, mk_lfs (set_old_clients 0 (set_lh_n 0 l)) b' dp) /\
    is_head d1 hs /\ is_head d0 [] /\
    effect b b'
      (slot_writes l 0 (view b) hs ++ [((lg_dev l, lg_start l), d1)] ++
       new_blocks (lg_dev l) (view b) hs ++ [((lg_dev l, lg_start l), d0)])
      (map (pair (lg_dev l)) hs).
Proof.
  intros [G Hn Hb Hmax Hnd Hu Hc Hp] Hne. set (head := (lg_dev l, lg_start l)).
  pose proof (ge_dev _ _ _ G) as Hd. pose proof (ge_devs _ _ _ G) as Hdv.
  pose proof (ge_start _ _ _ G) as Hst. pose proof (ge_end _ _ _ G) as Hend.
  pose proof (suffix_all l hs Hb) as Hsuf.
  destruct (write_log_loop_run devs l hs G hs 0 b dp Hc Hsuf) as (b1 & E1 & F1).
  pose proof (calm_effect _ _ _ _ _ Hd Hc F1) as Hc1.
  destruct (head_block_run (lh_n l) (lh_block l) hs) as (d1 & Ed1 & Hd1); [|done..|].
  { by rewrite Hn, Nat2Z.id. }
  destruct (write_head_run devs l Hd Hdv d1 b1 dp Hc1 Ed1) as (b2 & E2 & F2).
  pose proof (calm_effect _ _ _ _ _ Hd Hc1 F2) as Hc2.
  pose proof (effect_trans _ _ _ _ _ _ _ F1 F2) as F12.
  destruct (install_loop_run devs l hs G false hs 0 b2 dp Hc2 Hsuf Hnd) as (b3 & E3 & F3).
  { intros _ h Hh. rewrite (ef_refs _ _ _ _ F12) by done.
    change (times _ _) with 0. specialize (Hp h Hh). lia. }
  rewrite (home_writes_new l 0 (view b2) (view b)) in F3; cycle 1.
  { intros i h Hi. rewrite (ef_view _ _ _ _ F12), over_app by done. simpl.
    pose proof (lookup_lt_Some _ _ _ Hi). rewrite log_slot_eq by lia.
    rewrite decide_False by (intros [= ?]; lia). rewrite <- (log_slot_eq l (0 + Z.of_nat i)) by lia.
    apply over_slot_writes; done || lia. }
  pose proof (calm_effect _ _ _ _ _ Hd Hc2 F3) as Hc3.
  set (l0 := set_lh_n 0 l).
  destruct (head_block_run (lh_n l0) (lh_block l0) []) as (d0 & Ed0 & Hd0); [done..|].
  destruct (write_head_run devs l0 Hd Hdv d0 b3 dp Hc3 Ed0) as (b4 & E4 & F4).
  exists b4, d1, d0. split_and!; [|done|done|].
  - unfold commit. rewrite (bind_run get _ _ _ _ eq_refl). cbn [l_log].
    rewrite (proj2 (Z.ltb_lt _ _)) by (destruct hs; [done|]; simpl in Hn; lia).
    unfold write_log, install_trans.
    rewrite (bind_run _ _ _ tt (mk_lfs l b1 dp)); cycle 1.
    { rewrite (bind_run get _ _ _ _ eq_refl). cbn [l_log]. by rewrite Hn, Nat2Z.id. }
    rewrite (bind_run _ _ _ _ _ E2). rewrite (bind_run _ _ _ tt (mk_lfs l b3 dp)); cycle 1.
    { rewrite (bind_run get _ _ _ _ eq_refl). cbn [l_log]. by rewrite Hn, Nat2Z.id. }
    rewrite (bind_run _ _ _ tt (mk_lfs l0 b3 dp)) by done. by rewrite (bind_run _ _ _ _ _ E4).
  - pose proof (effect_trans _ _ _ _ _ _ _ F12 (effect_trans _ _ _ _ _ _ _ F3 F4)) as F.
    rewrite <- app_assoc in F. rewrite !app_nil_r in F. exact F.
Qed.

(** ** Recovery *)

Lemma home_writes_log l l' t v v' hs :
  lg_dev l = lg_dev l' -> lg_start l = lg_start l' ->
  (forall n, v (lg_dev l', n) = v' (lg_dev l', n)) ->
  home_writes l t v hs = home_writes l' t v' hs.
Proof.
  intros E1 E2 Hv. revert t. induction hs as [|h hs IH]; intros t; simpl; [done|].
  unfold log_slot. rewrite E1, E2, Hv, IH. done.
Qed.

Lemma recover_run devs l b dp hs :
  geometry devs l hs -> NoDup hs -> (length hs <= length (lh_block l))%nat ->
  calm (lg_dev l) b -> is_head (view b (lg_dev l, lg_start l)) hs ->
  exists b' bl d0,
    recover_from_log devs (mk_lfs l b dp) =
      Ret (tt, mk_lfs (set_lh_n 0 (set_lh_block bl l)) b' dp) /\
    length bl = length (lh_block l) /\ is_head d0 [] /\
    effect b b' (home_writes l 0 (view b) hs ++ [((lg_dev l, lg_start l), d0)]) [].
Proof.
  intros G Hnd Hlen Hc Hh. pose proof (ge_dev _ _ _ G) as Hd. pose proof (ge_devs _ _ _ G) as Hdv.
  destruct (read_head_run devs l Hd Hdv hs b dp Hc Hh Hlen) as (b1 & bl & E1 & Hbl & Lbl & F1).
  set (l1 := set_lh_block bl (set_lh_n (Z.of_nat (length hs)) l)) in *.
  pose proof (calm_effect _ _ _ _ _ Hd Hc F1) as Hc1.
  assert (geometry devs l1 hs) as G1 by (destruct G; by constructor).
  destruct (install_loop_run devs l1 hs G1 true hs 0 b1 dp Hc1) as (b2 & E2 & F2);
    [by apply suffix_all|done|done|].
  pose proof (calm_effect _ _ _ _ _ Hd Hc1 F2) as Hc2. set (l2 := set_lh_n 0 l1).
  destruct (head_block_run (lh_n l2) (lh_block l2) []) as (d0 & Ed0 & Hd0); [done..|].
  destruct (write_head_run devs l2 Hd Hdv d0 b2 dp Hc2 Ed0) as (b3 & E3 & F3).
  exists b3, bl, d0. split_and!; [|done|done|].
  - unfold recover_from_log. rewrite (bind_run _ _ _ _ _ E1).
    rewrite (bind_run _ _ _ tt (mk_lfs l1 b2 dp)); cycle 1.
    { unfold install_trans. rewrite (bind_run get _ _ _ _ eq_refl).
      change (lh_n (l_log (mk_lfs l1 b1 dp))) with (Z.of_nat (length hs)).
      by rewrite Nat2Z.id. }
    by rewrite (bind_run _ _ _ tt (mk_lfs l2 b2 dp)).
  - pose proof (effect_trans _ _ _ _ _ _ _ F1 (effect_trans _ _ _ _ _ _ _ F2 F3)) as F.
    rewrite (home_writes_log l1 l 0 (view b1) (view b)) in F; [exact F|done|done|].
    intros n. by rewrite (ef_view _ _ _ _ F1).
Qed.

(** A cache after boot: nothing of the device is cached yet. *)
Definition fresh (dev : Z) (b : bio) : Prop :=
  calm dev b /\ forall n, refs b (dev, n) = 0.

Lemma fresh_view dev b n : dev <> 0 -> fresh dev b -> view b (dev, n) = disk_block (disk b) (dev, n).
Proof.
  intros Hd [Hc Hr]. apply view_unused; [apply Hc|apply Hc|done|]. apply Hr.
Qed.

(** Mounting a file system whose log header lists [hs]. *)
Lemma mount_run devs dev nlog start hs s :
  dev <> 0 -> devs dev = true -> 0 <= start < 2 ^ 31 -> 0 <= nlog < 2 ^ 31 ->
  start + Z.of_nat (length hs) + 1 <= 2 ^ 31 -> Z.of_nat (length hs) <= nlog ->
  (forall h, h ∈ hs -> ~ (start <= h <= start + Z.of_nat (length hs))) -> NoDup hs ->
  fresh dev (l_bio s) -> is_head (disk_block (disk (l_bio s)) (dev, start)) hs ->
  exists s' d0,
    log_init devs false dev (mk_log_sb nlog start) s = Ret (0, s') /\ is_head d0 [] /\
    writes (l_bio s') = writes (l_bio s) ++
      home_writes (mk_log start 0 0 0 dev 0 [] [] [] [] 0) 0 (disk_block (disk (l_bio s))) hs ++
      [((dev, start), d0)] /\
    disk (l_bio s') = apply_writes (disk (l_bio s))
      (home_writes (mk_log start 0 0 0 dev 0 [] [] [] [] 0) 0 (disk_block (disk (l_bio s))) hs ++
       [((dev, start), d0)]).
Proof.
  intros Hd Hdv Hs Hn He Hlen Hh Hnd Hf Hhead.
  set (l := mk_log start nlog (lg_outstanding (l_log s)) 0 dev 0
              (replicate (Z.to_nat nlog) 0) (replicate MAX_CONCURRENT_LOG_CLIENTS 0)
              (replicate MAX_CONCURRENT_LOG_CLIENTS 0)
              (replicate MAX_CONCURRENT_LOG_CLIENTS 0) 0).
  assert (geometry devs l hs) as G by (constructor; simpl; done || lia).
  destruct (recover_run devs l (l_bio s) (l_depth s) hs G Hnd) as (b' & bl & d0 & E & _ & Hd0 & F).
  { simpl. rewrite length_replicate. lia. }
  { apply Hf. }
  { rewrite fresh_view; done. }
  assert (home_writes l 0 (view (l_bio s)) hs =
          home_writes (mk_log start 0 0 0 dev 0 [] [] [] [] 0) 0 (disk_block (disk (l_bio s))) hs)
    as Ehw.
  { apply home_writes_log; [done|done|]. intros n. by apply fresh_view. }
  rewrite Ehw in F. exists (mk_lfs (set_lh_n 0 (set_lh_block bl l)) b' (l_depth s)), d0.
  split_and!; [|done|apply F|apply F].
  unfold log_init. cbn [sb_logstart sb_nlog]. rewrite !swrap_id by (unfold is_s; lia).
  unfold mbind, ST_bind, modify_log, modify. unfold l in E. simpl in E |- *. by rewrite E.
Qed.

(** ** Crashes *)

(** One attempt to mount that crashes: some of its writes reached the device. *)
Definition crashed_mount (devs : Z -> bool) (dev nlog start : Z)
    (d d' : gmap (Z * Z) block) : Prop :=
  exists s s' ws done,
    fresh dev (l_bio s) /\ disk (l_bio s) = d /\
    log_init devs false dev (mk_log_sb nlog start) s = Ret (0, s') /\
    writes (l_bio s') = writes (l_bio s) ++ ws /\
    done `prefix_of` ws /\ d' = apply_writes d done.

Lemma prefix_snoc {A} (p l : list A) x :
  p `prefix_of` l ++ [x] -> p `prefix_of` l \/ p = l ++ [x].
Proof.
  intros [r E]. destruct r as [|y r _] using rev_ind; [right; by rewrite app_nil_r in E|left].
  rewrite app_assoc in E. apply app_inj_tail in E as [-> _]. by exists r.
Qed.

Lemma prefix_app_cases {A} (p l1 l2 : list A) :
  p `prefix_of` l1 ++ l2 ->
  p `prefix_of` l1 \/ exists q, p = l1 ++ q /\ q `prefix_of` l2.
Proof.
  intros [r E]. apply app_eq_app in E as (m & [[E1 E2]|[E1 E2]]); subst.
  - left. by exists m.
  - right. exists m. split; [done|]. by exists r.
Qed.

Lemma new_blocks_keys dev v hs k :
  k ∈ map fst (new_blocks dev v hs) -> exists h, h ∈ hs /\ k = (dev, h).
Proof.
  unfold new_blocks. rewrite map_map, list_elem_of_In, in_map_iff.
  intros (h & <- & Hh). exists h. by rewrite list_elem_of_In.
Qed.

Lemma new_blocks_val dev v hs k x : (k, x) ∈ new_blocks dev v hs -> x = v k.
Proof.
  unfold new_blocks. rewrite list_elem_of_In, in_map_iff. by intros (h & [= <- <-] & _).
Qed.

Lemma length_slot_writes l t v hs : length (slot_writes l t v hs) = length hs.
Proof. revert t. induction hs as [|h hs IH]; intros t; simpl; [done|]. by rewrite IH. Qed.

Section Crash.
Context (devs : Z -> bool) (dev nlog start : Z) (hs : list Z).
Context (d0 : gmap (Z * Z) block) (v : Z * Z -> block).
Context (Hdev : dev <> 0) (Hdevs : devs dev = true).
Context (Hstart : 0 <= start) (Hnlog : 0 <= nlog < 2 ^ 31) (Hend : start + nlog < 2 ^ 31).
Context (Hlen : Z.of_nat (length hs) <= nlog) (Hnd : NoDup hs).
Context (Hhomes : forall h, h ∈ hs -> ~ (start <= h <= start + Z.of_nat (length hs))).

(** The blocks the transaction uses of the log area. *)
Definition in_log (k : Z * Z) : Prop :=
  fst k = dev /\ start <= snd k <= start + Z.of_nat (length hs).

Let head : Z * Z := (dev, start).

(** Not committed; committed but not installed; installed. *)
Definition not_committed (d : gmap (Z * Z) block) : Prop :=
  is_head (disk_block d head) [] /\
  forall k, ~ in_log k -> disk_block d k = disk_block d0 k.

Definition in_install (d : gmap (Z * Z) block) : Prop :=
  is_head (disk_block d head) hs /\
  (forall i h, hs !! i = Some h -> disk_block d (dev, start + Z.of_nat i + 1) = v (dev, h)) /\
  forall k, ~ in_log k -> k ∉ map (pair dev) hs -> disk_block d k = disk_block d0 k.

Definition installed (d : gmap (Z * Z) block) : Prop :=
  is_head (disk_block d head) [] /\
  forall k, ~ in_log k -> disk_block d k = over (disk_block d0) (new_blocks dev v hs) k.

Lemma over_new_blocks w k :
  over w (new_blocks dev v hs) k = if decide (k ∈ map (pair dev) hs) then v k else w k.
Proof.
  rewrite (over_const _ _ v) by (intros; by eapply new_blocks_val).
  unfold new_blocks. rewrite map_map. done.
Qed.

Lemma home_not_in_log h : h ∈ hs -> ~ in_log (dev, h).
Proof. intros Hh [_ H]. simpl in H. by apply (Hhomes h). Qed.

(** Installing part of the blocks. *)
Lemma install_prefix d p :
  in_install d -> p `prefix_of` new_blocks dev v hs -> in_install (apply_writes d p).
Proof.
  intros (H1 & H2 & H3) Hp.
  assert (forall k, in_log k \/ k ∉ map (pair dev) hs ->
            disk_block (apply_writes d p) k = disk_block d k) as Hsame.
  { intros k Hk. rewrite disk_apply_writes. apply over_notin. intros Hin.
    assert (k ∈ map fst (new_blocks dev v hs)) as Hin2.
    { destruct Hp as [r ->]. rewrite map_app. apply elem_of_app. by left. }
    apply new_blocks_keys in Hin2 as (h & Hh & ->). destruct Hk as [Hk|Hk].
    - by apply home_not_in_log in Hk.
    - destruct Hk. rewrite list_elem_of_In. apply in_map. by rewrite <- list_elem_of_In. }
  split_and!.
  - rewrite Hsame; [done|]. left. split; simpl; [done|lia].
  - intros i h Hi. pose proof (lookup_lt_Some _ _ _ Hi). rewrite Hsame; [by apply H2|].
    left. split; simpl; [done|lia].
  - intros k Hk1 Hk2. rewrite Hsame by auto. auto.
Qed.

Lemma install_all d e :
  in_install d -> is_head e [] -> installed (apply_writes d (new_blocks dev v hs ++ [(head, e)])).
Proof.
  intros (H1 & H2 & H3) He. split.
  - rewrite disk_apply_writes, over_app. simpl. by rewrite decide_True.
  - intros k Hk. rewrite disk_apply_writes, over_app. simpl. rewrite decide_False; cycle 1.
    { intros ->. apply Hk. split; simpl; [done|lia]. }
    rewrite !over_new_blocks. case_decide; [done|]. auto.
Qed.

Lemma clear_head d e (P : Z * Z -> block) :
  (forall k, ~ in_log k -> disk_block d k = P k) -> is_head e [] ->
  is_head (disk_block (apply_writes d [(head, e)]) head) [] /\
  forall k, ~ in_log k -> disk_block (apply_writes d [(head, e)]) k = P k.
Proof.
  intros H He. split; [rewrite disk_apply_writes; simpl; by rewrite decide_True|].
  intros k Hk. rewrite disk_apply_writes. simpl. rewrite decide_False; [auto|].
  intros ->. apply Hk. split; simpl; [done|lia].
Qed.

(** Committed or not, and what recovery makes of it. *)
Definition phase (c : bool) (d : gmap (Z * Z) block) : Prop :=
  if c then in_install d \/ installed d else not_committed d.
Definition final (c : bool) (d : gmap (Z * Z) block) : Prop :=
  if c then installed d else not_committed d.

(** Mounting succeeds, its writes stay in the phase and end in the final
    state. *)
Definition mounts (c : bool) (s : lfs) : Prop :=
  exists s' ws, log_init devs false dev (mk_log_sb nlog start) s = Ret (0, s') /\
    writes (l_bio s') = writes (l_bio s) ++ ws /\
    disk (l_bio s') = apply_writes (disk (l_bio s)) ws /\
    (forall p, p `prefix_of` ws -> phase c (apply_writes (disk (l_bio s)) p)) /\
    final c (apply_writes (disk (l_bio s)) ws).

Lemma final_phase c d : final c d -> phase c d.
Proof. destruct c; simpl; auto. Qed.

Lemma mount_final c s : fresh dev (l_bio s) -> final c (disk (l_bio s)) -> mounts c s.
Proof.
  intros Hf Hc.
  assert (exists P, final c = fun d => is_head (disk_block d head) [] /\
            forall k, ~ in_log k -> disk_block d k = P k) as [P HP].
  { destruct c; [by exists (over (disk_block d0) (new_blocks dev v hs))|by exists (disk_block d0)]. }
  rewrite HP in Hc. destruct Hc as [Hh Hk].
  destruct (mount_run devs dev nlog start [] s) as (s' & e & E & He & W & D); simpl;
    try done; try lia; [intros ? []%not_elem_of_nil|constructor|].
  assert (final c (apply_writes (disk (l_bio s)) [(head, e)])) as Hfin
    by (rewrite HP; by apply clear_head).
  exists s', [(head, e)]. split_and!; try done.
  intros p Hp. destruct (prefix_snoc p [] (head, e) Hp) as [[r Hr]| ->]; [|by apply final_phase].
  symmetry in Hr. apply app_eq_nil in Hr as [-> _]. simpl. apply final_phase. by rewrite HP.
Qed.

Lemma mount_in_install s : fresh dev (l_bio s) -> in_install (disk (l_bio s)) -> mounts true s.
Proof.
  intros Hf Hi. pose proof Hi as (H1 & H2 & _).
  destruct (mount_run devs dev nlog start hs s) as (s' & e & E & He & W & D); try done; try lia.
  assert (home_writes (mk_log start 0 0 0 dev 0 [] [] [] [] 0) 0
            (disk_block (disk (l_bio s))) hs = new_blocks dev v hs) as Ehw.
  { apply home_writes_new. intros i h Hih. pose proof (lookup_lt_Some _ _ _ Hih).
    rewrite log_slot_eq by (simpl; lia). simpl. by apply H2. }
  rewrite Ehw in W, D. exists s', (new_blocks dev v hs ++ [(head, e)]). split_and!; try done.
  - intros p [Hp| ->]%prefix_snoc; [left; by apply install_prefix|right; by apply install_all].
  - by apply install_all.
Qed.

Lemma mount_phase c s : fresh dev (l_bio s) -> phase c (disk (l_bio s)) -> mounts c s.
Proof.
  intros Hf Hp. destruct c; [destruct Hp|].
  - by apply mount_in_install.
  - by apply mount_final.
  - by apply mount_final.
Qed.

(** Crashes during recovery do not leave the phase. *)
Lemma crashed_mounts_phase c d d' :
  phase c d -> rtc (crashed_mount devs dev nlog start) d d' -> phase c d'.
Proof.
  intros Hp Hr. induction Hr as [|d1 d2 d3 Hs _ IH]; [done|]. apply IH.
  destruct Hs as (s & s' & ws & p & Hf & <- & E & W & Hpre & ->).
  destruct (mount_phase c s Hf Hp) as (s2 & ws2 & E2 & W2 & _ & Hph & _).
  rewrite E2 in E. injection E as <-. rewrite W2 in W. apply app_inv_head in W as ->. auto.
Qed.

(** The phase a crash during [commit] leaves. *)
Lemma commit_prefix (l : log) e1 e0 p :
  lg_dev l = dev -> lg_start l = start ->
  is_head (disk_block d0 head) [] -> is_head e1 hs -> is_head e0 [] ->
  p `prefix_of` slot_writes l 0 v hs ++ [(head, e1)] ++ new_blocks dev v hs ++ [(head, e0)] ->
  phase (bool_decide (length hs < length p)%nat) (apply_writes d0 p).
Proof.
  intros El Es Hh He1 He0 Hp. pose proof (length_slot_writes l 0 v hs) as Ll.
  assert (forall k w q, q `prefix_of` slot_writes l 0 v hs -> (~ in_log k \/ k = head) ->
            over w q k = w k) as Hout.
  { intros k w q [r E] Hk. apply over_notin. intros Hin.
    assert (k ∈ map fst (slot_writes l 0 v hs)) as Hin2.
    { rewrite E, map_app. apply elem_of_app. by left. }
    apply slot_writes_keys in Hin2 as [K1 K2]; [|lia..]. rewrite El in K1. rewrite Es in K2.
    destruct Hk as [Hk| ->]; [|simpl in K2; lia]. apply Hk. split; [done|lia]. }
  apply prefix_app_cases in Hp as [Hp|(q & -> & Hq)].
  { apply prefix_length in Hp as Hlp. rewrite bool_decide_false by lia. simpl.
    split; [|intros k Hk]; rewrite disk_apply_writes, Hout; auto. }
  destruct q as [|w q].
  { rewrite app_nil_r, bool_decide_false by lia. simpl.
    split; [|intros k Hk]; rewrite disk_apply_writes, Hout; auto. }
  rewrite bool_decide_true by (rewrite length_app; simpl; lia).
  apply prefix_cons_inv_1 in Hq as Ew. apply prefix_cons_inv_2 in Hq. subst w.
  replace (slot_writes l 0 v hs ++ (head, e1) :: q)
    with ((slot_writes l 0 v hs ++ [(head, e1)]) ++ q) by by rewrite <- app_assoc.
  rewrite apply_writes_app.
  assert (in_install (apply_writes d0 (slot_writes l 0 v hs ++ [(head, e1)]))) as Hi.
  { split_and!; intros *; rewrite disk_apply_writes, over_app; simpl.
    - by rewrite decide_True.
    - intros Hih. pose proof (lookup_lt_Some _ _ _ Hih).
      rewrite decide_False by (unfold head; intros [= ?]; lia).
      pose proof (over_slot_writes l 0 v (disk_block d0) hs i h) as Ho.
      rewrite log_slot_eq, El, Es in Ho by lia. apply Ho; done || lia.
    - intros Hk _. rewrite decide_False; [by apply Hout; auto|].
      intros ->. apply Hk. split; simpl; [done|lia]. }
  apply prefix_snoc in Hq as [Hq| ->]; [left; by apply install_prefix|right; by apply install_all].
Qed.
End Crash.

(** ** Properties *)

(** C1: a transaction is atomic under crashes.  [commit] returns, and for
    every crash during it, leaving the device with a prefix of the writes,
    followed by any number of crashes during recovery, mounting succeeds, empties
    the log and yields: all new contents of the transaction's blocks if the
    header write was among the writes done, no change of any block outside of the
    log otherwise. *)
Theorem commit_crash_atomic devs l b dp hs :
  ready devs l b hs -> hs <> [] ->
  0 <= lg_size l < 2 ^ 31 -> lg_start l + lg_size l < 2 ^ 31 -> lh_n l <= lg_size l ->
  is_head (disk_block (disk b) (lg_dev l, lg_start l)) [] ->
  exists s' ws, commit devs (mk_lfs l b dp) = Ret (tt, s') /\
    writes (l_bio s') = writes b ++ ws /\
    forall p d1 s1,
      p `prefix_of` ws ->
      rtc (crashed_mount devs (lg_dev l) (lg_size l) (lg_start l)) (apply_writes (disk b) p) d1 ->
      fresh (lg_dev l) (l_bio s1) -> disk (l_bio s1) = d1 ->
      exists s2,
        log_init devs false (lg_dev l) (mk_log_sb (lg_size l) (lg_start l)) s1 = Ret (0, s2) /\
        is_head (disk_block (disk (l_bio s2)) (lg_dev l, lg_start l)) [] /\
        forall k, ~ in_log (lg_dev l) (lg_start l) hs k ->
          disk_block (disk (l_bio s2)) k =
          if decide (length hs < length p)%nat
          then over (disk_block (disk b)) (new_blocks (lg_dev l) (view b) hs) k
          else disk_block (disk b) k.
Proof.
  intros Hr Hne Hsz Hend Hn Hh. pose proof (rd_geo _ _ _ _ Hr) as [G1 G2 G3 G4 G5].
  pose proof (rd_n _ _ _ _ Hr). pose proof (rd_nodup _ _ _ _ Hr) as Hnd.
  destruct (commit_run devs l b dp hs Hr Hne) as (b' & e1 & e0 & E & He1 & He0 & F).
  eexists _, _. split; [exact E|]. split; [apply F|]. intros p d1 s1 Hp Hcr Hf <-.
  apply (commit_prefix (lg_dev l) (lg_size l) (lg_start l) hs (disk b) (view b)) in Hp;
    try done; try lia.
  assert (phase (lg_dev l) (lg_start l) hs (disk b) (view b)
            (bool_decide (length hs < length p)%nat) (disk (l_bio s1))) as Hp1.
  { eapply (crashed_mounts_phase devs (lg_dev l) (lg_size l)); try done; lia. }
  eapply (mount_phase devs (lg_dev l) (lg_size l)) in Hp1 as (s2 & ws2 & E2 & _ & D2 & _ & Hfin); try done; try lia.
  exists s2. split; [done|]. rewrite D2. unfold final in Hfin. case_bool_decide.
  - destruct Hfin as [H1 H2]. split; [done|]. intros k Hk. rewrite decide_True by done. auto.
  - destruct Hfin as [H1 H2]. split; [done|]. intros k Hk. rewrite decide_False by done. auto.
Qed.

Lemma commit_view devs l b dp hs :
  ready devs l b hs -> hs <> [] ->
  exists b', commit devs (mk_lfs l b dp) = Ret (tt, mk_lfs (set_old_clients 0 (set_lh_n 0 l)) b' dp) /\
    bio_inv b' /\ bio_clean b' /\ spare b <= spare b' /\
    is_head (disk_block (disk b') (lg_dev l, lg_start l)) [] /\
    (forall k, good k -> lockd b' k = lockd b k /\
       refs b' k = refs b k - (if decide (k ∈ map (pair (lg_dev l)) hs) then 1 else 0)) /\
    forall k, good k -> ~ in_log (lg_dev l) (lg_start l) hs k ->
      view b' k = view b k /\
      disk_block (disk b') k = (if decide (k ∈ map (pair (lg_dev l)) hs) then view b k else disk_block (disk b) k).
Proof.
  intros Hr Hne. pose proof (rd_geo _ _ _ _ Hr) as [G1 G2 G3 G4 G5].
  destruct (commit_run devs l b dp hs Hr Hne) as (b' & e1 & e0 & E & He1 & He0 & F).
  exists b'. split; [exact E|]. split; [apply F|]. split; [apply F|]. split; [apply F|].
  assert (forall w k, ~ in_log (lg_dev l) (lg_start l) hs k ->
    over w (slot_writes l 0 (view b) hs ++ [((lg_dev l, lg_start l), e1)] ++
      new_blocks (lg_dev l) (view b) hs ++ [((lg_dev l, lg_start l), e0)]) k =
    if decide (k ∈ map (pair (lg_dev l)) hs) then view b k else w k) as Hov.
  { intros w k Hk. assert (k <> (lg_dev l, lg_start l)) as Hkh.
    { intros ->. apply Hk. split; simpl; [done|lia]. }
    rewrite !over_app. simpl. rewrite decide_False by done. rewrite over_new_blocks.
    case_decide; [done|]. rewrite decide_False by done. apply over_notin. intros Hin.
    apply slot_writes_keys in Hin as [K1 K2]; [|lia..]. apply Hk. split; [done|lia]. }
  split; [|split].
  - rewrite (ef_disk _ _ _ _ F), disk_apply_writes, !over_app. simpl. by rewrite decide_True.
  - intros k Hg. split; [by apply (ef_lockd _ _ _ _ F)|]. rewrite (ef_refs _ _ _ _ F) by done. f_equal. apply times_nodup.
    apply NoDup_fmap_2; [intros ?? [=]; done|apply Hr].
  - intros k Hg Hk. split.
    + rewrite (ef_view _ _ _ _ F), Hov by done. by case_decide.
    + rewrite (ef_disk _ _ _ _ F), disk_apply_writes. by apply Hov.
Qed.


(** The log area is one block too small for what the reservations allow.
    The size in the super block counts the header block, but a transaction may
    log as many blocks as that size; committing such a transaction overwrites
    the block after the log area, the first block of the inode table. *)
Theorem commit_overruns_log devs l b dp hs :
  ready devs l b hs -> hs <> [] -> lh_n l = lg_size l ->
  exists s' h, commit devs (mk_lfs l b dp) = Ret (tt, s') /\ last hs = Some h /\
    ((lg_dev l, lg_start l + lg_size l) ∉ map (pair (lg_dev l)) hs) /\
    disk_block (disk (l_bio s')) (lg_dev l, lg_start l + lg_size l) = view b (lg_dev l, h).
Proof.
  intros Hr Hne Hsz. pose proof (rd_geo _ _ _ _ Hr) as [G1 G2 G3 G4 G5].
  pose proof (rd_n _ _ _ _ Hr) as Hn.
  destruct (commit_run devs l b dp hs Hr Hne) as (b' & e1 & e0 & E & He1 & He0 & F).
  destruct (last hs) as [h|] eqn:Hl; [|by apply last_None in Hl].
  exists (mk_lfs (set_old_clients 0 (set_lh_n 0 l)) b' dp), h. split; [exact E|]. split; [done|].
  assert ((lg_dev l, lg_start l + lg_size l) ∉ map (pair (lg_dev l)) hs) as Hni.
  { rewrite list_elem_of_In, in_map_iff. intros (x & [= Ex] & Hx).
    rewrite <- list_elem_of_In in Hx. apply (G5 x Hx). lia. }
  split; [done|]. simpl. rewrite (ef_disk _ _ _ _ F), disk_apply_writes, !over_app. simpl.
  rewrite last_lookup in Hl. pose proof (lookup_lt_Some _ _ _ Hl) as Hlt.
  assert (0 < Z.of_nat (length hs)) by lia.
  rewrite decide_False by (intros [= ?]; lia). rewrite over_new_blocks, decide_False by done.
  rewrite decide_False by (intros [= ?]; lia).
  rewrite <- (over_slot_writes l 0 (view b) (disk_block (disk b)) hs (pred (length hs)) h)
    by (done || lia).
  rewrite log_slot_eq by lia. do 2 f_equal. lia.
Qed.

(** ** Witnesses: a transaction on block 40 *)

Lemma uniq_of_nodup bs : NoDup (map b_key (filter (fun b => b_dev b <> 0) bs)) -> uniq_keys bs.
Proof.
  intros Hnd b c Hb Hc E Hg. unfold good in Hg. simpl in Hg.
  assert (b ∈ filter (fun b => b_dev b <> 0) bs) as Hb' by by apply list_elem_of_filter.
  assert (c ∈ filter (fun b => b_dev b <> 0) bs) as Hc'.
  { apply list_elem_of_filter. split; [|done]. injection E as E _. congruence. }
  apply list_elem_of_lookup in Hb' as [i Hi]. apply list_elem_of_lookup in Hc' as [j Hj].
  assert (i = j) as ->.
  { eapply NoDup_lookup; [exact Hnd|..]; rewrite list_lookup_fmap.
    - by rewrite Hi.
    - by rewrite Hj, E. }
  congruence.
Qed.

Lemma calm_of dev b :
  bio_inv b -> bio_clean b -> 2 <= spare b -> dev <> 0 ->
  Forall (fun c => b_locked c = false) (buf_list b) ->
  Forall (fun c => b_refcnt c < 2 ^ 32 - 1) (buf_list b) -> calm dev b.
Proof.
  intros Hi Hc Hs Hd Hl Hr. rewrite Forall_forall in Hl, Hr.
  constructor; try done; intros n; [unfold lockd|unfold refs];
    destruct (by_key (dev, n) (buf_list b)) as [c|] eqn:E; try done;
    apply by_key_Some in E as [Hin _]; try done; try apply Hi; auto.
Qed.

Definition mounted_with (nlog : Z) : lfs :=
  ran (log_init (Z.eqb 1) false 1 (mk_log_sb nlog 2)) unmounted.

(** A process writes to block 40 in a transaction and ends it. *)
Definition transaction : ST lfs unit :=
  log_begin_fs_transaction_explicit 5 1 1;;
  id ← on_bio (bio_read (Z.eqb 1) 1 40);
  on_bio (modify_buf id (set_data (replicate 1024 7)));;
  log_write 5 id;;
  on_bio (bio_release id);;
  _ ← log_end_locked 5;
  mret tt.

Definition before_commit (nlog : Z) : lfs := ran transaction (mounted_with nlog).

Ltac by_decide := apply (bool_decide_unpack _); vm_compute; exact I.

Lemma before_commit_inv nlog :
  nlog = 1 \/ nlog = 12 -> bio_inv (l_bio (before_commit nlog)).
Proof.
  intros [-> | ->]; constructor;
    try match goal with |- uniq_keys _ => apply uniq_of_nodup end; by_decide.
Qed.

Lemma before_commit_ready nlog :
  nlog = 1 \/ nlog = 12 ->
  ready (Z.eqb 1) (l_log (before_commit nlog)) (l_bio (before_commit nlog)) [40].
Proof.
  intros Hn. assert (calm 1 (l_bio (before_commit nlog))) as Hc.
  { apply calm_of; [by apply before_commit_inv|..|done| |]; destruct Hn as [-> | ->]; by_decide. }
  assert (lg_dev (l_log (before_commit nlog)) = 1 /\ lg_start (l_log (before_commit nlog)) = 2 /\
          lh_n (l_log (before_commit nlog)) = 1 /\
          take 1 (lh_block (l_log (before_commit nlog))) = [40] /\
          refs (l_bio (before_commit nlog)) (1, 40) = 1) as (E1 & E2 & E3 & E4 & E5).
  { destruct Hn as [-> | ->]; vm_compute; auto. }
  clear Hn. revert Hc E1 E2 E3 E4 E5. generalize (before_commit nlog) as s.
  intros s Hc E1 E2 E3 E4 E5. constructor; rewrite ?E1, ?E3; try done.
  - constructor; rewrite ?E1, ?E2; simpl; try done. intros h ->%list_elem_of_singleton. lia.
  - apply NoDup_singleton.
  - by repeat constructor.
  - intros h ->%list_elem_of_singleton. by rewrite E5.
Qed.

Lemma before_commit_head nlog :
  nlog = 1 \/ nlog = 12 ->
  lg_dev (l_log (before_commit nlog)) = 1 /\ lg_start (l_log (before_commit nlog)) = 2 /\
  lg_size (l_log (before_commit nlog)) = nlog /\ lh_n (l_log (before_commit nlog)) = 1 /\
  get_u32 0 (disk_block (disk (l_bio (before_commit nlog))) (1, 2)) = Some 0.
Proof. intros [-> | ->]; vm_compute; auto. Qed.

Lemma commit_crash_atomic_witness :
  let s := before_commit 12 in
  exists s' ws, commit (Z.eqb 1) (mk_lfs (l_log s) (l_bio s) (l_depth s)) = Ret (tt, s') /\
    writes (l_bio s') = writes (l_bio s) ++ ws.
Proof.
  intros s. destruct (before_commit_head 12 (or_intror eq_refl)) as (E1 & E2 & E3 & E4 & E5).
  fold s in E1, E2, E3, E4, E5.
  destruct (commit_crash_atomic (Z.eqb 1) (l_log s) (l_bio s) (l_depth s) [40]
    (before_commit_ready 12 (or_intror eq_refl)) ltac:(discriminate) ltac:(rewrite E3; lia)
    ltac:(rewrite E2, E3; lia) ltac:(rewrite E3, E4; lia)
    ltac:(rewrite E1, E2; split; [exact E5|intros i h H; discriminate H]))
    as (s' & ws & H1 & H2 & _).
  exists s', ws. exact (conj H1 H2).
Defined.


Lemma commit_overruns_log_witness :
  let s := before_commit 1 in
  exists s' h, commit (Z.eqb 1) (mk_lfs (l_log s) (l_bio s) (l_depth s)) = Ret (tt, s') /\
    last [40] = Some h.
Proof.
  intros s. destruct (before_commit_head 1 (or_introl eq_refl)) as (E1 & E2 & E3 & E4 & E5).
  fold s in E1, E2, E3, E4, E5.
  destruct (commit_overruns_log (Z.eqb 1) (l_log s) (l_bio s) (l_depth s) [40]
    (before_commit_ready 1 (or_introl eq_refl)) ltac:(discriminate) ltac:(congruence))
    as (s' & h & H1 & H2 & _).
  exists s', h. exact (conj H1 H2).
Defined.
