(* ===== verification/Buddy.v ===== *)
(** * The physical page allocator (kernel/mm/kalloc.c)

    The buddy allocator of [g_kernel_memory]: a free list per order, the
    counter of allocated pages and the contents of memory as 64-bit words.
    Addresses are integers, NULL is 0.  The links of the free lists are stored
    in the free pages; the model keeps the lists and leaves the contents of
    free pages alone. *)
From S2P Require Import Prelude.

Definition PAGE_SHIFT : Z := 12.
Definition PAGE_SIZE : Z := Z.shiftl 1 PAGE_SHIFT.
Definition PAGE_ROUND_UP (addr : Z) : Z :=
  Z.land (u64 (addr + PAGE_SIZE - 1)) (Z.lnot (PAGE_SIZE - 1)).
Definition PAGE_ROUND_DOWN (addr : Z) : Z := Z.land addr (Z.lnot (PAGE_SIZE - 1)).
Definition PAGE_ALLOC_MAX_ORDER : nat := 9.
Definition NULL : Z := 0.

Definition ALLOC_FLAG_NONE : Z := 0.
Definition ALLOC_FLAG_ZERO_MEMORY : Z := 1.

Record kernel_memory := mk_kmem {
  list_of_free_memory : list (list Z);
  pages_allocated : Z;
  mem : gmap Z Z
}.

(** The free list of an order. *)
Definition free_list (s : kernel_memory) (o : nat) : list Z :=
  default [] (list_of_free_memory s !! o).

Definition set_free_list (o : nat) (l : list Z) (s : kernel_memory) : kernel_memory :=
  mk_kmem (<[o := l]> (list_of_free_memory s)) (pages_allocated s) (mem s).

Definition add_allocated (n : Z) (s : kernel_memory) : kernel_memory :=
  mk_kmem (list_of_free_memory s) (u64 (pages_allocated s + n)) (mem s).

(** [list_add], [list_del] of the first entry is the tail. *)
Definition push_block (o : nat) (a : Z) (s : kernel_memory) : kernel_memory :=
  set_free_list o (a :: free_list s o) s.

(** [(1 << order) * PAGE_SIZE] *)
Definition block_size (o : nat) : Z := Z.shiftl 1 (Z.of_nat o) * PAGE_SIZE.

(** [__alloc_pages] for order [PAGE_ALLOC_MAX_ORDER + 1 - k]; at [k = 0] the
    order exceeds the maximum. *)
Fixpoint alloc_rec (k : nat) (s : kernel_memory) : Z * kernel_memory :=
  match k with
  | O => (NULL, s)
  | S k' =>
      let order := (PAGE_ALLOC_MAX_ORDER - k')%nat in
      match free_list s order with
      | memory_block :: rest => (memory_block, set_free_list order rest s)
      | [] =>
          let '(double_alloc, s') := alloc_rec k' s in
          if double_alloc =? NULL then (NULL, s')
          else (double_alloc, push_block order (double_alloc + block_size order) s')
      end
  end.

Definition __alloc_pages (flags : Z) (order : nat) (s : kernel_memory) : Z * kernel_memory :=
  if (PAGE_ALLOC_MAX_ORDER <? order)%nat then (NULL, s)
  else alloc_rec (S (PAGE_ALLOC_MAX_ORDER - order)) s.

(** The loop of [zero_pages], [n] iterations from word address [addr]. *)
Fixpoint zero_loop (n : nat) (addr : Z) (m : gmap Z Z) : gmap Z Z :=
  match n with
  | O => m
  | S n => zero_loop n (addr + 32)
             (<[addr + 24 := 0]> (<[addr + 16 := 0]> (<[addr + 8 := 0]> (<[addr := 0]> m))))
  end.

Definition zero_pages (addr page_count : Z) (s : kernel_memory) : kernel_memory :=
  mk_kmem (list_of_free_memory s) (pages_allocated s)
    (zero_loop (Z.to_nat (page_count * PAGE_SIZE / 32)) addr (mem s)).

Definition alloc_pages (flags : Z) (order : nat) (s : kernel_memory) : Z * kernel_memory :=
  let '(pages, s) := __alloc_pages flags order s in
  if pages =? NULL then (pages, s)
  else
    let s := if negb (Z.land flags ALLOC_FLAG_ZERO_MEMORY =? 0)
             then zero_pages pages (Z.shiftl 1 (Z.of_nat order)) s else s in
    (pages, add_allocated (Z.shiftl 1 (Z.of_nat order)) s).

Definition alloc_page (flags : Z) (s : kernel_memory) : Z * kernel_memory :=
  alloc_pages flags 0 s.

(** The search loop of [get_specific_page]: the list without the block, if it
    is there. *)
Fixpoint find_page (pa : Z) (l : list Z) : option (list Z) :=
  match l with
  | [] => None
  | block :: l =>
      if pa =? block then Some l
      else match find_page pa l with Some l' => Some (block :: l') | None => None end
  end.

Definition get_specific_page (pa : Z) (order : nat) (s : kernel_memory) : Z * kernel_memory :=
  if (PAGE_ALLOC_MAX_ORDER <? order)%nat then (NULL, s)
  else match find_page pa (free_list s order) with
       | Some l => (pa, set_free_list order l s)
       | None => (NULL, s)
       end.

(** [__free_pages] for order [PAGE_ALLOC_MAX_ORDER - k]. *)
Fixpoint free_rec (k : nat) (pa : Z) (s : kernel_memory) : kernel_memory :=
  let order := (PAGE_ALLOC_MAX_ORDER - k)%nat in
  match k with
  | O => push_block order pa s
  | S k =>
      let bit_pos := PAGE_SHIFT + Z.of_nat order in
      let mask := Z.shiftl 1 bit_pos in
      let buddy_address := Z.lxor pa mask in
      let '(buddy, s) := get_specific_page buddy_address order s in
      if negb (buddy =? NULL) then free_rec k (Z.min pa buddy) s
      else push_block order pa s
  end.

Definition __free_pages (pa : Z) (order : nat) (s : kernel_memory) : kernel_memory :=
  free_rec (PAGE_ALLOC_MAX_ORDER - order) pa s.

Definition free_pages (kva : Z) (order : nat) (s : kernel_memory) : res kernel_memory :=
  if (PAGE_ALLOC_MAX_ORDER <? order)%nat then Panic
  else Ret (add_allocated (- Z.shiftl 1 (Z.of_nat order)) (__free_pages kva order s)).

Definition free_page (kva : Z) (s : kernel_memory) : res kernel_memory := free_pages kva 0 s.

(** The loop of [free_pages_range] from page [i]. *)
Fixpoint free_range_loop (n : nat) (kva i : Z) (s : kernel_memory) : kernel_memory :=
  match n with
  | O => s
  | S n => free_range_loop n kva (i + 1) (__free_pages (kva + i * PAGE_SIZE) 0 s)
  end.

Definition free_pages_range (kva page_count : Z) (s : kernel_memory) : kernel_memory :=
  add_allocated (- page_count) (free_range_loop (Z.to_nat page_count) kva 0 s).

(** The inner loop of [kalloc_init_memory_region]: the order a page number is
    aligned to, from [order = PAGE_ALLOC_MAX_ORDER - k] on. *)
Fixpoint order_of (k : nat) (tmp : Z) : nat :=
  match k with
  | O => PAGE_ALLOC_MAX_ORDER
  | S k' =>
      if Z.land tmp 1 =? 0 then order_of k' (Z.shiftr tmp 1)
      else (PAGE_ALLOC_MAX_ORDER - k)%nat
  end.

Fixpoint init_region_loop (fuel : nat) (addr mem_end : Z) (s : kernel_memory)
    : res kernel_memory :=
  if addr <? mem_end then
    match fuel with
    | O => NoFuel
    | S fuel =>
        let order := order_of PAGE_ALLOC_MAX_ORDER (Z.shiftr addr PAGE_SHIFT) in
        let new_addr := addr + block_size order in
        if new_addr <=? mem_end
        then s ← free_pages addr order (add_allocated (Z.shiftl 1 (Z.of_nat order)) s);
             init_region_loop fuel (addr + block_size order) mem_end s
        else s ← free_pages addr 0 (add_allocated 1 s);
             init_region_loop fuel (addr + PAGE_SIZE) mem_end s
    end
  else Ret s.

(** Every iteration adds at least a page. *)
Definition kalloc_init_memory_region (mem_start mem_end : Z) (s : kernel_memory)
    : res kernel_memory :=
  init_region_loop (Z.to_nat ((mem_end - mem_start) / PAGE_SIZE + 1)) mem_start mem_end s.

Definition kalloc_get_allocation_count (s : kernel_memory) : Z := pages_allocated s.

(** The two loops of [kalloc_get_free_memory]. *)
Definition free_page_count (s : kernel_memory) : Z :=
  zsum (imap (fun i l => Z.of_nat (length l) * Z.shiftl 1 (Z.of_nat i)) (list_of_free_memory s)).

Definition kalloc_get_free_memory (s : kernel_memory) : Z := u64 (free_page_count s * PAGE_SIZE).

(** The page allocator as [kalloc_init] leaves it before the first region. *)
Definition kalloc_empty (m : gmap Z Z) : kernel_memory :=
  mk_kmem (replicate (S PAGE_ALLOC_MAX_ORDER) []) 0 m.

Definition kalloc_init (region_start region_size : Z) (m : gmap Z Z) : res kernel_memory :=
  kalloc_init_memory_region region_start (region_start + region_size) (kalloc_empty m).

Definition next_power_of_two (v : Z) : Z :=
  let v := u64 (v - 1) in
  let v := Z.lor v (Z.shiftr v 1) in
  let v := Z.lor v (Z.shiftr v 2) in
  let v := Z.lor v (Z.shiftr v 4) in
  let v := Z.lor v (Z.shiftr v 8) in
  let v := Z.lor v (Z.shiftr v 16) in
  let v := Z.lor v (Z.shiftr v 32) in
  u64 (v + 1).

(** ** Blocks *)

Definition covers (o : nat) (a x : Z) : Prop := a <= x < a + block_size o.

#[global] Instance covers_dec o a x : Decision (covers o a x).
Proof. unfold covers. apply _. Defined.

Definition aligned (o : nat) (a : Z) : Prop := (block_size o | a).

(** The address is free memory. *)
Definition free_at (s : kernel_memory) (x : Z) : Prop :=
  exists o a, a ∈ free_list s o /\ covers o a x.

Definition buddy_of (o : nat) (a : Z) : Z := Z.lxor a (Z.shiftl 1 (PAGE_SHIFT + Z.of_nat o)).

(** The free blocks are aligned to their size, do not overlap, and no two
    buddies are free: everything that can be merged is merged. *)
Record buddy_inv (s : kernel_memory) : Prop := {
  bi_orders : length (list_of_free_memory s) = S PAGE_ALLOC_MAX_ORDER;
  bi_block o a : a ∈ free_list s o -> 0 < a /\ aligned o a;
  bi_nodup o : NoDup (free_list s o);
  bi_disjoint o a o' a' x : a ∈ free_list s o -> a' ∈ free_list s o' ->
    covers o a x -> covers o' a' x -> o = o' /\ a = a';
  bi_merged o a : (o < PAGE_ALLOC_MAX_ORDER)%nat ->
    a ∈ free_list s o -> buddy_of o a ∉ free_list s o
}.

Lemma block_size_eq o : block_size o = 2 ^ (12 + Z.of_nat o).
Proof.
  unfold block_size, PAGE_SIZE, PAGE_SHIFT. rewrite !Z.shiftl_1_l, <- Z.pow_add_r by lia.
  f_equal. lia.
Qed.

Lemma block_size_pos o : 0 < block_size o.
Proof. rewrite block_size_eq. apply Z.pow_pos_nonneg; lia. Qed.

Lemma block_size_S o : block_size (S o) = 2 * block_size o.
Proof.
  rewrite !block_size_eq, <- Z.pow_succ_r by lia. f_equal. lia.
Qed.

Lemma block_size_le o o' :
  (o <= o')%nat -> block_size o' = block_size o * 2 ^ (Z.of_nat o' - Z.of_nat o).
Proof. intros H. rewrite !block_size_eq, <- Z.pow_add_r by lia. f_equal. lia. Qed.

(** An aligned block is the set of addresses with its block number. *)
Lemma covers_div o a x : aligned o a -> covers o a x <-> x / block_size o = a / block_size o.
Proof.
  intros [q ->]. unfold covers. pose proof (block_size_pos o).
  rewrite Z.div_mul by lia. split; intros Hx.
  - symmetry. apply (Z.div_unique _ _ _ (x - q * block_size o)); lia.
  - pose proof (Z.mod_pos_bound x (block_size o)). pose proof (Z.div_mod x (block_size o)). nia.
Qed.

Lemma aligned_le o o' a : (o <= o')%nat -> aligned o' a -> aligned o a.
Proof.
  intros H [q ->]. rewrite (block_size_le o o') by done.
  exists (q * 2 ^ (Z.of_nat o' - Z.of_nat o)). lia.
Qed.

(** Aligned blocks are nested or disjoint. *)
Lemma covers_nested o a o' a' x :
  (o <= o')%nat -> aligned o a -> aligned o' a' -> covers o a x -> covers o' a' x ->
  forall y, covers o a y -> covers o' a' y.
Proof.
  intros H A A' Hx Hx' y Hy. rewrite covers_div in * by done.
  pose proof (block_size_pos o). rewrite (block_size_le o o') in * by done.
  assert (0 < 2 ^ (Z.of_nat o' - Z.of_nat o)) by (apply Z.pow_pos_nonneg; lia).
  rewrite <- Z.div_div in * by lia. rewrite Hy, <- Hx. done.
Qed.

Lemma covers_self o a : covers o a a.
Proof. unfold covers. pose proof (block_size_pos o). lia. Qed.

Lemma covers_eq o a a' x : aligned o a -> aligned o a' -> covers o a x -> covers o a' x -> a = a'.
Proof.
  intros A A' Hx Hx'. rewrite covers_div in * by done. rewrite Hx in Hx'.
  destruct A as [q ->], A' as [q' ->]. pose proof (block_size_pos o).
  rewrite !Z.div_mul in Hx' by lia. by rewrite Hx'.
Qed.

Lemma lxor_1 q : Z.lxor q 1 = if Z.even q then q + 1 else q - 1.
Proof.
  destruct (Z.even q) eqn:E.
  - symmetry. apply Z.add_nocarry_lxor. rewrite land_1.
    rewrite Zmod_even, E. done.
  - assert (Z.even (q - 1) = true) as E' by (by rewrite Z.even_sub, E).
    assert (q = Z.lxor (q - 1) 1) as Eq.
    { rewrite <- Z.add_nocarry_lxor; [lia|]. rewrite land_1, Zmod_even, E'. done. }
    rewrite Eq at 1. rewrite Z.lxor_assoc, Z.lxor_nilpotent, Z.lxor_0_r. done.
Qed.

(** The buddy of an aligned block is the other half of the block of the next
    order. *)
Lemma buddy_of_aligned o a :
  aligned o a ->
  buddy_of o a = if Z.even (a / block_size o) then a + block_size o else a - block_size o.
Proof.
  intros [q ->]. pose proof (block_size_pos o). rewrite Z.div_mul by lia.
  unfold buddy_of, PAGE_SHIFT.
  replace (q * block_size o) with (Z.shiftl q (12 + Z.of_nat o))
    by (by rewrite Z.shiftl_mul_pow2, block_size_eq by lia).
  rewrite <- Z.shiftl_lxor, lxor_1, !Z.shiftl_mul_pow2, <- !block_size_eq by lia.
  destruct (Z.even q); lia.
Qed.

Lemma buddy_involutive o a : buddy_of o (buddy_of o a) = a.
Proof. unfold buddy_of. by rewrite Z.lxor_assoc, Z.lxor_nilpotent, Z.lxor_0_r. Qed.

Lemma buddy_facts o a :
  0 < a -> aligned o a -> 0 < Z.min a (buddy_of o a) \/ buddy_of o a = 0.
Proof.
  intros Hp A. rewrite buddy_of_aligned by done. pose proof (block_size_pos o).
  destruct A as [q ->]. rewrite Z.div_mul by lia.
  destruct (Z.even q) eqn:E; [left; lia|].
  assert (0 < q) by nia. destruct (Z.eq_dec q 1) as [->|]; [right; lia|left; nia].
Qed.

Lemma buddy_parent o a :
  aligned o a ->
  aligned (S o) (Z.min a (buddy_of o a)) /\ aligned o (buddy_of o a) /\
  forall x, covers (S o) (Z.min a (buddy_of o a)) x <->
            covers o a x \/ covers o (buddy_of o a) x.
Proof.
  intros A. rewrite buddy_of_aligned by done. pose proof (block_size_pos o).
  pose proof (block_size_S o) as ES. destruct A as [q ->]. rewrite Z.div_mul by lia.
  unfold aligned, covers. rewrite ES. destruct (Z.even q) eqn:E.
  - apply Z.even_spec in E as [r ->]. split_and!.
    + exists r. lia.
    + exists (2 * r + 1). lia.
    + intros x. lia.
  - assert (Z.odd q = true) as O by (by rewrite <- Z.negb_even, E).
    apply Z.odd_spec in O as [r ->]. split_and!.
    + exists r. lia.
    + exists (2 * r). lia.
    + intros x. lia.
Qed.

(** ** Changing one free list *)

Lemma free_list_set s o l o' :
  length (list_of_free_memory s) = S PAGE_ALLOC_MAX_ORDER -> (o <= PAGE_ALLOC_MAX_ORDER)%nat ->
  free_list (set_free_list o l s) o' = if decide (o = o') then l else free_list s o'.
Proof.
  intros HL Ho. unfold free_list. simpl. destruct (decide (o = o')) as [->|Hne].
  - by rewrite list_lookup_insert_eq by (rewrite HL; lia).
  - by rewrite list_lookup_insert_ne.
Qed.

Lemma zsum_imap_insert {A} (f : nat -> A -> Z) L i x y :
  L !! i = Some x ->
  zsum (imap f (<[i := y]> L)) = zsum (imap f L) - f i x + f i y.
Proof.
  revert f i. induction L as [|z L IH]; intros f [|i] E; simplify_eq/=.
  - unfold zsum. simpl. lia.
  - pose proof (IH (fun n => f (S n)) i E) as H. unfold zsum in *. simpl in *.
    unfold compose in *. lia.
Qed.

Lemma page_count_set s o l :
  length (list_of_free_memory s) = S PAGE_ALLOC_MAX_ORDER -> (o <= PAGE_ALLOC_MAX_ORDER)%nat ->
  free_page_count (set_free_list o l s) =
  free_page_count s + (Z.of_nat (length l) - Z.of_nat (length (free_list s o))) * 2 ^ Z.of_nat o.
Proof.
  intros HL Ho. unfold free_page_count, free_list. simpl.
  destruct (lookup_lt_is_Some_2 (list_of_free_memory s) o) as [x Hx]; [rewrite HL; lia|].
  rewrite (zsum_imap_insert _ _ _ x) by done. rewrite Hx. simpl. rewrite Z.shiftl_1_l. lia.
Qed.

(** [s'] is [s] without the free block [a] of order [o]. *)
Record removed (s s' : kernel_memory) (o : nat) (a : Z) : Prop := {
  rm_inv : buddy_inv s';
  rm_free x : free_at s' x <-> free_at s x /\ ~ covers o a x;
  rm_lists o' : o' <> o -> free_list s' o' = free_list s o';
  rm_list a' : a' ∈ free_list s' o <-> a' ∈ free_list s o /\ a' <> a;
  rm_count : free_page_count s' = free_page_count s - 2 ^ Z.of_nat o;
  rm_alloc : pages_allocated s' = pages_allocated s;
  rm_mem : mem s' = mem s
}.

Lemma order_bound s o a : buddy_inv s -> a ∈ free_list s o -> (o <= PAGE_ALLOC_MAX_ORDER)%nat.
Proof.
  intros Hi Ha. unfold free_list in Ha. destruct (_ !! o) eqn:E.
  - apply lookup_lt_Some in E. rewrite (bi_orders _ Hi) in E. lia.
  - by apply not_elem_of_nil in Ha.
Qed.

Lemma remove_block s o a l :
  buddy_inv s -> (o <= PAGE_ALLOC_MAX_ORDER)%nat -> free_list s o ≡ₚ a :: l ->
  removed s (set_free_list o l s) o a.
Proof.
  intros Hi Ho Hp. pose proof (bi_orders _ Hi) as HL.
  pose proof (bi_nodup _ Hi o) as Hnd. rewrite Hp in Hnd. apply NoDup_cons in Hnd as [Hna Hnd].
  assert (a ∈ free_list s o) as Ha by (rewrite Hp; by apply elem_of_cons; left).
  assert (forall o' a', a' ∈ free_list (set_free_list o l s) o' <->
            a' ∈ free_list s o' /\ ~ (o' = o /\ a' = a)) as Hel.
  { intros o' a'. rewrite free_list_set by done. case_decide as E; [subst o'|].
    - rewrite Hp, elem_of_cons. split; [intros H|intros [[->|H] N]; tauto].
      split; [by right|]. intros [_ ->]. done.
    - split; [|tauto]. intros H. split; [done|]. intros [-> _]. done. }
  constructor.
  - destruct Hi. constructor.
    + simpl. by rewrite length_insert.
    + intros o' a' [H _]%Hel. by apply bi_block0.
    + intros o'. rewrite free_list_set by done. by case_decide.
    + intros o1 a1 o2 a2 x [H1 _]%Hel [H2 _]%Hel. by apply bi_disjoint0.
    + intros o' a' Hlt [H _]%Hel [H2 _]%Hel. by apply (bi_merged0 o' a').
  - intros x. split.
    + intros (o' & a' & [H N]%Hel & Hc). split; [by exists o', a'|]. intros Hc'.
      apply N. by apply (bi_disjoint _ Hi o' a' o a x).
    + intros [(o' & a' & H & Hc) N]. exists o', a'. split; [|done]. apply Hel.
      split; [done|]. intros [-> ->]. done.
  - intros o' Hne. rewrite free_list_set by done. by rewrite decide_False.
  - intros a'. rewrite Hel. split; intros [H N]; (split; [done|]).
    + intros ->. by apply N.
    + by intros [_ ?].
  - rewrite page_count_set by done. apply Permutation_length in Hp. rewrite Hp. simpl. lia.
  - done.
  - done.
Qed.

Lemma push_block_spec s o a :
  buddy_inv s -> (o <= PAGE_ALLOC_MAX_ORDER)%nat -> 0 < a -> aligned o a ->
  (forall x, covers o a x -> ~ free_at s x) ->
  ((o < PAGE_ALLOC_MAX_ORDER)%nat -> buddy_of o a ∉ free_list s o) ->
  buddy_inv (push_block o a s) /\
  (forall x, free_at (push_block o a s) x <-> free_at s x \/ covers o a x) /\
  free_page_count (push_block o a s) = free_page_count s + 2 ^ Z.of_nat o.
Proof.
  intros Hi Ho Hpos Hal Hfree Hb. pose proof (bi_orders _ Hi) as HL. unfold push_block.
  assert (forall o' a', a' ∈ free_list (set_free_list o (a :: free_list s o) s) o' <->
            a' ∈ free_list s o' \/ (o' = o /\ a' = a)) as Hel.
  { intros o' a'. rewrite free_list_set by done. case_decide; [subst|].
    - rewrite elem_of_cons. split; [intros [->|]; auto|intros [|[_ ->]]; auto].
    - split; [auto|]. intros [|[-> _]]; done. }
  assert (a ∉ free_list s o) as Hna.
  { intros Hin. apply (Hfree a (covers_self o a)). exists o, a. split; [done|apply covers_self]. }
  split_and!.
  - pose proof Hi as []. constructor.
    + simpl. by rewrite length_insert.
    + intros o' a' [H|[-> ->]]%Hel; [by apply bi_block0|done].
    + intros o'. rewrite free_list_set by done. case_decide; [|done].
      apply NoDup_cons. split; [done|apply bi_nodup0].
    + intros o1 a1 o2 a2 x [H1|[-> ->]]%Hel [H2|[-> ->]]%Hel C1 C2.
      * by apply (bi_disjoint0 o1 a1 o2 a2 x).
      * destruct (Hfree x C2). by exists o1, a1.
      * destruct (Hfree x C1). by exists o2, a2.
      * done.
    + intros o' a' Hlt [H|[-> ->]]%Hel [H2|[E1 E2]]%Hel.
      * by apply (bi_merged0 o' a').
      * subst o'. apply Hb; [done|]. rewrite <- E2. by rewrite buddy_involutive.
      * by apply Hb.
      * assert (a = buddy_of o a) as E by done. rewrite buddy_of_aligned in E by done.
        pose proof (block_size_pos o). destruct (Z.even _); lia.
  - intros x. split.
    + intros (o' & a' & [H|[-> ->]]%Hel & Hc); [left; by exists o', a'|by right].
    + intros [(o' & a' & H & Hc)|Hc].
      * exists o', a'. split; [apply Hel; by left|done].
      * exists o, a. split; [apply Hel; by right|done].
  - rewrite page_count_set by done. simpl length. lia.
Qed.

(** ** Allocation *)

(** What [__alloc_pages] of order [o] does. *)
Definition allocated (s : kernel_memory) (o : nat) (r : Z * kernel_memory) : Prop :=
  let '(a, s') := r in
  buddy_inv s' /\ pages_allocated s' = pages_allocated s /\ mem s' = mem s /\
  (forall o', (o' < o)%nat -> free_list s' o' = free_list s o') /\
  if a =? NULL then s' = s /\ (forall o', (o <= o')%nat -> free_list s o' = [])
  else
    0 < a /\ aligned o a /\ (forall x, covers o a x -> free_at s x) /\
    (forall x, free_at s' x <-> free_at s x /\ ~ covers o a x) /\
    free_page_count s' = free_page_count s - 2 ^ Z.of_nat o.

Lemma alloc_rec_spec k s :
  (k <= S PAGE_ALLOC_MAX_ORDER)%nat -> buddy_inv s ->
  allocated s (S PAGE_ALLOC_MAX_ORDER - k) (alloc_rec k s).
Proof.
  revert s. induction k as [|k IH]; intros s Hk Hi.
  { simpl alloc_rec. unfold allocated. rewrite Z.eqb_refl. split_and!; try done.
    intros o' Ho'. unfold free_list. rewrite lookup_ge_None_2; [done|].
    rewrite (bi_orders _ Hi). lia. }
  cbn [alloc_rec]. set (o := (PAGE_ALLOC_MAX_ORDER - k)%nat).
  assert (o = (PAGE_ALLOC_MAX_ORDER - k)%nat) as Eo by done. clearbody o.
  replace (S PAGE_ALLOC_MAX_ORDER - S k)%nat with o by lia.
  assert (o <= PAGE_ALLOC_MAX_ORDER)%nat as Ho by lia.
  destruct (free_list s o) as [|a l] eqn:Hl.
  - specialize (IH s ltac:(lia) Hi). destruct (alloc_rec k s) as [d s1].
    replace (S PAGE_ALLOC_MAX_ORDER - k)%nat with (S o) in IH by lia.
    destruct IH as (Hi1 & P1 & M1 & L1 & IH). destruct (d =? NULL) eqn:Hd.
    + destruct IH as [-> IH]. unfold allocated. rewrite Z.eqb_refl. split_and!; try done.
      intros o' Ho'. destruct (decide (o' = o)) as [->|]; [done|]. apply IH. lia.
    + destruct IH as (Dp & Da & Df & Dx & Dc). pose proof (block_size_pos o) as Hbs.
      pose proof (block_size_S o) as HS.
      assert (aligned o (d + block_size o)) as Ha2.
      { destruct (aligned_le o (S o) d ltac:(lia) Da) as [q ->]. exists (q + 1). lia. }
      destruct (push_block_spec s1 o (d + block_size o)) as (Hi2 & F2 & C2); try done; [lia| | |].
      { intros x Hx Hf. apply Dx in Hf as [_ N]. apply N. unfold covers in *. lia. }
      { intros _ Hin. rewrite L1 in Hin by lia. rewrite Hl in Hin. by apply not_elem_of_nil in Hin. }
      unfold allocated. rewrite Hd. split; [done|]. split; [done|]. split; [done|]. split.
      { intros o' Ho'. unfold push_block. rewrite free_list_set by (done || apply Hi1).
        rewrite decide_False by lia. apply L1. lia. }
      split; [done|]. split; [by eapply (aligned_le o (S o)); [lia|]|].
      split; [|split].
      * intros x Hx. apply Df. unfold covers in *. lia.
      * intros x. rewrite F2, Dx. unfold covers in *. split.
        -- intros [[H N]|H]; [split; [done|lia]|]. split; [apply Df; lia|lia].
        -- intros [H N]. destruct (decide (d <= x < d + block_size (S o))); [right; lia|].
           by left.
      * rewrite C2, Dc. replace (Z.of_nat (S o)) with (Z.of_nat o + 1) by lia.
        rewrite Z.pow_add_r by lia. lia.
  - assert (a ∈ free_list s o) as Hin by (rewrite Hl; by apply elem_of_cons; left).
    destruct (bi_block _ Hi o a Hin) as [Hp Ha].
    destruct (remove_block s o a l Hi Ho) as [R1 R2 R3 R4 R5 R6 R7]; [by rewrite Hl|].
    unfold allocated. rewrite (proj2 (Z.eqb_neq a NULL)) by (unfold NULL; lia).
    split; [done|]. split; [done|]. split; [done|]. split; [intros o' Ho'; apply R3; lia|].
    split; [done|]. split; [done|]. split; [|done]. intros x Hx. by exists o, a.
Qed.

Lemma __alloc_pages_spec flags o s :
  buddy_inv s -> allocated s o (__alloc_pages flags o s).
Proof.
  intros Hi. unfold __alloc_pages. destruct (Nat.ltb_spec PAGE_ALLOC_MAX_ORDER o).
  - unfold allocated. rewrite Z.eqb_refl. split_and!; try done.
    intros o' Ho'. unfold free_list. rewrite lookup_ge_None_2; [done|].
    rewrite (bi_orders _ Hi). lia.
  - pose proof (alloc_rec_spec (S (PAGE_ALLOC_MAX_ORDER - o)) s ltac:(lia) Hi) as H1.
    by replace (S PAGE_ALLOC_MAX_ORDER - S (PAGE_ALLOC_MAX_ORDER - o))%nat with o in H1 by lia.
Qed.

(** ** Freeing *)

Lemma find_page_spec pa l :
  match find_page pa l with
  | Some l' => l ≡ₚ pa :: l'
  | None => pa ∉ l
  end.
Proof.
  induction l as [|b l IH]; simpl; [apply not_elem_of_nil|].
  destruct (Z.eqb_spec pa b) as [->|Hne]; [done|].
  destruct (find_page pa l) as [l'|].
  - rewrite IH. apply perm_swap.
  - by apply not_elem_of_cons.
Qed.

(** [s'] is [s] with the memory of block [a] of order [o] added. *)
Definition freed (s : kernel_memory) (o : nat) (a : Z) (s' : kernel_memory) : Prop :=
  buddy_inv s' /\ pages_allocated s' = pages_allocated s /\ mem s' = mem s /\
  (forall x, free_at s' x <-> free_at s x \/ covers o a x) /\
  free_page_count s' = free_page_count s + 2 ^ Z.of_nat o.

Lemma free_rec_spec k s a :
  let o := (PAGE_ALLOC_MAX_ORDER - k)%nat in
  (k <= PAGE_ALLOC_MAX_ORDER)%nat -> buddy_inv s -> 0 < a -> aligned o a ->
  (forall x, covers o a x -> ~ free_at s x) -> freed s o a (free_rec k a s).
Proof.
  revert s a. induction k as [|k IH]; intros s a o Hk Hi Hp Ha Hf.
  - destruct (push_block_spec s o a) as (H1 & H2 & H3);
      [done|unfold o; lia|done|done|done|unfold o; lia|done].
  - cbn [free_rec]. fold o. assert (o = (PAGE_ALLOC_MAX_ORDER - S k)%nat) as Eo by done.
    clearbody o. unfold get_specific_page. assert (o <= PAGE_ALLOC_MAX_ORDER)%nat by lia.
    destruct (Nat.ltb_spec PAGE_ALLOC_MAX_ORDER o); [lia|].
    pose proof (find_page_spec (buddy_of o a) (free_list s o)) as Hb.
    change (Z.lxor a (Z.shiftl 1 (PAGE_SHIFT + Z.of_nat o))) with (buddy_of o a).
    destruct (find_page (buddy_of o a) (free_list s o)) as [l|] eqn:El; cycle 1.
    { rewrite Z.eqb_refl. simpl negb. destruct (push_block_spec s o a) as (H1 & H2 & H3); done. }
    assert (buddy_of o a ∈ free_list s o) as Hin by (rewrite Hb; by apply elem_of_cons; left).
    destruct (bi_block _ Hi o _ Hin) as [Hbp Hba].
    rewrite (proj2 (Z.eqb_neq _ NULL)) by (unfold NULL; lia). simpl negb.
    destruct (remove_block s o (buddy_of o a) l Hi ltac:(lia) Hb) as [R1 R2 R3 R4 R5 R6 R7].
    destruct (buddy_parent o a Ha) as (P1 & P2 & P3).
    specialize (IH (set_free_list o l s) (Z.min a (buddy_of o a))). cbv zeta in IH.
    replace (PAGE_ALLOC_MAX_ORDER - k)%nat with (S o) in IH by lia.
    destruct IH as (I1 & I2 & I3 & I4 & I5); try done; [lia|lia| |].
    { intros x [Hx|Hx]%P3 [F N]%R2; [by apply (Hf x)|done]. }
    split_and!; try done.
    + intros x. rewrite I4, R2, P3. split; [|intros [Hx|Hx]].
      * intros [[Hx _]|[Hx|Hx]]; auto. left. by exists o, (buddy_of o a).
      * destruct (decide (covers o (buddy_of o a) x)); auto.
      * auto.
    + rewrite I5, R5. replace (Z.of_nat (S o)) with (Z.of_nat o + 1) by lia.
      rewrite Z.pow_add_r by lia. lia.
Qed.

(** ** Memory contents *)

Lemma zero_loop_lookup n addr m y :
  zero_loop n addr m !! y =
  if decide (addr <= y < addr + 32 * Z.of_nat n /\ (y - addr) mod 8 = 0) then Some 0 else m !! y.
Proof.
  revert addr m. induction n as [|n IH]; intros addr m.
  { simpl. rewrite decide_False by lia. done. }
  cbn [zero_loop]. rewrite IH. clear IH.
  replace ((y - (addr + 32)) mod 8) with ((y - addr) mod 8)
    by (Z.to_euclidean_division_equations; lia).
  destruct (decide (addr + 32 <= y \/ y < addr \/ (y - addr) mod 8 <> 0)) as [H|H].
  - rewrite !lookup_insert_ne by (Z.to_euclidean_division_equations; lia).
    destruct (decide _), (decide _); lia || done.
  - rewrite (decide_False (P := addr + 32 <= y < _ /\ _)) by lia.
    rewrite decide_True by lia.
    assert (y = addr \/ y = addr + 8 \/ y = addr + 16 \/ y = addr + 24) as Hy
      by (Z.to_euclidean_division_equations; lia).
    destruct Hy as [->|[->|[->| ->]]].
    + rewrite !lookup_insert_ne by lia. by rewrite lookup_insert_eq.
    + do 2 rewrite lookup_insert_ne by lia. by rewrite lookup_insert_eq.
    + rewrite lookup_insert_ne by lia. by rewrite lookup_insert_eq.
    + by rewrite lookup_insert_eq.
Qed.

(** ** Blocks of free memory are found *)

(** With all buddies merged, an aligned run of free memory lies in one free
    block. *)
Lemma merged_block s o b :
  buddy_inv s -> (o <= PAGE_ALLOC_MAX_ORDER)%nat -> aligned o b ->
  (forall x, covers o b x -> free_at s x) ->
  exists o' a, (o <= o')%nat /\ a ∈ free_list s o' /\ covers o' a b.
Proof.
  intros Hi. revert b. induction o as [|o IH]; intros b Ho Ha Hf.
  { destruct (Hf b (covers_self _ _)) as (o' & a & Hin & Hc). exists o', a. split; [lia|done]. }
  pose proof (block_size_S o) as HS. pose proof (block_size_pos o) as Hbs.
  pose proof (aligned_le o (S o) b ltac:(lia) Ha) as Ha0.
  assert (aligned o (b + block_size o)) as Ha2.
  { destruct Ha0 as [q ->]. exists (q + 1). lia. }
  destruct (IH b) as (o1 & a1 & L1 & I1 & C1); [lia|done| |].
  { intros x Hx. apply Hf. unfold covers in *. lia. }
  destruct (IH (b + block_size o)) as (o2 & a2 & L2 & I2 & C2); [lia|done| |].
  { intros x Hx. apply Hf. unfold covers in *. lia. }
  destruct (decide (S o <= o1)%nat); [by exists o1, a1|].
  destruct (decide (S o <= o2)%nat) as [G|].
  { exists o2, a2. split_and!; [done|done|].
    eapply (covers_nested (S o) b o2 a2); [done|done|by apply (bi_block _ Hi)| |done|apply covers_self].
    unfold covers. lia. }
  assert (o1 = o) as -> by lia. assert (o2 = o) as -> by lia.
  assert (a1 = b) as ->.
  { eapply covers_eq; [by apply (bi_block _ Hi)|done|done|apply covers_self]. }
  assert (a2 = b + block_size o) as ->.
  { eapply covers_eq; [by apply (bi_block _ Hi)|done|done|apply covers_self]. }
  destruct (bi_merged _ Hi o b ltac:(lia) I1). rewrite buddy_of_aligned by done.
  destruct Ha as [q ->].
  replace (q * block_size (S o)) with (2 * q * block_size o) in * by lia.
  rewrite Z.div_mul, Z.even_mul by lia. change (Z.even 2) with true. cbn [orb]. exact I2.
Qed.

(** ** Regions *)

Lemma order_of_spec k tmp :
  (k <= PAGE_ALLOC_MAX_ORDER)%nat ->
  (PAGE_ALLOC_MAX_ORDER - k <= order_of k tmp <= PAGE_ALLOC_MAX_ORDER)%nat /\
  (2 ^ Z.of_nat (order_of k tmp - (PAGE_ALLOC_MAX_ORDER - k)) | tmp).
Proof.
  revert tmp. induction k as [|k IH]; intros tmp Hk.
  - cbn [order_of]. split; [lia|]. replace (_ - (_ - 0))%nat with 0%nat by lia. apply Z.divide_1_l.
  - cbn [order_of]. destruct (Z.eqb_spec (Z.land tmp 1) 0) as [E|E].
    + destruct (IH (Z.shiftr tmp 1)) as [H1 [q Hq]]; [lia|]. split; [lia|].
      set (o := order_of k (Z.shiftr tmp 1)) in *. clearbody o.
      rewrite land_1 in E. rewrite Z.shiftr_div_pow2 in Hq by lia. change (2 ^ 1) with 2 in Hq.
      replace (o - (PAGE_ALLOC_MAX_ORDER - S k))%nat
        with (S (o - (PAGE_ALLOC_MAX_ORDER - k)))%nat by lia.
      rewrite Nat2Z.inj_succ, Z.pow_succ_r by lia. exists q.
      pose proof (Z.div_mod tmp 2 ltac:(lia)) as Hdm. rewrite E, Hq in Hdm. lia.
    + split; [lia|]. rewrite Nat.sub_diag. apply Z.divide_1_l.
Qed.

Lemma order_of_addr addr :
  aligned 0 addr ->
  let o := order_of PAGE_ALLOC_MAX_ORDER (Z.shiftr addr PAGE_SHIFT) in
  (o <= PAGE_ALLOC_MAX_ORDER)%nat /\ aligned o addr.
Proof.
  intros [q ->] o. change (block_size 0) with 4096 in *.
  destruct (order_of_spec PAGE_ALLOC_MAX_ORDER (Z.shiftr (q * 4096) PAGE_SHIFT)) as [H [r Hr]];
    [done|]. fold o in H, Hr. split; [lia|]. rewrite Nat.sub_diag, Nat.sub_0_r in Hr.
  rewrite Z.shiftr_div_pow2 in Hr by done. change (2 ^ PAGE_SHIFT) with 4096 in Hr.
  rewrite Z.div_mul in Hr by lia. rewrite Hr. exists r. rewrite block_size_eq, Z.pow_add_r by lia.
  change (2 ^ 12) with 4096. lia.
Qed.

Lemma add_allocated_facts n s :
  free_page_count (add_allocated n s) = free_page_count s /\
  (forall o, free_list (add_allocated n s) o = free_list s o) /\
  (forall x, free_at (add_allocated n s) x <-> free_at s x) /\
  (buddy_inv s -> buddy_inv (add_allocated n s)).
Proof. split_and!; try done. intros []. by constructor. Qed.

Lemma free_pages_run s o a :
  buddy_inv s -> (o <= PAGE_ALLOC_MAX_ORDER)%nat -> 0 < a -> aligned o a ->
  (forall x, covers o a x -> ~ free_at s x) ->
  exists s', free_pages a o s = Ret s' /\ buddy_inv s' /\ mem s' = mem s /\
    pages_allocated s' = u64 (pages_allocated s - 2 ^ Z.of_nat o) /\
    (forall x, free_at s' x <-> free_at s x \/ covers o a x) /\
    free_page_count s' = free_page_count s + 2 ^ Z.of_nat o.
Proof.
  intros Hi Ho Hp Ha Hf. unfold free_pages.
  destruct (Nat.ltb_spec PAGE_ALLOC_MAX_ORDER o); [lia|].
  pose proof (free_rec_spec (PAGE_ALLOC_MAX_ORDER - o) s a) as H1. cbv zeta in H1.
  replace (PAGE_ALLOC_MAX_ORDER - (PAGE_ALLOC_MAX_ORDER - o))%nat with o in H1 by lia.
  destruct H1 as (F1 & F2 & F3 & F4 & F5); [lia|done..|].
  eexists. split; [done|]. unfold __free_pages.
  destruct (add_allocated_facts (- Z.shiftl 1 (Z.of_nat o))
    (free_rec (PAGE_ALLOC_MAX_ORDER - o) a s)) as (A1 & A2 & A3 & A4).
  split_and!; [by apply A4|done| |done|by rewrite A1].
  unfold add_allocated. simpl. by rewrite F2, Z.shiftl_1_l.
Qed.

Lemma init_region_loop_spec fuel addr mem_end s :
  mem_end - addr <= Z.of_nat fuel * PAGE_SIZE -> addr <= mem_end -> 0 < addr ->
  aligned 0 addr -> aligned 0 mem_end -> buddy_inv s -> is_u 64 (pages_allocated s) ->
  (forall x, addr <= x < mem_end -> ~ free_at s x) ->
  exists s', init_region_loop fuel addr mem_end s = Ret s' /\ buddy_inv s' /\ mem s' = mem s /\
    pages_allocated s' = pages_allocated s /\
    (forall x, free_at s' x <-> free_at s x \/ addr <= x < mem_end) /\
    free_page_count s' = free_page_count s + (mem_end - addr) / PAGE_SIZE.
Proof.
  change PAGE_SIZE with 4096 in *. revert addr s.
  induction fuel as [|fuel IH]; intros addr s Hfu Hle Hp Ha He Hi Hu Hf; cbn [init_region_loop].
  { rewrite (proj2 (Z.ltb_ge _ _)) by lia. exists s. assert (addr = mem_end) as -> by lia.
    rewrite Z.sub_diag. split_and!; try done; [|rewrite Z.div_0_l; lia]. intros x. split; [auto|].
    intros [|]; [done|lia]. }
  destruct (Z.ltb_spec addr mem_end) as [Hlt|Hge]; cycle 1.
  { exists s. assert (addr = mem_end) as -> by lia. rewrite Z.sub_diag.
    split_and!; try done; [|rewrite Z.div_0_l; lia]. intros x. split; [auto|]. intros [|]; [done|lia]. }
  destruct (order_of_addr addr Ha) as [Ho Hao].
  set (o := order_of _ _) in *. clearbody o.
  assert (exists o', (o' <= PAGE_ALLOC_MAX_ORDER)%nat /\ aligned o' addr /\
            addr + block_size o' <= mem_end /\
            forall s1, (forall s2, free_pages addr o' (add_allocated (2 ^ Z.of_nat o') s) = Ret s2 ->
                         init_region_loop fuel (addr + block_size o') mem_end s2 = Ret s1) ->
              (exists s2, free_pages addr o' (add_allocated (2 ^ Z.of_nat o') s) = Ret s2) ->
              (if addr + block_size o <=? mem_end
               then s3 ← free_pages addr o (add_allocated (Z.shiftl 1 (Z.of_nat o)) s);
                    init_region_loop fuel (addr + block_size o) mem_end s3
               else s3 ← free_pages addr 0 (add_allocated 1 s);
                    init_region_loop fuel (addr + 4096) mem_end s3) = Ret s1)
    as (o' & Ho' & Ha' & Hend & Hrun).
  { destruct (Z.leb_spec (addr + block_size o) mem_end).
    - exists o. split_and!; try done. intros s1 H1 [s2 H2]. rewrite Z.shiftl_1_l, H2. by apply H1.
    - exists 0%nat. change (block_size 0) with 4096. split_and!; try done; [lia| |].
      + destruct Ha as [q ->], He as [r ->]. change (block_size 0) with 4096 in *. lia.
      + intros s1 H1 [s2 H2]. change (2 ^ Z.of_nat 0) with 1 in *. rewrite H2. by apply H1. }
  pose proof (block_size_pos o') as Hbs.
  destruct (add_allocated_facts (2 ^ Z.of_nat o') s) as (A1 & A2 & A3 & A4).
  destruct (free_pages_run (add_allocated (2 ^ Z.of_nat o') s) o' addr)
    as (s2 & E2 & I2 & M2 & P2 & F2 & C2); [by apply A4|done..| |].
  { intros x Hx Hfx. rewrite A3 in Hfx. apply (Hf x); [|done]. unfold covers in Hx. lia. }
  assert (pages_allocated s2 = pages_allocated s) as P2'.
  { rewrite P2. simpl. unfold uwrap. rewrite Zminus_mod_idemp_l.
    replace (_ + _ - _) with (pages_allocated s) by lia. by apply uwrap_id. }
  assert (aligned 0 (addr + block_size o')) as Ha2.
  { apply (aligned_le 0 o'); [lia|]. destruct Ha' as [q ->]. exists (q + 1). lia. }
  assert (4096 <= block_size o') as Hbs2.
  { rewrite block_size_eq. change 4096 with (2 ^ 12). apply Z.pow_le_mono_r; lia. }
  destruct (IH (addr + block_size o') s2) as (s1 & E1 & I1 & M1 & P1 & F1 & C1);
    [lia|lia|lia|done|done|done|by rewrite P2'| |].
  { intros x Hx [Hfx|Hfx]%F2; [|unfold covers in Hfx; lia]. rewrite A3 in Hfx.
    apply (Hf x); [lia|done]. }
  exists s1. split; [apply Hrun; [intros s3 E3; congruence|eauto]|].
  split; [done|]. split; [by rewrite M1, M2|]. split; [congruence|]. split.
  - intros x. rewrite F1, F2, A3. unfold covers. split; [intros [[|]|]; [auto|right; lia..]|].
    intros [|H]; [auto|]. destruct (decide (x < addr + block_size o')); [|right; lia].
    left. right. lia.
  - rewrite C1, C2, A1. replace (block_size o') with (2 ^ Z.of_nat o' * 4096) in *; cycle 1.
    { rewrite block_size_eq, Z.pow_add_r by lia. change (2 ^ 12) with 4096. lia. }
    replace (mem_end - (addr + 2 ^ Z.of_nat o' * 4096))
      with (mem_end - addr + (- 2 ^ Z.of_nat o') * 4096) by lia.
    rewrite Z.div_add by lia. lia.
Qed.

(** ** Ranges of single pages *)

Lemma free_range_loop_spec n kva i s :
  0 < kva + i * PAGE_SIZE -> aligned 0 kva -> buddy_inv s ->
  (forall x, kva + i * PAGE_SIZE <= x < kva + (i + Z.of_nat n) * PAGE_SIZE -> ~ free_at s x) ->
  let s' := free_range_loop n kva i s in
  buddy_inv s' /\ mem s' = mem s /\ pages_allocated s' = pages_allocated s /\
  (forall x, free_at s' x <-> free_at s x \/
     kva + i * PAGE_SIZE <= x < kva + (i + Z.of_nat n) * PAGE_SIZE) /\
  free_page_count s' = free_page_count s + Z.of_nat n.
Proof.
  change PAGE_SIZE with 4096. revert i s. induction n as [|n IH]; intros i s Hp Ha Hi Hf s'.
  { subst s'. cbn [free_range_loop]. change (Z.of_nat 0) with 0.
    split_and!; try done; [|lia]. intros x. split; [auto|].
    intros [|]; [done|lia]. }
  unfold s'. cbn [free_range_loop]. clear s'. set (a := kva + i * PAGE_SIZE).
  change PAGE_SIZE with 4096 in a.
  assert (aligned 0 a) as Haa.
  { destruct Ha as [q ->]. change (block_size 0) with 4096. exists (q + i). subst a.
    change (block_size 0) with 4096. lia. }
  assert (forall x, covers 0 a x <-> a <= x < a + 4096) as Hcov by done.
  destruct (free_rec_spec PAGE_ALLOC_MAX_ORDER s a) as (F1 & F2 & F3 & F4 & F5);
    [done|done|subst a; lia|done| |].
  { intros x Hx. apply Hf. pose proof (proj1 (Hcov x) Hx). subst a. lia. }
  destruct (IH (i + 1) (__free_pages a 0 s)) as (G1 & G2 & G3 & G4 & G5);
    [subst a; lia|done|exact F1| |].
  { intros x Hx Hfx. apply F4 in Hfx as [Hfx|Hfx]; [apply (Hf x); [lia|done]|].
    pose proof (proj1 (Hcov x) Hfx). subst a. lia. }
  split_and!; [done|by rewrite G2|by rewrite G3| |].
  - intros x. rewrite G4. unfold __free_pages. rewrite F4. rewrite Hcov. subst a. split.
    + intros [[|]|]; [auto|right; lia..].
    + intros [|H]; [auto|]. destruct (decide (x < kva + (i + 1) * 4096)); [left; right; lia|right; lia].
  - assert (free_page_count (__free_pages a 0 s) = free_page_count s + 1) as F5' by exact F5.
    lia.
Qed.

Lemma free_pages_range_run s kva n :
  buddy_inv s -> 0 < kva -> (PAGE_SIZE | kva) -> 0 <= n ->
  (forall x, kva <= x < kva + n * PAGE_SIZE -> ~ free_at s x) ->
  let s' := free_pages_range kva n s in
  buddy_inv s' /\ mem s' = mem s /\ pages_allocated s' = u64 (pages_allocated s - n) /\
  (forall x, free_at s' x <-> free_at s x \/ kva <= x < kva + n * PAGE_SIZE) /\
  free_page_count s' = free_page_count s + n.
Proof.
  intros Hi Hp Ha Hn Hf s'.
  destruct (free_range_loop_spec (Z.to_nat n) kva 0 s) as (L1 & L2 & L3 & L4 & L5); try done.
  - lia.
  - rewrite Z2Nat.id, Z.add_0_l, Z.mul_0_l, Z.add_0_r by lia. done.
  - rewrite Z2Nat.id, Z.add_0_l, Z.mul_0_l, Z.add_0_r in L4 by lia. rewrite Z2Nat.id in L5 by lia.
    destruct (add_allocated_facts (- n) (free_range_loop (Z.to_nat n) kva 0 s))
      as (A1 & A2 & A3 & A4).
    unfold s', free_pages_range. split_and!; [by apply A4|done| |done|by rewrite A1].
    unfold add_allocated. cbn [pages_allocated]. by rewrite L3.
Qed.

(** ** The bit trick of [next_power_of_two] *)

(** Bit [i] of [w] says whether [v] has a bit in the window of [m] bits from
    [i] on. *)
Definition window (v : Z) (m : Z) (w : Z) : Prop :=
  0 <= w /\ forall i, 0 <= i -> Z.testbit w i = true <-> exists j, 0 <= j < m /\ Z.testbit v (i + j) = true.

Lemma window_step v m w : 0 < m -> window v m w -> window v (2 * m) (Z.lor w (Z.shiftr w m)).
Proof.
  intros Hm [Hw H]. split.
  { apply Z.lor_nonneg. split; [done|]. by apply Z.shiftr_nonneg. }
  intros i Hi. rewrite Z.lor_spec, Z.shiftr_spec, orb_true_iff, !H by lia. split.
  - intros [(j & Hj & E)|(j & Hj & E)]; [exists j|exists (j + m)]; (split; [lia|]).
    + done.
    + by replace (i + (j + m)) with (i + m + j) by lia.
  - intros (j & Hj & E). destruct (decide (j < m)); [left; exists j; split; [lia|done]|].
    right. exists (j - m). split; [lia|]. by replace (i + m + (j - m)) with (i + j) by lia.
Qed.

Lemma window_full v w : 0 < v < 2 ^ 64 -> window v 64 w -> w + 1 = 2 ^ (Z.log2 v + 1).
Proof.
  intros Hv [Hw H]. pose proof (Z.log2_nonneg v).
  assert (Z.log2 v < 64) by (apply Z.log2_lt_pow2; lia).
  enough (w = Z.ones (Z.log2 v + 1)) as -> by (rewrite Z.ones_equiv; lia).
  apply Z.bits_inj'. intros i Hi. apply eq_true_iff_eq. rewrite H by done.
  rewrite Z.ones_spec_iff by lia. split.
  - intros (j & Hj & E). split; [done|]. destruct (decide (i < Z.log2 v + 1)); [done|].
    rewrite Z.bits_above_log2 in E; [done|lia..].
  - intros [_ Hlt]. exists (Z.log2 v - i). split; [lia|].
    replace (i + (Z.log2 v - i)) with (Z.log2 v) by lia. apply Z.bit_log2. lia.
Qed.

(** ** Properties *)

Lemma zero_pages_mem a o s y :
  mem (zero_pages a (Z.shiftl 1 (Z.of_nat o)) s) !! y =
  if decide (covers o a y /\ (y - a) mod 8 = 0) then Some 0 else mem s !! y.
Proof.
  unfold zero_pages. cbn [mem]. rewrite zero_loop_lookup, Z.shiftl_1_l.
  assert (a + 32 * Z.of_nat (Z.to_nat (2 ^ Z.of_nat o * PAGE_SIZE / 32)) = a + block_size o) as ->.
  { change PAGE_SIZE with 4096. replace (2 ^ Z.of_nat o * 4096) with (2 ^ Z.of_nat o * 128 * 32) by lia.
    rewrite Z.div_mul by lia. assert (0 < 2 ^ Z.of_nat o) by (apply Z.pow_pos_nonneg; lia).
    rewrite Z2Nat.id by lia. rewrite block_size_eq, Z.pow_add_r by lia.
    change (2 ^ 12) with 4096. lia. }
  unfold covers. repeat case_decide; tauto.
Qed.

Lemma alloc_pages_run flags o s :
  buddy_inv s -> (o <= PAGE_ALLOC_MAX_ORDER)%nat ->
  let '(a, s') := alloc_pages flags o s in
  buddy_inv s' /\
  if a =? NULL
  then s' = s /\ forall b, aligned o b -> ~ (forall x, covers o b x -> free_at s x)
  else
    aligned o a /\ (forall x, covers o a x -> free_at s x) /\
    (forall x, free_at s' x <-> free_at s x /\ ~ covers o a x) /\
    pages_allocated s' = u64 (pages_allocated s + 2 ^ Z.of_nat o) /\
    free_page_count s' = free_page_count s - 2 ^ Z.of_nat o /\
    forall x, mem s' !! x =
      if decide (Z.land flags ALLOC_FLAG_ZERO_MEMORY <> 0 /\ covers o a x /\ (x - a) mod 8 = 0)
      then Some 0 else mem s !! x.
Proof.
  intros Hi Ho. unfold alloc_pages. pose proof (__alloc_pages_spec flags o s Hi) as H.
  destruct (__alloc_pages flags o s) as [a s1]. destruct H as (I1 & P1 & M1 & _ & H).
  destruct (a =? NULL) eqn:Ha.
  - rewrite Ha. destruct H as [-> H]. split_and!; [done|done|]. intros b Hb Hf.
    destruct (merged_block s o b Hi Ho Hb Hf) as (o' & c & Hle & Hin & _).
    rewrite H in Hin by done. by apply not_elem_of_nil in Hin.
  - rewrite Ha. destruct H as (_ & Al & Fr & Fx & Fc).
    set (s2 := if negb _ then _ else s1).
    destruct (add_allocated_facts (Z.shiftl 1 (Z.of_nat o)) s2) as (A1 & A2 & A3 & A4).
    assert (buddy_inv s2 /\ (forall x, free_at s2 x <-> free_at s1 x) /\
            free_page_count s2 = free_page_count s1 /\
            pages_allocated s2 = pages_allocated s1) as (B1 & B2 & B3 & B4).
    { unfold s2. destruct (negb _); split_and!; try done. destruct I1. by constructor. }
    split; [by apply A4|]. split; [done|]. split; [done|]. split; [|split; [|split]].
    + intros x. by rewrite A3, B2.
    + unfold add_allocated. cbn [pages_allocated]. by rewrite B4, P1, Z.shiftl_1_l.
    + by rewrite A1, B3.
    + intros x. unfold add_allocated. cbn [mem]. unfold s2.
      destruct (Z.eqb_spec (Z.land flags ALLOC_FLAG_ZERO_MEMORY) 0) as [E|E]; cbn [negb].
      * rewrite decide_False by tauto. by rewrite M1.
      * rewrite zero_pages_mem, M1. repeat case_decide; tauto.
Qed.

(** C17: allocating [2^order] pages.  The result is an aligned block that was
    free; afterwards exactly that block is no longer free, the counters account
    for it, the block is zeroed if asked for and no memory outside of it is
    touched.  NULL is returned only if there is no aligned run of [2^order] free
    pages at all, and then nothing changes. *)
Theorem alloc_pages_spec flags o s :
  buddy_inv s -> (o <= PAGE_ALLOC_MAX_ORDER)%nat ->
  let '(a, s') := alloc_pages flags o s in
  buddy_inv s' /\
  if a =? NULL
  then s' = s /\ forall b, aligned o b -> ~ (forall x, covers o b x -> free_at s x)
  else
    aligned o a /\ (forall x, covers o a x -> free_at s x) /\
    (forall x, free_at s' x <-> free_at s x /\ ~ covers o a x) /\
    pages_allocated s' = u64 (pages_allocated s + 2 ^ Z.of_nat o) /\
    free_page_count s' = free_page_count s - 2 ^ Z.of_nat o /\
    forall x, mem s' !! x =
      if decide (Z.land flags ALLOC_FLAG_ZERO_MEMORY <> 0 /\ covers o a x /\ (x - a) mod 8 = 0)
      then Some 0 else mem s !! x.
Proof. apply alloc_pages_run. Qed.


(** Adding a region of whole pages to the allocator terminates and makes
    exactly that region free, in blocks that respect the invariant, without
    changing the count of allocated pages. *)
Theorem init_memory_region_spec s mem_start mem_end :
  buddy_inv s -> is_u 64 (pages_allocated s) -> 0 < mem_start <= mem_end ->
  (PAGE_SIZE | mem_start) -> (PAGE_SIZE | mem_end) ->
  (forall x, mem_start <= x < mem_end -> ~ free_at s x) ->
  exists s', kalloc_init_memory_region mem_start mem_end s = Ret s' /\ buddy_inv s' /\
    mem s' = mem s /\ pages_allocated s' = pages_allocated s /\
    (forall x, free_at s' x <-> free_at s x \/ mem_start <= x < mem_end) /\
    free_page_count s' = free_page_count s + (mem_end - mem_start) / PAGE_SIZE.
Proof.
  intros Hi Hu Hle Hs He Hf. apply init_region_loop_spec; try done; try lia.
  change PAGE_SIZE with 4096 in *. pose proof (Z.div_mod (mem_end - mem_start) 4096 ltac:(lia)).
  pose proof (Z.mod_pos_bound (mem_end - mem_start) 4096 ltac:(lia)).
  assert (0 <= (mem_end - mem_start) / 4096) by (apply Z.div_pos; lia).
  rewrite Z2Nat.id by lia. lia.
Qed.

(** Freeing a range of pages one by one is the same as freeing the whole
    range. *)
Theorem free_pages_range_spec s kva n :
  buddy_inv s -> 0 < kva -> (PAGE_SIZE | kva) -> 0 <= n ->
  (forall x, kva <= x < kva + n * PAGE_SIZE -> ~ free_at s x) ->
  let s' := free_pages_range kva n s in
  buddy_inv s' /\ pages_allocated s' = u64 (pages_allocated s - n) /\
  (forall x, free_at s' x <-> free_at s x \/ kva <= x < kva + n * PAGE_SIZE) /\
  free_page_count s' = free_page_count s + n.
Proof.
  intros Hi Hp Ha Hn Hf s'. destruct (free_pages_range_run s kva n Hi Hp Ha Hn Hf) as (? & ? & ? & ? & ?). done.
Qed.

(** [next_power_of_two] returns the smallest power of two that is not
    below its argument, for every argument from 1 to [2^63]. *)
Theorem next_power_of_two_spec v :
  1 <= v <= 2 ^ 63 ->
  exists n, 0 <= n /\ next_power_of_two v = 2 ^ n /\ v <= 2 ^ n /\
    forall m, 0 <= m -> v <= 2 ^ m -> n <= m.
Proof.
  intros Hv. unfold next_power_of_two. rewrite (uwrap_id 64 (v - 1)) by (unfold is_u; lia).
  assert (forall i, 0 <= i -> Z.testbit (v - 1) i = true <->
            exists j, 0 <= j < 1 /\ Z.testbit (v - 1) (i + j) = true) as H0.
  { intros i Hi. split; [intros E; exists 0; split; [lia|by rewrite Z.add_0_r]|].
    intros (j & Hj & E). assert (j = 0) as -> by lia. by rewrite Z.add_0_r in E. }
  assert (window (v - 1) 1 (v - 1)) as W by (split; [lia|done]).
  apply (window_step _ 1) in W; [|lia]. change (2 * 1) with 2 in W.
  apply (window_step _ 2) in W; [|lia]. change (2 * 2) with 4 in W.
  apply (window_step _ 4) in W; [|lia]. change (2 * 4) with 8 in W.
  apply (window_step _ 8) in W; [|lia]. change (2 * 8) with 16 in W.
  apply (window_step _ 16) in W; [|lia]. change (2 * 16) with 32 in W.
  apply (window_step _ 32) in W; [|lia]. change (2 * 32) with 64 in W.
  destruct (decide (v = 1)) as [->|Hne].
  { exists 0. vm_compute. split_and!; try done. }
  apply window_full in W; [|lia]. rewrite W. pose proof (Z.log2_nonneg (v - 1)).
  assert (Z.log2 (v - 1) < 63) by (apply Z.log2_lt_pow2; lia).
  assert (2 ^ (Z.log2 (v - 1) + 1) <= 2 ^ 63) by (apply Z.pow_le_mono_r; lia).
  exists (Z.log2 (v - 1) + 1). split; [lia|]. split; [|split].
  - apply uwrap_id. unfold is_u. split; [lia|]. simpl in *. lia.
  - pose proof (Z.log2_spec (v - 1) ltac:(lia)) as [_ L]. rewrite <- Z.add_1_r in L. lia.
  - intros m Hm Hle. enough (Z.log2 (v - 1) < m) by lia. apply Z.log2_lt_pow2; lia.
Qed.

(** ** The interface of the page allocator

    What the slab allocator relies on: an allocator of single pages with the
    contents of memory as words. *)

Definition in_page (a x : Z) : Prop := a <= x < a + PAGE_SIZE.

Class PageAllocator (P : Type) := {
  pg_alloc : Z -> P -> Z * P;
  pg_free : Z -> P -> res P;
  pg_free_range : Z -> Z -> P -> P;
  pg_words : P -> gmap Z Z;
  pg_set_words : gmap Z Z -> P -> P;
  pg_inv : P -> Prop;
  pg_free_at : P -> Z -> Prop;
  pg_alloc_spec flags p : pg_inv p ->
    let '(a, p') := pg_alloc flags p in
    pg_inv p' /\
    if a =? NULL then p' = p
    else
      0 < a /\ (PAGE_SIZE | a) /\ (forall x, in_page a x -> pg_free_at p x) /\
      (forall x, pg_free_at p' x <-> pg_free_at p x /\ ~ in_page a x) /\
      (forall x, ~ in_page a x -> pg_words p' !! x = pg_words p !! x);
  pg_alloc_zeroed p i : pg_inv p ->
    let '(a, p') := pg_alloc ALLOC_FLAG_ZERO_MEMORY p in
    a <> NULL -> 0 <= i < 512 -> pg_words p' !! (a + 8 * i) = Some 0;
  pg_free_spec a p : pg_inv p -> 0 < a -> (PAGE_SIZE | a) ->
    (forall x, in_page a x -> ~ pg_free_at p x) ->
    exists p', pg_free a p = Ret p' /\ pg_inv p' /\ pg_words p' = pg_words p /\
      forall x, pg_free_at p' x <-> pg_free_at p x \/ in_page a x;
  pg_free_range_spec a n p : pg_inv p -> 0 < a -> (PAGE_SIZE | a) -> 0 <= n ->
    (forall x, a <= x < a + n * PAGE_SIZE -> ~ pg_free_at p x) ->
    pg_inv (pg_free_range a n p) /\ pg_words (pg_free_range a n p) = pg_words p /\
      forall x, pg_free_at (pg_free_range a n p) x <-> pg_free_at p x \/ a <= x < a + n * PAGE_SIZE;
  pg_words_set m p : pg_words (pg_set_words m p) = m;
  pg_set_same p : pg_set_words (pg_words p) p = p;
  pg_inv_set m p : pg_inv p -> pg_inv (pg_set_words m p);
  pg_free_at_set m p x : pg_free_at (pg_set_words m p) x <-> pg_free_at p x
}.

Lemma covers_0 a x : covers 0 a x <-> in_page a x.
Proof. done. Qed.

#[export] Program Instance buddy_pages : PageAllocator kernel_memory := {
  pg_alloc := alloc_page;
  pg_free := free_page;
  pg_free_range := free_pages_range;
  pg_words := mem;
  pg_set_words m s := mk_kmem (list_of_free_memory s) (pages_allocated s) m;
  pg_inv := buddy_inv;
  pg_free_at := free_at
}.
Next Obligation.
  intros flags s Hi. unfold alloc_page. pose proof (alloc_pages_run flags 0 s Hi) as H.
  destruct (alloc_pages flags 0 s) as [a s'] eqn:E.
  destruct H as [H1 H]; [unfold PAGE_ALLOC_MAX_ORDER; lia|]. split; [done|].
  destruct (a =? NULL) eqn:Ha; [tauto|]. apply Z.eqb_neq in Ha.
  destruct H as (Al & Fr & Fx & _ & _ & M).
  destruct (Fr a (covers_self 0 a)) as (o & b & Hin & Hc).
  pose proof (bi_block _ Hi o b Hin) as [Hb _].
  split; [unfold covers in Hc; lia|]. split; [exact Al|]. split; [exact Fr|]. split; [exact Fx|].
  intros x Hx. rewrite M, decide_False; [done|]. intros (_ & C & _). by apply Hx.
Qed.
Next Obligation.
  intros s i Hi. unfold alloc_page.
  pose proof (alloc_pages_run ALLOC_FLAG_ZERO_MEMORY 0 s Hi) as H.
  destruct (alloc_pages ALLOC_FLAG_ZERO_MEMORY 0 s) as [a s'].
  destruct H as [_ H]; [unfold PAGE_ALLOC_MAX_ORDER; lia|].
  intros Ha Hr. rewrite (proj2 (Z.eqb_neq _ _) Ha) in H.
  destruct H as (_ & _ & _ & _ & _ & ->). rewrite decide_True; [done|].
  split; [done|]. split.
  - apply covers_0. unfold in_page. change PAGE_SIZE with 4096. lia.
  - replace (a + 8 * i - a) with (i * 8) by lia. apply Z.mod_mul. lia.
Qed.
Next Obligation.
  intros a s Hi Hp Ha Hf. unfold free_page.
  destruct (free_pages_run s 0 a Hi ltac:(lia) Hp Ha Hf) as (s' & E & I & M & _ & F & _).
  eauto 10.
Qed.
Next Obligation.
  intros a n s Hi Hp Ha Hn Hf. destruct (free_pages_range_run s a n Hi Hp Ha Hn Hf) as (? & ? & ? & ? & ?). done.
Qed.
Next Obligation. done. Qed.
Next Obligation. by intros []. Qed.
Next Obligation. intros m s []. by constructor. Qed.
Next Obligation. done. Qed.

(** ** Witnesses: 24 pages from 0x203000 on *)

Definition booted_memory : kernel_memory :=
  match kalloc_init 2109440 98304 ∅ with Ret s => s | _ => kalloc_empty ∅ end.

Lemma kalloc_empty_inv m : buddy_inv (kalloc_empty m).
Proof.
  assert (forall o, free_list (kalloc_empty m) o = []) as E.
  { intros o. unfold free_list, kalloc_empty. cbn [list_of_free_memory].
    destruct (_ !! o) as [l|] eqn:El; [|done].
    apply list_elem_of_lookup_2 in El. by apply elem_of_replicate in El as [-> _]. }
  constructor.
  - done.
  - intros o a. rewrite E. by intros ?%not_elem_of_nil.
  - intros o. rewrite E. constructor.
  - intros o a o' a' x. rewrite E. by intros ?%not_elem_of_nil.
  - intros o a _. rewrite E. by intros ?%not_elem_of_nil.
Qed.

Lemma kalloc_empty_free m x : ~ free_at (kalloc_empty m) x.
Proof.
  intros (o & a & Ha & _). unfold free_list, kalloc_empty in Ha. cbn [list_of_free_memory] in Ha.
  destruct (_ !! o) as [l|] eqn:El; [|by apply not_elem_of_nil in Ha].
  apply list_elem_of_lookup_2 in El. apply elem_of_replicate in El as [-> _].
  by apply not_elem_of_nil in Ha.
Qed.

Lemma init_memory_region_spec_witness :
  exists s', kalloc_init 2109440 98304 ∅ = Ret s' /\ buddy_inv s'.
Proof.
  destruct (init_memory_region_spec (kalloc_empty ∅) 2109440 2207744 (kalloc_empty_inv ∅)
    ltac:(vm_compute; split; congruence) ltac:(lia) ltac:(exists 515; reflexivity)
    ltac:(exists 539; reflexivity) ltac:(intros; apply kalloc_empty_free))
    as (s' & E & H & _).
  exists s'. exact (conj E H).
Defined.

Lemma booted_memory_ok :
  buddy_inv booted_memory /\ forall x, free_at booted_memory x <-> 2109440 <= x < 2207744.
Proof.
  destruct (init_region_loop_spec 25 2109440 2207744 (kalloc_empty ∅)
    ltac:(vm_compute; congruence) ltac:(lia) ltac:(lia) ltac:(exists 515; reflexivity)
    ltac:(exists 539; reflexivity) (kalloc_empty_inv ∅) ltac:(vm_compute; split; congruence)
    ltac:(intros; apply kalloc_empty_free)) as (s & E & Hi & _ & _ & Hf & _).
  assert (booted_memory = s) as ->.
  { unfold booted_memory, kalloc_init, kalloc_init_memory_region.
    change (Z.to_nat _) with 25%nat. change (2109440 + 98304) with 2207744. by rewrite E. }
  split; [exact Hi|]. intros x. rewrite Hf. split; [|intros H; right; exact H].
  intros [H|H]; [destruct (kalloc_empty_free ∅ x H)|exact H].
Qed.

Lemma alloc_pages_spec_witness :
  fst (alloc_pages ALLOC_FLAG_NONE 2 booted_memory) = 2113536 /\
  let '(a, s') := alloc_pages ALLOC_FLAG_NONE 2 booted_memory in buddy_inv s'.
Proof.
  split; [vm_compute; reflexivity|].
  pose proof (alloc_pages_spec ALLOC_FLAG_NONE 2 booted_memory (proj1 booted_memory_ok)
    ltac:(unfold PAGE_ALLOC_MAX_ORDER; lia)) as H.
  destruct (alloc_pages _ _ _) as [a s']. exact (proj1 H).
Defined.


Lemma free_pages_range_spec_witness :
  buddy_inv (free_pages_range 2207744 5 booted_memory).
Proof.
  exact (proj1 (free_pages_range_spec booted_memory 2207744 5 (proj1 booted_memory_ok)
    ltac:(lia) ltac:(exists 539; reflexivity) ltac:(lia)
    ltac:(intros x H Hf; apply (proj2 booted_memory_ok) in Hf; lia))).
Defined.

Lemma next_power_of_two_spec_witness :
  exists n, 0 <= n /\ next_power_of_two 1000 = 2 ^ n.
Proof.
  destruct (next_power_of_two_spec 1000 ltac:(lia)) as (n & Hn & E & _).
  exists n. exact (conj Hn E).
Defined.
