(* ===== verification/Slab.v ===== *)
(** * The object allocator (kernel/mm/slab.c, cache.c, [kmalloc] and [kfree])

    A slab is one page: a [struct kmem_slab] at its start and objects of one
    size behind it.  The free objects of a slab form a linked list whose links
    are stored in the objects themselves, so the model keeps them in the words
    of memory.  The pages come from an allocator that satisfies
    [PageAllocator].  The checks of [DEBUG_EXTRA_PANIC] are modelled as in the
    configuration that enables them. *)
From S2P Require Import Prelude Buddy.

Definition MIN_SLAB_SIZE_ORDER : Z := 4.
Definition MIN_SLAB_SIZE : Z := Z.shiftl 1 MIN_SLAB_SIZE_ORDER.
Definition MAX_SLAB_SIZE : Z := 1280.

Definition ROUND_TO_MIN_SLAB_SIZE (size : Z) : Z :=
  (size + MIN_SLAB_SIZE - 1) / MIN_SLAB_SIZE * MIN_SLAB_SIZE.

Definition OBJECT_CACHES_POT : nat := Z.to_nat (PAGE_SHIFT - MIN_SLAB_SIZE_ORDER - 1).

(** The list links ([struct list_head], 16 bytes) are the cache's list of slab
    addresses. *)
Record kmem_slab := mk_slab {
  sl_free_list : Z;
  sl_object_size : Z;
  sl_objects_allocated : Z;
  sl_owning_cache : option nat
}.

(** [sizeof(struct kmem_slab)] with 64-bit pointers. *)
Definition SIZEOF_SLAB : Z := 48.

Record kmem_cache := mk_cache {
  kc_slab_list : list Z;
  kc_object_size : Z
}.

Definition kmem_slab_infer_slab (object : Z) : Z := PAGE_ROUND_DOWN object.

Section Slab.
Context {P : Type} `{!PageAllocator P}.

Record heap := mk_heap {
  h_pages : P;
  h_slabs : gmap Z kmem_slab;
  h_caches : list kmem_cache
}.

Definition set_pages (p : P) (h : heap) : heap := mk_heap p (h_slabs h) (h_caches h).
Definition set_words (m : gmap Z Z) (h : heap) : heap := set_pages (pg_set_words m (h_pages h)) h.
Definition set_slab (a : Z) (sl : kmem_slab) (h : heap) : heap :=
  mk_heap (h_pages h) (<[a := sl]> (h_slabs h)) (h_caches h).
Definition set_cache (c : nat) (kc : kmem_cache) (h : heap) : heap :=
  mk_heap (h_pages h) (h_slabs h) (<[c := kc]> (h_caches h)).
Definition words (h : heap) : gmap Z Z := pg_words (h_pages h).

Definition slab_at (a : Z) : ST heap kmem_slab := h ← get; lift (load (h_slabs h !! a)).

(** The loop of [kmem_slab_create] that links the objects from offset
    [next_object] on. *)
Fixpoint create_free_list (fuel : nat) (slab size next_object free : Z) (m : gmap Z Z)
    : res (Z * gmap Z Z) :=
  if next_object + size <=? PAGE_SIZE then
    match fuel with
    | O => NoFuel
    | S fuel =>
        create_free_list fuel slab size (next_object + size) (slab + next_object)
          (<[slab + next_object := free]> m)
    end
  else Ret (free, m).

Definition kmem_slab_create (size : Z) : ST heap Z :=
  h ← get;
  let '(slab, p) := pg_alloc ALLOC_FLAG_ZERO_MEMORY (h_pages h) in
  put (set_pages p h);;
  if slab =? NULL then mret NULL
  else
    let size := ROUND_TO_MIN_SLAB_SIZE size in
    lift (panic_unless (size <=? MAX_SLAB_SIZE));;
    h ← get;
    r ← lift (create_free_list (Z.to_nat PAGE_SIZE) slab size
                (ROUND_TO_MIN_SLAB_SIZE SIZEOF_SLAB) NULL (words h));
    let '(free, m) := r in
    modify (set_words m);;
    modify (set_slab slab (mk_slab free size 0 None));;
    mret slab.

(** [memset(object, 0, size)] for a word-aligned object of [n] words. *)
Fixpoint zero_words (n : nat) (addr : Z) (m : gmap Z Z) : gmap Z Z :=
  match n with
  | O => m
  | S n => zero_words n (addr + 8) (<[addr := 0]> m)
  end.

Definition kmem_slab_alloc (a flags : Z) : ST heap Z :=
  sl ← slab_at a;
  if sl_free_list sl =? NULL then mret NULL
  else
    h ← get;
    let object := sl_free_list sl in
    next ← lift (load (words h !! object));
    modify (set_slab a (mk_slab next (sl_object_size sl) (u64 (sl_objects_allocated sl + 1))
                          (sl_owning_cache sl)));;
    (if negb (Z.land flags ALLOC_FLAG_ZERO_MEMORY =? 0)
     then modify (fun h => set_words (zero_words (Z.to_nat (sl_object_size sl / 8)) object (words h)) h)
     else mret tt);;
    mret object.

Definition kmem_slab_free (a object : Z) : ST heap unit :=
  sl ← slab_at a;
  lift (panic_unless (PAGE_ROUND_DOWN object =? a));;
  lift (panic_unless (match sl_owning_cache sl with Some _ => true | None => false end));;
  lift (panic_unless
    ((object mod PAGE_SIZE - ROUND_TO_MIN_SLAB_SIZE SIZEOF_SLAB) mod sl_object_size sl =? 0));;
  modify (fun h => set_words (<[object := sl_free_list sl]> (words h)) h);;
  modify (set_slab a (mk_slab object (sl_object_size sl) (u64 (sl_objects_allocated sl - 1))
                        (sl_owning_cache sl))).

Definition kmem_slab_is_empty (sl : kmem_slab) : bool := sl_objects_allocated sl =? 0.

Definition kmem_slab_get_max_objects (sl : kmem_slab) : Z :=
  (PAGE_SIZE - SIZEOF_SLAB) / sl_object_size sl.

Definition kmem_slab_get_free_count (sl : kmem_slab) : Z :=
  kmem_slab_get_max_objects sl - sl_objects_allocated sl.

Definition kmem_slab_get_object_count (sl : kmem_slab) : Z := sl_objects_allocated sl.

(** [kmem_slab_delete]: the page goes back to the page allocator. *)
Definition kmem_slab_delete (a : Z) : ST heap unit :=
  h ← get;
  p ← lift (pg_free a (h_pages h));
  put (mk_heap p (delete a (h_slabs h)) (h_caches h)).

(** [kmem_cache_init] of cache [c]. *)
Definition kmem_cache_init (c : nat) (size : Z) : ST heap unit :=
  let size := ROUND_TO_MIN_SLAB_SIZE size in
  lift (panic_unless (size <=? MAX_SLAB_SIZE));;
  modify (set_cache c (mk_cache [] size)).

(** The loop over the slabs of a cache. *)
Fixpoint slab_list_alloc (slabs : list Z) (flags : Z) : ST heap Z :=
  match slabs with
  | [] => mret NULL
  | a :: slabs =>
      allocation ← kmem_slab_alloc a flags;
      if negb (allocation =? NULL) then mret allocation else slab_list_alloc slabs flags
  end.

Definition cache_at (c : nat) : ST heap kmem_cache := h ← get; lift (load (h_caches h !! c)).

Definition kmem_cache_alloc (c : nat) (flags : Z) : ST heap Z :=
  kc ← cache_at c;
  allocation ← slab_list_alloc (kc_slab_list kc) flags;
  if allocation =? NULL then
    new_slab ← kmem_slab_create (kc_object_size kc);
    if negb (new_slab =? NULL) then
      modify (set_cache c (mk_cache (kc_slab_list kc ++ [new_slab]) (kc_object_size kc)));;
      sl ← slab_at new_slab;
      modify (set_slab new_slab (mk_slab (sl_free_list sl) (sl_object_size sl)
                                   (sl_objects_allocated sl) (Some c)));;
      kmem_slab_alloc new_slab flags
    else mret allocation
  else mret allocation.

Definition kmem_cache_free (c : nat) (object : Z) : ST heap unit :=
  let slab := kmem_slab_infer_slab object in
  kmem_slab_free slab object;;
  sl ← slab_at slab;
  if kmem_slab_is_empty sl then
    kc ← cache_at c;
    modify (set_cache c (mk_cache (List.filter (fun a => negb (a =? slab)) (kc_slab_list kc))
                           (kc_object_size kc)));;
    kmem_slab_delete slab
  else mret tt.

(** The object size of the caches that [kalloc_init_caches] creates. *)
Definition cache_sizes : list Z :=
  map (fun i => Z.shiftl 1 (Z.of_nat i) * MIN_SLAB_SIZE) (seq 0 OBJECT_CACHES_POT) ++ [1280].

Fixpoint init_caches (i : nat) (sizes : list Z) : ST heap unit :=
  match sizes with
  | [] => mret tt
  | size :: sizes => kmem_cache_init i size;; init_caches (S i) sizes
  end.

Definition kalloc_init_caches : ST heap unit := init_caches 0 cache_sizes.

(** The search for the first cache with large enough objects. *)
Fixpoint find_cache (size : Z) (i : nat) (cs : list kmem_cache) : option nat :=
  match cs with
  | [] => None
  | kc :: cs => if size <=? kc_object_size kc then Some i else find_cache size (S i) cs
  end.

Definition kmalloc (size flags : Z) : ST heap Z :=
  lift (panic_unless (size <=? PAGE_SIZE));;
  h ← get;
  match find_cache size 0 (h_caches h) with
  | Some c => kmem_cache_alloc c flags
  | None =>
      let '(a, p) := pg_alloc flags (h_pages h) in
      put (set_pages p h);;
      mret a
  end.

(** [kfree]; [in_ram] is [addr_is_in_ram_kva]. *)
Definition kfree (in_ram : Z -> bool) (kva : Z) : ST heap unit :=
  lift (panic_unless (in_ram kva));;
  if kva mod PAGE_SIZE =? 0 then
    h ← get;
    p ← lift (pg_free kva (h_pages h));
    put (set_pages p h)
  else
    let slab := kmem_slab_infer_slab kva in
    sl ← slab_at slab;
    match sl_owning_cache sl with
    | None => kmem_slab_free slab kva
    | Some c => kmem_cache_free c kva
    end.

Definition kmem_cache_get_slab_count (kc : kmem_cache) : Z := Z.of_nat (length (kc_slab_list kc)).

(** The counting loop of [kmem_cache_get_object_count]. *)
Definition kmem_cache_get_object_count (c : nat) (h : heap) : res Z :=
  kc ← load (h_caches h !! c);
  foldl (fun r a => n ← r; sl ← load (h_slabs h !! a);
                    mret (n + kmem_slab_get_object_count sl)) (mret 0) (kc_slab_list kc).
End Slab.
Arguments heap P : clear implicits.

(** ** Free lists in memory *)

Inductive chain (m : gmap Z Z) : Z -> list Z -> Prop :=
| chain_nil : chain m NULL []
| chain_cons x next l : x <> NULL -> m !! x = Some next -> chain m next l -> chain m x (x :: l).

Lemma chain_det m p l1 l2 : chain m p l1 -> chain m p l2 -> l1 = l2.
Proof.
  intros H. revert l2. induction H as [|x next l Hx Hm H IH]; intros l2 H2; inversion H2; subst.
  - done.
  - done.
  - done.
  - f_equal. apply IH. congruence.
Qed.

Lemma chain_inv m p l :
  chain m p l -> (l = [] /\ p = NULL) \/
  exists next l', l = p :: l' /\ p <> NULL /\ m !! p = Some next /\ chain m next l'.
Proof. destruct 1; [by left|right]. eauto 10. Qed.

Lemma chain_agree m m' p l :
  chain m p l -> (forall x, x ∈ l -> m' !! x = m !! x) -> chain m' p l.
Proof.
  induction 1 as [|x next l Hx Hm H IH]; intros Ha; [constructor|].
  apply (chain_cons _ x next); [done| |].
  - rewrite Ha; [done|]. by apply elem_of_cons; left.
  - apply IH. intros y Hy. apply Ha. by apply elem_of_cons; right.
Qed.

(** Number of objects of a slab, and its objects. *)
Definition max_objects (size : Z) : Z := (PAGE_SIZE - SIZEOF_SLAB) / size.

Definition is_obj (a size x : Z) : Prop :=
  exists i, 0 <= i < max_objects size /\ x = a + SIZEOF_SLAB + i * size.

Definition good_size (size : Z) : Prop := MIN_SLAB_SIZE <= size <= MAX_SLAB_SIZE /\ (MIN_SLAB_SIZE | size).

Lemma is_obj_range a size x :
  good_size size -> is_obj a size x -> a + SIZEOF_SLAB <= x /\ x + size <= a + PAGE_SIZE.
Proof.
  intros [[H1 H2] _] (i & Hi & ->). unfold max_objects in Hi.
  change PAGE_SIZE with 4096 in *. change MIN_SLAB_SIZE with 16 in *.
  change SIZEOF_SLAB with 48 in *.
  pose proof (Z.div_mod (4096 - 48) size ltac:(lia)).
  pose proof (Z.mod_pos_bound (4096 - 48) size ltac:(lia)). nia.
Qed.

(** Different objects of a slab do not overlap. *)
Lemma is_obj_disjoint a size x y :
  0 < size -> is_obj a size x -> is_obj a size y -> x <> y -> x + size <= y \/ y + size <= x.
Proof.
  intros Hs (i & Hi & ->) (j & Hj & ->) Hne. assert (i <> j) by congruence.
  destruct (decide (i < j)); [left|right]; nia.
Qed.

Lemma create_free_list_spec size slab fuel next free m l :
  0 < size -> 0 < slab -> 0 <= next <= PAGE_SIZE ->
  PAGE_SIZE - next <= Z.of_nat fuel * size ->
  chain m free l -> NoDup l -> (forall x, x ∈ l -> x < slab + next) ->
  exists free' m' l', create_free_list fuel slab size next free m = Ret (free', m') /\
    chain m' free' l' /\ NoDup l' /\
    Z.of_nat (length l') = Z.of_nat (length l) + (PAGE_SIZE - next) / size /\
    (forall x, x ∈ l' -> x ∈ l \/
       exists i, 0 <= i < (PAGE_SIZE - next) / size /\ x = slab + next + i * size) /\
    (forall x, ~ (slab + next <= x < slab + PAGE_SIZE) -> m' !! x = m !! x).
Proof.
  intros Hs Hp. change PAGE_SIZE with 4096. revert next free m l.
  induction fuel as [|fuel IH]; intros next free m l Hn Hf Hc Hnd Hlt; cbn [create_free_list];
    change PAGE_SIZE with 4096.
  - rewrite (proj2 (Z.leb_gt _ _)) by lia. exists free, m, l.
    assert (next = 4096) as -> by lia. rewrite Z.sub_diag, Z.div_0_l by lia.
    split_and!; try done; [lia|]. auto.
  - destruct (Z.leb_spec (next + size) 4096) as [Hle|Hgt]; cycle 1.
    { exists free, m, l. rewrite Z.div_small by lia. split_and!; try done; [lia|]. auto. }
    assert (slab + next ∉ l) as Hni by (intros Hin; specialize (Hlt _ Hin); lia).
    assert ((4096 - next) / size = (4096 - (next + size)) / size + 1) as Ediv.
    { replace (4096 - next) with (4096 - (next + size) + 1 * size) by lia.
      by rewrite Z.div_add by lia. }
    destruct (IH (next + size) (slab + next) (<[slab + next := free]> m) ((slab + next) :: l))
      as (f' & m' & l' & E & C & N & L & I & M); [lia|lia| | | |].
    { apply (chain_cons _ _ free); [unfold NULL; lia|apply lookup_insert_eq|].
      eapply chain_agree; [done|]. intros x Hx. rewrite lookup_insert_ne; [done|].
      intros <-. done. }
    { by apply NoDup_cons. }
    { intros x [->|Hx]%elem_of_cons; [lia|]. specialize (Hlt x Hx). lia. }
    assert (0 <= (4096 - (next + size)) / size) by (apply Z.div_pos; lia).
    exists f', m', l'. split_and!; [done|done|done| | |].
    + rewrite L, Ediv. simpl length. lia.
    + intros x Hx. destruct (I x Hx) as [[->|Hin]%elem_of_cons|(i & Hi & ->)]; [|auto|].
      * right. exists 0. split; [lia|]. lia.
      * right. exists (i + 1). split; [lia|]. lia.
    + intros x Hx. rewrite M by lia. apply lookup_insert_ne. lia.
Qed.

Lemma zero_words_lookup n addr m y :
  ~ (addr <= y < addr + 8 * Z.of_nat n) -> zero_words n addr m !! y = m !! y.
Proof.
  revert addr m. induction n as [|n IH]; intros addr m H; [done|]. cbn [zero_words].
  rewrite IH by lia. apply lookup_insert_ne. lia.
Qed.

Lemma page_round_down a x : (PAGE_SIZE | a) -> in_page a x -> PAGE_ROUND_DOWN x = a.
Proof.
  intros [q ->] Hx. unfold PAGE_ROUND_DOWN. change (PAGE_SIZE - 1) with (Z.ones 12).
  rewrite <- Z.ldiff_land, Z.ldiff_ones_r, Z.shiftl_mul_pow2, Z.shiftr_div_pow2 by lia.
  unfold in_page in Hx. change PAGE_SIZE with (2 ^ 12) in *. f_equal. symmetry.
  apply (Z.div_unique _ _ _ (x - q * 2 ^ 12)); lia.
Qed.

Lemma page_mod a x : (PAGE_SIZE | a) -> in_page a x -> x mod PAGE_SIZE = x - a.
Proof.
  intros [q ->] Hx. unfold in_page in Hx. symmetry.
  apply (Z.mod_unique _ _ q); change PAGE_SIZE with 4096 in *; lia.
Qed.

Lemma pages_disjoint a b x :
  (PAGE_SIZE | a) -> (PAGE_SIZE | b) -> in_page a x -> in_page b x -> a = b.
Proof. intros Ha Hb H1 H2. by rewrite <- (page_round_down a x), (page_round_down b x). Qed.

(** ** The invariant *)

(** The slab at [a], with the free objects [l] in list order. *)
Record slab_ok (m : gmap Z Z) (a : Z) (sl : kmem_slab) (l : list Z) : Prop := {
  so_pos : 0 < a;
  so_page : (PAGE_SIZE | a);
  so_size : good_size (sl_object_size sl);
  so_chain : chain m (sl_free_list sl) l;
  so_nodup : NoDup l;
  so_objs x : x ∈ l -> is_obj a (sl_object_size sl) x;
  so_count : sl_objects_allocated sl = max_objects (sl_object_size sl) - Z.of_nat (length l);
  so_pos_count : 0 <= sl_objects_allocated sl
}.

Lemma slab_ok_det m a sl l1 l2 : slab_ok m a sl l1 -> slab_ok m a sl l2 -> l1 = l2.
Proof. intros [] []. by eapply chain_det. Qed.

Lemma obj_in_page a size x : good_size size -> is_obj a size x -> in_page a x.
Proof.
  intros Hs Hx. pose proof (is_obj_range a size x Hs Hx). destruct Hs as [Hs _].
  unfold in_page. change MIN_SLAB_SIZE with 16 in *. change SIZEOF_SLAB with 48 in *. lia.
Qed.

Lemma slab_ok_agree m m' a sl l :
  slab_ok m a sl l -> (forall x, x ∈ l -> m' !! x = m !! x) -> slab_ok m' a sl l.
Proof. intros [] H. constructor; try done. by eapply chain_agree. Qed.

Section Heap.
Context {P : Type} `{!PageAllocator P}.
Implicit Types h : heap P.

(** The invariant of the object allocator.  [e] is a slab that was just
    created and has no object yet, or NULL. *)
Record heap_inv (e : Z) (h : heap P) : Prop := {
  hi_pages : pg_inv (h_pages h);
  hi_slab a sl : h_slabs h !! a = Some sl -> exists l, slab_ok (words h) a sl l;
  hi_used a sl x : h_slabs h !! a = Some sl -> in_page a x -> ~ pg_free_at (h_pages h) x;
  hi_size c kc : h_caches h !! c = Some kc -> good_size (kc_object_size kc);
  hi_list c kc a : h_caches h !! c = Some kc -> a ∈ kc_slab_list kc ->
    exists sl, h_slabs h !! a = Some sl /\ sl_owning_cache sl = Some c /\
      sl_object_size sl = kc_object_size kc;
  hi_nodup c kc : h_caches h !! c = Some kc -> NoDup (kc_slab_list kc);
  hi_owner a sl : h_slabs h !! a = Some sl -> a <> e ->
    sl_objects_allocated sl <> 0 /\
    exists c kc, sl_owning_cache sl = Some c /\ h_caches h !! c = Some kc /\ a ∈ kc_slab_list kc
}.

(** [x] is an object that was handed out, of [size] bytes. *)
Definition live (h : heap P) (x size : Z) : Prop :=
  exists a sl l, h_slabs h !! a = Some sl /\ slab_ok (words h) a sl l /\
    sl_object_size sl = size /\ is_obj a size x /\ x ∉ l.

(** The slab at [a] becomes [sl'] with the free objects [l'], and memory
    changes only inside of that page. *)
Lemma heap_inv_upd e e' h m' a sl sl' l' :
  heap_inv e h -> h_slabs h !! a = Some sl ->
  slab_ok m' a sl' l' -> sl_object_size sl' = sl_object_size sl ->
  sl_owning_cache sl' = sl_owning_cache sl ->
  (forall x, ~ in_page a x -> m' !! x = words h !! x) ->
  (a <> e' -> sl_objects_allocated sl' <> 0 /\
     exists c kc, sl_owning_cache sl' = Some c /\ h_caches h !! c = Some kc /\ a ∈ kc_slab_list kc) ->
  (e = a \/ e = NULL) ->
  heap_inv e' (set_slab a sl' (set_words m' h)).
Proof.
  intros Hi Ha Hok Hsz Hown Hm He Hee. pose proof (so_page _ _ _ _ Hok) as Hpa.
  assert (words (set_slab a sl' (set_words m' h)) = m') as Ew.
  { unfold words. simpl. apply pg_words_set. }
  constructor.
  - simpl. apply pg_inv_set, Hi.
  - intros b slb Hb. rewrite Ew. simpl in Hb.
    apply lookup_insert_Some in Hb as [[<- <-]|[Hne Hb]]; [eauto|].
    destruct (hi_slab _ _ Hi b slb Hb) as [l Hl]. exists l. eapply slab_ok_agree; [done|].
    intros x Hx. apply Hm. intros Hin. apply Hne.
    eapply (pages_disjoint a b x); [done|apply Hl|done|].
    eapply obj_in_page; [apply Hl|by apply Hl].
  - intros b slb x Hb Hin. simpl. rewrite pg_free_at_set. simpl in Hb.
    apply lookup_insert_Some in Hb as [[<- <-]|[Hne Hb]]; by eapply (hi_used _ _ Hi).
  - apply Hi.
  - intros c kc b Hc Hb. destruct (hi_list _ _ Hi c kc b Hc Hb) as (slb & H1 & H2 & H3).
    destruct (decide (a = b)) as [<-|Hne].
    + exists sl'. simpl. rewrite lookup_insert_eq. simplify_eq. split_and!; congruence.
    + exists slb. simpl. by rewrite lookup_insert_ne.
  - apply Hi.
  - intros b slb Hb Hne. simpl in Hb.
    apply lookup_insert_Some in Hb as [[<- <-]|[Hnb Hb]]; [by apply He|].
    apply (hi_owner _ _ Hi b slb Hb). destruct Hee as [->| ->]; [congruence|].
    destruct (hi_slab _ _ Hi b slb Hb) as [lb Hlb]. pose proof (so_pos _ _ _ _ Hlb).
    unfold NULL. lia.
Qed.

Lemma live_upd e h m' a sl sl' l l' :
  heap_inv e h -> h_slabs h !! a = Some sl -> slab_ok (words h) a sl l ->
  slab_ok m' a sl' l' -> sl_object_size sl' = sl_object_size sl ->
  (forall x, ~ in_page a x -> m' !! x = words h !! x) ->
  forall y size, live (set_slab a sl' (set_words m' h)) y size <->
    (live h y size /\ ~ is_obj a (sl_object_size sl) y) \/
    (size = sl_object_size sl /\ is_obj a size y /\ y ∉ l').
Proof.
  intros Hi Ha Hl Hok Hsz Hm y size.
  assert (words (set_slab a sl' (set_words m' h)) = m') as Ew.
  { unfold words. simpl. apply pg_words_set. }
  pose proof (so_page _ _ _ _ Hok) as Hpa.
  assert (forall b slb lb x, h_slabs h !! b = Some slb -> a <> b ->
            slab_ok (words h) b slb lb \/ slab_ok m' b slb lb ->
            x ∈ lb -> m' !! x = words h !! x) as Hag.
  { intros b slb lb x Hb Hne Hs Hx. apply Hm. intros Hin. apply Hne.
    eapply (pages_disjoint a b x); [done| |done|].
    - by destruct Hs as [Hs|Hs]; apply Hs.
    - destruct Hs as [Hs|Hs]; (eapply obj_in_page; [apply Hs|by apply Hs]). }
  split.
  - intros (b & slb & lb & Hb & Hsb & Hz & Ho & Hni). rewrite Ew in Hsb. simpl in Hb.
    apply lookup_insert_Some in Hb as [[<- <-]|[Hne Hb]].
    + right. assert (lb = l') as -> by by eapply slab_ok_det. split_and!; congruence.
    + left. split.
      * exists b, slb, lb. split_and!; try done. eapply slab_ok_agree; [done|].
        intros x Hx. symmetry. eapply Hag; eauto.
      * intros Hoa. apply Hne. eapply (pages_disjoint a b y); [done|apply Hsb| |].
        -- apply (obj_in_page a (sl_object_size sl)); [rewrite <- Hsz; apply Hok|done].
        -- apply (obj_in_page b size); [rewrite <- Hz; apply Hsb|done].
  - intros [[(b & slb & lb & Hb & Hsb & Hz & Ho & Hni) Hna]|(-> & Ho & Hni)].
    + assert (a <> b) as Hne by (intros <-; simplify_eq; done).
      exists b, slb, lb. rewrite Ew. simpl. rewrite lookup_insert_ne by done.
      split_and!; try done. eapply slab_ok_agree; [done|]. intros x Hx. eapply Hag; eauto.
    + exists a, sl', l'. rewrite Ew. simpl. rewrite lookup_insert_eq. split_and!; congruence.
Qed.

Lemma live_in_slab e h a sl l x size :
  heap_inv e h -> h_slabs h !! a = Some sl -> slab_ok (words h) a sl l ->
  is_obj a (sl_object_size sl) x -> live h x size <-> size = sl_object_size sl /\ x ∉ l.
Proof.
  intros Hi Ha Hl Hx. split.
  - intros (b & slb & lb & Hb & Hsb & Hz & Ho & Hni).
    assert (a = b) as <-.
    { eapply (pages_disjoint a b x); [apply Hl|apply Hsb| |].
      - eapply obj_in_page; [apply Hl|done].
      - apply (obj_in_page b size); [rewrite <- Hz; apply Hsb|done]. }
    simplify_eq. split; [done|]. by assert (lb = l) as <- by by eapply slab_ok_det.
  - intros [-> Hni]. by exists a, sl, l.
Qed.

Lemma live_cases e h a sl l y size :
  heap_inv e h -> h_slabs h !! a = Some sl -> slab_ok (words h) a sl l -> live h y size ->
  (live h y size /\ ~ is_obj a (sl_object_size sl) y) \/
  (size = sl_object_size sl /\ is_obj a size y /\ y ∉ l).
Proof.
  intros Hi Ha Hl Hlv. pose proof Hlv as (b & slb & lb & Hb & Hsb & Hz & Ho & Hni).
  destruct (decide (a = b)) as [<-|Hne].
  - right. simplify_eq. split_and!; try done. by assert (lb = l) as <- by by eapply slab_ok_det.
  - left. split; [done|]. intros Hoa. apply Hne.
    eapply (pages_disjoint a b y); [apply Hl|apply Hsb| |].
    + eapply obj_in_page; [apply Hl|done].
    + apply (obj_in_page b size); [rewrite <- Hz; apply Hsb|done].
Qed.

Lemma slab_at_run h a sl : h_slabs h !! a = Some sl -> slab_at a h = Ret (sl, h).
Proof. intros E. unfold slab_at, mbind, ST_bind, get, lift. by rewrite E. Qed.

Definition owned (h : heap P) (a : Z) (sl : kmem_slab) : Prop :=
  exists c kc, sl_owning_cache sl = Some c /\ h_caches h !! c = Some kc /\ a ∈ kc_slab_list kc.

(** Nothing but the slab at [a] and the words from [lo] to [hi] changed. *)
Record only_slab (h h' : heap P) (a lo hi : Z) : Prop := {
  os_caches : h_caches h' = h_caches h;
  os_slabs b : b <> a -> h_slabs h' !! b = h_slabs h !! b;
  os_free x : pg_free_at (h_pages h') x <-> pg_free_at (h_pages h) x;
  os_words x : ~ (lo <= x < hi) -> words h' !! x = words h !! x
}.

Lemma slab_alloc_run e h a sl l flags :
  heap_inv e h -> h_slabs h !! a = Some sl -> slab_ok (words h) a sl l ->
  (e = NULL \/ e = a) -> owned h a sl ->
  match l with
  | [] => kmem_slab_alloc a flags h = Ret (NULL, h)
  | x :: l' => exists h', kmem_slab_alloc a flags h = Ret (x, h') /\ heap_inv NULL h' /\
      0 < x /\ is_obj a (sl_object_size sl) x /\
      (forall y size, live h' y size <-> live h y size \/ (y = x /\ size = sl_object_size sl)) /\
      only_slab h h' a x (x + sl_object_size sl)
  end.
Proof.
  intros Hi Ha Hl He Ho. unfold kmem_slab_alloc.
  rewrite (bind_run _ _ _ _ _ (slab_at_run _ _ _ Ha)). pose proof Hl as [L1 L2 L3 L4 L5 L6 L7 L8].
  apply chain_inv in L4 as [[-> E1]|(next & l' & -> & Hx & Hm & Hc)]; [by rewrite E1|].
  set (x := sl_free_list sl) in *.
  rewrite (proj2 (Z.eqb_neq _ _)) by congruence.
  assert (is_obj a (sl_object_size sl) x) as Hobj by (apply L6; by apply elem_of_cons; left).
  assert (good_size (sl_object_size sl)) as Hsz by done.
  pose proof (is_obj_range _ _ _ Hsz Hobj) as Hrange.
  change SIZEOF_SLAB with 48 in *. destruct Hsz as [[Hs1 Hs2] [q Hq]].
  change MIN_SLAB_SIZE with 16 in *. simpl length in L7.
  apply NoDup_cons in L5 as [L5a L5b].
  set (sl' := mk_slab next (sl_object_size sl) (sl_objects_allocated sl + 1) (sl_owning_cache sl)).
  set (m' := if negb (Z.land flags ALLOC_FLAG_ZERO_MEMORY =? 0)
             then zero_words (Z.to_nat (sl_object_size sl / 8)) x (words h) else words h).
  assert (forall y, ~ (x <= y < x + sl_object_size sl) -> m' !! y = words h !! y) as Hm'.
  { intros y Hy. unfold m'. destruct (negb _); [|done]. apply zero_words_lookup.
    pose proof (Z.div_mod (sl_object_size sl) 8 ltac:(lia)).
    pose proof (Z.mod_pos_bound (sl_object_size sl) 8 ltac:(lia)). rewrite Z2Nat.id by lia. lia. }
  assert (max_objects (sl_object_size sl) <= 4096) as Hmax.
  { unfold max_objects. change PAGE_SIZE with 4096. change SIZEOF_SLAB with 48.
    transitivity ((4096 - 48) / 1); [apply Z.div_le_compat_l; lia|done]. }
  assert (slab_ok m' a sl' l') as Hl'.
  { constructor; try done; simpl; [| |lia..].
    - eapply chain_agree; [exact Hc|]. intros y Hy. apply Hm'.
      assert (x <> y) as Hne by (intros E; apply L5a; by rewrite E).
      assert (is_obj a (sl_object_size sl) y) as Hy' by (apply L6; by apply elem_of_cons; right).
      pose proof (is_obj_disjoint a (sl_object_size sl) x y ltac:(lia) Hobj Hy' Hne). lia.
    - intros y Hy. apply L6. by apply elem_of_cons; right. }
  assert (forall y, ~ in_page a y -> m' !! y = words h !! y) as Hout.
  { intros y Hy. apply Hm'. unfold in_page in Hy. lia. }
  exists (set_slab a sl' (set_words m' h)). split; [|split; [|split; [lia|split; [done|split]]]].
  - unfold mbind, ST_bind, get, lift, modify, mret, ST_ret. rewrite Hm. simpl.
    rewrite (uwrap_id 64) by (unfold is_u; lia).
    unfold m', sl'. destruct (negb _); simpl; [done|].
    unfold set_slab, set_words, set_pages. simpl. unfold words. by rewrite pg_set_same.
  - apply (heap_inv_upd e NULL h m' a sl sl' l'); try done.
    + intros _. split; [simpl; lia|done].
    + destruct He as [->| ->]; auto.
  - intros y size. rewrite (live_upd e h m' a sl sl' (x :: l') l') by done.
    split.
    + intros [[Hlv _]|(-> & Hoy & Hny)]; [by left|].
      destruct (decide (y = x)) as [->|Hne]; [by right|left].
      apply (live_in_slab e h a sl (x :: l')); try done. split; [done|].
      by apply not_elem_of_cons.
    + intros [Hlv|[-> ->]]; [|right; done].
      destruct (live_cases e h a sl (x :: l') y size Hi Ha Hl Hlv) as [?|(-> & ? & Hny)];
        [by left|right]. apply not_elem_of_cons in Hny as [_ Hny]. done.
  - constructor; simpl.
    + done.
    + intros b Hb. by rewrite lookup_insert_ne.
    + intros y. apply pg_free_at_set.
    + intros y Hy. unfold words. simpl. rewrite pg_words_set. by apply Hm'.
Qed.

(** A slab whose objects are all free. *)
Lemma all_free m a sl l x :
  slab_ok m a sl l -> sl_objects_allocated sl = 0 -> is_obj a (sl_object_size sl) x -> x ∈ l.
Proof.
  intros [_ _ _ _ Hnd Hobj Hc _] Hz (i & Hi & ->). set (size := sl_object_size sl) in *.
  set (objs := map (fun i => a + SIZEOF_SLAB + i * size) (seqZ 0 (max_objects size))).
  assert (forall y, y ∈ objs <-> exists i, 0 <= i < max_objects size /\ y = a + SIZEOF_SLAB + i * size)
    as Hin.
  { intros y. unfold objs. rewrite list_elem_of_In, in_map_iff. split.
    - intros (j & <- & Hj). rewrite <- list_elem_of_In, elem_of_seqZ in Hj. exists j. split; [lia|done].
    - intros (j & Hj & ->). exists j. split; [done|]. rewrite <- list_elem_of_In, elem_of_seqZ. lia. }
  assert (l ≡ₚ objs) as ->.
  { apply submseteq_length_Permutation.
    - apply NoDup_submseteq; [done|]. intros y Hy. apply Hin, Hobj, Hy.
    - unfold objs. rewrite length_map, length_seqZ. lia. }
  apply Hin. eauto.
Qed.

Lemma slab_free_run h a sl l x :
  heap_inv NULL h -> h_slabs h !! a = Some sl -> slab_ok (words h) a sl l ->
  is_obj a (sl_object_size sl) x -> x ∉ l ->
  let sl' := mk_slab x (sl_object_size sl) (sl_objects_allocated sl - 1) (sl_owning_cache sl) in
  exists h', kmem_slab_free a x h = Ret (tt, h') /\ heap_inv a h' /\
    (sl_objects_allocated sl <> 1 -> heap_inv NULL h') /\
    h_slabs h' = <[a := sl']> (h_slabs h) /\ slab_ok (words h') a sl' (x :: l) /\
    (forall y size, live h' y size <-> live h y size /\ y <> x) /\
    only_slab h h' a x (x + 8).
Proof.
  intros Hi Ha Hl Hx Hni sl'. pose proof Hl as [L1 L2 L3 L4 L5 L6 L7 L8].
  destruct (hi_owner _ _ Hi a sl Ha) as [Hnz (c & kc & Ho1 & Ho2 & Ho3)]; [unfold NULL; lia|].
  pose proof (obj_in_page _ _ _ L3 Hx) as Hpg. pose proof (is_obj_range _ _ _ L3 Hx) as Hr.
  pose proof L3 as [[S1 S2] S3]. change MIN_SLAB_SIZE with 16 in S1.
  change SIZEOF_SLAB with 48 in Hr.
  set (m' := <[x := sl_free_list sl]> (words h)).
  assert (max_objects (sl_object_size sl) <= 4096) as Hmax.
  { unfold max_objects. change PAGE_SIZE with 4096. change SIZEOF_SLAB with 48.
    transitivity ((4096 - 48) / 1); [apply Z.div_le_compat_l; lia|done]. }
  assert (slab_ok m' a sl' (x :: l)) as Hl'.
  { constructor; simpl; try done; [| | |lia|lia].
    - apply (chain_cons _ _ (sl_free_list sl)); [unfold NULL; lia|apply lookup_insert_eq|].
      eapply chain_agree; [done|]. intros y Hy. apply lookup_insert_ne. intros <-. done.
    - by apply NoDup_cons.
    - intros y [->|Hy]%elem_of_cons; auto. }
  assert (forall y, ~ in_page a y -> m' !! y = words h !! y) as Hout.
  { intros y Hy. apply lookup_insert_ne. intros <-. done. }
  exists (set_slab a sl' (set_words m' h)). split_and!.
  - unfold kmem_slab_free. rewrite (bind_run _ _ _ _ _ (slab_at_run _ _ _ Ha)).
    unfold mbind, ST_bind, lift, modify. rewrite (page_round_down a x) by done.
    rewrite Z.eqb_refl, Ho1. simpl panic_unless. cbv iota beta.
    rewrite (page_mod a x) by done. change (ROUND_TO_MIN_SLAB_SIZE SIZEOF_SLAB) with 48.
    destruct Hx as (i & Hi' & Ex). replace (x - a - 48) with (i * sl_object_size sl)
      by (rewrite Ex; change SIZEOF_SLAB with 48; lia).
    rewrite Z.mod_mul by lia. cbn [Z.eqb panic_unless].
    rewrite (uwrap_id 64 (sl_objects_allocated sl - 1)) by (unfold is_u; lia).
    rewrite <- Ho1. done.
  - apply (heap_inv_upd NULL a h m' a sl sl' (x :: l)); try done. auto.
  - intros Hn1. apply (heap_inv_upd NULL NULL h m' a sl sl' (x :: l)); try done; [|auto].
    intros _. split; [simpl; lia|]. eauto 10.
  - done.
  - unfold words. simpl. by rewrite pg_words_set.
  - intros y size. rewrite (live_upd NULL h m' a sl sl' l (x :: l)) by done. split.
    + intros [[Hlv Hno]|(-> & Hoy & Hny)].
      * split; [done|]. intros ->. done.
      * apply not_elem_of_cons in Hny as [Hyx Hny]. split; [|done].
        by apply (live_in_slab NULL h a sl l).
    + intros [Hlv Hne].
      destruct (live_cases NULL h a sl l y size Hi Ha Hl Hlv) as [?|(-> & ? & Hny)];
        [by left|right]. split_and!; try done. by apply not_elem_of_cons.
  - constructor; simpl.
    + done.
    + intros b Hb. by rewrite lookup_insert_ne.
    + intros y. apply pg_free_at_set.
    + intros y Hy. unfold words. simpl. rewrite pg_words_set. apply lookup_insert_ne. lia.
Qed.

Definition drop_slab (a : Z) (kc : kmem_cache) : kmem_cache :=
  mk_cache (List.filter (fun b => negb (b =? a)) (kc_slab_list kc)) (kc_object_size kc).

Lemma elem_of_drop a b kc : b ∈ kc_slab_list (drop_slab a kc) <-> b ∈ kc_slab_list kc /\ b <> a.
Proof.
  unfold drop_slab. simpl. rewrite !list_elem_of_In, filter_In, negb_true_iff, Z.eqb_neq. done.
Qed.

(** An empty slab is taken out of its cache and its page is freed. *)
Lemma delete_slab_run h a sl l c kc :
  heap_inv a h -> h_slabs h !! a = Some sl -> slab_ok (words h) a sl l ->
  sl_objects_allocated sl = 0 -> sl_owning_cache sl = Some c -> h_caches h !! c = Some kc ->
  exists h', kmem_slab_delete a (set_cache c (drop_slab a kc) h) = Ret (tt, h') /\
    heap_inv NULL h' /\ words h' = words h /\
    (forall y size, live h' y size <-> live h y size) /\
    (forall x, pg_free_at (h_pages h') x <-> pg_free_at (h_pages h) x \/ in_page a x) /\
    map kc_object_size (h_caches h') = map kc_object_size (h_caches h).
Proof.
  intros Hi Ha Hl Hz Hown Hc.
  destruct (pg_free_spec a (h_pages h)) as (p & E & I & W & F);
    [apply Hi|apply Hl|apply Hl|intros x Hx; by eapply (hi_used _ _ Hi)|].
  set (h' := mk_heap p (delete a (h_slabs h)) (<[c := drop_slab a kc]> (h_caches h))).
  assert (words h' = words h) as Hw by done.
  assert (forall b slb, h_slabs h' !! b = Some slb <-> a <> b /\ h_slabs h !! b = Some slb) as Hsl
    by (intros; apply lookup_delete_Some).
  assert (forall c' kc', h_caches h' !! c' = Some kc' -> exists kc0, h_caches h !! c' = Some kc0 /\
            kc_object_size kc' = kc_object_size kc0 /\ NoDup (kc_slab_list kc') /\
            (forall b, b ∈ kc_slab_list kc' <-> b ∈ kc_slab_list kc0 /\ b <> a)) as Hcs.
  { intros c' kc' Hc'. simpl in Hc'. apply list_lookup_insert_Some in Hc' as
      [(<- & <- & _)|[Hne Hc']].
    - exists kc. split_and!; try done; [|intros b; apply elem_of_drop].
      unfold drop_slab. simpl. apply NoDup_ListNoDup, List.NoDup_filter, NoDup_ListNoDup.
      by eapply (hi_nodup _ _ Hi).
    - exists kc'. split_and!; try done; [by eapply (hi_nodup _ _ Hi)|].
      intros b. split; [|tauto]. intros Hb. split; [done|]. intros ->.
      destruct (hi_list _ _ Hi c' kc' a Hc' Hb) as (sl2 & H1 & H2 & _). congruence. }
  exists h'. split; [|split; [|split; [done|split; [|split]]]].
  - unfold kmem_slab_delete, mbind, ST_bind, get, put, lift. simpl. by rewrite E.
  - constructor.
    + done.
    + intros b slb [Hne Hb]%Hsl. rewrite Hw. by apply (hi_slab _ _ Hi b).
    + intros b slb x [Hne Hb]%Hsl Hin Hf. simpl in Hf. apply F in Hf as [Hf|Hf].
      * by eapply (hi_used _ _ Hi b slb x).
      * destruct (hi_slab _ _ Hi b slb Hb) as [lb Hlb]. apply Hne.
        eapply (pages_disjoint a b x); [apply Hl|apply Hlb|done|done].
    + intros c' kc' Hc'. destruct (Hcs c' kc' Hc') as (kc0 & H1 & -> & _). by eapply (hi_size _ _ Hi).
    + intros c' kc' b Hc' Hb. destruct (Hcs c' kc' Hc') as (kc0 & H1 & H2 & H3 & H4).
      destruct (proj1 (H4 b) Hb) as [Hb0 Hne].
      destruct (hi_list _ _ Hi c' kc0 b H1 Hb0) as (slb & G1 & G2 & G3).
      exists slb. simpl. rewrite lookup_delete_ne by done. split_and!; congruence.
    + intros c' kc' Hc'. by destruct (Hcs c' kc' Hc') as (kc0 & _ & _ & H3 & _).
    + intros b slb [Hne Hb]%Hsl _.
      destruct (hi_owner _ _ Hi b slb Hb) as [Hnz (c' & kc' & G1 & G2 & G3)]; [done|].
      split; [done|]. exists c'. simpl. destruct (decide (c' = c)) as [->|Hcc].
      * exists (drop_slab a kc). simplify_eq. rewrite list_lookup_insert_eq
          by (by eapply lookup_lt_Some). split_and!; try done. by apply elem_of_drop.
      * exists kc'. by rewrite list_lookup_insert_ne.
  - intros y size. split.
    + intros (b & slb & lb & [Hne Hb]%Hsl & H1 & H2 & H3 & H4).
      rewrite Hw in H1. exists b, slb, lb. done.
    + intros (b & slb & lb & Hb & H1 & H2 & H3 & H4). destruct (decide (a = b)) as [<-|Hne].
      * simplify_eq. assert (lb = l) as -> by by eapply slab_ok_det.
        destruct H4. by eapply all_free.
      * exists b, slb, lb. rewrite Hw. split; [by apply Hsl|done].
  - done.
  - simpl. apply list_eq. intros j. rewrite !list_lookup_fmap.
    destruct (decide (c = j)) as [<-|Hne].
    + rewrite list_lookup_insert_eq by (by eapply lookup_lt_Some). by rewrite Hc.
    + by rewrite list_lookup_insert_ne.
Qed.

Lemma cache_free_run h x size :
  heap_inv NULL h -> live h x size ->
  exists c kc h', sl_owning_cache <$> (h_slabs h !! kmem_slab_infer_slab x) = Some (Some c) /\
    h_caches h !! c = Some kc /\ kmem_cache_free c x h = Ret (tt, h') /\ heap_inv NULL h' /\
    (forall y sz, live h' y sz <-> live h y sz /\ y <> x) /\
    (forall y, ~ (x <= y < x + 8) -> words h' !! y = words h !! y) /\
    (forall y, pg_free_at (h_pages h) y -> pg_free_at (h_pages h') y) /\
    map kc_object_size (h_caches h') = map kc_object_size (h_caches h).
Proof.
  intros Hi (a & sl & l & Ha & Hl & <- & Hx & Hni).
  assert (kmem_slab_infer_slab x = a) as Einf.
  { apply page_round_down; [apply Hl|]. eapply obj_in_page; [apply Hl|done]. }
  destruct (hi_owner _ _ Hi a sl Ha) as [Hnz (c & kc & Ho1 & Ho2 & Ho3)].
  { pose proof (so_pos _ _ _ _ Hl). unfold NULL. lia. }
  destruct (slab_free_run h a sl l x Hi Ha Hl Hx Hni) as (h1 & E1 & I1 & N1 & S1 & K1 & L1 & O1).
  set (sl' := mk_slab _ _ _ _) in *.
  assert (h_slabs h1 !! a = Some sl') as Ha1 by (rewrite S1; apply lookup_insert_eq).
  exists c, kc. rewrite Einf, Ha. cbn [fmap option_fmap option_map]. rewrite Ho1.
  unfold kmem_cache_free. rewrite Einf, (bind_run _ _ _ _ _ E1).
  rewrite (bind_run _ _ _ _ _ (slab_at_run _ _ _ Ha1)). unfold kmem_slab_is_empty.
  assert (h_caches h1 !! c = Some kc) as Hc1 by (by rewrite (os_caches _ _ _ _ _ O1)).
  destruct (Z.eqb_spec (sl_objects_allocated sl') 0) as [Ez|Enz].
  - destruct (delete_slab_run h1 a sl' (x :: l) c kc) as (h2 & E2 & I2 & W2 & L2 & F2 & Z2); try done.
    exists h2. split_and!; [done|done| |done| | | |].
    + unfold cache_at, mbind, ST_bind, get, lift, modify. by rewrite Hc1.
    + intros y sz. by rewrite L2, L1.
    + intros y Hy. rewrite W2. by apply (os_words _ _ _ _ _ O1).
    + intros y Hy. apply F2. left. by apply (os_free _ _ _ _ _ O1).
    + by rewrite Z2, (os_caches _ _ _ _ _ O1).
  - exists h1. split_and!; try done.
    + apply N1. intros E. apply Enz. simpl. lia.
    + intros y Hy. by apply (os_words _ _ _ _ _ O1).
    + intros y Hy. by apply (os_free _ _ _ _ _ O1).
    + by rewrite (os_caches _ _ _ _ _ O1).
Qed.

Lemma good_size_round size : good_size size -> ROUND_TO_MIN_SLAB_SIZE size = size.
Proof.
  intros [_ [q ->]]. unfold ROUND_TO_MIN_SLAB_SIZE. change MIN_SLAB_SIZE with 16.
  replace (q * 16 + 16 - 1) with (15 + q * 16) by lia. rewrite Z.div_add by lia.
  change (15 / 16) with 0. lia.
Qed.

(** A new slab, not yet in a cache, with all its objects free. *)
Lemma slab_create_run h size :
  heap_inv NULL h -> good_size size ->
  (kmem_slab_create size h = Ret (NULL, h) /\ fst (pg_alloc ALLOC_FLAG_ZERO_MEMORY (h_pages h)) = NULL) \/
  exists a h' sl x l, kmem_slab_create size h = Ret (a, h') /\ 0 < a /\
    heap_inv a h' /\ h_slabs h !! a = None /\ h_slabs h' = <[a := sl]> (h_slabs h) /\
    slab_ok (words h') a sl (x :: l) /\ sl_object_size sl = size /\
    sl_objects_allocated sl = 0 /\ sl_owning_cache sl = None /\ h_caches h' = h_caches h /\
    (forall y sz, live h' y sz <-> live h y sz) /\
    (forall y, in_page a y -> pg_free_at (h_pages h) y) /\
    (forall y, pg_free_at (h_pages h') y <-> pg_free_at (h_pages h) y /\ ~ in_page a y) /\
    (forall y, ~ in_page a y -> words h' !! y = words h !! y).
Proof.
  intros Hi Hs. unfold kmem_slab_create. rewrite (bind_run get _ _ _ _ eq_refl).
  pose proof (pg_alloc_spec ALLOC_FLAG_ZERO_MEMORY (h_pages h) (hi_pages _ _ Hi)) as Hal.
  destruct (pg_alloc ALLOC_FLAG_ZERO_MEMORY (h_pages h)) as [a p]. destruct Hal as [Ip Hal].
  destruct (a =? NULL) eqn:Ea.
  { left. apply Z.eqb_eq in Ea. subst. split; [|done].
    unfold mbind, ST_bind, put. destruct h. done. }
  right. destruct Hal as (Ap & Aa & Af & Fx & Wx).
  pose proof Hs as [[S1 S2] _]. change MIN_SLAB_SIZE with 16 in S1. rewrite good_size_round by done.
  set (h1 := set_pages p h).
  destruct (create_free_list_spec size a (Z.to_nat PAGE_SIZE) 48 NULL (words h1) [])
    as (fr & m & l & E & C & N & L & I & M); try done; try lia.
  { change PAGE_SIZE with 4096. change (Z.of_nat (Z.to_nat 4096)) with 4096. lia. }
  { constructor. }
  { constructor. }
  { by intros x ?%not_elem_of_nil. }
  simpl length in L. rewrite Z.add_0_l in L.
  assert (0 < max_objects size) as Hmax.
  { unfold max_objects. change PAGE_SIZE with 4096. change SIZEOF_SLAB with 48.
    apply Z.div_str_pos. change MAX_SLAB_SIZE with 1280 in S2. lia. }
  assert (Z.of_nat (length l) = max_objects size) as Ll by done.
  set (sl := mk_slab fr size 0 None). set (h' := set_slab a sl (set_words m h1)).
  assert (words h' = m) as Ew by (unfold words, h'; simpl; apply pg_words_set).
  assert (slab_ok m a sl l) as Hok.
  { constructor; simpl; try done; [|lia].
    intros x Hx. destruct (I x Hx) as [[]%not_elem_of_nil|(i & Hi' & ->)]. exists i.
    split; [exact Hi'|]. change SIZEOF_SLAB with 48. lia. }
  assert (h_slabs h !! a = None) as Hnone.
  { destruct (h_slabs h !! a) as [sl0|] eqn:E0; [|done].
    destruct (hi_used _ _ Hi a sl0 a E0); [|apply Af]; unfold in_page;
      change PAGE_SIZE with 4096; lia. }
  assert (forall y, ~ in_page a y -> m !! y = words h !! y) as Hm.
  { intros y Hy. rewrite M.
    - by apply Wx.
    - unfold in_page in Hy. lia. }
  assert (forall b slb, h_slabs h !! b = Some slb -> a <> b) as Hne by (intros b slb Hb ->; congruence).
  assert (forall b slb lb x, h_slabs h !! b = Some slb ->
            slab_ok (words h) b slb lb \/ slab_ok m b slb lb ->
            x ∈ lb -> m !! x = words h !! x) as Hag.
  { intros b slb lb x Hb Hsb Hx. apply Hm. intros Hin. apply (Hne b slb Hb).
    eapply (pages_disjoint a b x); [done| |done|].
    - by destruct Hsb as [Hsb|Hsb]; apply Hsb.
    - destruct Hsb as [Hsb|Hsb]; (eapply obj_in_page; [apply Hsb|by apply Hsb]). }
  destruct l as [|x l]; [simpl in Ll; lia|].
  exists a, h', sl, x, l. split_and!; try done.
  - unfold mbind, ST_bind, put, get, lift, modify, mret, ST_ret. fold h1.
    rewrite (proj2 (Z.leb_le size MAX_SLAB_SIZE)) by done. cbn [panic_unless].
    change (ROUND_TO_MIN_SLAB_SIZE SIZEOF_SLAB) with 48. by rewrite E.
  - constructor.
    + simpl. by apply pg_inv_set.
    + intros b slb Hb. rewrite Ew. simpl in Hb.
      apply lookup_insert_Some in Hb as [[<- <-]|[_ Hb]]; [eauto|].
      destruct (hi_slab _ _ Hi b slb Hb) as [lb Hlb]. exists lb. eapply slab_ok_agree; [done|].
      intros y Hy. eapply Hag; eauto.
    + intros b slb y Hb Hin. simpl. rewrite pg_free_at_set. simpl. rewrite Fx. simpl in Hb.
      apply lookup_insert_Some in Hb as [[<- <-]|[_ Hb]]; [tauto|].
      intros [Hf _]. by eapply (hi_used _ _ Hi b slb y).
    + apply Hi.
    + intros c kc b Hc Hb. destruct (hi_list _ _ Hi c kc b Hc Hb) as (slb & H1 & H2 & H3).
      exists slb. simpl. rewrite lookup_insert_ne by (by eapply Hne). done.
    + apply Hi.
    + intros b slb Hb Hba. simpl in Hb. apply lookup_insert_Some in Hb as [[<- <-]|[_ Hb]]; [done|].
      destruct (hi_slab _ _ Hi b slb Hb) as [lb Hlb]. pose proof (so_pos _ _ _ _ Hlb).
      apply (hi_owner _ _ Hi b slb Hb). unfold NULL. lia.
  - by rewrite Ew.
  - intros y sz. split.
    + intros (b & slb & lb & Hb & H1 & H2 & H3 & H4). rewrite Ew in H1. simpl in Hb.
      apply lookup_insert_Some in Hb as [[<- <-]|[_ Hb]].
      * assert (lb = x :: l) as -> by by eapply slab_ok_det. destruct H4.
        eapply all_free; [done|done|]. by rewrite H2.
      * exists b, slb, lb. split_and!; try done. eapply slab_ok_agree; [done|].
        intros z Hz. symmetry. eapply Hag; eauto.
    + intros (b & slb & lb & Hb & H1 & H2 & H3 & H4). exists b, slb, lb. rewrite Ew. simpl.
      rewrite lookup_insert_ne by (by eapply Hne). split_and!; try done.
      eapply slab_ok_agree; [done|]. intros z Hz. eapply Hag; eauto.
  - intros y. simpl. rewrite pg_free_at_set. apply Fx.
  - by rewrite Ew.
Qed.

(** An object of [size] bytes at [x] was handed out between [h] and [h']:
    memory that was neither free nor part of the object is unchanged. *)
Record obtained (h h' : heap P) (x size : Z) : Prop := {
  ob_inv : heap_inv NULL h';
  ob_pos : 0 < x;
  ob_obj : exists a, (PAGE_SIZE | a) /\ is_obj a size x;
  ob_new sz : ~ live h x sz;
  ob_live y sz : live h' y sz <-> live h y sz \/ (y = x /\ sz = size);
  ob_words y : ~ (x <= y < x + size) -> ~ pg_free_at (h_pages h) y ->
    words h' !! y = words h !! y;
  ob_free y : pg_free_at (h_pages h') y -> pg_free_at (h_pages h) y;
  ob_sizes : map kc_object_size (h_caches h') = map kc_object_size (h_caches h)
}.

Lemma slab_alloc_obtained e h a sl x l flags :
  heap_inv e h -> h_slabs h !! a = Some sl -> slab_ok (words h) a sl (x :: l) ->
  (e = NULL \/ e = a) -> owned h a sl ->
  exists h', kmem_slab_alloc a flags h = Ret (x, h') /\ obtained h h' x (sl_object_size sl).
Proof.
  intros Hi Ha Hl He Ho. pose proof (slab_alloc_run e h a sl (x :: l) flags Hi Ha Hl He Ho)
    as (h' & E & I & Px & Ox & Lx & [C1 C2 C3 C4]).
  exists h'. split; [done|]. constructor; try done.
  - exists a. split; [apply Hl|done].
  - intros sz Hlv. apply (live_in_slab e h a sl (x :: l)) in Hlv as [_ Hn]; try done.
    apply Hn. by apply elem_of_cons; left.
  - auto.
  - intros y. apply C3.
  - by rewrite C1.
Qed.

Lemma slab_list_alloc_run h c kc flags slabs :
  heap_inv NULL h -> h_caches h !! c = Some kc -> (forall a, a ∈ slabs -> a ∈ kc_slab_list kc) ->
  (slab_list_alloc slabs flags h = Ret (NULL, h) /\
     forall a, a ∈ slabs -> sl_free_list <$> (h_slabs h !! a) = Some NULL) \/
  exists x h', slab_list_alloc slabs flags h = Ret (x, h') /\ obtained h h' x (kc_object_size kc).
Proof.
  intros Hi Hc. induction slabs as [|a slabs IH]; intros Hin.
  { left. split; [done|]. by intros a ?%not_elem_of_nil. }
  assert (a ∈ kc_slab_list kc) as Hain by (apply Hin; by apply elem_of_cons; left).
  destruct (hi_list _ _ Hi c kc a Hc Hain) as (sl & Ha & Hown & Hsz).
  destruct (hi_slab _ _ Hi a sl Ha) as [l Hl].
  assert (owned h a sl) as Ho by (by exists c, kc). cbn [slab_list_alloc].
  destruct l as [|x l].
  - pose proof (slab_alloc_run NULL h a sl [] flags Hi Ha Hl (or_introl eq_refl) Ho) as E.
    rewrite (bind_run _ _ _ _ _ E). cbn [Z.eqb negb NULL].
    destruct IH as [[E2 H2]|(x & h' & E2 & H2)].
    { intros b Hb. apply Hin. by apply elem_of_cons; right. }
    + left. split; [done|]. intros b [->|Hb]%elem_of_cons; [|auto].
      rewrite Ha. simpl. f_equal. pose proof (so_chain _ _ _ _ Hl) as Hch.
      by apply chain_inv in Hch as [[_ ?]|(? & ? & ? & _)].
    + right. by exists x, h'.
  - right. destruct (slab_alloc_obtained NULL h a sl x l flags) as (h' & E & H); try done; [by left|].
    exists x, h'. rewrite (bind_run _ _ _ _ _ E). rewrite <- Hsz. split; [|done].
    by rewrite (proj2 (Z.eqb_neq _ _)) by (pose proof (ob_pos _ _ _ _ H); unfold NULL; lia).
Qed.

(** A new slab is put at the end of the list of its cache. *)
Lemma attach_slab h a sl l c kc :
  heap_inv a h -> 0 < a -> h_slabs h !! a = Some sl -> slab_ok (words h) a sl l ->
  sl_owning_cache sl = None -> h_caches h !! c = Some kc ->
  sl_object_size sl = kc_object_size kc ->
  let sl' := mk_slab (sl_free_list sl) (sl_object_size sl) (sl_objects_allocated sl) (Some c) in
  let h' := set_slab a sl' (set_cache c (mk_cache (kc_slab_list kc ++ [a]) (kc_object_size kc)) h) in
  heap_inv a h' /\ slab_ok (words h') a sl' l /\ owned h' a sl' /\
  (forall y sz, live h' y sz <-> live h y sz) /\
  map kc_object_size (h_caches h') = map kc_object_size (h_caches h).
Proof.
  intros Hi Hp Ha Hl Hown Hc Hsz sl' h'. pose proof (lookup_lt_Some _ _ _ Hc) as Hlt.
  assert (words h' = words h) as Ew by done.
  assert (slab_ok (words h) a sl' l) as Hl' by (destruct Hl; by constructor).
  assert (forall c' kc', h_caches h' !! c' = Some kc' ->
            (c' = c /\ kc' = mk_cache (kc_slab_list kc ++ [a]) (kc_object_size kc)) \/
            (c' <> c /\ h_caches h !! c' = Some kc')) as Hcs.
  { intros c' kc' Hc'. unfold h' in Hc'. simpl in Hc'.
    apply list_lookup_insert_Some in Hc' as [(<- & <- & _)|[? ?]]; auto. }
  assert (forall b slb, h_slabs h' !! b = Some slb ->
            (b = a /\ slb = sl') \/ (b <> a /\ h_slabs h !! b = Some slb)) as Hss.
  { intros b slb Hb. unfold h' in Hb. simpl in Hb.
    apply lookup_insert_Some in Hb as [[<- <-]|[? ?]]; auto. }
  assert (forall c' kc', h_caches h !! c' = Some kc' -> a ∉ kc_slab_list kc') as Hni.
  { intros c' kc' Hc' Hin. destruct (hi_list _ _ Hi c' kc' a Hc' Hin) as (sl2 & G1 & G2 & _).
    congruence. }
  split_and!.
  - constructor.
    + apply Hi.
    + intros b slb Hb. rewrite Ew. destruct (Hss b slb Hb) as [[-> ->]|[_ Hb']]; [eauto|].
      by apply (hi_slab _ _ Hi b).
    + intros b slb x Hb. destruct (Hss b slb Hb) as [[-> ->]|[_ Hb']].
      * by apply (hi_used _ _ Hi a sl x).
      * by apply (hi_used _ _ Hi b slb x).
    + intros c' kc' Hc'. destruct (Hcs c' kc' Hc') as [[-> ->]|[_ H]].
      * apply (hi_size _ _ Hi c kc Hc).
      * apply (hi_size _ _ Hi c' kc' H).
    + intros c' kc' b Hc' Hb. destruct (Hcs c' kc' Hc') as [[-> ->]|[Hne H]].
      * simpl in Hb. apply elem_of_app in Hb as [Hb|Hb].
        -- destruct (hi_list _ _ Hi c kc b Hc Hb) as (slb & G1 & G2 & G3). exists slb. simpl.
           rewrite lookup_insert_ne; [done|]. intros <-. by apply (Hni c kc).
        -- apply list_elem_of_singleton in Hb as ->. exists sl'. simpl. by rewrite lookup_insert_eq.
      * destruct (hi_list _ _ Hi c' kc' b H Hb) as (slb & G1 & G2 & G3). exists slb. simpl.
        rewrite lookup_insert_ne; [done|]. intros <-. by apply (Hni c' kc').
    + intros c' kc' Hc'. destruct (Hcs c' kc' Hc') as [[-> ->]|[_ H]].
      * simpl. apply NoDup_app. split; [by eapply (hi_nodup _ _ Hi)|]. split; [|apply NoDup_singleton].
        intros b Hb Hb2. apply list_elem_of_singleton in Hb2 as ->. by apply (Hni c kc).
      * by eapply (hi_nodup _ _ Hi).
    + intros b slb Hb Hne. destruct (Hss b slb Hb) as [[-> _]|[_ Hb']]; [done|].
      destruct (hi_owner _ _ Hi b slb Hb' Hne) as [Hz (c' & kc' & G1 & G2 & G3)]. split; [done|].
      exists c'. destruct (decide (c' = c)) as [->|Hcc].
      * exists (mk_cache (kc_slab_list kc ++ [a]) (kc_object_size kc)). simplify_eq. simpl.
        rewrite list_lookup_insert_eq by done. split_and!; try done. apply elem_of_app. by left.
      * exists kc'. simpl. by rewrite list_lookup_insert_ne.
  - by rewrite Ew.
  - exists c, (mk_cache (kc_slab_list kc ++ [a]) (kc_object_size kc)). simpl.
    rewrite list_lookup_insert_eq by done. split_and!; try done. apply elem_of_app. right.
    by apply list_elem_of_singleton.
  - intros y sz. split; intros (b & slb & lb & Hb & H1 & H2 & H3 & H4).
    + destruct (Hss b slb Hb) as [[-> ->]|[_ Hb']]; [|by exists b, slb, lb].
      exists a, sl, lb. split_and!; try done. destruct H1. by constructor.
    + destruct (decide (a = b)) as [<-|Hne].
      * exists a, sl', lb. simpl. rewrite lookup_insert_eq. simplify_eq.
        split_and!; try done. destruct H1. by constructor.
      * exists b, slb, lb. simpl. by rewrite lookup_insert_ne.
  - simpl. apply list_eq. intros j. rewrite !list_lookup_fmap.
    destruct (decide (c = j)) as [<-|Hne].
    + rewrite list_lookup_insert_eq by done. by rewrite Hc.
    + by rewrite list_lookup_insert_ne.
Qed.

Lemma obtained_after h h1 h2 x size :
  (forall y sz, live h1 y sz <-> live h y sz) ->
  (forall y, ~ pg_free_at (h_pages h) y -> words h1 !! y = words h !! y) ->
  (forall y, pg_free_at (h_pages h1) y -> pg_free_at (h_pages h) y) ->
  map kc_object_size (h_caches h1) = map kc_object_size (h_caches h) ->
  obtained h1 h2 x size -> obtained h h2 x size.
Proof.
  intros Hl Hw Hf Hs []. constructor; try done.
  - intros sz H. by apply (ob_new0 sz), Hl.
  - intros y sz. by rewrite ob_live0, Hl.
  - intros y Hy Hny. rewrite ob_words0 by auto. by apply Hw.
  - auto.
  - congruence.
Qed.

Lemma cache_at_run h c kc : h_caches h !! c = Some kc -> cache_at c h = Ret (kc, h).
Proof. intros E. unfold cache_at, mbind, ST_bind, get, lift. by rewrite E. Qed.

Lemma cache_alloc_run h c kc flags :
  heap_inv NULL h -> h_caches h !! c = Some kc ->
  (kmem_cache_alloc c flags h = Ret (NULL, h) /\
     fst (pg_alloc ALLOC_FLAG_ZERO_MEMORY (h_pages h)) = NULL /\
     forall a, a ∈ kc_slab_list kc -> sl_free_list <$> (h_slabs h !! a) = Some NULL) \/
  exists x h', kmem_cache_alloc c flags h = Ret (x, h') /\ obtained h h' x (kc_object_size kc).
Proof.
  intros Hi Hc. unfold kmem_cache_alloc. rewrite (bind_run _ _ _ _ _ (cache_at_run _ _ _ Hc)).
  destruct (slab_list_alloc_run h c kc flags (kc_slab_list kc) Hi Hc ltac:(done))
    as [[E1 Hfull]|(x & h' & E1 & H)]; rewrite (bind_run _ _ _ _ _ E1); cycle 1.
  { right. exists x, h'. split; [|done].
    by rewrite (proj2 (Z.eqb_neq _ _)) by (pose proof (ob_pos _ _ _ _ H); unfold NULL; lia). }
  rewrite Z.eqb_refl. pose proof (hi_size _ _ Hi c kc Hc) as Hsz.
  destruct (slab_create_run h (kc_object_size kc) Hi Hsz)
    as [[E2 Hnone]|(a & h1 & sl & x & l & E2 & Hp & I1 & Hnew & Hs1 & K1 & Z1 & N1 & O1 & C1 & L1 & F0 & F1 & W1)].
  { left. rewrite (bind_run _ _ _ _ _ E2). split_and!; try done. }
  right. rewrite (bind_run _ _ _ _ _ E2).
  rewrite (proj2 (Z.eqb_neq a NULL)) by (unfold NULL; lia). cbn [negb].
  assert (h_slabs h1 !! a = Some sl) as Ha1 by (rewrite Hs1; apply lookup_insert_eq).
  assert (h_caches h1 !! c = Some kc) as Hc1 by (by rewrite C1).
  destruct (attach_slab h1 a sl (x :: l) c kc I1 Hp Ha1 K1 O1 Hc1 Z1) as (I2 & K2 & W2 & L2 & S2).
  set (sl' := mk_slab _ _ _ _) in *. set (h2 := set_slab a sl' _) in *.
  assert (h_slabs h2 !! a = Some sl') as Ha2 by (unfold h2; simpl; apply lookup_insert_eq).
  destruct (slab_alloc_obtained a h2 a sl' x l flags I2 Ha2 K2 (or_intror eq_refl) W2) as (h3 & E3 & H3).
  exists x, h3. split.
  - set (hc := set_cache c (mk_cache (kc_slab_list kc ++ [a]) (kc_object_size kc)) h1).
    rewrite (bind_run _ _ _ tt hc eq_refl), (bind_run _ _ _ sl hc) by (by apply slab_at_run).
    rewrite (bind_run _ _ _ tt h2 eq_refl). exact E3.
  - rewrite <- Z1. eapply obtained_after; [..|exact H3].
    + intros y sz. by rewrite L2, L1.
    + intros y Hy. change (words h2) with (words h1). apply W1. intros Hin. apply Hy. auto.
    + intros y Hy. apply F1 in Hy. tauto.
    + by rewrite S2, C1.
Qed.

Lemma find_cache_spec size i cs c :
  find_cache size i cs = Some c ->
  exists kc, cs !! (c - i)%nat = Some kc /\ (i <= c)%nat /\ size <= kc_object_size kc /\
    forall j kj, (j < c - i)%nat -> cs !! j = Some kj -> kc_object_size kj < size.
Proof.
  revert i. induction cs as [|kc cs IH]; intros i E; [done|]. cbn [find_cache] in E.
  destruct (Z.leb_spec size (kc_object_size kc)).
  - injection E as <-. exists kc. rewrite Nat.sub_diag. split_and!; [done|lia|done|]. lia.
  - destruct (IH (S i) E) as (k & H1 & H2 & H3 & H4). exists k.
    replace (c - i)%nat with (S (c - S i)) by lia. split_and!; [done|lia|done|].
    intros [|j] kj Hj Hkj; simplify_eq/=; [done|]. apply (H4 j kj); [lia|done].
Qed.

Lemma find_cache_None size i cs :
  find_cache size i cs = None -> forall kc, kc ∈ cs -> kc_object_size kc < size.
Proof.
  revert i. induction cs as [|k cs IH]; intros i E kc Hin; [by apply not_elem_of_nil in Hin|].
  cbn [find_cache] in E. destruct (Z.leb_spec size (kc_object_size k)); [done|].
  apply elem_of_cons in Hin as [->|Hin]; [done|]. by eapply IH.
Qed.

(** The caches are sorted by size, so the first one that fits is the smallest. *)
Lemma cache_sizes_first (cs : list kmem_cache) c kc size s :
  map kc_object_size cs = cache_sizes -> cs !! c = Some kc ->
  (forall j kj, (j < c)%nat -> cs !! j = Some kj -> kc_object_size kj < size) ->
  s ∈ cache_sizes -> size <= s -> kc_object_size kc <= s.
Proof.
  intros Hcs Hc Hmin Hin Hs.
  assert (cache_sizes !! c = Some (kc_object_size kc)) as Hk.
  { rewrite <- Hcs. change (map kc_object_size cs) with (kc_object_size <$> cs).
    by rewrite list_lookup_fmap, Hc. }
  apply list_elem_of_lookup in Hin as [j Hj]. destruct (decide (j < c)%nat) as [Hlt|Hge].
  - rewrite <- Hcs in Hj. change (map kc_object_size cs) with (kc_object_size <$> cs) in Hj.
    rewrite list_lookup_fmap in Hj. destruct (cs !! j) as [kj|] eqn:Ej; [|done].
    injection Hj as <-. pose proof (Hmin j kj Hlt Ej). lia.
  - assert (forall i j a b, (i <= j)%nat -> cache_sizes !! i = Some a -> cache_sizes !! j = Some b ->
              a <= b) as Hsort; [|by apply (Hsort c j); [lia|..]].
    clear. intros i j a b Hij Hi Hj. pose proof (lookup_lt_Some _ _ _ Hj) as Hlt.
    change (length cache_sizes) with 8%nat in Hlt.
    do 8 (destruct j as [|j]; [do 8 (destruct i as [|i]; [vm_compute in Hi, Hj;
      injection Hi as <-; injection Hj as <-; lia || done|]); lia|]). lia.
Qed.

(** *** Properties *)

Lemma live_range h e x size :
  heap_inv e h -> live h x size ->
  exists a sl, h_slabs h !! a = Some sl /\ sl_object_size sl = size /\ good_size size /\
    is_obj a size x /\ (PAGE_SIZE | a) /\ a < x /\ x + size <= a + PAGE_SIZE.
Proof.
  intros Hi (a & sl & l & Ha & Hl & <- & Hx & _). exists a, sl.
  pose proof (is_obj_range _ _ _ (so_size _ _ _ _ Hl) Hx). change SIZEOF_SLAB with 48 in *.
  split_and!; try done; try apply Hl; lia.
Qed.


(** C20: [kmalloc].  A request of more than a page is a panic.  Otherwise it
    returns an object of the smallest cache that fits, which was not in use, or
    a whole page if no cache fits, and leaves everything else alone; or it
    returns NULL and changes nothing, and then the page allocator had no page
    left. *)
Theorem kmalloc_spec h size flags :
  heap_inv NULL h -> map kc_object_size (h_caches h) = cache_sizes -> 0 <= size ->
  if PAGE_SIZE <? size then kmalloc size flags h = Panic
  else exists x h', kmalloc size flags h = Ret (x, h') /\ heap_inv NULL h' /\
    ((x = NULL /\ h' = h /\
        (fst (pg_alloc ALLOC_FLAG_ZERO_MEMORY (h_pages h)) = NULL \/
         fst (pg_alloc flags (h_pages h)) = NULL)) \/
     (exists osize, osize ∈ cache_sizes /\ size <= osize /\
        (forall s, s ∈ cache_sizes -> size <= s -> osize <= s) /\ obtained h h' x osize) \/
     ((forall s, s ∈ cache_sizes -> s < size) /\ 0 < x /\ (PAGE_SIZE | x) /\
        (forall y, in_page x y -> pg_free_at (h_pages h) y) /\
        (forall y, pg_free_at (h_pages h') y <-> pg_free_at (h_pages h) y /\ ~ in_page x y) /\
        (forall y sz, live h' y sz <-> live h y sz))).
Proof.
  intros Hi Hcs Hs. destruct (Z.ltb_spec PAGE_SIZE size) as [Hbig|Hsmall].
  { unfold kmalloc, mbind, ST_bind, lift. by rewrite (proj2 (Z.leb_gt _ _)). }
  unfold kmalloc, mbind at 1, ST_bind at 1, lift at 1. rewrite (proj2 (Z.leb_le _ _)) by lia.
  cbn [panic_unless]. rewrite (bind_run get _ _ _ _ eq_refl).
  assert (forall s, s ∈ cache_sizes <-> exists kc, kc ∈ h_caches h /\ kc_object_size kc = s) as Hel.
  { intros s. rewrite <- Hcs, list_elem_of_In, in_map_iff. split; intros (kc & H1 & H2);
      exists kc; rewrite list_elem_of_In in *; done. }
  destruct (find_cache size 0 (h_caches h)) as [c|] eqn:Hf.
  - apply find_cache_spec in Hf as (kc & Hc & _ & Hle & Hmin). rewrite Nat.sub_0_r in *.
    destruct (cache_alloc_run h c kc flags Hi Hc) as [(E & Hnone & _)|(x & h' & E & H)].
    + exists NULL, h. split; [done|]. split; [done|]. left. auto.
    + exists x, h'. split; [done|]. split; [apply H|]. right; left. exists (kc_object_size kc).
      split; [apply Hel; exists kc; split; [by eapply list_elem_of_lookup_2|done]|].
      split; [done|]. split; [|done]. intros s Hin Hss.
      eapply cache_sizes_first; [exact Hcs|exact Hc| |exact Hin|exact Hss]. exact Hmin.
  - pose proof (find_cache_None _ _ _ Hf) as Hno.
    pose proof (pg_alloc_spec flags (h_pages h) (hi_pages _ _ Hi)) as Hal.
    destruct (pg_alloc flags (h_pages h)) as [a p] eqn:Ep. destruct Hal as [Ip Hal].
    exists a, (set_pages p h). split; [done|]. destruct (Z.eqb_spec a NULL) as [->|Hnz].
    + subst p. assert (set_pages (h_pages h) h = h) as -> by (by destruct h).
      split; [done|]. left. auto.
    + destruct Hal as (Ap & Aa & Af & Fx & Wx).
      assert (forall b slb x, h_slabs h !! b = Some slb -> in_page b x ->
                pg_words p !! x = words h !! x) as Hag.
      { intros b slb x Hb Hin. apply Wx. intros Hina.
        eapply (hi_used _ _ Hi b slb x Hb Hin). auto. }
      assert (forall b slb lb, h_slabs h !! b = Some slb ->
                slab_ok (words h) b slb lb <-> slab_ok (pg_words p) b slb lb) as Hok.
      { intros b slb lb Hb. split; intros Hl; (eapply slab_ok_agree; [exact Hl|]); intros x Hx.
        - eapply Hag; [done|]. eapply obj_in_page; [apply Hl|by apply Hl].
        - symmetry. eapply Hag; [done|]. eapply obj_in_page; [apply Hl|by apply Hl]. }
      split.
      * destruct Hi. constructor; simpl; try done.
        -- intros b slb Hb. destruct (hi_slab0 b slb Hb) as [lb Hlb]. exists lb. by apply Hok.
        -- intros b slb x Hb Hin Hfr. apply Fx in Hfr as [Hfr _]. by eapply hi_used0.
      * right; right. split_and!; try done.
        -- intros s (kc & Hin & <-)%Hel. by apply Hno.
        -- intros y sz. split; intros (b & slb & lb & Hb & H1 & H2 & H3 & H4);
             exists b, slb, lb; (split; [done|]); (split; [|done]); by apply (Hok b slb lb Hb).
Qed.

(** [kfree] of an object that was handed out returns it to its slab, and
    the slab's page to the page allocator when the slab becomes empty.  No
    other object is affected, and only the first word of the object is
    written. *)
Theorem kfree_object_spec (in_ram : Z -> bool) h x size :
  heap_inv NULL h -> live h x size -> in_ram x = true ->
  exists h', kfree in_ram x h = Ret (tt, h') /\ heap_inv NULL h' /\
    (forall y sz, live h' y sz <-> live h y sz /\ y <> x) /\
    (forall y, ~ (x <= y < x + 8) -> words h' !! y = words h !! y) /\
    (forall y, pg_free_at (h_pages h) y -> pg_free_at (h_pages h') y).
Proof.
  intros Hi Hl Hr. destruct (live_range h NULL x size Hi Hl) as (a & sl & Ha & _ & G & O & Pa & R1 & R2).
  destruct (cache_free_run h x size Hi Hl) as (c & kc & h' & Ho & Hc & E & I & L & W & F & _).
  exists h'. split_and!; try done. unfold kfree, mbind at 1, ST_bind at 1, lift. rewrite Hr.
  cbn [panic_unless]. destruct G as [[G1 _] _]. change MIN_SLAB_SIZE with 16 in G1.
  assert (in_page a x) as Hpg by (unfold in_page; lia).
  rewrite (page_mod a x Pa Hpg), (proj2 (Z.eqb_neq _ _)) by lia.
  assert (kmem_slab_infer_slab x = a) as Einf by (by apply page_round_down).
  rewrite Einf, Ha in Ho. injection Ho as Ho.
  rewrite Einf, (bind_run _ _ _ _ _ (slab_at_run _ _ _ Ha)), Ho. exact E.
Qed.
End Heap.

(** ** Witnesses *)

Definition empty_heap : heap kernel_memory :=
  mk_heap booted_memory ∅ (replicate 8 (mk_cache [] 0)).
Definition ready_heap : heap kernel_memory := ran kalloc_init_caches empty_heap.

Lemma ready_heap_eq :
  ready_heap = mk_heap booted_memory ∅ (map (mk_cache []) cache_sizes).
Proof. reflexivity. Qed.

Lemma cache_sizes_good s : s ∈ cache_sizes -> good_size s.
Proof.
  intros Hs. assert (Forall (fun s => MIN_SLAB_SIZE <= s <= MAX_SLAB_SIZE /\ s mod 16 = 0) cache_sizes)
    as Hall by (apply (bool_decide_unpack _); vm_compute; exact I).
  rewrite Forall_forall in Hall. destruct (Hall s Hs) as [H1 H2]. split; [done|].
  change MIN_SLAB_SIZE with 16. apply Z.mod_divide; [lia|done].
Qed.

Lemma new_heap_inv (p : kernel_memory) :
  buddy_inv p -> heap_inv NULL (mk_heap p ∅ (map (mk_cache []) cache_sizes)).
Proof.
  intros Hp.
  assert (forall c kc, map (mk_cache []) cache_sizes !! c = Some kc ->
            exists s, s ∈ cache_sizes /\ kc = mk_cache [] s) as Hcs.
  { intros c kc Hc. change (map (mk_cache []) cache_sizes) with (mk_cache [] <$> cache_sizes) in Hc.
    rewrite list_lookup_fmap in Hc. destruct (cache_sizes !! c) as [s|] eqn:E; [|done].
    injection Hc as <-. exists s. split; [by eapply list_elem_of_lookup_2|done]. }
  constructor; simpl; try done.
  - intros c kc (s & Hs & ->)%Hcs. by apply cache_sizes_good.
  - intros c kc a (s & Hs & ->)%Hcs Ha. by apply not_elem_of_nil in Ha.
  - intros c kc (s & Hs & ->)%Hcs. constructor.
Qed.

Lemma ready_heap_inv : heap_inv NULL ready_heap.
Proof. rewrite ready_heap_eq. apply new_heap_inv, booted_memory_ok. Qed.

Lemma kmalloc_spec_witness :
  exists x h', kmalloc 100 ALLOC_FLAG_NONE ready_heap = Ret (x, h') /\ heap_inv NULL h'.
Proof.
  destruct (kmalloc_spec ready_heap 100 ALLOC_FLAG_NONE ready_heap_inv eq_refl ltac:(lia))
    as (x & h' & E & H & _).
  exists x, h'. exact (conj E H).
Defined.

(** A heap with an object of 128 bytes. *)
Lemma object_heap : exists (h : heap kernel_memory) x, heap_inv NULL h /\ live h x 128.
Proof.
  destruct (cache_alloc_run ready_heap 3 (mk_cache [] 128) ALLOC_FLAG_NONE ready_heap_inv eq_refl)
    as [(_ & H & _)|(x & h' & _ & H)].
  - vm_compute in H. discriminate H.
  - exists h', x. split; [apply H|]. apply (ob_live _ _ _ _ H). right. split; reflexivity.
Qed.


Lemma kfree_object_spec_witness :
  exists (h : heap kernel_memory) x h', live h x 128 /\
    kfree (fun _ => true) x h = Ret (tt, h') /\ heap_inv NULL h'.
Proof.
  destruct object_heap as (h & x & Hi & Hl).
  destruct (kfree_object_spec (fun _ => true) h x 128 Hi Hl eq_refl) as (h' & E & H & _).
  exists h, x, h'. exact (conj Hl (conj E H)).
Defined.
