(* ===== verification/Perm.v ===== *)
(** * Permissions and credentials (kernel/kernel/permission.c,
    kernel/syscalls/sys_cred.c)

    The checks of file access by mode bits, user and group, the access check of
    an open file by its open flags, and the system calls that change the user
    and group ids of a process. *)
From stdpp Require Import sets list.
From S2P Require Import Prelude.

(** ** Flags *)

Definition O_RDONLY : Z := 0x000.
Definition O_WRONLY : Z := 0x001.
Definition O_RDWR : Z := 0x002.
Definition O_CREAT : Z := 0x200.
Definition O_TRUNC : Z := 0x400.
Definition O_APPEND : Z := 0x800.
Definition O_EXEC : Z := 0x1000.

Definition MAY_EXEC : Z := 0x01.
Definition MAY_WRITE : Z := 0x02.
Definition MAY_READ : Z := 0x04.
Definition MAY_APPEND : Z := 0x08.
Definition MAY_UNLINK : Z := 0x80.

(** Mode bits; the source has them in octal. *)
Definition S_ISVTX : Z := 0x200.
Definition S_IRUSR : Z := 0x100.
Definition S_IWUSR : Z := 0x080.
Definition S_IXUSR : Z := 0x040.
Definition S_IRGRP : Z := 0x020.
Definition S_IWGRP : Z := 0x010.
Definition S_IXGRP : Z := 0x008.
Definition S_IROTH : Z := 0x004.
Definition S_IWOTH : Z := 0x002.
Definition S_IXOTH : Z := 0x001.

Definition S_IFMT : Z := 0xF000.
Definition S_IFREG : Z := 0x8000.
Definition S_IFBLK : Z := 0x6000.
Definition S_IFDIR : Z := 0x4000.
Definition S_IFCHR : Z := 0x2000.
Definition S_IFIFO : Z := 0x1000.

Definition S_ISREG (m : Z) : bool := Z.land m S_IFMT =? S_IFREG.
Definition S_ISDIR (m : Z) : bool := Z.land m S_IFMT =? S_IFDIR.
Definition S_ISCHR (m : Z) : bool := Z.land m S_IFMT =? S_IFCHR.
Definition S_ISBLK (m : Z) : bool := Z.land m S_IFMT =? S_IFBLK.
Definition S_ISFIFO (m : Z) : bool := Z.land m S_IFMT =? S_IFIFO.

(** [m & b] used as a truth value. *)
Definition has (m b : Z) : bool := negb (Z.land m b =? 0).

(** ** Data *)

Record cred := mk_cred {
  c_uid : Z; c_euid : Z; c_suid : Z;
  c_gid : Z; c_egid : Z; c_sgid : Z;
  c_groups : list Z
}.

(** The part of [struct inode] that the checks read. *)
Record inode_attr := mk_attr { i_mode : Z; i_uid : Z; i_gid : Z }.

Definition IS_SUPERUSER (c : cred) : bool := c_euid c =? 0.

(** ** permission.c *)

Definition perm_mask_from_open_flags (flags : Z) : Z :=
  let mask := 0 in
  let mask := if flags =? O_RDONLY then Z.lor mask MAY_READ else mask in
  let mask := if has flags O_WRONLY then Z.lor mask MAY_WRITE else mask in
  let mask := if has flags O_CREAT then Z.lor mask MAY_WRITE else mask in
  let mask := if has flags O_RDWR then Z.lor mask (Z.lor MAY_READ MAY_WRITE) else mask in
  let mask := if has flags O_APPEND then Z.lor mask MAY_APPEND else mask in
  let mask := if has flags O_EXEC then Z.lor mask MAY_EXEC else mask in
  mask.

(** [check_file_permission] for a file that was opened with [f_flags]. *)
Definition check_file_permission (f_flags mask : Z) : Z :=
  let needs_write_access := (has mask MAY_WRITE || has mask MAY_APPEND)%bool in
  let needs_read_access := has mask MAY_READ in
  if ((f_flags =? O_RDONLY) && needs_write_access)%bool then - EBADF
  else if ((f_flags =? O_WRONLY) && needs_read_access)%bool then - EBADF
  else 0.

(** The loop over the supplementary groups. *)
Fixpoint in_groups (gid : Z) (groups : list Z) : bool :=
  match groups with
  | [] => false
  | g :: groups => if g =? gid then true else in_groups gid groups
  end.

Definition in_group (c : cred) (gid : Z) : bool :=
  if gid =? c_egid c then true else in_groups gid (c_groups c).

Definition permission_check_read (c : cred) (mode uid gid : Z) : bool :=
  if c_euid c =? 0 then true
  else if c_euid c =? uid then has mode S_IRUSR
  else if in_group c gid then has mode S_IRGRP
  else has mode S_IROTH.

Definition permission_check_write (c : cred) (mode uid gid : Z) : bool :=
  if c_euid c =? 0 then true
  else if c_euid c =? uid then has mode S_IWUSR
  else if in_group c gid then has mode S_IWGRP
  else has mode S_IWOTH.

Definition permission_check_execute (c : cred) (mode uid gid : Z) : bool :=
  if c_euid c =? uid then has mode S_IXUSR
  else if in_group c gid then has mode S_IXGRP
  else has mode S_IXOTH.

Definition check_inode_permission (c : cred) (ip : inode_attr) (mask : Z) : Z :=
  let mode := i_mode ip in
  let uid := i_uid ip in
  let gid := i_gid ip in
  let rest (mask : Z) : Z :=
    if (has mask MAY_READ && negb (permission_check_read c mode uid gid))%bool then - EACCES
    else if ((has mask MAY_WRITE || has mask MAY_APPEND) &&
             negb (permission_check_write c mode uid gid))%bool then - EACCES
    else if (has mask MAY_EXEC && negb (permission_check_execute c mode uid gid))%bool
         then - EACCES
    else 0 in
  if has mask MAY_UNLINK then
    if has mode S_ISVTX then
      if (negb (IS_SUPERUSER c) && negb (c_euid c =? uid))%bool then - EPERM else 0
    else rest (Z.lor mask MAY_WRITE)
  else rest mask.

(** The dentry of a path; [None] has no inode (any more). *)
Definition check_dentry_permission (c : cred) (dp : option inode_attr) (mask : Z) : Z :=
  match dp with
  | None => - ENOENT
  | Some ip =>
      let mode := i_mode ip in
      let uid := i_uid ip in
      let gid := i_gid ip in
      let rest (mask : Z) : Z :=
        if (has mask MAY_READ && negb (permission_check_read c mode uid gid))%bool then - EACCES
        else if ((has mask MAY_WRITE || has mask MAY_APPEND) &&
                 negb (permission_check_write c mode uid gid))%bool then - EACCES
        else if (has mask MAY_EXEC && negb (permission_check_execute c mode uid gid))%bool
             then - EACCES
        else 0 in
      if has mask MAY_UNLINK then
        if has mode S_ISVTX then
          if (negb (IS_SUPERUSER c) && negb (c_euid c =? uid))%bool then - EPERM else 0
        else rest (Z.lor mask MAY_WRITE)
      else rest mask
  end.

(** ** sys_cred.c *)

Definition set_uids (u e s : Z) (c : cred) : cred :=
  mk_cred u e s (c_gid c) (c_egid c) (c_sgid c) (c_groups c).
Definition set_gids (g e s : Z) (c : cred) : cred :=
  mk_cred (c_uid c) (c_euid c) (c_suid c) g e s (c_groups c).

Definition do_setuid (uid : Z) (c : cred) : Z * cred :=
  if IS_SUPERUSER c then (0, set_uids uid uid uid c)
  else if (negb (uid =? c_uid c) && negb (uid =? c_euid c) && negb (uid =? c_suid c))%bool
       then (- EPERM, c)
       else (0, set_uids (c_uid c) uid (c_suid c) c).

Definition do_setgid (gid : Z) (c : cred) : Z * cred :=
  if IS_SUPERUSER c then (0, set_gids gid gid gid c)
  else if (negb (gid =? c_gid c) && negb (gid =? c_egid c) && negb (gid =? c_sgid c))%bool
       then (- EPERM, c)
       else (0, set_gids (c_gid c) gid (c_sgid c) c).

Definition do_setresuid (ruid euid suid : Z) (c : cred) : Z * cred :=
  let bad id := (negb (id =? -1) && negb (id =? c_uid c) && negb (id =? c_euid c) &&
                 negb (id =? c_suid c))%bool in
  if (negb (IS_SUPERUSER c) && (bad ruid || bad euid || bad suid))%bool then (- EPERM, c)
  else (0, set_uids (if negb (ruid =? -1) then ruid else c_uid c)
                    (if negb (euid =? -1) then euid else c_euid c)
                    (if negb (suid =? -1) then suid else c_suid c) c).

Definition do_setresgid (rgid egid sgid : Z) (c : cred) : Z * cred :=
  let bad id := (negb (id =? -1) && negb (id =? c_gid c) && negb (id =? c_egid c) &&
                 negb (id =? c_sgid c))%bool in
  if (negb (IS_SUPERUSER c) && (bad rgid || bad egid || bad sgid))%bool then (- EPERM, c)
  else (0, set_gids (if negb (rgid =? -1) then rgid else c_gid c)
                    (if negb (egid =? -1) then egid else c_egid c)
                    (if negb (sgid =? -1) then sgid else c_sgid c) c).

(** The system calls with their arguments in registers: [argint] truncates to
    32 bits. *)
Definition sys_setuid (args : nat -> Z) : cred -> Z * cred := do_setuid (s32 (args 0%nat)).
Definition sys_setgid (args : nat -> Z) : cred -> Z * cred := do_setgid (s32 (args 0%nat)).
Definition sys_setresuid (args : nat -> Z) : cred -> Z * cred :=
  do_setresuid (s32 (args 0%nat)) (s32 (args 1%nat)) (s32 (args 2%nat)).
Definition sys_setresgid (args : nat -> Z) : cred -> Z * cred :=
  do_setresgid (s32 (args 0%nat)) (s32 (args 1%nat)) (s32 (args 2%nat)).

(** ** What the checks grant

    The access class of the caller selects three bits of the mode; the
    superuser reads and writes regardless, but needs the execute bit of its
    class. *)

Definition class_shift (c : cred) (ip : inode_attr) : Z :=
  if decide (c_euid c = i_uid ip) then 6
  else if decide (i_gid ip = c_egid c \/ i_gid ip ∈ c_groups c) then 3 else 0.

(** [right] is a bit of the class triple: 2 read, 1 write, 0 execute. *)
Definition granted (c : cred) (ip : inode_attr) (right : Z) : Prop :=
  (c_euid c = 0 /\ right <> 0) \/ Z.testbit (i_mode ip) (class_shift c ip + right) = true.

(** What a request mask asks for, a removal without sticky bit included. *)
Definition requested (mask right : Z) : Prop :=
  match right with
  | 2 => Z.testbit mask 2 = true
  | 1 => Z.testbit mask 1 = true \/ Z.testbit mask 3 = true \/ Z.testbit mask 7 = true
  | _ => Z.testbit mask 0 = true
  end.

Definition removal_protected (ip : inode_attr) (mask : Z) : Prop :=
  Z.testbit mask 7 = true /\ Z.testbit (i_mode ip) 9 = true.

#[export] Instance removal_protected_dec ip mask : Decision (removal_protected ip mask).
Proof. unfold removal_protected; apply _. Defined.

Lemma has_testbit (m k : Z) : 0 <= k -> has m (2 ^ k) = Z.testbit m k.
Proof.
  intros Hk; unfold has.
  destruct (Z.testbit m k) eqn:E.
  - destruct (Z.eqb_spec (Z.land m (2 ^ k)) 0) as [H|]; [|done].
    apply (f_equal (fun x => Z.testbit x k)) in H.
    by rewrite Z.land_spec, Z.pow2_bits_true, Z.bits_0, E in H.
  - destruct (Z.eqb_spec (Z.land m (2 ^ k)) 0) as [|H]; [done|].
    destruct H; apply Z.bits_inj'; intros i Hi.
    rewrite Z.land_spec, Z.bits_0, Z.pow2_bits_eqb by lia.
    destruct (Z.eqb_spec k i) as [->|]; [by rewrite E | by rewrite andb_false_r].
Qed.

(** All the tests of a single flag, as tests of its bit. *)
Ltac to_bits :=
  repeat match goal with
  | |- context [has ?m ?f] =>
      let v := eval cbv in (Z.log2 f) in
      let r := constr:(has_testbit m v ltac:(lia)) in
      change (has m f) with (has m (2 ^ v)); rewrite r
  end.

Lemma in_groups_elem g l : in_groups g l = true <-> g ∈ l.
Proof.
  induction l as [|x l IH]; simpl.
  - split; [done | by intros H%elem_of_nil].
  - rewrite elem_of_cons, <- IH. destruct (Z.eqb_spec x g) as [->|]; [naive_solver|].
    split; [by right | intros [->|?]; done].
Qed.

Lemma in_group_spec c g : in_group c g = true <-> g = c_egid c \/ g ∈ c_groups c.
Proof.
  unfold in_group. rewrite <- in_groups_elem.
  destruct (Z.eqb_spec g (c_egid c)); naive_solver.
Qed.

Lemma class_shift_cases c ip :
  class_shift c ip = (if c_euid c =? i_uid ip then 6 else if in_group c (i_gid ip) then 3 else 0).
Proof.
  unfold class_shift. repeat case_decide.
  - by rewrite (proj2 (Z.eqb_eq _ _)).
  - rewrite (proj2 (Z.eqb_neq _ _)) by done. by rewrite (proj2 (in_group_spec _ _)).
  - rewrite (proj2 (Z.eqb_neq _ _)) by done.
    destruct (in_group c (i_gid ip)) eqn:E; [|done]. by apply in_group_spec in E.
Qed.

Ltac solve_granted :=
  unfold granted; rewrite class_shift_cases;
  repeat (match goal with |- context [?a =? ?b] => destruct (Z.eqb_spec a b) end);
  try destruct (in_group _ _); to_bits; simpl; intuition congruence.

Lemma read_granted c ip :
  permission_check_read c (i_mode ip) (i_uid ip) (i_gid ip) = true <-> granted c ip 2.
Proof. unfold permission_check_read; solve_granted. Qed.

Lemma write_granted c ip :
  permission_check_write c (i_mode ip) (i_uid ip) (i_gid ip) = true <-> granted c ip 1.
Proof. unfold permission_check_write; solve_granted. Qed.

Lemma execute_granted c ip :
  permission_check_execute c (i_mode ip) (i_uid ip) (i_gid ip) = true <-> granted c ip 0.
Proof. unfold permission_check_execute; solve_granted. Qed.

Lemma dentry_check_inode c ip mask :
  check_dentry_permission c (Some ip) mask = check_inode_permission c ip mask.
Proof. done. Qed.

(** The outcome of a check of a set of requested rights. *)
Definition access_decision (c : cred) (ip : inode_attr) (mask ret : Z) : Prop :=
  if decide (removal_protected ip mask)
  then (ret = 0 /\ (c_euid c = 0 \/ c_euid c = i_uid ip)) \/
       (ret = - EPERM /\ c_euid c <> 0 /\ c_euid c <> i_uid ip)
  else (ret = 0 /\ (forall right, right ∈ [2; 1; 0] -> requested mask right -> granted c ip right)) \/
       (ret = - EACCES /\ exists right, right ∈ [2; 1; 0] /\ requested mask right /\ ~ granted c ip right).

Lemma rights_checked c ip mask (r w x : bool) :
  (r = true <-> requested mask 2) -> (w = true <-> requested mask 1) ->
  (x = true <-> requested mask 0) ->
  let ret :=
    if (r && negb (permission_check_read c (i_mode ip) (i_uid ip) (i_gid ip)))%bool then - EACCES
    else if (w && negb (permission_check_write c (i_mode ip) (i_uid ip) (i_gid ip)))%bool
    then - EACCES
    else if (x && negb (permission_check_execute c (i_mode ip) (i_uid ip) (i_gid ip)))%bool
    then - EACCES else 0 in
  (ret = 0 /\ forall right, right ∈ [2; 1; 0] -> requested mask right -> granted c ip right) \/
  (ret = - EACCES /\ exists right, right ∈ [2; 1; 0] /\ requested mask right /\ ~ granted c ip right).
Proof.
  intros Hr Hw Hx.
  pose proof (read_granted c ip) as Gr. pose proof (write_granted c ip) as Gw.
  pose proof (execute_granted c ip) as Gx.
  destruct (permission_check_read _ _ _ _), (permission_check_write _ _ _ _),
           (permission_check_execute _ _ _ _), r, w, x; cbn [andb negb];
    (left; split; [reflexivity|]; intros right Hin Hq;
       rewrite !elem_of_cons, elem_of_nil in Hin;
       destruct Hin as [->|[->|[->|[]]]]; intuition congruence) ||
    (right; split; [reflexivity|];
       ((exists 2; rewrite <- Gr, <- Hr; split; [set_solver | intuition congruence]) ||
        (exists 1; rewrite <- Gw, <- Hw; split; [set_solver | intuition congruence]) ||
        (exists 0; rewrite <- Gx, <- Hx; split; [set_solver | intuition congruence]))).
Qed.

Lemma inode_check_decides c ip mask :
  access_decision c ip mask (check_inode_permission c ip mask).
Proof.
  unfold access_decision, check_inode_permission, IS_SUPERUSER.
  change MAY_UNLINK with (2 ^ 7). change S_ISVTX with (2 ^ 9).
  rewrite !has_testbit by lia.
  destruct (decide (removal_protected ip mask)) as [[E7 E9]|Hn].
  { rewrite E7, E9.
    destruct (Z.eqb_spec (c_euid c) 0), (Z.eqb_spec (c_euid c) (i_uid ip)); simpl; auto. }
  unfold removal_protected in Hn.
  destruct (Z.testbit mask 7) eqn:E7; [destruct (Z.testbit (i_mode ip) 9) eqn:E9; [tauto|]|].
  - apply rights_checked; to_bits; rewrite ?Z.lor_spec; cbn [requested];
      change (Z.testbit MAY_WRITE 2) with false; change (Z.testbit MAY_WRITE 1) with true;
      change (Z.testbit MAY_WRITE 0) with false; change (Z.testbit MAY_WRITE 3) with false;
      rewrite ?E7, ?orb_true_iff; intuition congruence.
  - apply rights_checked; to_bits; cbn [requested]; rewrite ?E7, ?orb_true_iff; intuition congruence.
Qed.

(** [check_inode_permission] and [check_dentry_permission] decide access by
    one rule. A removal in a directory with the sticky bit is allowed to the
    superuser and the directory's owner only, [-EPERM] otherwise. Every other
    request is allowed exactly when each requested right is granted by the mode
    bits of the caller's class (owner, group, other, the first that matches), the
    superuser having read and write but not execute for free; [-EACCES]
    otherwise. A dentry without inode gives [-ENOENT]. *)
Theorem permission_checks_decide c ip mask :
  access_decision c ip mask (check_inode_permission c ip mask) /\
  access_decision c ip mask (check_dentry_permission c (Some ip) mask) /\
  check_dentry_permission c None mask = - ENOENT.
Proof. rewrite dentry_check_inode. auto using inode_check_decides. Qed.

(** ** Open flags *)

(** Opening an existing file with [O_TRUNC] as only flag asks for no
    permission: the check passes for every process and every file, whatever its
    mode, and the open file then passes the checks of both [read] and [write].
    Likewise a file opened with [O_WRONLY | O_CREAT] was checked for writing only,
    yet passes the check of [read]. *)
Theorem open_flags_bypass_checks c ip :
  check_dentry_permission c (Some ip) (perm_mask_from_open_flags O_TRUNC) = 0 /\
  check_file_permission O_TRUNC MAY_READ = 0 /\
  check_file_permission O_TRUNC MAY_WRITE = 0 /\
  perm_mask_from_open_flags (Z.lor O_WRONLY O_CREAT) = MAY_WRITE /\
  check_file_permission (Z.lor O_WRONLY O_CREAT) MAY_READ = 0.
Proof. repeat split. Qed.

(** ** Credentials *)

Inductive cred_call :=
  | SetUid (u : Z) | SetGid (g : Z)
  | SetResUid (r e s : Z) | SetResGid (r e s : Z).

Definition run_call (k : cred_call) : cred -> Z * cred :=
  match k with
  | SetUid u => do_setuid u
  | SetGid g => do_setgid g
  | SetResUid r e s => do_setresuid r e s
  | SetResGid r e s => do_setresgid r e s
  end.

Definition run_calls (ks : list cred_call) (c : cred) : cred :=
  fold_left (fun c k => snd (run_call k c)) ks c.

Definition uids (c : cred) : list Z := [c_uid c; c_euid c; c_suid c].
Definition gids (c : cred) : list Z := [c_gid c; c_egid c; c_sgid c].

Lemma unprivileged_step c k :
  c_euid c <> 0 ->
  uids (snd (run_call k c)) ⊆ uids c /\ gids (snd (run_call k c)) ⊆ gids c /\
  c_groups (snd (run_call k c)) = c_groups c.
Proof.
  intros Hne. apply Z.eqb_neq in Hne.
  destruct k; cbn [run_call]; unfold do_setuid, do_setgid, do_setresuid, do_setresgid, IS_SUPERUSER;
    rewrite Hne; cbn [negb andb]; unfold uids, gids;
    repeat (match goal with |- context [?a =? ?b] => destruct (Z.eqb_spec a b); subst end; simpl);
    (split; [set_solver | split; [set_solver | done]]).
Qed.

Lemma unprivileged_run ks c :
  (0 ∉ uids c) ->
  uids (run_calls ks c) ⊆ uids c /\ gids (run_calls ks c) ⊆ gids c /\
  c_groups (run_calls ks c) = c_groups c.
Proof.
  revert c; induction ks as [|k ks IH]; intros c H0; [by split|].
  cbn [run_calls fold_left].
  destruct (unprivileged_step c k) as (Hu & Hg & Hs).
  { intros E; apply H0; unfold uids; rewrite E; set_solver. }
  destruct (IH (snd (run_call k c))) as (Hu' & Hg' & Hs'); [set_solver|].
  unfold run_calls in *. rewrite Hs', Hs. split; [|split]; [set_solver..|done].
Qed.

(** C34: privileges are never gained. A process none of whose three user ids is
    the superuser keeps, through any sequence of [setuid], [setgid],
    [setresuid] and [setresgid] calls with any arguments, user ids among those it
    started with, group ids among those it started with, and its supplementary
    groups. *)
Theorem unprivileged_ids_closed ks c :
  0 ∉ uids c ->
  uids (run_calls ks c) ⊆ uids c /\ gids (run_calls ks c) ⊆ gids c /\
  c_groups (run_calls ks c) = c_groups c.
Proof. apply unprivileged_run. Qed.

Definition some_user : cred := mk_cred 1000 1000 1001 100 100 100 [10; 20].

Lemma unprivileged_ids_closed_witness :
  uids (run_calls [SetUid 1001; SetResUid 0 0 0; SetGid 0] some_user) ⊆ uids some_user.
Proof.
  exact (proj1 (unprivileged_ids_closed [SetUid 1001; SetResUid 0 0 0; SetGid 0] some_user
                  ltac:(vm_compute; intros H; repeat (apply elem_of_cons in H as [H|H]; [done|]);
                        by apply elem_of_nil in H))).
Defined.

(** A drop of privileges by [setuid] is permanent. After the superuser
    calls [setuid] with another user all three user ids are that user, and no
    later sequence of calls changes any of them. *)
Theorem setuid_drop_is_permanent u c ks :
  c_euid c = 0 -> u <> 0 ->
  fst (do_setuid u c) = 0 /\ uids (run_calls ks (snd (do_setuid u c))) = [u; u; u].
Proof.
  intros Hr Hu. unfold do_setuid, IS_SUPERUSER. rewrite Hr, Z.eqb_refl. split; [done|]. cbn [snd].
  destruct (unprivileged_run ks (set_uids u u u c)) as (Hs & _).
  { unfold uids; simpl; set_solver. }
  assert (forall x, x ∈ uids (run_calls ks (set_uids u u u c)) -> x = u) as Hall.
  { intros x Hx. apply Hs in Hx. unfold uids in Hx; simpl in Hx; set_solver. }
  unfold uids in *.
  by rewrite (Hall (c_uid _)), (Hall (c_euid _)), (Hall (c_suid _)) by set_solver.
Qed.

Lemma setuid_drop_is_permanent_witness :
  uids (run_calls [SetUid 0; SetResUid (-1) 0 (-1)]
          (snd (do_setuid 1000 (mk_cred 0 0 0 0 0 0 [])))) = [1000; 1000; 1000].
Proof.
  exact (proj2 (setuid_drop_is_permanent 1000 (mk_cred 0 0 0 0 0 0 [])
                  [SetUid 0; SetResUid (-1) 0 (-1)] eq_refl ltac:(lia))).
Defined.
