(* ===== verification/Pipe.v ===== *)
(** * Pipes and circular buffers (kernel/ipc/pipe.c, kernel/lib/cbuffer.c)

    A pipe is a ring of 512 bytes between two 64-bit counters that only grow and
    may wrap around. [pipe_write] and [pipe_read] hold the pipe's lock except
    while they sleep, so the unit of interleaving is a run from the start, or
    from a wake-up, to the next sleep or return; [pipe_write] and [pipe_read]
    below are such runs, and a schedule is any sequence of them.

    The user memory a call copies from or to is what the call sees of the page
    table of its process: a source is a partial function from addresses to
    bytes, a target a predicate of the addresses that can be written. *)
From stdpp Require Import list numbers.
From S2P Require Import Prelude.

(** ** pipe.h *)

Definition PIPE_SIZE : Z := 512.

Record pipe := mk_pipe {
  p_data : list Z;
  nread : Z;
  nwrite : Z;
  read_open : bool;
  write_open : bool
}.

(** ** pipe.c *)

Definition pipe_is_empty (p : pipe) : bool := nread p =? nwrite p.
Definition pipe_is_full (p : pipe) : bool := nwrite p =? u64 (nread p + PIPE_SIZE).

(** The pipe [pipe_alloc] sets up in a zeroed page. *)
Definition new_pipe : pipe := mk_pipe (replicate 512 0) 0 0 true true.

(** The second component is [free_pipe]: the caller was the last one and the
    pipe is freed. *)
Definition pipe_close (close_writing_end : bool) (p : pipe) : pipe * bool :=
  let p := if close_writing_end
           then mk_pipe (p_data p) (nread p) (nwrite p) (read_open p) false
           else mk_pipe (p_data p) (nread p) (nwrite p) false (write_open p) in
  (p, (negb (read_open p) && negb (write_open p))%bool).

(** How a run ends: with the return value, or asleep with [i] bytes done. *)
Inductive io := Done (ret : Z) | Sleeping (i : Z).

(** [pipe->data[pipe->nwrite % PIPE_SIZE] = ch; pipe->nwrite++] *)
Definition pipe_push (ch : Z) (p : pipe) : pipe :=
  mk_pipe (<[Z.to_nat (nwrite p mod PIPE_SIZE) := ch]> (p_data p))
          (nread p) (u64 (nwrite p + 1)) (read_open p) (write_open p).

Definition pipe_pop (p : pipe) : Z * pipe :=
  (default 0 (p_data p !! Z.to_nat (nread p mod PIPE_SIZE)),
   mk_pipe (p_data p) (u64 (nread p + 1)) (nwrite p) (read_open p) (write_open p)).

(** The loop of [pipe_write]. [killed] is the answer of [proc_is_killed] at each
    iteration, [src] the user memory. The last component is the bytes that
    [uvm_copy_in] delivered. *)
Fixpoint write_loop (fuel : nat) (killed : Z -> bool) (src : Z -> option Z)
    (src_user_addr n : Z) (p : pipe) (i : Z) : option (io * pipe * list Z) :=
  match fuel with
  | O => None
  | S fuel =>
      if i <? n then
        if (negb (read_open p) || killed i)%bool then Some (Done (-1), p, [])
        else if pipe_is_full p then Some (Sleeping i, p, [])
        else match src (u64 (src_user_addr + i)) with
             | None => Some (Done i, p, [])
             | Some ch =>
                 match write_loop fuel killed src src_user_addr n (pipe_push ch p) (i + 1) with
                 | Some (r, p, l) => Some (r, p, ch :: l)
                 | None => None
                 end
             end
      else Some (Done i, p, [])
  end.

(** A run of [pipe_write], [i = 0] for the first one and the position it slept
    at for a later one. At most 512 bytes fit before it has to sleep. *)
Definition pipe_write (killed : Z -> bool) (src : Z -> option Z) (src_user_addr n i : Z)
    (p : pipe) : option (io * pipe * list Z) :=
  write_loop (S (S (Z.to_nat PIPE_SIZE))) killed src src_user_addr n p i.

(** A byte taken out of the pipe: its target address, the byte, and whether
    [uvm_copy_out] could store it. *)
Definition taken : Type := Z * Z * bool.

Fixpoint read_loop (fuel : nat) (writable : Z -> bool) (addr n : Z) (p : pipe) (i : Z)
    : option (Z * pipe * list taken) :=
  match fuel with
  | O => None
  | S fuel =>
      if i <? n then
        if pipe_is_empty p then Some (i, p, [])
        else
          let '(ch, p) := pipe_pop p in
          let dst := u64 (addr + i) in
          if writable dst then
            match read_loop fuel writable addr n p (i + 1) with
            | Some (r, p, l) => Some (r, p, (dst, ch, true) :: l)
            | None => None
            end
          else Some (i, p, [(dst, ch, false)])
      else Some (i, p, [])
  end.

Definition pipe_read (killed : bool) (writable : Z -> bool) (addr n : Z) (p : pipe)
    : option (io * pipe * list taken) :=
  if (pipe_is_empty p && write_open p)%bool then
    if killed then Some (Done (-1), p, []) else Some (Sleeping 0, p, [])
  else
    match read_loop (S (S (Z.to_nat PIPE_SIZE))) writable addr n p 0 with
    | Some (r, p, l) => Some (Done r, p, l)
    | None => None
    end.

(** ** cbuffer.c *)

Record cbuffer := mk_cbuffer { cb_buffer : list Z; cb_head : Z; cb_tail : Z; cb_capacity : Z }.

Definition cbuffer_init (buffer : list Z) (capacity : Z) : cbuffer :=
  mk_cbuffer buffer 0 0 capacity.

Definition cbuffer_put (ch : Z) (cb : cbuffer) : cbuffer :=
  let next_head := (cb_head cb + 1) mod cb_capacity cb in
  let tail := if next_head =? cb_tail cb then (cb_tail cb + 1) mod cb_capacity cb
              else cb_tail cb in
  mk_cbuffer (<[Z.to_nat (cb_head cb) := ch]> (cb_buffer cb)) next_head tail (cb_capacity cb).

Fixpoint cbuffer_write (data : list Z) (cb : cbuffer) : Z * cbuffer :=
  match data with
  | [] => (0, cb)
  | ch :: data => let '(n, cb) := cbuffer_write data (cbuffer_put ch cb) in (1 + n, cb)
  end.

(** [data_len] bytes at most; the bytes stored to [data] are returned. *)
Fixpoint cbuffer_read (data_len : nat) (cb : cbuffer) : list Z * cbuffer :=
  match data_len with
  | O => ([], cb)
  | S data_len =>
      if cb_tail cb =? cb_head cb then ([], cb)
      else
        let ch := default 0 (cb_buffer cb !! Z.to_nat (cb_tail cb)) in
        let cb := mk_cbuffer (cb_buffer cb) (cb_head cb)
                    ((cb_tail cb + 1) mod cb_capacity cb) (cb_capacity cb) in
        let '(l, cb) := cbuffer_read data_len cb in (ch :: l, cb)
  end.

Definition cbuffer_available_data (cb : cbuffer) : Z :=
  if cb_head cb >=? cb_tail cb then cb_head cb - cb_tail cb
  else cb_capacity cb - (cb_tail cb - cb_head cb).

Definition cbuffer_available_space (cb : cbuffer) : Z :=
  cb_capacity cb - cbuffer_available_data cb - 1.

(** ** Rings

    The content of [count] bytes from position [start] of a ring of [cap]
    slots; shared by the pipe and the circular buffer. *)

Definition slot (data : list Z) (cap pos : Z) : Z :=
  default 0 (data !! Z.to_nat (pos mod cap)).

Definition ring (data : list Z) (cap start count : Z) : list Z :=
  (fun k => slot data cap (start + k)) <$> seqZ 0 count.

Lemma ring_length data cap start count : length (ring data cap start count) = Z.to_nat count.
Proof. unfold ring. by rewrite length_fmap, length_seqZ. Qed.

Lemma slot_congr data cap x y : x mod cap = y mod cap -> slot data cap x = slot data cap y.
Proof. unfold slot. by intros ->. Qed.

Lemma ring_congr data cap s s' count :
  cap <> 0 -> s mod cap = s' mod cap -> ring data cap s count = ring data cap s' count.
Proof.
  intros Hc H. unfold ring. apply list_fmap_ext; intros i k _. apply slot_congr.
  by rewrite <- Zplus_mod_idemp_l, H, Zplus_mod_idemp_l.
Qed.

Lemma ring_pop data cap start count :
  0 < count ->
  ring data cap start count = slot data cap start :: ring data cap (start + 1) (count - 1).
Proof.
  intros H. unfold ring. rewrite seqZ_cons by lia. cbn [fmap list_fmap].
  rewrite Z.add_0_r. f_equal. replace (Z.pred count) with (count - 1) by lia.
  rewrite <- (fmap_add_seqZ 1 0), <- list_fmap_compose.
  apply list_fmap_ext; intros i k _; simpl. f_equal; lia.
Qed.

Lemma ring_push data cap start count ch :
  length data = Z.to_nat cap -> 0 <= count < cap ->
  ring (<[Z.to_nat ((start + count) mod cap) := ch]> data) cap start (count + 1) =
  ring data cap start count ++ [ch].
Proof.
  intros Hl Hc. unfold ring. rewrite seqZ_app by lia. rewrite fmap_app. f_equal.
  - apply list_fmap_ext. intros i k Hk%lookup_seqZ. unfold slot. rewrite list_lookup_insert_ne; [done|].
    intros E. apply Z2Nat.inj in E; [|apply Z.mod_pos_bound; lia..].
    pose proof (Z.div_mod (start + count) cap) as D1. pose proof (Z.div_mod (start + k) cap) as D2.
    assert (cap * ((start + count) / cap - (start + k) / cap) = count - k) by lia.
    assert (0 < (start + count) / cap - (start + k) / cap < 1) by nia. lia.
  - rewrite seqZ_cons by lia. cbn. f_equal. unfold slot. rewrite list_lookup_insert_eq; [done|].
    rewrite Hl. pose proof (Z.mod_pos_bound (start + count) cap). lia.
Qed.

(** ** The content of a pipe *)

Definition pipe_count (p : pipe) : Z := u64 (nwrite p - nread p).
Definition contents (p : pipe) : list Z := ring (p_data p) PIPE_SIZE (nread p) (pipe_count p).

Definition pipe_ok (p : pipe) : Prop :=
  length (p_data p) = Z.to_nat PIPE_SIZE /\ is_u 64 (nread p) /\ is_u 64 (nwrite p) /\
  pipe_count p <= PIPE_SIZE.

Lemma u64_mod_PIPE x : u64 x mod PIPE_SIZE = x mod PIPE_SIZE.
Proof. unfold u64, uwrap, PIPE_SIZE. change (2 ^ 64) with (512 * 2 ^ 55). Z.to_euclidean_division_equations; lia. Qed.

Lemma contents_length p : Z.of_nat (length (contents p)) = pipe_count p.
Proof.
  unfold contents. rewrite ring_length.
  assert (0 <= pipe_count p) by (unfold pipe_count, u64, uwrap; apply Z.mod_pos_bound; lia). lia.
Qed.

Lemma pipe_empty_spec p : pipe_ok p -> pipe_is_empty p = true <-> pipe_count p = 0.
Proof.
  intros (_ & Hr & Hw & _). unfold pipe_is_empty, pipe_count, u64, uwrap, is_u in *.
  rewrite Z.eqb_eq. split; [intros ->; by rewrite Z.sub_diag|].
  intros H. Z.to_euclidean_division_equations; lia.
Qed.

Lemma pipe_full_spec p : pipe_ok p -> pipe_is_full p = true <-> pipe_count p = PIPE_SIZE.
Proof.
  intros (_ & Hr & Hw & _). unfold pipe_is_full, pipe_count, u64, uwrap, is_u, PIPE_SIZE in *.
  rewrite Z.eqb_eq. split; intros H; Z.to_euclidean_division_equations; lia.
Qed.

Lemma pipe_not_full p : pipe_ok p -> pipe_is_full p = false -> pipe_count p < PIPE_SIZE.
Proof.
  intros Hok Ef. pose proof (pipe_full_spec p Hok) as Hs. rewrite Ef in Hs.
  pose proof Hok as (_ & _ & _ & Hc).
  destruct (decide (pipe_count p = PIPE_SIZE)) as [E|]; [by apply Hs in E | lia].
Qed.

Lemma pipe_not_empty p : pipe_ok p -> pipe_is_empty p = false -> 0 < pipe_count p.
Proof.
  intros Hok Ee. pose proof (pipe_empty_spec p Hok) as Hs. rewrite Ee in Hs.
  pose proof (contents_length p).
  destruct (decide (pipe_count p = 0)) as [E|]; [by apply Hs in E | lia].
Qed.

Lemma pipe_push_spec ch p :
  pipe_ok p -> pipe_count p < PIPE_SIZE ->
  pipe_ok (pipe_push ch p) /\ pipe_count (pipe_push ch p) = pipe_count p + 1 /\
  contents (pipe_push ch p) = contents p ++ [ch].
Proof.
  intros (Hl & Hr & Hw & Hc) Hlt.
  assert (0 <= pipe_count p) by (unfold pipe_count, u64, uwrap; apply Z.mod_pos_bound; lia).
  assert (pipe_count (pipe_push ch p) = pipe_count p + 1) as E.
  { unfold pipe_count, pipe_push, u64, uwrap, PIPE_SIZE in *; simpl in *.
    Z.to_euclidean_division_equations; lia. }
  split; [|split; [done|]].
  - unfold pipe_ok. rewrite E. unfold pipe_push; simpl. rewrite length_insert.
    split; [done|]. split; [done|]. split; [apply uwrap_range; lia | lia].
  - unfold contents. rewrite E. unfold pipe_push; simpl.
    rewrite <- ring_push by (done || lia). do 3 f_equal.
    rewrite <- Zplus_mod_idemp_r. unfold pipe_count. rewrite u64_mod_PIPE, Zplus_mod_idemp_r.
    f_equal; lia.
Qed.

Lemma pipe_pop_spec p :
  pipe_ok p -> 0 < pipe_count p ->
  pipe_ok (snd (pipe_pop p)) /\ pipe_count (snd (pipe_pop p)) = pipe_count p - 1 /\
  contents p = fst (pipe_pop p) :: contents (snd (pipe_pop p)).
Proof.
  intros (Hl & Hr & Hw & Hc) Hlt.
  assert (pipe_count (snd (pipe_pop p)) = pipe_count p - 1) as E.
  { unfold pipe_count, pipe_pop, u64, uwrap, PIPE_SIZE in *; simpl in *.
    Z.to_euclidean_division_equations; lia. }
  split; [|split; [done|]].
  - unfold pipe_ok. rewrite E. unfold pipe_pop; simpl.
    split; [done|]. split; [apply uwrap_range; lia|]. split; [done | lia].
  - unfold contents. rewrite E, ring_pop by done. unfold pipe_pop; simpl. f_equal.
    apply ring_congr; [done|]. by rewrite u64_mod_PIPE.
Qed.

(** ** Runs of the two loops *)

Definition same_ends (p p' : pipe) : Prop :=
  read_open p' = read_open p /\ write_open p' = write_open p.

Lemma write_loop_appends fuel killed src addr n p i :
  pipe_ok p -> PIPE_SIZE - pipe_count p < Z.of_nat fuel ->
  exists r p' l, write_loop fuel killed src addr n p i = Some (r, p', l) /\
    pipe_ok p' /\ contents p' = contents p ++ l /\ same_ends p p'.
Proof.
  revert p i; induction fuel as [|fuel IH]; intros p i Hok Hf; cbn [write_loop].
  { destruct Hok as (_ & _ & _ & H); lia. }
  assert (forall r : io, exists r' p' l, Some (r, p, []) = Some (r', p', l) /\
    pipe_ok p' /\ contents p' = contents p ++ l /\ same_ends p p') as Hstay.
  { intros r. exists r, p, []. by rewrite app_nil_r. }
  destruct (i <? n); [|apply Hstay].
  destruct (negb (read_open p) || killed i)%bool; [apply Hstay|].
  destruct (pipe_is_full p) eqn:Ef; [apply Hstay|].
  destruct (src (u64 (addr + i))) as [ch|]; [|apply Hstay].
  pose proof (pipe_not_full p Hok Ef) as Hlt.
  destruct (pipe_push_spec ch p Hok Hlt) as (Hok' & Hc' & Hcont).
  destruct (IH (pipe_push ch p) (i + 1)) as (r & p' & l & -> & Ho & Hct & Hse); [done | lia |].
  exists r, p', (ch :: l). rewrite Hct, Hcont, <- app_assoc. by split.
Qed.

Lemma write_loop_stores fuel killed src addr n p i (b : Z -> Z) :
  pipe_ok p -> PIPE_SIZE - pipe_count p < Z.of_nat fuel -> read_open p = true -> i <= n ->
  (forall j, i <= j < n -> killed j = false /\ src (u64 (addr + j)) = Some (b j)) ->
  let k := Z.min (n - i) (PIPE_SIZE - pipe_count p) in
  exists p', write_loop fuel killed src addr n p i =
    Some (if k =? n - i then Done n else Sleeping (i + k), p', b <$> seqZ i k).
Proof.
  revert p i; induction fuel as [|fuel IH]; intros p i Hok Hf Hro Hin Hsrc; cbn [write_loop].
  { destruct Hok as (_ & _ & _ & H); lia. }
  pose proof Hok as (_ & _ & _ & Hc).
  destruct (Z.ltb_spec i n) as [Hlt|].
  2:{ exists p. replace (Z.min (n - i) (PIPE_SIZE - pipe_count p)) with 0 by lia.
      replace (n - i) with 0 by lia. replace i with n by lia. done. }
  destruct (Hsrc i) as [-> ->]; [lia|]. rewrite Hro. cbn [negb orb].
  destruct (pipe_is_full p) eqn:Ef.
  { apply pipe_full_spec in Ef as E; [|done]. exists p.
    replace (Z.min (n - i) (PIPE_SIZE - pipe_count p)) with 0 by lia.
    rewrite (proj2 (Z.eqb_neq 0 (n - i))) by lia. by rewrite Z.add_0_r. }
  pose proof (pipe_not_full p Hok Ef) as Hlt'.
  destruct (pipe_push_spec (b i) p Hok Hlt') as (Hok' & Hc' & _).
  destruct (IH (pipe_push (b i) p) (i + 1)) as (p' & ->); [done | lia | done | lia | |].
  { intros j Hj. apply Hsrc. lia. }
  exists p'. rewrite Hc'.
  replace (Z.min (n - i) (PIPE_SIZE - pipe_count p))
    with (Z.succ (Z.min (n - (i + 1)) (PIPE_SIZE - (pipe_count p + 1)))) by lia.
  set (m := Z.min _ _). assert (0 <= m) by lia.
  rewrite (seqZ_cons i) by lia. rewrite Z.pred_succ. cbn [fmap list_fmap].
  replace (Z.succ i) with (i + 1) by lia.
  destruct (Z.eqb_spec m (n - (i + 1))), (Z.eqb_spec (Z.succ m) (n - i)); try lia; [done|].
  do 4 f_equal; lia.
Qed.

Definition byte_of (t : taken) : Z := t.1.2.

Lemma bytes_of_delivered (f : nat -> Z) l :
  byte_of <$> imap (fun k ch => (f k, ch, true)) l = l.
Proof.
  revert f; induction l as [|x l IH]; intros f; [done|]. cbn [imap fmap list_fmap].
  f_equal. apply (IH (fun k => f (S k))).
Qed.

Lemma read_loop_takes fuel writable addr n p i :
  pipe_ok p -> pipe_count p < Z.of_nat fuel ->
  exists r p' l, read_loop fuel writable addr n p i = Some (r, p', l) /\
    pipe_ok p' /\ contents p = (byte_of <$> l) ++ contents p' /\ same_ends p p'.
Proof.
  revert p i; induction fuel as [|fuel IH]; intros p i Hok Hf; cbn [read_loop].
  { pose proof (contents_length p). lia. }
  assert (forall r : Z, exists r' p' l, Some (r, p, []) = Some (r', p', l) /\
    pipe_ok p' /\ contents p = (byte_of <$> l) ++ contents p' /\ same_ends p p') as Hstay.
  { intros r. by exists r, p, []. }
  destruct (i <? n); [|apply Hstay].
  destruct (pipe_is_empty p) eqn:Ee; [apply Hstay|].
  pose proof (pipe_not_empty p Hok Ee) as Hpos.
  destruct (pipe_pop_spec p Hok Hpos) as (Hok' & Hc' & Hcont).
  assert (same_ends p (snd (pipe_pop p))) as He by done.
  destruct (pipe_pop p) as [ch p1]; cbn [fst snd] in *.
  destruct (writable _).
  - destruct (IH p1 (i + 1)) as (r & p' & l & -> & Ho & Hct & He1 & He2); [done | lia |].
    exists r, p', ((u64 (addr + i), ch, true) :: l). rewrite Hcont, Hct.
    split; [done|]. split; [done|]. split; [done|]. destruct He. by split; congruence.
  - exists i, p1, [(u64 (addr + i), ch, false)]. by rewrite Hcont.
Qed.

Lemma read_loop_delivers fuel writable addr n p i :
  pipe_ok p -> pipe_count p < Z.of_nat fuel -> i <= n ->
  (forall j, i <= j < n -> writable (u64 (addr + j)) = true) ->
  exists p', read_loop fuel writable addr n p i =
    Some (i + Z.min (n - i) (pipe_count p), p',
          imap (fun k ch => (u64 (addr + (i + Z.of_nat k)), ch, true))
               (take (Z.to_nat (n - i)) (contents p))).
Proof.
  revert p i; induction fuel as [|fuel IH]; intros p i Hok Hf Hin Hw; cbn [read_loop].
  { pose proof (contents_length p). lia. }
  pose proof (contents_length p) as Hlen.
  destruct (Z.ltb_spec i n) as [Hlt|].
  2:{ exists p. replace (n - i) with 0 by lia. repeat f_equal; lia. }
  destruct (pipe_is_empty p) eqn:Ee.
  { apply pipe_empty_spec in Ee; [|done]. exists p.
    destruct (contents p); [|simpl in Hlen; lia]. rewrite take_nil. repeat f_equal; lia. }
  pose proof (pipe_not_empty p Hok Ee) as Hpos.
  destruct (pipe_pop_spec p Hok Hpos) as (Hok' & Hc' & Hcont).
  destruct (pipe_pop p) as [ch p1]; cbn [fst snd] in *.
  rewrite Hw by lia.
  destruct (IH p1 (i + 1)) as (p' & ->); [done | lia | lia | |].
  { intros j Hj. apply Hw. lia. }
  exists p'. rewrite Hcont.
  replace (Z.to_nat (n - i)) with (S (Z.to_nat (n - (i + 1)))) by lia.
  cbn [take imap]. f_equal. f_equal; [f_equal; lia|].
  f_equal; [by rewrite Z.add_0_r|]. apply imap_ext. intros k x _. unfold compose.
  do 3 f_equal. lia.
Qed.

(** ** Schedules *)

(** What the processes using a pipe may do next: one run of a read or write, or
    the close of an end. *)
Inductive event :=
  | EWrite (killed : Z -> bool) (src : Z -> option Z) (addr n i : Z)
  | ERead (killed : bool) (writable : Z -> bool) (addr n : Z)
  | EClose (writing_end : bool).

(** A pipe with all the bytes that went in and came out so far. *)
Record history := mk_history { h_pipe : pipe; h_in : list Z; h_out : list Z }.

Definition run_event (e : event) (h : history) : option history :=
  match e with
  | EWrite killed src addr n i =>
      match pipe_write killed src addr n i (h_pipe h) with
      | Some (_, p, l) => Some (mk_history p (h_in h ++ l) (h_out h))
      | None => None
      end
  | ERead killed writable addr n =>
      match pipe_read killed writable addr n (h_pipe h) with
      | Some (_, p, l) => Some (mk_history p (h_in h) (h_out h ++ (byte_of <$> l)))
      | None => None
      end
  | EClose w => Some (mk_history (fst (pipe_close w (h_pipe h))) (h_in h) (h_out h))
  end.

Fixpoint run_schedule (es : list event) (h : history) : option history :=
  match es with
  | [] => Some h
  | e :: es => match run_event e h with Some h => run_schedule es h | None => None end
  end.

Definition fifo (h : history) : Prop :=
  pipe_ok (h_pipe h) /\ h_in h = h_out h ++ contents (h_pipe h).

Lemma run_event_fifo e h : fifo h -> exists h', run_event e h = Some h' /\ fifo h'.
Proof.
  intros [Hok Hio]. pose proof Hok as (_ & _ & _ & Hc). unfold PIPE_SIZE in Hc.
  pose proof (contents_length (h_pipe h)).
  destruct e as [killed src addr n i | killed writable addr n | w]; cbn [run_event].
  - unfold pipe_write.
    destruct (write_loop_appends (S (S (Z.to_nat PIPE_SIZE))) killed src addr n (h_pipe h) i)
      as (r & p' & l & -> & Hok' & Hct & _); [done | unfold PIPE_SIZE; lia |].
    eexists; split; [done|]. split; [done|]. simpl. by rewrite Hct, Hio, <- app_assoc.
  - unfold pipe_read.
    destruct (_ && _)%bool.
    { destruct killed; (eexists; split; [done|]; split; [done|]); simpl; by rewrite app_nil_r. }
    destruct (read_loop_takes (S (S (Z.to_nat PIPE_SIZE))) writable addr n (h_pipe h) 0)
      as (r & p' & l & -> & Hok' & Hct & _); [done | unfold PIPE_SIZE; lia |].
    eexists; split; [done|]. split; [done|]. simpl. by rewrite Hio, Hct, app_assoc.
  - eexists; split; [done|]. destruct w; by split.
Qed.

Lemma new_pipe_ok : pipe_ok new_pipe.
Proof. repeat split; done. Qed.


Definition wrapped_pipe : pipe := mk_pipe (replicate 512 7) (2 ^ 64 - 2) 1 true true.

Lemma wrapped_pipe_ok : pipe_ok wrapped_pipe.
Proof. repeat split; vm_compute; congruence. Qed.


(** What one run transfers when no address faults and the process is not
    killed. A write with the read end open stores as many of its remaining bytes
    as there is room for, and returns [n] if that is all, else sleeps at the
    position reached; with the read end closed it returns [-1]. A read of an empty
    pipe sleeps while the write end is open; otherwise it returns the smaller of
    [n] and the number of bytes in the pipe, having stored the oldest bytes, in
    order, at consecutive addresses, so that it returns 0 exactly at end of
    file or for [n = 0]. *)
Theorem pipe_transfer p n i addr (b : Z -> Z) killed src writable :
  pipe_ok p -> 0 <= i <= n ->
  (forall j, 0 <= j < n -> killed j = false /\ src (u64 (addr + j)) = Some (b j) /\
                           writable (u64 (addr + j)) = true) ->
  (read_open p = true ->
   let k := Z.min (n - i) (PIPE_SIZE - pipe_count p) in
   exists p', pipe_write killed src addr n i p =
     Some (if k =? n - i then Done n else Sleeping (i + k), p', b <$> seqZ i k) /\
     contents p' = contents p ++ (b <$> seqZ i k)) /\
  (read_open p = false -> i < n -> pipe_write killed src addr n i p = Some (Done (-1), p, [])) /\
  (contents p = [] -> write_open p = true ->
   pipe_read false writable addr n p = Some (Sleeping 0, p, [])) /\
  (contents p <> [] \/ write_open p = false ->
   exists p', pipe_read false writable addr n p =
     Some (Done (Z.min n (pipe_count p)), p',
           imap (fun k ch => (u64 (addr + Z.of_nat k), ch, true))
                (take (Z.to_nat n) (contents p))) /\
     contents p' = drop (Z.to_nat n) (contents p)).
Proof.
  intros Hok Hin Hmem. pose proof Hok as (_ & _ & _ & Hc). unfold PIPE_SIZE in Hc.
  pose proof (contents_length p) as Hlen.
  assert (PIPE_SIZE - pipe_count p < Z.of_nat (S (S (Z.to_nat PIPE_SIZE)))) as Hf1
    by (unfold PIPE_SIZE; lia).
  assert (pipe_count p < Z.of_nat (S (S (Z.to_nat PIPE_SIZE)))) as Hf2 by (unfold PIPE_SIZE; lia).
  split; [|split; [|split]].
  - intros Hro k. unfold pipe_write.
    destruct (write_loop_stores _ killed src addr n p i b Hok Hf1 Hro ltac:(lia)) as (p' & E).
    { intros j Hj. destruct (Hmem j) as (? & ? & _); [lia | done]. }
    destruct (write_loop_appends _ killed src addr n p i Hok Hf1) as (r & p2 & l & E2 & _ & Hct & _).
    rewrite E in E2. injection E2 as <- <- <-. by exists p'.
  - intros Hro Hlt. unfold pipe_write. cbn [write_loop]. rewrite Hro.
    by rewrite (proj2 (Z.ltb_lt i n)).
  - intros He Hw. unfold pipe_read. rewrite Hw, (proj2 (pipe_empty_spec p Hok)); [done|].
    by rewrite He in Hlen.
  - intros Hne. unfold pipe_read.
    assert ((pipe_is_empty p && write_open p)%bool = false) as ->.
    { destruct (pipe_is_empty p) eqn:Ee; [|done]. apply pipe_empty_spec in Ee; [|done].
      destruct Hne as [Hne| ->]; [|done]. destruct (contents p); simpl in Hlen; [done | lia]. }
    destruct (read_loop_delivers _ writable addr n p 0 Hok Hf2 ltac:(lia)) as (p' & E).
    { intros j Hj. by destruct (Hmem j) as (_ & _ & ?). }
    destruct (read_loop_takes _ writable addr n p 0 Hok Hf2) as (r & p2 & l & E2 & _ & Hct & _).
    rewrite E in E2. injection E2 as <- <- <-. rewrite E. exists p'. rewrite Z.sub_0_r in *.
    split; [done|]. rewrite bytes_of_delivered in Hct.
    rewrite <- (take_drop (Z.to_nat n) (contents p)) in Hct at 1.
    by apply app_inv_head in Hct.
Qed.

Definition small_pipe : pipe := snd (pipe_pop (pipe_push 66 (pipe_push 65 wrapped_pipe))).

Lemma small_pipe_ok : pipe_ok small_pipe.
Proof. repeat split; vm_compute; congruence. Qed.

Lemma small_nonempty : contents small_pipe <> [].
Proof.
  intros H. assert (length (contents small_pipe) = 4%nat) as E by (vm_compute; reflexivity).
  by rewrite H in E.
Qed.

Lemma small_memory j :
  0 <= j < 2 -> false = false /\ Some (u64 (4096 + j) - 4096) = Some j /\ true = true.
Proof.
  intros Hj. rewrite uwrap_id by (unfold is_u; lia).
  split; [done|]. split; [f_equal; lia | done].
Qed.

Lemma pipe_transfer_witness :
  exists p', pipe_read false (fun _ => true) 4096 2 small_pipe =
    Some (Done (Z.min 2 (pipe_count small_pipe)), p',
          imap (fun k ch => (u64 (4096 + Z.of_nat k), ch, true))
               (take (Z.to_nat 2) (contents small_pipe))) /\
    contents p' = drop (Z.to_nat 2) (contents small_pipe).
Proof.
  exact (proj2 (proj2 (proj2 (pipe_transfer small_pipe 2 0 4096 (fun j => j) (fun _ => false)
           (fun a => Some (a - 4096)) (fun _ => true) small_pipe_ok ltac:(lia)
           small_memory)))
         (or_introl small_nonempty)).
Defined.

(** ** Circular buffers *)

Definition cb_count (cb : cbuffer) : Z := (cb_head cb - cb_tail cb) mod cb_capacity cb.
Definition cb_contents (cb : cbuffer) : list Z :=
  ring (cb_buffer cb) (cb_capacity cb) (cb_tail cb) (cb_count cb).

Definition cbuffer_ok (cb : cbuffer) : Prop :=
  2 <= cb_capacity cb /\ length (cb_buffer cb) = Z.to_nat (cb_capacity cb) /\
  0 <= cb_head cb < cb_capacity cb /\ 0 <= cb_tail cb < cb_capacity cb.

(** The last [n] elements of a list. *)
Definition last_n {A} (n : nat) (l : list A) : list A := drop (length l - n) l.

Lemma last_n_app {A} n (l k : list A) : last_n n (last_n n l ++ k) = last_n n (l ++ k).
Proof.
  unfold last_n. rewrite !length_app, length_drop.
  destruct (decide (length l <= n)%nat).
  - by replace (length l - n)%nat with 0%nat by lia; rewrite drop_0, Nat.sub_0_r.
  - rewrite <- (drop_app_le l k) by lia. rewrite drop_drop. f_equal. lia.
Qed.

Lemma cb_count_range cb : cbuffer_ok cb -> 0 <= cb_count cb < cb_capacity cb.
Proof. intros (? & _). unfold cb_count. apply Z.mod_pos_bound. lia. Qed.

Lemma cb_contents_length cb : cbuffer_ok cb -> Z.of_nat (length (cb_contents cb)) = cb_count cb.
Proof. intros H%cb_count_range. unfold cb_contents. rewrite ring_length. lia. Qed.

Lemma cb_count_cases cb :
  cbuffer_ok cb ->
  cb_count cb = if decide (cb_tail cb <= cb_head cb) then cb_head cb - cb_tail cb
                else cb_capacity cb - (cb_tail cb - cb_head cb).
Proof.
  intros (? & _ & ? & ?). unfold cb_count. case_decide; [by rewrite Z.mod_small by lia|].
  rewrite <- (Z.mod_add _ 1), Z.mod_small by lia. lia.
Qed.

Lemma succ_mod x c : 0 <= x < c -> (x + 1) mod c = if decide (x + 1 = c) then 0 else x + 1.
Proof.
  intros H. case_decide as E; [rewrite E; apply Z.mod_same; lia | apply Z.mod_small; lia].
Qed.

(** The buffer after its oldest byte was dropped. *)
Definition cb_drop (cb : cbuffer) : cbuffer :=
  mk_cbuffer (cb_buffer cb) (cb_head cb) ((cb_tail cb + 1) mod cb_capacity cb) (cb_capacity cb).

Lemma cb_drop_spec cb :
  cbuffer_ok cb -> 0 < cb_count cb ->
  cbuffer_ok (cb_drop cb) /\ cb_count (cb_drop cb) = cb_count cb - 1 /\
  cb_contents cb = slot (cb_buffer cb) (cb_capacity cb) (cb_tail cb) :: cb_contents (cb_drop cb).
Proof.
  intros Hok Hpos. pose proof Hok as (Hc & Hl & Hh & Ht).
  assert (cbuffer_ok (cb_drop cb)) as Hok'.
  { split; [done|]. split; [done|]. split; [done|]. simpl. apply Z.mod_pos_bound; lia. }
  assert (cb_count (cb_drop cb) = cb_count cb - 1) as E.
  { rewrite cb_count_cases in Hpos |- * by done. rewrite (cb_count_cases cb) by done.
    unfold cb_drop in *; simpl in *. rewrite succ_mod by done. repeat case_decide; lia. }
  split; [done|]. split; [done|]. unfold cb_contents. rewrite E, ring_pop by done. f_equal.
  apply ring_congr; [simpl; lia|]. simpl. by rewrite Zmod_mod.
Qed.

Lemma cb_store_spec ch cb :
  cbuffer_ok cb -> cb_count cb < cb_capacity cb - 1 ->
  let cb' := mk_cbuffer (<[Z.to_nat (cb_head cb) := ch]> (cb_buffer cb))
               ((cb_head cb + 1) mod cb_capacity cb) (cb_tail cb) (cb_capacity cb) in
  cbuffer_ok cb' /\ cb_contents cb' = cb_contents cb ++ [ch].
Proof.
  intros Hok Hlt cb'. pose proof Hok as (Hc & Hl & Hh & Ht). pose proof (cb_count_range cb Hok).
  assert (cbuffer_ok cb') as Hok'.
  { split; [done|]. split; [by simpl; rewrite length_insert|]. split; [|done].
    simpl. apply Z.mod_pos_bound; lia. }
  assert (cb_count cb' = cb_count cb + 1) as E.
  { rewrite cb_count_cases in Hlt |- * by done. rewrite (cb_count_cases cb) by done.
    unfold cb' in *; simpl in *. rewrite succ_mod by done. repeat case_decide; lia. }
  split; [done|]. unfold cb_contents. rewrite E. unfold cb'; simpl.
  rewrite <- ring_push by (done || lia). do 3 f_equal.
  unfold cb_count. rewrite Zplus_mod_idemp_r, Z.mod_small; lia.
Qed.

Lemma cbuffer_put_spec ch cb :
  cbuffer_ok cb ->
  cbuffer_ok (cbuffer_put ch cb) /\ cb_capacity (cbuffer_put ch cb) = cb_capacity cb /\
  cb_contents (cbuffer_put ch cb) =
    last_n (Z.to_nat (cb_capacity cb - 1)) (cb_contents cb ++ [ch]).
Proof.
  intros Hok. pose proof Hok as (Hc & Hl & Hh & Ht). pose proof (cb_count_range cb Hok) as Hr.
  pose proof (cb_contents_length cb Hok) as Hlen. unfold cbuffer_put.
  assert (((cb_head cb + 1) mod cb_capacity cb =? cb_tail cb) = true <->
          cb_count cb = cb_capacity cb - 1) as Hfull.
  { rewrite Z.eqb_eq, succ_mod, cb_count_cases by done. repeat case_decide; lia. }
  destruct (_ =? cb_tail cb).
  - destruct (cb_drop_spec cb Hok) as (Hok' & Hcnt & Hcont); [lia|].
    destruct (cb_store_spec ch (cb_drop cb) Hok') as (Hok2 & Hcont2); [simpl; lia|].
    simpl in Hok2, Hcont2. split; [done|]. split; [done|]. rewrite Hcont2, Hcont.
    rewrite Hcont in Hlen. cbn [length] in Hlen. unfold last_n. cbn [app length].
    rewrite length_app; simpl. by replace (_ - _)%nat with 1%nat by lia.
  - destruct (cb_store_spec ch cb Hok) as (Hok2 & Hcont2).
    { destruct (decide (cb_count cb = cb_capacity cb - 1)) as [E|]; [by apply Hfull in E | lia]. }
    assert (cb_count cb <> cb_capacity cb - 1) by (intros E; by apply Hfull in E).
    split; [done|]. split; [done|]. rewrite Hcont2. unfold last_n. rewrite length_app; simpl.
    by replace (_ - _)%nat with 0%nat by lia.
Qed.

Lemma cbuffer_available_spec cb :
  cbuffer_ok cb -> cbuffer_available_data cb = Z.of_nat (length (cb_contents cb)).
Proof.
  intros Hb. rewrite cb_contents_length, cb_count_cases by done.
  unfold cbuffer_available_data.
  destruct (Z.geb_spec (cb_head cb) (cb_tail cb)); case_decide; lia.
Qed.

Lemma cbuffer_read_spec n cb :
  cbuffer_ok cb ->
  let '(l, cb') := cbuffer_read n cb in
  cbuffer_ok cb' /\ l = take n (cb_contents cb) /\ cb_contents cb' = drop n (cb_contents cb).
Proof.
  revert cb; induction n as [|n IH]; intros cb Hok; [done|]. cbn [cbuffer_read].
  pose proof (cb_contents_length cb Hok) as Hlen. pose proof (cb_count_range cb Hok).
  pose proof Hok as (_ & _ & Hh & Ht).
  destruct (Z.eqb_spec (cb_tail cb) (cb_head cb)) as [E|E].
  - rewrite (cb_count_cases cb Hok), decide_True in Hlen by lia.
    destruct (cb_contents cb) eqn:Ec; [by rewrite take_nil, drop_nil, <- Ec | simpl in Hlen; lia].
  - destruct (cb_drop_spec cb Hok) as (Hok' & _ & Hcont).
    { rewrite cb_count_cases by done. case_decide; lia. }
    specialize (IH (cb_drop cb) Hok'). unfold cb_drop in IH at 1.
    destruct (cbuffer_read n _) as [l cb']. destruct IH as (Ho & -> & Hd).
    rewrite Hcont. split; [done|]. split; [|done]. cbn [take]. f_equal.
    unfold slot. by rewrite Z.mod_small.
Qed.

Lemma cbuffer_write_spec data cb :
  cbuffer_ok cb ->
  let '(w, cb') := cbuffer_write data cb in
  cbuffer_ok cb' /\ cb_capacity cb' = cb_capacity cb /\ w = Z.of_nat (length data) /\
  cb_contents cb' = last_n (Z.to_nat (cb_capacity cb - 1)) (cb_contents cb ++ data).
Proof.
  revert cb; induction data as [|ch data IH]; intros cb Hok; cbn [cbuffer_write].
  - split; [done|]. split; [done|]. split; [done|]. rewrite app_nil_r. unfold last_n.
    pose proof (cb_contents_length cb Hok). pose proof (cb_count_range cb Hok).
    by replace (_ - _)%nat with 0%nat by lia.
  - destruct (cbuffer_put_spec ch cb Hok) as (Hok' & Hcap & Hcont).
    specialize (IH (cbuffer_put ch cb) Hok').
    destruct (cbuffer_write data _) as [w cb']. destruct IH as (Ho & Hc & -> & Hd).
    split; [done|]. split; [congruence|]. split; [simpl; lia|].
    rewrite Hd, Hcap, Hcont, last_n_app, <- app_assoc. done.
Qed.

(** The circular buffer keeps the newest bytes. After [cbuffer_write] the
    buffer holds the last [capacity - 1] of the bytes it held followed by the new
    ones and the return value is the number of bytes given; [cbuffer_read]
    returns the oldest bytes, at most [n], and leaves the rest; the two counters
    give the number of bytes held and the room left. *)
Theorem cbuffer_keeps_newest data n cb :
  cbuffer_ok cb ->
  let '(w, cb') := cbuffer_write data cb in
  let '(l, cb'') := cbuffer_read n cb' in
  cbuffer_ok cb' /\ cbuffer_ok cb'' /\ w = Z.of_nat (length data) /\
  cb_contents cb' = last_n (Z.to_nat (cb_capacity cb - 1)) (cb_contents cb ++ data) /\
  l = take n (cb_contents cb') /\ cb_contents cb'' = drop n (cb_contents cb') /\
  cbuffer_available_data cb = Z.of_nat (length (cb_contents cb)) /\
  cbuffer_available_space cb = cb_capacity cb - 1 - Z.of_nat (length (cb_contents cb)).
Proof.
  intros Hok. pose proof (cbuffer_write_spec data cb Hok) as Hwr.
  destruct (cbuffer_write data cb) as [w cb'].
  destruct Hwr as (Hok' & Hcap & Hw & Hcont).
  pose proof (cbuffer_read_spec n cb' Hok') as Hrd. destruct (cbuffer_read n cb') as [l cb''].
  destruct Hrd as (Hok'' & Hl & Hd).
  unfold cbuffer_available_space. rewrite (cbuffer_available_spec cb Hok).
  split_and!; try done. lia.
Qed.

Lemma empty_cbuffer_ok : cbuffer_ok (cbuffer_init [0; 0; 0; 0] 4).
Proof. repeat split; vm_compute; congruence. Qed.

Lemma cbuffer_keeps_newest_witness :
  let '(w, cb') := cbuffer_write [1; 2; 3; 4; 5] (cbuffer_init [0; 0; 0; 0] 4) in
  let '(l, cb'') := cbuffer_read 2 cb' in
  l = take 2 (cb_contents cb').
Proof.
  pose proof (cbuffer_keeps_newest [1; 2; 3; 4; 5] 2 (cbuffer_init [0; 0; 0; 0] 4)
                empty_cbuffer_ok) as H.
  destruct (cbuffer_write _ _) as [w cb']. destruct (cbuffer_read _ _) as [l cb''].
  exact (proj1 (proj2 (proj2 (proj2 (proj2 H))))).
Defined.
