(* ===== verification/CString.v ===== *)
(** * Memory and string functions (kernel/lib/string.c)

    Pointers are integers and memory is a map from addresses to bytes; [char] is
    unsigned, as in the RISC-V ABI. A loop that ends at a terminator takes fuel;
    [None] means that the fuel ran out, and the theorems show that the length of
    the string is enough. *)
From stdpp Require Import list numbers.
From S2P Require Import Prelude.

Definition mem : Type := Z -> Z.
Definition store (m : mem) (a v : Z) : mem := fun x => if x =? a then v else m x.

(** ** memset

    [sz] is [sizeof(size_t)], 4 or 8. *)

(** [while ((size_t)pos % sizeof(size_t) != 0 && n > 0)] *)
Fixpoint set_unaligned (sz c : Z) (n : nat) (m : mem) (pos : Z) : mem * Z * nat :=
  match n with
  | O => (m, pos, O)
  | S n' => if negb (pos mod sz =? 0)
            then set_unaligned sz c n' (store m pos (u8 c)) (pos + 1)
            else (m, pos, n)
  end.

(** The word of [sz] copies of the byte. *)
Fixpoint word_value (sz c : Z) (i : nat) (value : Z) : Z :=
  match i with
  | O => value
  | S i => word_value sz c i (uwrap (8 * sz) (Z.lor (Z.shiftl value 8) (u8 c)))
  end.

(** A little-endian store of [k] bytes. *)
Fixpoint store_bytes (k : nat) (m : mem) (a v : Z) : mem :=
  match k with
  | O => m
  | S k => store_bytes k (store m a (v mod 256)) (a + 1) (v / 256)
  end.

(** [for (i = 0; i < n_word; i++) dst_s[i] = value] *)
Fixpoint set_words (sz value : Z) (k : nat) (m : mem) (dst_s i : Z) : mem :=
  match k with
  | O => m
  | S k => set_words sz value k (store_bytes (Z.to_nat sz) m (dst_s + i * sz) value) dst_s (i + 1)
  end.

Fixpoint set_bytes (c : Z) (k : nat) (m : mem) (pos : Z) : mem :=
  match k with
  | O => m
  | S k => set_bytes c k (store m pos (u8 c)) (pos + 1)
  end.

Definition memset (sz : Z) (m : mem) (dst c n : Z) : mem :=
  let '(m, pos, n) := set_unaligned sz c (Z.to_nat n) m dst in
  let n := Z.of_nat n in
  let n_word := n / sz in
  let remaining_bytes := n mod sz in
  let value := word_value sz c (Z.to_nat sz) 0 in
  let m := set_words sz value (Z.to_nat n_word) m pos 0 in
  let pos := pos + n_word * sz in
  set_bytes c (Z.to_nat remaining_bytes) m pos.

(** ** memcmp, memmove, memcpy, memchr *)

Fixpoint memcmp_loop (n : nat) (m : mem) (s1 s2 : Z) : Z :=
  match n with
  | O => 0
  | S n => if negb (m s1 =? m s2) then m s1 - m s2 else memcmp_loop n m (s1 + 1) (s2 + 1)
  end.

Definition memcmp (m : mem) (v1 v2 n : Z) : Z := memcmp_loop (Z.to_nat n) m v1 v2.

Fixpoint copy_up (n : nat) (m : mem) (dst src : Z) : mem :=
  match n with
  | O => m
  | S n => copy_up n (store m dst (m src)) (dst + 1) (src + 1)
  end.

Fixpoint copy_down (n : nat) (m : mem) (dst src : Z) : mem :=
  match n with
  | O => m
  | S n => copy_down n (store m (dst - 1) (m (src - 1))) (dst - 1) (src - 1)
  end.

Definition memmove (m : mem) (dst src n : Z) : mem :=
  if src >? dst then copy_up (Z.to_nat n) m dst src
  else copy_down (Z.to_nat n) m (dst + n) (src + n).

Definition memcpy (m : mem) (dst src n : Z) : mem := memmove m dst src n.

Fixpoint memchr_loop (n : nat) (m : mem) (string target : Z) : option Z :=
  match n with
  | O => None
  | S n => if m string =? target then Some string else memchr_loop n m (string + 1) target
  end.

(** [None] is the null pointer. *)
Definition memchr (m : mem) (s c n : Z) : option Z := memchr_loop (Z.to_nat n) m s (u8 c).

(** ** Strings *)

Fixpoint strchr (fuel : nat) (m : mem) (str c : Z) : option (option Z) :=
  match fuel with
  | O => None
  | S fuel => if m str =? 0 then Some None
              else if m str =? c then Some (Some str) else strchr fuel m (str + 1) c
  end.

Fixpoint strcmp (fuel : nat) (m : mem) (s1 s2 : Z) : option Z :=
  match fuel with
  | O => None
  | S fuel => if (negb (m s1 =? 0) && (m s1 =? m s2))%bool then strcmp fuel m (s1 + 1) (s2 + 1)
              else Some (u8 (m s1) - u8 (m s2))
  end.

Fixpoint strncmp (n : nat) (m : mem) (s1 s2 : Z) : Z :=
  match n with
  | O => 0
  | S n => if (negb (m s1 =? 0) && (m s1 =? m s2))%bool then strncmp n m (s1 + 1) (s2 + 1)
           else u8 (m s1) - u8 (m s2)
  end.

Fixpoint strcpy (fuel : nat) (m : mem) (dst src : Z) : option mem :=
  match fuel with
  | O => None
  | S fuel => let ch := m src in
              let m := store m dst ch in
              if negb (ch =? 0) then strcpy fuel m (dst + 1) (src + 1) else Some m
  end.

(** The second loop of [strncpy]. *)
Fixpoint fill_zero (n : nat) (m : mem) (dst : Z) : mem :=
  match n with
  | O => m
  | S n => fill_zero n (store m dst 0) (dst + 1)
  end.

Fixpoint strncpy (n : nat) (m : mem) (dst src : Z) : mem :=
  match n with
  | O => m
  | S n => let current_char := m src in
           let m := store m dst current_char in
           if current_char =? 0 then fill_zero n m (dst + 1)
           else strncpy n m (dst + 1) (src + 1)
  end.

Definition safestrcpy (n : nat) (m : mem) (dst src : Z) : mem :=
  let m := strncpy n m dst src in
  if Z.of_nat n >? 0 then store m (dst + (Z.of_nat n - 1)) 0 else m.

Fixpoint strlen_loop (fuel : nat) (m : mem) (str n : Z) : option Z :=
  match fuel with
  | O => None
  | S fuel => if negb (m (str + n) =? 0) then strlen_loop fuel m str (n + 1) else Some n
  end.

Definition strlen (fuel : nat) (m : mem) (str : Z) : option Z := strlen_loop fuel m str 0.

Fixpoint strnlen_loop (maxlen : nat) (m : mem) (str n : Z) : Z :=
  match maxlen with
  | O => n
  | S maxlen => if negb (m (str + n) =? 0) then strnlen_loop maxlen m str (n + 1) else n
  end.

Definition strnlen (m : mem) (str : Z) (maxlen : nat) : Z := strnlen_loop maxlen m str 0.

(** [for (i = len; i >= 0; --i)], with [k = i + 1]. *)
Fixpoint strrchr_loop (k : nat) (m : mem) (s c : Z) : option Z :=
  match k with
  | O => None
  | S k => let i := Z.of_nat k in
           if m (s + i) =? u8 c then Some (s + i) else strrchr_loop k m s c
  end.

Definition strrchr (fuel : nat) (m : mem) (s c : Z) : option (option Z) :=
  match strlen fuel m s with
  | Some len => Some (strrchr_loop (S (Z.to_nat len)) m s c)
  | None => None
  end.

Definition _is_whitespace (c : Z) : bool :=
  (((9 <=? c) && (c <=? 13)) || (c =? 32))%bool.

(** The inner loop of [strspn]. *)
Fixpoint accepted (fuel : nat) (m : mem) (ch a : Z) : option bool :=
  match fuel with
  | O => None
  | S fuel => if m a =? 0 then Some false
              else if ch =? m a then Some true else accepted fuel m ch (a + 1)
  end.

(** The outer loop, with the fuel of the inner one apart. *)
Fixpoint strspn_loop (fuel inner : nat) (m : mem) (p accept count : Z) : option Z :=
  match fuel with
  | O => None
  | S fuel =>
      if negb (m p =? 0) then
        match accepted inner m (m p) accept with
        | None => None
        | Some found => if negb found then Some count
                        else strspn_loop fuel inner m (p + 1) accept (count + 1)
        end
      else Some count
  end.

(** Address 0 is the null pointer. *)
Definition strspn (fuel inner : nat) (m : mem) (s accept : Z) : option Z :=
  if ((s =? 0) || (accept =? 0))%bool then Some 0 else strspn_loop fuel inner m s accept 0.

(** ** Numbers *)

Fixpoint skip_whitespace (fuel : nat) (m : mem) (nptr : Z) : option Z :=
  match fuel with
  | O => None
  | S fuel => if _is_whitespace (m nptr) then skip_whitespace fuel m (nptr + 1) else Some nptr
  end.

(** [while ('0' <= *nptr && *nptr <= highest)] with the accumulator in [w] bits. *)
Fixpoint digits_loop (w : Z) (fuel : nat) (m : mem) (base highest nptr n : Z) : option (Z * Z) :=
  match fuel with
  | O => None
  | S fuel => if ((48 <=? m nptr) && (m nptr <=? highest))%bool
              then digits_loop w fuel m base highest (nptr + 1)
                     (swrap w (n * base + m nptr - 48))
              else Some (n, nptr)
  end.

(** The value and, for a valid base, the pointer stored to [endptr]. *)
Definition strtoll (fuel : nat) (m : mem) (nptr base : Z) : option (Z * option Z) :=
  let highest_number := u8 (48 + base - 1) in
  if ((base <? 2) || (base >? 10))%bool then Some (0, None)
  else
    match skip_whitespace fuel m nptr with
    | None => None
    | Some nptr =>
        let '(sign, nptr) := if ((m nptr =? 45) || (m nptr =? 43))%bool
                             then (m nptr, nptr + 1) else (43, nptr) in
        match digits_loop 64 fuel m base highest_number nptr 0 with
        | None => None
        | Some (n, nptr) =>
            Some (if sign =? 45 then s64 (n * -1) else n, Some nptr)
        end
    end.

Definition strtol (fuel : nat) (m : mem) (nptr base : Z) : option (Z * option Z) :=
  '(n, e) ← strtoll fuel m nptr base; Some (s64 n, e).
Definition strtoul (fuel : nat) (m : mem) (nptr base : Z) : option (Z * option Z) :=
  '(n, e) ← strtoll fuel m nptr base; Some (u64 n, e).
Definition strtoull (fuel : nat) (m : mem) (nptr base : Z) : option (Z * option Z) :=
  '(n, e) ← strtoll fuel m nptr base; Some (u64 n, e).

Definition atoi (fuel : nat) (m : mem) (string : Z) : option Z :=
  let '(sign, string) := if ((m string =? 45) || (m string =? 43))%bool
                         then (m string, string + 1) else (43, string) in
  match digits_loop 32 fuel m 10 57 string 0 with
  | None => None
  | Some (n, _) => Some (if sign =? 45 then s32 (n * -1) else n)
  end.

(** ** strstr *)

(** The loop while the two characters are equal; the value of [pin] after the loop. *)
Fixpoint match_loop (fuel : nat) (m : mem) (hay pin : Z) : option Z :=
  match fuel with
  | O => None
  | S fuel => if m hay =? m pin then match_loop fuel m (hay + 1) (pin + 1) else Some pin
  end.

Fixpoint strstr_loop (fuel inner : nat) (m : mem) (start needle : Z) : option (option Z) :=
  match fuel with
  | O => None
  | S fuel =>
      if negb (m start =? 0) then
        match match_loop inner m start needle with
        | None => None
        | Some pin => if negb (m pin =? 0) then strstr_loop fuel inner m (start + 1) needle
                      else Some (Some start)
        end
      else Some None
  end.

Definition strstr (fuel inner : nat) (m : mem) (haystack needle : Z) : option (option Z) :=
  if ((haystack =? 0) || (needle =? 0))%bool then Some None
  else strstr_loop fuel inner m haystack needle.

(** ** Stores *)

Lemma store_eq m a v : store m a v a = v.
Proof. unfold store. by rewrite Z.eqb_refl. Qed.

Lemma store_ne m a v x : x <> a -> store m a v x = m x.
Proof. unfold store. by intros ->%Z.eqb_neq. Qed.

(** Case analysis on whether an address is the one stored to. *)
Ltac store_cases :=
  repeat match goal with
  | |- context [store ?m ?a ?v ?x] =>
      destruct (decide (x = a)) as [->|]; [rewrite (store_eq m a v) | rewrite (store_ne m a v x) by done]
  end.

Lemma set_bytes_spec c k m pos x :
  set_bytes c k m pos x = if decide (pos <= x < pos + Z.of_nat k) then u8 c else m x.
Proof.
  revert m pos; induction k as [|k IH]; intros m pos; cbn [set_bytes].
  - by rewrite decide_False by lia.
  - rewrite IH. store_cases; repeat case_decide; done || lia.
Qed.

Lemma set_unaligned_spec sz c n m pos :
  let '(m', pos', n') := set_unaligned sz c n m pos in
  pos' + Z.of_nat n' = pos + Z.of_nat n /\ pos <= pos' /\
  forall x, m' x = if decide (pos <= x < pos') then u8 c else m x.
Proof.
  revert m pos; induction n as [|n IH]; intros m pos; cbn [set_unaligned].
  - split; [done|]. split; [lia|]. intros x. by rewrite decide_False by lia.
  - destruct (negb _).
    + specialize (IH (store m pos (u8 c)) (pos + 1)).
      destruct (set_unaligned _ _ _ _ _) as [[m' pos'] n']. destruct IH as (H1 & H2 & H3).
      split; [lia|]. split; [lia|]. intros x. rewrite H3.
      store_cases; repeat case_decide; done || lia.
    + split; [done|]. split; [lia|]. intros x. by rewrite decide_False by lia.
Qed.

(** [k] bytes of [v] are all [b]. *)
Fixpoint all_bytes (b : Z) (k : nat) (v : Z) : Prop :=
  match k with
  | O => True
  | S k => v mod 256 = b /\ all_bytes b k (v / 256)
  end.

Lemma store_bytes_spec b k m a v x :
  all_bytes b k v ->
  store_bytes k m a v x = if decide (a <= x < a + Z.of_nat k) then b else m x.
Proof.
  revert m a v; induction k as [|k IH]; intros m a v; cbn [store_bytes all_bytes].
  - intros _. by rewrite decide_False by lia.
  - intros [Hb Hk]. rewrite IH by done. store_cases; repeat case_decide; done || lia.
Qed.

Lemma shift_lor v b : 0 <= b < 256 -> Z.lor (Z.shiftl v 8) b = v * 256 + b.
Proof.
  intros Hb. rewrite Z.shiftl_mul_pow2 by lia. change (2 ^ 8) with 256.
  rewrite <- Z.add_nocarry_lor; [done|].
  apply Z.bits_inj'. intros i Hi. rewrite Z.land_spec, Z.bits_0.
  change 256 with (2 ^ 8). rewrite <- Z.shiftl_mul_pow2, Z.shiftl_spec by lia.
  destruct (decide (i < 8)) as [H|H].
  - by rewrite Z.testbit_neg_r by lia.
  - rewrite (small_bits_high 8 b i), andb_false_r; [done | done | lia].
Qed.

(** After [j] rounds the low [j] bytes are copies and the rest is 0. *)
Lemma word_value_bytes sz c i j v :
  0 <= v < 256 ^ Z.of_nat j -> all_bytes (u8 c) j v -> Z.of_nat (i + j) <= sz ->
  all_bytes (u8 c) (i + j) (word_value sz c i v).
Proof.
  revert j v; induction i as [|i IH]; intros j v Hv Hb Hsz; cbn [word_value]; [done|].
  pose proof (uwrap_range 8 c ltac:(lia)) as Hc. unfold is_u in Hc. change (2 ^ 8) with 256 in Hc.
  rewrite shift_lor by done.
  assert (256 ^ Z.of_nat (S j) = 256 * 256 ^ Z.of_nat j) as Ep
    by (rewrite Nat2Z.inj_succ, Z.pow_succ_r; lia).
  assert (256 ^ Z.of_nat (S j) <= 2 ^ (8 * sz)) as Hw.
  { change 256 with (2 ^ 8). rewrite <- Z.pow_mul_r by lia. apply Z.pow_le_mono_r; lia. }
  rewrite (uwrap_id (8 * sz)) by (unfold is_u; lia).
  replace (S i + j)%nat with (i + S j)%nat by lia.
  apply IH; [lia | | lia].
  cbn [all_bytes]. rewrite Z.add_comm, Z.mod_add, Z.mod_small, Z.div_add, Z.div_small by lia.
  by split.
Qed.

Lemma set_words_spec b sz value k m dst i x :
  0 < sz -> all_bytes b (Z.to_nat sz) value ->
  set_words sz value k m dst i x =
  if decide (dst + i * sz <= x < dst + (i + Z.of_nat k) * sz) then b else m x.
Proof.
  intros Hsz Hb. revert m i; induction k as [|k IH]; intros m i; cbn [set_words].
  - by rewrite decide_False by lia.
  - rewrite IH, (store_bytes_spec b) by done. rewrite Z2Nat.id by lia.
    repeat case_decide; try done; nia.
Qed.

Lemma memset_run sz m dst c n x :
  0 < sz -> 0 <= n ->
  memset sz m dst c n x = if decide (dst <= x < dst + n) then u8 c else m x.
Proof.
  intros Hsz Hn. unfold memset.
  pose proof (set_unaligned_spec sz c (Z.to_nat n) m dst) as Hu.
  destruct (set_unaligned _ _ _ _ _) as [[m1 pos] n1]. destruct Hu as (Hsum & Hle & Hm1).
  pose proof (Z.div_mod (Z.of_nat n1) sz ltac:(lia)) as Hdm.
  pose proof (Z.mod_pos_bound (Z.of_nat n1) sz Hsz).
  assert (0 <= Z.of_nat n1 / sz) by (apply Z.div_pos; lia).
  rewrite set_bytes_spec, (set_words_spec (u8 c)); [|done|].
  - rewrite Hm1, !Z2Nat.id by lia. repeat case_decide; done || lia.
  - replace (Z.to_nat sz) with (Z.to_nat sz + 0)%nat at 1 by lia.
    apply word_value_bytes; simpl; lia || done.
Qed.

(** ** Moves *)

Lemma copy_up_spec n m dst src x :
  dst <= src ->
  copy_up n m dst src x = if decide (dst <= x < dst + Z.of_nat n) then m (src + (x - dst)) else m x.
Proof.
  revert m dst src; induction n as [|n IH]; intros m dst src H; cbn [copy_up].
  - by rewrite decide_False by lia.
  - rewrite IH by lia. repeat case_decide; try lia.
    + rewrite store_ne by lia. f_equal; lia.
    + replace x with dst by lia. rewrite store_eq. f_equal; lia.
    + by rewrite store_ne by lia.
Qed.

Lemma copy_down_spec n m dst src x :
  src <= dst ->
  copy_down n m dst src x =
  if decide (dst - Z.of_nat n <= x < dst) then m (src + (x - dst)) else m x.
Proof.
  revert m dst src; induction n as [|n IH]; intros m dst src H; cbn [copy_down].
  - by rewrite decide_False by lia.
  - rewrite IH by lia. repeat case_decide; try lia.
    + rewrite store_ne by lia. f_equal; lia.
    + replace x with (dst - 1) by lia. rewrite store_eq. f_equal; lia.
    + by rewrite store_ne by lia.
Qed.

Lemma memmove_run m dst src n x :
  0 <= n ->
  memmove m dst src n x = if decide (dst <= x < dst + n) then m (src + (x - dst)) else m x.
Proof.
  intros Hn. unfold memmove. destruct (Z.gtb_spec src dst).
  - rewrite copy_up_spec, Z2Nat.id by lia. done.
  - rewrite copy_down_spec, Z2Nat.id by lia.
    repeat case_decide; try lia; f_equal; lia.
Qed.

(** [memset] and [memmove] change exactly their target. For every word size
    and alignment [memset] leaves the byte [c] in the [n] bytes from [dst], its
    word-wise middle included; [memmove] and [memcpy] leave there the bytes that
    were at [src] before the call, also when source and target overlap in either
    direction. *)
Theorem memory_block_spec sz m dst src c n x :
  0 < sz -> 0 <= n ->
  memset sz m dst c n x = (if decide (dst <= x < dst + n) then u8 c else m x) /\
  memmove m dst src n x = (if decide (dst <= x < dst + n) then m (src + (x - dst)) else m x) /\
  memcpy m dst src n x = memmove m dst src n x.
Proof.
  intros Hsz Hn. split; [by apply memset_run|]. split; [by apply memmove_run | done].
Qed.

Lemma memory_block_spec_witness :
  memset 8 (fun x => x mod 256) 1003 300 29 1030 = 44 /\
  memmove (fun x => x mod 256) 1003 1000 29 1010 = 1007 mod 256.
Proof.
  pose proof (memory_block_spec 8 (fun x => x mod 256) 1003 1000 300 29 1030
                ltac:(lia) ltac:(lia)) as (H1 & _).
  pose proof (memory_block_spec 8 (fun x => x mod 256) 1003 1000 300 29 1010
                ltac:(lia) ltac:(lia)) as (_ & H2 & _).
  rewrite H1, H2. split; reflexivity.
Defined.

(** ** Strings in memory *)

Fixpoint block_at (m : mem) (a : Z) (l : list Z) : Prop :=
  match l with
  | [] => True
  | c :: l => m a = c /\ 0 <= c < 256 /\ block_at m (a + 1) l
  end.

(** A terminated string of non-zero bytes. *)
Fixpoint str_at (m : mem) (a : Z) (s : list Z) : Prop :=
  match s with
  | [] => m a = 0
  | c :: s => m a = c /\ 0 < c < 256 /\ str_at m (a + 1) s
  end.

(** Lexicographic order of byte strings. *)
Fixpoint str_compare (s1 s2 : list Z) : comparison :=
  match s1, s2 with
  | [], [] => Eq
  | [], _ :: _ => Lt
  | _ :: _, [] => Gt
  | c1 :: s1, c2 :: s2 => match c1 ?= c2 with Eq => str_compare s1 s2 | r => r end
  end.

Lemma str_compare_eq s1 s2 : str_compare s1 s2 = Eq <-> s1 = s2.
Proof.
  revert s2; induction s1 as [|c1 s1 IH]; intros [|c2 s2]; simpl; [done..|].
  destruct (Z.compare_spec c1 c2) as [->|H|H].
  - rewrite IH. split; congruence.
  - split; [done|]. intros [= -> ->]; lia.
  - split; [done|]. intros [= -> ->]; lia.
Qed.

Lemma str_at_head m a s : str_at m a s -> (m a = 0 /\ s = []) \/ exists c s', s = c :: s' /\ m a = c /\ 0 < c < 256 /\ str_at m (a + 1) s'.
Proof. destruct s as [|c s]; simpl; [by left|]. intros (? & ? & ?). right. by exists c, s. Qed.

Lemma sub_compare a b : (a - b ?= 0) = (a ?= b).
Proof. rewrite <- (Z.sub_diag b). destruct (Z.compare_spec a b) as [->|?|?].
  - by rewrite Z.compare_refl.
  - apply Z.compare_lt_iff; lia.
  - apply Z.compare_gt_iff; lia.
Qed.

(** The first pair of characters decides, or the strings are equal so far. *)
Lemma char_step m a1 a2 s1 s2 :
  str_at m a1 s1 -> str_at m a2 s2 ->
  (exists c s1' s2', s1 = c :: s1' /\ s2 = c :: s2' /\ str_at m (a1 + 1) s1' /\
     str_at m (a2 + 1) s2' /\ (negb (m a1 =? 0) && (m a1 =? m a2))%bool = true) \/
  ((negb (m a1 =? 0) && (m a1 =? m a2))%bool = false /\
   (u8 (m a1) - u8 (m a2) ?= 0) = str_compare s1 s2 /\
   forall n, str_compare (take (S n) s1) (take (S n) s2) = str_compare s1 s2).
Proof.
  intros H1 H2.
  assert (forall c, 0 < c < 256 -> u8 c = c) as Hu
    by (intros c Hc; apply uwrap_id; unfold is_u; change (2 ^ 8) with 256; lia).
  apply str_at_head in H1 as [[E1 ->]|(c1 & s1' & -> & E1 & Hc1 & H1)],
    H2 as [[E2 ->]|(c2 & s2' & -> & E2 & Hc2 & H2)]; rewrite ?E1, ?E2.
  - right. done.
  - right. rewrite (Hu c2), sub_compare by done. split; [done|]. split; [|done].
    apply Z.compare_lt_iff. change (u8 0) with 0. lia.
  - right. rewrite (Hu c1), sub_compare by done. rewrite (proj2 (Z.eqb_neq c1 0)) by lia.
    split; [|split; [apply Z.compare_gt_iff; change (u8 0) with 0; lia | done]].
    done.
  - rewrite (proj2 (Z.eqb_neq c1 0)) by lia. cbn [negb andb].
    destruct (Z.eqb_spec c1 c2) as [->|Hne].
    + left. exists c2, s1', s2'. done.
    + right. split; [done|]. rewrite !Hu, sub_compare by done. cbn [take str_compare].
      destruct (Z.compare_spec c1 c2); [done..].
Qed.

Lemma strcmp_run fuel m a1 a2 s1 s2 :
  str_at m a1 s1 -> str_at m a2 s2 -> (length s1 < fuel)%nat ->
  exists r, strcmp fuel m a1 a2 = Some r /\ (r ?= 0) = str_compare s1 s2.
Proof.
  revert a1 a2 s1 s2; induction fuel as [|fuel IH]; intros a1 a2 s1 s2 H1 H2 Hf; [lia|].
  cbn [strcmp].
  destruct (char_step m a1 a2 s1 s2 H1 H2)
    as [(c & s1' & s2' & -> & -> & H1' & H2' & ->) | (-> & Hr & _)]; [|by eexists].
  simpl in Hf. destruct (IH _ _ _ _ H1' H2') as (r & -> & Hr); [lia|].
  exists r. cbn [str_compare]. by rewrite Z.compare_refl.
Qed.

Lemma strncmp_run n m a1 a2 s1 s2 :
  str_at m a1 s1 -> str_at m a2 s2 ->
  (strncmp n m a1 a2 ?= 0) = str_compare (take n s1) (take n s2).
Proof.
  revert a1 a2 s1 s2; induction n as [|n IH]; intros a1 a2 s1 s2 H1 H2; [done|].
  cbn [strncmp].
  destruct (char_step m a1 a2 s1 s2 H1 H2)
    as [(c & s1' & s2' & -> & -> & H1' & H2' & ->) | (-> & Hr & Ht)].
  - cbn [take str_compare]. rewrite Z.compare_refl. by apply IH.
  - by rewrite Hr, Ht.
Qed.

Lemma memcmp_run m a1 a2 l1 l2 :
  block_at m a1 l1 -> block_at m a2 l2 -> length l1 = length l2 ->
  (memcmp_loop (length l1) m a1 a2 ?= 0) = str_compare l1 l2.
Proof.
  revert a1 a2 l2; induction l1 as [|c1 l1 IH]; intros a1 a2 [|c2 l2]; simpl; try done.
  intros (-> & _ & H1) (-> & _ & H2) Hl.
  destruct (Z.eqb_spec c1 c2) as [->|Hne]; cbn [negb].
  - rewrite Z.compare_refl. by apply IH; [| | lia].
  - rewrite sub_compare. by destruct (Z.compare_spec c1 c2).
Qed.

(** The comparison functions order byte strings lexicographically. The sign
    of the result of [strcmp] is the order of the two strings (so 0 means equal
    strings), that of [strncmp] the order of their first [n] characters, that of
    [memcmp] the order of two memory blocks of [n] bytes; [strcmp] ends within the
    length of the first string. *)
Theorem string_compare_spec m a1 a2 s1 s2 b1 b2 l1 l2 n fuel :
  str_at m a1 s1 -> str_at m a2 s2 -> (length s1 < fuel)%nat ->
  block_at m b1 l1 -> block_at m b2 l2 -> length l1 = length l2 ->
  (exists r, strcmp fuel m a1 a2 = Some r /\ (r ?= 0) = str_compare s1 s2 /\ (r = 0 <-> s1 = s2)) /\
  (strncmp n m a1 a2 ?= 0) = str_compare (take n s1) (take n s2) /\
  (memcmp m b1 b2 (Z.of_nat (length l1)) ?= 0) = str_compare l1 l2.
Proof.
  intros H1 H2 Hf Hb1 Hb2 Hl. split; [|split; [by apply strncmp_run|]].
  - destruct (strcmp_run fuel m a1 a2 s1 s2 H1 H2 Hf) as (r & E & Hr).
    exists r. split; [done|]. split; [done|].
    by rewrite <- str_compare_eq, <- Hr, Z.compare_eq_iff.
  - unfold memcmp. rewrite Nat2Z.id. by apply memcmp_run.
Qed.

(** Bytes of a list from address 16 on, 0 elsewhere. *)
Definition text (l : list Z) : mem := fun x => if x <? 16 then 0 else default 0 (l !! Z.to_nat (x - 16)).

Lemma string_compare_spec_witness :
  exists r, strcmp 3 (text [97; 98; 0; 97; 99; 0]) 16 19 = Some r /\ (r ?= 0) = Lt.
Proof.
  pose proof (string_compare_spec (text [97; 98; 0; 97; 99; 0]) 16 19 [97; 98] [97; 99] 16 19
                [97] [97] 1 3 ltac:(repeat split) ltac:(repeat split) ltac:(simpl; lia)
                ltac:(repeat split; done) ltac:(repeat split; done) eq_refl) as ((r & E & Hr & _) & _).
  exists r. exact (conj E Hr).
Defined.

(** ** Lengths and copies *)

Lemma str_at_frame m m' a s :
  (forall x, a <= x <= a + Z.of_nat (length s) -> m' x = m x) -> str_at m a s -> str_at m' a s.
Proof.
  revert a; induction s as [|c s IH]; intros a Hm; cbn [str_at].
  - intros H. rewrite Hm; [done | simpl; lia].
  - intros (H1 & H2 & H3). rewrite Hm by (simpl; lia). split; [done|]. split; [done|].
    apply IH; [|done]. intros x Hx. apply Hm. simpl. lia.
Qed.

Lemma strlen_loop_run fuel m a n s :
  str_at m (a + n) s -> (length s < fuel)%nat ->
  strlen_loop fuel m a n = Some (n + Z.of_nat (length s)).
Proof.
  revert n s; induction fuel as [|fuel IH]; intros n s Hs Hf; [lia|]. cbn [strlen_loop].
  apply str_at_head in Hs as [[-> ->]|(c & s' & -> & E & Hc & Hs)].
  - simpl. f_equal; lia.
  - rewrite E, (proj2 (Z.eqb_neq c 0)) by lia. cbn [negb length] in *.
    rewrite (IH (n + 1) s'); [f_equal; lia | by rewrite Z.add_assoc | lia].
Qed.

Lemma strnlen_loop_run maxlen m a n s :
  str_at m (a + n) s ->
  strnlen_loop maxlen m a n = n + Z.min (Z.of_nat maxlen) (Z.of_nat (length s)).
Proof.
  revert n s; induction maxlen as [|k IH]; intros n s Hs; [simpl; lia|]. cbn [strnlen_loop].
  apply str_at_head in Hs as [[-> ->]|(c & s' & -> & E & Hc & Hs)]; [simpl; lia|].
  rewrite E, (proj2 (Z.eqb_neq c 0)) by lia. cbn [negb length].
  rewrite (IH (n + 1) s'); [lia | by rewrite Z.add_assoc].
Qed.

(** The character of a string at an offset, 0 behind its end. *)
Definition char_at (s : list Z) (i : Z) : Z := default 0 (s !! Z.to_nat i).

Lemma char_at_cons c s i : 0 < i -> char_at (c :: s) i = char_at s (i - 1).
Proof.
  intros H. unfold char_at. by replace (Z.to_nat i) with (S (Z.to_nat (i - 1))) by lia.
Qed.

Lemma char_at_end s i : Z.of_nat (length s) <= i -> char_at s i = 0.
Proof. intros H. unfold char_at. by rewrite lookup_ge_None_2 by lia. Qed.

Lemma fill_zero_spec n m dst x :
  fill_zero n m dst x = if decide (dst <= x < dst + Z.of_nat n) then 0 else m x.
Proof.
  revert m dst; induction n as [|n IH]; intros m dst; cbn [fill_zero].
  - by rewrite decide_False by lia.
  - rewrite IH. store_cases; repeat case_decide; done || lia.
Qed.

(** The target of a copy does not meet the source string from behind. *)
Definition apart (dst src : Z) (s : list Z) : Prop :=
  dst < src \/ src + Z.of_nat (length s) < dst.

Lemma str_at_store m dst src c s v :
  apart dst src (c :: s) -> str_at m (src + 1) s -> str_at (store m dst v) (src + 1) s.
Proof.
  intros Ha. apply str_at_frame. intros x Hx. apply store_ne. unfold apart in Ha; simpl in Ha. lia.
Qed.

Lemma apart_tail dst src c s : apart dst src (c :: s) -> apart (dst + 1) (src + 1) s.
Proof. unfold apart; simpl; lia. Qed.

Lemma strcpy_run fuel m dst src s :
  str_at m src s -> apart dst src s -> (length s < fuel)%nat ->
  exists m', strcpy fuel m dst src = Some m' /\
  forall x, m' x = if decide (dst <= x <= dst + Z.of_nat (length s)) then char_at s (x - dst) else m x.
Proof.
  revert m dst src s; induction fuel as [|fuel IH]; intros m dst src s Hs Ha Hf; [lia|].
  cbn [strcpy].
  apply str_at_head in Hs as [[-> ->]|(c & s' & -> & E & Hc & Hs)].
  - eexists; split; [done|]. intros x. simpl. store_cases; case_decide; try done; try lia.
  - rewrite E, (proj2 (Z.eqb_neq c 0)) by lia. cbn [negb].
    destruct (IH (store m dst c) (dst + 1) (src + 1) s') as (m' & -> & Hm');
      [by eapply str_at_store | by eapply apart_tail | simpl in Hf; lia |].
    exists m'. split; [done|]. intros x. rewrite Hm'. cbn [length].
    destruct (decide (x = dst)) as [->|Hx].
    + rewrite store_eq, decide_False, decide_True, Z.sub_diag by lia. done.
    + rewrite store_ne by done. repeat case_decide; try lia.
      rewrite char_at_cons by lia. f_equal. lia.
Qed.

Lemma strncpy_run n m dst src s x :
  str_at m src s -> apart dst src s ->
  strncpy n m dst src x =
  if decide (dst <= x < dst + Z.of_nat n) then char_at s (x - dst) else m x.
Proof.
  revert m dst src s; induction n as [|n IH]; intros m dst src s Hs Ha.
  { by rewrite decide_False by lia. }
  cbn [strncpy].
  apply str_at_head in Hs as [[-> ->]|(c & s' & -> & E & Hc & Hs)].
  - cbn [Z.eqb]. rewrite fill_zero_spec. destruct (decide (x = dst)) as [->|Hx].
    + by rewrite store_eq, decide_False, decide_True, char_at_end by (simpl; lia).
    + rewrite store_ne by done. repeat case_decide; try done; try lia.
  - rewrite E, (proj2 (Z.eqb_neq c 0)) by lia.
    rewrite (IH _ _ _ s') by (by eapply str_at_store || by eapply apart_tail).
    destruct (decide (x = dst)) as [->|Hx].
    + rewrite store_eq, decide_False, decide_True, Z.sub_diag by lia. done.
    + rewrite store_ne by done. repeat case_decide; try lia.
      rewrite char_at_cons by lia. f_equal. lia.
Qed.

Lemma str_at_chars m a s :
  (forall c, c ∈ s -> 0 < c < 256) ->
  (forall x, a <= x <= a + Z.of_nat (length s) -> m x = char_at s (x - a)) -> str_at m a s.
Proof.
  revert a; induction s as [|c s IH]; intros a Hc Hm; cbn [str_at].
  - rewrite Hm by (simpl; lia). by apply char_at_end; simpl; lia.
  - split; [rewrite Hm by (simpl; lia); by rewrite Z.sub_diag|].
    split; [apply Hc; by left|]. apply IH; [intros; apply Hc; by right|].
    intros x Hx. rewrite Hm by (simpl; lia). rewrite char_at_cons by lia. f_equal. lia.
Qed.

Lemma str_at_bytes m a s c : str_at m a s -> c ∈ s -> 0 < c < 256.
Proof.
  revert a; induction s as [|d s IH]; intros a; cbn [str_at]; [by intros _ ?%elem_of_nil|].
  intros (_ & Hd & Hs) [->|Hin]%elem_of_cons; eauto.
Qed.

(** Lengths and copies. [strlen] and [strnlen] return the length (cut at
    [n]). If target and source do not overlap, [strcpy] writes the string with
    its terminator and nothing else; [strncpy] writes exactly [n] bytes, the string
    cut or padded with zeros; and [safestrcpy] leaves, for [n > 0], a
    terminated string of the first [n - 1] characters in the target and changes no
    byte outside its [n] bytes. *)
Theorem string_copy_spec m dst src s n fuel :
  str_at m src s -> apart dst src s -> (length s < fuel)%nat ->
  strlen fuel m src = Some (Z.of_nat (length s)) /\
  strnlen m src n = Z.min (Z.of_nat n) (Z.of_nat (length s)) /\
  (exists m', strcpy fuel m dst src = Some m' /\ str_at m' dst s /\
     forall x, ~ dst <= x <= dst + Z.of_nat (length s) -> m' x = m x) /\
  (forall x, strncpy n m dst src x =
     if decide (dst <= x < dst + Z.of_nat n) then char_at s (x - dst) else m x) /\
  ((0 < n)%nat -> str_at (safestrcpy n m dst src) dst (take (n - 1) s) /\
     forall x, ~ dst <= x < dst + Z.of_nat n -> safestrcpy n m dst src x = m x).
Proof.
  intros Hs Ha Hf.
  split; [unfold strlen; by rewrite (strlen_loop_run _ _ _ 0 s) by (rewrite ?Z.add_0_r; done)|].
  split; [unfold strnlen; rewrite (strnlen_loop_run _ _ _ 0 s) by (by rewrite Z.add_0_r); lia|].
  split; [|split].
  - destruct (strcpy_run fuel m dst src s Hs Ha Hf) as (m' & E & Hm').
    exists m'. split; [done|]. split; [|intros x Hx; by rewrite Hm', decide_False].
    apply str_at_chars; [intros c; by eapply str_at_bytes|].
    intros x Hx. by rewrite Hm', decide_True.
  - intros x. by apply strncpy_run.
  - intros Hn. unfold safestrcpy. rewrite (proj2 (Z.gtb_lt (Z.of_nat n) 0)) by lia.
    split.
    + apply str_at_chars; [intros c (i & Hc & _)%elem_of_take; eapply str_at_bytes; [done|]; by eapply list_elem_of_lookup_2|].
      rewrite length_take. intros x Hx. unfold store.
      destruct (Z.eqb_spec x (dst + (Z.of_nat n - 1))) as [->|Hx'].
      * symmetry; apply char_at_end. rewrite length_take. lia.
      * rewrite (strncpy_run n m dst src s x Hs Ha), decide_True by lia. unfold char_at.
        by rewrite lookup_take_lt by lia.
    + intros x Hx. rewrite store_ne by lia.
      by rewrite (strncpy_run n m dst src s x Hs Ha), decide_False.
Qed.

Lemma string_copy_spec_witness :
  str_at (safestrcpy 3 (text [97; 98; 99; 0]) 40 16) 40 [97; 98].
Proof.
  exact (proj1 (proj2 (proj2 (proj2 (proj2
    (string_copy_spec (text [97; 98; 99; 0]) 40 16 [97; 98; 99] 3 4
       ltac:(repeat split) ltac:(right; simpl; lia) ltac:(simpl; lia))))) ltac:(lia))).
Defined.

(** ** Numbers *)

Definition is_digit (base c : Z) : Prop := 48 <= c <= 48 + base - 1.

(** The value of a digit string after the digits before it gave [n]. *)
Definition digits_value (base n : Z) (ds : list Z) : Z :=
  fold_left (fun n c => n * base + (c - 48)) ds n.

Definition no_digit (base : Z) (rest : list Z) : Prop :=
  match rest with [] => True | c :: _ => ~ is_digit base c end.

Lemma digits_value_ge base n ds :
  1 <= base -> 0 <= n -> Forall (is_digit base) ds -> n <= digits_value base n ds.
Proof.
  intros Hb. revert n; induction ds as [|d ds IH]; intros n Hn Hd; [done|].
  apply Forall_cons in Hd as [Hd Hds]. unfold is_digit in Hd. cbn [digits_value fold_left].
  assert (n * base + (d - 48) <= digits_value base (n * base + (d - 48)) ds) by (apply IH; [nia | done]).
  unfold digits_value in *. nia.
Qed.

Lemma digits_loop_run w fuel m base a n ds rest :
  0 < w -> 2 <= base <= 10 -> str_at m a (ds ++ rest) -> Forall (is_digit base) ds ->
  no_digit base rest -> (length ds < fuel)%nat -> 0 <= n -> digits_value base n ds < 2 ^ (w - 1) ->
  digits_loop w fuel m base (48 + base - 1) a n =
  Some (digits_value base n ds, a + Z.of_nat (length ds)).
Proof.
  intros Hw Hb. revert a n ds; induction fuel as [|fuel IH]; intros a n ds Hs Hd Hr Hf Hn Hv; [lia|].
  cbn [digits_loop]. destruct ds as [|d ds].
  - assert (((48 <=? m a) && (m a <=? 48 + base - 1))%bool = false) as ->.
    { apply str_at_head in Hs as [[-> _]|(c & s' & E & -> & _)]; [done|].
      simpl in E. subst rest. unfold no_digit, is_digit in Hr.
      apply andb_false_iff. rewrite Z.leb_gt, Z.leb_gt. lia. }
    simpl. by rewrite Z.add_0_r.
  - apply Forall_cons in Hd as [Hd Hds]. cbn [app str_at] in Hs. destruct Hs as (-> & _ & Hs).
    unfold is_digit in Hd.
    rewrite (proj2 (Z.leb_le 48 d)), (proj2 (Z.leb_le d (48 + base - 1))) by lia. cbn [andb].
    change (digits_value base n (d :: ds)) with (digits_value base (n * base + (d - 48)) ds) in *.
    replace (n * base + d - 48) with (n * base + (d - 48)) by lia.
    assert (0 <= n * base + (d - 48)) by nia.
    pose proof (digits_value_ge base (n * base + (d - 48)) ds ltac:(lia) ltac:(done) Hds).
    rewrite swrap_id; [|unfold is_s; lia | done].
    simpl in Hf. rewrite (IH (a + 1) _ ds) by (done || lia). f_equal. f_equal. cbn [length]. lia.
Qed.

Definition sign_ok (sign : list Z) : Prop := sign = [] \/ sign = [43] \/ sign = [45].

(** The optional sign of a number whose first digit follows. *)
Lemma sign_run m a sign d ds :
  sign_ok sign -> 48 <= d -> str_at m a (sign ++ d :: ds) ->
  (if ((m a =? 45) || (m a =? 43))%bool then (m a, a + 1) else (43, a)) =
  (if decide (sign = [45]) then 45 else 43, a + Z.of_nat (length sign)) /\
  str_at m (a + Z.of_nat (length sign)) (d :: ds).
Proof.
  intros [->|[->| ->]] Hd Hs; cbn [app str_at] in Hs.
  - destruct Hs as (E & Hs). rewrite E, (proj2 (Z.eqb_neq d 45)), (proj2 (Z.eqb_neq d 43)) by lia.
    simpl. rewrite Z.add_0_r. by split.
  - destruct Hs as (-> & _ & Hs). by split.
  - destruct Hs as (-> & _ & Hs). by split.
Qed.

Lemma skip_whitespace_run fuel m a ws c s :
  Forall (fun c => _is_whitespace c = true) ws -> _is_whitespace c = false ->
  str_at m a (ws ++ c :: s) -> (length ws < fuel)%nat ->
  skip_whitespace fuel m a = Some (a + Z.of_nat (length ws)) /\
  str_at m (a + Z.of_nat (length ws)) (c :: s).
Proof.
  revert a fuel; induction ws as [|w ws IH]; intros a [|fuel] Hw Hc Hs Hf; try (simpl in Hf; lia);
    cbn [skip_whitespace app] in *.
  - destruct Hs as (E & Hs). rewrite E, Hc. simpl. rewrite Z.add_0_r. by split.
  - apply Forall_cons in Hw as [Hw Hws]. destruct Hs as (-> & _ & Hs). rewrite Hw.
    destruct (IH (a + 1) fuel) as [-> H2]; [done.. | simpl in Hf; lia |].
    replace (a + Z.of_nat (length (w :: ws))) with (a + 1 + Z.of_nat (length ws)) by (simpl; lia).
    by split.
Qed.

Definition signed (sign : list Z) (v : Z) : Z := if decide (sign = [45]) then - v else v.

Lemma signed_wrap w sign v :
  0 < w -> 0 <= v < 2 ^ (w - 1) ->
  (if (if decide (sign = [45]) then 45 else 43) =? 45 then swrap w (v * -1) else v) = signed sign v.
Proof.
  intros Hw Hv. unfold signed. case_decide; simpl; [|done].
  rewrite swrap_id; [lia | unfold is_s; lia | done].
Qed.

(** Numbers are parsed. On white space, an optional sign and at least one
    digit of the base, followed by anything that is no digit, [strtoll]
    returns the signed value, if it fits 63 bits, and stores the address of the
    first character behind the number; [atoi] does so for a decimal number
    without white space that fits 31 bits. *)
Theorem number_parse_spec m a ws sign d ds rest base fuel :
  2 <= base <= 10 -> Forall (fun c => _is_whitespace c = true) ws -> sign_ok sign ->
  Forall (is_digit base) (d :: ds) -> no_digit base rest ->
  str_at m a (ws ++ sign ++ d :: ds ++ rest) -> (length ws + S (length ds) < fuel)%nat ->
  let v := digits_value base 0 (d :: ds) in
  (v < 2 ^ 63 -> strtoll fuel m a base =
     Some (signed sign v, Some (a + Z.of_nat (length ws + length sign + S (length ds))))) /\
  (ws = [] -> base = 10 -> v < 2 ^ 31 -> atoi fuel m a = Some (signed sign v)).
Proof.
  intros Hb Hws Hsg Hds Hrest Hs Hf v.
  pose proof (digits_value_ge base 0 (d :: ds) ltac:(lia) ltac:(lia) Hds) as Hpos.
  pose proof (Forall_inv Hds) as Hd. unfold is_digit in Hd.
  split.
  - intros Hv. unfold strtoll.
    assert (((base <? 2) || (base >? 10))%bool = false) as ->.
    { apply orb_false_iff. rewrite Z.gtb_ltb, Z.ltb_ge, Z.ltb_ge. lia. }
    rewrite uwrap_id by (unfold is_u; change (2 ^ 8) with 256; lia).
    assert (exists c s, sign ++ d :: ds ++ rest = c :: s /\ _is_whitespace c = false)
      as (c & s & E & Hc).
    { destruct Hsg as [->|[->| ->]]; (do 2 eexists; split; [done|]); [|done..].
      unfold _is_whitespace. rewrite (proj2 (Z.leb_gt d 13)), (proj2 (Z.eqb_neq d 32)) by lia.
      by rewrite andb_false_r. }
    rewrite E in Hs.
    destruct (skip_whitespace_run fuel m a ws c s Hws Hc Hs) as [-> Hs1]; [lia|].
    rewrite <- E in Hs1. destruct (sign_run m (a + Z.of_nat (length ws)) sign d (ds ++ rest) Hsg) as [-> Hs2]; [lia | done |].
    rewrite (digits_loop_run 64 fuel m base _ 0 (d :: ds) rest) by (done || (simpl; lia)).
    rewrite signed_wrap by (done || (unfold v in *; change (2 ^ (64 - 1)) with (2 ^ 63); lia)).
    f_equal. f_equal. f_equal. cbn [length]. lia.
  - intros -> -> Hv. unfold atoi. cbn [app length] in *.
    destruct (sign_run m a sign d (ds ++ rest) Hsg) as [-> Hs2]; [lia | done |].
    change 57 with (48 + 10 - 1).
    rewrite (digits_loop_run 32 fuel m 10 _ 0 (d :: ds) rest) by (done || (simpl; lia)).
    rewrite signed_wrap by (done || (unfold v in *; change (2 ^ (32 - 1)) with (2 ^ 31); lia)). done.
Qed.

Lemma number_parse_spec_witness :
  strtoll 9 (text [32; 45; 52; 50; 120; 0]) 16 10 = Some (-42, Some 20).
Proof.
  exact (proj1 (number_parse_spec (text [32; 45; 52; 50; 120; 0]) 16 [32] [45] 52 [50] [120] 10 9
    ltac:(lia) ltac:(by repeat constructor) ltac:(by right; right)
    ltac:(repeat constructor; unfold is_digit; lia) ltac:(unfold no_digit, is_digit; lia)
    ltac:(repeat split) ltac:(simpl; lia)) ltac:(vm_compute; reflexivity)).
Defined.

(** ** strstr *)

(** The first position whose rest starts with the needle. *)
Fixpoint find_sub (h nd : list Z) (a : Z) : option Z :=
  match h with
  | [] => None
  | _ :: h' => if decide (nd `prefix_of` h) then Some a else find_sub h' nd (a + 1)
  end.

Lemma match_loop_run fuel m a b h nd :
  str_at m a h -> str_at m b nd -> h <> nd -> (length nd < fuel)%nat ->
  exists pin, match_loop fuel m a b = Some pin /\ (m pin = 0 <-> nd `prefix_of` h).
Proof.
  revert a b h nd; induction fuel as [|fuel IH]; intros a b h nd Hh Hn Hne Hf; [lia|].
  cbn [match_loop].
  apply str_at_head in Hh as [[-> ->]|(c & h' & -> & E & Hc & Hh)],
    Hn as [[E2 ->]|(c2 & nd' & -> & E2 & Hc2 & Hn)]; rewrite ?E, E2.
  - done.
  - rewrite (proj2 (Z.eqb_neq 0 c2)) by lia. exists b. split; [done|]. rewrite E2.
    split; [lia | by intros ?%prefix_nil_inv].
  - rewrite (proj2 (Z.eqb_neq c 0)) by lia. exists b. split; [done|]. rewrite E2.
    split; [intros _; apply prefix_nil | done].
  - destruct (Z.eqb_spec c c2) as [->|Hcc].
    + destruct (IH _ _ _ _ Hh Hn) as (pin & -> & Hp); [congruence | simpl in Hf; lia |].
      exists pin. split; [done|]. rewrite Hp. split; [apply prefix_cons | apply prefix_cons_inv_2].
    + exists b. split; [done|]. rewrite E2. split; [lia|]. by intros ->%prefix_cons_inv_1.
Qed.

Lemma strstr_loop_run fuel inner m a b h nd :
  str_at m a h -> str_at m b nd -> (forall k, (k < length h)%nat -> drop k h <> nd) ->
  (length h < fuel)%nat -> (length nd < inner)%nat ->
  strstr_loop fuel inner m a b = Some (find_sub h nd a).
Proof.
  revert a h; induction fuel as [|fuel IH]; intros a h Hh Hn Hsuf Hf Hi; [lia|].
  cbn [strstr_loop].
  pose proof Hh as Hh0.
  apply str_at_head in Hh0 as [[-> ->]|(c & h' & -> & E & Hc & Hh')]; [done|].
  rewrite E, (proj2 (Z.eqb_neq c 0)) by lia. cbn [negb].
  destruct (match_loop_run inner m a b (c :: h') nd Hh Hn) as (pin & -> & Hp); [|done|].
  { apply (Hsuf 0%nat). simpl; lia. }
  cbn [find_sub]. case_decide as Hpre.
  - rewrite (proj2 Hp Hpre). done.
  - destruct (Z.eqb_spec (m pin) 0) as [E0|]; [by apply Hp in E0|]. cbn [negb].
    apply IH; [done.. | | simpl in Hf; lia | done].
    intros k Hk. apply (Hsuf (S k)). simpl; lia.
Qed.

(** [strstr] finds the first occurrence of the needle, or none, as long as
    the haystack does not end with the needle. If it does, the comparison runs
    over both terminators and the answer depends on the bytes behind the strings:
    two memories that hold the same two strings give different answers. *)
Theorem strstr_spec_unless_suffix m a b h nd fuel inner :
  (str_at m a h -> str_at m b nd -> a <> 0 -> b <> 0 ->
   (forall k, (k < length h)%nat -> drop k h <> nd) ->
   (length h < fuel)%nat -> (length nd < inner)%nat ->
   strstr fuel inner m a b = Some (find_sub h nd a)) /\
  (exists m1 m2, str_at m1 16 [97; 98] /\ str_at m1 20 [98] /\
     str_at m2 16 [97; 98] /\ str_at m2 20 [98] /\
     strstr 9 9 m1 16 20 = Some None /\ strstr 9 9 m2 16 20 = Some (Some 17)).
Proof.
  split.
  - intros Hh Hn Ha Hb Hsuf Hf Hi. unfold strstr.
    rewrite (proj2 (Z.eqb_neq a 0)), (proj2 (Z.eqb_neq b 0)) by done.
    by apply strstr_loop_run.
  - exists (text [97; 98; 0; 5; 98; 0; 7]), (text [97; 98; 0; 5; 98; 0; 0]).
    repeat split.
Qed.

Lemma strstr_spec_unless_suffix_witness :
  strstr 5 3 (text [97; 98; 99; 0; 98; 0]) 16 20 = Some (Some 17).
Proof.
  refine (proj1 (strstr_spec_unless_suffix (text [97; 98; 99; 0; 98; 0]) 16 20 [97; 98; 99] [98] 5 3)
            _ _ _ _ _ _ _); try (by repeat split); try (simpl; lia).
  intros [|[|[|k]]] Hk; simpl in *; done || lia.
Defined.

(** ** Searches *)

(** The first position of [c] in a list that starts at address [a]. *)
Fixpoint first_pos (c : Z) (l : list Z) (a : Z) : option Z :=
  match l with
  | [] => None
  | d :: l => if decide (d = c) then Some a else first_pos c l (a + 1)
  end.

(** The last position. *)
Fixpoint last_pos (c : Z) (l : list Z) (a : Z) : option Z :=
  match l with
  | [] => None
  | d :: l => match last_pos c l (a + 1) with
              | Some p => Some p
              | None => if decide (d = c) then Some a else None
              end
  end.

(** The length of the longest prefix of characters in [acc]. *)
Fixpoint span_len (acc s : list Z) : Z :=
  match s with
  | [] => 0
  | c :: s => if decide (c ∈ acc) then 1 + span_len acc s else 0
  end.

Lemma strchr_run fuel m a c s :
  str_at m a s -> (length s < fuel)%nat -> strchr fuel m a c = Some (first_pos c s a).
Proof.
  revert a s; induction fuel as [|fuel IH]; intros a s Hs Hf; [lia|]. cbn [strchr].
  apply str_at_head in Hs as [[-> ->]|(d & s' & -> & E & Hd & Hs)]; [done|].
  rewrite E, (proj2 (Z.eqb_neq d 0)) by lia. cbn [first_pos].
  destruct (Z.eqb_spec d c); [by rewrite decide_True|].
  rewrite decide_False by done. apply IH; [done | simpl in Hf; lia].
Qed.

Lemma memchr_run m a c l : block_at m a l -> memchr_loop (length l) m a c = first_pos c l a.
Proof.
  revert a; induction l as [|d l IH]; intros a; [done|]. intros (E & _ & Hl).
  cbn [length memchr_loop first_pos]. rewrite E.
  destruct (Z.eqb_spec d c); [by rewrite decide_True | rewrite decide_False by done; auto].
Qed.

Lemma last_pos_snoc c l d a :
  last_pos c (l ++ [d]) a =
  if decide (d = c) then Some (a + Z.of_nat (length l)) else last_pos c l a.
Proof.
  revert a; induction l as [|e l IH]; intros a; cbn [app last_pos length].
  - by rewrite Z.add_0_r.
  - rewrite IH. case_decide; [f_equal; lia | done].
Qed.

Lemma str_at_lookup m a s i c : str_at m a s -> (s ++ [0]) !! i = Some c -> m (a + Z.of_nat i) = c.
Proof.
  revert a i; induction s as [|d s IH]; intros a [|i]; cbn [str_at app lookup list_lookup].
  - rewrite Z.add_0_r. by intros -> [= <-].
  - done.
  - rewrite Z.add_0_r. intros (-> & _) [= <-]. done.
  - intros (_ & _ & Hs) Hi. replace (a + Z.of_nat (S i)) with (a + 1 + Z.of_nat i) by lia. eauto.
Qed.

Lemma strrchr_loop_run k m a c s :
  str_at m a s -> (k <= S (length s))%nat ->
  strrchr_loop k m a c = last_pos (u8 c) (take k (s ++ [0])) a.
Proof.
  intros Hs. induction k as [|k IH]; intros Hk; [done|]. cbn [strrchr_loop].
  destruct (lookup_lt_is_Some_2 (s ++ [0]) k) as [d Hd]; [rewrite length_app; simpl; lia|].
  rewrite (take_S_r _ _ _ Hd), last_pos_snoc, (str_at_lookup m a s k d Hs Hd).
  rewrite length_take, Nat.min_l by (rewrite length_app; simpl; lia).
  destruct (Z.eqb_spec d (u8 c)); [by rewrite decide_True | rewrite decide_False by done].
  apply IH. lia.
Qed.

Lemma accepted_run fuel m ch a acc :
  str_at m a acc -> (length acc < fuel)%nat -> accepted fuel m ch a = Some (bool_decide (ch ∈ acc)).
Proof.
  revert a acc; induction fuel as [|fuel IH]; intros a acc Hs Hf; [lia|]. cbn [accepted].
  apply str_at_head in Hs as [[-> ->]|(d & s' & -> & E & Hd & Hs)].
  - by rewrite bool_decide_false by (by intros ?%elem_of_nil).
  - rewrite E, (proj2 (Z.eqb_neq d 0)) by lia.
    destruct (Z.eqb_spec ch d) as [->|Hne]; [by rewrite bool_decide_true by (by left)|].
    rewrite (IH _ _ Hs) by (simpl in Hf; lia). f_equal. apply bool_decide_ext.
    rewrite elem_of_cons. tauto.
Qed.

Lemma strspn_loop_run fuel inner m a b s acc count :
  str_at m a s -> str_at m b acc -> (length s < fuel)%nat -> (length acc < inner)%nat ->
  strspn_loop fuel inner m a b count = Some (count + span_len acc s).
Proof.
  revert a s count; induction fuel as [|fuel IH]; intros a s count Hs Ha Hf Hi; [lia|].
  cbn [strspn_loop].
  apply str_at_head in Hs as [[-> ->]|(d & s' & -> & E & Hd & Hs)]; [simpl; f_equal; lia|].
  rewrite E, (proj2 (Z.eqb_neq d 0)) by lia. cbn [negb].
  rewrite (accepted_run inner m d b acc Ha Hi). cbn [span_len].
  destruct (decide (d ∈ acc)) as [Hin|Hin].
  - rewrite bool_decide_true by done. cbn [negb].
    rewrite (IH _ s') by (done || (simpl in Hf; lia)). f_equal; lia.
  - rewrite bool_decide_false by done. cbn [negb]. f_equal; lia.
Qed.

(** Searches. [strchr] returns the first position of a character before
    the terminator, [strrchr] the last one with the terminator included, [memchr] the
    first one in a memory block, each the null pointer if there is none; [strspn]
    the length of the longest prefix whose characters are all in [accept]. *)
Theorem string_search_spec m a b s acc blk l c fuel inner :
  str_at m a s -> str_at m b acc -> block_at m blk l -> a <> 0 -> b <> 0 ->
  (length s < fuel)%nat -> (length acc < inner)%nat ->
  strchr fuel m a c = Some (first_pos c s a) /\
  strrchr fuel m a c = Some (last_pos (u8 c) (s ++ [0]) a) /\
  memchr m blk c (Z.of_nat (length l)) = first_pos (u8 c) l blk /\
  strspn fuel inner m a b = Some (span_len acc s).
Proof.
  intros Hs Hacc Hl Ha Hb Hf Hi.
  split; [by apply strchr_run|]. split; [|split].
  - unfold strrchr, strlen. rewrite (strlen_loop_run _ _ _ 0 s) by (rewrite ?Z.add_0_r; done).
    rewrite Z.add_0_l, Nat2Z.id, (strrchr_loop_run _ _ _ _ s) by done.
    by rewrite take_ge by (rewrite length_app; simpl; lia).
  - unfold memchr. rewrite Nat2Z.id. by apply memchr_run.
  - unfold strspn. rewrite (proj2 (Z.eqb_neq a 0)), (proj2 (Z.eqb_neq b 0)) by done.
    cbn [orb]. by rewrite (strspn_loop_run _ _ _ _ _ s acc).
Qed.

Lemma string_search_spec_witness :
  strrchr 4 (text [97; 98; 97; 0; 97; 0]) 16 97 = Some (Some 18).
Proof.
  exact (proj1 (proj2 (string_search_spec (text [97; 98; 97; 0; 97; 0]) 16 20 [97; 98; 97] [97] 16
    [97; 98] 97 4 2 ltac:(repeat split) ltac:(repeat split) ltac:(by repeat split)
    ltac:(lia) ltac:(lia) ltac:(simpl; lia) ltac:(simpl; lia)))).
Defined.
