(* ===== verification/MemoryMap.v ===== *)
(** * Memory maps (kernel/mm/memory_map.c)

    The list of memory regions of a page table: which virtual addresses are
    backed by which physical ones, with what type and mapping state.  A map is
    the list of its regions in list order.  Freeing a region hands its pages to
    [free_pages_range]; the model returns the calls, as pairs of physical address
    and number of pages, in order.  The checks of [DEBUG_EXTRA_PANIC] are modelled
    as in the configuration that enables them. *)
From Stdlib Require Import Sorted.
From stdpp Require Import list.
From S2P Require Import Prelude Buddy.

(** ** memory_map.h *)

Inductive MM_Region_Type :=
| MM_REGION_RESERVED
| MM_REGION_EARLY_RAM
| MM_REGION_USABLE_RAM
| MM_REGION_KERNEL
| MM_REGION_KERNEL_TEXT
| MM_REGION_KERNEL_TEXT_PA
| MM_REGION_KERNEL_RO_DATA
| MM_REGION_KERNEL_DATA
| MM_REGION_KERNEL_BSS
| MM_REGION_DTB
| MM_REGION_INITRD
| MM_REGION_MMIO
| MM_REGION_USER_TEXT
| MM_REGION_USER_RW_TEXT
| MM_REGION_USER_RO_DATA
| MM_REGION_USER_DATA
| MM_REGION_USER_BSS
| MM_REGION_USER_STACK
| MM_REGION_USER_KSTACK
| MM_REGION_USER_TRAPFRAME
| MM_REGION_USER_TRAMPOLINE.

#[export] Instance MM_Region_Type_eq_dec : EqDecision MM_Region_Type.
Proof. solve_decision. Defined.

Inductive MM_Region_Mapped :=
| MM_REGION_NEVER_MAP
| MM_REGION_MARKED_FOR_MAPPING
| MM_REGION_PARTIAL_MAPPED
| MM_REGION_MAPPED
| MM_REGION_MARKED_FOR_UNMAPPING.

#[export] Instance MM_Region_Mapped_eq_dec : EqDecision MM_Region_Mapped.
Proof. solve_decision. Defined.

Record MM_Region := mk_region {
  start_pa : Z;
  start_va : Z;
  r_size : Z;
  r_type : MM_Region_Type;
  r_mapped : MM_Region_Mapped;
  free_on_unmap : bool
}.

#[export] Instance MM_Region_eq_dec : EqDecision MM_Region.
Proof. solve_decision. Defined.

(** ** pgtable-bits.h *)

Definition PTE_V : Z := Z.shiftl 1 0.
Definition PTE_R : Z := Z.shiftl 1 1.
Definition PTE_W : Z := Z.shiftl 1 2.
Definition PTE_X : Z := Z.shiftl 1 3.
Definition PTE_U : Z := Z.shiftl 1 4.
Definition PTE_G : Z := Z.shiftl 1 5.
Definition PTE_A : Z := Z.shiftl 1 6.
Definition PTE_D : Z := Z.shiftl 1 7.
Definition PTE_RW : Z := Z.lor PTE_R PTE_W.
Definition PTE_MMIO_FLAGS : Z := PTE_RW.
Definition PTE_RO_TEXT : Z := Z.lor PTE_R PTE_X.
Definition PTE_KERNEL_STACK : Z := Z.lor PTE_R PTE_W.
Definition PTE_RW_RAM : Z := PTE_RW.
Definition PTE_USER_RAM : Z := Z.lor (Z.lor PTE_R PTE_W) PTE_U.

(** ** memory_map.c *)

(** [struct MM_Region_Attributes] without the description. *)
Record MM_Region_Attributes := mk_attributes {
  pte_flags : Z; free_pages_attr : bool; copy_on_fork : bool
}.

Definition g_region_attributes (t : MM_Region_Type) : MM_Region_Attributes :=
  match t with
  | MM_REGION_RESERVED => mk_attributes 0 false false
  | MM_REGION_EARLY_RAM => mk_attributes PTE_RW_RAM false false
  | MM_REGION_USABLE_RAM => mk_attributes PTE_RW_RAM false false
  | MM_REGION_KERNEL => mk_attributes 0 false false
  | MM_REGION_KERNEL_TEXT => mk_attributes PTE_RO_TEXT false false
  | MM_REGION_KERNEL_TEXT_PA => mk_attributes PTE_RO_TEXT false false
  | MM_REGION_KERNEL_RO_DATA => mk_attributes PTE_R false false
  | MM_REGION_KERNEL_DATA => mk_attributes PTE_RW_RAM false false
  | MM_REGION_KERNEL_BSS => mk_attributes PTE_RW_RAM false false
  | MM_REGION_DTB => mk_attributes PTE_R false false
  | MM_REGION_INITRD => mk_attributes PTE_RW_RAM false false
  | MM_REGION_MMIO => mk_attributes PTE_MMIO_FLAGS false false
  | MM_REGION_USER_TEXT => mk_attributes (Z.lor PTE_RO_TEXT PTE_U) true true
  | MM_REGION_USER_RW_TEXT => mk_attributes (Z.lor (Z.lor PTE_RO_TEXT PTE_RW) PTE_U) true true
  | MM_REGION_USER_RO_DATA => mk_attributes (Z.lor PTE_R PTE_U) true true
  | MM_REGION_USER_DATA => mk_attributes PTE_USER_RAM true true
  | MM_REGION_USER_BSS => mk_attributes PTE_USER_RAM true true
  | MM_REGION_USER_STACK => mk_attributes PTE_USER_RAM true true
  | MM_REGION_USER_KSTACK => mk_attributes PTE_KERNEL_STACK true false
  | MM_REGION_USER_TRAPFRAME => mk_attributes PTE_RW_RAM false false
  | MM_REGION_USER_TRAMPOLINE => mk_attributes PTE_RO_TEXT false false
  end.

Definition mm_region_get_pte (r : MM_Region) : Z := pte_flags (g_region_attributes (r_type r)).

Definition page_aligned (a : Z) : bool := a mod PAGE_SIZE =? 0.

Definition mm_region_init (pa va size : Z) (type : MM_Region_Type) : res MM_Region :=
  let mapped := if decide (type = MM_REGION_RESERVED \/ type = MM_REGION_KERNEL)
                then MM_REGION_NEVER_MAP else MM_REGION_MARKED_FOR_MAPPING in
  let region := mk_region pa va size type mapped (free_pages_attr (g_region_attributes type)) in
  panic_unless (page_aligned (start_pa region)) ≫= fun _ =>
  panic_unless (page_aligned (start_va region)) ≫= fun _ =>
  panic_unless (page_aligned (r_size region)) ≫= fun _ =>
  Ret region.

(** [oom] tells whether [kmalloc] fails. *)
Definition mm_region_alloc_init (oom : bool) (pa va size : Z) (type : MM_Region_Type)
    : res (option MM_Region) :=
  if oom then Ret None else mm_region_init pa va size type ≫= fun r => Ret (Some r).

Definition mm_regions_can_be_merged (a b : MM_Region) : bool :=
  if negb (bool_decide (r_type a = r_type b)) then false
  else if bool_decide (r_type a = MM_REGION_MMIO) then false
  else if negb (bool_decide (r_mapped a = r_mapped b)) then false
  else
    let a_before_b_va := u64 (start_va a + r_size a) =? start_va b in
    let b_before_a_va := u64 (start_va b + r_size b) =? start_va a in
    let a_before_b_pa := u64 (start_pa a + r_size a) =? start_pa b in
    let b_before_a_pa := u64 (start_pa b + r_size b) =? start_pa a in
    ((a_before_b_va && a_before_b_pa) || (b_before_a_va && b_before_a_pa))%bool.

Definition mm_region_fits_before (a b : MM_Region) : bool :=
  let a_end_va := u64 (start_va a + r_size a - 1) in
  a_end_va <? start_va b.

(** The value of [a]; [b] is freed. *)
Definition mm_regions_merge (a b : MM_Region) : MM_Region :=
  let merged_start_va := Z.min (start_va a) (start_va b) in
  let merged_start_pa := Z.min (start_pa a) (start_pa b) in
  let merged_end_va := Z.max (u64 (start_va a + r_size a)) (u64 (start_va b + r_size b)) in
  mk_region merged_start_pa merged_start_va (u64 (merged_end_va - merged_start_va))
            (r_type a) (r_mapped a) (free_on_unmap a).

Definition region_checks (r : MM_Region) : res unit :=
  panic_unless (page_aligned (start_pa r)) ≫= fun _ =>
  panic_unless (page_aligned (start_va r)) ≫= fun _ =>
  panic_unless (page_aligned (r_size r)).

(** The loop over the regions. *)
Fixpoint add_single (new_region : MM_Region) (map : list MM_Region) : list MM_Region :=
  match map with
  | [] => [new_region]
  | region :: rest =>
      if mm_regions_can_be_merged region new_region
      then mm_regions_merge region new_region :: rest
      else if mm_region_fits_before new_region region then new_region :: region :: rest
      else region :: add_single new_region rest
  end.

Definition memory_map_add_single_region (new_region : MM_Region) (map : list MM_Region)
    : res (list MM_Region) :=
  region_checks new_region ≫= fun _ => Ret (add_single new_region map).

(** [oom] tells whether the allocation of the split region fails. *)
Fixpoint add_single_and_split (oom : bool) (new_region : MM_Region) (map : list MM_Region)
    : res (list MM_Region) :=
  match map with
  | [] => Ret [new_region]
  | region :: rest =>
      let new_region_end := u64 (start_va new_region + r_size new_region - 1) in
      let region_end := u64 (start_va region + r_size region - 1) in
      if mm_regions_can_be_merged region new_region
      then Ret (mm_regions_merge region new_region :: rest)
      else if ((start_va new_region =? start_va region) &&
               (r_size new_region =? r_size region))%bool
      then Ret (new_region :: rest)
      else if mm_region_fits_before new_region region
      then Ret (new_region :: region :: rest)
      else if ((start_va new_region =? start_va region) && (new_region_end <? region_end))%bool
      then Ret (new_region ::
                mk_region (u64 (start_pa region + r_size new_region)) (u64 (new_region_end + 1))
                  (u64 (r_size region - r_size new_region)) (r_type region) (r_mapped region)
                  (free_on_unmap region) :: rest)
      else if ((start_va new_region >? start_va region) && (new_region_end <? region_end))%bool
      then
        if oom then Panic
        else
          let region' := mk_region (start_pa region) (start_va region)
                           (u64 (start_va new_region - start_va region)) (r_type region)
                           (r_mapped region) (free_on_unmap region) in
          panic_unless (page_aligned (r_size region')) ≫= fun _ =>
          let offset := u64 (r_size new_region + r_size region') in
          let split_region := mk_region (u64 (start_pa region + offset))
                                (u64 (start_va region + offset)) (u64 (r_size region - offset))
                                (r_type region) (r_mapped region) (free_on_unmap region) in
          if r_size split_region >? 0
          then Ret (region' :: new_region :: split_region :: rest)
          else Ret (region' :: new_region :: rest)
      else add_single_and_split oom new_region rest ≫= fun rest => Ret (region :: rest)
  end.

Definition memory_map_add_single_region_and_split (oom : bool) (new_region : MM_Region)
    (map : list MM_Region) : res (list MM_Region) :=
  region_checks new_region ≫= fun _ => add_single_and_split oom new_region map.

(** [oom1] and [oom2] are the failures of the two allocations. *)
Definition memory_map_add_region_and_split (oom1 oom2 : bool) (pa va size : Z)
    (type : MM_Region_Type) (map : list MM_Region) : res (list MM_Region) :=
  if size =? 0 then Ret map
  else
    mm_region_alloc_init oom1 pa va size type ≫= fun region =>
    match region with
    | None => Panic
    | Some region => memory_map_add_single_region_and_split oom2 region map
    end.

(** ** Removal *)

(** A call of [free_pages_range]. *)
Definition freed : Type := Z * Z.

(** The pages that [mm_region_remove] frees. *)
Definition mm_region_remove (r : MM_Region) : list freed :=
  if free_on_unmap r then [(start_pa r, r_size r / PAGE_SIZE)] else [].

(** [None] is a region that was removed; C division of signed offsets. *)
Definition mm_region_resize (r : MM_Region) (new_start_va new_size : Z)
    : option MM_Region * list freed :=
  if new_size =? 0 then (None, mm_region_remove r)
  else
    let start_offset := s64 (new_start_va - start_va r) in
    let end_offset := s64 ((new_start_va + new_size) - (start_va r + r_size r)) in
    let fr := if free_on_unmap r then
                (if start_offset >? 0 then [(start_pa r, start_offset / PAGE_SIZE)] else []) ++
                (if end_offset <? 0
                 then [(u64 (start_pa r + r_size r + end_offset), u64 (- end_offset) / PAGE_SIZE)]
                 else [])
              else [] in
    (Some (mk_region (u64 (start_pa r + start_offset)) new_start_va new_size
             (r_type r) (r_mapped r) (free_on_unmap r)), fr).

(** What happens to one region: what is left of it and what is freed. *)
Definition remove_step (from end_va : Z) (region : MM_Region)
    : res (option MM_Region * list freed) :=
  let region_end_va := u64 (start_va region + r_size region - 1) in
  if ((start_va region >=? from) && (region_end_va <=? end_va))%bool
  then Ret (None, mm_region_remove region)
  else if ((start_va region <? from) && (region_end_va >? from) && (region_end_va <=? end_va))%bool
  then Ret (mm_region_resize region (start_va region) (u64 (from - start_va region)))
  else if ((start_va region >=? from) && (start_va region <? end_va) &&
           (region_end_va >=? end_va))%bool
  then
    let offset := u64 (end_va - start_va region + 1) in
    Ret (mm_region_resize region (u64 (start_va region + offset)) (u64 (r_size region - offset)))
  else if ((start_va region <? from) && (region_end_va >? end_va))%bool then Panic
  else Ret (Some region, []).

Fixpoint remove_loop (from end_va : Z) (map : list MM_Region) : res (list MM_Region * list freed) :=
  match map with
  | [] => Ret ([], [])
  | region :: rest =>
      remove_step from end_va region ≫= fun '(o, fr) =>
      remove_loop from end_va rest ≫= fun '(rest, frs) =>
      Ret (option_list o ++ rest, fr ++ frs)
  end.

Definition memory_map_remove_regions (from size : Z) (map : list MM_Region)
    : res (list MM_Region * list freed) :=
  panic_unless (page_aligned from) ≫= fun _ =>
  panic_unless (page_aligned size) ≫= fun _ =>
  let end_va := u64 (from + size - 1) in
  remove_loop from end_va map.

Fixpoint memory_map_free (map : list MM_Region) : list freed :=
  match map with
  | [] => []
  | region :: rest => mm_region_remove region ++ memory_map_free rest
  end.

(** ** The kernel's map *)

Record Memory_Map := mk_memory_map {
  mm_ram : MM_Region;
  mm_kernel : MM_Region;
  region_list : list MM_Region
}.

(** [oom] gives the failures of the two allocations of each call. *)
Definition memory_map_set_ram (oom : bool * bool) (pa va size : Z) (map : Memory_Map)
    : res Memory_Map :=
  mm_region_init pa va size MM_REGION_USABLE_RAM ≫= fun ram =>
  memory_map_add_region_and_split oom.1 oom.2 pa va size MM_REGION_USABLE_RAM (region_list map)
    ≫= fun l => Ret (mk_memory_map ram (mm_kernel map) l).

Fixpoint add_early_regions (oom : nat -> bool * bool) (i : nat) (region : list MM_Region)
    (l : list MM_Region) : res (list MM_Region) :=
  match region with
  | [] => Ret l
  | r :: region =>
      memory_map_add_region_and_split (oom i).1 (oom i).2 (start_pa r) (start_va r) (r_size r)
        (r_type r) l ≫= fun l => add_early_regions oom (S i) region l
  end.

Definition memory_map_copy_from_early_memory_map (oom : nat -> bool * bool)
    (early_kernel : MM_Region) (early_regions : list MM_Region) (map : Memory_Map)
    : res Memory_Map :=
  memory_map_add_region_and_split (oom 0%nat).1 (oom 0%nat).2 (start_pa early_kernel)
    (start_va early_kernel) (r_size early_kernel) (r_type early_kernel) (region_list map) ≫= fun l =>
  add_early_regions oom 1 early_regions l ≫= fun l =>
  Ret (mk_memory_map (mm_ram map) early_kernel l).

(** ** Device memory *)

Definition MMIO_BASE : Z := 0xFFFFFFE000000000.
Definition DEVICE_MAX_MEM_MAPS : nat := 4.

(** The offset and the new [g_next_free_mmio_va]. *)
Definition vm_get_mmio_offset (next_va new_mmio_start_pa new_mmio_size : Z) : Z * Z :=
  (u64 (next_va - new_mmio_start_pa), u64 (next_va + (new_mmio_size + PAGE_SIZE))).

(** Registers of a device: physical start, virtual start, size. *)
Record Memory_Mapped_Registers := mk_mmr { mmr_pa : Z; mmr_va : Z; mmr_size : Z }.

Record Found_Device := mk_device { mmu_map_memory : bool; dev_mem : list Memory_Mapped_Registers }.

(** The inner loop: a size of 0 ends the list. *)
Fixpoint add_mmio_mems (k : nat) (mems : list Memory_Mapped_Registers) (next_va : Z)
    (l : list MM_Region) : res (list Memory_Mapped_Registers * Z * list MM_Region) :=
  match k, mems with
  | S k, m :: mems =>
      if mmr_size m =? 0 then Ret (m :: mems, next_va, l)
      else
        let map_start_pa := PAGE_ROUND_DOWN (mmr_pa m) in
        let map_end_pa := PAGE_ROUND_UP (mmr_pa m + mmr_size m) in
        let map_size := u64 (map_end_pa - map_start_pa) in
        let '(offset, next_va) := vm_get_mmio_offset next_va map_start_pa map_size in
        let m := mk_mmr (mmr_pa m) (u64 (mmr_pa m + offset)) (mmr_size m) in
        mm_region_init map_start_pa (u64 (map_start_pa + offset)) map_size MM_REGION_MMIO
          ≫= fun region =>
        memory_map_add_single_region region l ≫= fun l =>
        add_mmio_mems k mems next_va l ≫= fun '(mems, next_va, l) =>
        Ret (m :: mems, next_va, l)
  | _, _ => Ret (mems, next_va, l)
  end.

(** Allocations do not fail here; a failure is a panic. *)
Fixpoint memory_map_add_device_mmio (devs : list Found_Device) (next_va : Z) (l : list MM_Region)
    : res (list Found_Device * Z * list MM_Region) :=
  match devs with
  | [] => Ret ([], next_va, l)
  | dev :: devs =>
      (if mmu_map_memory dev
       then add_mmio_mems DEVICE_MAX_MEM_MAPS (dev_mem dev) next_va l ≫= fun '(mems, next_va, l) =>
            Ret (mk_device (mmu_map_memory dev) mems, next_va, l)
       else Ret (dev, next_va, l)) ≫= fun '(dev, next_va, l) =>
      memory_map_add_device_mmio devs next_va l ≫= fun '(devs, next_va, l) =>
      Ret (dev :: devs, next_va, l)
  end.

(** ** What a map describes

    The backing of a virtual address: physical address, type, mapping state and
    whether its page is freed on removal. *)

Definition backing : Type := Z * MM_Region_Type * MM_Region_Mapped * bool.

Definition region_end (r : MM_Region) : Z := start_va r + r_size r.
Definition in_region (r : MM_Region) (va : Z) : Prop := start_va r <= va < region_end r.

#[export] Instance in_region_dec r va : Decision (in_region r va).
Proof. unfold in_region; apply _. Defined.

Definition region_at (r : MM_Region) (va : Z) : option backing :=
  if decide (in_region r va)
  then Some (start_pa r + (va - start_va r), r_type r, r_mapped r, free_on_unmap r) else None.

Fixpoint mm_at (map : list MM_Region) (va : Z) : option backing :=
  match map with
  | [] => None
  | r :: rest => region_at r va ∪ mm_at rest va
  end.

(** ** Well-formed maps *)

Record region_ok (r : MM_Region) : Prop := mk_region_ok {
  ok_pa : (PAGE_SIZE | start_pa r);
  ok_va : (PAGE_SIZE | start_va r);
  ok_size : (PAGE_SIZE | r_size r);
  ok_pos : 0 < r_size r;
  ok_va_range : 0 <= start_va r /\ start_va r + r_size r < 2 ^ 64;
  ok_pa_range : 0 <= start_pa r /\ start_pa r + r_size r < 2 ^ 64;
  ok_free : free_on_unmap r = free_pages_attr (g_region_attributes (r_type r))
}.

Definition before (a b : MM_Region) : Prop := region_end a <= start_va b.
Definition regions_disjoint (a b : MM_Region) : Prop := before a b \/ before b a.

(** Regions in the order of their addresses, without overlap. *)
Definition map_ok (map : list MM_Region) : Prop :=
  Forall region_ok map /\ StronglySorted before map.

Lemma map_ok_cons r rest :
  map_ok (r :: rest) <-> region_ok r /\ Forall (before r) rest /\ map_ok rest.
Proof.
  unfold map_ok. rewrite Forall_cons. split.
  - intros ((? & ?) & Hs). apply StronglySorted_inv in Hs as [? ?]. tauto.
  - intros (? & ? & ? & ?). split; [done|]. by constructor.
Qed.

Lemma map_ok_nil : map_ok [].
Proof. split; [constructor | apply SSorted_nil]. Qed.

#[export] Hint Resolve map_ok_nil : core vimix.

(** An address below every region of a list has no backing there. *)
Lemma mm_at_below map va :
  Forall (fun r => va < start_va r) map -> mm_at map va = None.
Proof.
  induction 1 as [|r rest Hr _ IH]; [done|]. cbn [mm_at]. rewrite IH. unfold region_at.
  rewrite decide_False by (unfold in_region; lia). done.
Qed.

Lemma aligned_true a : (PAGE_SIZE | a) -> page_aligned a = true.
Proof. intros H. unfold page_aligned. by apply Z.eqb_eq, Z.mod_divide. Qed.

Lemma aligned_false a : ~ (PAGE_SIZE | a) -> page_aligned a = false.
Proof. intros H. unfold page_aligned. apply Z.eqb_neq. intros E. by apply H, Z.mod_divide. Qed.

Lemma region_checks_ok r : region_ok r -> region_checks r = Ret tt.
Proof.
  intros H. unfold region_checks. by rewrite !aligned_true by apply H.
Qed.

Lemma option_union_None_l {A} (x : option A) : None ∪ x = x.
Proof. by destruct x. Qed.

Lemma option_union_None_r {A} (x : option A) : x ∪ None = x.
Proof. by destruct x. Qed.

Lemma union_disjoint_swap {A} (x y z : option A) :
  (x = None \/ y = None) -> x ∪ (y ∪ z) = y ∪ (x ∪ z).
Proof. destruct x, y, z; naive_solver. Qed.

Lemma region_at_disjoint a b va :
  regions_disjoint a b -> region_at a va = None \/ region_at b va = None.
Proof.
  unfold region_at, regions_disjoint, before. intros H.
  repeat case_decide; auto. unfold in_region in *. lia.
Qed.

(** ** Merging *)

Lemma can_be_merged_inv a b :
  region_ok a -> region_ok b -> mm_regions_can_be_merged a b = true ->
  r_type a = r_type b /\ r_mapped a = r_mapped b /\
  ((region_end a = start_va b /\ start_pa a + r_size a = start_pa b) \/
   (region_end b = start_va a /\ start_pa b + r_size b = start_pa a)).
Proof.
  intros Ha Hb. unfold mm_regions_can_be_merged, region_end.
  pose proof (ok_va_range a Ha). pose proof (ok_va_range b Hb).
  pose proof (ok_pa_range a Ha). pose proof (ok_pa_range b Hb).
  pose proof (ok_pos a Ha). pose proof (ok_pos b Hb).
  rewrite !uwrap_id by (unfold is_u; lia).
  repeat case_bool_decide; cbn [negb]; try done.
  intros Hadj. split; [done|]. split; [done|].
  rewrite orb_true_iff, !andb_true_iff, !Z.eqb_eq in Hadj. lia.
Qed.

Lemma merge_spec a b :
  region_ok a -> region_ok b -> mm_regions_can_be_merged a b = true ->
  let m := mm_regions_merge a b in
  region_ok m /\ (forall va, region_at m va = region_at a va ∪ region_at b va) /\
  start_va m = Z.min (start_va a) (start_va b) /\ region_end m = Z.max (region_end a) (region_end b).
Proof.
  intros Ha Hb Hm m. destruct (can_be_merged_inv a b Ha Hb Hm) as (Ht & Hmp & Hadj).
  destruct Ha as [Ha1 Ha2 Ha3 Ha4 Ha5 Ha6 Ha7], Hb as [Hb1 Hb2 Hb3 Hb4 Hb5 Hb6 Hb7].
  assert (m = mk_region (Z.min (start_pa a) (start_pa b)) (Z.min (start_va a) (start_va b))
                (r_size a + r_size b) (r_type a) (r_mapped a) (free_on_unmap a)) as ->.
  { unfold m, mm_regions_merge, region_end in *.
    rewrite (uwrap_id 64 (start_va a + r_size a)), (uwrap_id 64 (start_va b + r_size b))
      by (unfold is_u; lia).
    rewrite uwrap_id by (unfold is_u; lia). f_equal. lia. }
  unfold region_end in *. cbn [start_va r_size].
  split; [|split; [|lia]].
  - split; simpl; try done; try lia.
    + destruct (Z.min_spec (start_pa a) (start_pa b)) as [[_ ->]|[_ ->]]; done.
    + destruct (Z.min_spec (start_va a) (start_va b)) as [[_ ->]|[_ ->]]; done.
    + by apply Z.divide_add_r.
  - intros va. unfold region_at, in_region, region_end; simpl.
    assert (free_on_unmap b = free_on_unmap a) as -> by congruence. rewrite <- Ht, <- Hmp.
    repeat case_decide; try lia; try done; rewrite ?option_union_None_l, ?option_union_None_r;
      do 4 f_equal; lia.
Qed.

Lemma touching_not_between a b r :
  region_ok a -> region_ok b -> region_ok r -> mm_regions_can_be_merged a b = true ->
  before a r -> regions_disjoint b r -> before (mm_regions_merge a b) r.
Proof.
  intros Ha Hb Hr Hm Har Hbr.
  destruct (merge_spec a b Ha Hb Hm) as (_ & _ & _ & He).
  destruct (can_be_merged_inv a b Ha Hb Hm) as (_ & _ & Hadj).
  pose proof (ok_pos a Ha). pose proof (ok_pos b Hb). pose proof (ok_pos r Hr).
  unfold before, regions_disjoint in *. rewrite He. unfold before, region_end in *. lia.
Qed.

Lemma fits_before_spec a b :
  region_ok a -> region_ok b -> regions_disjoint a b ->
  if mm_region_fits_before a b then before a b else before b a.
Proof.
  intros Ha Hb Hd. unfold mm_region_fits_before.
  pose proof (ok_va_range a Ha). pose proof (ok_pos a Ha). pose proof (ok_pos b Hb).
  rewrite uwrap_id by (unfold is_u; lia).
  unfold regions_disjoint, before, region_end in *.
  destruct (Z.ltb_spec (start_va a + r_size a - 1) (start_va b)); lia.
Qed.

(** ** Adding a region *)

Lemma add_single_lower lo new map :
  Forall (fun r => lo <= start_va r) map -> lo <= start_va new ->
  Forall (fun r => lo <= start_va r) (add_single new map).
Proof.
  intros Hm Hn. induction Hm as [|r rest Hr Hrest IH]; cbn [add_single]; [by constructor|].
  destruct (mm_regions_can_be_merged r new); [constructor; [simpl; lia | done]|].
  destruct (mm_region_fits_before new r); by repeat constructor.
Qed.

Lemma add_single_spec new map :
  region_ok new -> map_ok map -> Forall (regions_disjoint new) map ->
  map_ok (add_single new map) /\
  forall va, mm_at (add_single new map) va = region_at new va ∪ mm_at map va.
Proof.
  intros Hn. induction map as [|r rest IH]; intros Hok Hd.
  { split; [|done]. split; [by constructor|]. by repeat constructor. }
  apply map_ok_cons in Hok as (Hr & Hbef & Hrest). apply Forall_cons in Hd as [Hdr Hdrest].
  cbn [add_single].
  destruct (mm_regions_can_be_merged r new) eqn:Em.
  - destruct (merge_spec r new Hr Hn Em) as (Hm & Hat & _ & _). split.
    + apply map_ok_cons. split; [done|]. split; [|done].
      rewrite Forall_forall in Hbef, Hdrest |- *. intros x Hx.
      apply touching_not_between; auto. destruct Hrest as [Hf _].
      rewrite Forall_forall in Hf. auto.
    + intros va. cbn [mm_at]. rewrite Hat.
      destruct (region_at_disjoint new r va Hdr) as [->| ->];
        destruct (region_at _ va); by destruct (mm_at rest va).
  - pose proof (fits_before_spec new r Hn Hr Hdr) as Hfit.
    destruct (mm_region_fits_before new r) eqn:Ef.
    + split; [|done]. apply map_ok_cons. split; [done|]. split.
      * constructor; [done|]. rewrite Forall_forall in Hbef |- *. intros x Hx.
        specialize (Hbef x Hx). pose proof (ok_pos r Hr). unfold before, region_end in *. lia.
      * apply map_ok_cons. done.
    + destruct (IH Hrest Hdrest) as [IH1 IH2]. split.
      * apply map_ok_cons. split; [done|]. split; [|done]. apply add_single_lower; done.
      * intros va. cbn [mm_at]. rewrite IH2. apply union_disjoint_swap.
        destruct (region_at_disjoint new r va Hdr); auto.
Qed.

(** ** Splitting *)

(** Equal up to arithmetic in the fields of regions. *)
Ltac region_eq :=
  cbn [app];
  repeat match goal with
  | |- Ret _ = Ret _ => f_equal
  | |- Some _ = Some _ => f_equal
  | |- _ :: _ = _ :: _ => f_equal
  | |- (_, _) = (_, _) => f_equal
  | |- mk_region _ _ _ _ _ _ = mk_region _ _ _ _ _ _ => f_equal
  end; try lia.

Lemma split_disjoint oom new map :
  region_ok new -> map_ok map -> Forall (regions_disjoint new) map ->
  add_single_and_split oom new map = Ret (add_single new map).
Proof.
  intros Hn. induction map as [|r rest IH]; intros Hok Hd; [done|].
  apply map_ok_cons in Hok as (Hr & _ & Hrest). apply Forall_cons in Hd as [Hdr Hdrest].
  cbn [add_single_and_split add_single].
  destruct (mm_regions_can_be_merged r new); [done|].
  pose proof (ok_pos r Hr). pose proof (ok_pos new Hn).
  assert ((start_va new =? start_va r) = false) as ->.
  { apply Z.eqb_neq. unfold regions_disjoint, before, region_end in Hdr. lia. }
  cbn [andb]. destruct (mm_region_fits_before new r); [done|].
  assert (((start_va new >? start_va r) &&
    (u64 (start_va new + r_size new - 1) <? u64 (start_va r + r_size r - 1)))%bool = false) as ->.
  { pose proof (ok_va_range r Hr). pose proof (ok_va_range new Hn).
    rewrite !uwrap_id by (unfold is_u; lia). apply andb_false_iff.
    rewrite Z.gtb_ltb, !Z.ltb_ge. unfold regions_disjoint, before, region_end in Hdr. lia. }
  rewrite IH by done. done.
Qed.

(** The new region lies in the old one and does not reach its end, or is the
    same range. *)
Definition splits (new r : MM_Region) : Prop :=
  start_va r <= start_va new /\
  (region_end new < region_end r \/ (start_va new = start_va r /\ region_end new = region_end r)).

(** The parts of [r] that a region inside of it leaves. *)
Definition cut_before (new r : MM_Region) : list MM_Region :=
  if decide (start_va new = start_va r) then []
  else [mk_region (start_pa r) (start_va r) (start_va new - start_va r)
          (r_type r) (r_mapped r) (free_on_unmap r)].
Definition cut_after (new r : MM_Region) : list MM_Region :=
  if decide (region_end new = region_end r) then []
  else [mk_region (start_pa r + (region_end new - start_va r)) (region_end new)
          (region_end r - region_end new) (r_type r) (r_mapped r) (free_on_unmap r)].

Lemma split_step new r rest :
  region_ok new -> region_ok r -> splits new r -> mm_regions_can_be_merged r new = false ->
  add_single_and_split false new (r :: rest) =
  Ret (cut_before new r ++ new :: cut_after new r ++ rest).
Proof.
  intros Hn Hr [Hs He] Hm. cbn [add_single_and_split]. rewrite Hm.
  pose proof (ok_pos r Hr). pose proof (ok_pos new Hn).
  pose proof (ok_va_range r Hr). pose proof (ok_va_range new Hn). pose proof (ok_pa_range r Hr).
  assert ((PAGE_SIZE | start_va new - start_va r)) as Hal
    by (apply Z.divide_sub_r; apply Hr || apply Hn).
  assert (mm_region_fits_before new r = false) as ->.
  { unfold mm_region_fits_before. rewrite uwrap_id by (unfold is_u; lia). apply Z.ltb_ge. lia. }
  unfold cut_before, cut_after, region_end in *.
  rewrite (uwrap_id 64 (start_va new + r_size new - 1)), (uwrap_id 64 (start_va r + r_size r - 1))
    by (unfold is_u; lia).
  destruct (Z.eqb_spec (start_va new) (start_va r)) as [E|E].
  - rewrite (decide_True _ _ E). destruct (Z.eqb_spec (r_size new) (r_size r)) as [E2|E2].
    + rewrite decide_True by lia. done.
    + cbn [andb]. rewrite (proj2 (Z.ltb_lt _ _)), decide_False by lia.
      rewrite !uwrap_id by (unfold is_u; lia). region_eq.
  - rewrite (decide_False _ _ E). cbn [andb].
    rewrite Z.gtb_ltb, !(proj2 (Z.ltb_lt _ _)), (decide_False (P := _ = _)) by lia. cbn [andb].
    rewrite (uwrap_id 64 (start_va new - start_va r)) by (unfold is_u; lia).
    cbn [start_pa start_va r_size]. rewrite (aligned_true _ Hal).
    cbn [panic_unless mbind res_bind].
    rewrite (uwrap_id 64 (r_size new + (start_va new - start_va r))) by (unfold is_u; lia).
    rewrite !uwrap_id by (unfold is_u; lia).
    rewrite Z.gtb_ltb, (proj2 (Z.ltb_lt _ _)) by lia. cbn [app]. region_eq.
Qed.

(** What is left of a region keeps its backing. *)
Lemma cut_spec new r :
  region_ok new -> region_ok r -> splits new r ->
  map_ok (cut_before new r ++ new :: cut_after new r) /\
  (forall va, mm_at (cut_before new r ++ new :: cut_after new r) va =
              region_at new va ∪ region_at r va) /\
  Forall (fun x => start_va r <= start_va x /\ region_end x <= region_end r)
         (cut_before new r ++ new :: cut_after new r).
Proof.
  intros Hn Hr [Hs He].
  assert (forall x, x ∈ cut_before new r ++ new :: cut_after new r ->
            region_ok x /\ start_va r <= start_va x /\ region_end x <= region_end r) as Hall.
  { destruct Hr as [H1 H2 H3 H4 H5 H6 H7].
    pose proof (ok_va new Hn). pose proof (ok_size new Hn). pose proof (ok_pos new Hn).
    intros x Hx. apply elem_of_app in Hx as [Hx|[->|Hx]%elem_of_cons].
    - unfold cut_before in Hx. case_decide; [by apply elem_of_nil in Hx|].
      apply list_elem_of_singleton in Hx as ->. unfold region_end in *.
      split; [|simpl; lia]. split; simpl; try done; try lia. by apply Z.divide_sub_r.
    - split; [done|]. unfold region_end in *. lia.
    - unfold cut_after in Hx. case_decide; [by apply elem_of_nil in Hx|].
      apply list_elem_of_singleton in Hx as ->. unfold region_end in *.
      split; [|simpl; lia].
      split; simpl; try done; try lia; repeat (apply Z.divide_sub_r || apply Z.divide_add_r); done. }
  pose proof (ok_pos r Hr). pose proof (ok_pos new Hn).
  split; [|split].
  - split; [apply Forall_forall; intros x Hx; apply Hall, Hx|].
    unfold cut_before, cut_after. unfold region_end in *.
    repeat case_decide; repeat (apply SSorted_cons || apply Forall_cons_2 || apply SSorted_nil ||
      apply Forall_nil_2 || apply Forall_nil); unfold before, region_end; simpl; lia.
  - intros va. unfold cut_before, cut_after.
    repeat case_decide; cbn [app mm_at]; unfold region_at, in_region, region_end in *; simpl;
      repeat case_decide; try lia; rewrite ?option_union_None_l, ?option_union_None_r; try done;
      try (by destruct (Some _)); do 4 f_equal; lia.
  - apply Forall_forall. intros x Hx. apply Hall, Hx.
Qed.

Lemma map_ok_app l1 l2 :
  map_ok (l1 ++ l2) <-> map_ok l1 /\ map_ok l2 /\ Forall (fun a => Forall (before a) l2) l1.
Proof.
  induction l1 as [|a l1 IH]; cbn [app].
  - split; [|tauto]. intros H. split; [split; constructor|]. split; [done | constructor].
  - rewrite !map_ok_cons, IH, Forall_app, Forall_cons. tauto.
Qed.

Lemma mm_at_app l1 l2 va : mm_at (l1 ++ l2) va = mm_at l1 va ∪ mm_at l2 va.
Proof.
  induction l1 as [|a l1 IH]; cbn [app mm_at]; [by rewrite option_union_None_l|].
  rewrite IH. by destruct (region_at a va), (mm_at l1 va), (mm_at l2 va).
Qed.

(** A region in front of the one that is split is left alone. *)
Lemma split_skip new r rest :
  region_ok new -> region_ok r -> before r new -> mm_regions_can_be_merged r new = false ->
  add_single_and_split false new (r :: rest) =
  (add_single_and_split false new rest ≫= fun rest => Ret (r :: rest)).
Proof.
  intros Hn Hr Hb Hm. cbn [add_single_and_split]. rewrite Hm.
  pose proof (ok_pos r Hr). pose proof (ok_pos new Hn).
  pose proof (ok_va_range r Hr). pose proof (ok_va_range new Hn).
  unfold before, region_end, mm_region_fits_before in *.
  rewrite !uwrap_id by (unfold is_u; lia).
  rewrite (proj2 (Z.eqb_neq _ _)) by lia. cbn [andb].
  rewrite (proj2 (Z.ltb_ge (start_va new + r_size new - 1) (start_va r))) by lia.
  rewrite (proj2 (Z.ltb_ge (start_va new + r_size new - 1) (start_va r + r_size r - 1))) by lia.
  by rewrite andb_false_r.
Qed.

Lemma split_spec new pre r post :
  region_ok new -> map_ok (pre ++ r :: post) -> splits new r ->
  Forall (fun x => mm_regions_can_be_merged x new = false) (pre ++ [r]) ->
  exists map', add_single_and_split false new (pre ++ r :: post) = Ret map' /\ map_ok map' /\
    forall va, mm_at map' va = region_at new va ∪ mm_at (pre ++ r :: post) va.
Proof.
  intros Hn Hok Hsp Hm.
  apply map_ok_app in Hok as (Hpre & Hpost & Hcross). apply Forall_app in Hm as [Hmp Hmr].
  apply Forall_cons_1 in Hmr as [Hmr _].
  apply map_ok_cons in Hpost as (Hr & Hbef & Hpost).
  destruct (cut_spec new r Hn Hr Hsp) as (Hcok & Hcat & Hcin).
  exists (pre ++ (cut_before new r ++ new :: cut_after new r) ++ post). split; [|split].
  - clear Hcok Hcat Hcin. induction pre as [|x pre IH].
    + rewrite <- app_assoc. cbn [app]. by apply split_step.
    + apply map_ok_cons in Hpre as (Hx & _ & Hpre). apply Forall_cons in Hcross as [Hcx Hcross].
      apply Forall_cons in Hmp as [Hmx Hmp]. apply Forall_cons in Hcx as [Hxr _].
      cbn [app]. rewrite split_skip; try done.
      * rewrite IH by done. done.
      * destruct Hsp as [Hs _]. unfold before in *. lia.
  - apply map_ok_app. split; [done|]. rewrite map_ok_app. rewrite !Forall_forall in *.
    split; [split; [done|]; split; [done|]|].
    + intros x Hx. rewrite Forall_forall. intros y Hy. specialize (Hbef y Hy).
      specialize (Hcin x Hx). unfold before in *. lia.
    + intros x Hx. apply Forall_app. specialize (Hcross x Hx). apply Forall_cons in Hcross as [H1 H2].
      split; [|done]. apply Forall_forall. intros y Hy. specialize (Hcin y Hy). unfold before in *. lia.
  - intros va. rewrite (mm_at_app pre (_ ++ post)), (mm_at_app _ post), Hcat, (mm_at_app pre (r :: post)).
    cbn [mm_at].
    assert (mm_at pre va = None \/ region_at new va = None) as Hdis.
    { destruct (decide (in_region new va)) as [Hin|Hin];
        [left | right; unfold region_at; by rewrite decide_False].
      clear - Hin Hcross Hsp Hpre. destruct Hsp as [Hs _].
      induction pre as [|x pre IH]; [done|].
      apply map_ok_cons in Hpre as (Hx & _ & Hpre). apply Forall_cons in Hcross as [Hcx Hcross].
      apply Forall_cons in Hcx as [Hxr _]. cbn [mm_at]. rewrite (IH Hpre Hcross).
      unfold region_at. rewrite decide_False; [done|].
      unfold in_region, before, region_end in *. lia. }
    destruct Hdis as [->| ->]; rewrite ?option_union_None_l; [|done].
    by destruct (region_at new va), (region_at r va), (mm_at post va).
Qed.

(** ** Removing a range *)

Definition in_freed (fr : list freed) (p : Z) : Prop :=
  exists a n, (a, n) ∈ fr /\ a <= p < a + n * PAGE_SIZE.

Lemma in_freed_app f1 f2 p : in_freed (f1 ++ f2) p <-> in_freed f1 p \/ in_freed f2 p.
Proof.
  unfold in_freed. setoid_rewrite elem_of_app. naive_solver.
Qed.

Lemma in_freed_nil p : ~ in_freed [] p.
Proof. intros (? & ? & H & _). by apply elem_of_nil in H. Qed.

Lemma in_freed_one a n p : in_freed [(a, n)] p <-> a <= p < a + n * PAGE_SIZE.
Proof.
  unfold in_freed. split.
  - intros (? & ? & H & ?). apply list_elem_of_singleton in H. by simplify_eq.
  - intros H. exists a, n. split; [by left | done].
Qed.

(** The part of [r] from [a] on to [b]. *)
Definition slice (r : MM_Region) (a b : Z) : MM_Region :=
  mk_region (start_pa r + (a - start_va r)) a (b - a) (r_type r) (r_mapped r) (free_on_unmap r).

Lemma slice_ok r a b :
  region_ok r -> (PAGE_SIZE | a) -> (PAGE_SIZE | b) -> start_va r <= a < b -> b <= region_end r ->
  region_ok (slice r a b) /\ region_end (slice r a b) = b.
Proof.
  intros [H1 H2 H3 H4 H5 H6 H7] Ha Hb Hab Hbe. unfold region_end in *. split; [|simpl; lia].
  split; simpl; try done; try lia; repeat (apply Z.divide_sub_r || apply Z.divide_add_r); done.
Qed.

(** The freed pages of a range of a region. *)
Definition range_freed (r : MM_Region) (a b : Z) (fr : list freed) : Prop :=
  forall p, in_freed fr p <->
    free_on_unmap r = true /\ start_pa r + (a - start_va r) <= p < start_pa r + (b - start_va r).

Lemma div_mul_page a : (PAGE_SIZE | a) -> a / PAGE_SIZE * PAGE_SIZE = a.
Proof. intros [k ->]. by rewrite Z.div_mul. Qed.

Lemma remove_freed r : region_ok r -> range_freed r (start_va r) (region_end r) (mm_region_remove r).
Proof.
  intros Hr p. unfold mm_region_remove, region_end. destruct (free_on_unmap r).
  - rewrite in_freed_one, div_mul_page by apply Hr. intuition lia.
  - split; [by intros ?%in_freed_nil | by intros [? _]].
Qed.

(** [mm_region_resize] to a prefix or a suffix of the region. *)
Lemma resize_prefix r b :
  region_ok r -> r_size r < 2 ^ 63 -> (PAGE_SIZE | b) -> start_va r < b < region_end r ->
  exists fr, mm_region_resize r (start_va r) (b - start_va r) = (Some (slice r (start_va r) b), fr) /\
    range_freed r b (region_end r) fr.
Proof.
  intros Hr Hsz Hb Hlt. pose proof Hr as [H1 H2 H3 H4 H5 H6 H7].
  unfold mm_region_resize, region_end in *.
  rewrite (proj2 (Z.eqb_neq _ _)) by lia.
  rewrite Z.sub_diag. change (s64 0) with 0. cbn [Z.gtb Z.compare app].
  rewrite swrap_id by (unfold is_s; lia).
  assert ((PAGE_SIZE | start_va r + r_size r - b)) as Hdd
    by (repeat (apply Z.divide_sub_r || apply Z.divide_add_r); done).
  rewrite (proj2 (Z.ltb_lt _ _)) by lia.
  rewrite !uwrap_id by (unfold is_u; lia).
  eexists. split; [unfold slice; region_eq|].
  intros p. destruct (free_on_unmap r).
  - rewrite in_freed_one.
    replace (- (start_va r + (b - start_va r) - (start_va r + r_size r)))
      with (start_va r + r_size r - b) by lia.
    rewrite div_mul_page by done. intuition lia.
  - split; [by intros ?%in_freed_nil | by intros [? _]].
Qed.

Lemma resize_suffix r a :
  region_ok r -> r_size r < 2 ^ 63 -> (PAGE_SIZE | a) -> start_va r < a < region_end r ->
  exists fr, mm_region_resize r a (region_end r - a) = (Some (slice r a (region_end r)), fr) /\
    range_freed r (start_va r) a fr.
Proof.
  intros Hr Hsz Ha Hlt. pose proof Hr as [H1 H2 H3 H4 H5 H6 H7].
  unfold mm_region_resize, region_end in *.
  rewrite (proj2 (Z.eqb_neq _ _)) by lia.
  replace (a + (start_va r + r_size r - a) - (start_va r + r_size r)) with 0 by lia.
  change (s64 0) with 0. cbn [Z.ltb Z.compare]. rewrite app_nil_r.
  rewrite swrap_id by (unfold is_s; lia). rewrite Z.gtb_ltb, (proj2 (Z.ltb_lt _ _)) by lia.
  rewrite uwrap_id by (unfold is_u; lia).
  eexists. split; [unfold slice; region_eq|].
  intros p. destruct (free_on_unmap r).
  - rewrite in_freed_one, div_mul_page by (by apply Z.divide_sub_r). intuition lia.
  - split; [by intros ?%in_freed_nil | by intros [? _]].
Qed.

(** A region that reaches over both ends of the range. *)
Definition spans (from upto : Z) (r : MM_Region) : Prop := start_va r < from /\ upto < region_end r.

#[export] Instance spans_dec from upto r : Decision (spans from upto r).
Proof. unfold spans; apply _. Defined.

(** The outcome for one region. *)
Definition removed (from upto : Z) (r : MM_Region) (o : option MM_Region) (fr : list freed) : Prop :=
  (forall x, o = Some x -> region_ok x /\ start_va r <= start_va x /\ region_end x <= region_end r) /\
  (forall va, mm_at (option_list o) va =
     if decide (from <= va < upto) then None else region_at r va) /\
  (forall p, in_freed fr p <->
     exists va t m, from <= va < upto /\ region_at r va = Some (p, t, m, true)).

Lemma slice_removed r from upto a b fr :
  region_ok r -> (PAGE_SIZE | a) -> (PAGE_SIZE | b) -> start_va r <= a < b -> b <= region_end r ->
  (forall va, in_region r va -> (a <= va < b <-> ~ from <= va < upto)) ->
  (forall p, in_freed fr p <-> free_on_unmap r = true /\
     exists va, in_region r va /\ from <= va < upto /\ p = start_pa r + (va - start_va r)) ->
  removed from upto r (Some (slice r a b)) fr.
Proof.
  intros Hr Ha Hb Hab Hbe Hin Hfr. destruct (slice_ok r a b Hr Ha Hb Hab Hbe) as [Hok Hend].
  split; [|split].
  - intros x [= <-]. split; [done|]. rewrite Hend. simpl. lia.
  - intros va. change (mm_at (option_list (Some (slice r a b))) va) with (region_at (slice r a b) va ∪ None).
rewrite option_union_None_r. specialize (Hin va). unfold region_at.
    repeat case_decide; unfold in_region in *; rewrite ?Hend in *; simpl in *; try done; try lia; try tauto.
    do 4 f_equal. lia.
  - intros p. rewrite Hfr. unfold region_at. split.
    + intros (Hf & va & Hi & Hva & ->). exists va, (r_type r), (r_mapped r).
      split; [done|]. by rewrite decide_True, Hf.
    + intros (va & t & m & Hva & Hat). case_decide; simplify_eq. eauto 6.
Qed.

Lemma page_gap a b : (PAGE_SIZE | a) -> (PAGE_SIZE | b) -> a < b -> a + 4096 <= b.
Proof. change PAGE_SIZE with 4096. intros [k ->] [j ->] H. lia. Qed.

(** What [range_freed] says of a part of the region. *)
Lemma range_freed_part r from upto a b fr :
  range_freed r a b fr -> start_va r <= a -> b <= region_end r ->
  (forall va, in_region r va -> (a <= va < b <-> from <= va < upto)) ->
  forall p, in_freed fr p <-> free_on_unmap r = true /\
    exists va, in_region r va /\ from <= va < upto /\ p = start_pa r + (va - start_va r).
Proof.
  intros Hfr Ha Hb Hin p. rewrite (Hfr p). unfold in_region in *. split.
  - intros [Hf Hp]. split; [done|]. exists (p - start_pa r + start_va r).
    split; [lia|]. split; [|lia]. apply Hin; lia.
  - intros (Hf & va & Hva & Hr & ->). split; [done|]. apply Hin in Hr; lia.
Qed.

Lemma remove_step_spec from upto r :
  region_ok r -> r_size r < 2 ^ 63 -> (PAGE_SIZE | from) -> (PAGE_SIZE | upto) ->
  0 <= from < upto -> upto < 2 ^ 64 ->
  if decide (spans from upto r) then remove_step from (upto - 1) r = Panic
  else exists o fr, remove_step from (upto - 1) r = Ret (o, fr) /\ removed from upto r o fr.
Proof.
  intros Hr Hsz Hf Hu Hfu Hu64. pose proof Hr as [H1 H2 H3 H4 H5 H6 H7].
  assert ((PAGE_SIZE | region_end r)) as He by (by apply Z.divide_add_r).
  pose proof (page_gap from (region_end r) Hf He) as G1.
  pose proof (page_gap (start_va r) upto H2 Hu) as G2.
  unfold remove_step, region_end in *.
  rewrite (uwrap_id 64 (start_va r + r_size r - 1)) by (unfold is_u; lia).
  rewrite !Z.geb_leb, !Z.gtb_ltb.
  destruct (decide (spans from upto r)) as [[Hs1 Hs2]|Hns]; unfold spans, region_end in *.
  { rewrite (proj2 (Z.leb_gt from (start_va r))), (proj2 (Z.ltb_lt (start_va r) from)) by lia.
    rewrite (proj2 (Z.leb_gt _ (upto - 1))), (proj2 (Z.ltb_lt (upto - 1) _)) by lia.
    by rewrite !andb_false_r. }
  destruct (decide (from <= start_va r /\ start_va r + r_size r <= upto)) as [[Hc1 Hc2]|Hn1].
  { rewrite (proj2 (Z.leb_le from (start_va r))), (proj2 (Z.leb_le _ (upto - 1))) by lia.
    eexists _, _. split; [done|]. split; [done|]. split.
    - intros va. cbn. case_decide; [done|]. unfold region_at, in_region, region_end.
      by rewrite decide_False by lia.
    - intros p. rewrite (range_freed_part r from upto _ _ _ (remove_freed r Hr)); unfold in_region, region_end;
        try lia. unfold region_at, in_region, region_end. split.
      + intros (Hfr & va & Hi & Hva & ->). exists va, (r_type r), (r_mapped r).
        split; [done|]. by rewrite decide_True, Hfr.
      + intros (va & t & m & Hva & Hat). case_decide; simplify_eq. eauto 6. }
  assert (((from <=? start_va r) && (start_va r + r_size r - 1 <=? upto - 1))%bool = false) as ->
    by (apply andb_false_iff; rewrite !Z.leb_gt; lia).
  destruct (decide (start_va r < from < start_va r + r_size r)) as [Hc|Hn2].
  { rewrite (proj2 (Z.ltb_lt (start_va r) from)), (proj2 (Z.ltb_lt from _)), (proj2 (Z.leb_le _ _)) by lia.
    cbn [andb]. rewrite uwrap_id by (unfold is_u; lia).
    destruct (resize_prefix r from Hr Hsz Hf) as (fr & E & Hfr); [unfold region_end; lia|].
    rewrite E. eexists _, _. split; [done|]. apply slice_removed; try done; try (unfold region_end; lia).
    - intros va. unfold in_region, region_end. lia.
    - apply (range_freed_part _ _ _ _ _ _ Hfr); unfold in_region, region_end; lia. }
  assert (((start_va r <? from) && (from <? start_va r + r_size r - 1) &&
           (start_va r + r_size r - 1 <=? upto - 1))%bool = false) as ->.
  { rewrite !andb_false_iff, Z.ltb_ge, Z.ltb_ge, Z.leb_gt. lia. }
  destruct (decide (from <= start_va r /\ start_va r < upto < start_va r + r_size r)) as [Hc|Hn3].
  { rewrite (proj2 (Z.leb_le from (start_va r))), (proj2 (Z.ltb_lt (start_va r) _)), (proj2 (Z.leb_le (upto - 1) _)) by lia.
    cbn [andb]. rewrite (uwrap_id 64 (upto - 1 - start_va r + 1)) by (unfold is_u; lia).
    rewrite !uwrap_id by (unfold is_u; lia).
    destruct (resize_suffix r upto Hr Hsz Hu) as (fr & E & Hfr); [unfold region_end; lia|].
    unfold region_end in E.
    replace (start_va r + (upto - 1 - start_va r + 1)) with upto by lia.
    replace (r_size r - (upto - 1 - start_va r + 1)) with (start_va r + r_size r - upto) by lia.
    rewrite E. eexists _, _. split; [done|]. apply slice_removed; try done; try (unfold region_end; lia).
    - intros va. unfold in_region, region_end. lia.
    - apply (range_freed_part _ _ _ _ _ _ Hfr); unfold in_region, region_end; lia. }
  assert (((from <=? start_va r) && (start_va r <? upto - 1) &&
           (upto - 1 <=? start_va r + r_size r - 1))%bool = false) as ->.
  { rewrite !andb_false_iff, Z.ltb_ge, Z.leb_gt, Z.leb_gt. lia. }
  assert (((start_va r <? from) && (upto - 1 <? start_va r + r_size r - 1))%bool = false) as ->.
  { rewrite !andb_false_iff, Z.ltb_ge, Z.ltb_ge. lia. }
  eexists _, _. split; [done|]. split; [intros x [= <-]; unfold region_end; done || lia|]. split.
  - intros va. change (mm_at (option_list (Some r)) va) with (region_at r va ∪ None).
    rewrite option_union_None_r. case_decide; [|done]. unfold region_at, in_region, region_end.
    by rewrite decide_False by lia.
  - intros p. split; [by intros ?%in_freed_nil|]. intros (va & t & m & Hva & Hat).
    unfold region_at, in_region, region_end in Hat. case_decide; [lia | done].
Qed.

Lemma option_list_in {A} (o : option A) x : x ∈ option_list o -> o = Some x.
Proof. destruct o as [y|]; cbn; [by intros ->%list_elem_of_singleton | by intros ?%elem_of_nil]. Qed.

Lemma remove_loop_spec from upto map :
  map_ok map -> Forall (fun r => r_size r < 2 ^ 63) map ->
  (PAGE_SIZE | from) -> (PAGE_SIZE | upto) -> 0 <= from < upto -> upto < 2 ^ 64 ->
  if decide (Exists (spans from upto) map) then remove_loop from (upto - 1) map = Panic
  else exists map' fr, remove_loop from (upto - 1) map = Ret (map', fr) /\ map_ok map' /\
    (forall lo, Forall (fun r => lo <= start_va r) map -> Forall (fun r => lo <= start_va r) map') /\
    (forall va, mm_at map' va = if decide (from <= va < upto) then None else mm_at map va) /\
    (forall p, in_freed fr p <->
       exists va t m, from <= va < upto /\ mm_at map va = Some (p, t, m, true)).
Proof.
  intros Hok Hsz Hf Hu Hfu Hu64. induction map as [|r rest IH].
  { rewrite decide_False by (by intros ?%Exists_nil). exists [], []. split; [done|]. split; [done|].
    split; [done|]. split; [intros; by case_decide|].
    intros p. split; [by intros ?%in_freed_nil | by intros (? & ? & ? & _ & ?)]. }
  apply map_ok_cons in Hok as (Hr & Hbef & Hrest). apply Forall_cons in Hsz as [Hs1 Hsz].
  specialize (IH Hrest Hsz). pose proof (remove_step_spec from upto r Hr Hs1 Hf Hu Hfu Hu64) as Hst.
  cbn [remove_loop]. destruct (decide (spans from upto r)) as [Hsp|Hsp].
  { rewrite decide_True by (by constructor). by rewrite Hst. }
  destruct Hst as (o & fr & -> & Ho & Hat & Hfr). cbn [mbind res_bind].
  destruct (decide (Exists (spans from upto) rest)) as [Hex|Hex].
  { rewrite decide_True by (by apply Exists_cons_tl). by rewrite IH. }
  rewrite decide_False by (intros [?|?]%Exists_cons; done).
  destruct IH as (map' & frs & -> & Hok' & Hlo & Hat' & Hfr'). cbn [mbind res_bind].
  exists (option_list o ++ map'), (fr ++ frs). split; [done|].
  assert (Forall (before r) map') as Hbef'. { apply Hlo, Hbef. }
  split; [|split; [|split]].
  - apply map_ok_app. split; [|split; [done|]].
    + destruct o as [x|]; [|done]. destruct (Ho x eq_refl) as (Hx & _).
      split; [by constructor|]. apply SSorted_cons; [apply SSorted_nil | constructor].
    + apply Forall_forall. intros x Hx%option_list_in. destruct (Ho x Hx) as (_ & _ & He).
      rewrite Forall_forall in Hbef' |- *. intros y Hy. specialize (Hbef' y Hy).
      unfold before in *. lia.
  - intros lo [H1 H2]%Forall_cons. apply Forall_app. split; [|auto].
    apply Forall_forall. intros x Hx%option_list_in. destruct (Ho x Hx) as (_ & ? & _). lia.
  - intros va. rewrite mm_at_app, Hat, Hat'. cbn [mm_at]. by case_decide.
  - intros p. rewrite in_freed_app, Hfr, Hfr'. cbn [mm_at].
    assert (forall va, region_at r va = None \/ mm_at rest va = None) as Hdis.
    { intros va. unfold region_at. case_decide as Hin; [right | by left].
      apply mm_at_below. eapply Forall_impl; [exact Hbef|]. intros x Hx.
      unfold in_region, before in *. lia. }
    split.
    + intros [(va & t & m & Hva & Ha)|(va & t & m & Hva & Ha)]; exists va, t, m; (split; [done|]);
        destruct (Hdis va) as [E|E]; rewrite E in *; try done;
        rewrite Ha, ?option_union_None_l, ?option_union_None_r; done.
    + intros (va & t & m & Hva & Ha).
      destruct (Hdis va) as [E|E]; rewrite E in Ha;
        rewrite ?option_union_None_l, ?option_union_None_r in Ha; [right | left]; eauto 6.
Qed.

(** ** Theorems *)


Definition usable (pages from : Z) : MM_Region :=
  mk_region (from * 4096) (from * 4096) (pages * 4096) MM_REGION_USABLE_RAM
    MM_REGION_MARKED_FOR_MAPPING false.
Definition text_page (page : Z) : MM_Region :=
  mk_region (page * 4096) (page * 4096) 4096 MM_REGION_KERNEL_TEXT
    MM_REGION_MARKED_FOR_MAPPING false.

Lemma usable_ok pages from :
  0 < pages < 2 ^ 40 -> 0 <= from < 2 ^ 40 -> region_ok (usable pages from).
Proof.
  intros H1 H2. split; simpl; try done; try lia; change PAGE_SIZE with 4096;
    by apply Z.divide_factor_r.
Qed.

Lemma text_page_ok page : 0 <= page < 2 ^ 40 -> region_ok (text_page page).
Proof.
  intros H. split; simpl; try done; try lia; change PAGE_SIZE with 4096;
    by (apply Z.divide_factor_r || apply Z.divide_refl).
Qed.

Lemma usable_map_ok pages from :
  0 < pages < 2 ^ 40 -> 0 <= from < 2 ^ 40 -> map_ok [usable pages from].
Proof.
  intros H1 H2. split; [constructor; [by apply usable_ok | constructor]|].
  apply SSorted_cons; [apply SSorted_nil | constructor].
Qed.


(** A region added at the end of an existing one is not cut out of it. When
    the new region starts inside the last region and ends exactly where that one
    ends, the old region keeps its size and the new one is appended, so that the
    two overlap and the new region's addresses keep the backing they had. *)
Theorem memory_map_split_at_end_overlaps oom new r :
  region_ok new -> region_ok r -> start_va r < start_va new -> region_end new = region_end r ->
  mm_regions_can_be_merged r new = false ->
  memory_map_add_single_region_and_split oom new [r] = Ret [r; new] /\ ~ map_ok [r; new] /\
  forall va, in_region new va -> mm_at [r; new] va = region_at r va.
Proof.
  intros Hn Hr Hs He Hm. pose proof (ok_pos new Hn). pose proof (ok_pos r Hr).
  pose proof (ok_va_range r Hr). pose proof (ok_va_range new Hn). unfold region_end in He.
  split; [|split].
  - unfold memory_map_add_single_region_and_split. rewrite region_checks_ok by done.
    cbn [mbind res_bind add_single_and_split]. rewrite Hm. unfold mm_region_fits_before.
    rewrite !uwrap_id by (unfold is_u; lia). rewrite (proj2 (Z.eqb_neq _ _)) by lia.
    rewrite !(proj2 (Z.ltb_ge _ _)) by lia. by rewrite !andb_false_r.
  - intros (_ & Hb & _)%map_ok_cons. apply Forall_cons in Hb as [Hb _].
    unfold before, region_end in Hb. lia.
  - intros va Hva. cbn [mm_at]. unfold region_at at 1 3.
    rewrite decide_True by (unfold in_region, region_end in *; lia). by destruct (region_at new va ∪ None).
Qed.

Lemma memory_map_split_at_end_overlaps_witness :
  memory_map_add_single_region_and_split false (text_page 8) [usable 8 1] =
  Ret [usable 8 1; text_page 8].
Proof.
  exact (proj1 (memory_map_split_at_end_overlaps false (text_page 8) (usable 8 1)
           (text_page_ok 8 ltac:(lia)) (usable_ok 8 1 ltac:(lia) ltac:(lia))
           ltac:(simpl; lia) eq_refl eq_refl)).
Defined.

(** Removing a page-aligned range. On a well-formed map
    [memory_map_remove_regions] panics exactly when one region reaches over both
    ends of the range. Otherwise it returns a well-formed map in which no address of
    the range is backed and every other address is backed as before, and the
    pages it frees are exactly the physical pages behind the range that belong to
    regions freed on removal. *)
Theorem memory_map_remove_spec from size map :
  map_ok map -> Forall (fun r => r_size r < 2 ^ 63) map ->
  (PAGE_SIZE | from) -> (PAGE_SIZE | size) -> 0 <= from -> 0 < size -> from + size < 2 ^ 64 ->
  if decide (Exists (spans from (from + size)) map)
  then memory_map_remove_regions from size map = Panic
  else exists map' fr, memory_map_remove_regions from size map = Ret (map', fr) /\ map_ok map' /\
    (forall va, mm_at map' va = if decide (from <= va < from + size) then None else mm_at map va) /\
    (forall p, in_freed fr p <->
       exists va t m, from <= va < from + size /\ mm_at map va = Some (p, t, m, true)).
Proof.
  intros Hok Hsz Hf Hs Hf0 Hs0 Hu. unfold memory_map_remove_regions.
  rewrite !aligned_true by done. cbn [mbind res_bind panic_unless].
  rewrite uwrap_id by (unfold is_u; lia).
  assert ((PAGE_SIZE | from + size)) as Hd by (by apply Z.divide_add_r).
  pose proof (remove_loop_spec from (from + size) map Hok Hsz Hf Hd ltac:(lia) Hu) as H.
  case_decide; [done|]. destruct H as (map' & fr & E & H1 & _ & H2 & H3). eauto 6.
Qed.

Lemma memory_map_remove_spec_witness :
  exists map' fr, memory_map_remove_regions 8192 4096 [text_page 2; usable 4 4] = Ret (map', fr) /\
    map_ok map' /\
    (forall va, mm_at map' va =
       if decide (8192 <= va < 8192 + 4096) then None else mm_at [text_page 2; usable 4 4] va) /\
    (forall p, in_freed fr p <-> exists va t m, 8192 <= va < 8192 + 4096 /\
       mm_at [text_page 2; usable 4 4] va = Some (p, t, m, true)).
Proof.
  assert (map_ok [text_page 2; usable 4 4]) as Hok.
  { apply map_ok_cons. split; [apply text_page_ok; lia|].
    split; [constructor; [unfold before, region_end; simpl; lia | constructor] | apply usable_map_ok; lia]. }
  pose proof (memory_map_remove_spec 8192 4096 [text_page 2; usable 4 4] Hok
    ltac:(repeat constructor) ltac:(by exists 2) ltac:(by exists 1) ltac:(lia) ltac:(lia) ltac:(lia)) as H.
  rewrite decide_False in H; [exact H|].
  intros [[? ?]|[[? ?]|?%Exists_nil]%Exists_cons]%Exists_cons; unfold region_end in *; simpl in *; lia || done.
Defined.
