(* ===== verification/Vm.v ===== *)
(** * Page tables (kernel/mm/vm.c, kernel/arch/riscv/mm/pte.h)

    The three-level tree of page-table pages that the MMU walks on a 64-bit
    system.  The tables live in the words of kernel memory, and new ones come from
    an allocator that satisfies [PageAllocator].  [phys_base] is
    [g_kernel_memory.phys_base], the physical address of the direct mapping at
    [PAGE_OFFSET]. *)
From stdpp Require Import gmap list.
From S2P Require Import Prelude Buddy MemoryMap.

(** ** Constants *)

Definition PAGE_TABLE_MAX_LEVELS : nat := 3.
Definition PT_IDX_MASK : Z := 0x1FF.
Definition PT_IDX_BITS : Z := 9.
Definition PXSHIFT (level : nat) : Z := PAGE_SHIFT + 9 * Z.of_nat level.
Definition PAGE_TABLE_INDEX (level : nat) (va : Z) : Z :=
  Z.land (Z.shiftr va (PXSHIFT level)) PT_IDX_MASK.
Definition MEGA_PAGE_SIZE : Z := Z.shiftl 1 (PT_IDX_BITS + PAGE_SHIFT).

(** The 64-bit configuration. *)
Definition PAGE_OFFSET : Z := 0xFFFFFFC000000000.
Definition USER_VA_END : Z := Z.shiftl 1 (9 + 9 + 9 + PAGE_SHIFT - 1).
Definition VA_IS_IN_RANGE_FOR_USER (va : Z) : bool := va <? USER_VA_END.
Definition KERNEL_VA_START : Z := PAGE_OFFSET.
Definition VA_IS_IN_RANGE_FOR_KERNEL (va : Z) : bool := va >=? KERNEL_VA_START.
Definition VA_IS_IN_RANGE (va : Z) : bool :=
  (VA_IS_IN_RANGE_FOR_USER va || VA_IS_IN_RANGE_FOR_KERNEL va)%bool.

(** ** pte.h *)

Definition bits_set (pte m : Z) : bool := negb (Z.land pte m =? 0).
Definition PTE_IS_WRITEABLE (pte : Z) : bool := bits_set pte PTE_W.
Definition PA2PTE (pa : Z) : Z := Z.shiftl (Z.shiftr pa PAGE_SHIFT) 10.
Definition PTE_GET_PA (pte : Z) : Z := u64 (Z.shiftl (Z.shiftr pte 10) PAGE_SHIFT).
Definition PTE_IS_VALID_NODE (pte : Z) : bool := bits_set pte PTE_V.
Definition PTE_IS_USER_ACCESSIBLE (pte : Z) : bool := bits_set pte PTE_U.
Definition PTE_IS_VALID_USER (pte : Z) : bool :=
  (PTE_IS_VALID_NODE pte && PTE_IS_USER_ACCESSIBLE pte)%bool.
Definition PTE_IS_LEAF (pte : Z) : bool := bits_set pte (Z.lor PTE_RW PTE_X).
Definition PTE_MAKE_VALID_LEAF (pte : Z) : Z := Z.lor pte PTE_V.
Definition PTE_MAKE_VALID_TABLE (pte : Z) : Z := Z.lor pte PTE_V.
Definition PTE_BUILD (physical_address flags : Z) : Z := Z.lor (PA2PTE physical_address) flags.
Definition PTE_MAP_DEFAULT_FLAGS : Z := Z.lor (Z.lor PTE_V PTE_A) PTE_D.

(** RAM of [ram_size] bytes at [phys_base], mapped at [PAGE_OFFSET]. *)
Class DirectMap (phys_base ram_size : Z) : Prop := {
  dm_aligned : (PAGE_SIZE | phys_base);
  dm_phys : 0 <= phys_base /\ phys_base + ram_size <= 2 ^ 56;
  dm_virt : 0 <= ram_size /\ PAGE_OFFSET + ram_size < 2 ^ 64
}.

Section Vm.
Context {P : Type} `{!PageAllocator P} (phys_base : Z).

Definition virt_to_phys (va : Z) : Z := u64 (va - PAGE_OFFSET + phys_base).
Definition phys_to_virt (pa : Z) : Z := u64 (pa - phys_base + PAGE_OFFSET).

(** A load and a store of a word of kernel memory. *)
Definition rd (a : Z) : ST P Z := fun p =>
  match pg_words p !! a with Some v => Ret (v, p) | None => Undef end.
Definition wr (a v : Z) : ST P unit := fun p =>
  match pg_words p !! a with
  | Some _ => Ret (tt, pg_set_words (<[a := v]> (pg_words p)) p)
  | None => Undef
  end.
Definition alloc_zeroed : ST P Z := fun p => Ret (pg_alloc ALLOC_FLAG_ZERO_MEMORY p).

(** [&pgtable[i]] *)
Definition entry_addr (pgtable i : Z) : Z := pgtable + 8 * i.

(** The loop of [vm_walk2] from [level] down; the address of a PTE or [NULL],
    and the value of [*is_super_page] if that pointer is not null. *)
Fixpoint walk_loop (level : nat) (va : Z) (is_super_page : option bool) (alloc : bool)
    (pgtable : Z) : ST P (Z * option bool) :=
  match level with
  | O => mret (entry_addr pgtable (PAGE_TABLE_INDEX 0 va), is_super_page)
  | S level' =>
      let pte := entry_addr pgtable (PAGE_TABLE_INDEX level va) in
      rd pte ≫= fun v =>
      if negb (PTE_IS_VALID_NODE v) then
        if alloc then
          if ((level =? 1)%nat && default false is_super_page)%bool then mret (pte, is_super_page)
          else
            alloc_zeroed ≫= fun pgtable =>
            if pgtable =? NULL then mret (NULL, is_super_page)
            else
              let pagetable_pa := virt_to_phys pgtable in
              wr pte (PTE_MAKE_VALID_TABLE (PTE_BUILD pagetable_pa 0)) ≫= fun _ =>
              walk_loop level' va is_super_page alloc pgtable
        else mret (NULL, is_super_page)
      else
        if PTE_IS_LEAF v
        then mret (pte, match is_super_page with Some _ => Some true | None => None end)
        else walk_loop level' va is_super_page alloc (phys_to_virt (PTE_GET_PA v))
  end.

Definition vm_walk2 (root va : Z) (is_super_page : option bool) (alloc : bool)
    : ST P (Z * option bool) :=
  if negb (VA_IS_IN_RANGE va) then lift Panic
  else if (alloc && bool_decide (is_super_page = None))%bool then lift Panic
  else walk_loop (PAGE_TABLE_MAX_LEVELS - 1) va is_super_page alloc root.

Definition vm_walk (root va : Z) (alloc : bool) : ST P Z :=
  vm_walk2 root va (Some false) alloc ≫= fun '(pte, _) => mret pte.

(** The second component is [*is_writeable] if it is set. *)
Definition uvm_get_physical_paddr (root va : Z) : ST P (Z * option bool) :=
  if negb (VA_IS_IN_RANGE_FOR_USER va) then mret (0, None)
  else
    vm_walk2 root va None false ≫= fun '(pte, _) =>
    if pte =? NULL then mret (0, None)
    else
      rd pte ≫= fun v =>
      if negb (PTE_IS_VALID_USER v) then mret (0, None)
      else mret (PTE_GET_PA v, Some (PTE_IS_WRITEABLE v)).

Definition uvm_get_physical_addr (root va : Z) : ST P (Z * option bool) :=
  let offset := va mod PAGE_SIZE in
  let va_page := va - offset in
  uvm_get_physical_paddr root va_page ≫= fun '(pa_page, w) =>
  if pa_page =? 0 then mret (0, w) else mret (u64 (pa_page + offset), w).

Definition kvm_get_physical_paddr (root va : Z) : ST P Z :=
  vm_walk2 root va None false ≫= fun '(pte, _) =>
  if pte =? NULL then mret 0
  else rd pte ≫= fun v => if negb (PTE_IS_VALID_NODE v) then mret 0 else mret (PTE_GET_PA v).

(** The loop of [vm_map]; an iteration maps at least one page, so the number
    of pages is enough fuel. *)
Fixpoint map_loop (fuel : nat) (root perm : Z) (allow_super_pages : bool)
    (current_va current_pa remaining_size : Z) : ST P Z :=
  match fuel with
  | O => lift NoFuel
  | S fuel =>
      if remaining_size >? 0 then
        let super := (allow_super_pages && (current_va mod MEGA_PAGE_SIZE =? 0) &&
                      (current_pa mod MEGA_PAGE_SIZE =? 0) &&
                      (remaining_size >=? MEGA_PAGE_SIZE))%bool in
        let bytes_mapped := if super then MEGA_PAGE_SIZE else PAGE_SIZE in
        vm_walk2 root current_va (Some super) true ≫= fun '(pte, _) =>
        if pte =? NULL then mret (-1)
        else
          let new_value := PTE_MAKE_VALID_LEAF (PTE_BUILD current_pa perm) in
          rd pte ≫= fun v =>
          (if v =? new_value then mret tt
           else if PTE_IS_VALID_NODE v then lift Panic
           else wr pte new_value) ≫= fun _ =>
          map_loop fuel root perm allow_super_pages (u64 (current_va + bytes_mapped))
            (u64 (current_pa + bytes_mapped)) (u64 (remaining_size - bytes_mapped))
      else mret 0
  end.

Definition vm_map (root va pa size perm : Z) (allow_super_pages : bool) : ST P Z :=
  lift (panic_unless (negb allow_super_pages)) ≫= fun _ =>
  let perm := Z.lor perm PTE_MAP_DEFAULT_FLAGS in
  lift (panic_unless (va mod PAGE_SIZE =? 0)) ≫= fun _ =>
  lift (panic_unless (size mod PAGE_SIZE =? 0)) ≫= fun _ =>
  lift (panic_unless (negb (size =? 0))) ≫= fun _ =>
  map_loop (S (Z.to_nat (size / PAGE_SIZE))) root perm allow_super_pages va pa size.

(** The loop of [vm_unmap] over the remaining pages, for [do_free = false]
    (the only value the kernel passes) and [do_free = true]. *)
Fixpoint unmap_loop (npages : nat) (root va page : Z) (do_free : bool) : ST P unit :=
  match npages with
  | O => mret tt
  | S npages =>
      let a := u64 (va + page * PAGE_SIZE) in
      vm_walk root a false ≫= fun pte =>
      if pte =? NULL then lift Panic
      else
        rd pte ≫= fun v =>
        if negb (PTE_IS_VALID_NODE v) then lift Panic
        else if negb (PTE_IS_LEAF v) then lift Panic
        else
          (if do_free
           then fun p => match pg_free (phys_to_virt (PTE_GET_PA v)) p with
                         | Ret p => Ret (tt, p) | Panic => Panic | Undef => Undef
                         | Blocked => Blocked | NoFuel => NoFuel
                         end
           else mret tt) ≫= fun _ =>
          wr pte 0 ≫= fun _ => unmap_loop npages root va (page + 1) do_free
  end.

Definition vm_unmap (root va npages : Z) (do_free : bool) : ST P unit :=
  lift (panic_unless (va mod PAGE_SIZE =? 0)) ≫= fun _ =>
  unmap_loop (Z.to_nat npages) root va 0 do_free.


(** ** Bits *)

Lemma round_down_value va : PAGE_ROUND_DOWN va = va / 4096 * 4096.
Proof.
  unfold PAGE_ROUND_DOWN. change (PAGE_SIZE - 1) with (Z.ones 12).
  rewrite <- Z.ldiff_land, Z.ldiff_ones_r, Z.shiftl_mul_pow2, Z.shiftr_div_pow2 by lia. done.
Qed.

Lemma round_up_value va :
  0 <= va -> va + 4095 < 2 ^ 64 ->
  (PAGE_SIZE | PAGE_ROUND_UP va) /\ va <= PAGE_ROUND_UP va < va + 4096.
Proof.
  intros H1 H2. unfold PAGE_ROUND_UP. change PAGE_SIZE with 4096. rewrite uwrap_id by (unfold is_u; lia).
  change (Z.land (va + 4096 - 1) (Z.lnot (4096 - 1))) with (PAGE_ROUND_DOWN (va + 4096 - 1)).
  rewrite round_down_value. split; [by eexists|].
  pose proof (Z.div_mod (va + 4096 - 1) 4096 ltac:(lia)). pose proof (Z.mod_pos_bound (va + 4096 - 1) 4096 ltac:(lia)). lia.
Qed.

Lemma lor_low hi f k : 0 <= k -> 0 <= f < 2 ^ k -> Z.lor (hi * 2 ^ k) f = hi * 2 ^ k + f.
Proof.
  intros Hk Hf. symmetry. apply Z.add_nocarry_lor, Z.bits_inj'. intros i Hi.
  rewrite Z.land_spec, Z.bits_0, <- Z.shiftl_mul_pow2, Z.shiftl_spec by lia.
  destruct (decide (i < k)).
  - by rewrite (Z.testbit_neg_r hi) by lia.
  - by rewrite (small_bits_high k f i), andb_false_r by (done || lia).
Qed.

(** A PTE is a frame number above ten flag bits. *)
Lemma PTE_BUILD_value pa f : 0 <= f < 1024 -> PTE_BUILD pa f = pa / 4096 * 1024 + f.
Proof.
  intros Hf. unfold PTE_BUILD, PA2PTE.
  rewrite Z.shiftr_div_pow2, Z.shiftl_mul_pow2 by (unfold PAGE_SHIFT; lia).
  change (2 ^ PAGE_SHIFT) with 4096. apply (lor_low _ _ 10); lia.
Qed.

Lemma lor_flags n f g : 0 <= f < 1024 -> 0 <= g < 1024 -> Z.lor (n * 1024 + f) g = n * 1024 + Z.lor f g.
Proof.
  intros Hf Hg. change 1024 with (2 ^ 10) in *.
  assert (0 <= Z.lor f g < 2 ^ 10) as Hfg.
  { split; [apply Z.lor_nonneg; lia|]. apply Z.log2_lt_cancel. rewrite Z.log2_lor by lia.
    rewrite Z.log2_pow2 by lia. apply Z.max_lub_lt.
    - destruct (decide (f = 0)) as [->|]; [done | apply Z.log2_lt_pow2; lia].
    - destruct (decide (g = 0)) as [->|]; [done | apply Z.log2_lt_pow2; lia]. }
  rewrite <- !(lor_low n _ 10) by (done || lia). by rewrite Z.lor_assoc.
Qed.

Lemma land_flags n f m : 0 <= f < 1024 -> 0 <= m < 1024 -> Z.land (n * 1024 + f) m = Z.land f m.
Proof.
  intros Hf Hm. change 1024 with (2 ^ 10) in *. rewrite <- lor_low by (done || lia).
  apply Z.bits_inj'. intros i Hi. rewrite !Z.land_spec, Z.lor_spec, <- Z.shiftl_mul_pow2, Z.shiftl_spec by lia.
  destruct (decide (i < 10)).
  - by rewrite Z.testbit_neg_r by lia.
  - by rewrite (small_bits_high 10 m i), !andb_false_r by (done || lia).
Qed.

Lemma PTE_GET_PA_value n f : 0 <= f < 1024 -> 0 <= n < 2 ^ 52 -> PTE_GET_PA (n * 1024 + f) = n * 4096.
Proof.
  intros Hf Hn. unfold PTE_GET_PA. rewrite Z.shiftr_div_pow2, Z.shiftl_mul_pow2 by (unfold PAGE_SHIFT; lia).
  change (2 ^ 10) with 1024. change (2 ^ PAGE_SHIFT) with 4096.
  rewrite Z.div_add_l, Z.div_small, Z.add_0_r by lia. apply uwrap_id. unfold is_u. lia.
Qed.

(** The entry that points to a table page. *)
Lemma table_pte pa :
  (PAGE_SIZE | pa) -> 0 <= pa < 2 ^ 56 ->
  let v := PTE_MAKE_VALID_TABLE (PTE_BUILD pa 0) in
  PTE_IS_VALID_NODE v = true /\ PTE_IS_LEAF v = false /\ PTE_GET_PA v = pa.
Proof.
  change PAGE_SIZE with 4096. intros [n ->] Hpa. cbv zeta. unfold PTE_MAKE_VALID_TABLE.
  rewrite PTE_BUILD_value, Z.div_mul, lor_flags by (done || (unfold PTE_V; simpl; lia)).
  change (Z.lor 0 PTE_V) with 1.
  unfold PTE_IS_VALID_NODE, PTE_IS_LEAF, bits_set.
  rewrite !land_flags by (split; vm_compute; congruence).
  split; [done|]. split; [done|]. apply PTE_GET_PA_value; lia.
Qed.

(** ** Indices *)

Lemma index_value level va : PAGE_TABLE_INDEX level va = va / 2 ^ PXSHIFT level mod 512.
Proof.
  unfold PAGE_TABLE_INDEX, PT_IDX_MASK, PXSHIFT. change 0x1FF with (Z.ones 9).
  rewrite Z.land_ones, Z.shiftr_div_pow2 by (unfold PAGE_SHIFT; lia). done.
Qed.

Lemma index_range level va : 0 <= PAGE_TABLE_INDEX level va < 512.
Proof. rewrite index_value. apply Z.mod_pos_bound. lia. Qed.

(** The page number is determined by the indices, for addresses in range. *)
Lemma page_of_indices va va' :
  0 <= va < 2 ^ 64 -> 0 <= va' < 2 ^ 64 ->
  VA_IS_IN_RANGE va = true -> VA_IS_IN_RANGE va' = true ->
  PAGE_TABLE_INDEX 2 va = PAGE_TABLE_INDEX 2 va' ->
  PAGE_TABLE_INDEX 1 va = PAGE_TABLE_INDEX 1 va' ->
  PAGE_TABLE_INDEX 0 va = PAGE_TABLE_INDEX 0 va' -> va / 4096 = va' / 4096.
Proof.
  rewrite !index_value. unfold PXSHIFT, VA_IS_IN_RANGE, VA_IS_IN_RANGE_FOR_USER,
    VA_IS_IN_RANGE_FOR_KERNEL, KERNEL_VA_START, PAGE_OFFSET.
  change USER_VA_END with (2 ^ 38). rewrite !orb_true_iff, !Z.geb_leb, !Z.ltb_lt, !Z.leb_le.
  change (PAGE_SHIFT + 9 * Z.of_nat 2) with 30. change (PAGE_SHIFT + 9 * Z.of_nat 1) with 21.
  change (PAGE_SHIFT + 9 * Z.of_nat 0) with 12. intros H1 H2 H3 H4.
  assert (forall x, x / 2 ^ 30 = x / 4096 / 2 ^ 18) as -> by (intros; by rewrite Z.div_div by lia).
  assert (forall x, x / 2 ^ 21 = x / 4096 / 2 ^ 9) as -> by (intros; by rewrite Z.div_div by lia).
  change (2 ^ 12) with 4096.
  pose proof (Z.div_mod va 4096 ltac:(lia)). pose proof (Z.div_mod va' 4096 ltac:(lia)).
  pose proof (Z.mod_pos_bound va 4096 ltac:(lia)). pose proof (Z.mod_pos_bound va' 4096 ltac:(lia)).
  set (x := va / 4096) in *. set (y := va' / 4096) in *. clearbody x y.
  change (2 ^ 18) with 262144. change (2 ^ 9) with 512. change (2 ^ 38) with 274877906944 in *.
  change (2 ^ 64) with 18446744073709551616 in *.
  intros E2 E1 E0.
  Z.to_euclidean_division_equations. lia.
Qed.

(** ** The direct mapping *)

Context (ram_size : Z) `{!DirectMap phys_base ram_size}.

Definition in_ram (x : Z) : Prop := PAGE_OFFSET <= x < PAGE_OFFSET + ram_size.

Lemma virt_to_phys_ram t :
  in_ram t -> (PAGE_SIZE | t) ->
  0 <= virt_to_phys t < 2 ^ 56 /\ (PAGE_SIZE | virt_to_phys t) /\
  phys_to_virt (virt_to_phys t) = t.
Proof.
  pose proof dm_aligned as Hal. pose proof dm_phys as Hph. pose proof dm_virt as Hvi.
  unfold in_ram, virt_to_phys, phys_to_virt. intros Ht Ha.
  assert (PAGE_OFFSET < 2 ^ 64) by done. assert (0 < PAGE_OFFSET) by done.
  rewrite (uwrap_id 64 (t - PAGE_OFFSET + phys_base)) by (unfold is_u; lia).
  split; [lia|]. split.
  - apply Z.divide_add_r; [|done]. apply Z.divide_sub_r; [done|]. by exists (PAGE_OFFSET / 4096).
  - rewrite uwrap_id by (unfold is_u; lia). lia.
Qed.

(** ** What a page table maps *)

(** The PTE that the walk from a table of [level] finds, 0 if it ends early. *)
Fixpoint pte_from (level : nat) (w : gmap Z Z) (t va : Z) : Z :=
  let v := default 0 (w !! entry_addr t (PAGE_TABLE_INDEX level va)) in
  match level with
  | O => v
  | S level => if PTE_IS_VALID_NODE v then pte_from level w (phys_to_virt (PTE_GET_PA v)) va else 0
  end.

Definition pte_at (root : Z) (p : P) (va : Z) : Z := pte_from 2 (pg_words p) root va.

(** Addresses in pages that are in use for something else than tables, with the
    words there. *)
Context (owned : Z -> Prop) (data : Z -> option Z).

(** The tables of a page table, each with the indices that lead to it. A page
    has one entry in the map, so no table is reached in two ways. *)
Record vm_inv (T : gmap Z (list Z)) (root : Z) (p : P) : Prop := mk_vm_inv {
  vi_pg : pg_inv p;
  vi_free : forall x, pg_free_at p x -> in_ram x;
  vi_root : T !! root = Some [];
  vi_table : forall t q, T !! t = Some q ->
    (PAGE_SIZE | t) /\ in_ram t /\ (forall x, in_page t x -> ~ pg_free_at p x) /\
    (forall i, 0 <= i < 512 -> is_Some (pg_words p !! entry_addr t i));
  vi_entry : forall t q i v, T !! t = Some q -> (length q < 2)%nat -> 0 <= i < 512 ->
    pg_words p !! entry_addr t i = Some v -> PTE_IS_VALID_NODE v = true ->
    PTE_IS_LEAF v = false /\ T !! phys_to_virt (PTE_GET_PA v) = Some (q ++ [i]);
  vi_owned : forall x, owned x -> ~ pg_free_at p x /\ pg_words p !! x = data x /\
    forall t q, T !! t = Some q -> ~ in_page t x
}.

(** The indices of the levels from [level] down to 1. *)
Fixpoint path (level : nat) (va : Z) : list Z :=
  match level with
  | O => []
  | S l => PAGE_TABLE_INDEX level va :: path l va
  end.

(** The last table on the way. *)
Fixpoint walk_to (level : nat) (w : gmap Z Z) (t va : Z) : option Z :=
  match level with
  | O => Some t
  | S l => let v := default 0 (w !! entry_addr t (PAGE_TABLE_INDEX level va)) in
           if PTE_IS_VALID_NODE v then walk_to l w (phys_to_virt (PTE_GET_PA v)) va else None
  end.

Lemma pte_from_walk level w t va :
  pte_from level w t va = match walk_to level w t va with
                          | Some t0 => default 0 (w !! entry_addr t0 (PAGE_TABLE_INDEX 0 va))
                          | None => 0
                          end.
Proof.
  revert t; induction level as [|l IH]; intros t; [done|].
  cbn [pte_from walk_to]. by destruct (PTE_IS_VALID_NODE _).
Qed.

Lemma entry_in_page t i : 0 <= i < 512 -> in_page t (entry_addr t i).
Proof. unfold in_page, entry_addr. change PAGE_SIZE with 4096. lia. Qed.

Lemma page_disjoint t t' x : (PAGE_SIZE | t) -> (PAGE_SIZE | t') -> in_page t x -> in_page t' x -> t = t'.
Proof. unfold in_page. change PAGE_SIZE with 4096. intros [k ->] [j ->]. lia. Qed.

Lemma entry_inj t t' i i' :
  (PAGE_SIZE | t) -> (PAGE_SIZE | t') -> 0 <= i < 512 -> 0 <= i' < 512 ->
  entry_addr t i = entry_addr t' i' -> t = t' /\ i = i'.
Proof.
  intros Ht Ht' Hi Hi' E. assert (t = t') as ->.
  { apply (page_disjoint t t' (entry_addr t i)); [done..|by apply entry_in_page|].
    rewrite E. by apply entry_in_page. }
  unfold entry_addr in E. lia.
Qed.

Lemma vi_entry_value T root p t q i :
  vm_inv T root p -> T !! t = Some q -> 0 <= i < 512 ->
  exists v, pg_words p !! entry_addr t i = Some v.
Proof. intros Hi Ht Hr. by apply (vi_table _ _ _ Hi t q Ht). Qed.

Lemma walk_to_path T root p level t q va t0 :
  vm_inv T root p -> T !! t = Some q -> (length q + level)%nat = 2%nat ->
  walk_to level (pg_words p) t va = Some t0 -> T !! t0 = Some (q ++ path level va).
Proof.
  intros Hi. revert t q; induction level as [|l IH]; intros t q Ht Hl; cbn [walk_to path].
  - intros [= ->]. by rewrite app_nil_r.
  - destruct (vi_entry_value T root p t q (PAGE_TABLE_INDEX (S l) va) Hi Ht (index_range _ _)) as [v Hv].
    rewrite Hv. cbn [default from_option id]. destruct (PTE_IS_VALID_NODE v) eqn:Ev; [|done].
    destruct (vi_entry _ _ _ Hi t q _ v Ht ltac:(lia) (index_range _ _) Hv Ev) as [_ Hc].
    intros Hw. rewrite (IH _ _ Hc) by (done || (rewrite length_app; simpl; lia)).
    by rewrite <- app_assoc.
Qed.

(** ** Walks without allocation *)

Lemma walk_loop_noalloc T root p level t q va s :
  vm_inv T root p -> T !! t = Some q -> (length q + level)%nat = 2%nat ->
  walk_loop level va s false t p =
  Ret ((match walk_to level (pg_words p) t va with
        | Some t0 => entry_addr t0 (PAGE_TABLE_INDEX 0 va) | None => NULL end, s), p).
Proof.
  intros Hi. revert t q; induction level as [|l IH]; intros t q Ht Hl; [done|].
  cbn [walk_loop walk_to].
  destruct (vi_entry_value T root p t q (PAGE_TABLE_INDEX (S l) va) Hi Ht (index_range _ _)) as [v Hv].
  unfold mbind, ST_bind, rd. rewrite Hv. cbn [default from_option id].
  destruct (PTE_IS_VALID_NODE v) eqn:Ev; cbn [negb]; [|done].
  destruct (vi_entry _ _ _ Hi t q _ v Ht ltac:(lia) (index_range _ _) Hv Ev) as [-> Hc].
  apply (IH _ _ Hc). rewrite length_app. simpl. lia.
Qed.

Lemma table_not_null T root p t q : vm_inv T root p -> T !! t = Some q -> 0 < t.
Proof.
  intros Hi Ht. destruct (vi_table _ _ _ Hi t q Ht) as (_ & Hr & _). unfold in_ram in Hr.
  assert (0 < PAGE_OFFSET) by done. lia.
Qed.

(** ** Writing an entry of the last level *)

Lemma leaf_write_walk T root p level t q t0 q0 i v va :
  vm_inv T root p -> T !! t0 = Some q0 -> length q0 = 2%nat -> 0 <= i < 512 ->
  T !! t = Some q -> (length q + level)%nat = 2%nat ->
  walk_to level (<[entry_addr t0 i := v]> (pg_words p)) t va = walk_to level (pg_words p) t va.
Proof.
  intros Hi Ht0 Hq0 Hr. revert t q; induction level as [|l IH]; intros t q Ht Hl; [done|].
  cbn [walk_to].
  assert (entry_addr t0 i <> entry_addr t (PAGE_TABLE_INDEX (S l) va)) as Hne.
  { intros E. apply entry_inj in E as [-> _]; [|apply (vi_table _ _ _ Hi _ _ Ht0)|
      apply (vi_table _ _ _ Hi _ _ Ht)|done|apply index_range]. rewrite Ht in Ht0. simplify_eq. lia. }
  rewrite lookup_insert_ne by done.
  destruct (vi_entry_value T root p t q (PAGE_TABLE_INDEX (S l) va) Hi Ht (index_range _ _)) as [u Hu].
  rewrite Hu. cbn [default from_option id]. destruct (PTE_IS_VALID_NODE u) eqn:Ev; [|done].
  destruct (vi_entry _ _ _ Hi t q _ u Ht ltac:(lia) (index_range _ _) Hu Ev) as [_ Hc].
  apply (IH _ _ Hc). rewrite length_app. simpl. lia.
Qed.

Lemma leaf_write_inv T root p t0 q0 i v :
  vm_inv T root p -> T !! t0 = Some q0 -> length q0 = 2%nat -> 0 <= i < 512 ->
  vm_inv T root (pg_set_words (<[entry_addr t0 i := v]> (pg_words p)) p).
Proof.
  intros Hi Ht0 Hq0 Hr. pose proof Hi as [H1 H2 H3 H4 H5 H6].
  split; [by apply pg_inv_set | setoid_rewrite pg_free_at_set; done | done | | |].
  - intros t q Ht. destruct (H4 t q Ht) as (A & B & C & D). split; [done|]. split; [done|].
    split; [setoid_rewrite pg_free_at_set; done|]. intros j Hj. rewrite pg_words_set.
    destruct (decide (entry_addr t0 i = entry_addr t j)) as [->|Hne].
    + rewrite lookup_insert_eq. eauto.
    + rewrite lookup_insert_ne by done. auto.
  - intros t q j u Ht Hq Hj. rewrite pg_words_set.
    assert (entry_addr t0 i <> entry_addr t j) as Hne.
    { intros E. apply entry_inj in E as [-> _]; [|apply (H4 _ _ Ht0)|apply (H4 _ _ Ht)|done|done].
      rewrite Ht in Ht0. simplify_eq. lia. }
    rewrite lookup_insert_ne by done. eauto.
  - intros x Hx. destruct (H6 x Hx) as (A & B & C). rewrite pg_free_at_set, pg_words_set.
    split; [done|]. split; [|done]. rewrite lookup_insert_ne; [done|]. intros <-.
    by apply (C t0 q0 Ht0), entry_in_page.
Qed.

(** The addresses whose walk ends at the same entry. *)
Definition same_entry (va va' : Z) : Prop :=
  PAGE_TABLE_INDEX 2 va = PAGE_TABLE_INDEX 2 va' /\
  PAGE_TABLE_INDEX 1 va = PAGE_TABLE_INDEX 1 va' /\
  PAGE_TABLE_INDEX 0 va = PAGE_TABLE_INDEX 0 va'.

#[local] Instance same_entry_dec va va' : Decision (same_entry va va').
Proof. unfold same_entry; apply _. Defined.

Lemma leaf_write_pte T root p va t0 v va' :
  vm_inv T root p -> walk_to 2 (pg_words p) root va = Some t0 ->
  pte_at root (pg_set_words (<[entry_addr t0 (PAGE_TABLE_INDEX 0 va) := v]> (pg_words p)) p) va' =
  if decide (same_entry va va') then v else pte_at root p va'.
Proof.
  intros Hi Hw. pose proof (walk_to_path T root p 2 root [] va t0 Hi (vi_root _ _ _ Hi) eq_refl Hw) as Ht0.
  unfold pte_at. rewrite pg_words_set, !pte_from_walk.
  rewrite (leaf_write_walk T root p 2 root [] t0 _ (PAGE_TABLE_INDEX 0 va) v va' Hi Ht0 eq_refl
             (index_range _ _) (vi_root _ _ _ Hi) eq_refl).
  destruct (walk_to 2 (pg_words p) root va') as [t1|] eqn:Hw'.
  - pose proof (walk_to_path T root p 2 root [] va' t1 Hi (vi_root _ _ _ Hi) eq_refl Hw') as Ht1.
    cbn [path app] in Ht0, Ht1.
    destruct (decide (same_entry va va')) as [(E2 & E1 & E0)|Hne].
    + assert (t0 = t1) as ->; [|rewrite E0; by rewrite lookup_insert_eq].
      (* same path, same table *)
      clear - Hw Hw' E2 E1. cbn [walk_to] in Hw, Hw'. rewrite E2, E1 in Hw.
      destruct (PTE_IS_VALID_NODE _); [|done]. destruct (PTE_IS_VALID_NODE _); congruence.
    + rewrite lookup_insert_ne; [done|]. intros E.
      apply entry_inj in E as [-> E0]; [|apply (vi_table _ _ _ Hi _ _ Ht0)|
        apply (vi_table _ _ _ Hi _ _ Ht1)|apply index_range..].
      apply Hne. rewrite Ht0 in Ht1. by simplify_eq.
  - rewrite decide_False; [done|]. intros (E2 & E1 & _).
    cbn [walk_to] in Hw, Hw'. rewrite E2, E1 in Hw. congruence.
Qed.

(** ** Adding a table *)

Section Add.
#[local] Set Default Proof Using "All".
Context (T : gmap Z (list Z)) (root : Z) (p : P) (Hi : vm_inv T root p).
Context (t : Z) (q : list Z) (Ht : T !! t = Some q) (Hq : (length q < 2)%nat).
Context (i : Z) (Hidx : 0 <= i < 512).
Context (v : Z) (Hv : pg_words p !! entry_addr t i = Some v) (Hinv : PTE_IS_VALID_NODE v = false).
Context (a : Z) (p1 : P) (Halloc : pg_alloc ALLOC_FLAG_ZERO_MEMORY p = (a, p1)) (Ha : a <> NULL).

Definition new_pte : Z := PTE_MAKE_VALID_TABLE (PTE_BUILD (virt_to_phys a) 0).
Definition p2 : P := pg_set_words (<[entry_addr t i := new_pte]> (pg_words p1)) p1.

Lemma alloc_facts :
  pg_inv p1 /\ (PAGE_SIZE | a) /\ (forall x, in_page a x -> pg_free_at p x) /\
  (forall x, pg_free_at p1 x <-> pg_free_at p x /\ ~ in_page a x) /\
  (forall x, ~ in_page a x -> pg_words p1 !! x = pg_words p !! x) /\
  (forall j, 0 <= j < 512 -> pg_words p1 !! entry_addr a j = Some 0).
Proof.
  pose proof (pg_alloc_spec ALLOC_FLAG_ZERO_MEMORY p (vi_pg _ _ _ Hi)) as H.
  rewrite Halloc in H. destruct H as [H1 H]. rewrite (proj2 (Z.eqb_neq _ _) Ha) in H.
  destruct H as (_ & H2 & H3 & H4 & H5). split_and!; try done.
  intros j Hj. pose proof (pg_alloc_zeroed p j (vi_pg _ _ _ Hi)) as Hz. rewrite Halloc in Hz. auto.
Qed.

Lemma new_in_ram : in_ram a.
Proof.
  destruct alloc_facts as (_ & _ & Hf & _). apply (vi_free _ _ _ Hi), Hf.
  unfold in_page. change PAGE_SIZE with 4096. lia.
Qed.

Lemma new_pte_facts :
  PTE_IS_VALID_NODE new_pte = true /\ PTE_IS_LEAF new_pte = false /\
  phys_to_virt (PTE_GET_PA new_pte) = a.
Proof.
  destruct alloc_facts as (_ & Hal & _).
  destruct (virt_to_phys_ram a new_in_ram Hal) as (Hr & Hd & Hb).
  destruct (table_pte _ Hd Hr) as (H1 & H2 & H3). unfold new_pte. by rewrite H3.
Qed.

(** Entries of the old tables are in place, but for the new pointer. *)
Lemma old_entry t' q' j :
  T !! t' = Some q' -> 0 <= j < 512 ->
  pg_words p2 !! entry_addr t' j =
  if decide (t' = t /\ j = i) then Some new_pte else pg_words p !! entry_addr t' j.
Proof.
  intros Ht' Hj. unfold p2. rewrite pg_words_set.
  destruct (vi_table _ _ _ Hi t q Ht) as (Hal & _).
  destruct (vi_table _ _ _ Hi t' q' Ht') as (Hal' & _ & Hnf & _).
  destruct alloc_facts as (_ & Hal2 & Hf & _ & Hw & _).
  case_decide as Hd; [destruct Hd as [-> ->]; by rewrite lookup_insert_eq|].
  rewrite lookup_insert_ne.
  - apply Hw. intros Hin. apply (Hnf (entry_addr t' j)); [by apply entry_in_page | auto].
  - intros E. apply entry_inj in E as [-> ->]; tauto.
Qed.

Lemma new_not_table q' : T !! a = Some q' -> False.
Proof.
  intros H. destruct (vi_table _ _ _ Hi a q' H) as (_ & _ & Hnf & _).
  destruct alloc_facts as (_ & _ & Hf & _). apply (Hnf a); [|apply Hf];
    unfold in_page; change PAGE_SIZE with 4096; lia.
Qed.

Lemma new_entry j : 0 <= j < 512 -> pg_words p2 !! entry_addr a j = Some 0.
Proof.
  intros Hj. unfold p2. rewrite pg_words_set.
  destruct alloc_facts as (_ & Hal & _ & _ & _ & Hz).
  destruct (vi_table _ _ _ Hi t q Ht) as (Hal' & _).
  rewrite lookup_insert_ne; [auto|]. intros E. apply entry_inj in E as [E _]; try done.
  apply (new_not_table q). by rewrite <- E.
Qed.

Lemma add_table_inv : vm_inv (<[a := q ++ [i]]> T) root p2.
Proof.
  pose proof alloc_facts as (F1 & F2 & F3 & F4 & F5 & F6). pose proof new_pte_facts as (N1 & N2 & N3).
  assert (forall x, pg_free_at p2 x <-> pg_free_at p x /\ ~ in_page a x) as Hfree.
  { intros x. unfold p2. by rewrite pg_free_at_set. }
  split.
  - by apply pg_inv_set.
  - intros x Hx. apply Hfree in Hx as [Hx _]. by apply (vi_free _ _ _ Hi).
  - rewrite lookup_insert_ne; [apply Hi|]. intros E. apply (new_not_table []). rewrite E. apply Hi.
  - intros t' q' H. apply lookup_insert_Some in H as [[<- <-]|[Hne H]].
    + split; [done|]. split; [apply new_in_ram|]. split; [intros x Hx; rewrite Hfree; tauto|].
      intros j Hj. rewrite new_entry by done. eauto.
    + destruct (vi_table _ _ _ Hi t' q' H) as (A & B & C & D). split; [done|]. split; [done|].
      split; [intros x Hx [Hfx _]%Hfree; by apply (C x)|].
      intros j Hj. rewrite (old_entry t' q' j H Hj). case_decide; eauto.
  - intros t' q' j u H Hq' Hj. apply lookup_insert_Some in H as [[<- <-]|[Hne H]].
    + rewrite new_entry by done. by intros [= <-].
    + rewrite (old_entry t' q' j H Hj). case_decide as Hd.
      * destruct Hd as [-> ->]. intros [= <-] _. split; [done|]. rewrite N3, lookup_insert_eq.
        rewrite Ht in H. by simplify_eq.
      * intros Hu Hval. destruct (vi_entry _ _ _ Hi t' q' j u H Hq' Hj Hu Hval) as [HL HT].
        split; [done|]. rewrite lookup_insert_ne; [done|]. intros E. rewrite <- E in HT.
        by eapply new_not_table.
  - intros x Hx. destruct (vi_owned _ _ _ Hi x Hx) as (A & B & C).
    assert (~ in_page a x) as Hax by (intros Hin; by apply A, F3).
    split; [intros [Hfx _]%Hfree; done|]. split.
    + unfold p2. rewrite pg_words_set, lookup_insert_ne; [by rewrite F5|]. intros <-.
      by apply (C t q Ht), entry_in_page.
    + intros t' q' H. apply lookup_insert_Some in H as [[<- <-]|[Hne H]]; [done | by eapply C].
Qed.

Lemma zero_table_pte level va : pte_from level (pg_words p2) a va = 0.
Proof.
  destruct level as [|l]; cbn [pte_from]; rewrite new_entry by apply index_range; done.
Qed.

Lemma add_table_pte level t' q' va :
  T !! t' = Some q' -> (length q' + level)%nat = 2%nat ->
  pte_from level (pg_words p2) t' va = pte_from level (pg_words p) t' va.
Proof.
  revert t' q'; induction level as [|l IH]; intros t' q' Ht' Hl; cbn [pte_from].
  - rewrite (old_entry t' q' _ Ht' (index_range _ _)). rewrite decide_False; [done|].
    intros [-> _]. rewrite Ht in Ht'. simplify_eq. lia.
  - rewrite (old_entry t' q' _ Ht' (index_range _ _)). case_decide as Hd.
    + destruct Hd as [-> Hd]. rewrite Hd, Hv. cbn [default from_option id]. rewrite Hinv.
      destruct new_pte_facts as (-> & _ & ->). apply zero_table_pte.
    + destruct (vi_entry_value T root p t' q' (PAGE_TABLE_INDEX (S l) va) Hi Ht' (index_range _ _)) as [u Hu].
      rewrite Hu. cbn [default from_option id]. destruct (PTE_IS_VALID_NODE u) eqn:Ev; [|done].
      destruct (vi_entry _ _ _ Hi t' q' _ u Ht' ltac:(lia) (index_range _ _) Hu Ev) as [_ Hc].
      apply (IH _ _ Hc). rewrite length_app. simpl. lia.
Qed.

End Add.

(** ** Walks with allocation *)

(** What an operation that only adds tables leaves. *)
Record grows (T : gmap Z (list Z)) (root : Z) (p : P) (T' : gmap Z (list Z)) (p' : P) : Prop := {
  gr_inv : vm_inv T' root p';
  gr_tables : T ⊆ T';
  gr_pte : forall va, pte_at root p' va = pte_at root p va;
  gr_entry : forall t q i v, T !! t = Some q -> 0 <= i < 512 ->
    pg_words p !! entry_addr t i = Some v -> PTE_IS_VALID_NODE v = true ->
    pg_words p' !! entry_addr t i = Some v
}.

Lemma grows_refl T root p : vm_inv T root p -> grows T root p T p.
Proof. by split. Qed.

Lemma grows_trans T1 T2 T3 root p1 p2 p3 :
  grows T1 root p1 T2 p2 -> grows T2 root p2 T3 p3 -> grows T1 root p1 T3 p3.
Proof.
  intros [A1 A2 A3 A4] [B1 B2 B3 B4]. split; [done | by etransitivity | |].
  - intros va. by rewrite B3, A3.
  - intros t q i v Ht Hi Hv Hval. eapply B4; [|done| |done]; [by eapply lookup_weaken|eauto].
Qed.

Lemma walk_loop_alloc T root p level t q va :
  vm_inv T root p -> T !! t = Some q -> (length q + level)%nat = 2%nat ->
  exists pte T' p', walk_loop level va (Some false) true t p = Ret ((pte, Some false), p') /\
    grows T root p T' p' /\
    (pte = NULL \/ exists t0, T' !! t0 = Some (q ++ path level va) /\
       walk_to level (pg_words p') t va = Some t0 /\ pte = entry_addr t0 (PAGE_TABLE_INDEX 0 va)).
Proof.
  revert T p t q; induction level as [|l IH]; intros T p t q Hi Ht Hl.
  { eexists _, T, p. split; [done|]. split; [by apply grows_refl|]. right. exists t.
    cbn [path]. by rewrite app_nil_r. }
  cbn [walk_loop]. set (i := PAGE_TABLE_INDEX (S l) va).
  assert (0 <= i < 512) as Hr by apply index_range.
  destruct (vi_entry_value T root p t q i Hi Ht Hr) as [v Hv].
  unfold mbind at 1, ST_bind at 1, rd at 1. rewrite Hv.
  (* from the next table on, once the entry of [t] points to it *)
  assert (forall T1 p1 u t1, vm_inv T1 root p1 -> grows T root p T1 p1 ->
    pg_words p1 !! entry_addr t i = Some u -> PTE_IS_VALID_NODE u = true ->
    phys_to_virt (PTE_GET_PA u) = t1 -> T1 !! t1 = Some (q ++ [i]) ->
    exists pte T' p', walk_loop l va (Some false) true t1 p1 = Ret ((pte, Some false), p') /\
      grows T root p T' p' /\
      (pte = NULL \/ exists t0, T' !! t0 = Some (q ++ path (S l) va) /\
         walk_to (S l) (pg_words p') t va = Some t0 /\
         pte = entry_addr t0 (PAGE_TABLE_INDEX 0 va))) as Hnext.
  { intros T1 p1 u t1 Hi1 Hg1 Hu Huv Hut Ht1.
    destruct (IH T1 p1 t1 (q ++ [i]) Hi1 Ht1) as (pte & T' & p' & E & Hg & Hend);
      [rewrite length_app; simpl; lia|].
    exists pte, T', p'. split; [done|]. split; [by eapply grows_trans|].
    destruct Hend as [->|(t0 & A & B & C)]; [by left|]. right. exists t0. cbn [path walk_to].
    rewrite <- app_assoc in A. split; [done|]. split; [|done].
    fold i. rewrite (gr_entry _ _ _ _ _ Hg t q i u); [|by eapply lookup_weaken; [|apply Hg1]|done..].
    cbn [default from_option id]. by rewrite Huv, Hut. }
  destruct (PTE_IS_VALID_NODE v) eqn:Ev; cbn [negb].
  - destruct (vi_entry _ _ _ Hi t q _ v Ht ltac:(lia) Hr Hv Ev) as [-> Hc].
    apply (Hnext T p v); try done.
  - cbn [default from_option id]. rewrite andb_false_r.
    unfold mbind at 1, ST_bind at 1, alloc_zeroed at 1.
    destruct (pg_alloc ALLOC_FLAG_ZERO_MEMORY p) as [a p1] eqn:Ea.
    destruct (Z.eqb_spec a NULL) as [->|Hne].
    + pose proof (pg_alloc_spec ALLOC_FLAG_ZERO_MEMORY p (vi_pg _ _ _ Hi)) as H.
      rewrite Ea in H. destruct H as [_ ->]. exists NULL, T, p. split; [done|].
      split; [by apply grows_refl | by left].
    + assert (length q < 2)%nat as Hq by lia.
      pose proof (old_entry T root p Hi t q Ht Hq i Hr v Hv Ev a p1 Ea Hne) as Hold.
      pose proof (add_table_inv T root p Hi t q Ht Hq i Hr v Hv Ev a p1 Ea Hne) as Hi2.
      pose proof (new_pte_facts T root p Hi t q Ht Hq i Hr v Hv Ev a p1 Ea Hne) as (N1 & _ & N3).
      assert (T !! a = None) as Hnone.
      { destruct (T !! a) eqn:E; [|done]. by destruct (new_not_table T root p Hi t q Ht Hq i Hr v Hv Ev a p1 Ea Hne l0). }
      unfold mbind at 1, ST_bind at 1, wr at 1.
      assert (pg_words p1 !! entry_addr t i = Some v) as Hv1.
      { pose proof (alloc_facts T root p Hi t q Ht Hq i Hr v Hv Ev a p1 Ea Hne) as (_ & _ & Hf & _ & Hw & _).
        rewrite Hw; [done|]. intros Hin. destruct (vi_table _ _ _ Hi t q Ht) as (_ & _ & Hnf & _).
        apply (Hnf (entry_addr t i)); [by apply entry_in_page | auto]. }
      rewrite Hv1. apply (Hnext (<[a := q ++ [i]]> T) (p2 t i a p1) (new_pte a)); try done.
      * split; [done | by apply insert_subseteq | |].
        -- intros va'. apply (add_table_pte T root p Hi t q Ht Hq i Hr v Hv Ev a p1 Ea Hne 2 root []);
             [apply Hi | done].
        -- intros t' q' j u Ht' Hj Hu Hval. rewrite (Hold t' q' j Ht' Hj).
           rewrite decide_False; [done|]. intros [-> ->]. congruence.
      * rewrite (Hold t q i Ht Hr). by rewrite decide_True.
      * apply lookup_insert_eq.
Qed.

(** ** Mapping *)

Definition canon (va : Z) : Prop := 0 <= va < 2 ^ 64 /\ VA_IS_IN_RANGE va = true.

Lemma same_entry_page va va' : canon va -> canon va' -> same_entry va va' <-> va / 4096 = va' / 4096.
Proof.
  intros [H1 H2] [H3 H4]. split.
  - intros (E2 & E1 & E0). by apply page_of_indices.
  - intros E. unfold same_entry. rewrite !index_value. unfold PXSHIFT.
    change (2 ^ (PAGE_SHIFT + 9 * Z.of_nat 2)) with (4096 * 2 ^ 18).
    change (2 ^ (PAGE_SHIFT + 9 * Z.of_nat 1)) with (4096 * 2 ^ 9).
    change (2 ^ (PAGE_SHIFT + 9 * Z.of_nat 0)) with 4096.
    rewrite <- !Z.div_div by lia. by rewrite E.
Qed.

(** The PTE of a page. *)
Definition leaf (pa perm : Z) : Z := PTE_MAKE_VALID_LEAF (PTE_BUILD pa perm).

Lemma leaf_valid pa perm : PTE_IS_VALID_NODE (leaf pa perm) = true.
Proof.
  unfold PTE_IS_VALID_NODE, bits_set, leaf, PTE_MAKE_VALID_LEAF. apply negb_true_iff, Z.eqb_neq.
  intros E. apply (f_equal (fun x => Z.testbit x 0)) in E.
  rewrite Z.land_spec, Z.lor_spec, Z.bits_0 in E. change (Z.testbit PTE_V 0) with true in E.
  by rewrite orb_true_r in E.
Qed.

Lemma bits_set_lor x y m : bits_set (Z.lor x y) m = (bits_set x m || bits_set y m)%bool.
Proof.
  unfold bits_set. rewrite <- negb_andb. f_equal.
  assert (Z.land (Z.lor x y) m = Z.lor (Z.land x m) (Z.land y m)) as ->.
  { apply Z.bits_inj'. intros i Hi. rewrite Z.lor_spec, !Z.land_spec, Z.lor_spec.
    by rewrite andb_orb_distrib_l. }
  destruct (Z.eqb_spec (Z.lor (Z.land x m) (Z.land y m)) 0) as [E|E].
  - apply Z.lor_eq_0_iff in E as [-> ->]. done.
  - destruct (Z.eqb_spec (Z.land x m) 0) as [E1|], (Z.eqb_spec (Z.land y m) 0) as [E2|]; try done.
    rewrite E1, E2 in E. done.
Qed.

Lemma leaf_is_leaf pa perm :
  PTE_IS_LEAF perm = true -> PTE_IS_LEAF (leaf pa (Z.lor perm PTE_MAP_DEFAULT_FLAGS)) = true.
Proof.
  intros H. unfold PTE_IS_LEAF, leaf, PTE_MAKE_VALID_LEAF, PTE_BUILD in *.
  by rewrite !bits_set_lor, H, orb_true_r.
Qed.

(** The mapping of [n] pages from [va] on. *)
Definition mapped_over (va n : Z) (new : Z -> Z) (old : Z -> Z) (va' : Z) : Z :=
  let k := va' / 4096 - va / 4096 in
  if decide (0 <= k < n) then new k else old va'.

Lemma walk2_alloc T root p va :
  vm_inv T root p -> canon va ->
  exists pte T' p', vm_walk2 root va (Some false) true p = Ret ((pte, Some false), p') /\
    grows T root p T' p' /\
    (pte = NULL \/ exists t0, T' !! t0 = Some (path 2 va) /\ pte <> NULL /\
       walk_to 2 (pg_words p') root va = Some t0 /\ pte = entry_addr t0 (PAGE_TABLE_INDEX 0 va)).
Proof.
  intros Hi [_ Hc]. unfold vm_walk2. rewrite Hc. cbn [negb andb bool_decide].
  rewrite bool_decide_false by done.
  destruct (walk_loop_alloc T root p 2 root [] va Hi (vi_root _ _ _ Hi) eq_refl)
    as (pte & T' & p' & E & Hg & Hend).
  exists pte, T', p'. split; [done|]. split; [done|].
  destruct Hend as [->|(t0 & A & B & C)]; [by left|]. right. exists t0.
  pose proof (table_not_null _ _ _ _ _ (gr_inv _ _ _ _ _ Hg) A).
  split; [done|]. split; [|done]. subst pte. unfold entry_addr, NULL.
  pose proof (index_range 0 va). lia.
Qed.

(** One iteration of the loop of [vm_map] on an unmapped page. *)
Lemma map_step T root p va new_value :
  vm_inv T root p -> canon va -> PTE_IS_VALID_NODE (pte_at root p va) = false ->
  PTE_IS_VALID_NODE new_value = true ->
  exists pte T' p1, vm_walk2 root va (Some false) true p = Ret ((pte, Some false), p1) /\
    grows T root p T' p1 /\
    (pte = NULL \/ pte <> NULL /\ exists v p', rd pte p1 = Ret (v, p1) /\ v <> new_value /\
       PTE_IS_VALID_NODE v = false /\ wr pte new_value p1 = Ret (tt, p') /\ vm_inv T' root p' /\
       forall va', canon va' -> pte_at root p' va' =
         if decide (va / 4096 = va' / 4096) then new_value else pte_at root p va').
Proof.
  intros Hi Hc Hold Hnew.
  destruct (walk2_alloc T root p va Hi Hc) as (pte & T' & p1 & E & Hg & Hend).
  exists pte, T', p1. split; [done|]. split; [done|].
  destruct Hend as [->|(t0 & A & B & C & D)]; [by left | right].
  pose proof (gr_inv _ _ _ _ _ Hg) as Hi'.
  destruct (vi_entry_value T' root p1 t0 _ _ Hi' A (index_range 0 va)) as [v Hv]. rewrite <- D in Hv.
  assert (v = pte_at root p va) as Hvp.
  { rewrite <- (gr_pte _ _ _ _ _ Hg va). unfold pte_at. rewrite pte_from_walk, C.
    by rewrite <- D, Hv. }
  split; [done|]. exists v. eexists. split; [unfold rd; by rewrite Hv|].
  split; [congruence|]. split; [congruence|]. split; [unfold wr; by rewrite Hv|]. rewrite D.
  split; [by eapply leaf_write_inv; [|done|done|apply index_range]|].
  intros va' Hc'. rewrite (leaf_write_pte T' root p1 va t0 new_value va' Hi' C).
  rewrite (gr_pte _ _ _ _ _ Hg va'). pose proof (same_entry_page va va' Hc Hc').
  repeat case_decide; tauto.
Qed.

Lemma div_add_page va k : (va + k * 4096) / 4096 = va / 4096 + k.
Proof. by rewrite Z.div_add. Qed.

Lemma map_loop_spec n T root p va pa perm :
  vm_inv T root p -> (forall k, 0 <= k < Z.of_nat n -> canon (va + k * 4096)) ->
  0 <= pa -> va + Z.of_nat n * 4096 < 2 ^ 64 -> pa + Z.of_nat n * 4096 < 2 ^ 64 ->
  (forall k, 0 <= k < Z.of_nat n -> PTE_IS_VALID_NODE (pte_at root p (va + k * 4096)) = false) ->
  exists r m T' p', map_loop (S n) root perm false va pa (Z.of_nat n * 4096) p = Ret (r, p') /\
    vm_inv T' root p' /\ T ⊆ T' /\ (r = 0 /\ m = Z.of_nat n \/ r = -1 /\ 0 <= m < Z.of_nat n) /\
    forall va', canon va' -> pte_at root p' va' =
      mapped_over va m (fun k => leaf (pa + k * 4096) perm) (pte_at root p) va'.
Proof.
  revert T p va pa; induction n as [|n IH]; intros T p va pa Hi Hc Hpa Hva64 Hpa64 Hold.
  { exists 0, 0, T, p. split; [done|]. split; [done|]. split; [done|]. split; [by left|].
    intros va' _. unfold mapped_over. by rewrite decide_False by lia. }
  remember (S n) as fuel eqn:Hfuel. cbn [map_loop]. subst fuel.
  rewrite Z.gtb_ltb, (proj2 (Z.ltb_lt _ _)) by lia. cbn [andb].
  pose proof (Hc 0 ltac:(lia)) as Hc0. pose proof (Hold 0 ltac:(lia)) as Hold0.
  rewrite Z.mul_0_l, Z.add_0_r in Hc0, Hold0. pose proof Hc0 as [Hva _].
  destruct (map_step T root p va (leaf pa perm) Hi Hc0 Hold0 (leaf_valid _ _))
    as (pte & T1 & p1 & E & Hg & Hend).
  unfold mbind at 1, ST_bind at 1. rewrite E.
  destruct Hend as [->|(Hnn & v & p2' & Er & Hne & Hinv & Ew & Hi2 & Hpte)].
  { exists (-1), 0, T1, p1. split; [done|]. split; [apply Hg|]. split; [apply Hg|].
    split; [right; lia|]. intros va' _. unfold mapped_over. rewrite decide_False by lia.
    apply Hg. }
  rewrite (proj2 (Z.eqb_neq _ _) Hnn).
  unfold mbind at 1, ST_bind at 1. rewrite Er.
  fold (leaf pa perm). rewrite (proj2 (Z.eqb_neq _ _) Hne), Hinv.
  unfold mbind at 1, ST_bind at 1. rewrite Ew. change PAGE_SIZE with 4096.
  rewrite !uwrap_id by (unfold is_u; lia).
  replace (Z.of_nat (S n) * 4096 - 4096) with (Z.of_nat n * 4096) by lia.
  destruct (IH T1 p2' (va + 4096) (pa + 4096) Hi2) as (r & m & T' & p' & E' & Hi' & HT' & Hr & Hp');
    [| lia | lia | lia | |].
  - intros k Hk. replace (va + 4096 + k * 4096) with (va + (k + 1) * 4096) by lia. apply Hc. lia.
  - intros k Hk. replace (va + 4096 + k * 4096) with (va + (k + 1) * 4096) by lia.
    rewrite Hpte by (apply Hc; lia). rewrite decide_False by (rewrite div_add_page; lia).
    apply Hold. lia.
  - exists r, (m + 1), T', p'. split; [done|]. split; [done|].
    split; [etransitivity; [apply Hg | done]|]. split; [lia|].
    intros va' Hc'. rewrite (Hp' va' Hc'). unfold mapped_over.
    replace (va + 4096) with (va + 1 * 4096) by lia. rewrite div_add_page.
    repeat case_decide; try lia.
    + f_equal. lia.
    + rewrite Hpte, decide_True by (done || lia). f_equal. lia.
    + rewrite Hpte, decide_False by (done || lia). done.
Qed.

Lemma vm_map_run T root p va pa size perm :
  vm_inv T root p -> (PAGE_SIZE | va) -> (PAGE_SIZE | size) -> 0 < size -> 0 <= pa ->
  va + size < 2 ^ 64 -> pa + size < 2 ^ 64 ->
  (forall k, 0 <= k < size / 4096 -> canon (va + k * 4096) /\
     PTE_IS_VALID_NODE (pte_at root p (va + k * 4096)) = false) ->
  exists r m T' p', vm_map root va pa size perm false p = Ret (r, p') /\
    vm_inv T' root p' /\ T ⊆ T' /\ (r = 0 /\ m = size / 4096 \/ r = -1 /\ 0 <= m < size / 4096) /\
    forall va', canon va' -> pte_at root p' va' =
      mapped_over va m (fun k => leaf (pa + k * 4096) (Z.lor perm PTE_MAP_DEFAULT_FLAGS))
        (pte_at root p) va'.
Proof.
  intros Hi Hva Hsz Hpos Hpa H64 Hp64 Hc. unfold vm_map.
  apply Z.mod_divide in Hva; [|done]. change PAGE_SIZE with 4096 in *. destruct Hsz as [n ->].
  rewrite Hva, Z.mod_mul, (proj2 (Z.eqb_neq _ 0)) by lia. rewrite Z.div_mul in * by lia.
  unfold mbind, ST_bind, lift; cbn [panic_unless negb Z.eqb].
  destruct (map_loop_spec (Z.to_nat n) T root p va pa (Z.lor perm PTE_MAP_DEFAULT_FLAGS))
    as (r & m & T' & p' & E & H); rewrite ?Z2Nat.id by lia; try done; try lia.
  - intros k Hk. by apply Hc.
  - intros k Hk. by apply Hc.
  - exists r, m, T', p'. rewrite Z2Nat.id in * by lia. by rewrite E.
Qed.


(** ** Unmapping and lookups *)

Lemma walk2_noalloc T root p va s :
  vm_inv T root p -> canon va ->
  exists pte, vm_walk2 root va s false p = Ret ((pte, s), p) /\
    ((pte = NULL /\ pte_at root p va = 0) \/
     (pte <> NULL /\ rd pte p = Ret (pte_at root p va, p) /\
      exists t0, walk_to 2 (pg_words p) root va = Some t0 /\ T !! t0 = Some (path 2 va) /\
        pte = entry_addr t0 (PAGE_TABLE_INDEX 0 va))).
Proof.
  intros Hi [_ Hc]. unfold vm_walk2. rewrite Hc. cbn [negb andb].
  change (PAGE_TABLE_MAX_LEVELS - 1)%nat with 2%nat.
  rewrite (walk_loop_noalloc T root p 2 root [] va s Hi (vi_root _ _ _ Hi) eq_refl).
  eexists. split; [done|]. unfold pte_at. rewrite pte_from_walk.
  destruct (walk_to 2 (pg_words p) root va) as [t0|] eqn:Hw; [right | by left].
  pose proof (walk_to_path T root p 2 root [] va t0 Hi (vi_root _ _ _ Hi) eq_refl Hw) as Ht0.
  destruct (vi_entry_value T root p t0 _ _ Hi Ht0 (index_range 0 va)) as [v Hv].
  pose proof (table_not_null _ _ _ _ _ Hi Ht0). pose proof (index_range 0 va).
  split; [unfold entry_addr, NULL; lia|]. split; [unfold rd; by rewrite Hv|]. by exists t0.
Qed.

Lemma unmap_step T root p va :
  vm_inv T root p -> canon va -> PTE_IS_VALID_NODE (pte_at root p va) = true ->
  exists pte p', vm_walk root va false p = Ret (pte, p) /\ pte <> NULL /\
    rd pte p = Ret (pte_at root p va, p) /\ wr pte 0 p = Ret (tt, p') /\ vm_inv T root p' /\
    forall va', canon va' -> pte_at root p' va' =
      if decide (va / 4096 = va' / 4096) then 0 else pte_at root p va'.
Proof.
  intros Hi Hc Hval. unfold vm_walk.
  destruct (walk2_noalloc T root p va (Some false) Hi Hc)
    as (pte & E & [[_ Hz]|(Hn & Hrd & t0 & Hw & Ht0 & ->)]); [by rewrite Hz in Hval|].
  eexists _, (pg_set_words (<[entry_addr t0 (PAGE_TABLE_INDEX 0 va) := 0]> (pg_words p)) p).
  unfold mbind, ST_bind. rewrite E. split; [done|]. split; [done|]. split; [done|].
  split; [|split].
  - unfold rd, wr in *. by destruct (pg_words p !! _).
  - by eapply leaf_write_inv; [|done|done|apply index_range].
  - intros va' Hc'. rewrite (leaf_write_pte T root p va t0 0 va' Hi Hw).
    pose proof (same_entry_page va va' Hc Hc'). repeat case_decide; tauto.
Qed.

Lemma unmap_loop_spec n T root p va k0 :
  vm_inv T root p -> 0 <= va + k0 * 4096 -> va + (k0 + Z.of_nat n) * 4096 < 2 ^ 64 ->
  (forall k, k0 <= k < k0 + Z.of_nat n -> canon (va + k * 4096) /\
     PTE_IS_VALID_NODE (pte_at root p (va + k * 4096)) = true /\
     PTE_IS_LEAF (pte_at root p (va + k * 4096)) = true) ->
  exists p', unmap_loop n root va k0 false p = Ret (tt, p') /\ vm_inv T root p' /\
    forall va', canon va' -> pte_at root p' va' =
      mapped_over (va + k0 * 4096) (Z.of_nat n) (fun _ => 0) (pte_at root p) va'.
Proof.
  revert p k0; induction n as [|n IH]; intros p k0 Hi H0 H64 Hc.
  { exists p. split; [done|]. split; [done|]. intros va' _. unfold mapped_over.
    by rewrite decide_False by lia. }
  cbn [unmap_loop]. change PAGE_SIZE with 4096. rewrite uwrap_id by (unfold is_u; lia).
  destruct (Hc k0 ltac:(lia)) as (Hc0 & Hv0 & Hl0).
  destruct (unmap_step T root p (va + k0 * 4096) Hi Hc0 Hv0) as (pte & p1 & E & Hn & Er & Ew & Hi1 & Hp1).
  unfold mbind at 1, ST_bind at 1. rewrite E, (proj2 (Z.eqb_neq _ _) Hn).
  unfold mbind at 1, ST_bind at 1. rewrite Er, Hv0, Hl0. cbn [negb].
  unfold mbind at 1, ST_bind at 1. cbn [mret ST_ret].
  unfold mbind at 1, ST_bind at 1. rewrite Ew.
  destruct (IH p1 (k0 + 1) Hi1) as (p' & E' & Hi' & Hp'); [lia | lia | |].
  - intros k Hk. destruct (Hc k ltac:(lia)) as (A & B & C).
    rewrite Hp1 by done. rewrite decide_False by (rewrite !div_add_page; lia). done.
  - exists p'. split; [done|]. split; [done|]. intros va' Hc'. rewrite (Hp' va' Hc').
    unfold mapped_over. rewrite !div_add_page.
    repeat case_decide; try lia; try done.
    + rewrite Hp1, decide_True by (done || rewrite ?div_add_page; lia). done.
    + rewrite Hp1, decide_False by (done || rewrite ?div_add_page; lia). done.
Qed.

Lemma vm_unmap_run T root p va npages :
  vm_inv T root p -> (PAGE_SIZE | va) -> 0 <= va -> 0 <= npages -> va + npages * 4096 < 2 ^ 64 ->
  (forall k, 0 <= k < npages -> canon (va + k * 4096) /\
     PTE_IS_VALID_NODE (pte_at root p (va + k * 4096)) = true /\
     PTE_IS_LEAF (pte_at root p (va + k * 4096)) = true) ->
  exists p', vm_unmap root va npages false p = Ret (tt, p') /\ vm_inv T root p' /\
    forall va', canon va' -> pte_at root p' va' =
      mapped_over va npages (fun _ => 0) (pte_at root p) va'.
Proof.
  intros Hi Hva H0 Hn H64 Hc. unfold vm_unmap. apply Z.mod_divide in Hva; [|done]. rewrite Hva.
  unfold mbind, ST_bind, lift; cbn [panic_unless Z.eqb].
  destruct (unmap_loop_spec (Z.to_nat npages) T root p va 0 Hi) as (p' & E & Hi' & Hp');
    rewrite ?Z2Nat.id by lia; try lia; [intros k Hk; apply Hc; lia|].
  exists p'. split; [done|]. split; [done|]. intros va' Hc'.
  rewrite (Hp' va' Hc'), Z.mul_0_l, Z.add_0_r, Z2Nat.id by lia. done.
Qed.

(** Mapping and unmapping are inverse. If no page of a range is mapped
    (their PTEs are 0) and [vm_map] succeeds with a readable, writable or
    executable permission, then [vm_unmap] of the range returns and every virtual
    address translates as before the two calls. *)
Theorem vm_map_unmap_roundtrip T root p va pa size perm p1 :
  vm_inv T root p -> (PAGE_SIZE | va) -> (PAGE_SIZE | size) -> 0 < size -> 0 <= va -> 0 <= pa ->
  va + size < 2 ^ 64 -> pa + size < 2 ^ 64 -> PTE_IS_LEAF perm = true ->
  (forall k, 0 <= k < size / 4096 -> canon (va + k * 4096) /\ pte_at root p (va + k * 4096) = 0) ->
  vm_map root va pa size perm false p = Ret (0, p1) ->
  exists p2, vm_unmap root va (size / PAGE_SIZE) false p1 = Ret (tt, p2) /\
    forall va', canon va' -> pte_at root p2 va' = pte_at root p va'.
Proof.
  intros Hi Hva Hsz Hpos H0 Hpa H64 Hp64 Hleaf Hc Hmap.
  destruct (vm_map_run T root p va pa size perm Hi Hva Hsz Hpos Hpa H64 Hp64)
    as (r & m & T' & p' & E & Hi' & _ & Hr & Hp').
  { intros k Hk. destruct (Hc k Hk) as [? ->]. done. }
  rewrite Hmap in E. injection E as <- <-. destruct Hr as [[_ ->]|[? _]]; [|done].
  assert (size / 4096 * 4096 = size) as Hdm by (by apply (div_mul_page size)).
  assert (0 <= size / 4096) by (apply Z.div_pos; lia).
  destruct (vm_unmap_run T' root p1 va (size / PAGE_SIZE) Hi' Hva H0) as (p2' & E2 & _ & Hp2);
    change PAGE_SIZE with 4096 in *; [done | lia | |].
  - intros k Hk. destruct (Hc k Hk) as [Hck _]. split; [done|].
    rewrite (Hp' _ Hck). unfold mapped_over. rewrite div_add_page, decide_True by lia.
    split; [apply leaf_valid | by apply leaf_is_leaf].
  - exists p2'. split; [done|]. intros va' Hc'. rewrite (Hp2 va' Hc'). unfold mapped_over.
    case_decide as Hk; [|by rewrite (Hp' va' Hc'); unfold mapped_over; rewrite decide_False].
    destruct (Hc _ Hk) as [Hck Hz]. rewrite <- Hz.
    unfold pte_at. rewrite !pte_from_walk.
    assert (same_entry (va + (va' / 4096 - va / 4096) * 4096) va') as (E2' & E1' & E0').
    { apply same_entry_page; [done..|]. rewrite div_add_page. lia. }
    cbn [walk_to]. by rewrite E2', E1', E0'.
Qed.

Lemma uvm_lookup_run T root p va :
  vm_inv T root p -> canon va ->
  uvm_get_physical_paddr root va p =
  Ret (if (VA_IS_IN_RANGE_FOR_USER va && PTE_IS_VALID_USER (pte_at root p va))%bool
       then (PTE_GET_PA (pte_at root p va), Some (PTE_IS_WRITEABLE (pte_at root p va)))
       else (0, None), p).
Proof.
  intros Hi Hc. unfold uvm_get_physical_paddr.
  destruct (VA_IS_IN_RANGE_FOR_USER va); [|done]. cbn [negb andb].
  destruct (walk2_noalloc T root p va None Hi Hc)
    as (pte & E & [[-> Hz]|(Hn & Hrd & _)]); unfold mbind, ST_bind; rewrite E.
  - by rewrite Hz.
  - rewrite (proj2 (Z.eqb_neq _ _) Hn), Hrd. by destruct (PTE_IS_VALID_USER _).
Qed.

(** ** A new page table *)

Lemma new_root_inv p a p1 :
  pg_inv p -> (forall x, pg_free_at p x -> in_ram x) ->
  (forall x, owned x -> ~ pg_free_at p x /\ pg_words p !! x = data x) ->
  pg_alloc ALLOC_FLAG_ZERO_MEMORY p = (a, p1) -> a <> NULL ->
  vm_inv {[a := []]} a p1 /\ forall va, pte_at a p1 va = 0.
Proof.
  intros Hp Hram Hown Ea Ha.
  pose proof (pg_alloc_spec ALLOC_FLAG_ZERO_MEMORY p Hp) as H. rewrite Ea in H.
  destruct H as [H1 H]. rewrite (proj2 (Z.eqb_neq _ _) Ha) in H.
  destruct H as (_ & H2 & H3 & H4 & H5).
  assert (forall j, 0 <= j < 512 -> pg_words p1 !! entry_addr a j = Some 0) as Hz.
  { intros j Hj. pose proof (pg_alloc_zeroed p j Hp) as Hz. rewrite Ea in Hz. auto. }
  split.
  - split; [done | | apply lookup_singleton_eq | | |].
    + intros x Hx. apply H4 in Hx as [Hx _]. auto.
    + intros t q Ht. apply lookup_singleton_Some in Ht as [<- <-].
      split; [done|]. split; [apply Hram, H3; unfold in_page; change PAGE_SIZE with 4096; lia|].
      split; [intros x Hx; rewrite H4; tauto|]. intros i Hr. rewrite Hz by done. eauto.
    + intros t q i v Ht _ Hr. apply lookup_singleton_Some in Ht as [<- <-]. rewrite Hz by done.
      by intros [= <-].
    + intros x Hx. destruct (Hown x Hx) as [A B]. assert (~ in_page a x) as Hax by (intros Hin; by apply A, H3).
      split; [rewrite H4; tauto|]. split; [by rewrite H5|].
      intros t q Ht. by apply lookup_singleton_Some in Ht as [<- <-].
  - intros va. unfold pte_at. cbn [pte_from]. by rewrite Hz by apply index_range.
Qed.

End Vm.

(** ** Witnesses: 24 pages of RAM *)

Definition ram_memory : kernel_memory :=
  match kalloc_init (PAGE_OFFSET + 2109440) 98304 ∅ with Ret s => s | _ => kalloc_empty ∅ end.

Lemma ram_memory_ok :
  buddy_inv ram_memory /\
  forall x, free_at ram_memory x <-> PAGE_OFFSET + 2109440 <= x < PAGE_OFFSET + 2207744.
Proof.
  destruct (init_region_loop_spec 25 (PAGE_OFFSET + 2109440) (PAGE_OFFSET + 2207744) (kalloc_empty ∅)
    ltac:(vm_compute; congruence) ltac:(unfold PAGE_OFFSET; lia) ltac:(unfold PAGE_OFFSET; lia)
    ltac:(exists ((PAGE_OFFSET + 2109440) / 4096); reflexivity)
    ltac:(exists ((PAGE_OFFSET + 2207744) / 4096); reflexivity) (kalloc_empty_inv ∅)
    ltac:(vm_compute; split; congruence)
    ltac:(intros; apply kalloc_empty_free)) as (s & E & Hi & _ & _ & Hf & _).
  assert (ram_memory = s) as ->.
  { unfold ram_memory, kalloc_init, kalloc_init_memory_region.
    change (Z.to_nat _) with 25%nat.
    change (PAGE_OFFSET + 2109440 + 98304) with (PAGE_OFFSET + 2207744). by rewrite E. }
  split; [exact Hi|]. intros x. rewrite Hf. split; [|intros H; right; exact H].
  intros [H|H]; [destruct (kalloc_empty_free ∅ x H)|exact H].
Qed.

Definition some_root : Z := fst (pg_alloc ALLOC_FLAG_ZERO_MEMORY ram_memory).
Definition some_memory : kernel_memory := snd (pg_alloc ALLOC_FLAG_ZERO_MEMORY ram_memory).

Lemma alloc_pair {P} `{!PageAllocator P} flags (p : P) :
  pg_alloc flags p = (fst (pg_alloc flags p), snd (pg_alloc flags p)).
Proof. by destruct (pg_alloc flags p). Qed.

Lemma some_root_not_null : some_root <> NULL.
Proof. vm_compute. discriminate. Qed.

#[export] Instance some_ram : DirectMap 0x80000000 (2 ^ 22).
Proof. split; [by exists 0x80000 | vm_compute; intuition congruence..]. Qed.

Lemma some_table_inv :
  vm_inv 0x80000000 (2 ^ 22) (fun _ => False) (fun _ => None) {[some_root := []]} some_root some_memory /\
  forall va, pte_at 0x80000000 some_root some_memory va = 0.
Proof.
  apply (new_root_inv 0x80000000 (2 ^ 22) (fun _ => False) (fun _ => None) ram_memory some_root some_memory).
  - apply ram_memory_ok.
  - intros x Hx. apply ram_memory_ok in Hx. unfold in_ram. lia.
  - done.
  - unfold some_root, some_memory. apply alloc_pair.
  - exact some_root_not_null.
Qed.

Lemma low_canon va : 0 <= va < 2 ^ 38 -> canon va.
Proof.
  intros H. split; [lia|]. unfold VA_IS_IN_RANGE, VA_IS_IN_RANGE_FOR_USER.
  change USER_VA_END with (2 ^ 38). by rewrite (proj2 (Z.ltb_lt _ _)) by lia.
Qed.

Lemma low_unmapped k :
  0 <= k < 8192 / 4096 -> canon (0x400000 + k * 4096) /\
  pte_at 0x80000000 some_root some_memory (0x400000 + k * 4096) = 0.
Proof.
  intros Hk. change (8192 / 4096) with 2 in Hk. split; [apply low_canon; lia | apply some_table_inv].
Qed.


Definition mapped_memory : kernel_memory :=
  ran (vm_map 0x80000000 some_root 0x400000 0x90000000 8192 PTE_USER_RAM false) some_memory.

(** A run whose result alone is computed. *)
Lemma run_result {S A} (m : ST S A) (s : S) (r : A) :
  match m s with Ret (a, _) => Some a | _ => None end = Some r -> m s = Ret (r, ran m s).
Proof. unfold ran. destruct (m s) as [[a s']| | | |]; by intros [= ->]. Qed.

Lemma mapped_memory_result :
  match vm_map 0x80000000 some_root 0x400000 0x90000000 8192 PTE_USER_RAM false some_memory with
  | Ret (a, _) => Some a | _ => None end = Some 0.
Proof. vm_compute. reflexivity. Qed.

Lemma mapped_memory_run :
  vm_map 0x80000000 some_root 0x400000 0x90000000 8192 PTE_USER_RAM false some_memory =
  Ret (0, mapped_memory).
Proof.
  unfold mapped_memory. generalize mapped_memory_result. generalize some_memory as s. intros s.
  apply run_result.
Qed.

Lemma vm_map_unmap_roundtrip_witness :
  exists p2, vm_unmap 0x80000000 some_root 0x400000 (8192 / PAGE_SIZE) false mapped_memory
      = Ret (tt, p2) /\
    forall va', canon va' -> pte_at 0x80000000 some_root p2 va' =
      pte_at 0x80000000 some_root some_memory va'.
Proof.
  exact (vm_map_unmap_roundtrip 0x80000000 (2 ^ 22) (fun _ => False) (fun _ => None) {[some_root := []]} some_root some_memory
           0x400000 0x90000000 8192 PTE_USER_RAM mapped_memory (proj1 some_table_inv)
           ltac:(by exists 0x400) ltac:(by exists 2) ltac:(lia) ltac:(lia) ltac:(lia) ltac:(lia)
           ltac:(lia) eq_refl low_unmapped mapped_memory_run).
Defined.
