(* ===== verification/Uvm.v ===== *)
(** * Copies between kernel and user memory (kernel/mm/vm.c)

    The page table of a process is the state of [Vm]; the bytes of memory, by
    their kernel virtual address, are a memory of [CString].  The frames of user
    pages hold no page tables, so that copying to them leaves the page table as
    it is. *)
From stdpp Require Import gmap list.
From S2P Require Import Prelude Buddy CString MemoryMap Vm.

Section Uvm.
Context {P : Type} `{!PageAllocator P} (phys_base : Z).

(** The loop of [uvm_copy_out]; an iteration copies at least one byte. *)
Fixpoint copy_out_loop (fuel : nat) (root dst_va src_pa len : Z) (m : mem) : ST P (Z * mem) :=
  match fuel with
  | O => lift NoFuel
  | S fuel =>
      if len >? 0 then
        let dst_va_page_start := PAGE_ROUND_DOWN dst_va in
        uvm_get_physical_paddr phys_base root dst_va_page_start
          ≫= fun '(dst_pa_page_start, dst_page_is_writeable) =>
        if ((dst_pa_page_start =? 0) || negb (default false dst_page_is_writeable))%bool
        then mret (-1, m)
        else
          let dst_offset_in_page := dst_va - dst_va_page_start in
          let n := PAGE_SIZE - dst_offset_in_page in
          let n := if n >? len then len else n in
          let m := memmove m (phys_to_virt phys_base dst_pa_page_start + dst_offset_in_page) src_pa n in
          copy_out_loop fuel root (u64 (dst_va_page_start + PAGE_SIZE)) (src_pa + n) (len - n) m
      else mret (0, m)
  end.

Definition uvm_copy_out (root dst_va src_pa len : Z) (m : mem) : ST P (Z * mem) :=
  copy_out_loop (S (Z.to_nat len)) root dst_va src_pa len m.

Fixpoint copy_in_loop (fuel : nat) (root dst_pa src_va len : Z) (m : mem) : ST P (Z * mem) :=
  match fuel with
  | O => lift NoFuel
  | S fuel =>
      if len >? 0 then
        let src_va_page_start := PAGE_ROUND_DOWN src_va in
        uvm_get_physical_paddr phys_base root src_va_page_start ≫= fun '(src_pa_page_start, _) =>
        if src_pa_page_start =? 0 then mret (-1, m)
        else
          let src_offset_in_page := src_va - src_va_page_start in
          let n := PAGE_SIZE - src_offset_in_page in
          let n := if n >? len then len else n in
          let m := memmove m dst_pa (phys_to_virt phys_base src_pa_page_start + src_offset_in_page) n in
          copy_in_loop fuel root (dst_pa + n) (u64 (src_va_page_start + PAGE_SIZE)) (len - n) m
      else mret (0, m)
  end.

Definition uvm_copy_in (root dst_pa src_va len : Z) (m : mem) : ST P (Z * mem) :=
  copy_in_loop (S (Z.to_nat len)) root dst_pa src_va len m.

(** The inner loop of [uvm_copy_in_str]: whether the terminator was found, the
    rest of [max], the next target address and the memory. *)
Fixpoint str_page (n : nat) (max src_pa dst_pa : Z) (m : mem) : bool * Z * Z * mem :=
  match n with
  | O => (false, max, dst_pa, m)
  | S n =>
      if m src_pa =? 0 then (true, max, dst_pa, store m dst_pa 0)
      else str_page n (max - 1) (src_pa + 1) (dst_pa + 1) (store m dst_pa (m src_pa))
  end.

Fixpoint copy_in_str_loop (fuel : nat) (root dst_pa src_va max : Z) (got_null : bool) (m : mem)
    : ST P (Z * mem) :=
  match fuel with
  | O => lift NoFuel
  | S fuel =>
      if (negb got_null && (max >? 0))%bool then
        let src_va_page_start := PAGE_ROUND_DOWN src_va in
        uvm_get_physical_paddr phys_base root src_va_page_start ≫= fun '(src_pa_page_start, _) =>
        if src_pa_page_start =? 0 then mret (-1, m)
        else
          let src_offset_in_page := src_va - src_va_page_start in
          let n := PAGE_SIZE - src_offset_in_page in
          let n := if n >? max then max else n in
          let src_pa := phys_to_virt phys_base src_pa_page_start + src_offset_in_page in
          let '(got_null, max, dst_pa, m) := str_page (Z.to_nat n) max src_pa dst_pa m in
          copy_in_str_loop fuel root dst_pa (u64 (src_va_page_start + PAGE_SIZE)) max got_null m
      else mret (if got_null then 0 else -1, m)
  end.

Definition uvm_copy_in_str (root dst_pa src_va max : Z) (m : mem) : ST P (Z * mem) :=
  copy_in_str_loop (S (S (Z.to_nat max))) root dst_pa src_va max false m.

(** ** User addresses *)

Context (ram_size : Z) `{!DirectMap phys_base ram_size} (owned : Z -> Prop) (data : Z -> option Z).

(** The kernel address of a byte of user memory and whether the user may write
    it. *)
Definition entry_byte (v va : Z) : option (Z * bool) :=
  if (VA_IS_IN_RANGE_FOR_USER va && PTE_IS_VALID_USER v && negb (PTE_GET_PA v =? 0))%bool
  then Some (phys_to_virt phys_base (PTE_GET_PA v) + va mod 4096, PTE_IS_WRITEABLE v)
  else None.

Definition user_byte (root : Z) (p : P) (va : Z) : option (Z * bool) :=
  entry_byte (pte_at phys_base root p va) va.

Lemma pte_at_page root p va va' :
  va / 4096 = va' / 4096 -> pte_at phys_base root p va = pte_at phys_base root p va'.
Proof.
  intros E. assert (forall l, (l <= 2)%nat -> PAGE_TABLE_INDEX l va = PAGE_TABLE_INDEX l va') as Hidx.
  { intros l Hl. rewrite !index_value. unfold PXSHIFT. rewrite Z.pow_add_r by (unfold PAGE_SHIFT; lia).
    change (2 ^ PAGE_SHIFT) with 4096. rewrite <- !Z.div_div by lia. by rewrite E. }
  unfold pte_at. cbn [pte_from]. rewrite !Hidx by lia. done.
Qed.

Lemma user_range_page va va' :
  0 <= va -> 0 <= va' -> va / 4096 = va' / 4096 -> VA_IS_IN_RANGE_FOR_USER va = VA_IS_IN_RANGE_FOR_USER va'.
Proof.
  intros H1 H2 E. unfold VA_IS_IN_RANGE_FOR_USER. change USER_VA_END with 274877906944.
  pose proof (Z.div_mod va 4096 ltac:(lia)). pose proof (Z.div_mod va' 4096 ltac:(lia)).
  pose proof (Z.mod_pos_bound va 4096 ltac:(lia)). pose proof (Z.mod_pos_bound va' 4096 ltac:(lia)).
  destruct (Z.ltb_spec va 274877906944), (Z.ltb_spec va' 274877906944); lia.
Qed.

(** The bytes of a page are consecutive. *)
Lemma user_byte_page root p va va' :
  0 <= va -> 0 <= va' -> va / 4096 = va' / 4096 ->
  user_byte root p va' =
  (fun '(a, w) => (a + (va' - va), w)) <$> user_byte root p va.
Proof.
  intros H1 H2 E. unfold user_byte, entry_byte. rewrite (pte_at_page root p va va' E), (user_range_page va va' H1 H2 E).
  destruct (_ && _)%bool; [|done]. cbn. do 2 f_equal.
  pose proof (Z.div_mod va 4096 ltac:(lia)). pose proof (Z.div_mod va' 4096 ltac:(lia)). lia.
Qed.

(** The lookup of the page of an address. *)
Lemma page_lookup T root p va :
  vm_inv phys_base ram_size owned data T root p -> 0 <= va < 2 ^ 64 ->
  exists pa w, uvm_get_physical_paddr phys_base root (PAGE_ROUND_DOWN va) p = Ret ((pa, w), p) /\
    match user_byte root p va with
    | Some (a, b) => (pa =? 0) = false /\ w = Some b /\ a = phys_to_virt phys_base pa + (va - PAGE_ROUND_DOWN va)
    | None => (pa =? 0) = true
    end.
Proof.
  intros Hi Hva. rewrite round_down_value. pose proof (Z.div_mod va 4096 ltac:(lia)).
  pose proof (Z.mod_pos_bound va 4096 ltac:(lia)).
  assert (0 <= va / 4096) by (apply Z.div_pos; lia).
  assert (va / 4096 * 4096 / 4096 = va / 4096) as Ep by (by rewrite Z.div_mul).
  unfold user_byte, entry_byte.
  rewrite <- (pte_at_page root p _ _ Ep), <- (user_range_page (va / 4096 * 4096) va ltac:(lia) ltac:(lia) Ep).
  destruct (VA_IS_IN_RANGE_FOR_USER (va / 4096 * 4096)) eqn:Er.
  - assert (canon (va / 4096 * 4096)) as Hc
      by (split; [lia | unfold VA_IS_IN_RANGE; by rewrite Er]).
    rewrite (uvm_lookup_run phys_base ram_size owned data T root p _ Hi Hc), Er. cbn [andb].
    destruct (PTE_IS_VALID_USER _); cbn [andb]; eexists _, _; (split; [done|]); [|done].
    destruct (_ =? 0) eqn:Ez; cbn [negb]; [done|]. split; [done|]. split; [done|]. lia.
  - unfold uvm_get_physical_paddr. rewrite Er. cbn [negb andb]. eexists _, _. by split.
Qed.
(** The rest of a page, and the address the loops go on with. *)
Lemma same_page va i :
  0 <= va -> 0 <= i < PAGE_SIZE - (va - PAGE_ROUND_DOWN va) -> (va + i) / 4096 = va / 4096.
Proof.
  rewrite round_down_value. change PAGE_SIZE with 4096. intros H1 H2.
  pose proof (Z.mod_pos_bound va 4096 ltac:(lia)). pose proof (Z.div_mod va 4096 ltac:(lia)).
  symmetry. apply Z.div_unique with (va + i - va / 4096 * 4096); lia.
Qed.

Lemma chunk_bytes root p va a w i :
  0 <= va -> 0 <= i < PAGE_SIZE - (va - PAGE_ROUND_DOWN va) ->
  user_byte root p va = Some (a, w) -> user_byte root p (va + i) = Some (a + i, w).
Proof.
  intros H1 H2 E. rewrite (user_byte_page root p va (va + i)), E by (first [lia | by rewrite same_page]).
  cbn. do 2 f_equal. lia.
Qed.

Lemma chunk_bound va :
  0 <= va -> 0 <= PAGE_ROUND_DOWN va /\ 0 < PAGE_SIZE - (va - PAGE_ROUND_DOWN va) <= 4096.
Proof.
  intros H. rewrite round_down_value. change PAGE_SIZE with 4096.
  pose proof (Z.div_mod va 4096 ltac:(lia)). pose proof (Z.mod_pos_bound va 4096 ltac:(lia)).
  assert (0 <= va / 4096) by (apply Z.div_pos; lia). lia.
Qed.

Lemma user_byte_range root p va a w : user_byte root p va = Some (a, w) -> va < USER_VA_END.
Proof.
  unfold user_byte, entry_byte. destruct (VA_IS_IN_RANGE_FOR_USER va) eqn:E; [|done].
  unfold VA_IS_IN_RANGE_FOR_USER in E. intros _. lia.
Qed.

Lemma next_page root p va a w :
  0 <= va -> user_byte root p va = Some (a, w) ->
  let n := PAGE_SIZE - (va - PAGE_ROUND_DOWN va) in
  u64 (PAGE_ROUND_DOWN va + PAGE_SIZE) = va + n /\ 0 <= va + n < 2 ^ 64.
Proof.
  intros H E. apply user_byte_range in E. change USER_VA_END with 274877906944 in E.
  pose proof (chunk_bound va H). cbv zeta. change PAGE_SIZE with 4096 in *.
  rewrite uwrap_id by (unfold is_u; lia). lia.
Qed.

Lemma chunk_min n len : (if n >? len then len else n) = Z.min n len.
Proof. destruct (Z.gtb_spec n len); lia. Qed.

Definition copy_in_post (root : Z) (p : P) (dst va len : Z) (m : mem) (r : Z) (m' : mem) : Prop :=
  (forall x, ~ dst <= x < dst + len -> m' x = m x) /\
  ((r = 0 /\ forall i, 0 <= i < len ->
      exists a w, user_byte root p (va + i) = Some (a, w) /\ m' (dst + i) = m a) \/
   (r = -1 /\ exists i, 0 <= i < len /\ user_byte root p (va + i) = None)).

Lemma copy_in_loop_run T root p :
  vm_inv phys_base ram_size owned data T root p -> forall fuel dst va len m,
  (Z.to_nat len < fuel)%nat -> 0 <= len -> 0 <= va < 2 ^ 64 ->
  (forall i j a w, 0 <= i < len -> 0 <= j < len ->
     user_byte root p (va + i) = Some (a, w) -> a <> dst + j) ->
  exists r m', copy_in_loop fuel root dst va len m p = Ret ((r, m'), p) /\
    copy_in_post root p dst va len m r m'.
Proof.
  intros Hi. induction fuel as [|fuel IH]; intros dst va len m Hf Hlen Hva Hdis; [lia|].
  cbn [copy_in_loop]. destruct (Z.gtb_spec len 0) as [Hpos|Hz].
  2:{ exists 0, m. split; [done|]. split; [done|]. left. split; [done|]. lia. }
  destruct (page_lookup T root p va Hi Hva) as (pa & w & E & Hub).
  rewrite (bind_run _ _ _ _ _ E). destruct (user_byte root p va) as [[a b]|] eqn:Ea.
  2:{ rewrite Hub. exists (-1), m. split; [done|]. split; [done|]. right. split; [done|].
      exists 0. by rewrite Z.add_0_r. }
  destruct Hub as (-> & _ & <-). rewrite chunk_min.
  destruct (next_page root p va a b ltac:(lia) Ea) as [-> Hnext].
  pose proof (chunk_bound va ltac:(lia)) as [_ Hn].
  set (n := PAGE_SIZE - (va - PAGE_ROUND_DOWN va)) in *.
  assert (forall x, memmove m dst a (Z.min n len) x =
    if decide (dst <= x < dst + Z.min n len) then m (a + (x - dst)) else m x) as Hmm
    by (intros; apply memmove_run; lia).
  set (m1 := memmove m dst a (Z.min n len)) in *.
  assert (forall i a' w', 0 <= i < len -> user_byte root p (va + i) = Some (a', w') -> m1 a' = m a') as Hsrc.
  { intros i a' w' Hr Hu. rewrite Hmm. case_decide as Hd; [|done].
    destruct (Hdis i (a' - dst) a' w' Hr ltac:(lia) Hu). lia. }
  assert (forall i, 0 <= i < Z.min n len -> user_byte root p (va + i) = Some (a + i, b)) as Hch
    by (intros i Hr; apply chunk_bytes; [lia | subst n; lia | done]).
  destruct (Z.le_gt_cases len n) as [Hlast|Hmore].
  - replace (Z.min n len) with len in * by lia. replace (len - len) with 0 by lia.
    destruct fuel as [|fuel]; [lia|]. cbn. exists 0, m1. split; [done|].
    split; [intros x Hx; rewrite Hmm; by case_decide|]. left. split; [done|].
    intros i Hr. exists (a + i), b. split; [by apply Hch|].
    rewrite Hmm. case_decide; [|lia]. f_equal. lia.
  - replace (Z.min n len) with n in * by lia.
    edestruct (IH (dst + n) (va + n) (len - n) m1) as (r & m' & Erun & Hfr & Hres); [lia..| |].
    { intros i j a' w' H1 H2 Hu. rewrite <- Z.add_assoc in Hu |- *. by apply (Hdis (n + i) (n + j) a' w'); [lia..|]. }
    exists r, m'. split; [done|]. split.
    { intros x Hx. rewrite Hfr by lia. rewrite Hmm. case_decide; [lia|done]. }
    destruct Hres as [[-> Hok]|[-> (i & Hr & Hu)]]; [left|right]; (split; [done|]).
    + intros i Hr. destruct (Z.lt_ge_cases i n).
      * exists (a + i), b. split; [apply Hch; lia|]. rewrite Hfr by lia. rewrite Hmm.
        case_decide; [|lia]. f_equal. lia.
      * destruct (Hok (i - n) ltac:(lia)) as (a' & w' & Hu & Hv).
        replace (va + n + (i - n)) with (va + i) in Hu by lia.
        replace (dst + n + (i - n)) with (dst + i) in Hv by lia.
        exists a', w'. split; [done|]. rewrite Hv. by apply (Hsrc i a' w').
    + exists (n + i). split; [lia|]. by rewrite Z.add_assoc.
Qed.
Definition copy_out_post (root : Z) (p : P) (va src len : Z) (m : mem) (r : Z) (m' : mem) : Prop :=
  (forall x, (forall i w, 0 <= i < len -> user_byte root p (va + i) <> Some (x, w)) -> m' x = m x) /\
  ((r = 0 /\ forall i, 0 <= i < len ->
      exists a, user_byte root p (va + i) = Some (a, true) /\ m' a = m (src + i)) \/
   (r = -1 /\ exists i, 0 <= i < len /\ forall a, user_byte root p (va + i) <> Some (a, true))).

(** The bytes of a user range have different addresses, and none of them is in
    the kernel buffer. *)
Definition separate (root : Z) (p : P) (va len buf : Z) : Prop :=
  (forall i j a w, 0 <= i < len -> 0 <= j < len ->
     user_byte root p (va + i) = Some (a, w) -> a <> buf + j) /\
  (forall i j a w w', 0 <= i < len -> 0 <= j < len ->
     user_byte root p (va + i) = Some (a, w) -> user_byte root p (va + j) = Some (a, w') -> i = j).

Lemma separate_rest root p va len buf n :
  0 <= n -> separate root p va len buf -> separate root p (va + n) (len - n) (buf + n).
Proof.
  intros Hn [H1 H2]. split.
  - intros i j a w Hi Hj Hu. rewrite <- Z.add_assoc in Hu |- *. by apply (H1 (n + i) (n + j) a w); [lia..|].
  - intros i j a w w' Hi Hj Hu Hv. rewrite <- Z.add_assoc in Hu, Hv.
    pose proof (H2 (n + i) (n + j) a w w' ltac:(lia) ltac:(lia) Hu Hv). lia.
Qed.

Lemma copy_out_loop_run T root p :
  vm_inv phys_base ram_size owned data T root p -> forall fuel va src len m,
  (Z.to_nat len < fuel)%nat -> 0 <= len -> 0 <= va < 2 ^ 64 -> separate root p va len src ->
  exists r m', copy_out_loop fuel root va src len m p = Ret ((r, m'), p) /\
    copy_out_post root p va src len m r m'.
Proof.
  intros Hi. induction fuel as [|fuel IH]; intros va src len m Hf Hlen Hva Hsep; [lia|].
  cbn [copy_out_loop]. destruct (Z.gtb_spec len 0) as [Hpos|Hz].
  2:{ exists 0, m. split; [done|]. split; [done|]. left. split; [done|]. lia. }
  destruct (page_lookup T root p va Hi Hva) as (pa & w & E & Hub).
  rewrite (bind_run _ _ _ _ _ E). destruct (user_byte root p va) as [[a b]|] eqn:Ea.
  2:{ rewrite Hub. exists (-1), m. split; [done|]. split; [done|]. right. split; [done|].
      exists 0. rewrite Z.add_0_r, Ea. done. }
  destruct Hub as (-> & -> & <-). cbn [orb default]. unfold default, from_option, id. destruct b; cbn [negb].
  2:{ exists (-1), m. split; [done|]. split; [done|]. right. split; [done|].
      exists 0. rewrite Z.add_0_r, Ea. split; [lia|]. congruence. }
  rewrite chunk_min. destruct (next_page root p va a true ltac:(lia) Ea) as [-> Hnext].
  pose proof (chunk_bound va ltac:(lia)) as [_ Hn].
  set (n := PAGE_SIZE - (va - PAGE_ROUND_DOWN va)) in *.
  assert (forall i, 0 <= i < Z.min n len -> user_byte root p (va + i) = Some (a + i, true)) as Hch
    by (intros i Hr; apply chunk_bytes; [lia | subst n; lia | done]).
  assert (forall x, memmove m a src (Z.min n len) x =
    if decide (a <= x < a + Z.min n len) then m (src + (x - a)) else m x) as Hmm
    by (intros; apply memmove_run; lia).
  set (m1 := memmove m a src (Z.min n len)) in *.
  assert (forall x, (forall i w, 0 <= i < len -> user_byte root p (va + i) <> Some (x, w)) -> m1 x = m x) as Hout.
  { intros x Hx. rewrite Hmm. case_decide as Hd; [|done]. destruct (Hx (x - a) true ltac:(lia)).
    rewrite Hch by lia. do 2 f_equal. lia. }
  assert (forall j, 0 <= j < len -> m1 (src + j) = m (src + j)) as Hsrc.
  { intros j Hj. apply Hout. intros i w Hr Hu. by apply (proj1 Hsep _ j _ _ Hr Hj Hu). }
  assert (forall i, 0 <= i < Z.min n len -> m1 (a + i) = m (src + i)) as Hnew.
  { intros i Hr. rewrite Hmm. case_decide; [|lia]. f_equal. lia. }
  destruct (Z.le_gt_cases len n) as [Hlast|Hmore].
  - replace (Z.min n len) with len in * by lia. replace (len - len) with 0 by lia.
    destruct fuel as [|fuel]; [lia|]. cbn. exists 0, m1. split; [done|]. split; [done|].
    left. split; [done|]. intros i Hr. exists (a + i). auto.
  - replace (Z.min n len) with n in * by lia.
    edestruct (IH (va + n) (src + n) (len - n) m1) as (r & m' & Erun & Hfr & Hres);
      [lia..| apply separate_rest; [lia | done] |].
    exists r, m'. split; [done|]. split.
    { intros x Hx. rewrite Hfr; [by apply Hout|]. intros i w Hr. rewrite <- Z.add_assoc. apply Hx. lia. }
    destruct Hres as [[-> Hok]|[-> (i & Hr & Hu)]]; [left|right]; (split; [done|]).
    + intros i Hr. destruct (Z.lt_ge_cases i n).
      * exists (a + i). split; [apply Hch; lia|]. rewrite Hfr; [apply Hnew; lia|].
        intros j w Hj Hu. rewrite <- Z.add_assoc in Hu.
        assert (0 <= n + j < len) as Hnj by lia.
        pose proof (proj2 Hsep _ _ _ _ _ Hr Hnj (Hch i ltac:(lia)) Hu). lia.
      * destruct (Hok (i - n) ltac:(lia)) as (a' & Hu & Hv).
        replace (va + n + (i - n)) with (va + i) in Hu by lia.
        replace (src + n + (i - n)) with (src + i) in Hv by lia.
        exists a'. split; [done|]. rewrite Hv. by apply Hsrc.
    + exists (n + i). split; [lia|]. by rewrite Z.add_assoc.
Qed.
(** The inner loop copies up to the terminator. *)
Lemma str_page_run n : forall max src dst m,
  (forall i j, 0 <= i < Z.of_nat n -> 0 <= j < Z.of_nat n -> src + i <> dst + j) ->
  exists b k m', str_page n max src dst m = (b, max - k, dst + k, m') /\
    (if b : bool then 0 <= k < Z.of_nat n /\ m (src + k) = 0 else k = Z.of_nat n) /\
    (forall i, 0 <= i < k -> m (src + i) <> 0) /\
    (forall x, m' x = if decide (dst <= x < dst + k + Z.b2z b) then m (src + (x - dst)) else m x).
Proof.
  induction n as [|n IH]; intros max src dst m Hdis; cbn [str_page].
  - exists false, 0, m. rewrite Z.sub_0_r, Z.add_0_r. split; [done|]. split; [done|]. split; [lia|].
    intros x. rewrite decide_False by (cbn; lia). done.
  - destruct (Z.eqb_spec (m src) 0) as [E|E].
    + exists true, 0, (store m dst 0). rewrite Z.sub_0_r, !Z.add_0_r. split; [done|].
      split; [split; [lia | done]|]. split; [lia|]. intros x. unfold store. cbn [Z.b2z].
      destruct (Z.eqb_spec x dst) as [->|]; case_decide; try lia.
      by rewrite Z.sub_diag, Z.add_0_r.
    + destruct (IH (max - 1) (src + 1) (dst + 1) (store m dst (m src))) as (b & k & m' & -> & Hb & Hnz & Hm).
      { intros i j Hi Hj. pose proof (Hdis (i + 1) (j + 1) ltac:(lia) ltac:(lia)). lia. }
      assert (forall i, 0 <= i < Z.of_nat n -> store m dst (m src) (src + 1 + i) = m (src + (1 + i))) as Hs.
      { intros i Hi. unfold store. pose proof (Hdis (1 + i) 0 ltac:(lia) ltac:(lia)).
        destruct (Z.eqb_spec (src + 1 + i) dst); [lia|]. f_equal. lia. }
      assert (0 <= k <= Z.of_nat n /\ (b = true -> k < Z.of_nat n)) as [Hk Hkb] by (destruct b; lia).
      exists b, (1 + k), m'. replace (max - (1 + k)) with (max - 1 - k) by lia.
      replace (dst + (1 + k)) with (dst + 1 + k) by lia. split; [done|]. split.
      { destruct b; [|lia]. destruct Hb as [? Hb]. rewrite Hs in Hb by lia. split; [lia | done]. }
      split.
      { intros i Hi. destruct (Z.eq_dec i 0) as [->|]; [by rewrite Z.add_0_r|].
        pose proof (Hnz (i - 1) ltac:(lia)) as H1. rewrite Hs in H1 by lia.
        by replace (1 + (i - 1)) with i in H1 by lia. }
      intros x. rewrite Hm. unfold Z.b2z. assert (Hx := Hs (x - (dst + 1))).
      destruct (decide (dst + 1 <= x < dst + 1 + k + (if b then 1 else 0))).
      * rewrite decide_True by (destruct b; lia). rewrite Hx by (destruct b; lia). f_equal. lia.
      * unfold store. destruct (Z.eqb_spec x dst) as [->|].
        -- rewrite decide_True by (destruct b; lia). by rewrite Z.sub_diag, Z.add_0_r.
        -- rewrite decide_False by (destruct b; lia). done.
Qed.

Definition copy_in_str_post (root : Z) (p : P) (dst va max : Z) (m : mem) (r : Z) (m' : mem) : Prop :=
  (forall x, ~ dst <= x < dst + max -> m' x = m x) /\
  exists k,
    (r = 0 /\ 0 <= k < max /\ forall i, 0 <= i <= k ->
       exists a w, user_byte root p (va + i) = Some (a, w) /\ m' (dst + i) = m a /\ (m a = 0 <-> i = k)) \/
    (r = -1 /\ 0 <= k <= max /\
       (forall i, 0 <= i < k -> exists a w, user_byte root p (va + i) = Some (a, w) /\ m a <> 0) /\
       (k = max \/ user_byte root p (va + k) = None)).

(** A page without terminator before the rest of the string. *)
Lemma str_post_rest root p dst va max c m r m' m1 a b :
  0 <= c < max ->
  (forall i a' w, 0 <= i < max -> user_byte root p (va + i) = Some (a', w) -> m1 a' = m a') ->
  (forall i, 0 <= i < c -> user_byte root p (va + i) = Some (a + i, b) /\ m (a + i) <> 0) ->
  (forall x, m1 x = if decide (dst <= x < dst + c) then m (a + (x - dst)) else m x) ->
  copy_in_str_post root p (dst + c) (va + c) (max - c) m1 r m' ->
  copy_in_str_post root p dst va max m r m'.
Proof.
  intros Hc Hsrc Hpre Hm1 [Hfr (k & Hres)]. split.
  { intros x Hx. rewrite Hfr by lia. rewrite Hm1. case_decide; [lia|done]. }
  exists (c + k). destruct Hres as [(-> & Hk & Hok)|(-> & Hk & Hok & Hend)]; [left|right].
  - split; [done|]. split; [lia|]. intros i Hr. destruct (Z.lt_ge_cases i c).
    + destruct (Hpre i ltac:(lia)) as [Hu Hv]. exists (a + i), b. split; [done|]. split; [|lia].
      rewrite Hfr by lia. rewrite Hm1, decide_True by lia. f_equal. lia.
    + destruct (Hok (i - c) ltac:(lia)) as (a' & w' & Hu & Hv & Hz).
      replace (va + c + (i - c)) with (va + i) in Hu by lia.
      replace (dst + c + (i - c)) with (dst + i) in Hv by lia.
      rewrite (Hsrc i a' w') in Hv, Hz by (first [lia | done]).
      exists a', w'. split; [done|]. split; [done|]. rewrite Hz. lia.
  - split; [done|]. split; [lia|]. split.
    + intros i Hr. destruct (Z.lt_ge_cases i c); [exists (a + i), b; apply Hpre; lia|].
      destruct (Hok (i - c) ltac:(lia)) as (a' & w' & Hu & Hz).
      replace (va + c + (i - c)) with (va + i) in Hu by lia.
      rewrite (Hsrc i a' w') in Hz by (first [lia | done]). by exists a', w'.
    + destruct Hend as [->|Hu]; [left; lia | right]. by rewrite Z.add_assoc.
Qed.

Lemma copy_in_str_loop_run T root p :
  vm_inv phys_base ram_size owned data T root p -> forall fuel dst va max m,
  (S (Z.to_nat max) < fuel)%nat -> 0 <= max -> 0 <= va < 2 ^ 64 ->
  (forall i j a w, 0 <= i < max -> 0 <= j < max ->
     user_byte root p (va + i) = Some (a, w) -> a <> dst + j) ->
  exists r m', copy_in_str_loop fuel root dst va max false m p = Ret ((r, m'), p) /\
    copy_in_str_post root p dst va max m r m'.
Proof.
  intros Hi. induction fuel as [|fuel IH]; intros dst va max m Hf Hmax Hva Hdis; [lia|].
  cbn [copy_in_str_loop negb andb]. destruct (Z.gtb_spec max 0) as [Hpos|Hz].
  2:{ exists (-1), m. split; [done|]. split; [done|]. exists 0. right. repeat split; lia. }
  destruct (page_lookup T root p va Hi Hva) as (pa & w & E & Hub).
  rewrite (bind_run _ _ _ _ _ E). destruct (user_byte root p va) as [[a b]|] eqn:Ea.
  2:{ rewrite Hub. exists (-1), m. split; [done|]. split; [done|]. exists 0. right.
      split; [done|]. split; [lia|]. split; [lia|]. right. by rewrite Z.add_0_r. }
  destruct Hub as (-> & _ & <-). rewrite chunk_min.
  destruct (next_page root p va a b ltac:(lia) Ea) as [-> Hnext].
  pose proof (chunk_bound va ltac:(lia)) as [_ Hn].
  set (n := PAGE_SIZE - (va - PAGE_ROUND_DOWN va)) in *.
  assert (forall i, 0 <= i < Z.min n max -> user_byte root p (va + i) = Some (a + i, b)) as Hch
    by (intros i Hr; apply chunk_bytes; [lia | subst n; lia | done]).
  destruct (str_page_run (Z.to_nat (Z.min n max)) max a dst m) as (g & k & m1 & -> & Hb & Hnz & Hm).
  { intros i j H1 H2. eapply Hdis; [| |apply Hch]; lia. }
  rewrite Z2Nat.id in Hb by lia. destruct g.
  - destruct fuel as [|fuel]; [lia|]. cbn. exists 0, m1. split; [done|]. split.
    { intros x Hx. rewrite Hm, decide_False by (cbn; lia). done. }
    exists k. left. destruct Hb as [Hk Hb]. split; [done|]. split; [lia|]. intros i Hr.
    exists (a + i), b. split; [apply Hch; lia|]. split.
    + rewrite Hm, decide_True by (cbn; lia). f_equal. lia.
    + split; [intros H0; destruct (Z.eq_dec i k); [done|]; by destruct (Hnz i ltac:(lia)) | by intros ->].
  - subst k. set (c := Z.min n max) in *.
    assert (forall i, 0 <= i < c -> user_byte root p (va + i) = Some (a + i, b) /\ m (a + i) <> 0) as Hpre
      by (intros i Hr; split; [by apply Hch | by apply Hnz]).
    assert (forall x, m1 x = if decide (dst <= x < dst + c) then m (a + (x - dst)) else m x) as Hm1
      by (intros x; rewrite Hm; cbn [Z.b2z]; by rewrite Z.add_0_r).
    assert (0 < c <= max) as Hcr by lia.
    destruct (Z.eq_dec c max) as [->|Hne].
    + destruct fuel as [|fuel]; [lia|]. cbn [copy_in_str_loop]. rewrite Z.sub_diag. cbn.
      exists (-1), m1. split; [done|]. split; [intros x Hx; rewrite Hm1; by case_decide|].
      exists max. right. split; [done|]. split; [lia|]. split; [|by left]. intros i Hr. exists (a + i), b. by apply Hpre.
    + replace n with c by lia.
      edestruct (IH (dst + c) (va + c) (max - c) m1) as (r & m' & Erun & Hfr & Hres); [lia..| |].
      { intros i j a' w' H1 H2 Hu. rewrite <- Z.add_assoc in Hu |- *.
        by apply (Hdis (c + i) (c + j) a' w'); [lia..|]. }
      exists r, m'. split; [done|].
      apply (str_post_rest root p dst va max c m r m' m1 a b); [lia | | done | done | by split].
      intros i a' w' H1 Hu. rewrite Hm1. case_decide; [|done].
      destruct (Hdis i (a' - dst) a' w' ltac:(lia) ltac:(lia) Hu). lia.
Qed.
(** C23: [uvm_copy_out] and [uvm_copy_in] always return, leave the page table as
    it is and copy a range that may cross any number of pages: the result is 0
    exactly when every byte of the user range is mapped for the user (and
    writeable, for [uvm_copy_out]), and then each byte arrives at its place;
    otherwise it is -1 and an unmapped (or read-only) byte exists.  Memory
    outside the target range never changes. *)
Theorem uvm_copy_spec T root p va buf len m :
  vm_inv phys_base ram_size owned data T root p -> 0 <= len -> 0 <= va < 2 ^ 64 ->
  separate root p va len buf ->
  (exists r m', uvm_copy_out root va buf len m p = Ret ((r, m'), p) /\
     copy_out_post root p va buf len m r m') /\
  (exists r m', uvm_copy_in root buf va len m p = Ret ((r, m'), p) /\
     copy_in_post root p buf va len m r m').
Proof.
  intros Hi Hlen Hva Hsep. split.
  - apply (copy_out_loop_run T); auto; lia.
  - apply (copy_in_loop_run T); [done | lia..|]. apply Hsep.
Qed.

(** [uvm_copy_in_str] always returns and leaves the page table as it is.
    It returns 0 exactly when a terminator is reached within [max] bytes of
    mapped user memory, and then the kernel buffer holds the string with its
    terminator; otherwise it returns -1 and either [max] bytes hold no
    terminator or the string runs into an unmapped page.  It never writes
    outside the [max] bytes of the buffer. *)
Theorem uvm_copy_in_str_spec T root p va buf max m :
  vm_inv phys_base ram_size owned data T root p -> 0 <= max -> 0 <= va < 2 ^ 64 ->
  separate root p va max buf ->
  exists r m', uvm_copy_in_str root buf va max m p = Ret ((r, m'), p) /\
    copy_in_str_post root p buf va max m r m'.
Proof.
  intros Hi Hmax Hva Hsep. apply (copy_in_str_loop_run T); [done | lia..|]. apply Hsep.
Qed.
End Uvm.

(** ** Two user pages *)

Definition some_frame : Z := phys_to_virt 0x80000000 0x90000000.

Definition some_leaf (k : Z) : Z :=
  leaf (0x90000000 + k * 4096) (Z.lor PTE_USER_RAM PTE_MAP_DEFAULT_FLAGS).

Lemma leaf_facts k :
  0 <= k < 2 ->
  PTE_IS_VALID_USER (some_leaf k) = true /\ PTE_GET_PA (some_leaf k) = 0x90000000 + k * 4096 /\
  PTE_IS_WRITEABLE (some_leaf k) = true /\
  phys_to_virt 0x80000000 (0x90000000 + k * 4096) = some_frame + k * 4096.
Proof.
  intros Hk. assert (k = 0 \/ k = 1) as [-> | ->] by lia; vm_compute; auto.
Qed.

Lemma some_leaf_byte va :
  0x400000 <= va < 0x402000 ->
  entry_byte 0x80000000 (some_leaf (va / 4096 - 1024)) va = Some (some_frame + (va - 0x400000), true).
Proof.
  intros Hin. pose proof (Z.div_mod va 4096 ltac:(lia)). pose proof (Z.mod_pos_bound va 4096 ltac:(lia)).
  assert (VA_IS_IN_RANGE_FOR_USER va = true) as Er
    by (unfold VA_IS_IN_RANGE_FOR_USER; change USER_VA_END with 274877906944; lia).
  destruct (leaf_facts (va / 4096 - 1024) ltac:(lia)) as (E1 & E2 & E3 & E4).
  unfold entry_byte. rewrite Er, E1, E2, E3, E4.
  destruct (Z.eqb_spec (0x90000000 + (va / 4096 - 1024) * 4096) 0); [lia|]. cbn [andb negb].
  do 2 f_equal. lia.
Qed.

Lemma two_pages_map {P} `{!PageAllocator P} T0 root (p p' : P) :
  vm_inv 0x80000000 (2 ^ 22) (fun _ => False) (fun _ => None) T0 root p ->
  (forall va, pte_at 0x80000000 root p va = 0) ->
  vm_map 0x80000000 root 0x400000 0x90000000 8192 PTE_USER_RAM false p = Ret (0, p') ->
  exists T, vm_inv 0x80000000 (2 ^ 22) (fun _ => False) (fun _ => None) T root p' /\
  forall va, canon va -> pte_at 0x80000000 root p' va =
    mapped_over 0x400000 (8192 / 4096) some_leaf (pte_at 0x80000000 root p) va.
Proof.
  intros Hinv Hzero Erun.
  destruct (vm_map_run 0x80000000 (2 ^ 22) (fun _ => False) (fun _ => None) T0 root p 0x400000
           0x90000000 8192 PTE_USER_RAM Hinv ltac:(by exists 0x400)
           ltac:(by exists 2) ltac:(lia) ltac:(lia) ltac:(lia) ltac:(lia))
    as (r & n & T' & q & E & Hi & _ & Hr & Hp).
  { intros k Hk. change (8192 / 4096) with 2 in Hk. rewrite Hzero. split; [apply low_canon; lia | done]. }
  rewrite Erun in E. assert (r = 0 /\ q = p') as [-> ->] by (split; congruence).
  destruct Hr as [[_ ->]|[? _]]; [|done]. exists T'. exact (conj Hi Hp).
Qed.

Lemma two_pages_bytes {P} `{!PageAllocator P} root (p p' : P) va :
  (forall va, pte_at 0x80000000 root p va = 0) ->
  (canon va -> pte_at 0x80000000 root p' va =
    mapped_over 0x400000 (8192 / 4096) some_leaf (pte_at 0x80000000 root p) va) ->
  0 <= va -> user_byte 0x80000000 root p' va =
    if decide (0x400000 <= va < 0x402000) then Some (some_frame + (va - 0x400000), true) else None.
Proof.
  intros Hzero Hp Hva.
  pose proof (Z.div_mod va 4096 ltac:(lia)). pose proof (Z.mod_pos_bound va 4096 ltac:(lia)).
  unfold user_byte. destruct (Z.lt_ge_cases va (2 ^ 38)) as [Hlt|Hge].
  - rewrite (Hp (low_canon va ltac:(lia))). unfold mapped_over.
    change (0x400000 / 4096) with 1024. change (8192 / 4096) with 2.
    destruct (decide (0x400000 <= va < 0x402000)) as [Hin|Hout].
    + rewrite decide_True by lia. apply (some_leaf_byte va Hin).
    + rewrite decide_False, Hzero by lia. unfold entry_byte. by destruct (VA_IS_IN_RANGE_FOR_USER va).
  - unfold entry_byte, VA_IS_IN_RANGE_FOR_USER. change USER_VA_END with (2 ^ 38).
    rewrite (proj2 (Z.ltb_ge _ _) Hge), decide_False by lia. done.
Qed.

Lemma two_pages :
  exists T, vm_inv 0x80000000 (2 ^ 22) (fun _ => False) (fun _ => None) T some_root mapped_memory /\
  forall va, 0 <= va -> user_byte 0x80000000 some_root mapped_memory va =
    if decide (0x400000 <= va < 0x402000) then Some (some_frame + (va - 0x400000), true) else None.
Proof.
  destruct (two_pages_map {[some_root := []]} some_root some_memory mapped_memory
    (proj1 some_table_inv) (proj2 some_table_inv) mapped_memory_run) as (T & Hi & Hp).
  exists T. refine (conj Hi _). intros va.
  exact (two_pages_bytes some_root some_memory mapped_memory va (proj2 some_table_inv) (Hp va)).
Qed.

Lemma two_pages_separate va len buf :
  0 <= va -> buf + len <= some_frame ->
  separate 0x80000000 some_root mapped_memory va len buf.
Proof.
  destruct two_pages as (T & _ & Hu). revert Hu. generalize mapped_memory as q. generalize some_frame as f.
  intros f q Hu Hva Hb. split.
  - intros i j a w Hi Hj. rewrite Hu by lia. case_decide; [|done]. intros [= <- <-]. lia.
  - intros i j a w w' Hi Hj. rewrite !Hu by lia. repeat case_decide; [|done..].
    intros [= <- <-] [= E _]. lia.
Qed.

Definition some_buf : Z := PAGE_OFFSET + 0x1000.

Lemma uvm_copy_spec_witness :
  (exists r m', uvm_copy_out 0x80000000 some_root 0x400FF0 some_buf 100 (fun x => x mod 256) mapped_memory
     = Ret ((r, m'), mapped_memory) /\
     copy_out_post 0x80000000 some_root mapped_memory 0x400FF0 some_buf 100 (fun x => x mod 256) r m') /\
  (exists r m', uvm_copy_in 0x80000000 some_root some_buf 0x400FF0 100 (fun x => x mod 256) mapped_memory
     = Ret ((r, m'), mapped_memory) /\
     copy_in_post 0x80000000 some_root mapped_memory some_buf 0x400FF0 100 (fun x => x mod 256) r m').
Proof.
  destruct two_pages as (T & Hi & _).
  exact (uvm_copy_spec 0x80000000 (2 ^ 22) (fun _ => False) (fun _ => None) T some_root mapped_memory 0x400FF0 some_buf 100
           (fun x => x mod 256) Hi ltac:(lia) ltac:(lia)
           (two_pages_separate 0x400FF0 100 some_buf ltac:(lia) ltac:(vm_compute; discriminate))).
Defined.

Lemma uvm_copy_in_str_spec_witness :
  exists r m', uvm_copy_in_str 0x80000000 some_root some_buf 0x400FF0 300 (fun x => x mod 256) mapped_memory
     = Ret ((r, m'), mapped_memory) /\
     copy_in_str_post 0x80000000 some_root mapped_memory some_buf 0x400FF0 300 (fun x => x mod 256) r m'.
Proof.
  destruct two_pages as (T & Hi & _).
  exact (uvm_copy_in_str_spec 0x80000000 (2 ^ 22) (fun _ => False) (fun _ => None) T some_root mapped_memory 0x400FF0 some_buf 300
           (fun x => x mod 256) Hi ltac:(lia) ltac:(lia)
           (two_pages_separate 0x400FF0 300 some_buf ltac:(lia) ltac:(vm_compute; discriminate))).
Defined.
