(* ===== verification/PageTable.v ===== *)
(** * Page tables with their memory maps (kernel/mm/page_table.c, kernel/mm/vm.c)

    A [Page_Table] is the tree of tables of [Vm] with the list of regions of
    [MemoryMap].  Pages come from the page allocator; whether the [kmalloc] of a
    region fails is an argument.  The central invariant is that the tables
    translate exactly what the map says is mapped. *)
From Stdlib Require Import Sorted.
From stdpp Require Import gmap list.
From S2P Require Import Prelude Buddy MemoryMap Vm.

Record Page_Table := mk_page_table { pt_root : Z; memory_map : list MM_Region }.

Definition set_map (l : list MM_Region) (pt : Page_Table) : Page_Table := mk_page_table (pt_root pt) l.

Definition set_mapped (st : MM_Region_Mapped) (r : MM_Region) : MM_Region :=
  mk_region (start_pa r) (start_va r) (r_size r) (r_type r) st (free_on_unmap r).

Section PageTable.
Context {P : Type} `{!PageAllocator P} (phys_base : Z).

Definition release (a : Z) : ST P unit :=
  get ≫= fun p => lift (pg_free a p) ≫= fun p => put p.

(** The calls of [free_pages_range] in order. *)
Fixpoint run_frees (fr : list freed) : ST P unit :=
  match fr with
  | [] => mret tt
  | (pa, n) :: fr =>
      modify (pg_free_range (phys_to_virt phys_base pa) n) ≫= fun _ => run_frees fr
  end.

(** The error and the region. *)
Definition page_table_map_region (root : Z) (region : MM_Region) : ST P (Z * MM_Region) :=
  let flags := mm_region_get_pte region in
  if flags =? 0 then mret (0, region)
  else
    vm_map phys_base root (start_va region) (start_pa region) (r_size region) flags false ≫= fun r =>
    if negb (r =? 0) then mret (- ENOMEM, region)
    else mret (0, set_mapped MM_REGION_PARTIAL_MAPPED region).

(** The first loop of [page_table_apply_mapping]. *)
Fixpoint apply_loop (root err : Z) (l : list MM_Region) : ST P (Z * list MM_Region) :=
  match l with
  | [] => mret (err, [])
  | region :: rest =>
      (if decide (r_mapped region = MM_REGION_MARKED_FOR_MAPPING)
       then page_table_map_region root region
       else mret (err, region)) ≫= fun '(err, region) =>
      if err <? 0 then mret (err, region :: rest)
      else apply_loop root err rest ≫= fun '(err, rest) => mret (err, region :: rest)
  end.

Definition finalize (r : MM_Region) : MM_Region :=
  if decide (r_mapped r = MM_REGION_PARTIAL_MAPPED) then set_mapped MM_REGION_MAPPED r else r.

Definition page_table_unmap_region (root : Z) (region : MM_Region) : ST P unit :=
  vm_unmap phys_base root (start_va region) (r_size region / PAGE_SIZE) false ≫= fun _ =>
  run_frees (mm_region_remove region).

(** [page_table_unmap_region] has freed the region that [mm_region_remove] then
    reads. *)
Fixpoint page_table_unmap_partial_mappings (root : Z) (l : list MM_Region) : ST P (list MM_Region) :=
  match l with
  | [] => mret []
  | region :: rest =>
      if decide (r_mapped region = MM_REGION_PARTIAL_MAPPED)
      then page_table_unmap_region root region ≫= fun _ => lift Undef
      else if decide (r_mapped region = MM_REGION_MARKED_FOR_MAPPING)
      then run_frees (mm_region_remove region) ≫= fun _ => page_table_unmap_partial_mappings root rest
      else page_table_unmap_partial_mappings root rest ≫= fun rest => mret (region :: rest)
  end.

Definition page_table_apply_mapping (pt : Page_Table) : ST P (Z * Page_Table) :=
  apply_loop (pt_root pt) 0 (memory_map pt) ≫= fun '(err, l) =>
  if err >=? 0 then mret (err, set_map (finalize <$> l) pt)
  else page_table_unmap_partial_mappings (pt_root pt) l ≫= fun l => mret (err, set_map l pt).

Definition page_table_unmap_range (start_va size : Z) (pt : Page_Table) : ST P (Z * Page_Table) :=
  vm_unmap phys_base (pt_root pt) start_va (size / PAGE_SIZE) false ≫= fun _ =>
  lift (memory_map_remove_regions start_va size (memory_map pt)) ≫= fun '(l, fr) =>
  run_frees fr ≫= fun _ =>
  mret (0, set_map l pt).

(** The page of the kernel that holds the page of a user address. *)
Definition page_table_get_kvm_addr (root va : Z) : ST P Z :=
  vm_walk phys_base root va false ≫= fun pte =>
  if pte =? NULL then lift Panic
  else
    rd pte ≫= fun v =>
    if negb (PTE_IS_VALID_NODE v) then lift Panic
    else mret (phys_to_virt phys_base (PTE_GET_PA v)).

(** ** The heap and the stack (vm.c) *)

(** The loop of [uvm_alloc_heap]; [oom i] tells whether the [kmalloc] of the
    region in iteration [i] fails.  [kfree] of a page is [free_pages]. *)
Fixpoint alloc_heap_loop (fuel : nat) (oom : nat -> bool) (i : nat) (va end_va : Z)
    (map_type : MM_Region_Type) (l : list MM_Region) : ST P (Z * list MM_Region) :=
  match fuel with
  | O => lift NoFuel
  | S fuel =>
      if va <? end_va then
        alloc_zeroed ≫= fun mem =>
        if mem =? NULL then mret (va, l)
        else
          lift (mm_region_alloc_init (oom i) (virt_to_phys phys_base mem) va PAGE_SIZE map_type)
            ≫= fun region =>
          match region with
          | None => release mem ≫= fun _ => mret (va, l)
          | Some region =>
              lift (memory_map_add_single_region region l) ≫= fun l =>
              alloc_heap_loop fuel oom (S i) (u64 (va + PAGE_SIZE)) end_va map_type l
          end
      else mret (va, l)
  end.

Definition uvm_alloc_heap (oom : nat -> bool) (start_va alloc_size : Z) (map_type : MM_Region_Type)
    (pt : Page_Table) : ST P (Z * Page_Table) :=
  let end_va := u64 (start_va + alloc_size) in
  let start_va := PAGE_ROUND_UP start_va in
  alloc_heap_loop (S (Z.to_nat (end_va - start_va))) oom 0 start_va end_va map_type (memory_map pt)
    ≫= fun '(va, l) =>
  if va <? end_va
  then page_table_unmap_partial_mappings (pt_root pt) l ≫= fun l => mret (0, set_map l pt)
  else
    page_table_apply_mapping (set_map l pt) ≫= fun '(err, pt) =>
    if err <? 0 then mret (0, pt) else mret (alloc_size, pt).

Definition uvm_dealloc_heap (heap_begin end_va dealloc_size : Z) (pt : Page_Table)
    : ST P (Z * Page_Table) :=
  let new_end_va := u64 (end_va - dealloc_size) in
  if new_end_va <? heap_begin then mret (0, pt)
  else
    let start_dealloc_va := PAGE_ROUND_UP new_end_va in
    let npages := u64 (PAGE_ROUND_UP end_va - start_dealloc_va) / PAGE_SIZE in
    (if npages >? 0
     then page_table_unmap_range start_dealloc_va (u64 (npages * PAGE_SIZE)) pt
     else mret (0, pt)) ≫= fun '(_, pt) =>
    mret (dealloc_size, pt).

Definition uvm_grow_stack (oom : bool) (stack_low : Z) (pt : Page_Table) : ST P (Z * Page_Table) :=
  alloc_zeroed ≫= fun mem =>
  if mem =? NULL then mret (0, pt)
  else
    let new_stack_low := u64 (stack_low - PAGE_SIZE) in
    lift (mm_region_alloc_init oom (virt_to_phys phys_base mem) new_stack_low PAGE_SIZE
            MM_REGION_USER_STACK) ≫= fun region =>
    match region with
    | None => release mem ≫= fun _ => mret (0, pt)
    | Some region =>
        lift (memory_map_add_single_region region (memory_map pt)) ≫= fun l =>
        page_table_apply_mapping (set_map l pt) ≫= fun '(err, pt) =>
        if negb (err =? 0) then mret (0, pt) else mret (new_stack_low, pt)
    end.
(** ** Tables that agree with a map *)

Context (ram_size : Z) `{!DirectMap phys_base ram_size} (owned : Z -> Prop) (data : Z -> option Z).

Definition type_flags (ty : MM_Region_Type) : Z := pte_flags (g_region_attributes ty).

(** The leaf of an address with the given backing, if its state is one of those
    with an entry in the tables. *)
Definition entry_of (installed : MM_Region_Mapped -> bool) (b : option backing) : Z :=
  match b with
  | Some (pa, ty, st, _) =>
      if (installed st && negb (type_flags ty =? 0))%bool
      then leaf pa (Z.lor (type_flags ty) PTE_MAP_DEFAULT_FLAGS) else 0
  | None => 0
  end.

Definition is_mapped (st : MM_Region_Mapped) : bool := bool_decide (st = MM_REGION_MAPPED).
Definition is_installed (st : MM_Region_Mapped) : bool :=
  bool_decide (st = MM_REGION_MAPPED \/ st = MM_REGION_PARTIAL_MAPPED).

Definition agrees (installed : MM_Region_Mapped -> bool) (root : Z) (p : P) (map : list MM_Region) : Prop :=
  forall va, canon va -> pte_at phys_base root p va = entry_of installed (mm_at map va).

Definition region_canon (r : MM_Region) : Prop := forall va, in_region r va -> canon va.

Lemma leaf_page pa pa' f : pa / 4096 = pa' / 4096 -> leaf pa f = leaf pa' f.
Proof using.
  intros E. unfold leaf, PTE_BUILD, PA2PTE. rewrite !Z.shiftr_div_pow2 by (unfold PAGE_SHIFT; lia).
  change (2 ^ PAGE_SHIFT) with 4096. by rewrite E.
Qed.

(** The pages of a region are its addresses. *)
Lemma region_pages r va :
  region_ok r -> 0 <= va / 4096 - start_va r / 4096 < r_size r / 4096 <-> in_region r va.
Proof using.
  intros [_ Hva Hsz _ _ _ _]. destruct Hva as [a Ha], Hsz as [n Hn]. unfold in_region, region_end.
  change PAGE_SIZE with 4096 in *. rewrite Ha, Hn, !Z.div_mul by lia.
  pose proof (Z.div_mod va 4096 ltac:(lia)). pose proof (Z.mod_pos_bound va 4096 ltac:(lia)). lia.
Qed.

Lemma region_leaf r va f :
  region_ok r -> in_region r va ->
  leaf (start_pa r + (va / 4096 - start_va r / 4096) * 4096) f = leaf (start_pa r + (va - start_va r)) f.
Proof using.
  intros [Hpa Hva _ _ _ _ _] Hin. apply leaf_page. destruct Hpa as [a Ha], Hva as [b Hb].
  change PAGE_SIZE with 4096 in *. rewrite Ha, Hb, Z.div_mul by lia.
  replace (a * 4096 + (va / 4096 - b) * 4096) with ((a + va / 4096 - b) * 4096) by lia.
  replace (a * 4096 + (va - b * 4096)) with (va + (a - b) * 4096) by lia.
  rewrite Z.div_mul, Z.div_add by lia. lia.
Qed.

(** Installing one region; on failure some of its pages are left mapped. *)
Lemma map_region_run T root p r :
  vm_inv phys_base ram_size owned data T root p -> region_ok r -> region_canon r ->
  (forall va, in_region r va -> pte_at phys_base root p va = 0) ->
  exists T' p', T ⊆ T' /\ vm_inv phys_base ram_size owned data T' root p' /\
  ((page_table_map_region root r p =
      Ret ((0, if type_flags (r_type r) =? 0 then r else set_mapped MM_REGION_PARTIAL_MAPPED r), p') /\
    forall va, canon va -> pte_at phys_base root p' va =
      if decide (in_region r va) then entry_of (fun _ => true) (region_at r va)
      else pte_at phys_base root p va) \/
   (page_table_map_region root r p = Ret ((- ENOMEM, r), p') /\
    type_flags (r_type r) <> 0 /\
    exists k, 0 <= k < r_size r / 4096 /\
    forall va, canon va -> pte_at phys_base root p' va =
      if decide (in_region r va /\ va < start_va r + k * 4096)
      then entry_of (fun _ => true) (region_at r va) else pte_at phys_base root p va)).
Proof.
  intros Hi Hr Hcan Hz. unfold page_table_map_region. change (mm_region_get_pte r) with (type_flags (r_type r)).
  destruct (Z.eqb_spec (type_flags (r_type r)) 0) as [Ef|Ef].
  { exists T, p. split; [done|]. split; [done|]. left. split; [done|]. intros va Hc.
    case_decide as Hin; [|done]. rewrite Hz by done. unfold region_at. rewrite decide_True by done.
    cbn [entry_of]. by rewrite Ef. }
  pose proof Hr as [Hpa Hva Hsz Hpos Hvr Hpr _].
  destruct (vm_map_run phys_base ram_size owned data T root p (start_va r) (start_pa r) (r_size r)
    (type_flags (r_type r)) Hi Hva Hsz Hpos ltac:(lia) ltac:(lia) ltac:(lia))
    as (e & m & T' & p' & E & Hi' & HT & He & Hp).
  { intros k Hk. assert (in_region r (start_va r + k * 4096)) as Hin.
    { apply region_pages; [done|]. rewrite Z.div_add by lia. lia. }
    split; [by apply Hcan|]. by rewrite Hz. }
  exists T', p'. split; [done|]. split; [done|]. rewrite (bind_run _ _ _ _ _ E).
  destruct He as [[-> ->]|[-> Hm]]; [left | right; split; [done|]; split; [done|]; exists m; split; [done|]].
  1: split; [done|].
  all: intros va Hc; rewrite (Hp va Hc); unfold mapped_over.
  - destruct (decide (in_region r va)) as [Hin|Hin].
    + rewrite decide_True by (by apply region_pages). rewrite region_leaf by done.
      unfold region_at. rewrite decide_True by done. cbn [entry_of andb].
      by rewrite (proj2 (Z.eqb_neq _ _) Ef).
    + rewrite decide_False; [done|]. by rewrite region_pages.
  - pose proof (region_pages r va Hr) as Hpg. destruct Hva as [b Hb]. change PAGE_SIZE with 4096 in *.
    pose proof (Z.div_mod va 4096 ltac:(lia)). pose proof (Z.mod_pos_bound va 4096 ltac:(lia)).
    assert (start_va r / 4096 = b) by (rewrite Hb; by apply Z.div_mul).
    destruct (decide (in_region r va /\ va < start_va r + m * 4096)) as [[Hin Hlt]|Hn].
    + rewrite decide_True by (apply Hpg in Hin; lia). rewrite region_leaf by done.
      unfold region_at. rewrite decide_True by done. cbn [entry_of andb].
      by rewrite (proj2 (Z.eqb_neq _ _) Ef).
    + rewrite decide_False; [done|]. intros Hk. apply Hn. split; [apply Hpg|]; lia.
Qed.
(** ** Changing the state of one region of a map *)

Lemma region_ok_set st r : region_ok (set_mapped st r) <-> region_ok r.
Proof using. split; intros []; by split. Qed.

Lemma region_at_set st r va :
  region_at (set_mapped st r) va =
  if decide (in_region r va)
  then Some (start_pa r + (va - start_va r), r_type r, st, free_on_unmap r) else None.
Proof using. reflexivity. Qed.

Lemma map_ok_set pre st r post : map_ok (pre ++ r :: post) -> map_ok (pre ++ set_mapped st r :: post).
Proof using.
  rewrite !map_ok_app, !map_ok_cons, region_ok_set. intros (H1 & (H2 & H4 & H5) & H3). split_and!; try done.
  eapply Forall_impl; [exact H3|]. intros q Hq. by inversion_clear Hq; constructor.
Qed.

Lemma mm_at_none l va : Forall (fun r => ~ in_region r va) l -> mm_at l va = None.
Proof using.
  induction 1 as [|r l Hr _ IH]; [done|]. cbn [mm_at]. unfold region_at. by rewrite decide_False, IH.
Qed.

Lemma mm_at_member pre r post va :
  map_ok (pre ++ r :: post) -> in_region r va -> mm_at (pre ++ r :: post) va = region_at r va.
Proof using.
  rewrite map_ok_app. intros (_ & _ & Hb) Hin. rewrite mm_at_app, mm_at_none.
  - cbn [mm_at]. unfold region_at. rewrite decide_True by done. by destruct (mm_at post va).
  - eapply Forall_impl; [exact Hb|]. intros q Hq Hqi. inversion_clear Hq as [|? ? Hqr _].
    unfold before, in_region in *. lia.
Qed.

Lemma mm_at_other pre r r' post va :
  ~ in_region r va -> ~ in_region r' va -> mm_at (pre ++ r :: post) va = mm_at (pre ++ r' :: post) va.
Proof using. intros H1 H2. rewrite !mm_at_app. cbn [mm_at]. unfold region_at. by rewrite !decide_False. Qed.

(** The state after the first loop. *)
Definition mark (r : MM_Region) : MM_Region :=
  if decide (r_mapped r = MM_REGION_MARKED_FOR_MAPPING)
  then if type_flags (r_type r) =? 0 then r else set_mapped MM_REGION_PARTIAL_MAPPED r
  else r.

Lemma mark_cases r : mark r = r \/ mark r = set_mapped MM_REGION_PARTIAL_MAPPED r.
Proof using. unfold mark. case_decide; [|by left]. destruct (_ =? 0); auto. Qed.

Lemma map_ok_mark pre r post : map_ok (pre ++ r :: post) -> map_ok (pre ++ mark r :: post).
Proof using. destruct (mark_cases r) as [-> | ->]; [done|]. apply map_ok_set. Qed.

Lemma in_region_mark r va : in_region (mark r) va <-> in_region r va.
Proof using. by destruct (mark_cases r) as [-> | ->]. Qed.

Lemma marked_entry r va :
  r_mapped r = MM_REGION_MARKED_FOR_MAPPING ->
  entry_of is_installed (region_at (mark r) va) = entry_of (fun _ => true) (region_at r va) /\
  entry_of is_installed (region_at r va) = 0.
Proof using.
  intros Hm. unfold mark. rewrite decide_True by done.
  destruct (Z.eqb_spec (type_flags (r_type r)) 0) as [E|E]; rewrite ?region_at_set; unfold region_at;
    (case_decide; [|done]); cbn [entry_of]; rewrite Hm.
  - by rewrite E.
  - done.
Qed.

Lemma apply_loop_run rest : forall T root p pre,
  vm_inv phys_base ram_size owned data T root p -> map_ok (pre ++ rest) -> Forall region_canon rest ->
  agrees is_installed root p (pre ++ rest) ->
  exists T' p', T ⊆ T' /\ vm_inv phys_base ram_size owned data T' root p' /\
  ((apply_loop root 0 rest p = Ret ((0, mark <$> rest), p') /\
    agrees is_installed root p' (pre ++ (mark <$> rest))) \/
   (exists a r b k, rest = a ++ r :: b /\ r_mapped r = MM_REGION_MARKED_FOR_MAPPING /\
    apply_loop root 0 rest p = Ret ((- ENOMEM, (mark <$> a) ++ r :: b), p') /\
    0 <= k < r_size r / 4096 /\
    forall va, canon va -> pte_at phys_base root p' va =
      if decide (in_region r va /\ va < start_va r + k * 4096)
      then entry_of (fun _ => true) (region_at r va)
      else entry_of is_installed (mm_at (pre ++ (mark <$> a) ++ r :: b) va))).
Proof.
  induction rest as [|r rest IH]; intros T root p pre Hi Hok Hcan Hag.
  { exists T, p. split; [done|]. split; [done|]. by left. }
  apply Forall_cons in Hcan as [Hcr Hcan]. cbn [apply_loop].
  (* once the region is handled *)
  assert (forall T1 p1, T ⊆ T1 -> vm_inv phys_base ram_size owned data T1 root p1 ->
    agrees is_installed root p1 (pre ++ mark r :: rest) ->
    exists T' p', T ⊆ T' /\ vm_inv phys_base ram_size owned data T' root p' /\
    (((apply_loop root 0 rest ≫= (fun '(err, rest) => mret (err, mark r :: rest))) p1
        = Ret ((0, mark <$> r :: rest), p') /\
      agrees is_installed root p' (pre ++ (mark <$> r :: rest))) \/
     (exists a r' b k, r :: rest = a ++ r' :: b /\ r_mapped r' = MM_REGION_MARKED_FOR_MAPPING /\
      (apply_loop root 0 rest ≫= (fun '(err, rest) => mret (err, mark r :: rest))) p1
        = Ret ((- ENOMEM, (mark <$> a) ++ r' :: b), p') /\
      0 <= k < r_size r' / 4096 /\
      forall va, canon va -> pte_at phys_base root p' va =
        if decide (in_region r' va /\ va < start_va r' + k * 4096)
        then entry_of (fun _ => true) (region_at r' va)
        else entry_of is_installed (mm_at (pre ++ (mark <$> a) ++ r' :: b) va)))) as Hnext.
  { intros T1 p1 HT1 Hi1 Hag1.
    assert (pre ++ mark r :: rest = (pre ++ [mark r]) ++ rest) as Eapp by (by rewrite <- app_assoc).
    destruct (IH T1 root p1 (pre ++ [mark r])) as (T' & p' & HT' & Hi' & Hres);
      [done | rewrite <- Eapp; by apply map_ok_mark | done | by rewrite <- Eapp |].
    exists T', p'. split; [by etransitivity|]. split; [done|].
    destruct Hres as [[E Hag']|(a & r' & b & k & -> & Hm & E & Hk & Hp)]; [left | right].
    - rewrite (bind_run _ _ _ _ _ E). split; [done|]. cbn [fmap list_fmap].
      by rewrite <- app_assoc in Hag'.
    - exists (r :: a), r', b, k. rewrite (bind_run _ _ _ _ _ E).
      do 4 (split; [done|]). intros va Hc. rewrite (Hp va Hc). cbn [fmap list_fmap app]. by rewrite <- app_assoc. }
  destruct (decide (r_mapped r = MM_REGION_MARKED_FOR_MAPPING)) as [Hm|Hm].
  2:{ assert (mark r = r) as Emark by (unfold mark; by rewrite decide_False).
      rewrite Emark in Hnext. rewrite (bind_run _ _ _ _ _ eq_refl). cbn [Z.ltb Z.compare]. by apply (Hnext T p). }
  assert (region_ok r) as Hr by (apply map_ok_app in Hok as (_ & Hok & _); by apply map_ok_cons in Hok as (? & _)).
  destruct (map_region_run T root p r Hi Hr Hcr) as (T1 & p1 & HT1 & Hi1 & Hres).
  { intros va Hin. rewrite Hag by auto. rewrite mm_at_member by done. by apply marked_entry. }
  destruct Hres as [[E Hp]|(E & Hf & k & Hk & Hp)].
  - rewrite (bind_run _ _ _ _ _ E). cbn [Z.ltb Z.compare].
    replace (if type_flags (r_type r) =? 0 then r else set_mapped MM_REGION_PARTIAL_MAPPED r)
      with (mark r) by (unfold mark; by rewrite decide_True).
    apply (Hnext T1 p1); [done | done |]. intros va Hc. rewrite (Hp va Hc).
    case_decide as Hin.
    + rewrite mm_at_member by (by rewrite ?in_region_mark; try apply map_ok_mark).
      symmetry. by apply marked_entry.
    + rewrite (Hag va Hc). f_equal. apply mm_at_other; by rewrite ?in_region_mark.
  - rewrite (bind_run _ _ _ _ _ E). exists T1, p1. split; [done|]. split; [done|]. right.
    exists [], r, rest, k. do 4 (split; [done|]). intros va Hc. rewrite (Hp va Hc). by rewrite (Hag va Hc).
Qed.
End PageTable.

(** ** The invariant of a page table *)

Section Invariant.
Context {P : Type} `{!PageAllocator P} (phys_base ram_size : Z) `{!DirectMap phys_base ram_size}.

(** The kernel addresses of the pages that a map frees. *)
Definition map_owned (l : list MM_Region) (x : Z) : Prop :=
  exists va pa ty st, mm_at l va = Some (pa, ty, st, true) /\ phys_to_virt phys_base pa = x.

Definition in_phys_ram (pa : Z) : Prop := phys_base <= pa < phys_base + ram_size.

Lemma phys_to_virt_value pa :
  in_phys_ram pa -> phys_to_virt phys_base pa = pa - phys_base + PAGE_OFFSET /\
  in_ram ram_size (phys_to_virt phys_base pa).
Proof.
  unfold in_phys_ram, phys_to_virt, in_ram. intros H.
  pose proof (dm_virt (DirectMap := _)) as Hv. assert (0 < PAGE_OFFSET) by done.
  rewrite uwrap_id by (unfold is_u; lia). lia.
Qed.

Lemma vm_inv_sub owned data owned' T root p :
  vm_inv phys_base ram_size owned data T root p -> (forall x, owned' x -> owned x) ->
  vm_inv phys_base ram_size owned' (fun x => pg_words p !! x) T root p.
Proof.
  intros [H1 H2 H3 H4 H5 H6] Hsub. split; auto. intros x Hx.
  destruct (H6 x (Hsub x Hx)) as (A & _ & C). auto.
Qed.

(** Pages in use become free. *)
Lemma vm_inv_freed owned data owned' T root p p' (freed_at : Z -> Prop) :
  vm_inv phys_base ram_size owned data T root p ->
  pg_inv p' -> pg_words p' = pg_words p -> (forall x, pg_free_at p' x <-> pg_free_at p x \/ freed_at x) ->
  (forall x, freed_at x -> owned x /\ in_ram ram_size x) ->
  (forall x, owned' x -> owned x /\ ~ freed_at x) ->
  vm_inv phys_base ram_size owned' (fun x => pg_words p' !! x) T root p'.
Proof.
  intros [H1 H2 H3 H4 H5 H6] I W F Hrange Hsub. split; [done | | done | | |].
  - intros x Hx. apply F in Hx as [Hx|Hx]; [auto | by apply Hrange].
  - intros t q Ht. destruct (H4 t q Ht) as (A & B & C & D). split; [done|]. split; [done|].
    rewrite W. split; [|done]. intros x Hx Hfx. apply F in Hfx as [Hfx|Hfx]; [by apply (C x)|].
    by apply (proj2 (proj2 (H6 x (proj1 (Hrange x Hfx)))) t q Ht).
  - rewrite W. done.
  - intros x Hx. destruct (Hsub x Hx) as [Ho Hn']. destruct (H6 x Ho) as (A & _ & C).
    split; [|done]. intros Hfx. apply F in Hfx as [|]; tauto.
Qed.

Lemma vm_inv_free owned data owned' T root p a n :
  vm_inv phys_base ram_size owned data T root p -> 0 < a -> (PAGE_SIZE | a) -> 0 <= n ->
  (forall x, a <= x < a + n * PAGE_SIZE -> owned x /\ in_ram ram_size x) ->
  (forall x, owned' x -> owned x /\ ~ a <= x < a + n * PAGE_SIZE) ->
  let p' := pg_free_range a n p in
  vm_inv phys_base ram_size owned' (fun x => pg_words p' !! x) T root p' /\
  pg_words p' = pg_words p /\
  forall x, pg_free_at p' x <-> pg_free_at p x \/ a <= x < a + n * PAGE_SIZE.
Proof.
  intros Hi Ha Hal Hn Hrange Hsub p'.
  destruct (pg_free_range_spec a n p (vi_pg _ _ _ _ _ _ _ Hi) Ha Hal Hn) as (I & W & F).
  { intros x Hx. by apply (vi_owned _ _ _ _ _ _ _ Hi), Hrange. }
  split; [|done]. by apply (vm_inv_freed owned data owned' T root p p' (fun x => a <= x < a + n * PAGE_SIZE)).
Qed.

(** The translation depends on the tables alone. *)
Lemma pte_from_tables owned data T root p w level : forall t q va,
  vm_inv phys_base ram_size owned data T root p ->
  (forall t q i, T !! t = Some q -> 0 <= i < 512 -> w !! entry_addr t i = pg_words p !! entry_addr t i) ->
  T !! t = Some q -> (length q + level)%nat = 2%nat ->
  pte_from phys_base level w t va = pte_from phys_base level (pg_words p) t va.
Proof.
  induction level as [|l IH]; intros t q va Hi Hw Ht Hl; cbn [pte_from].
  - by rewrite (Hw t q _ Ht (index_range _ _)).
  - rewrite (Hw t q _ Ht (index_range _ _)).
    destruct (vi_entry_value phys_base ram_size owned data T root p t q (PAGE_TABLE_INDEX (S l) va) Hi Ht (index_range _ _))
      as [v Hv]. rewrite Hv. cbn [default from_option id]. destruct (PTE_IS_VALID_NODE v) eqn:Ev; [|done].
    destruct (vi_entry _ _ _ _ _ _ _ Hi t q _ v Ht ltac:(lia) (index_range _ _) Hv Ev) as [_ Hc].
    apply (IH _ (q ++ [PAGE_TABLE_INDEX (S l) va])); try done. rewrite length_app. simpl. lia.
Qed.

(** Allocating a page for other use. *)
Lemma vm_inv_alloc owned data owned' T root p flags a p1 :
  vm_inv phys_base ram_size owned data T root p -> pg_alloc flags p = (a, p1) -> a <> NULL ->
  (forall x, owned' x -> owned x \/ in_page a x) ->
  vm_inv phys_base ram_size owned' (fun x => pg_words p1 !! x) T root p1 /\
  (PAGE_SIZE | a) /\ in_ram ram_size a /\ in_ram ram_size (a + 4095) /\
  (forall x, in_page a x -> pg_free_at p x) /\
  (forall x, pg_free_at p1 x <-> pg_free_at p x /\ ~ in_page a x) /\
  (forall x, ~ in_page a x -> pg_words p1 !! x = pg_words p !! x) /\
  forall va, pte_at phys_base root p1 va = pte_at phys_base root p va.
Proof.
  intros Hi Ea Ha Hsub. pose proof (pg_alloc_spec flags p (vi_pg _ _ _ _ _ _ _ Hi)) as H. rewrite Ea in H.
  destruct H as [I H]. rewrite (proj2 (Z.eqb_neq _ _) Ha) in H. destruct H as (Hpos & Hal & Hfree & Hf1 & Hw).
  pose proof Hi as [H1 H2 H3 H4 H5 H6].
  assert (forall t q i, T !! t = Some q -> 0 <= i < 512 ->
    pg_words p1 !! entry_addr t i = pg_words p !! entry_addr t i) as Htab.
  { intros t q i Ht Hr. apply Hw. intros Hin. destruct (H4 t q Ht) as (_ & _ & C & _).
    apply (C (entry_addr t i)); [by apply entry_in_page | auto]. }
  split.
  - split; [done | | done | | |].
    + intros x Hx. apply Hf1 in Hx as [Hx _]. auto.
    + intros t q Ht. destruct (H4 t q Ht) as (A & B & C & D). split; [done|]. split; [done|]. split.
      * intros x Hx [Hfx _]%Hf1. by apply (C x).
      * intros i Hr. rewrite (Htab t q i Ht Hr). auto.
    + intros t q i v Ht Hq Hr. rewrite (Htab t q i Ht Hr). eauto.
    + intros x Hx. destruct (Hsub x Hx) as [Ho|Hin].
      * destruct (H6 x Ho) as (A & _ & C). split; [|done]. rewrite Hf1. tauto.
      * split; [rewrite Hf1; tauto|]. split; [done|]. intros t q Ht Hx'.
        destruct (H4 t q Ht) as (_ & _ & C & _). by apply (C x), Hfree.
  - split_and!; try done.
    + apply H2, Hfree. unfold in_page. change PAGE_SIZE with 4096. lia.
    + apply H2, Hfree. unfold in_page. change PAGE_SIZE with 4096. lia.
    + intros va. unfold pte_at. by apply (pte_from_tables owned data T root p _ 2 root []).
Qed.
(** Addresses that may have an entry that the map does not know; none, but after a
    failure. *)
Context (stale : Z -> Prop).

(** The tables agree with the map, and the map owns the pages it frees: they are
    in RAM, not free, and no two addresses share one. *)
Record pt_pre (T : gmap Z (list Z)) (root : Z) (l : list MM_Region) (p : P) : Prop := mk_pt_pre {
  pp_vm : vm_inv phys_base ram_size (map_owned l) (fun x => pg_words p !! x) T root p;
  pp_ok : map_ok l;
  pp_canon : forall va b, mm_at l va = Some b -> canon va;
  pp_agrees : forall va, canon va -> ~ stale va ->
    pte_at phys_base root p va = entry_of is_mapped (mm_at l va);
  pp_ram : forall va pa ty st, mm_at l va = Some (pa, ty, st, true) -> in_phys_ram pa;
  pp_inj : forall va va' pa ty ty' st st', mm_at l va = Some (pa, ty, st, true) ->
    mm_at l va' = Some (pa, ty', st', true) -> va = va'
}.

(** The pages of a region that is freed with its map. *)
Definition region_owned (r : MM_Region) (x : Z) : Prop :=
  free_on_unmap r = true /\
  phys_to_virt phys_base (start_pa r) <= x < phys_to_virt phys_base (start_pa r) + r_size r.

Lemma mm_at_app_inv l1 l2 va b :
  map_ok (l1 ++ l2) -> mm_at (l1 ++ l2) va = Some b <-> mm_at l1 va = Some b \/ mm_at l2 va = Some b.
Proof using. clear stale.
  rewrite map_ok_app. intros (_ & _ & Hb). rewrite mm_at_app.
  assert (mm_at l1 va = None \/ mm_at l2 va = None) as [-> | ->];
    [|rewrite option_union_None_l; naive_solver | rewrite option_union_None_r; naive_solver].
  destruct (decide (Exists (fun r => in_region r va) l1)) as [He|He].
  - right. apply mm_at_none. apply Exists_exists in He as (r & Hr & Hin).
    rewrite Forall_forall in Hb. pose proof (Hb r Hr) as Hr'. eapply Forall_impl; [exact Hr'|].
    intros q Hq Hqi. unfold before, in_region in *. lia.
  - left. apply mm_at_none. by apply not_Exists_Forall in He; [|apply _].
Qed.

Lemma mm_at_drop pre r post va b :
  map_ok (pre ++ r :: post) ->
  mm_at (pre ++ r :: post) va = Some b <-> mm_at (pre ++ post) va = Some b \/ region_at r va = Some b.
Proof using. clear stale.
  intros Hok. rewrite mm_at_app_inv by done. rewrite mm_at_app_inv.
  - pose proof Hok as (_ & Hok' & _)%map_ok_app.
    pose proof (mm_at_app_inv [r] post va b Hok') as H. cbn [app mm_at] in H |- *.
    rewrite option_union_None_r in H. naive_solver.
  - rewrite map_ok_app, map_ok_cons in *. destruct Hok as (? & (? & ? & ?) & H3). split_and!; try done.
    eapply Forall_impl; [exact H3|]. intros q Hq. by inversion Hq.
Qed.

Lemma map_ok_drop pre r post : map_ok (pre ++ r :: post) -> map_ok (pre ++ post) /\ region_ok r.
Proof using.
  rewrite !map_ok_app, map_ok_cons. intros (H1 & (H2 & _ & H4) & H3). split_and!; try done.
  eapply Forall_impl; [exact H3|]. intros q Hq. by inversion Hq.
Qed.

(** The pages of an owned region are consecutive. *)
Lemma region_linear T root pre r post p va :
  pt_pre T root (pre ++ r :: post) p -> free_on_unmap r = true -> in_region r va ->
  mm_at (pre ++ r :: post) va = Some (start_pa r + (va - start_va r), r_type r, r_mapped r, true) /\
  in_phys_ram (start_pa r + (va - start_va r)) /\ in_phys_ram (start_pa r) /\
  phys_to_virt phys_base (start_pa r + (va - start_va r)) =
    phys_to_virt phys_base (start_pa r) + (va - start_va r).
Proof.
  intros [_ Hok _ _ Hram _] Hfree Hin. pose proof (map_ok_drop _ _ _ Hok) as [_ []].
  assert (forall v, in_region r v -> mm_at (pre ++ r :: post) v =
    Some (start_pa r + (v - start_va r), r_type r, r_mapped r, true)) as Hat.
  { intros v Hv. rewrite mm_at_member by done. unfold region_at. by rewrite decide_True, Hfree. }
  assert (in_region r (start_va r)) as Hfirst by (unfold in_region, region_end; lia).
  pose proof (Hram _ _ _ _ (Hat va Hin)) as Hv. pose proof (Hram _ _ _ _ (Hat _ Hfirst)) as H0.
  rewrite Z.sub_diag, Z.add_0_r in H0. split; [by apply Hat|]. split; [done|]. split; [done|].
  destruct (phys_to_virt_value _ Hv) as [-> _], (phys_to_virt_value _ H0) as [-> _]. lia.
Qed.

(** The addresses of a region of a map, and of its pages. *)
Lemma region_owned_spec T root pre r post p :
  pt_pre T root (pre ++ r :: post) p -> free_on_unmap r = true ->
  let a := phys_to_virt phys_base (start_pa r) in
  0 < a /\ (PAGE_SIZE | a) /\
  (forall x, region_owned r x -> map_owned (pre ++ r :: post) x /\ in_ram ram_size x /\ ~ map_owned (pre ++ post) x) /\
  (forall x, map_owned (pre ++ r :: post) x -> map_owned (pre ++ post) x \/ region_owned r x).
Proof.
  intros Hpre Hfree a. pose proof Hpre as [Hvm Hok Hcan Hag Hram Hinj].
  pose proof (map_ok_drop _ _ _ Hok) as [_ Hr]. pose proof Hr as [Hpa Hva Hsz Hpos Hvr Hpr _].
  pose proof (fun va => region_linear T root pre r post p va Hpre Hfree) as Hlin. fold a in Hlin.
  destruct (Hlin (start_va r)) as (_ & _ & Hf & _); [unfold in_region, region_end; lia|].
  pose proof (phys_to_virt_value _ Hf) as [Ea Hin_a]. fold a in Ea, Hin_a.
  assert (0 < PAGE_OFFSET) by done. pose proof (dm_aligned (DirectMap := _)) as Hdm.
  split; [unfold in_ram in Hin_a; lia|]. split.
  { rewrite Ea. apply Z.divide_add_r; [apply Z.divide_sub_r; done | by exists (PAGE_OFFSET / 4096)]. }
  split.
  - intros x [_ Hx]. fold a in Hx. set (va := start_va r + (x - a)).
    assert (in_region r va) as Hin by (unfold in_region, region_end; lia).
    destruct (Hlin va Hin) as (Hat & Hph & _ & Hl). replace (a + (va - start_va r)) with x in Hl by lia.
    split; [by eexists va, _, _, _; split; [exact Hat|]|].
    split; [rewrite <- Hl; by apply phys_to_virt_value|].
    intros (va' & pa' & ty' & st' & Hat' & Hx').
    assert (mm_at (pre ++ r :: post) va' = Some (pa', ty', st', true)) as Hat2
      by (apply mm_at_drop; [done | by left]).
    assert (pa' = start_pa r + (va - start_va r)) as ->.
    { pose proof (phys_to_virt_value _ (Hram _ _ _ _ Hat2)) as [E1 _].
      pose proof (phys_to_virt_value _ Hph) as [E2 _]. lia. }
    pose proof (Hinj _ _ _ _ _ _ _ Hat2 Hat) as ->.
    apply mm_at_app_inv in Hat'; [|by apply map_ok_drop in Hok as [? _]].
    apply map_ok_app in Hok as (_ & (_ & Hok2 & _)%map_ok_cons & Hok3).
    destruct Hat' as [Hat'|Hat']; rewrite mm_at_none in Hat'; try done.
    + eapply Forall_impl; [exact Hok3|]. intros q Hq Hqi. inversion_clear Hq.
      unfold before, in_region in *. lia.
    + eapply Forall_impl; [exact Hok2|]. intros q Hq Hqi. unfold before, in_region in *. lia.
  - intros x (va & pa & ty & st & Hva' & <-). apply mm_at_drop in Hva' as [Hva'|Hva']; [|right|done].
    + left. by exists va, pa, ty, st.
    + unfold region_at in Hva'. case_decide as Hin; [|done]. injection Hva' as <- <- <- _.
      destruct (Hlin va Hin) as (_ & _ & _ & ->). split; [done|]. fold a.
      unfold in_region, region_end in Hin. lia.
Qed.
Lemma map_owned_drop pre r post x :
  map_ok (pre ++ r :: post) -> map_owned (pre ++ post) x -> map_owned (pre ++ r :: post) x.
Proof.
  intros Hok (va & pa & ty & st & H & E). exists va, pa, ty, st. split; [|done].
  apply mm_at_drop; [done | by left].
Qed.

(** Everything but the tables of a map without one of its regions. *)
Lemma pt_pre_drop T root pre r post p p' :
  pt_pre T root (pre ++ r :: post) p -> r_mapped r <> MM_REGION_MAPPED ->
  vm_inv phys_base ram_size (map_owned (pre ++ post)) (fun x => pg_words p' !! x) T root p' ->
  pg_words p' = pg_words p -> pt_pre T root (pre ++ post) p'.
Proof.
  intros [Hvm Hok Hcan Hag Hram Hinj] Hm Hvm' Hw.
  assert (forall va b, mm_at (pre ++ post) va = Some b -> mm_at (pre ++ r :: post) va = Some b) as Hsub
    by (intros va b H; apply mm_at_drop; [done | by left]).
  split; [done | by apply map_ok_drop in Hok as [? _] | eauto | | eauto | eauto].
  intros va Hc Hs. unfold pte_at. rewrite Hw. fold (pte_at phys_base root p va). rewrite (Hag va Hc Hs).
  destruct (decide (in_region r va)) as [Hin|Hin].
  - rewrite mm_at_member by done. unfold region_at. rewrite decide_True by done. cbn [entry_of].
    unfold is_mapped. rewrite bool_decide_false by done. cbn [andb].
    destruct (mm_at (pre ++ post) va) as [b|] eqn:E; [|done]. pose proof (Hsub va b E) as E2.
    rewrite mm_at_member in E2 by done. unfold region_at in E2. rewrite decide_True in E2 by done.
    injection E2 as <-. cbn [entry_of]. rewrite bool_decide_false by done. done.
  - f_equal. rewrite !mm_at_app. cbn [mm_at]. unfold region_at. by rewrite decide_False, option_union_None_l.
Qed.

Lemma drop_region T root pre r post p :
  pt_pre T root (pre ++ r :: post) p -> r_mapped r <> MM_REGION_MAPPED ->
  exists p', run_frees phys_base (mm_region_remove r) p = Ret (tt, p') /\
    pt_pre T root (pre ++ post) p' /\ pg_words p' = pg_words p /\
    forall x, pg_free_at p' x <-> pg_free_at p x \/ region_owned r x.
Proof.
  intros Hpre Hm. pose proof Hpre as [Hvm Hok _ _ _ _]. unfold mm_region_remove.
  destruct (free_on_unmap r) eqn:Hfree.
  - destruct (region_owned_spec T root pre r post p Hpre Hfree) as (Ha & Hal & Hown & Hcov).
    pose proof (map_ok_drop _ _ _ Hok) as [_ [_ _ Hsz Hpos _ _ _]].
    assert (forall x, region_owned r x <->
      phys_to_virt phys_base (start_pa r) <= x < phys_to_virt phys_base (start_pa r) + r_size r / PAGE_SIZE * PAGE_SIZE)
      as Hrange by (intros x; rewrite div_mul_page by done; unfold region_owned; tauto).
    destruct (vm_inv_free _ _ (map_owned (pre ++ post)) T root p _ (r_size r / PAGE_SIZE) Hvm Ha Hal)
      as (Hvm' & Hw & Hf).
    { apply Z.div_pos; [lia | done]. }
    { intros x Hx%Hrange. destruct (Hown x Hx) as (? & ? & _). auto. }
    { intros x Hx. split; [by apply map_owned_drop|]. intros Hr%Hrange. by apply (Hown x Hr). }
    eexists. split; [done|]. split; [by eapply pt_pre_drop|]. split; [done|].
    intros x. by rewrite Hf, Hrange.
  - exists p. split; [done|]. split.
    + eapply pt_pre_drop; [done | done | | done].
      eapply vm_inv_sub; [exact Hvm|]. intros x. by apply map_owned_drop.
    + split; [done|]. intros x. unfold region_owned. rewrite Hfree. naive_solver.
Qed.

Definition unmarked (l : list MM_Region) : list MM_Region :=
  filter (fun r => r_mapped r <> MM_REGION_MARKED_FOR_MAPPING) l.

(** Dropping the marked regions frees exactly their pages. *)
Lemma unmap_partial_run T root rest : forall pre p,
  pt_pre T root (pre ++ rest) p -> Forall (fun r => r_mapped r <> MM_REGION_PARTIAL_MAPPED) rest ->
  exists p', page_table_unmap_partial_mappings phys_base root rest p = Ret (unmarked rest, p') /\
    pt_pre T root (pre ++ unmarked rest) p' /\ pg_words p' = pg_words p /\
    forall x, pg_free_at p' x <-> pg_free_at p x \/
      Exists (fun r => r_mapped r = MM_REGION_MARKED_FOR_MAPPING /\ region_owned r x) rest.
Proof.
  induction rest as [|r rest IH]; intros pre p Hpre Hst.
  { exists p. split; [done|]. split; [done|]. split; [done|]. intros x. rewrite Exists_nil. tauto. }
  apply Forall_cons in Hst as [Hr Hst]. cbn [page_table_unmap_partial_mappings].
  rewrite decide_False by done. unfold unmarked. rewrite filter_cons. fold (unmarked rest).
  setoid_rewrite Exists_cons.
  destruct (decide (r_mapped r = MM_REGION_MARKED_FOR_MAPPING)) as [Hm|Hm].
  - rewrite decide_False by tauto.
    destruct (drop_region T root pre r rest p Hpre) as (p1 & E & Hpre1 & Hw & Hf); [by rewrite Hm|].
    rewrite (bind_run _ _ _ _ _ E). destruct (IH pre p1 Hpre1 Hst) as (p' & E' & Hpre' & Hw' & Hf').
    exists p'. split; [done|]. split; [done|]. split; [by rewrite Hw'|].
    intros x. rewrite Hf', Hf. tauto.
  - rewrite decide_True by done.
    destruct (IH (pre ++ [r]) p) as (p' & E' & Hpre' & Hw' & Hf'); [by rewrite <- app_assoc | done |].
    rewrite <- app_assoc in Hpre'. rewrite (bind_run _ _ _ _ _ E'). exists p'.
    split; [done|]. split; [done|]. split; [done|]. intros x. rewrite Hf'. tauto.
Qed.
(** The pages of the marked regions. *)
Definition marked_owned (l : list MM_Region) (x : Z) : Prop :=
  exists va pa ty, mm_at l va = Some (pa, ty, MM_REGION_MARKED_FOR_MAPPING, true) /\
    phys_to_virt phys_base pa = x.

Lemma mm_at_region l va b :
  mm_at l va = Some b -> exists pre r post, l = pre ++ r :: post /\ region_at r va = Some b.
Proof using.
  induction l as [|r l IH]; [done|]. cbn [mm_at]. destruct (region_at r va) as [b'|] eqn:E.
  - intros H. assert (b' = b) as -> by (destruct (mm_at l va); by injection H). by exists [], r, l.
  - rewrite option_union_None_l. intros (pre & r' & post & -> & H)%IH. by exists (r :: pre), r', post.
Qed.

Lemma marked_owned_regions T root l p x :
  pt_pre T root l p ->
  Exists (fun r => r_mapped r = MM_REGION_MARKED_FOR_MAPPING /\ region_owned r x) l <-> marked_owned l x.
Proof.
  intros Hpre. split.
  - intros (r & Hr & Hm & [Hfree Hx])%Exists_exists. apply list_elem_of_split in Hr as (pre & post & ->).
    set (va := start_va r + (x - phys_to_virt phys_base (start_pa r))).
    destruct (region_linear T root pre r post p va Hpre Hfree) as (Hat & _ & _ & E);
      [unfold in_region, region_end; lia|]. rewrite Hm in Hat.
    eexists va, _, _. split; [exact Hat|]. lia.
  - intros (va & pa & ty & Hat & Hx). apply mm_at_region in Hat as (pre & r & post & -> & Hat).
    unfold region_at in Hat. case_decide as Hin; [|done]. injection Hat as <- <- Hm Hfree.
    apply Exists_exists. exists r. split; [apply elem_of_app; right; by left|]. split; [done|].
    destruct (region_linear T root pre r post p va Hpre Hfree Hin) as (_ & _ & _ & E).
    split; [done|]. unfold in_region, region_end in Hin. lia.
Qed.
(** ** Adding a page to a map *)

Lemma unbacked_disjoint l r :
  map_ok l -> region_ok r -> (forall va, in_region r va -> mm_at l va = None) ->
  Forall (regions_disjoint r) l.
Proof using.
  intros Hok Hr Hno. apply Forall_forall. intros q Hq.
  apply list_elem_of_split in Hq as (pre & post & ->). pose proof (map_ok_drop _ _ _ Hok) as [_ Hqok].
  unfold regions_disjoint, before.
  destruct (decide (region_end r <= start_va q)); [by left|].
  destruct (decide (region_end q <= start_va r)); [by right|]. exfalso.
  set (va := Z.max (start_va r) (start_va q)). destruct Hr, Hqok.
  assert (in_region r va) as H1 by (unfold in_region, region_end in *; lia).
  assert (in_region q va) as H2 by (unfold in_region, region_end in *; lia).
  pose proof (Hno va H1) as H. rewrite mm_at_member in H by done. unfold region_at in H.
  by rewrite decide_True in H.
Qed.

Lemma unmarked_add r l :
  r_mapped r = MM_REGION_MARKED_FOR_MAPPING -> unmarked (add_single r l) = unmarked l.
Proof using.
  intros Hm. unfold unmarked. induction l as [|q l IH]; cbn [add_single].
  - rewrite filter_cons, decide_False; [done|]. by intros [].
  - destruct (mm_regions_can_be_merged q r) eqn:Emerge.
    + assert (r_mapped q = r_mapped r) as E.
      { unfold mm_regions_can_be_merged in Emerge.
        destruct (bool_decide (r_mapped q = r_mapped r)) eqn:E; [by apply bool_decide_eq_true in E|].
        destruct (negb (bool_decide (r_type q = r_type r))), (bool_decide (r_type q = MM_REGION_MMIO)); done. }
      rewrite !filter_cons, !decide_False; [done| |]; cbn [mm_regions_merge r_mapped]; rewrite E; by intros [].
    + destruct (mm_region_fits_before r q).
      * rewrite filter_cons, decide_False; [done|]. by intros [].
      * rewrite !filter_cons, IH. done.
Qed.

Lemma add_single_states (Q : MM_Region_Mapped -> Prop) r l :
  Q (r_mapped r) -> Forall (fun q => Q (r_mapped q)) l -> Forall (fun q => Q (r_mapped q)) (add_single r l).
Proof using.
  intros Hr. induction 1 as [|q l Hq Hl IH]; cbn [add_single]; [by repeat constructor|].
  destruct (mm_regions_can_be_merged q r); [by constructor|].
  destruct (mm_region_fits_before r q); by repeat constructor.
Qed.

Definition frees_pages (ty : MM_Region_Type) : Prop := free_pages_attr (g_region_attributes ty) = true.

Definition page_region (a va : Z) (ty : MM_Region_Type) : MM_Region :=
  mk_region (virt_to_phys phys_base a) va PAGE_SIZE ty MM_REGION_MARKED_FOR_MAPPING true.

Lemma page_region_at T root l p a p1 va ty x :
  pt_pre T root l p -> pg_alloc ALLOC_FLAG_ZERO_MEMORY p = (a, p1) -> a <> NULL ->
  region_at (page_region a va ty) x =
  (if decide (va <= x < va + 4096)
   then Some (virt_to_phys phys_base a + (x - va), ty, MM_REGION_MARKED_FOR_MAPPING, true) else None) /\
  (va <= x < va + 4096 -> in_phys_ram (virt_to_phys phys_base a + (x - va)) /\
     phys_to_virt phys_base (virt_to_phys phys_base a + (x - va)) = a + (x - va)).
Proof.
  intros Hpre Ea Ha. split; [done|]. intros Hx.
  destruct (vm_inv_alloc _ _ (fun _ => False) T root p _ a p1 (pp_vm _ _ _ _ Hpre) Ea Ha)
    as (_ & Hal & Hr1 & Hr2 & _); [tauto|].
  pose proof (dm_phys (DirectMap := _)). pose proof (dm_virt (DirectMap := _)).
  assert (0 < PAGE_OFFSET) by done. unfold in_ram in *.
  assert (virt_to_phys phys_base a = a - PAGE_OFFSET + phys_base) as Ev.
  { unfold virt_to_phys. apply uwrap_id. unfold is_u. lia. }
  assert (in_phys_ram (virt_to_phys phys_base a + (x - va))) as Hph by (unfold in_phys_ram; lia).
  split; [done|]. destruct (phys_to_virt_value _ Hph) as [-> _]. lia.
Qed.

Lemma region_init_page a va ty :
  frees_pages ty -> (PAGE_SIZE | virt_to_phys phys_base a) -> (PAGE_SIZE | va) ->
  mm_region_alloc_init false (virt_to_phys phys_base a) va PAGE_SIZE ty = Ret (Some (page_region a va ty)).
Proof.
  intros Hty Hpa Hva. unfold mm_region_alloc_init, mm_region_init. cbn [start_pa start_va r_size].
  rewrite !aligned_true by (done || by exists 1). unfold frees_pages in Hty. rewrite Hty.
  rewrite decide_False; [done|]. intros [-> | ->]; done.
Qed.

(** A new page in a map, with its backing. *)
Lemma add_page T root l p a p1 va ty :
  pt_pre T root l p -> pg_alloc ALLOC_FLAG_ZERO_MEMORY p = (a, p1) -> a <> NULL ->
  frees_pages ty -> (PAGE_SIZE | va) -> 0 <= va -> va + 4096 <= 2 ^ 38 ->
  (forall x, va <= x < va + 4096 -> mm_at l x = None) ->
  let r := page_region a va ty in
  mm_region_alloc_init false (virt_to_phys phys_base a) va PAGE_SIZE ty = Ret (Some r) /\
  memory_map_add_single_region r l = Ret (add_single r l) /\
  pt_pre T root (add_single r l) p1 /\
  forall x, mm_at (add_single r l) x = region_at r x ∪ mm_at l x.
Proof.
  intros Hpre Ea Ha Hty Hva H0 Htop Hno r. pose proof Hpre as [Hvm Hok Hcan Hag Hram Hinj].
  destruct (vm_inv_alloc _ _ (fun _ => False) T root p _ a p1 Hvm Ea Ha)
    as (_ & Hal & Hr1 & Hr2 & Hfree & _); [tauto|].
  destruct (virt_to_phys_ram phys_base ram_size a Hr1 Hal) as (Hpr & Hpal & Hback).
  assert (region_ok r) as Hr.
  { split; cbn [r page_region start_pa start_va r_size r_type free_on_unmap]; try done;
      change PAGE_SIZE with 4096 in *; first [by exists 1 | lia]. }
  assert (forall x, in_region r x <-> va <= x < va + 4096) as Hin by done.
  destruct (add_single_spec r l Hr Hok) as [Hok' Hat'].
  { apply unbacked_disjoint; [done | done |]. intros x Hx. by apply Hno, Hin. }
  pose proof (fun x => page_region_at T root l p a p1 va ty x Hpre Ea Ha) as Hreg. fold r in Hreg.
  assert (forall x b, mm_at (add_single r l) x = Some b ->
    mm_at l x = Some b \/ va <= x < va + 4096 /\
      b = (virt_to_phys phys_base a + (x - va), ty, MM_REGION_MARKED_FOR_MAPPING, true)) as Hnew.
  { intros x b. rewrite Hat'. destruct (Hreg x) as [-> _]. case_decide as Hx.
    - rewrite Hno by done. intros [= <-]. by right.
    - rewrite option_union_None_l. auto. }
  assert (forall x, map_owned (add_single r l) x -> map_owned l x \/ in_page a x) as Hsub.
  { intros x (v & pa & ty' & st & Hv & Hx). destruct (Hnew v _ Hv) as [Hv'|[Hv' [= -> -> ->]]].
    - left. by exists v, pa, ty', st.
    - right. destruct (Hreg v) as [_ Hl]. destruct (Hl Hv') as [_ E]. unfold in_page.
      change PAGE_SIZE with 4096. lia. }
  destruct (vm_inv_alloc _ _ (map_owned (add_single r l)) T root p _ a p1 Hvm Ea Ha Hsub)
    as (Hvm1 & _ & _ & _ & _ & Hf1 & Hw & Hpte).
  split; [by apply region_init_page|].
  split; [unfold memory_map_add_single_region; by rewrite region_checks_ok|]. split; [|done].
  (* a page of the map is not the new page *)
  assert (forall v w pa ty1 st1, mm_at l v = Some (pa, ty1, st1, true) -> va <= w < va + 4096 ->
    pa <> virt_to_phys phys_base a + (w - va)) as Hfresh.
  { intros v w pa ty1 st1 Hv Hwr ->. destruct (Hreg w) as [_ Hl]. destruct (Hl Hwr) as [_ E].
    destruct (vi_owned _ _ _ _ _ _ _ Hvm (a + (w - va))) as [Hnf _]; [by eexists v, _, _, _|].
    apply Hnf, Hfree. unfold in_page. change PAGE_SIZE with 4096. lia. }
  split; [done | done | | | |].
  - intros x b Hx. destruct (Hnew x b Hx) as [|[? _]]; [eauto | apply low_canon; lia].
  - intros x Hc Hs. rewrite Hpte, (Hag x Hc Hs), Hat'. destruct (Hreg x) as [-> _]. case_decide as Hx.
    + by rewrite Hno.
    + by rewrite option_union_None_l.
  - intros x pa ty' st Hx. destruct (Hnew x _ Hx) as [|[Hx' [= -> -> ->]]]; [eauto|]. by apply Hreg.
  - intros x y pa ty1 ty2 st1 st2 Hx Hy.
    destruct (Hnew x _ Hx) as [Hx1|[Hx1 [= E1 _ _]]], (Hnew y _ Hy) as [Hy1|[Hy1 [= E2 _ _]]].
    + eauto.
    + by destruct (Hfresh _ _ _ _ _ Hx1 Hy1).
    + by destruct (Hfresh _ _ _ _ _ Hy1 Hx1).
    + lia.
Qed.
Lemma marked_add T root l p a p1 va ty x :
  pt_pre T root l p -> pg_alloc ALLOC_FLAG_ZERO_MEMORY p = (a, p1) -> a <> NULL ->
  (forall y, va <= y < va + 4096 -> mm_at l y = None) ->
  (forall y, mm_at (add_single (page_region a va ty) l) y = region_at (page_region a va ty) y ∪ mm_at l y) ->
  marked_owned (add_single (page_region a va ty) l) x <-> in_page a x \/ marked_owned l x.
Proof.
  intros Hpre Ea Ha Hno Hat. pose proof (fun y => page_region_at T root l p a p1 va ty y Hpre Ea Ha) as Hreg.
  unfold in_page. change PAGE_SIZE with 4096. split.
  - intros (y & pa & ty' & Hy & <-). rewrite Hat in Hy. destruct (Hreg y) as [E Hl]. rewrite E in Hy.
    case_decide as Hin.
    + rewrite Hno in Hy by done. injection Hy as <- <-. destruct (Hl Hin) as [_ ->]. left. lia.
    + rewrite option_union_None_l in Hy. right. by exists y, pa, ty'.
  - intros [Hx|(y & pa & ty' & Hy & <-)].
    + destruct (Hreg (va + (x - a))) as [E Hl].
      eexists (va + (x - a)), _, _. rewrite Hat, E, decide_True, Hno by lia. split; [done|].
      destruct Hl as [_ ->]; lia.
    + exists y, pa, ty'. split; [|done]. rewrite Hat. destruct (Hreg y) as [-> _]. case_decide as Hin.
      * by rewrite Hno in Hy.
      * by rewrite option_union_None_l.
Qed.

(** A page that was allocated and is given back. *)
Lemma release_page T root l p a p1 :
  pt_pre T root l p -> pg_alloc ALLOC_FLAG_ZERO_MEMORY p = (a, p1) -> a <> NULL ->
  exists p2, release a p1 = Ret (tt, p2) /\ pt_pre T root l p2 /\
    (forall x, pg_free_at p2 x <-> pg_free_at p x) /\
    (forall x, ~ pg_free_at p x -> pg_words p2 !! x = pg_words p !! x).
Proof.
  intros [Hvm Hok Hcan Hag Hram Hinj] Ea Ha.
  destruct (vm_inv_alloc _ _ (fun x => map_owned l x \/ in_page a x) T root p _ a p1 Hvm Ea Ha)
    as (Hvm1 & Hal & Hr1 & Hr2 & Hfree & Hf1 & Hw & Hpte); [tauto|].
  assert (0 < a) as Hpos by (unfold in_ram in Hr1; assert (0 < PAGE_OFFSET) by done; lia).
  destruct (pg_free_spec a p1 (vi_pg _ _ _ _ _ _ _ Hvm1) Hpos Hal) as (p2 & E & I & W & F).
  { intros x Hx. rewrite Hf1. tauto. }
  exists p2. split; [unfold release; rewrite (bind_run _ _ _ _ _ eq_refl); unfold lift, mbind, ST_bind; by rewrite E|].
  assert (forall x, pg_free_at p2 x <-> pg_free_at p x) as F2.
  { intros x. rewrite F, Hf1. assert (in_page a x \/ ~ in_page a x) by (unfold in_page; lia). naive_solver. }
  split; [|split; [done|]].
  - split; [|done|done| |done|done].
    + eapply (vm_inv_freed _ _ (map_owned l) T root p1 p2 (in_page a) Hvm1 I W F).
      * intros x Hx. split; [by right|]. by apply (vi_free _ _ _ _ _ _ _ Hvm), Hfree.
      * intros x Hx. split; [by left|]. intros Hin. by apply (vi_owned _ _ _ _ _ _ _ Hvm x Hx), Hfree.
    + intros va Hc Hs. unfold pte_at. rewrite W. fold (pte_at phys_base root p1 va). rewrite Hpte. auto.
  - intros x Hx. rewrite W. apply Hw. auto.
Qed.

Section Heap.
#[local] Set Default Proof Using "All".
Context (T : gmap Z (list Z)) (root : Z) (ty : MM_Region_Type) (oom : nat -> bool) (end_va up : Z).
Context (Hty : frees_pages ty) (Hup : (PAGE_SIZE | up)) (Hend : end_va <= up) (Htop : up <= 2 ^ 38).

(** What the loop has done when it stops before [va']. *)
Record heap_grown (va va' : Z) (l : list MM_Region) (p : P) (l' : list MM_Region) (p' : P) : Prop := {
  hg_pre : pt_pre T root l' p';
  hg_range : va <= va' <= Z.max va up /\ (PAGE_SIZE | va');
  hg_old : forall x, ~ va <= x < va' -> mm_at l' x = mm_at l x;
  hg_new : forall x, va <= x < va' -> exists pa, mm_at l' x = Some (pa, ty, MM_REGION_MARKED_FOR_MAPPING, true) /\
    pg_free_at p (phys_to_virt phys_base pa) /\
    ((8 | x) -> pg_words p' !! phys_to_virt phys_base pa = Some 0);
  hg_unmarked : unmarked l' = unmarked l;
  hg_states : Forall (fun r => r_mapped r <> MM_REGION_PARTIAL_MAPPED) l ->
    Forall (fun r => r_mapped r <> MM_REGION_PARTIAL_MAPPED) l';
  hg_free : forall x, pg_free_at p' x \/ marked_owned l' x <-> pg_free_at p x \/ marked_owned l x;
  hg_words : forall x, ~ pg_free_at p x -> pg_words p' !! x = pg_words p !! x
}.

Lemma heap_grown_refl va l p : pt_pre T root l p -> (PAGE_SIZE | va) -> heap_grown va va l p l p.
Proof. intros Hpre Hva. split; auto; [split; [lia | done] | lia]. Qed.

Lemma heap_grown_step va va' l p a p1 l' p' :
  let l1 := add_single (page_region a va ty) l in
  pt_pre T root l p -> pg_alloc ALLOC_FLAG_ZERO_MEMORY p = (a, p1) -> a <> NULL ->
  (PAGE_SIZE | va) -> va + 4096 <= up -> (forall x, va <= x < va + 4096 -> mm_at l x = None) ->
  (forall x, mm_at l1 x = region_at (page_region a va ty) x ∪ mm_at l x) ->
  heap_grown (va + 4096) va' l1 p1 l' p' -> heap_grown va va' l p l' p'.
Proof.
  intros l1 Hpre Ea Ha Hva Hnext Hno Hat [G1 G2 G3 G4 G5 G6 G7 G8].
  destruct (vm_inv_alloc _ _ (fun _ => False) T root p _ a p1 (pp_vm _ _ _ _ Hpre) Ea Ha)
    as (_ & Hal & _ & _ & Hfree & Hf1 & Hw & _); [tauto|].
  pose proof (fun x => page_region_at T root l p a p1 va ty x Hpre Ea Ha) as Hreg.
  assert (forall x, in_page a x -> ~ pg_free_at p1 x) as Hused by (intros x Hx; rewrite Hf1; tauto).
  split; [done | split; [lia | tauto] | | | | | |].
  - intros x Hx. rewrite G3 by lia. rewrite Hat. destruct (Hreg x) as [-> _].
    rewrite decide_False by lia. apply option_union_None_l.
  - intros x Hx. destruct (decide (x < va + 4096)) as [Hlt|Hge].
    + destruct (Hreg x) as [E Hl]. destruct (Hl ltac:(lia)) as [_ Epa].
      exists (virt_to_phys phys_base a + (x - va)). rewrite Epa.
      assert (in_page a (a + (x - va))) as Hin by (unfold in_page; change PAGE_SIZE with 4096; lia).
      split; [rewrite G3 by lia; rewrite Hat, E, decide_True, Hno by lia; done|]. split; [auto|].
      intros [k Hk]. rewrite G8 by auto. destruct Hva as [q Hq]. change PAGE_SIZE with 4096 in Hq.
      pose proof (pg_alloc_zeroed p (k - q * 512) (vi_pg _ _ _ _ _ _ _ (pp_vm _ _ _ _ Hpre))) as Hz.
      rewrite Ea in Hz. rewrite <- Hz by (done || lia). f_equal. lia.
    + destruct (G4 x ltac:(lia)) as (pa & H1 & H2 & H3). exists pa. split; [done|]. split; [|done].
      by apply Hf1 in H2 as [? _].
  - rewrite G5. by apply unmarked_add.
  - intros Hst. apply G6. by apply (add_single_states (fun st => st <> MM_REGION_PARTIAL_MAPPED)).
  - intros x. rewrite G7. unfold l1. rewrite (marked_add T root l p a p1 va ty x) by done. rewrite Hf1.
    assert (in_page a x \/ ~ in_page a x) by (unfold in_page; lia). naive_solver.
  - intros x Hx. rewrite G8; [apply Hw; auto|]. rewrite Hf1. tauto.
Qed.

Lemma alloc_heap_loop_run fuel : forall i va l p,
  (Z.to_nat (end_va - va) < fuel)%nat -> pt_pre T root l p -> (PAGE_SIZE | va) -> 0 <= va ->
  (forall x, va <= x < up -> mm_at l x = None) ->
  exists va' l' p', alloc_heap_loop phys_base fuel oom i va end_va ty l p = Ret ((va', l'), p') /\
    heap_grown va va' l p l' p'.
Proof.
  induction fuel as [|fuel IH]; intros i va l p Hf Hpre Hva H0 Hno; [lia|]. cbn [alloc_heap_loop].
  destruct (Z.ltb_spec va end_va) as [Hlt|Hge].
  2:{ exists va, l, p. split; [done | by apply heap_grown_refl]. }
  destruct (pg_alloc ALLOC_FLAG_ZERO_MEMORY p) as [a p1] eqn:Ea.
  rewrite (bind_run _ _ _ a p1) by (unfold alloc_zeroed; by rewrite Ea).
  destruct (Z.eqb_spec a NULL) as [-> | Ha].
  { pose proof (pg_alloc_spec ALLOC_FLAG_ZERO_MEMORY p (vi_pg _ _ _ _ _ _ _ (pp_vm _ _ _ _ Hpre))) as H.
    rewrite Ea in H. destruct H as [_ ->]. exists va, l, p. split; [done | by apply heap_grown_refl]. }
  assert (va + 4096 <= up) as Hnext by (apply page_gap; [done..|lia]).
  assert (forall x, va <= x < va + 4096 -> mm_at l x = None) as Hno1 by (intros; apply Hno; lia).
  destruct (oom i).
  { destruct (release_page T root l p a p1 Hpre Ea Ha) as (p2 & E & Hpre2 & Hf2 & Hw2).
    rewrite (bind_run _ _ _ None p1) by done. rewrite (bind_run _ _ _ _ _ E).
    exists va, l, p2. split; [done|].
    split; auto; [split; [lia | done] | lia | intros x; by rewrite Hf2]. }
  destruct (add_page T root l p a p1 va ty Hpre Ea Ha Hty Hva H0 ltac:(lia) Hno1) as (E1 & E2 & Hpre1 & Hat).
  set (r := page_region a va ty) in *. set (l1 := add_single r l) in *.
  rewrite (bind_run _ _ _ (Some r) p1) by (by rewrite E1).
  rewrite (bind_run _ _ _ l1 p1) by (by rewrite E2).
  change PAGE_SIZE with 4096. rewrite uwrap_id by (unfold is_u; lia).
  destruct (IH (S i) (va + 4096) l1 p1) as (va' & l' & p' & E & Hg); [lia | done | | lia | |].
  { by apply Z.divide_add_r; [|exists 1]. }
  { intros x Hx. rewrite Hat. unfold region_at. rewrite decide_False; [rewrite Hno by lia; done|].
    change (in_region r x) with (va <= x < va + 4096). lia. }
  exists va', l', p'. split; [done|]. by eapply heap_grown_step.
Qed.
End Heap.
(** ** Applying a mapping *)

Definition settle (r : MM_Region) : MM_Region :=
  if decide (r_mapped r = MM_REGION_MARKED_FOR_MAPPING) then set_mapped MM_REGION_MAPPED r else r.

Definition settle_state (st : MM_Region_Mapped) : MM_Region_Mapped :=
  if decide (st = MM_REGION_MARKED_FOR_MAPPING) then MM_REGION_MAPPED else st.

(** Marked regions have a mapping and none is partial. *)
Definition pending (l : list MM_Region) : Prop :=
  Forall (fun r => r_mapped r <> MM_REGION_PARTIAL_MAPPED /\
    (r_mapped r = MM_REGION_MARKED_FOR_MAPPING -> type_flags (r_type r) <> 0)) l.

Lemma settle_cases r : settle r = r \/ settle r = set_mapped MM_REGION_MAPPED r.
Proof using. unfold settle. case_decide; auto. Qed.

Lemma map_ok_fmap f l :
  (forall r, exists st, f r = set_mapped st r) -> map_ok l -> map_ok (f <$> l).
Proof using.
  intros Hf. induction l as [|r l IH]; [done|]. cbn [fmap list_fmap]. rewrite !map_ok_cons.
  intros (Hr & Hb & Hl). destruct (Hf r) as [st ->]. split; [by rewrite region_ok_set|]. split; [|auto].
  clear IH Hl. induction Hb as [|q l Hq _ IHb]; constructor; [|done]. destruct (Hf q) as [st' ->]. done.
Qed.

Lemma set_mapped_same r : set_mapped (r_mapped r) r = r.
Proof using. by destruct r. Qed.

Lemma mm_at_settle l va :
  mm_at (settle <$> l) va = (fun '(pa, ty, st, f) => (pa, ty, settle_state st, f)) <$> mm_at l va.
Proof using.
  induction l as [|r l IH]; [done|]. cbn [fmap list_fmap mm_at]. rewrite IH.
  assert (region_at (settle r) va =
    (fun '(pa, ty, st, f) => (pa, ty, settle_state st, f)) <$> region_at r va) as ->.
  { unfold settle, settle_state. destruct (decide (r_mapped r = _)) as [E|E].
    - rewrite region_at_set. unfold region_at. case_decide; [|done]. cbn. by rewrite decide_True.
    - unfold region_at. case_decide; [|done]. cbn. by rewrite decide_False. }
  by destruct (region_at r va), (mm_at l va).
Qed.

Lemma finalize_mark l : pending l -> finalize <$> (mark <$> l) = settle <$> l.
Proof using.
  intros Hp. rewrite <- list_fmap_compose. apply list_fmap_ext. intros i r Hr.
  unfold pending in Hp. rewrite Forall_lookup in Hp. destruct (Hp i r Hr) as [H1 H2].
  unfold compose, finalize, mark, settle. destruct (decide (r_mapped r = MM_REGION_MARKED_FOR_MAPPING)) as [E|E].
  - rewrite (proj2 (Z.eqb_neq _ _) (H2 E)). cbn [set_mapped r_mapped]. by rewrite decide_True.
  - by rewrite decide_False.
Qed.

(** The entries after the two loops. *)
Lemma settle_entry l va :
  pending l -> entry_of is_mapped (mm_at (settle <$> l) va) = entry_of is_installed (mm_at (mark <$> l) va).
Proof using.
  intros Hp. induction Hp as [|r l [H1 H2] _ IH]; [done|]. cbn [fmap list_fmap mm_at].
  destruct (decide (in_region r va)) as [Hin|Hin].
  - assert (forall f l', mm_at (set_mapped f r :: l') va =
      Some (start_pa r + (va - start_va r), r_type r, f, free_on_unmap r)) as Hat.
    { intros f l'. cbn [mm_at]. rewrite region_at_set, decide_True by done. by destruct (mm_at l' va). }
    change (region_at (settle r) va ∪ mm_at (settle <$> l) va) with (mm_at (settle r :: (settle <$> l)) va).
    change (region_at (mark r) va ∪ mm_at (mark <$> l) va) with (mm_at (mark r :: (mark <$> l)) va).
    unfold settle at 1, mark at 1. destruct (decide (r_mapped r = MM_REGION_MARKED_FOR_MAPPING)) as [E|E].
    + rewrite (proj2 (Z.eqb_neq _ _) (H2 E)), !Hat. done.
    + rewrite <- (set_mapped_same r), !Hat. cbn [entry_of set_mapped r_type r_mapped].
      unfold is_mapped, is_installed. destruct (r_mapped r); done.
  - assert (forall f, (f r = r \/ exists st, f r = set_mapped st r) -> region_at (f r) va = None) as Hnone.
    { intros f [-> |[st ->]]; [|rewrite region_at_set]; [unfold region_at|]; by rewrite decide_False. }
    rewrite (Hnone settle), (Hnone mark), !option_union_None_l; [done | |].
    + destruct (mark_cases r); eauto.
    + destruct (settle_cases r); eauto.
Qed.

Lemma map_owned_settle l x : map_owned (settle <$> l) x <-> map_owned l x.
Proof.
  unfold map_owned. setoid_rewrite mm_at_settle. split.
  - intros (va & pa & ty & st & H & E). destruct (mm_at l va) as [[[[pa' ty'] st'] f]|] eqn:Em; [|done].
    injection H as -> -> _ ->. by exists va, pa, ty, st'.
  - intros (va & pa & ty & st & H & E). exists va, pa, ty, (settle_state st). by rewrite H.
Qed.

Lemma pt_pre_settle T T' root l p p' :
  pt_pre T root l p -> pending l ->
  vm_inv phys_base ram_size (map_owned l) (fun x => pg_words p !! x) T' root p' ->
  agrees phys_base is_installed root p' (mark <$> l) ->
  pt_pre T' root (settle <$> l) p'.
Proof.
  intros [Hvm Hok Hcan Hag Hram Hinj] Hp Hvm' Hag'.
  assert (forall va pa ty st f, mm_at (settle <$> l) va = Some (pa, ty, st, f) ->
    exists st', mm_at l va = Some (pa, ty, st', f)) as Hback.
  { intros va pa ty st f. rewrite mm_at_settle.
    destruct (mm_at l va) as [[[[pa' ty'] st'] f']|]; [|done]. intros [= -> -> _ ->]. eauto. }
  split.
  - eapply vm_inv_sub; [exact Hvm'|]. intros x. apply map_owned_settle.
  - apply map_ok_fmap; [|done]. intros r. destruct (settle_cases r) as [-> | ->]; [|eauto].
    exists (r_mapped r). by rewrite set_mapped_same.
  - intros va [[[pa ty] st] f] H. destruct (Hback _ _ _ _ _ H) as [st' H']. eauto.
  - intros va Hc _. rewrite settle_entry by done. auto.
  - intros va pa ty st H. destruct (Hback _ _ _ _ _ H) as [st' H']. eauto.
  - intros va va' pa ty ty' st st' H H'. destruct (Hback _ _ _ _ _ H), (Hback _ _ _ _ _ H'). eauto.
Qed.
End Invariant.

(** ** Transactions on a page table *)

Section Transactions.
Context {P : Type} `{!PageAllocator P} (phys_base ram_size : Z) `{!DirectMap phys_base ram_size}.

Notation none := (fun _ : Z => False).
Notation pt_ok := (pt_pre phys_base ram_size none).

Lemma type_flags_leaf ty : type_flags ty <> 0 -> PTE_IS_LEAF (type_flags ty) = true.
Proof using. by destruct ty. Qed.

Lemma pt_ok_agrees T root l p : pt_ok T root l p -> agrees phys_base is_mapped root p l.
Proof. intros [_ _ _ Hag _ _] va Hc. apply Hag; tauto. Qed.

Lemma pending_installed l va :
  pending l -> entry_of is_installed (mm_at l va) = entry_of is_mapped (mm_at l va).
Proof using.
  intros Hp. destruct (mm_at l va) as [[[[pa ty] st] f]|] eqn:E; [|done].
  apply mm_at_region in E as (pre & r & post & -> & E). unfold region_at in E.
  case_decide; [|done]. injection E as _ _ <- _.
  apply Forall_app in Hp as [_ Hp]. apply Forall_cons in Hp as [[Hr _] _]. cbn [entry_of].
  unfold is_installed, is_mapped. destruct (r_mapped r); done.
Qed.

Lemma canon_regions l :
  map_ok l -> (forall va b, mm_at l va = Some b -> canon va) -> Forall region_canon l.
Proof using.
  intros Hok Hcan. apply Forall_forall. intros r Hr va Hin.
  apply list_elem_of_split in Hr as (pre & post & ->). eapply Hcan. rewrite mm_at_member by done.
  unfold region_at. by rewrite decide_True.
Qed.

Lemma unmap_partial_undef root l1 r l2 p p' :
  Forall (fun q => r_mapped q <> MM_REGION_PARTIAL_MAPPED /\ r_mapped q <> MM_REGION_MARKED_FOR_MAPPING) l1 ->
  r_mapped r = MM_REGION_PARTIAL_MAPPED ->
  vm_unmap phys_base root (start_va r) (r_size r / PAGE_SIZE) false p = Ret (tt, p') ->
  page_table_unmap_partial_mappings phys_base root (l1 ++ r :: l2) p = Undef.
Proof.
  intros Hl1 Hr E. induction Hl1 as [|q l1 [Hq1 Hq2] _ IH]; cbn [app page_table_unmap_partial_mappings].
  - rewrite decide_True by done. unfold page_table_unmap_region.
    assert (exists p2, (vm_unmap phys_base root (start_va r) (r_size r / PAGE_SIZE) false
      ≫= (fun _ => run_frees phys_base (mm_region_remove r))) p = Ret (tt, p2)) as [p2 E2].
    { rewrite (bind_run _ _ _ _ _ E). unfold mm_region_remove. destruct (free_on_unmap r); by eexists. }
    by rewrite (bind_run _ _ _ _ _ E2).
  - rewrite !decide_False by done. unfold mbind, ST_bind. by rewrite IH.
Qed.

(** An installed region can be unmapped. *)
Lemma unmap_installed owned data T root p r :
  vm_inv phys_base ram_size owned data T root p -> region_ok r -> region_canon r ->
  type_flags (r_type r) <> 0 ->
  (forall va, in_region r va -> pte_at phys_base root p va = entry_of (fun _ => true) (region_at r va)) ->
  exists p', vm_unmap phys_base root (start_va r) (r_size r / PAGE_SIZE) false p = Ret (tt, p') /\
    vm_inv phys_base ram_size owned data T root p' /\
    forall va, canon va -> pte_at phys_base root p' va =
      if decide (in_region r va) then 0 else pte_at phys_base root p va.
Proof.
  intros Hi Hr Hcan Hf Hpte. pose proof Hr as [Hpa Hva Hsz Hpos Hvr Hpr _].
  pose proof (div_mul_page _ Hsz) as Hdm. change PAGE_SIZE with 4096 in *.
  destruct (vm_unmap_run phys_base ram_size owned data T root p (start_va r) (r_size r / 4096) Hi Hva)
    as (p' & E & Hi' & Hp'); [lia | apply Z.div_pos; lia | lia | |].
  - intros k Hk. assert (in_region r (start_va r + k * 4096)) as Hin.
    { apply region_pages; [done|]. rewrite Z.div_add by lia. lia. }
    split; [by apply Hcan|]. rewrite (Hpte _ Hin). unfold region_at. rewrite decide_True by done.
    cbn [entry_of andb]. rewrite (proj2 (Z.eqb_neq _ _) Hf). cbn [negb].
    split; [apply leaf_valid | by apply leaf_is_leaf, type_flags_leaf].
  - exists p'. split; [done|]. split; [done|]. intros va Hc. rewrite (Hp' va Hc). unfold mapped_over.
    pose proof (region_pages r va Hr). repeat case_decide; tauto.
Qed.

Lemma mark_unmarked l :
  Forall (fun r => r_mapped r <> MM_REGION_MARKED_FOR_MAPPING) l -> mark <$> l = l.
Proof using.
  induction 1 as [|r l Hr _ IH]; [done|]. cbn [fmap list_fmap]. rewrite IH. unfold mark.
  by rewrite decide_False.
Qed.

Lemma first_marked l :
  Exists (fun r => r_mapped r = MM_REGION_MARKED_FOR_MAPPING) l ->
  exists l1 r l2, l = l1 ++ r :: l2 /\ r_mapped r = MM_REGION_MARKED_FOR_MAPPING /\
    Forall (fun r => r_mapped r <> MM_REGION_MARKED_FOR_MAPPING) l1.
Proof using.
  induction l as [|q l IH]; [by rewrite Exists_nil|]. intros H.
  destruct (decide (r_mapped q = MM_REGION_MARKED_FOR_MAPPING)) as [E|E].
  - by exists [], q, l.
  - apply Exists_cons in H as [|H]; [done|]. destruct (IH H) as (l1 & r & l2 & -> & Hr & Hl1).
    exists (q :: l1), r, l2. split; [done|]. split; [done|]. by constructor.
Qed.
Lemma map_ok_mark_prefix x y : forall pre, map_ok (pre ++ x ++ y) -> map_ok (pre ++ (mark <$> x) ++ y).
Proof using.
  induction x as [|r x IH]; intros pre H; [done|]. cbn [fmap list_fmap app] in *.
  apply map_ok_mark in H. change (pre ++ mark r :: x ++ y) with (pre ++ [mark r] ++ x ++ y) in H.
  rewrite app_assoc in H. apply IH in H. by rewrite <- app_assoc in H.
Qed.

(** The outcome of a failed mapping of region [r] after the regions [a]. *)
Definition apply_failed (T : gmap Z (list Z)) (root : Z) (l : list MM_Region) (p : P) : Prop :=
  exists a r b, l = a ++ r :: b /\ r_mapped r = MM_REGION_MARKED_FOR_MAPPING /\
  ((Exists (fun q => r_mapped q = MM_REGION_MARKED_FOR_MAPPING) a /\
    page_table_apply_mapping phys_base (mk_page_table root l) p = Undef) \/
   (Forall (fun q => r_mapped q <> MM_REGION_MARKED_FOR_MAPPING) a /\
    exists k T' p', 0 <= k < r_size r / 4096 /\
    page_table_apply_mapping phys_base (mk_page_table root l) p
      = Ret ((- ENOMEM, mk_page_table root (unmarked l)), p') /\
    pt_pre phys_base ram_size (fun va => start_va r <= va < start_va r + k * 4096) T' root (unmarked l) p' /\
    (forall va, start_va r <= va < start_va r + k * 4096 ->
       pte_at phys_base root p' va = entry_of (fun _ => true) (region_at r va)) /\
    (forall x, region_owned phys_base r x -> pg_free_at p' x))).

Lemma pt_pre_weaken stale T T' root l p p' :
  pt_ok T root l p -> vm_inv phys_base ram_size (map_owned phys_base l) (fun x => pg_words p !! x) T' root p' ->
  (forall va, canon va -> ~ stale va -> pte_at phys_base root p' va = entry_of is_mapped (mm_at l va)) ->
  pt_pre phys_base ram_size stale T' root l p'.
Proof. intros [Hvm Hok Hcan _ Hram Hinj] Hvm' Hag. split; auto. by eapply vm_inv_sub. Qed.

Lemma pending_drop l a r b : pending l -> l = a ++ r :: b ->
  r_mapped r = MM_REGION_MARKED_FOR_MAPPING -> pending a /\ type_flags (r_type r) <> 0.
Proof using.
  intros Hp -> Hm. apply Forall_app in Hp as [Ha Hp]. apply Forall_cons in Hp as [[_ Hr] _]. auto.
Qed.

Lemma apply_failed_first T T' root a r b p p' k :
  pt_ok T root (a ++ r :: b) p -> pending (a ++ r :: b) -> r_mapped r = MM_REGION_MARKED_FOR_MAPPING ->
  Forall (fun q => r_mapped q <> MM_REGION_MARKED_FOR_MAPPING) a ->
  vm_inv phys_base ram_size (map_owned phys_base (a ++ r :: b)) (fun x => pg_words p !! x) T' root p' ->
  apply_loop phys_base root 0 (a ++ r :: b) p = Ret ((- ENOMEM, (mark <$> a) ++ r :: b), p') ->
  0 <= k < r_size r / 4096 ->
  (forall va, canon va -> pte_at phys_base root p' va =
      if decide (in_region r va /\ va < start_va r + k * 4096)
      then entry_of (fun _ => true) (region_at r va)
      else entry_of is_installed (mm_at ((mark <$> a) ++ r :: b) va)) ->
  apply_failed T root (a ++ r :: b) p.
Proof.
  intros Hpre Hpend Hm Ha Hvm' E Hk Hp. set (l := a ++ r :: b) in *. rewrite mark_unmarked in * by done.
  exists a, r, b. split; [done|]. split; [done|]. right. split; [done|].
  pose proof (pp_ok _ _ _ _ _ _ _ Hpre) as Hok. pose proof (map_ok_drop _ _ _ Hok) as [_ Hr].
  assert (forall va, start_va r <= va < start_va r + k * 4096 -> in_region r va) as Hin.
  { intros va Hva. destruct Hr as [_ _ Hsz _ _ _ _]. pose proof (div_mul_page _ Hsz).
    change PAGE_SIZE with 4096 in *. unfold in_region, region_end. lia. }
  destruct (unmap_partial_run phys_base ram_size (fun va => start_va r <= va < start_va r + k * 4096)
    T' root l [] p') as (p2 & E2 & Hpre2 & Hw & Hf).
  { eapply pt_pre_weaken; [done..|]. intros va Hc Hs. rewrite (Hp va Hc), decide_False.
    - by apply pending_installed.
    - intros [Hri Hlt]. apply Hs. unfold in_region in Hri. lia. }
  { eapply Forall_impl; [exact Hpend|]. by intros q [? _]. }
  exists k, T', p2. split; [done|]. split; [|split; [done|split]].
  - unfold page_table_apply_mapping. cbn [pt_root memory_map]. rewrite (bind_run _ _ _ _ _ E).
    cbn [Z.geb Z.compare]. change (- ENOMEM >=? 0) with false. cbv iota.
    by rewrite (bind_run _ _ _ _ _ E2).
  - intros va Hva. unfold pte_at. rewrite Hw. fold (pte_at phys_base root p' va).
    pose proof (pp_canon _ _ _ _ _ _ _ Hpre va) as Hc. rewrite Hp, decide_True; [done | |].
    + split; [auto | lia].
    + eapply Hc. unfold l. rewrite mm_at_member by auto. unfold region_at. by rewrite decide_True by auto.
  - intros x Hx. apply Hf. right. apply Exists_exists. exists r. split; [|done].
    apply elem_of_app. right. by left.
Qed.

Lemma apply_failed_later T T' root a r b p p' k :
  pt_ok T root (a ++ r :: b) p -> pending (a ++ r :: b) -> r_mapped r = MM_REGION_MARKED_FOR_MAPPING ->
  Exists (fun q => r_mapped q = MM_REGION_MARKED_FOR_MAPPING) a ->
  vm_inv phys_base ram_size (map_owned phys_base (a ++ r :: b)) (fun x => pg_words p !! x) T' root p' ->
  apply_loop phys_base root 0 (a ++ r :: b) p = Ret ((- ENOMEM, (mark <$> a) ++ r :: b), p') ->
  (forall va, canon va -> pte_at phys_base root p' va =
      if decide (in_region r va /\ va < start_va r + k * 4096)
      then entry_of (fun _ => true) (region_at r va)
      else entry_of is_installed (mm_at ((mark <$> a) ++ r :: b) va)) ->
  apply_failed T root (a ++ r :: b) p.
Proof.
  intros Hpre Hpend Hm Ha Hvm' E Hp. exists a, r, b. split; [done|]. split; [done|]. left. split; [done|].
  pose proof (pp_ok _ _ _ _ _ _ _ Hpre) as Hok.
  destruct (first_marked a Ha) as (l1 & q & l2 & -> & Hq & Hl1).
  destruct (pending_drop _ (l1) q (l2 ++ r :: b) Hpend ltac:(by rewrite <- app_assoc) Hq) as [Hp1 Hqf].
  assert (mark q = set_mapped MM_REGION_PARTIAL_MAPPED q) as Emq
    by (unfold mark; by rewrite decide_True, (proj2 (Z.eqb_neq _ _) Hqf)).
  pose proof (map_ok_mark_prefix (l1 ++ q :: l2) (r :: b) [] Hok) as Hok'. cbn [app] in Hok'.
  pose proof (canon_regions _ Hok (pp_canon _ _ _ _ _ _ _ Hpre)) as Hcan.
  rewrite fmap_app in *. cbn [fmap list_fmap] in *. rewrite mark_unmarked in * by done. rewrite Emq in *.
  rewrite <- !app_assoc in *. cbn [app] in *.
  apply Forall_app in Hcan as [_ Hcan]. apply Forall_cons in Hcan as [Hcq _].
  destruct (unmap_installed _ _ T' root p' (set_mapped MM_REGION_PARTIAL_MAPPED q) Hvm') as (p2 & E2 & _).
  { by apply map_ok_drop in Hok' as [_ ?]. }
  { exact Hcq. }
  { done. }
  { intros va Hin. rewrite Hp by (by apply Hcq). rewrite decide_False, mm_at_member; [|done|done|].
    - unfold region_at. by rewrite decide_True.
    - intros [Hri _]. apply map_ok_app in Hok' as (_ & (_ & Hb & _)%map_ok_cons & _).
      apply Forall_app in Hb as [_ Hb]. apply Forall_cons in Hb as [Hb _].
      unfold before, in_region in *. lia. }
  unfold page_table_apply_mapping. cbn [pt_root memory_map]. rewrite (bind_run _ _ _ _ _ E).
  change (- ENOMEM >=? 0) with false. cbv iota.
  unfold mbind, ST_bind. erewrite unmap_partial_undef; [done | | done | exact E2].
  apply Forall_forall. intros y Hy. rewrite Forall_forall in Hl1. unfold pending in Hp1.
  rewrite Forall_forall in Hp1. split; [by apply Hp1 | by apply Hl1].
Qed.
Lemma apply_mapping_run T root l p :
  pt_ok T root l p -> pending l ->
  (exists T' p', page_table_apply_mapping phys_base (mk_page_table root l) p
     = Ret ((0, mk_page_table root (settle <$> l)), p') /\
     pt_ok T' root (settle <$> l) p' /\
     forall x, map_owned phys_base l x -> pg_words p' !! x = pg_words p !! x) \/
  apply_failed T root l p.
Proof.
  intros Hpre Hpend. pose proof Hpre as [Hvm Hok Hcan _ _ _].
  destruct (apply_loop_run phys_base ram_size (map_owned phys_base l) (fun x => pg_words p !! x)
    l T root p [] Hvm Hok (canon_regions l Hok Hcan)) as (T' & p' & _ & Hvm' & Hres).
  { intros va Hc. rewrite (pt_ok_agrees _ _ _ _ Hpre va Hc). symmetry. by apply pending_installed. }
  destruct Hres as [[E Hag]|(a & r & b & k & -> & Hm & E & Hk & Hp)].
  - left. exists T', p'. split.
    + unfold page_table_apply_mapping. cbn [pt_root memory_map]. rewrite (bind_run _ _ _ _ _ E).
      cbn [Z.geb Z.compare]. unfold set_map. cbn [pt_root]. by rewrite finalize_mark.
    + split; [by eapply pt_pre_settle|]. intros x Hx. by apply (vi_owned _ _ _ _ _ _ _ Hvm').
  - right. destruct (decide (Exists (fun q => r_mapped q = MM_REGION_MARKED_FOR_MAPPING) a)) as [Ha|Ha].
    + by eapply apply_failed_later.
    + eapply apply_failed_first; [done..| | done | done | done | done].
      apply Forall_forall. intros q Hq Hmq. apply Ha, Exists_exists. eauto.
Qed.

(** ** Growing the heap *)

Definition settled (l : list MM_Region) : Prop :=
  Forall (fun r => r_mapped r <> MM_REGION_MARKED_FOR_MAPPING /\ r_mapped r <> MM_REGION_PARTIAL_MAPPED) l.

Lemma settled_unmarked l : settled l -> unmarked l = l.
Proof using.
  unfold unmarked. induction 1 as [|r l [Hr _] _ IH]; [done|]. by rewrite filter_cons, decide_True, IH.
Qed.

Lemma settled_no_marks l x : settled l -> ~ marked_owned phys_base l x.
Proof using.
  intros Hs (va & pa & ty & Hat & _). apply mm_at_region in Hat as (pre & r & post & -> & Hat).
  unfold region_at in Hat. case_decide; [|done]. injection Hat as _ _ Hm _.
  apply Forall_app in Hs as [_ Hs]. apply Forall_cons in Hs as [[Hr _] _]. done.
Qed.

(** The marked regions after growing are those of the new type. *)
Lemma grown_pending T root ty up va va' l p l' p' :
  settled l -> frees_pages ty -> heap_grown phys_base ram_size none T root ty up va va' l p l' p' -> pending l'.
Proof.
  intros Hs Hty [Hpre _ Hold Hnew _ Hst _ _]. apply Forall_forall. intros r Hr. split.
  - assert (Forall (fun r => r_mapped r <> MM_REGION_PARTIAL_MAPPED) l') as H
      by (apply Hst; eapply Forall_impl; [exact Hs|]; by intros q [_ ?]).
    rewrite Forall_forall in H. auto.
  - intros Hm. pose proof (pp_ok _ _ _ _ _ _ _ Hpre) as Hok.
    apply list_elem_of_split in Hr as (pre & post & ->). pose proof (map_ok_drop _ _ _ Hok) as [_ []].
    assert (in_region r (start_va r)) as Hin by (unfold in_region, region_end; lia).
    assert (mm_at (pre ++ r :: post) (start_va r) = region_at r (start_va r)) as Hat by (by apply mm_at_member).
    unfold region_at in Hat. rewrite decide_True, Hm in Hat by done.
    destruct (decide (va <= start_va r < va')) as [Hx|Hx].
    + destruct (Hnew _ Hx) as (pa & E & _). rewrite Hat in E. injection E as _ -> _.
      unfold frees_pages in Hty. destruct ty; done.
    + rewrite Hold in Hat by done. apply mm_at_region in Hat as (pre' & q & post' & -> & Hat).
      unfold region_at in Hat. case_decide; [|done]. injection Hat as _ _ Hmq _.
      apply Forall_app in Hs as [_ Hs]. by apply Forall_cons in Hs as [[? _] _].
Qed.

Lemma settle_settled l : pending l -> settled (settle <$> l).
Proof using.
  induction 1 as [|r l [H1 H2] _ IH]; [constructor|]. cbn [fmap list_fmap]. constructor; [|done].
  unfold settle. case_decide; done.
Qed.

(** The heap of a page table grew by fresh, cleared pages in [lo, hi). *)
Definition heap_extended (lo hi : Z) (ty : MM_Region_Type) (l : list MM_Region) (p : P)
    (l' : list MM_Region) (p' : P) : Prop :=
  (forall x, ~ lo <= x < hi -> mm_at l' x = mm_at l x) /\
  (forall x, lo <= x < hi -> exists pa, mm_at l' x = Some (pa, ty, MM_REGION_MAPPED, true) /\
     pg_free_at p (phys_to_virt phys_base pa) /\
     ((8 | x) -> pg_words p' !! phys_to_virt phys_base pa = Some 0)) /\
  (forall x, map_owned phys_base l x -> pg_words p' !! x = pg_words p !! x).

Lemma grown_extended T root ty up lo hi l p l1 p1 p' :
  settled l -> pt_ok T root l p -> heap_grown phys_base ram_size none T root ty up lo hi l p l1 p1 ->
  (forall x, map_owned phys_base l1 x -> pg_words p' !! x = pg_words p1 !! x) ->
  (forall x, lo <= x < hi -> mm_at l x = None) ->
  heap_extended lo hi ty l p (settle <$> l1) p'.
Proof.
  intros Hs Hpre [G1 G2 G3 G4 G5 G6 G7 G8] Hw Hno. split; [|split].
  - intros x Hx. rewrite mm_at_settle, G3 by done.
    destruct (mm_at l x) as [[[[pa ty'] st] f]|] eqn:E; [|done]. cbn. unfold settle_state.
    rewrite decide_False; [done|]. intros ->.
    apply mm_at_region in E as (pre & r & post & -> & E). unfold region_at in E.
    case_decide; [|done]. injection E as _ _ Hm _. apply Forall_app in Hs as [_ Hs].
    by apply Forall_cons in Hs as [[? _] _].
  - intros x Hx. destruct (G4 x Hx) as (pa & E & Hf & Hz). exists pa. rewrite mm_at_settle, E.
    split; [done|]. split; [done|]. intros H8. rewrite Hw; [auto|]. by eexists x, pa, _, _.
  - intros x (va & pa & ty' & st & E & Hx).
    assert (map_owned phys_base l x) as Hown by (by exists va, pa, ty', st).
    rewrite Hw, G8; [done | by apply (vi_owned _ _ _ _ _ _ _ (pp_vm _ _ _ _ _ _ _ Hpre)) |].
    exists va, pa, ty', st. split; [|done]. rewrite G3; [done|]. intros Hr. by rewrite Hno in E.
Qed.
Lemma uvm_alloc_heap_run T root l p oom start size ty :
  let pt := mk_page_table root l in
  let lo := PAGE_ROUND_UP start in
  let hi := PAGE_ROUND_UP (start + size) in
  pt_ok T root l p -> settled l -> frees_pages ty -> 0 <= start -> 0 <= size ->
  start + size + 4096 <= 2 ^ 38 -> (forall x, lo <= x < hi -> mm_at l x = None) ->
  (exists T' l' p', uvm_alloc_heap phys_base oom start size ty pt p = Ret ((size, mk_page_table root l'), p') /\
     pt_ok T' root l' p' /\ settled l' /\ heap_extended lo hi ty l p l' p') \/
  (exists p', uvm_alloc_heap phys_base oom start size ty pt p = Ret ((0, pt), p') /\
     pt_ok T root l p' /\ (forall x, pg_free_at p' x <-> pg_free_at p x) /\
     (forall x, ~ pg_free_at p x -> pg_words p' !! x = pg_words p !! x)) \/
  (exists l1 p1, heap_grown phys_base ram_size none T root ty hi lo hi l p l1 p1 /\ apply_failed T root l1 p1).
Proof.
  intros pt lo hi Hpre Hs Hty H0 Hsz Htop Hno.
  destruct (round_up_value start ltac:(lia) ltac:(lia)) as [Hlo Hlor]. fold lo in Hlo, Hlor.
  destruct (round_up_value (start + size) ltac:(lia) ltac:(lia)) as [Hhi Hhir]. fold hi in Hhi, Hhir.
  assert (lo <= hi) as Hlh.
  { destruct Hlo as [a Ha], Hhi as [b Hb]. change PAGE_SIZE with 4096 in *. lia. }
  unfold uvm_alloc_heap. rewrite uwrap_id by (unfold is_u; lia). fold lo. cbn [pt pt_root memory_map].
  destruct (alloc_heap_loop_run phys_base ram_size none T root ty oom (start + size) hi Hty Hhi
    ltac:(lia) ltac:(lia) (S (Z.to_nat (start + size - lo))) 0 lo l p)
    as (va' & l1 & p1 & E & Hg); [lia | done | done | lia | done |].
  rewrite (bind_run _ _ _ _ _ E). pose proof (hg_range _ _ _ _ _ _ _ _ _ _ _ _ _ Hg) as [Hr Hal].
  destruct (Z.ltb_spec va' (start + size)) as [Hlt|Hge].
  - right. left.
    destruct (unmap_partial_run phys_base ram_size none T root l1 [] p1) as (p2 & E2 & Hpre2 & Hw2 & Hf2).
    { apply Hg. }
    { apply Hg. eapply Forall_impl; [exact Hs|]. by intros r [_ ?]. }
    rewrite (bind_run _ _ _ _ _ E2). cbn [app] in Hpre2.
    rewrite (hg_unmarked _ _ _ _ _ _ _ _ _ _ _ _ _ Hg), (settled_unmarked l Hs) in *.
    exists p2. split; [done|]. split; [done|]. split.
    + intros x. rewrite Hf2, (marked_owned_regions phys_base ram_size none T root l1 p1 x) by apply Hg.
      rewrite (hg_free _ _ _ _ _ _ _ _ _ _ _ _ _ Hg). pose proof (settled_no_marks l x Hs). tauto.
    + intros x Hx. rewrite Hw2. by apply Hg.
  - assert (va' = hi) as ->.
    { destruct Hal as [a Ha], Hhi as [b Hb]. change PAGE_SIZE with 4096 in *. lia. }
    destruct (apply_mapping_run T root l1 p1) as [(T' & p' & Ea & Hpre' & Hw')|Hfail];
      [apply Hg | by eapply grown_pending | left | right; right; by exists l1, p1].
    exists T', (settle <$> l1), p'. unfold set_map. cbn [pt_root].
    rewrite (bind_run _ _ _ _ _ Ea). split; [done|]. split; [done|].
    split; [by eapply settle_settled, grown_pending | by eapply grown_extended].
Qed.

End Transactions.

(** ** Witnesses: an empty page table *)

Notation some_ok := (pt_pre 0x80000000 (2 ^ 22) (fun _ : Z => False)).

Lemma empty_ok : some_ok {[some_root := []]} some_root [] some_memory.
Proof.
  destruct some_table_inv as [Hvm Hz]. split.
  - eapply vm_inv_sub; [exact Hvm|]. intros x (va & pa & ty & st & H & _). discriminate H.
  - exact map_ok_nil.
  - intros va b H. discriminate H.
  - intros va _ _. exact (Hz va).
  - intros va pa ty st H. discriminate H.
  - intros va va' pa ty ty' st st' H. discriminate H.
Qed.

Definition some_page : Z := fst (pg_alloc ALLOC_FLAG_ZERO_MEMORY some_memory).
Definition page_memory : kernel_memory := snd (pg_alloc ALLOC_FLAG_ZERO_MEMORY some_memory).

Lemma some_page_not_null : some_page <> NULL.
Proof. vm_compute. discriminate. Qed.

Lemma page_ok :
  some_ok {[some_root := []]} some_root [page_region 0x80000000 some_page 0x10000 MM_REGION_USER_DATA]
    page_memory.
Proof.
  destruct (add_page 0x80000000 (2 ^ 22) (fun _ => False) {[some_root := []]} some_root [] some_memory some_page
    page_memory 0x10000 MM_REGION_USER_DATA empty_ok (alloc_pair _ _) some_page_not_null eq_refl
    ltac:(by exists 16) ltac:(lia) ltac:(lia) (fun _ _ => eq_refl)) as (_ & _ & H & _).
  exact H.
Qed.

Lemma page_pending : pending [page_region 0x80000000 some_page 0x10000 MM_REGION_USER_DATA].
Proof. constructor; [|constructor]. split; [discriminate|]. intros _. discriminate. Qed.


