(* ===== verification/Sleeplock.v ===== *)
(** * Sleep locks, sleep and wakeup (kernel/lib/sleeplock.c, kernel/kernel/proc.c,
      kernel/kernel/scheduler.c, kernel/lib/spinlock.c)

    [n] processes use one sleep lock, each at any time and in any order.  The
    steps of a process are the atomic operations of the C code; a schedule is the
    list of the processes that take the next step, with their choice where the
    code has one, so every interleaving on every number of CPUs is a schedule.
    Spin locks carry their holder, which the code only has with
    [CONFIG_DEBUG_SPINLOCK]; a CPU that runs a process, or the scheduler on its
    behalf, is named by the process.  The list of processes does not change here,
    so its lock is left out; so are the moments in which the scheduler holds the lock of
    a process that turns out not to be runnable, and the wakeups of the timer, which
    wait on another channel. *)
From stdpp Require Import list.
From S2P Require Import Prelude.

(** ** State *)

Inductive process_state := SLEEPING | RUNNABLE | RUNNING.

#[export] Instance process_state_eq_dec : EqDecision process_state.
Proof. solve_decision. Defined.

(** The places where a process holds no spin lock, so that a timer interrupt can
    make it yield: outside of the functions below, with or without the sleep lock,
    and before it takes the spin lock of the sleep lock. *)
Inductive place := P_outside (holding : bool) | P_lock | P_trylock | P_unlock.

(** Where a process continues when the scheduler runs it again. *)
Inductive resume := in_sleep | in_yield (k : place).

(** The next operation of a process. *)
Inductive pc_t :=
(* outside; the argument tells whether the process holds the sleep lock *)
| Outside (holding : bool)
(* sleep_lock *)
| SL_spin | SL_test | SL_set | SL_unlock
(* sleep_trylock *)
| T_spin | T_test | T_fail
(* sleep *)
| S_plock | S_unlk | S_chan | S_state | S_tidy | S_punlock
(* yield *)
| Y_plock (k : place) | Y_state (k : place) | Y_punlock (k : place)
(* sched, and the scheduler *)
| C_sched (r : resume) | C_unlock (r : resume) | C_pick (r : resume)
(* sleep_unlock *)
| U_spin | U_clear | U_unlock
(* wakeup *)
| W_wait | W_loop (i : nat) | W_test (i : nat) | W_rel (i : nat) | W_done.

#[export] Instance place_eq_dec : EqDecision place.
Proof. solve_decision. Defined.
#[export] Instance resume_eq_dec : EqDecision resume.
Proof. solve_decision. Defined.
#[export] Instance pc_eq_dec : EqDecision pc_t.
Proof. solve_decision. Defined.

(** [struct process] with its place in the code. *)
Record process := mk_process {
  p_lock : option nat;
  p_state : process_state;
  p_chan : bool;             (* waits for the sleep lock *)
  p_pc : pc_t
}.

(** [struct sleeplock] with the processes and [g_wait_lock]. *)
Record state := mk_state {
  lk : option nat;
  locked : bool;
  g_wait_lock : option nat;
  procs : nat -> process
}.

Definition set_lk (o : option nat) (s : state) : state := mk_state o (locked s) (g_wait_lock s) (procs s).
Definition set_locked (b : bool) (s : state) : state := mk_state (lk s) b (g_wait_lock s) (procs s).
Definition set_wait (o : option nat) (s : state) : state := mk_state (lk s) (locked s) o (procs s).
Definition set_proc (i : nat) (x : process) (s : state) : state :=
  mk_state (lk s) (locked s) (g_wait_lock s) (upd i x (procs s)).

Definition goto (p : nat) (pc : pc_t) (s : state) : state :=
  let x := procs s p in set_proc p (mk_process (p_lock x) (p_state x) (p_chan x) pc) s.
Definition set_plock (i : nat) (o : option nat) (s : state) : state :=
  let x := procs s i in set_proc i (mk_process o (p_state x) (p_chan x) (p_pc x)) s.
Definition set_state (i : nat) (st : process_state) (s : state) : state :=
  let x := procs s i in set_proc i (mk_process (p_lock x) st (p_chan x) (p_pc x)) s.
Definition set_chan (i : nat) (c : bool) (s : state) : state :=
  let x := procs s i in set_proc i (mk_process (p_lock x) (p_state x) c (p_pc x)) s.

(** ** The code

    One step of each function; [None] is a process that spins or is not run. *)

(** [spin_lock] takes a free lock, on a lock that is held it spins. *)
Definition spin_lock (o : option nat) (p : nat) : option (option nat) :=
  match o with None => Some (Some p) | Some _ => None end.

(** [spin_trylock] returns whether it took the lock. *)
Definition spin_trylock (o : option nat) (p : nat) : bool * option nat :=
  match o with None => (true, Some p) | Some _ => (false, o) end.

Definition spin_unlock : option nat := None.

Definition step_sleep_lock (p : nat) (s : state) : option state :=
  match p_pc (procs s p) with
  | SL_spin => o ← spin_lock (lk s) p; Some (goto p SL_test (set_lk o s))
  | SL_test => Some (goto p (if locked s then S_plock else SL_set) s)
  | SL_set => Some (goto p SL_unlock (set_locked true s))
  | SL_unlock => Some (goto p (Outside true) (set_lk spin_unlock s))
  | _ => None
  end.

Definition step_sleep_trylock (p : nat) (s : state) : option state :=
  match p_pc (procs s p) with
  | T_spin =>
      let '(got, o) := spin_trylock (lk s) p in
      Some (goto p (if got then T_test else Outside false) (set_lk o s))
  | T_test => Some (goto p (if locked s then T_fail else SL_set) s)
  | T_fail => Some (goto p (Outside false) (set_lk spin_unlock s))
  | _ => None
  end.

Definition step_sleep (p : nat) (s : state) : option state :=
  match p_pc (procs s p) with
  | S_plock => o ← spin_lock (p_lock (procs s p)) p; Some (goto p S_unlk (set_plock p o s))
  | S_unlk => Some (goto p S_chan (set_lk spin_unlock s))
  | S_chan => Some (goto p S_state (set_chan p true s))
  | S_state => Some (goto p (C_sched in_sleep) (set_state p SLEEPING s))
  | S_tidy => Some (goto p S_punlock (set_chan p false s))
  | S_punlock => Some (goto p SL_spin (set_plock p spin_unlock s))
  | _ => None
  end.

Definition place_pc (k : place) : pc_t :=
  match k with
  | P_outside h => Outside h | P_lock => SL_spin | P_trylock => T_spin | P_unlock => U_spin
  end.

Definition step_yield (p : nat) (s : state) : option state :=
  match p_pc (procs s p) with
  | Y_plock k => o ← spin_lock (p_lock (procs s p)) p; Some (goto p (Y_state k) (set_plock p o s))
  | Y_state k => Some (goto p (C_sched (in_yield k)) (set_state p RUNNABLE s))
  | Y_punlock k => Some (goto p (place_pc k) (set_plock p spin_unlock s))
  | _ => None
  end.

Definition resume_pc (r : resume) : pc_t :=
  match r with in_sleep => S_tidy | in_yield k => Y_punlock k end.

(** [sched] switches to the scheduler, which gives up the lock of the process it
    ran; [get_next_runnable_process] takes the lock of a process, and the scheduler
    switches to it if it is runnable. *)
Definition step_scheduler (p : nat) (s : state) : option state :=
  match p_pc (procs s p) with
  | C_sched r => Some (goto p (C_unlock r) s)
  | C_unlock r => Some (goto p (C_pick r) (set_plock p spin_unlock s))
  | C_pick r =>
      let '(got, o) := spin_trylock (p_lock (procs s p)) p in
      if (got && bool_decide (p_state (procs s p) = RUNNABLE))%bool
      then Some (goto p (resume_pc r) (set_state p RUNNING (set_plock p o s)))
      else None
  | _ => None
  end.

Definition step_sleep_unlock (p : nat) (s : state) : option state :=
  match p_pc (procs s p) with
  | U_spin => o ← spin_lock (lk s) p; Some (goto p U_clear (set_lk o s))
  | U_clear => Some (goto p W_wait (set_locked false s))
  | U_unlock => Some (goto p (Outside false) (set_lk spin_unlock s))
  | _ => None
  end.

(** The loop over the [n] processes of [wakeup_holding_plist_lock]. *)
Definition step_wakeup (n p : nat) (s : state) : option state :=
  match p_pc (procs s p) with
  | W_wait => o ← spin_lock (g_wait_lock s) p; Some (goto p (W_loop 0) (set_wait o s))
  | W_loop i =>
      if (n <=? i)%nat then Some (goto p W_done s)
      else if (i =? p)%nat then Some (goto p (W_loop (S i)) s)
      else o ← spin_lock (p_lock (procs s i)) p; Some (goto p (W_test i) (set_plock i o s))
  | W_test i =>
      Some (goto p (W_rel i)
        (if (bool_decide (p_state (procs s i) = SLEEPING) && p_chan (procs s i))%bool
         then set_state i RUNNABLE s else s))
  | W_rel i => Some (goto p (W_loop (S i)) (set_plock i spin_unlock s))
  | W_done => Some (goto p U_unlock (set_wait spin_unlock s))
  | _ => None
  end.

(** What a process does when its code leaves a choice. *)
Inductive action := go | lock | trylock | unlock | do_yield.

Definition step_outside (a : action) (p : nat) (s : state) : option state :=
  match p_pc (procs s p), a with
  | Outside false, lock => Some (goto p SL_spin s)
  | Outside false, trylock => Some (goto p T_spin s)
  | Outside true, unlock => Some (goto p U_spin s)
  | Outside h, do_yield => Some (goto p (Y_plock (P_outside h)) s)
  | SL_spin, do_yield => Some (goto p (Y_plock P_lock) s)
  | T_spin, do_yield => Some (goto p (Y_plock P_trylock) s)
  | U_spin, do_yield => Some (goto p (Y_plock P_unlock) s)
  | _, _ => None
  end.

(** [proc_send_signal] wakes a sleeping process, whatever it waits for. *)
Definition proc_send_signal (p : nat) (s : state) : option state :=
  match p_lock (procs s p) with
  | None => Some (if bool_decide (p_state (procs s p) = SLEEPING) then set_state p RUNNABLE s else s)
  | Some _ => None
  end.

Definition step_go (n p : nat) (s : state) : option state :=
  match step_sleep_lock p s with
  | Some s' => Some s'
  | None => match step_sleep_trylock p s with
  | Some s' => Some s'
  | None => match step_sleep p s with
  | Some s' => Some s'
  | None => match step_yield p s with
  | Some s' => Some s'
  | None => match step_scheduler p s with
  | Some s' => Some s'
  | None => match step_sleep_unlock p s with
  | Some s' => Some s'
  | None => step_wakeup n p s
  end end end end end end.

Inductive event := Step (p : nat) (a : action) | Signal (p : nat).

Definition step (n : nat) (e : event) (s : state) : option state :=
  match e with
  | Step p go => if (p <? n)%nat then step_go n p s else None
  | Step p a => if (p <? n)%nat then step_outside a p s else None
  | Signal p => if (p <? n)%nat then proc_send_signal p s else None
  end.

(** A schedule; events that are not possible are skipped. *)
Fixpoint run (n : nat) (es : list event) (s : state) : state :=
  match es with
  | [] => s
  | e :: es => run n es (default s (step n e s))
  end.

Definition init : state :=
  mk_state None false None (fun _ => mk_process None RUNNING false (Outside false)).

Inductive reachable (n : nat) : state -> Prop :=
| reach_init : reachable n init
| reach_step e s s' : reachable n s -> step n e s = Some s' -> reachable n s'.

(** ** What a process holds at each place *)

Definition place_holds (k : place) : bool :=
  match k with P_outside h => h | P_lock | P_trylock => false | P_unlock => true end.

Definition resume_holds (r : resume) : bool :=
  match r with in_sleep => false | in_yield k => place_holds k end.

(** The process holds the sleep lock. *)
Definition owner (pc : pc_t) : bool :=
  match pc with
  | Outside h => h
  | SL_unlock | U_spin | U_clear => true
  | Y_plock k | Y_state k | Y_punlock k => place_holds k
  | C_sched r | C_unlock r | C_pick r => resume_holds r
  | _ => false
  end.

(** The process holds the spin lock of the sleep lock, [g_wait_lock], its own
    lock. *)
Definition has_lk (pc : pc_t) : bool :=
  match pc with
  | SL_test | SL_set | SL_unlock | T_test | T_fail | S_plock | S_unlk | U_clear | U_unlock
  | W_wait | W_loop _ | W_test _ | W_rel _ | W_done => true
  | _ => false
  end.

Definition has_wait (pc : pc_t) : bool :=
  match pc with W_loop _ | W_test _ | W_rel _ | W_done => true | _ => false end.

Definition has_own (pc : pc_t) : bool :=
  match pc with
  | S_unlk | S_chan | S_state | S_tidy | S_punlock | Y_state _ | Y_punlock _ | C_sched _ | C_unlock _ => true
  | _ => false
  end.

(** The process holds the lock of process [i] to wake it. *)
Definition visits (pc : pc_t) (i : nat) : bool :=
  match pc with W_test j | W_rel j => (j =? i)%nat | _ => false end.

(** The process will still look at process [i]. *)
Definition will_visit (pc : pc_t) (i : nat) : bool :=
  match pc with
  | W_wait => true
  | W_loop j | W_test j => (j <=? i)%nat
  | W_rel j => (j <? i)%nat
  | _ => false
  end.

(** The process goes to sleep and has given up the spin lock. *)
Definition dozing (x : process) : bool :=
  match p_pc x with S_chan | S_state => true | _ => bool_decide (p_state x = SLEEPING) end.

(** The states and channels a process has at each place. *)
Definition state_ok (x : process) : Prop :=
  match p_pc x with
  | C_sched in_sleep | C_unlock in_sleep => p_state x = SLEEPING /\ p_chan x = true
  | C_pick in_sleep => p_state x <> RUNNING /\ p_chan x = true
  | C_sched (in_yield _) | C_unlock (in_yield _) | C_pick (in_yield _) => p_state x = RUNNABLE
  | S_state => p_state x = RUNNING /\ p_chan x = true
  | _ => p_state x = RUNNING
  end.

(** A lock is held by the process at a place where the code holds it. *)
Definition held_by (h : pc_t -> bool) (o : option nat) (pcs : nat -> pc_t) : Prop :=
  forall q, o = Some q <-> h (pcs q) = true.

Definition plocks (ls : nat -> option nat) (pcs : nat -> pc_t) : Prop :=
  forall i q, ls i = Some q <-> (q = i /\ has_own (pcs i) = true) \/ visits (pcs q) i = true.

Definition pcs (s : state) (q : nat) : pc_t := p_pc (procs s q).
Definition plks (s : state) (q : nat) : option nat := p_lock (procs s q).

Record inv (n : nat) (s : state) : Prop := mk_inv {
  i_lk : held_by has_lk (lk s) (pcs s);
  i_wait : held_by has_wait (g_wait_lock s) (pcs s);
  i_plock : plocks (plks s) (pcs s);
  i_self : forall i q, visits (pcs s q) i = true -> i <> q /\ (i < n)%nat;
  i_owner : locked s = true <-> exists q, owner (pcs s q) = true;
  i_unique : forall q q', owner (pcs s q) = true -> owner (pcs s q') = true -> q = q';
  i_set : forall q, pcs s q = SL_set -> locked s = false;
  i_tested : forall q, pcs s q = S_plock \/ pcs s q = S_unlk -> locked s = true;
  i_state : forall q, state_ok (procs s q);
  i_rel : forall i q, pcs s q = W_rel i -> p_state (procs s i) <> SLEEPING;
  i_wake : forall q, (q < n)%nat -> dozing (procs s q) = true ->
    locked s = true \/ exists w, will_visit (pcs s w) q = true
}.

Lemma inv_init n : inv n init.
Proof. split; cbn; try done; try (intros ??; naive_solver); naive_solver. Qed.

(** ** Locks and moves

    What a move of process [p] to [pc'] does to the holders of the locks. *)

Section Move.
Context (f f' : nat -> pc_t) (p : nat) (pc pc' : pc_t).
Context (Hpc : f p = pc) (Hp : f' p = pc') (Hother : forall q, q <> p -> f' q = f q).

Lemma held_keep h o : held_by h o f -> h pc' = h pc -> held_by h o f'.
Proof using All.
  intros H E q. rewrite (H q). destruct (decide (q = p)) as [->|Hq]; [|by rewrite Hother].
  by rewrite Hp, Hpc, E.
Qed.

Lemma held_take h : held_by h None f -> h pc' = true -> held_by h (Some p) f'.
Proof using All.
  intros H E q. destruct (decide (q = p)) as [->|Hq]; [by rewrite Hp|]. rewrite Hother by done.
  rewrite <- (H q). split; congruence.
Qed.

Lemma held_drop h o : held_by h o f -> h pc = true -> h pc' = false -> held_by h None f'.
Proof using All.
  intros H E E' q. split; [done|]. destruct (decide (q = p)) as [->|Hq]; [rewrite Hp; congruence|].
  rewrite Hother by done. intros Hq'. apply H in Hq'. rewrite <- Hpc in E. apply H in E. congruence.
Qed.

Lemma plocks_keep ls ls' :
  plocks ls f -> (forall i, ls' i = ls i) -> has_own pc' = has_own pc ->
  (forall i, visits pc' i = visits pc i) -> plocks ls' f'.
Proof using All.
  intros H El Eo Ev i q. rewrite El, (H i q).
  assert (forall j, has_own (f' j) = has_own (f j)) as ->.
  { intros j. destruct (decide (j = p)) as [->|]; [by rewrite Hp, Hpc | by rewrite Hother]. }
  assert (visits (f' q) i = visits (f q) i) as ->; [|done].
  destruct (decide (q = p)) as [->|]; [by rewrite Hp, Hpc | by rewrite Hother].
Qed.

Lemma plocks_take_own ls ls' :
  plocks ls f -> ls p = None -> ls' p = Some p -> (forall i, i <> p -> ls' i = ls i) ->
  has_own pc' = true -> (forall i, visits pc' i = false) -> (forall i, visits pc i = false) -> plocks ls' f'.
Proof using All.
  intros H E Ep El Eo Ev Ev0 i q. destruct (decide (i = p)) as [->|Hi].
  - rewrite Ep, Hp. split; [intros [= ->]; by left|]. intros [[-> _]|Hv]; [done|].
    destruct (decide (q = p)) as [->|Hq]; [done|]. rewrite Hother in Hv by done.
    assert (ls p = Some q) as Hl by (apply H; by right). congruence.
  - rewrite El, (H i q), Hother by done. destruct (decide (q = p)) as [->|Hq]; [|by rewrite Hother].
    by rewrite Hp, Hpc, Ev, Ev0.
Qed.

Lemma plocks_drop_own ls ls' :
  plocks ls f -> has_own pc = true -> ls' p = None -> (forall i, i <> p -> ls' i = ls i) ->
  has_own pc' = false -> (forall i, visits pc' i = false) -> (forall i, visits pc i = false) -> plocks ls' f'.
Proof using All.
  intros H E Ep El Eo Ev Ev0 i q. destruct (decide (i = p)) as [->|Hi].
  - rewrite Ep, Hp. split; [done|]. intros [[-> ?]|Hv]; [congruence|].
    destruct (decide (q = p)) as [->|Hq]; [rewrite Hp, Ev in Hv; done|]. rewrite Hother in Hv by done.
    assert (ls p = Some q) as Hl by (apply H; by right).
    assert (ls p = Some p) as Hl' by (apply H; left; by rewrite Hpc). congruence.
  - rewrite El, (H i q), Hother by done. destruct (decide (q = p)) as [->|Hq]; [|by rewrite Hother].
    by rewrite Hp, Hpc, Ev, Ev0.
Qed.

Lemma plocks_take_visit ls ls' i :
  plocks ls f -> ls i = None -> ls' i = Some p -> (forall j, j <> i -> ls' j = ls j) -> i <> p ->
  has_own pc' = false -> has_own pc = false ->
  (forall j, visits pc' j = true <-> j = i) -> (forall j, visits pc j = false) -> plocks ls' f'.
Proof using All.
  intros H E Ei El Hne Eo Eo0 Ev Ev0 j q.
  assert (forall k, has_own (f' k) = has_own (f k)) as ->.
  { intros k. destruct (decide (k = p)) as [->|]; [by rewrite Hp, Hpc, Eo, Eo0 | by rewrite Hother]. }
  destruct (decide (j = i)) as [->|Hj].
  - rewrite Ei. split.
    + intros [= <-]. right. rewrite Hp. by apply Ev.
    + intros Hh. destruct (decide (q = p)) as [->|Hq]; [done|]. rewrite Hother in Hh by done.
      apply H in Hh. congruence.
  - rewrite El, (H j q) by done. destruct (decide (q = p)) as [->|Hq]; [|by rewrite Hother].
    rewrite Hp, Hpc, Ev0. specialize (Ev j). destruct (visits pc' j); naive_solver.
Qed.

Lemma plocks_drop_visit ls ls' i :
  plocks ls f -> ls' i = None -> (forall j, j <> i -> ls' j = ls j) ->
  has_own pc' = false -> has_own pc = false ->
  (forall j, visits pc j = true <-> j = i) -> (forall j, visits pc' j = false) -> plocks ls' f'.
Proof using All.
  intros H Ei El Eo Eo0 Ev Ev0 j q.
  assert (forall k, has_own (f' k) = has_own (f k)) as ->.
  { intros k. destruct (decide (k = p)) as [->|]; [by rewrite Hp, Hpc, Eo, Eo0 | by rewrite Hother]. }
  assert (ls i = Some p) as Hl by (apply H; right; rewrite Hpc; by apply Ev).
  destruct (decide (j = i)) as [->|Hj].
  - rewrite Ei. split; [done|]. intros Hh. exfalso. destruct (decide (q = p)) as [->|Hq].
    + rewrite Hp, Ev0 in Hh. destruct Hh as [[-> Hh]|]; [|done]. rewrite Hpc in Hh. congruence.
    + rewrite Hother in Hh by done. apply H in Hh. congruence.
  - rewrite El, (H j q) by done. destruct (decide (q = p)) as [->|Hq]; [|by rewrite Hother].
    rewrite Hp, Hpc, Ev0. specialize (Ev j). destruct (visits pc j); naive_solver.
Qed.
End Move.

(** A lock is kept, taken or given up in a move. *)
Definition lock_moves (h : pc_t -> bool) (p : nat) (o o' : option nat) (pc pc' : pc_t) : Prop :=
  (o' = o /\ h pc' = h pc) \/ (o = None /\ o' = Some p /\ h pc' = true) \/
  (o' = None /\ h pc = true /\ h pc' = false).

(** ** Steps that change nothing but the process and its locks *)

Lemma waker_awake x i : state_ok x -> will_visit (p_pc x) i = true -> dozing x = false.
Proof.
  unfold state_ok, dozing. destruct (p_pc x); try done; intros E _; by rewrite bool_decide_eq_false, E.
Qed.

(** The holder of the spin lock is the only one that tested [locked]. *)
Lemma lk_exclusive n s p q :
  inv n s -> has_lk (pcs s p) = true -> has_lk (pcs s q) = true -> p = q.
Proof. intros I Hp%(i_lk _ _ I) Hq%(i_lk _ _ I). congruence. Qed.

Record local_step (s s' : state) (p : nat) (pc pc' : pc_t) : Prop := {
  ls_pc : pcs s p = pc;
  ls_pc' : pcs s' p = pc';
  ls_others : forall q, q <> p -> procs s' q = procs s q;
  ls_lk : lock_moves has_lk p (lk s) (lk s') pc pc';
  ls_wait : lock_moves has_wait p (g_wait_lock s) (g_wait_lock s') pc pc';
  ls_plock : lock_moves has_own p (plks s p) (plks s' p) pc pc';
  ls_visits : forall i, visits pc i = false;
  ls_visits' : forall i, visits pc' i = false;
  ls_locked : locked s' = locked s
}.

Lemma held_moves s s' p pc pc' h o o' :
  local_step s s' p pc pc' -> held_by h o (pcs s) -> lock_moves h p o o' pc pc' -> held_by h o' (pcs s').
Proof.
  intros L H. pose proof (ls_pc _ _ _ _ _ L) as E. pose proof (ls_pc' _ _ _ _ _ L) as E'.
  assert (forall q, q <> p -> pcs s' q = pcs s q) as Ho by (intros q Hq; unfold pcs; by rewrite (ls_others _ _ _ _ _ L)).
  intros [[-> Hh]|[(-> & -> & Hh)|(-> & Hh & Hh')]].
  - by apply (held_keep (pcs s) _ p pc pc').
  - by apply (held_take (pcs s) _ p pc pc').
  - by apply (held_drop (pcs s) _ p pc pc' E E' Ho h o).
Qed.

Lemma plocks_moves s s' p pc pc' :
  local_step s s' p pc pc' -> plocks (plks s) (pcs s) -> plocks (plks s') (pcs s').
Proof.
  intros L H. destruct L as [E E' Hoth _ _ Hm Hv Hv' _].
  assert (forall q, q <> p -> pcs s' q = pcs s q) as Ho by (intros q Hq; unfold pcs; by rewrite Hoth).
  assert (forall q, q <> p -> plks s' q = plks s q) as Hl by (intros q Hq; unfold plks; by rewrite Hoth).
  destruct Hm as [[Hk Hh]|[(Hn & Hs & Hh)|(Hn & Hh & Hh')]].
  - apply (plocks_keep (pcs s) _ p pc pc' E E' Ho (plks s)); [done | | done | by intros; rewrite Hv, Hv'].
    intros i. destruct (decide (i = p)) as [->|]; auto.
  - by apply (plocks_take_own (pcs s) _ p pc pc' E E' Ho (plks s)).
  - by apply (plocks_drop_own (pcs s) _ p pc pc' E E' Ho (plks s)).
Qed.

Lemma inv_local n s s' p pc pc' :
  inv n s -> local_step s s' p pc pc' -> owner pc' = owner pc ->
  (pc' = SL_set -> locked s = false) -> (pc' = S_plock \/ pc' = S_unlk -> locked s = true) ->
  state_ok (procs s' p) ->
  (p_state (procs s' p) = SLEEPING -> p_state (procs s p) = SLEEPING \/ has_own pc = true) ->
  (dozing (procs s' p) = true -> dozing (procs s p) = true \/ locked s = true) ->
  (forall q, (q < n)%nat -> q <> p -> will_visit pc q = true -> will_visit pc' q = true) ->
  inv n s'.
Proof.
  intros I L Eo Hset Htest Hst Hsl Hdoze Hwv. pose proof L as [E E' Hoth Hml Hmw Hmp Hv Hv' El].
  assert (forall q, q <> p -> pcs s' q = pcs s q) as Hpcs by (intros q Hq; unfold pcs; by rewrite Hoth).
  assert (forall q, owner (pcs s' q) = owner (pcs s q)) as Hown.
  { intros q. destruct (decide (q = p)) as [->|]; [by rewrite E, E' | by rewrite Hpcs]. }
  split.
  - by apply (held_moves s s' p pc pc' has_lk (lk s)); [|apply I|].
  - by apply (held_moves s s' p pc pc' has_wait (g_wait_lock s)); [|apply I|].
  - eapply plocks_moves; [done | apply I].
  - intros i q. destruct (decide (q = p)) as [->|]; [by rewrite E', Hv' | rewrite Hpcs by done; apply I].
  - setoid_rewrite Hown. rewrite El. apply I.
  - intros q q'. rewrite !Hown. apply I.
  - intros q. rewrite El. destruct (decide (q = p)) as [->|]; [by rewrite E' | rewrite Hpcs by done; apply I].
  - intros q. rewrite El. destruct (decide (q = p)) as [->|]; [by rewrite E' | rewrite Hpcs by done; apply I].
  - intros q. destruct (decide (q = p)) as [->|]; [done | rewrite Hoth by done; apply I].
  - intros i q Hq. destruct (decide (q = p)) as [->|Hqp].
    { specialize (Hv' i). rewrite <- E', Hq in Hv'. cbn in Hv'. by rewrite Nat.eqb_refl in Hv'. }
    rewrite Hpcs in Hq by done. pose proof (i_rel _ _ I i q Hq) as Hr.
    destruct (decide (i = p)) as [->|]; [|by rewrite Hoth]. intros Hs.
    destruct (Hsl Hs) as [|Ho]; [done|]. pose proof (i_plock _ _ I p) as HL.
    assert (plks s p = Some p) as H1 by (apply HL; left; by rewrite E).
    assert (plks s p = Some q) as H2 by (apply HL; right; rewrite Hq; cbn; apply Nat.eqb_refl). congruence.
  - intros q Hq Hd. rewrite El.
    assert (dozing (procs s q) = true \/ locked s = true) as [Hd'|]; [|clear Hd|by left].
    { destruct (decide (q = p)) as [->|]; [auto | rewrite <- Hoth by done; auto]. }
    destruct (i_wake _ _ I q Hq Hd') as [|[w Hw]]; [by left|]. right. exists w.
    destruct (decide (w = p)) as [->|]; [|by rewrite Hpcs]. rewrite E'. rewrite E in Hw.
    apply Hwv; [done | | done]. intros ->. rewrite <- E in Hw.
    rewrite (waker_awake _ _ (i_state _ _ I p) Hw) in Hd'. done.
Qed.

Ltac norm :=
  unfold pcs, plks, goto, set_plock, set_state, set_chan, set_proc, set_lk, set_locked, set_wait, spin_unlock in *;
  cbn [lk locked g_wait_lock procs p_lock p_state p_chan p_pc] in *;
  rewrite ?upd_eq in *; cbn [lk locked g_wait_lock procs p_lock p_state p_chan p_pc] in *.

(** The lock moves, or stays. *)
Ltac moves := first [by left | by right; left | by right; right].

Ltac local I p Epc :=
  let q := fresh "q" in let H := fresh "H" in
  let Hs := fresh "Hs" in
  pose proof (i_state _ _ I p) as Hs; unfold state_ok in Hs; rewrite Epc in Hs; cbn in Hs;
  eapply (inv_local _ _ _ p _ _ I);
  [split; [exact Epc | norm; reflexivity | intros q H; norm; rewrite ?upd_ne by done; done
     | norm; moves | norm; moves | norm; moves | done | done | done]
  | try done ..].

(** The conditions of [inv_local] on the process itself. *)
Ltac finish Epc :=
  norm; unfold state_ok, dozing in *; cbn [p_pc p_state p_chan] in *; rewrite ?Epc in *;
  cbn in *; intros; try done; try congruence; try (rewrite bool_decide_eq_true in *; congruence);
  try (destruct_and?; split; congruence); try naive_solver.

(** Taking and clearing [locked]: only a process with the spin lock does, so that
    no other has tested it. *)
Lemma inv_locked n p s b pc pc' :
  inv n s -> pcs s p = pc -> has_lk pc = true -> has_lk pc' = true ->
  has_wait pc = false -> has_wait pc' = false -> has_own pc = false -> has_own pc' = false ->
  (forall i, visits pc i = false) -> (forall i, visits pc' i = false) ->
  owner pc' = b -> (owner pc = negb b) -> (b = true -> locked s = false) ->
  pc' <> SL_set -> pc' <> S_plock -> pc' <> S_unlk ->
  state_ok (mk_process (p_lock (procs s p)) (p_state (procs s p)) (p_chan (procs s p)) pc') ->
  p_state (procs s p) = RUNNING -> dozing (mk_process (p_lock (procs s p)) RUNNING (p_chan (procs s p)) pc') = false ->
  (b = false -> forall i, will_visit pc' i = true) ->
  inv n (goto p pc' (set_locked b s)).
Proof.
  intros I E Hl Hl' Hw Hw' Ho Ho' Hv Hv' Hown Hown0 Hb N1 N2 N3 Hst Hrun Hdz Hwv.
  set (s' := goto p pc' (set_locked b s)).
  assert (pcs s' p = pc') as E' by (unfold s'; norm; done).
  assert (forall q, q <> p -> procs s' q = procs s q) as Hoth
    by (intros q Hq; unfold s'; norm; by rewrite upd_ne).
  assert (forall q, q <> p -> pcs s' q = pcs s q) as Hpcs by (intros q Hq; unfold pcs; by rewrite Hoth).
  assert (forall i, plks s' i = plks s i) as Hpl
    by (intros i; destruct (decide (i = p)) as [->|]; [unfold s'; norm; done | unfold plks; by rewrite Hoth]).
  assert (forall q, q <> p -> has_lk (pcs s q) = false) as Halone.
  { intros q Hq. destruct (has_lk (pcs s q)) eqn:Eq; [|done].
    destruct Hq. apply (lk_exclusive n s q p I Eq). by rewrite E. }
  assert (b = true -> forall q, owner (pcs s q) = false) as Hno.
  { intros Hb' q. destruct (owner (pcs s q)) eqn:Eq; [|done].
    assert (locked s = true) by (apply (i_owner _ _ I); eauto). rewrite Hb in *; done. }
  assert (b = false -> forall q, q <> p -> owner (pcs s q) = false) as Hone.
  { intros Hb' q Hq. destruct (owner (pcs s q)) eqn:Eq; [|done]. destruct Hq.
    apply (i_unique _ _ I q p Eq). by rewrite E, Hown0, Hb'. }
  assert (forall q, owner (pcs s' q) = true -> b = true /\ q = p) as Howner.
  { intros q. destruct (decide (q = p)) as [->|Hq]; [rewrite E'; intros; split; congruence|].
    rewrite Hpcs by done. intros Hq'. destruct b; [by rewrite Hno in Hq' | by rewrite Hone in Hq']. }
  split.
  - apply (held_keep (pcs s) _ p pc pc' E E' Hpcs); [apply I | by rewrite Hl, Hl'].
  - apply (held_keep (pcs s) _ p pc pc' E E' Hpcs); [apply I | by rewrite Hw, Hw'].
  - apply (plocks_keep (pcs s) _ p pc pc' E E' Hpcs (plks s)); [apply I | done | by rewrite Ho, Ho' |].
    intros i. by rewrite Hv, Hv'.
  - intros i q. destruct (decide (q = p)) as [->|]; [by rewrite E', Hv' | rewrite Hpcs by done; apply I].
  - split; [intros Hb'; exists p; rewrite E', Hown; exact Hb' | intros [q Hq]; by destruct (Howner q Hq)].
  - intros q q' H1 H2. destruct (Howner q H1), (Howner q' H2). congruence.
  - intros q Hq. destruct (decide (q = p)) as [->|Hqp]; [congruence|]. rewrite Hpcs in Hq by done.
    specialize (Halone q Hqp). by rewrite Hq in Halone.
  - intros q Hq. destruct (decide (q = p)) as [->|Hqp]; [rewrite E' in Hq; naive_solver|].
    rewrite Hpcs in Hq by done. specialize (Halone q Hqp). destruct Hq as [Hq|Hq]; by rewrite Hq in Halone.
  - intros q. destruct (decide (q = p)) as [->|]; [|rewrite Hoth by done; apply I]. unfold s'. norm. done.
  - intros i q Hq. destruct (decide (q = p)) as [->|Hqp].
    { specialize (Hv' i). rewrite <- E', Hq in Hv'. cbn in Hv'. by rewrite Nat.eqb_refl in Hv'. }
    rewrite Hpcs in Hq by done. pose proof (i_rel _ _ I i q Hq) as Hr.
    destruct (decide (i = p)) as [->|]; [|by rewrite Hoth]. unfold s'. norm. done.
  - intros q Hq Hd. destruct b; [by left|]. right. exists p. rewrite E'. auto.
Qed.

Lemma inv_set_locked n p s :
  inv n s -> p_pc (procs s p) = SL_set -> inv n (goto p SL_unlock (set_locked true s)).
Proof.
  intros I E. pose proof (i_state _ _ I p) as Hs. unfold state_ok in Hs. rewrite E in Hs.
  apply (inv_locked n p s true SL_set SL_unlock I E); try done. intros _. apply (i_set _ _ I p E).
Qed.

Lemma inv_clear_locked n p s :
  inv n s -> p_pc (procs s p) = U_clear -> inv n (goto p W_wait (set_locked false s)).
Proof.
  intros I E. pose proof (i_state _ _ I p) as Hs. unfold state_ok in Hs. rewrite E in Hs.
  by apply (inv_locked n p s false U_clear W_wait I E).
Qed.

Lemma inv_sleep_lock n p s s' : inv n s -> step_sleep_lock p s = Some s' -> inv n s'.
Proof.
  intros I. unfold step_sleep_lock. destruct (p_pc (procs s p)) eqn:Epc; try done.
  - unfold spin_lock. destruct (lk s) eqn:El; [done|]. cbn. intros [= <-].
    local I p Epc; finish Epc.
  - intros [= <-]. destruct (locked s) eqn:El; local I p Epc; finish Epc.
  - intros [= <-]. by apply inv_set_locked.
  - intros [= <-]. local I p Epc; finish Epc.
Qed.

Lemma inv_sleep_trylock n p s s' : inv n s -> step_sleep_trylock p s = Some s' -> inv n s'.
Proof.
  intros I. unfold step_sleep_trylock. destruct (p_pc (procs s p)) eqn:Epc; try done.
  - unfold spin_trylock. destruct (lk s) eqn:El; intros [= <-]; local I p Epc; finish Epc.
  - intros [= <-]. destruct (locked s) eqn:El; local I p Epc; finish Epc.
  - intros [= <-]. local I p Epc; finish Epc.
Qed.

Lemma inv_sleep n p s s' : inv n s -> step_sleep p s = Some s' -> inv n s'.
Proof.
  intros I. unfold step_sleep. destruct (p_pc (procs s p)) eqn:Epc; try done.
  - unfold spin_lock. destruct (p_lock (procs s p)) eqn:El; [done|]. cbn. intros [= <-].
    pose proof (i_tested _ _ I p (or_introl Epc)). local I p Epc; finish Epc.
  - intros [= <-]. pose proof (i_tested _ _ I p (or_intror Epc)). local I p Epc; finish Epc.
  - intros [= <-]. local I p Epc; finish Epc.
  - intros [= <-]. local I p Epc; finish Epc.
  - intros [= <-]. local I p Epc; finish Epc.
  - intros [= <-]. local I p Epc; finish Epc.
Qed.

Lemma inv_yield n p s s' : inv n s -> step_yield p s = Some s' -> inv n s'.
Proof.
  intros I. unfold step_yield. destruct (p_pc (procs s p)) eqn:Epc; try done.
  - unfold spin_lock. destruct (p_lock (procs s p)) eqn:El; [done|]. cbn. intros [= <-].
    local I p Epc; finish Epc.
  - intros [= <-]. local I p Epc; finish Epc.
  - intros [= <-]. destruct k as [[]| | |]; local I p Epc; finish Epc.
Qed.

Lemma inv_scheduler n p s s' : inv n s -> step_scheduler p s = Some s' -> inv n s'.
Proof.
  intros I. unfold step_scheduler. destruct (p_pc (procs s p)) eqn:Epc; try done.
  - intros [= <-]. destruct r; local I p Epc; finish Epc.
  - intros [= <-]. destruct r; local I p Epc; finish Epc.
  - unfold spin_trylock. destruct (p_lock (procs s p)) eqn:El; [done|]. cbn [andb].
    destruct (bool_decide_reflect (p_state (procs s p) = RUNNABLE)); [|done].
    intros [= <-]. destruct r; local I p Epc; finish Epc.
Qed.

Lemma inv_sleep_unlock n p s s' : inv n s -> step_sleep_unlock p s = Some s' -> inv n s'.
Proof.
  intros I. unfold step_sleep_unlock. destruct (p_pc (procs s p)) eqn:Epc; try done.
  - unfold spin_lock. destruct (lk s) eqn:El; [done|]. cbn. intros [= <-].
    local I p Epc; finish Epc.
  - intros [= <-]. by apply inv_clear_locked.
  - intros [= <-]. local I p Epc; finish Epc.
Qed.

Lemma inv_outside n a p s s' : inv n s -> step_outside a p s = Some s' -> inv n s'.
Proof.
  intros I. unfold step_outside.
  destruct (p_pc (procs s p)) eqn:Epc; try (match goal with h : bool |- _ => destruct h end);
    destruct a; try done; intros [= <-]; local I p Epc; finish Epc.
Qed.

(** ** The loop of [wakeup] and signals *)

(** A sleeping process is woken. *)
Lemma inv_wake_up n s i :
  inv n s -> p_state (procs s i) = SLEEPING -> pcs s i = C_pick in_sleep ->
  (forall q, pcs s q = W_rel i -> False) -> inv n (set_state i RUNNABLE s).
Proof.
  intros I Hs Hpc Hrel. set (s' := set_state i RUNNABLE s).
  assert (forall q, pcs s' q = pcs s q) as Hpcs.
  { intros q. unfold s'. norm. unfold upd. case_decide; [by subst | done]. }
  assert (forall q, plks s' q = plks s q) as Hpl.
  { intros q. unfold s'. norm. unfold upd. case_decide; [by subst | done]. }
  assert (forall q, q <> i -> procs s' q = procs s q) as Hoth by (intros q Hq; unfold s'; norm; by rewrite upd_ne).
  assert (p_state (procs s' i) = RUNNABLE /\ p_chan (procs s' i) = p_chan (procs s i)) as [Hi Hc]
    by (unfold s'; norm; done).
  split.
  - intros q. rewrite Hpcs. apply I.
  - intros q. rewrite Hpcs. apply I.
  - intros j q. rewrite !Hpcs, Hpl. apply I.
  - intros j q. rewrite Hpcs. apply I.
  - setoid_rewrite Hpcs. apply I.
  - intros q q'. rewrite !Hpcs. apply I.
  - intros q. rewrite Hpcs. apply I.
  - intros q. rewrite Hpcs. apply I.
  - intros q. destruct (decide (q = i)) as [->|]; [|rewrite Hoth by done; apply I].
    pose proof (i_state _ _ I i) as Hst. unfold state_ok in *. fold (pcs s i) in Hst. fold (pcs s' i).
    rewrite Hpcs. rewrite Hpc in *. rewrite Hi, Hc. split; [done | tauto].
  - intros j q. rewrite Hpcs. intros Hq. destruct (decide (j = i)) as [->|].
    + by rewrite Hi.
    + rewrite Hoth by done. by apply (i_rel _ _ I j q).
  - intros q Hq Hd. setoid_rewrite Hpcs. apply (i_wake _ _ I q Hq).
    destruct (decide (q = i)) as [->|]; [|by rewrite <- Hoth]. unfold dozing in Hd. fold (pcs s' i) in Hd.
    rewrite Hpcs, Hpc, Hi in Hd. done.
Qed.

(** Who sleeps and whose lock is held by another process, or free, waits to be
    picked. *)
Lemma sleeping_place n s i :
  inv n s -> p_state (procs s i) = SLEEPING -> plks s i <> Some i -> pcs s i = C_pick in_sleep.
Proof.
  intros I Hs Hl. pose proof (i_state _ _ I i) as Hst. unfold state_ok in Hst. fold (pcs s i) in Hst.
  assert (has_own (pcs s i) = false) as Hno.
  { destruct (has_own (pcs s i)) eqn:E; [|done]. destruct Hl. apply (i_plock _ _ I). by left. }
  destruct (pcs s i) as [| | | | | | | | | | | | | | | | | |r|r|r| | | | | | |] eqn:E; try congruence; try done;
    destruct r; try done; congruence.
Qed.

Lemma inv_signal n p s s' : inv n s -> proc_send_signal p s = Some s' -> inv n s'.
Proof.
  intros I. unfold proc_send_signal. destruct (p_lock (procs s p)) eqn:El; [done|]. intros [= <-].
  destruct (bool_decide_reflect (p_state (procs s p) = SLEEPING)) as [Hs|Hs]; [|done].
  apply inv_wake_up; [done | done | |].
  - eapply sleeping_place; [done | done |]. unfold plks. by rewrite El.
  - intros q Hq. by apply (i_rel _ _ I p q Hq).
Qed.

(** Moves in the loop: no state changes, and one lock of another process may. *)
Lemma inv_visit n s s' p pc pc' :
  inv n s -> pcs s p = pc -> pcs s' p = pc' -> (forall q, q <> p -> pcs s' q = pcs s q) ->
  (forall q, p_state (procs s' q) = p_state (procs s q) /\ p_chan (procs s' q) = p_chan (procs s q)) ->
  lk s' = lk s -> g_wait_lock s' = g_wait_lock s -> locked s' = locked s ->
  has_wait pc = true -> has_wait pc' = true ->
  plocks (plks s') (pcs s') -> (forall i, visits pc' i = true -> i <> p /\ (i < n)%nat) ->
  (forall i, pc' = W_rel i -> p_state (procs s i) <> SLEEPING) ->
  (forall q, (q < n)%nat -> q <> p -> dozing (procs s q) = true ->
     will_visit pc q = true -> will_visit pc' q = true) ->
  inv n s'.
Proof.
  intros I E E' Hpcs Hst El Ew Elk Hw Hw' Hpl Hself Hrel Hwv.
  assert (forall h : pc_t -> bool, (forall c, has_wait c = true -> h c = h W_done) -> h pc' = h pc) as Hsame
    by (intros h Hh; by rewrite (Hh pc'), (Hh pc)).
  assert (has_lk pc' = has_lk pc) as Hlk by (apply Hsame; by intros []).
  assert (owner pc' = owner pc) as Hown by (apply Hsame; by intros []).
  assert (forall q, owner (pcs s' q) = owner (pcs s q)) as Howner.
  { intros q. destruct (decide (q = p)) as [->|]; [by rewrite E, E' | by rewrite Hpcs]. }
  assert (forall q, q <> p -> dozing (procs s' q) = dozing (procs s q)) as Hdz.
  { intros q Hq. unfold dozing. fold (pcs s' q). fold (pcs s q). by rewrite Hpcs, (proj1 (Hst q)). }
  split.
  - rewrite El. apply (held_keep (pcs s) _ p pc pc' E E' Hpcs); [apply I | done].
  - rewrite Ew. apply (held_keep (pcs s) _ p pc pc' E E' Hpcs); [apply I | by rewrite Hw, Hw'].
  - done.
  - intros i q. destruct (decide (q = p)) as [->|]; [rewrite E'; auto | rewrite Hpcs by done; apply I].
  - setoid_rewrite Howner. rewrite Elk. apply I.
  - intros q q'. rewrite !Howner. apply I.
  - intros q. rewrite Elk. destruct (decide (q = p)) as [->|]; [rewrite E'; intros ->; done | rewrite Hpcs by done; apply I].
  - intros q. rewrite Elk. destruct (decide (q = p)) as [->|]; [rewrite E'; intros [-> | ->]; done | rewrite Hpcs by done; apply I].
  - intros q. pose proof (i_state _ _ I q) as Hq. unfold state_ok in *. fold (pcs s q) in Hq. fold (pcs s' q).
    destruct (Hst q) as [-> ->]. destruct (decide (q = p)) as [->|]; [|by rewrite Hpcs].
    rewrite E'. rewrite E in Hq. destruct pc'; try done; destruct pc; done.
  - intros i q Hq. destruct (Hst i) as [-> _]. destruct (decide (q = p)) as [->|].
    + apply Hrel. by rewrite <- E'.
    + rewrite Hpcs in Hq by done. by apply (i_rel _ _ I i q).
  - intros q Hq Hd. rewrite Elk. destruct (decide (q = p)) as [->|Hqp].
    { exfalso. pose proof (i_state _ _ I p) as Hp. unfold state_ok in Hp. fold (pcs s p) in Hp. rewrite E in Hp.
      unfold dozing in Hd. fold (pcs s' p) in Hd. rewrite E', (proj1 (Hst p)) in Hd.
      destruct pc; try done; destruct pc'; try done; by rewrite Hp in Hd. }
    rewrite Hdz in Hd by done. destruct (i_wake _ _ I q Hq Hd) as [|[w Hv]]; [by left|]. right. exists w.
    destruct (decide (w = p)) as [->|]; [|by rewrite Hpcs]. rewrite E'. rewrite E in Hv. auto.
Qed.

(** The fields after a lock of another process changed and the process moved. *)
Lemma visit_fields p pc i o s :
  i <> p -> let s' := goto p pc (set_plock i o s) in
  pcs s' p = pc /\ (forall q, q <> p -> pcs s' q = pcs s q) /\
  (forall q, p_state (procs s' q) = p_state (procs s q) /\ p_chan (procs s' q) = p_chan (procs s q)) /\
  plks s' i = o /\ (forall j, j <> i -> plks s' j = plks s j).
Proof.
  intros Hne s'. unfold s'. norm. rewrite (upd_ne i p) by done. split; [done|].
  split; [|split; [|split]].
  - intros q Hq. rewrite upd_ne by done. destruct (decide (q = i)) as [->|]; by rewrite ?upd_eq, ?upd_ne.
  - intros q. destruct (decide (q = p)) as [->|]; [by rewrite upd_eq|]. rewrite upd_ne by done.
    destruct (decide (q = i)) as [->|]; by rewrite ?upd_eq, ?upd_ne.
  - rewrite upd_ne, upd_eq by done. done.
  - intros j Hj. destruct (decide (j = p)) as [->|]; [by rewrite upd_eq|]. by rewrite !upd_ne.
Qed.

Lemma inv_visit_take n p i s :
  inv n s -> pcs s p = W_loop i -> i <> p -> (i < n)%nat -> plks s i = None ->
  inv n (goto p (W_test i) (set_plock i (Some p) s)).
Proof.
  intros I E Hne Hi El. destruct (visit_fields p (W_test i) i (Some p) s Hne) as (F1 & F2 & F3 & F4 & F5).
  apply (inv_visit n s _ p (W_loop i) (W_test i) I E F1 F2 F3); try done.
  - apply (plocks_take_visit (pcs s) _ p (W_loop i) (W_test i) E F1 F2 (plks s) _ i); try done; [apply I|].
    intros j. cbn. rewrite Nat.eqb_eq. naive_solver.
  - intros j Hj. cbn in Hj. apply Nat.eqb_eq in Hj. by subst.
Qed.

Lemma inv_visit_drop n p i s :
  inv n s -> pcs s p = W_rel i -> inv n (goto p (W_loop (S i)) (set_plock i None s)).
Proof.
  intros I E. assert (i <> p /\ (i < n)%nat) as [Hne Hi] by (apply (i_self _ _ I); rewrite E; cbn; apply Nat.eqb_refl).
  destruct (visit_fields p (W_loop (S i)) i None s Hne) as (F1 & F2 & F3 & F4 & F5).
  apply (inv_visit n s _ p (W_rel i) (W_loop (S i)) I E F1 F2 F3); try done.
  apply (plocks_drop_visit (pcs s) _ p (W_rel i) (W_loop (S i)) E F1 F2 (plks s) _ i); try done; [apply I|].
  intros j. cbn. rewrite Nat.eqb_eq. naive_solver.
Qed.

(** The visited process does not doze any more. *)
Lemma inv_visit_test n p i s :
  inv n s -> pcs s p = W_test i ->
  inv n (goto p (W_rel i)
    (if (bool_decide (p_state (procs s i) = SLEEPING) && p_chan (procs s i))%bool
     then set_state i RUNNABLE s else s)).
Proof.
  intros I E. assert (i <> p /\ (i < n)%nat) as [Hne Hi] by (apply (i_self _ _ I); rewrite E; cbn; apply Nat.eqb_refl).
  assert (plks s i = Some p) as Hl by (apply (i_plock _ _ I); right; rewrite E; cbn; apply Nat.eqb_refl).
  assert (has_own (pcs s i) = false) as Hno.
  { destruct (has_own (pcs s i)) eqn:Ho; [|done].
    assert (plks s i = Some i) by (apply (i_plock _ _ I); by left). congruence. }
  set (s1 := if (_ && _)%bool then _ else _).
  assert (inv n s1 /\ (forall q, pcs s1 q = pcs s q) /\ (forall q, plks s1 q = plks s q) /\
    p_state (procs s1 i) <> SLEEPING) as (I1 & Hpcs & Hpl & Hs).
  { unfold s1. destruct (bool_decide_reflect (p_state (procs s i) = SLEEPING)) as [Hs|Hs]; cbn [andb]; [|done].
    assert (pcs s i = C_pick in_sleep) as Hpc by (eapply sleeping_place; [done..|congruence]).
    pose proof (i_state _ _ I i) as Hst. unfold state_ok in Hst. fold (pcs s i) in Hst. rewrite Hpc in Hst.
    destruct Hst as [_ ->]. split.
    - apply inv_wake_up; try done. intros q Hq. by apply (i_rel _ _ I i q Hq).
    - norm. split; [|split; [|done]]; intros q; unfold upd; case_decide; by subst. }
  clearbody s1.
  apply (inv_visit n s1 _ p (W_test i) (W_rel i) I1); try done.
  - by rewrite Hpcs.
  - norm. done.
  - intros q Hq. norm. by rewrite upd_ne.
  - intros q. norm. unfold upd. case_decide; by subst.
  - eapply (plocks_keep (pcs s1) _ p (W_test i) (W_rel i)); [by rewrite Hpcs | norm; done | | apply I1 | | done | done].
    + intros q Hq. norm. by rewrite upd_ne.
    + intros q. norm. unfold upd. case_decide; by subst.
  - intros j Hj. cbn in Hj. apply Nat.eqb_eq in Hj. by subst.
  - intros j [= <-]. done.
  - intros q Hq Hqp Hd Hv. cbn in *. apply Nat.leb_le in Hv. apply Nat.ltb_lt.
    destruct (decide (q = i)) as [->|]; [|lia]. exfalso. unfold dozing in Hd. fold (pcs s1 i) in Hd.
    rewrite Hpcs in Hd. destruct (pcs s i); try done; apply bool_decide_eq_true in Hd; done.
Qed.

Lemma inv_wakeup n p s s' : inv n s -> (p < n)%nat -> step_wakeup n p s = Some s' -> inv n s'.
Proof.
  intros I Hn. unfold step_wakeup. destruct (p_pc (procs s p)) eqn:Epc; try done.
  - unfold spin_lock. destruct (g_wait_lock s) eqn:El; [done|]. cbn. intros [= <-].
    local I p Epc; finish Epc.
  - destruct (Nat.leb_spec n i) as [Hi|Hi].
    { intros [= <-]. local I p Epc; finish Epc. apply Nat.leb_le in H1. lia. }
    destruct (Nat.eqb_spec i p) as [->|Hip].
    { intros [= <-]. local I p Epc; finish Epc. apply Nat.leb_le in H1. destruct q; [lia|]. apply Nat.leb_le. lia. }
    unfold spin_lock. destruct (p_lock (procs s i)) eqn:El; [done|]. cbn. intros [= <-].
    by apply inv_visit_take.
  - intros [= <-]. by apply inv_visit_test.
  - intros [= <-]. by apply inv_visit_drop.
  - intros [= <-]. local I p Epc; finish Epc.
Qed.

Lemma inv_go n p s s' : inv n s -> (p < n)%nat -> step_go n p s = Some s' -> inv n s'.
Proof.
  intros I Hn. unfold step_go.
  destruct (step_sleep_lock p s) eqn:E1; [intros [= <-]; by eapply inv_sleep_lock|].
  destruct (step_sleep_trylock p s) eqn:E2; [intros [= <-]; by eapply inv_sleep_trylock|].
  destruct (step_sleep p s) eqn:E3; [intros [= <-]; by eapply inv_sleep|].
  destruct (step_yield p s) eqn:E4; [intros [= <-]; by eapply inv_yield|].
  destruct (step_scheduler p s) eqn:E5; [intros [= <-]; by eapply inv_scheduler|].
  destruct (step_sleep_unlock p s) eqn:E6; [intros [= <-]; by eapply inv_sleep_unlock|].
  by apply inv_wakeup.
Qed.

Lemma inv_step n e s s' : inv n s -> step n e s = Some s' -> inv n s'.
Proof.
  intros I. unfold step. destruct e as [p a|p].
  - destruct a; (destruct (Nat.ltb_spec p n); [|done]); first [by apply inv_go | by apply inv_outside].
  - destruct (p <? n)%nat; [|done]. by apply inv_signal.
Qed.

Lemma reachable_inv n s : reachable n s -> inv n s.
Proof. induction 1; [apply inv_init | by eapply inv_step]. Qed.

(** ** Progress

    The steps that complete what is going on: every step but the start of a new
    operation, a yield or a signal; a process that holds the lock gives it up. *)

Definition drain_step (n p : nat) (s : state) : option state :=
  match step_go n p s with
  | Some s' => Some s'
  | None => step_outside unlock p s
  end.

Definition can_step (n : nat) (s : state) : Prop := exists p s', (p < n)%nat /\ drain_step n p s = Some s'.

Definition idle (n : nat) (s : state) : Prop := forall p, (p < n)%nat -> pcs s p = Outside false.

(** A process that has only to take a step of its own code. *)
Ltac just_step p Epc :=
  exists p; unfold drain_step, step_go, step_sleep_lock, step_sleep_trylock, step_sleep, step_yield,
    step_scheduler, step_sleep_unlock, step_wakeup, step_outside;
  unfold pcs, plks in *; rewrite Epc; cbn.

Lemma plock_holder_steps n s i q :
  inv n s -> (q < n)%nat -> plks s i = Some q -> can_step n s.
Proof.
  intros I Hq Hl. apply (i_plock _ _ I) in Hl as [[-> Ho]|Hv].
  - destruct (pcs s i) eqn:E; try done; just_step i E; eauto.
  - destruct (pcs s q) eqn:E; try done; just_step q E; eauto.
Qed.

Lemma plock_progress n s i :
  inv n s -> (forall q, plks s i = Some q -> (q < n)%nat) ->
  can_step n s \/ plks s i = None.
Proof.
  intros I Hn. destruct (plks s i) as [q|] eqn:E; [left | by right]. eapply plock_holder_steps; eauto.
Qed.

Section Progress.
Context (n : nat) (s : state) (I : inv n s) (Hrange : forall q, (n <= q)%nat -> pcs s q = Outside false).

Lemma active_range q : pcs s q <> Outside false -> (q < n)%nat.
Proof using Hrange. intros H. destruct (decide (q < n)%nat); [done|]. destruct H. apply Hrange. lia. Qed.

Lemma plock_range i q : plks s i = Some q -> (q < n)%nat.
Proof using I Hrange.
  intros Hl. apply active_range. apply (i_plock _ _ I) in Hl as [[-> Ho]|Hv]; intros E.
  - by rewrite E in Ho.
  - by rewrite E in Hv.
Qed.

Lemma own_lock_progress p : can_step n s \/ plks s p = None.
Proof using I Hrange. apply plock_progress; [done | intros; by eapply plock_range]. Qed.

Lemma wait_holder_progress q : g_wait_lock s = Some q -> can_step n s.
Proof using I Hrange.
  intros H%(i_wait _ _ I). assert (q < n)%nat as Hq by (apply active_range; intros E; by rewrite E in H).
  destruct (pcs s q) eqn:E; try done.
  - destruct (Nat.leb_spec n i) as [Hi|Hi]; [just_step q E; rewrite (proj2 (Nat.leb_le n i)) by done; eauto|].
    destruct (Nat.eqb_spec i q) as [->|Hne].
    { just_step q E. rewrite (proj2 (Nat.leb_gt n q)), Nat.eqb_refl by lia. eauto. }
    destruct (own_lock_progress i) as [|El]; [done|].
    just_step q E. rewrite (proj2 (Nat.leb_gt n i)), (proj2 (Nat.eqb_neq i q)) by lia.
    unfold plks in El. rewrite El. eauto.
  - just_step q E; eauto.
  - just_step q E; eauto.
  - just_step q E; eauto.
Qed.

Lemma lk_holder_progress q : lk s = Some q -> can_step n s.
Proof using I Hrange.
  intros H%(i_lk _ _ I). assert (q < n)%nat as Hq by (apply active_range; intros E; by rewrite E in H).
  destruct (has_wait (pcs s q)) eqn:Hw; [by apply (wait_holder_progress q), (i_wait _ _ I)|].
  destruct (pcs s q) eqn:E; try done.
  - just_step q E; eauto.
  - just_step q E; eauto.
  - just_step q E; eauto.
  - just_step q E; eauto.
  - just_step q E; eauto.
  - destruct (own_lock_progress q) as [|El]; [done|]. just_step q E. rewrite El. eauto.
  - just_step q E; eauto.
  - just_step q E; eauto.
  - just_step q E; eauto.
  - destruct (g_wait_lock s) as [w|] eqn:Ew; [by apply (wait_holder_progress w)|].
    just_step q E. rewrite Ew. eauto.
Qed.

(** A process that is not asleep. *)
Lemma awake_progress p :
  (p < n)%nat -> lk s = None -> pcs s p <> Outside false -> p_state (procs s p) <> SLEEPING -> can_step n s.
Proof using I Hrange.
  intros Hp El Hne Hs.
  assert (has_lk (pcs s p) = false) as Hnl.
  { destruct (has_lk (pcs s p)) eqn:E; [|done]. apply (i_lk _ _ I) in E. congruence. }
  destruct (has_own (pcs s p)) eqn:Ho.
  { apply (plock_holder_steps n s p p I Hp), (i_plock _ _ I). by left. }
  pose proof (i_state _ _ I p) as Hst. unfold state_ok in Hst. fold (pcs s p) in Hst.
  destruct (own_lock_progress p) as [|Epl]; [done|]. unfold plks in Epl.
  destruct (pcs s p) eqn:E; try done.
  - destruct holding; [just_step p E; eauto | done].
  - just_step p E. rewrite El. eauto.
  - just_step p E. rewrite El. cbn. eauto.
  - just_step p E. rewrite Epl. eauto.
  - assert (p_state (procs s p) = RUNNABLE) as Er.
    { destruct r; [|done]. destruct Hst as [Hst _]. destruct (p_state (procs s p)); done. }
    just_step p E. rewrite Epl, Er. cbn. eauto.
  - just_step p E. rewrite El. eauto.
Qed.

Lemma progress : idle n s \/ can_step n s.
Proof using I Hrange.
  destruct (lk s) as [q|] eqn:El; [right; by apply (lk_holder_progress q)|].
  destruct (decide (Forall (fun p => pcs s p = Outside false) (seq 0 n))) as [Hall|Hex].
  { left. intros p Hp. rewrite Forall_forall in Hall. apply Hall, elem_of_seq. lia. }
  right. apply not_Forall_Exists in Hex; [|apply _]. apply Exists_exists in Hex as (p & Hp & Hne).
  apply elem_of_seq in Hp. destruct (decide (p_state (procs s p) = SLEEPING)) as [Hs|Hs].
  2:{ apply (awake_progress p); [lia | done..]. }
  destruct (i_wake _ _ I p) as [Hlk|[w Hw]]; [lia | | |].
  - unfold dozing. destruct (p_pc (procs s p)); by rewrite ?bool_decide_true.
  - apply (i_owner _ _ I) in Hlk as [q Hq].
    assert (pcs s q <> Outside false) as Hqn by (intros E; by rewrite E in Hq).
    apply (awake_progress q); [by apply active_range | done | done |].
    pose proof (i_state _ _ I q) as Hst. unfold state_ok in Hst. fold (pcs s q) in Hst.
    intros Hs'. rewrite Hs' in Hst. destruct (pcs s q); try done; destruct r; done.
  - exfalso. assert (has_lk (pcs s w) = true) as Hl by (destruct (pcs s w); done).
    apply (i_lk _ _ I) in Hl. congruence.
Qed.
End Progress.

(** ** Termination

    How many visits of other processes a process can still make, and how many
    steps until the next one, until it sleeps or until it is done. *)

Definition place_visits (n : nat) (k : place) : nat :=
  match k with P_outside false => 0 | _ => S n end.

Definition visits_left (n : nat) (pc : pc_t) : nat :=
  match pc with
  | Outside h => place_visits n (P_outside h)
  | T_fail | U_unlock | W_done => 0
  | Y_plock k | Y_state k | Y_punlock k => place_visits n k
  | C_sched (in_yield k) | C_unlock (in_yield k) | C_pick (in_yield k) => place_visits n k
  | W_loop i | W_test i => n - i
  | W_rel i => n - S i
  | _ => S n
  end.

Definition pc_steps (pc : pc_t) : nat :=
  match pc with
  | Outside false => 0 | Outside true => 8
  | SL_spin => 12 | SL_test => 11 | SL_set => 10 | SL_unlock => 9
  | T_spin => 12 | T_test => 11 | T_fail => 1
  | S_plock => 6 | S_unlk => 5 | S_chan => 4 | S_state => 3 | S_tidy => 14 | S_punlock => 13
  | U_spin => 7 | U_clear => 6 | U_unlock => 1
  | W_wait => 5 | W_loop _ => 4 | W_test _ => 3 | W_rel _ => 5 | W_done => 2
  | C_sched in_sleep => 2 | C_unlock in_sleep => 1
  | _ => 0
  end.

Definition steps_left (pc : pc_t) (st : process_state) : nat :=
  match pc with
  | Y_plock k => 6 + pc_steps (place_pc k)
  | Y_state k => 5 + pc_steps (place_pc k)
  | C_sched (in_yield k) => 4 + pc_steps (place_pc k)
  | C_unlock (in_yield k) => 3 + pc_steps (place_pc k)
  | C_pick (in_yield k) => 2 + pc_steps (place_pc k)
  | Y_punlock k => 1 + pc_steps (place_pc k)
  | C_pick in_sleep => if decide (st = RUNNABLE) then 15 else 0
  | _ => pc_steps pc
  end.

Definition weight (n : nat) (s : state) (q : nat) : nat :=
  100 * visits_left n (pcs s q) + steps_left (pcs s q) (p_state (procs s q)).

Definition measure (n : nat) (s : state) : nat := sum_list (weight n s <$> seq 0 n).

Lemma sum_changed (f g : nat -> nat) p : forall m k,
  (forall q, q <> p -> g q = f q) -> (k <= p < k + m)%nat ->
  (sum_list (g <$> seq k m) + f p = sum_list (f <$> seq k m) + g p)%nat.
Proof.
  induction m as [|m IH]; intros k Hother Hp; [lia|]. cbn.
  destruct (decide (k = p)) as [->|Hk].
  - assert (g <$> seq (S p) m = f <$> seq (S p) m) as E.
    { apply list_fmap_ext. intros j x Hx. apply lookup_seq in Hx. apply Hother. lia. }
    unfold fmap in E |- *. rewrite E. lia.
  - rewrite (Hother k) by done. specialize (IH (S k) Hother ltac:(lia)). unfold fmap in *. lia.
Qed.

Lemma measure_changed n s s' p :
  (p < n)%nat -> (forall q, q <> p -> weight n s' q = weight n s q) ->
  (measure n s' + weight n s p = measure n s + weight n s' p)%nat.
Proof. intros Hp H. apply sum_changed; [done | lia]. Qed.

(** A step of one process alone. *)
Lemma local_decreases n s p pc' st' s' :
  (p < n)%nat -> (forall q, q <> p -> pcs s' q = pcs s q /\ p_state (procs s' q) = p_state (procs s q)) ->
  pcs s' p = pc' -> p_state (procs s' p) = st' ->
  (100 * visits_left n pc' + steps_left pc' st' < weight n s p)%nat -> (measure n s' < measure n s)%nat.
Proof.
  intros Hp Hoth Epc Est Hlt. pose proof (measure_changed n s s' p Hp) as H.
  assert (weight n s' p = 100 * visits_left n pc' + steps_left pc' st')%nat as E by (unfold weight; by rewrite Epc, Est).
  rewrite E in H. specialize (H ltac:(intros q Hq; unfold weight; by destruct (Hoth q Hq) as [-> ->])). lia.
Qed.

Ltac weigh := cbn [visits_left steps_left pc_steps place_visits place_pc resume_pc].

Ltac decreases p Epc :=
  eapply (local_decreases _ _ p);
  [done | intros q Hq; norm; rewrite upd_ne by done; unfold upd; repeat case_decide; subst; done
  | norm; reflexivity | norm; reflexivity
  | unfold weight, pcs in *; rewrite Epc; weigh; try lia].

Lemma visit_decreases n p pc i o s :
  (p < n)%nat -> i <> p ->
  (100 * visits_left n pc + steps_left pc (p_state (procs s p)) < weight n s p)%nat ->
  (measure n (goto p pc (set_plock i o s)) < measure n s)%nat.
Proof.
  intros Hp Hne Hlt. destruct (visit_fields p pc i o s Hne) as (F1 & F2 & F3 & _).
  eapply (local_decreases n s p); [done | | exact F1 | apply F3 | done].
  intros q Hq. split; [by apply F2 | apply F3].
Qed.

Lemma goto_fields p pc s : pcs (goto p pc s) p = pc /\ p_state (procs (goto p pc s) p) = p_state (procs s p).
Proof. by norm. Qed.

(** Waking a process adds its way back to the spin lock. *)
Lemma wake_weighs n i s : (i < n)%nat -> (measure n (set_state i RUNNABLE s) <= measure n s + 15)%nat.
Proof.
  intros Hi. pose proof (measure_changed n s (set_state i RUNNABLE s) i Hi) as H.
  specialize (H ltac:(intros q Hq; unfold weight; norm; by rewrite upd_ne)).
  assert (weight n (set_state i RUNNABLE s) i <= weight n s i + 15)%nat; [|lia].
  clear H. unfold weight. norm. destruct (p_pc (procs s i)); try (destruct r); weigh; try lia.
  rewrite decide_True by done. lia.
Qed.

Lemma drain_decreases n p s s' :
  inv n s -> (p < n)%nat -> drain_step n p s = Some s' -> (measure n s' < measure n s)%nat.
Proof.
  intros I Hp. pose proof (i_state _ _ I p) as Hst. unfold state_ok in Hst.
  unfold drain_step, step_go, step_sleep_lock, step_sleep_trylock, step_sleep, step_yield,
    step_scheduler, step_sleep_unlock, step_wakeup, step_outside, spin_lock, spin_trylock.
  destruct (p_pc (procs s p)) eqn:Epc; cbn.
  - destruct holding; cbn; [|done]. intros [= <-]. decreases p Epc.
  - destruct (lk s); cbn; [done|]. intros [= <-]. decreases p Epc.
  - intros [= <-]. destruct (locked s); decreases p Epc.
  - intros [= <-]. decreases p Epc.
  - intros [= <-]. decreases p Epc.
  - destruct (lk s); intros [= <-]; decreases p Epc.
  - intros [= <-]. destruct (locked s); decreases p Epc.
  - intros [= <-]. decreases p Epc.
  - destruct (p_lock (procs s p)); cbn; [done|]. intros [= <-]. decreases p Epc.
  - intros [= <-]. decreases p Epc.
  - intros [= <-]. decreases p Epc.
  - intros [= <-]. decreases p Epc.
  - intros [= <-]. decreases p Epc.
  - intros [= <-]. decreases p Epc.
  - destruct (p_lock (procs s p)); cbn; [done|]. intros [= <-]. destruct k as [[]| | |]; decreases p Epc.
  - intros [= <-]. destruct k as [[]| | |]; decreases p Epc.
  - intros [= <-]. destruct k as [[]| | |]; decreases p Epc.
  - intros [= <-]. destruct r as [|[[]| | |]]; decreases p Epc.
  - intros [= <-]. destruct r as [|[[]| | |]]; decreases p Epc.
    destruct Hst as [-> _]. rewrite decide_False by done. lia.
  - destruct (p_lock (procs s p)); cbn; [done|]. cbn.
    destruct (bool_decide_reflect (p_state (procs s p) = RUNNABLE)) as [E|]; cbn; [|done].
    intros [= <-]. destruct r as [|[[]| | |]]; decreases p Epc. rewrite E, decide_True by done. lia.
  - destruct (lk s); cbn; [done|]. intros [= <-]. decreases p Epc.
  - intros [= <-]. decreases p Epc.
  - intros [= <-]. decreases p Epc.
  - destruct (g_wait_lock s); cbn; [done|]. intros [= <-]. decreases p Epc.
  - destruct (Nat.leb_spec n i); [intros [= <-]; decreases p Epc|].
    destruct (Nat.eqb_spec i p) as [->|]; [intros [= <-]; decreases p Epc|].
    destruct (p_lock (procs s i)); cbn; [done|]. intros [= <-].
    eapply visit_decreases; [done | done |]. unfold weight, pcs. rewrite Epc. weigh. lia.
  - intros [= <-]. assert (i <> p /\ (i < n)%nat) as [Hne Hi]
      by (apply (i_self _ _ I); unfold pcs; rewrite Epc; cbn; apply Nat.eqb_refl).
    set (s1 := if (_ && _)%bool then _ else _).
    assert (procs s1 p = procs s p /\ (measure n s1 <= measure n s + 15)%nat) as [E1 Hm].
    { unfold s1. destruct (_ && _)%bool; [|split; [done|lia]].
      split; [norm; by rewrite upd_ne | by apply wake_weighs]. }
    pose proof (measure_changed n s1 (goto p (W_rel i) s1) p Hp) as H.
    specialize (H ltac:(intros q Hq; unfold weight; norm; by rewrite upd_ne)).
    unfold weight in H. rewrite (proj1 (goto_fields p (W_rel i) s1)) in H. unfold pcs in H. rewrite E1, Epc in H.
    revert H. weigh. lia.
  - intros [= <-]. assert (i <> p) as Hne by (apply (i_self _ _ I i p); unfold pcs; rewrite Epc; cbn; apply Nat.eqb_refl).
    eapply visit_decreases; [done | done |]. unfold weight, pcs. rewrite Epc, Hst. weigh. lia.
  - intros [= <-]. decreases p Epc.
Qed.

(** ** What the lock promises *)

(** Processes from [n] on do nothing. *)
Lemma step_range n e s s' q : step n e s = Some s' -> (n <= q)%nat -> pcs s' q = pcs s q.
Proof.
  intros Hs Hq. assert (forall p, step n (Step p go) s = Some s' -> pcs s' q = pcs s q) as Hgo.
  { clear Hs. intros p. unfold step. destruct (Nat.ltb_spec p n); [|done].
    unfold step_go, step_sleep_lock, step_sleep_trylock, step_sleep, step_yield,
      step_scheduler, step_sleep_unlock, step_wakeup, spin_lock, spin_trylock.
    destruct (p_pc (procs s p)); cbn; try done; intros Hs;
      simplify_eq/=; repeat (case_match; simplify_eq/=; try done); norm; unfold upd; repeat case_decide; subst; try done; lia. }
  unfold step in Hs. destruct e as [p []|p]; [by apply (Hgo p)|..]; clear Hgo;
    (destruct (Nat.ltb_spec p n); [|done]); unfold step_outside, proc_send_signal in Hs;
    simplify_eq/=; repeat (case_match; simplify_eq/=; try done); norm; unfold upd; repeat case_decide; subst; try done; lia.
Qed.

Lemma reachable_range n s q : reachable n s -> (n <= q)%nat -> pcs s q = Outside false.
Proof. induction 1 as [|e s s' _ IH Hs]; [done|]. intros Hq. rewrite (step_range n e s s' q Hs Hq). auto. Qed.

(** A sequence of steps that complete what is going on. *)
Fixpoint drain (n : nat) (ps : list nat) (s : state) : option state :=
  match ps with
  | [] => Some s
  | p :: ps => if (p <? n)%nat then s' ← drain_step n p s; drain n ps s' else None
  end.

(** The process is in [sleep_lock] and does not have the lock yet, or takes it. *)
Definition wants (pc : pc_t) : bool :=
  match pc with
  | SL_spin | SL_test | SL_set | S_plock | S_unlk | S_chan | S_state | S_tidy | S_punlock
  | Y_plock P_lock | Y_state P_lock | Y_punlock P_lock
  | C_sched in_sleep | C_unlock in_sleep | C_pick in_sleep
  | C_sched (in_yield P_lock) | C_unlock (in_yield P_lock) | C_pick (in_yield P_lock) => true
  | _ => false
  end.

Lemma drain_step_step n p s s' :
  (p < n)%nat -> drain_step n p s = Some s' -> exists e, step n e s = Some s'.
Proof.
  intros Hp. unfold drain_step. destruct (step_go n p s) eqn:E.
  - intros [= <-]. exists (Step p go). unfold step. by rewrite (proj2 (Nat.ltb_lt p n)).
  - intros Hs. exists (Step p unlock). unfold step. by rewrite (proj2 (Nat.ltb_lt p n)).
Qed.

Lemma drain_reachable n ps : forall s s', reachable n s -> drain n ps s = Some s' -> reachable n s'.
Proof.
  induction ps as [|p ps IH]; intros s s' Hr; cbn [drain length]; [by intros [= <-]|].
  destruct (Nat.ltb_spec p n) as [Hp|]; [|done]. destruct (drain_step n p s) as [s1|] eqn:E; [|done].
  cbn. apply IH. destruct (drain_step_step n p s s1 Hp E) as [e He]. by apply (reach_step n e s).
Qed.

Lemma drain_length n ps : forall s s',
  reachable n s -> drain n ps s = Some s' -> (length ps + measure n s' <= measure n s)%nat.
Proof.
  induction ps as [|p ps IH]; intros s s' Hr; cbn [drain length]; [by intros [= <-]|].
  destruct (Nat.ltb_spec p n) as [Hp|]; [|done]. destruct (drain_step n p s) as [s1|] eqn:E; [|done].
  cbn. intros Hd. destruct (drain_step_step n p s s1 Hp E) as [e He].
  pose proof (drain_decreases n p s s1 (reachable_inv n s Hr) Hp E).
  specialize (IH s1 s' (reach_step n e s s1 Hr He) Hd). lia.
Qed.

(** A process keeps waiting for the lock until it has it. *)
Lemma drain_wants n p q s s' :
  drain_step n p s = Some s' -> wants (pcs s q) = true -> wants (pcs s' q) = true \/ owner (pcs s' q) = true.
Proof.
  intros Hs Hw. destruct (decide (q = p)) as [->|Hq].
  - revert Hs Hw. unfold drain_step, step_go, step_sleep_lock, step_sleep_trylock, step_sleep, step_yield,
      step_scheduler, step_sleep_unlock, step_wakeup, step_outside, spin_lock, spin_trylock.
    unfold pcs at 1. destruct (p_pc (procs s p)) eqn:Epc; cbn; try done; intros Hs Hw;
      simplify_eq/=; repeat (case_match; simplify_eq/=; try done); norm; auto.
  - left. enough (pcs s' q = pcs s q) as -> by done. clear Hw. revert Hs.
    unfold drain_step, step_go, step_sleep_lock, step_sleep_trylock, step_sleep, step_yield,
      step_scheduler, step_sleep_unlock, step_wakeup, step_outside, spin_lock, spin_trylock.
    destruct (p_pc (procs s p)); cbn; try done; intros Hs;
      simplify_eq/=; repeat (case_match; simplify_eq/=; try done); norm; unfold upd; repeat case_decide; by subst.
Qed.

Lemma drain_gets n q ps : forall s s',
  drain n ps s = Some s' -> wants (pcs s q) = true -> wants (pcs s' q) = false ->
  exists ps1 ps2 s1, ps = ps1 ++ ps2 /\ drain n ps1 s = Some s1 /\ owner (pcs s1 q) = true.
Proof.
  induction ps as [|p ps IH]; intros s s'; cbn [drain].
  { intros [= <-]. congruence. }
  destruct (Nat.ltb_spec p n) as [Hp|]; [|done]. destruct (drain_step n p s) as [s1|] eqn:E; [|done].
  cbn. intros Hd Hw Hw'. destruct (drain_wants n p q s s1 E Hw) as [Hw1|Ho].
  - destruct (IH s1 s' Hd Hw1 Hw') as (ps1 & ps2 & s2 & -> & Hd1 & Ho). exists (p :: ps1), ps2, s2.
    split; [done|]. split; [|done]. cbn [drain]. by rewrite (proj2 (Nat.ltb_lt p n)), E.
  - exists [p], ps, s1. split; [done|]. split; [|done]. cbn [drain]. by rewrite (proj2 (Nat.ltb_lt p n)), E.
Qed.

Lemma reachable_progress n s : reachable n s -> idle n s \/ can_step n s.
Proof.
  intros Hr. apply progress; [by apply reachable_inv|]. intros q. by apply reachable_range.
Qed.

(** Some sequence of steps completes everything. *)
Lemma drain_exists n s : reachable n s -> exists ps s', drain n ps s = Some s' /\ idle n s'.
Proof.
  intros Hr. remember (measure n s) as m eqn:Em. revert s Hr Em.
  induction m as [m IH] using lt_wf_ind. intros s Hr ->.
  destruct (reachable_progress n s Hr) as [Hi|(p & s1 & Hp & Hs)]; [by exists [], s|].
  destruct (drain_step_step n p s s1 Hp Hs) as [e He].
  destruct (IH (measure n s1) (drain_decreases n p s s1 (reachable_inv n s Hr) Hp Hs) s1
    (reach_step n e s s1 Hr He) eq_refl) as (ps & s' & Hd & Hi).
  exists (p :: ps), s'. split; [|done]. cbn [drain]. by rewrite (proj2 (Nat.ltb_lt p n)), Hs.
Qed.

Lemma idle_unlocked n s : reachable n s -> idle n s -> locked s = false.
Proof.
  intros Hr Hi. destruct (locked s) eqn:E; [|done]. apply (i_owner n s (reachable_inv n s Hr)) in E as [q Hq].
  destruct (decide (q < n)%nat) as [H|H]; [by rewrite (Hi q H) in Hq|].
  by rewrite (reachable_range n s q Hr ltac:(lia)) in Hq.
Qed.

Lemma run_reachable n es : forall s, reachable n s -> reachable n (run n es s).
Proof.
  induction es as [|e es IH]; intros s Hr; [done|]. cbn. apply IH.
  destruct (step n e s) eqn:E; [by apply (reach_step n e s) | done].
Qed.

(** What [sched] checks. *)
Definition sched_safe (s : state) (q : nat) : Prop :=
  p_state (procs s q) <> RUNNING /\ lk s <> Some q /\ g_wait_lock s <> Some q /\
  forall i, plks s i = Some q <-> i = q.

Lemma sched_is_safe n s q r : inv n s -> pcs s q = C_sched r -> sched_safe s q.
Proof.
  intros I E. split; [|split; [|split]].
  - pose proof (i_state _ _ I q) as Hst. unfold state_ok in Hst. fold (pcs s q) in Hst. rewrite E in Hst.
    destruct r; [by destruct Hst as [-> _] | by rewrite Hst].
  - rewrite (i_lk _ _ I q), E. done.
  - rewrite (i_wait _ _ I q), E. done.
  - intros i. rewrite (i_plock _ _ I i q), E. split; [by intros [[-> _]|]|]. intros ->. left. by rewrite E.
Qed.

(** C4: in every interleaving of [sleep_lock], [sleep_trylock], [sleep_unlock],
    [sleep], [wakeup], [yield], the scheduler and signals, at most one process holds
    the sleep lock, and [locked] is set just when one does; every spin lock is held by
    a process at a place where its code holds it; a process that calls [sched] holds
    its own lock and no other, and is not running, so that [sched] does not panic;
    and no wakeup is lost: while a process sleeps, the lock is held, or a process is
    in [wakeup] and has not yet looked at the sleeper. *)
Theorem sleep_lock_safe n s (Hr : reachable n s) :
  (forall q q', owner (pcs s q) = true -> owner (pcs s q') = true -> q = q') /\
  (locked s = true <-> exists q, owner (pcs s q) = true) /\
  held_by has_lk (lk s) (pcs s) /\ held_by has_wait (g_wait_lock s) (pcs s) /\ plocks (plks s) (pcs s) /\
  (forall q r, pcs s q = C_sched r -> sched_safe s q) /\
  (forall q, p_state (procs s q) = SLEEPING ->
     wants (pcs s q) = true /\ (locked s = true \/ exists w, will_visit (pcs s w) q = true)).
Proof.
  pose proof (reachable_inv n s Hr) as I. do 5 (split; [apply I|]).
  split; [intros q r; by apply (sched_is_safe n)|]. intros q Hq.
  pose proof (i_state _ _ I q) as Hst. unfold state_ok in Hst. fold (pcs s q) in Hst. rewrite Hq in Hst. split.
  - destruct (pcs s q); try done; destruct r; done || naive_solver.
  - apply (i_wake _ _ I).
    + destruct (decide (q < n)%nat); [done|]. rewrite (reachable_range n s q Hr) in Hst by lia. done.
    + unfold dozing. destruct (p_pc (procs s q)); by rewrite ?bool_decide_true.
Qed.

(** C5: from every state the processes reach, whatever the order of their steps,
    the operations complete: a sequence of steps that start nothing new, in which
    holders release the lock, ends after at most [measure n s] steps, it can go on
    until all processes are outside and the lock is free, and by then every process
    that waited in [sleep_lock] has held the lock. *)
Theorem sleep_lock_live n s (Hr : reachable n s) :
  (exists ps s', drain n ps s = Some s' /\ idle n s') /\
  forall ps s', drain n ps s = Some s' ->
    (length ps <= measure n s)%nat /\
    (idle n s' /\ locked s' = false \/ can_step n s') /\
    (idle n s' -> forall p, (p < n)%nat -> wants (pcs s p) = true ->
       exists ps1 ps2 s1, ps = ps1 ++ ps2 /\ drain n ps1 s = Some s1 /\ owner (pcs s1 p) = true).
Proof.
  split; [by apply drain_exists|]. intros ps s' Hd. pose proof (drain_reachable n ps s s' Hr Hd) as Hr'.
  split; [|split].
  - pose proof (drain_length n ps s s' Hr Hd). lia.
  - destruct (reachable_progress n s' Hr') as [Hi|]; [left | by right]. split; [done | by eapply idle_unlocked].
  - intros Hi p Hp Hw. apply (drain_gets n p ps s s' Hd Hw). by rewrite (Hi p Hp).
Qed.

(** Process 0 takes the lock, process 1 waits for it and sleeps. *)
Definition sleeper_waits : state :=
  run 2 ([Step 0 lock] ++ repeat (Step 0 go) 4 ++ [Step 1 lock] ++ repeat (Step 1 go) 8) init.

Lemma sleep_lock_safe_witness :
  p_state (procs sleeper_waits 1) = SLEEPING /\
  (locked sleeper_waits = true \/ exists w, will_visit (pcs sleeper_waits w) 1 = true).
Proof.
  split; [reflexivity|].
  apply (sleep_lock_safe 2 sleeper_waits (run_reachable 2 _ init (reach_init 2))). reflexivity.
Defined.

Lemma sleep_lock_live_witness :
  wants (pcs sleeper_waits 1) = true /\ exists ps s', drain 2 ps sleeper_waits = Some s' /\ idle 2 s'.
Proof.
  split; [reflexivity|]. apply (sleep_lock_live 2 sleeper_waits (run_reachable 2 _ init (reach_init 2))).
Defined.
