(* ===== verification/Txn.v ===== *)
(** * Blocks inside of a transaction

    What the buffer cache ([Bio]) and the log ([Log]) promise to the code that works
    on the blocks of a file system inside of a transaction: the class [BlockStore].
    A block is read into a buffer, its content is used and changed, a changed block is
    logged, the buffer is released.  The instance for the cache and the log is
    [lfs_BlockStore]; process [pid] works on device [dev].  Without a client slot of the
    log it can only read. *)
From stdpp Require Import list.
From S2P Require Import Prelude Bio Log LogCommit.

(** The state between the operations is observed through:
    - [bs_view s bn], the content of a block as the transaction sees it;
    - [bs_free s bn]: no process has locked the buffer of the block;
    - [bs_held s id bn clean]: this process holds the block in buffer [id]; if it is
      [clean], nothing is lost when the buffer is released;
    - [bs_pinned s bn]: the buffer stays in the cache when it is released;
    - [bs_logged s bn]: the block is in the log, logging it again takes no room;
    - [bs_room s] and [bs_bufs s]: how many blocks can still be logged, and how many
      more buffers can be in use. *)
Class BlockStore (S : Type) := {
  bs_read : Z -> ST S nat;
  bs_data : nat -> ST S block;
  bs_set : nat -> block -> ST S unit;
  bs_log : nat -> ST S unit;
  bs_release : nat -> ST S unit;

  bs_inv : S -> Prop;
  bs_view : S -> Z -> block;
  bs_free : S -> Z -> Prop;
  bs_held : S -> nat -> Z -> bool -> Prop;
  bs_pinned : S -> Z -> bool;
  bs_logged : S -> Z -> bool;
  bs_room : S -> Z;
  bs_bufs : S -> Z;

  (** An operation on block [bn] changes nothing about other blocks. *)
  bs_frame : S -> S -> Z -> Prop :=
    fun s s' bn => forall bn', bn' <> bn ->
      bs_view s' bn' = bs_view s bn' /\ (bs_free s' bn' <-> bs_free s bn') /\
      bs_pinned s' bn' = bs_pinned s bn' /\ (forall id c, bs_held s id bn' c -> bs_held s' id bn' c);

  bs_held_locked s id bn c : bs_held s id bn c -> ~ bs_free s bn;
  bs_read_run s bn :
    bs_inv s -> bs_free s bn -> 0 < bs_bufs s ->
    exists id s', bs_read bn s = Ret (id, s') /\ bs_inv s' /\ bs_frame s s' bn /\
      bs_held s' id bn true /\ bs_view s' bn = bs_view s bn /\ bs_pinned s' bn = bs_pinned s bn /\
      bs_room s' = bs_room s /\ bs_bufs s' = bs_bufs s - (if bs_pinned s bn then 0 else 1);
  bs_data_run s id bn c :
    bs_inv s -> bs_held s id bn c -> bs_data id s = Ret (bs_view s bn, s);
  bs_set_run s id bn c d :
    bs_inv s -> bs_held s id bn c ->
    exists s', bs_set id d s = Ret (tt, s') /\ bs_inv s' /\ bs_frame s s' bn /\
      bs_held s' id bn (bs_pinned s bn) /\ bs_view s' bn = d /\ bs_pinned s' bn = bs_pinned s bn /\
      bs_room s' = bs_room s /\ bs_bufs s' = bs_bufs s;
  bs_log_run s id bn c :
    bs_inv s -> bs_held s id bn c -> 0 < bs_room s ->
    exists s', bs_log id s = Ret (tt, s') /\ bs_inv s' /\ bs_frame s s' bn /\
      bs_held s' id bn true /\ bs_view s' bn = bs_view s bn /\ bs_pinned s' bn = true /\
      bs_room s - 1 <= bs_room s' /\ bs_bufs s' = bs_bufs s;
  bs_release_run s id bn :
    bs_inv s -> bs_held s id bn true ->
    exists s', bs_release id s = Ret (tt, s') /\ bs_inv s' /\ bs_frame s s' bn /\
      bs_free s' bn /\ bs_view s' bn = bs_view s bn /\ bs_pinned s' bn = bs_pinned s bn /\
      bs_room s' = bs_room s /\ bs_bufs s' = bs_bufs s + (if bs_pinned s bn then 0 else 1);

  bs_logged_pinned s bn : bs_inv s -> bs_logged s bn = true -> bs_pinned s bn = true;
  bs_read_logged s bn id s' : bs_read bn s = Ret (id, s') -> forall bn', bs_logged s' bn' = bs_logged s bn';
  bs_set_logged s id d s' : bs_set id d s = Ret (tt, s') -> forall bn', bs_logged s' bn' = bs_logged s bn';
  bs_release_logged s id s' : bs_release id s = Ret (tt, s') -> forall bn', bs_logged s' bn' = bs_logged s bn';
  bs_log_logged s id bn c s' :
    bs_inv s -> bs_held s id bn c -> 0 < bs_room s -> bs_log id s = Ret (tt, s') ->
    bs_logged s' bn = true /\ (forall bn', bs_logged s bn' = true -> bs_logged s' bn' = true) /\
    bs_room s - (if bs_logged s bn then 0 else 1) <= bs_room s'
}.

(** ** The cache and the log of a mounted file system *)

Section Lfs.
(** [shared] are the references to blocks that other processes hold meanwhile. *)
Context (devs : Z -> bool) (dev pid : Z) (shared : Z -> Z).

Definition tx_read (bn : Z) : ST lfs nat := on_bio (bio_read devs dev bn).
Definition tx_data (id : nat) : ST lfs block := b ← on_bio (deref id); mret (b_data b).
Definition tx_set (id : nat) (d : block) : ST lfs unit := on_bio (modify_buf id (set_data d)).
Definition tx_log (id : nat) : ST lfs unit := log_write pid id.
Definition tx_release (id : nat) : ST lfs unit := on_bio (bio_release id).

Abbreviation key bn := (dev, bn).

Definition tx_slot (s : lfs) : nat := Z.to_nat (log_client_from_pid (l_log s) pid).
Definition tx_room (s : lfs) : Z :=
  if log_client_from_pid (l_log s) pid =? -1 then 0
  else default 0 (blocks_reserved (l_log s) !! tx_slot s) - default 0 (blocks_used (l_log s) !! tx_slot s).
Definition tx_logged (s : lfs) : list Z := take (Z.to_nat (lh_n (l_log s))) (lh_block (l_log s)).
Definition tx_view (s : lfs) (bn : Z) : block := view (l_bio s) (key bn).
Definition tx_free (s : lfs) (bn : Z) : Prop := lockd (l_bio s) (key bn) = false.
(** References besides the one of the process that holds the lock. *)
Definition tx_others (s : lfs) (bn : Z) : Z := refs (l_bio s) (key bn) - Z.b2z (lockd (l_bio s) (key bn)).
Definition tx_pinned (s : lfs) (bn : Z) : bool := 0 <? tx_others s bn.
Definition tx_held (s : lfs) (id : nat) (bn : Z) (c : bool) : Prop :=
  exists r, r <> 0 /\ at_buf (l_bio s) id (key bn) r true (tx_view s bn) true /\
    (c = true -> r = 1 -> tx_view s bn = disk_block (disk (l_bio s)) (key bn)).

Record tx_inv (s : lfs) : Prop := {
  ti_dev : dev <> 0 /\ devs dev = true;
  ti_pid : pid <> 0;
  ti_log : log_ok (l_log s);
  ti_bio : bio_inv (l_bio s);
  ti_clean : bio_clean (l_bio s);
  ti_shared bn : 0 <= shared bn < 2 ^ 31;
  ti_others bn : tx_others s bn = shared bn + Z.b2z (bool_decide (bn ∈ tx_logged s))
}.

Lemma tx_others_range s bn : tx_inv s ->
  Z.b2z (bool_decide (bn ∈ tx_logged s)) <= tx_others s bn < 2 ^ 31 + Z.b2z (bool_decide (bn ∈ tx_logged s)).
Proof. intros I. rewrite (ti_others s I). pose proof (ti_shared s I bn). lia. Qed.

Lemma key_good bn s : tx_inv s -> good (key bn).
Proof. intros I. apply I. Qed.

Lemma tx_held_refs s id bn c : tx_held s id bn c -> tx_others s bn = refs (l_bio s) (key bn) - 1.
Proof. intros (r & _ & [_ _ H _ _] & _). unfold tx_others. by rewrite H. Qed.

Lemma tx_held_locked s id bn c : tx_held s id bn c -> ~ tx_free s bn.
Proof. intros (r & _ & [_ _ H _ _] & _). unfold tx_free. congruence. Qed.

(** What a change of the cache at block [bn] keeps. *)
Lemma tx_frame s b' bn :
  dev <> 0 -> step_at (l_bio s) b' (key bn) -> disk b' = disk (l_bio s) ->
  let s' := mk_lfs (l_log s) b' (l_depth s) in
  forall bn', bn' <> bn ->
    tx_view s' bn' = tx_view s bn' /\ (tx_free s' bn' <-> tx_free s bn') /\
    tx_pinned s' bn' = tx_pinned s bn' /\ tx_others s' bn' = tx_others s bn' /\
    (forall id c, tx_held s id bn' c -> tx_held s' id bn' c).
Proof.
  intros Hd Hst Hdisk s' bn' Hne. assert (key bn' <> key bn) as Hk by congruence.
  assert (good (key bn')) as Hg by done.
  assert (tx_view s' bn' = tx_view s bn') as Hv by (by apply (sa_view _ _ _ Hst)).
  assert (tx_others s' bn' = tx_others s bn') as Ho.
  { unfold tx_others. simpl. by rewrite (sa_refs _ _ _ Hst), (sa_lockd _ _ _ Hst). }
  split; [done|]. split; [unfold tx_free; simpl; by rewrite (sa_lockd _ _ _ Hst)|].
  split; [unfold tx_pinned; by rewrite Ho|]. split; [done|].
  intros id c (r & Hr & Hab & Hcl). exists r. split; [done|]. rewrite Hv. split.
  - by apply (at_buf_frame (l_bio s) b' (key bn)).
  - simpl. rewrite Hdisk. auto.
Qed.

(** The cache changes at block [bn], the number of other references stays. *)
Lemma tx_inv_bio s b' bn :
  tx_inv s -> step_at (l_bio s) b' (key bn) -> bio_clean b' -> disk b' = disk (l_bio s) ->
  tx_others (mk_lfs (l_log s) b' (l_depth s)) bn = tx_others s bn ->
  tx_inv (mk_lfs (l_log s) b' (l_depth s)).
Proof.
  intros I Hst Hcl Hdisk Ho. split; try apply I; try done; [apply Hst|].
  intros bn'. change (tx_logged (mk_lfs (l_log s) b' (l_depth s))) with (tx_logged s).
  destruct (decide (bn' = bn)) as [->|Hne]; [rewrite Ho; apply I|].
  destruct (tx_frame s b' bn (proj1 (ti_dev s I)) Hst Hdisk bn' Hne) as (_ & _ & _ & -> & _). apply I.
Qed.

Lemma tx_room_bio s b' : tx_room (mk_lfs (l_log s) b' (l_depth s)) = tx_room s.
Proof. done. Qed.

Definition tx_unchanged (s s' : lfs) (bn : Z) : Prop :=
  forall bn', bn' <> bn -> tx_view s' bn' = tx_view s bn' /\ (tx_free s' bn' <-> tx_free s bn') /\
    tx_pinned s' bn' = tx_pinned s bn' /\ (forall id c, tx_held s id bn' c -> tx_held s' id bn' c).

(** The conclusion of the class for a change of the cache. *)
Ltac frame_of I Hst Hdisk :=
  let bn' := fresh in let Hne := fresh in
  intros bn' Hne; destruct (tx_frame _ _ _ (proj1 (ti_dev _ I)) Hst Hdisk bn' Hne) as (? & ? & ? & _ & ?);
  by split_and!.

Lemma tx_read_run s bn :
  tx_inv s -> tx_free s bn -> 0 < spare (l_bio s) ->
  exists id s', tx_read bn s = Ret (id, s') /\ tx_inv s' /\
    tx_unchanged s s' bn /\
    tx_held s' id bn true /\ tx_view s' bn = tx_view s bn /\ tx_pinned s' bn = tx_pinned s bn /\
    tx_room s' = tx_room s /\ spare (l_bio s') = spare (l_bio s) - (if tx_pinned s bn then 0 else 1).
Proof.
  intros I Hf Hsp. pose proof (tx_others_range s bn I) as Ho. unfold tx_free in Hf.
  assert (tx_others s bn = refs (l_bio s) (key bn)) as Eo by (unfold tx_others; rewrite Hf; simpl; lia).
  pose proof (key_good bn s I) as Hg. destruct (ti_dev s I) as [Hd Hdev].
  assert (0 <= Z.b2z (bool_decide (bn ∈ tx_logged s)) <= 1) as Hb by (destruct (bool_decide _); simpl; lia).
  destruct (ab_read devs (key bn) Hg (l_bio s)) as (id & b' & Hrun & Hst & Hcl & Hab & Hdisk & _ & Hs);
    [apply I..|done|done|lia|by right|].
  set (s' := mk_lfs (l_log s) b' (l_depth s)).
  assert (tx_view s' bn = tx_view s bn) as Hv by apply Hab.
  assert (tx_others s' bn = tx_others s bn) as Ho'.
  { rewrite Eo. unfold tx_others. simpl. rewrite (ab_refs _ _ _ _ _ _ _ Hab), (ab_lockd _ _ _ _ _ _ _ Hab).
    simpl. lia. }
  exists id, s'. split; [destruct s; by apply on_bio_run|].
  split; [by apply (tx_inv_bio s b' bn)|]. split; [frame_of I Hst Hdisk|].
  split; [|split; [done|split; [unfold tx_pinned; by rewrite Ho'|split; [done|]]]].
  - exists (refs (l_bio s) (key bn) + 1). split; [lia|]. rewrite Hv. split; [done|].
    intros _ Hr. simpl. rewrite Hdisk. apply view_unused; [apply I..|done|lia].
  - simpl. rewrite Hs. unfold tx_pinned. rewrite Eo. destruct (Z.eqb_spec (refs (l_bio s) (key bn)) 0) as [->|]; [done|].
    rewrite (proj2 (Z.ltb_lt 0 _)) by lia. done.
Qed.

Lemma tx_data_run s id bn c :
  tx_inv s -> tx_held s id bn c -> tx_data id s = Ret (tx_view s bn, s).
Proof.
  intros I (r & _ & Hab & _). destruct (ab_deref (key bn) (key_good bn s I) (l_bio s) id r true (tx_view s bn))
    as (b & Hrun & Hdat); [apply I|done|].
  unfold tx_data. rewrite (bind_run _ _ s b s); [by rewrite Hdat|]. destruct s. by apply on_bio_run.
Qed.

Lemma tx_set_run s id bn c d :
  tx_inv s -> tx_held s id bn c ->
  exists s', tx_set id d s = Ret (tt, s') /\ tx_inv s' /\
    tx_unchanged s s' bn /\
    tx_held s' id bn (tx_pinned s bn) /\ tx_view s' bn = d /\ tx_pinned s' bn = tx_pinned s bn /\
    tx_room s' = tx_room s /\ spare (l_bio s') = spare (l_bio s).
Proof.
  intros I Hh. pose proof (tx_held_refs s id bn c Hh) as Eo. destruct Hh as (r & Hr & Hab & _).
  pose proof (key_good bn s I) as Hg.
  destruct (ab_set_data (key bn) Hg (l_bio s) id r true (tx_view s bn) d)
    as (b' & Hrun & Hst & Hcl & Hab' & Hdisk & _ & Hs); [apply I..|done|done|].
  set (s' := mk_lfs (l_log s) b' (l_depth s)).
  assert (tx_view s' bn = d) as Hv by apply Hab'.
  assert (tx_others s' bn = tx_others s bn) as Ho'.
  { rewrite Eo. unfold tx_others. simpl.
    rewrite (ab_refs _ _ _ _ _ _ _ Hab'), (ab_lockd _ _ _ _ _ _ _ Hab'), (ab_refs _ _ _ _ _ _ _ Hab). done. }
  exists s'. split; [destruct s; by apply on_bio_run|].
  split; [by apply (tx_inv_bio s b' bn)|]. split; [frame_of I Hst Hdisk|].
  split; [|split; [done|split; [unfold tx_pinned; by rewrite Ho'|by split]]].
  exists r. split; [done|]. rewrite Hv. split; [done|]. intros Hp Hr1. exfalso.
  unfold tx_pinned in Hp. rewrite Eo, (ab_refs _ _ _ _ _ _ _ Hab), Hr1 in Hp. done.
Qed.

Lemma tx_release_run s id bn :
  tx_inv s -> tx_held s id bn true ->
  exists s', tx_release id s = Ret (tt, s') /\ tx_inv s' /\
    tx_unchanged s s' bn /\
    tx_free s' bn /\ tx_view s' bn = tx_view s bn /\ tx_pinned s' bn = tx_pinned s bn /\
    tx_room s' = tx_room s /\ spare (l_bio s') = spare (l_bio s) + (if tx_pinned s bn then 0 else 1).
Proof.
  intros I Hh. pose proof (tx_held_refs s id bn true Hh) as Eo. destruct Hh as (r & Hr & Hab & Hcl0).
  pose proof (key_good bn s I) as Hg. pose proof (tx_others_range s bn I) as Ho.
  assert (0 <= Z.b2z (bool_decide (bn ∈ tx_logged s)) <= 1) as Hb by (destruct (bool_decide _); simpl; lia).
  rewrite (ab_refs _ _ _ _ _ _ _ Hab) in Eo.
  destruct (ab_release (key bn) Hg (l_bio s) id r true (tx_view s bn) true)
    as (b' & Hrun & Hst & Hcl & Hrefs & Hlk & Hv & Hdisk & _ & Hs); [apply I..|done|done|by apply Hcl0|].
  set (s' := mk_lfs (l_log s) b' (l_depth s)).
  assert (tx_others s' bn = tx_others s bn) as Ho'.
  { rewrite Eo. unfold tx_others. simpl. rewrite Hrefs, Hlk. simpl. lia. }
  exists s'. split; [destruct s; by apply on_bio_run|].
  split; [by apply (tx_inv_bio s b' bn)|]. split; [frame_of I Hst Hdisk|].
  split; [done|split; [done|split; [unfold tx_pinned; by rewrite Ho'|split; [done|]]]].
  simpl. rewrite Hs. unfold tx_pinned. rewrite Eo. destruct (Z.eqb_spec r 1) as [->|]; [done|].
  rewrite (proj2 (Z.ltb_lt 0 _)) by lia. done.
Qed.

(** The client slot of the process. *)
Lemma tx_slot_run s :
  tx_inv s -> 0 < tx_room s -> exists i u r, clients (l_log s) !! i = Some pid /\ blocks_used (l_log s) !! i = Some u /\
    blocks_reserved (l_log s) !! i = Some r /\ tx_slot s = i /\ tx_room s = r - u.
Proof.
  intros I Hroom. pose proof (ti_pid s I) as Hp.
  assert (pid ∈ clients (l_log s)) as Hin.
  { destruct (find_client_0 pid (clients (l_log s))) as [[E _]|(i & _ & Hi & _)]; [|by eapply list_elem_of_lookup_2].
    unfold tx_room, log_client_from_pid in Hroom. by rewrite E in Hroom. }
  apply list_elem_of_lookup in Hin as [i Hi].
  destruct (used_reserved (l_log s) i pid (ti_log s I) Hi) as (u & r & Hu & Hr).
  assert (tx_slot s = i) as Es.
  { unfold tx_slot. rewrite (client_of (l_log s) i pid (ti_log s I) Hi Hp). apply Nat2Z.id. }
  exists i, u, r. split_and!; try done. unfold tx_room.
  rewrite (client_of (l_log s) i pid (ti_log s I) Hi Hp), (proj2 (Z.eqb_neq _ _)) by lia. by rewrite Es, Hu, Hr.
Qed.

(** [log_write] of a block that is not in the log yet. *)
Lemma tx_log_new s id bn r i u rs :
  tx_inv s -> r <> 0 -> at_buf (l_bio s) id (key bn) r true (tx_view s bn) true ->
  clients (l_log s) !! i = Some pid -> blocks_used (l_log s) !! i = Some u ->
  blocks_reserved (l_log s) !! i = Some rs -> u < rs -> bn ∉ tx_logged s ->
  exists b', log_write pid id s = Ret (tt, mk_lfs (logged i u bn (l_log s)) b' (l_depth s)) /\
    step_at (l_bio s) b' (key bn) /\ bio_clean b' /\ at_buf b' id (key bn) (r + 1) true (tx_view s bn) true /\
    disk b' = disk (l_bio s) /\ spare b' = spare (l_bio s).
Proof.
  intros I Hr Hab Hi Hu Hrs Hlt Hnin. pose proof (key_good bn s I) as Hg. pose proof (ti_bio s I) as Hbi.
  destruct (holds_by_key (l_bio s) id (key bn) Hbi Hg (ab_holds _ _ _ _ _ _ _ Hab)) as (b & Hbk & _ & _ & Hk & Hfb).
  pose proof (tx_others_range s bn I) as Ho. rewrite bool_decide_eq_false_2 in Ho by done. unfold tx_others in Ho.
  rewrite (ab_refs _ _ _ _ _ _ _ Hab), (ab_lockd _ _ _ _ _ _ _ Hab) in Ho. simpl in Ho.
  destruct (bio_get_spec (l_bio s) id (key bn)) as (b' & Hrun & Hkept & Hr' & Hvl & Hv);
    [apply I..|done|apply Hab|by rewrite (ab_refs _ _ _ _ _ _ _ Hab)|rewrite (ab_refs _ _ _ _ _ _ _ Hab); lia|].
  exists b'. split.
  - rewrite (log_write_run s i pid u rs id b) by (try done; apply I).
    assert (b_blockno b = bn) as -> by (by injection Hk). rewrite decide_False by done.
    unfold bio_get, mbind, ST_bind, deref, modify_buf, modify in Hrun. rewrite Hfb in Hrun.
    injection Hrun as <-. done.
  - destruct Hkept as [K1 K2 K3 K4 K5 K6 K7]. split_and!; try done. split; try done.
    + rewrite Hr', (ab_refs _ _ _ _ _ _ _ Hab). done.
    + rewrite K4. apply Hab.
    + rewrite Hvl. apply Hab.
Qed.

Lemma logged_blocks s i u bn b' :
  log_ok (l_log s) -> 0 <= lh_n (l_log s) < lg_size (l_log s) ->
  tx_logged (mk_lfs (logged i u bn (l_log s)) b' (l_depth s)) = tx_logged s ++ [bn].
Proof.
  intros Hok Hn. unfold tx_logged. simpl. pose proof (ok_block _ Hok) as Hb. pose proof (ok_size _ Hok).
  rewrite Z2Nat.inj_add by lia. change (Z.to_nat 1) with 1%nat. rewrite Nat.add_1_r.
  erewrite take_S_r; [|apply list_lookup_insert_eq; lia]. by rewrite take_insert_ge by lia.
Qed.

Lemma tx_log_run s id bn c :
  tx_inv s -> tx_held s id bn c -> 0 < tx_room s ->
  exists s', tx_log id s = Ret (tt, s') /\ tx_inv s' /\
    tx_unchanged s s' bn /\
    tx_held s' id bn true /\ tx_view s' bn = tx_view s bn /\ tx_pinned s' bn = true /\
    tx_room s - 1 <= tx_room s' /\ spare (l_bio s') = spare (l_bio s).
Proof.
  intros I Hh Hroom. pose proof (tx_held_refs s id bn c Hh) as Eo. destruct Hh as (r & Hr & Hab & _).
  destruct (tx_slot_run s I Hroom) as (i & u & rs & Hi & Hu & Hrs & Hslot & Eroom).
  pose proof (key_good bn s I) as Hg. pose proof (tx_others_range s bn I) as Ho.
  rewrite (ab_refs _ _ _ _ _ _ _ Hab) in Eo. unfold tx_log.
  destruct (decide (bn ∈ tx_logged s)) as [Hin|Hnin].
  - exists s. rewrite bool_decide_eq_true_2 in Ho by done. simpl in Ho. split.
    { destruct (holds_by_key (l_bio s) id (key bn) (ti_bio s I) Hg (ab_holds _ _ _ _ _ _ _ Hab))
        as (b & _ & _ & _ & Hk & Hfb).
      rewrite (log_write_run s i pid u rs id b) by (try done; try apply I; lia).
      assert (b_blockno b = bn) as -> by (by injection Hk). by rewrite decide_True. }
    split; [done|]. split; [by intros bn' _|]. split; [|split; [done|split; [unfold tx_pinned; lia|split; [lia|done]]]].
    exists r. split; [done|]. split; [done|]. lia.
  - destruct (tx_log_new s id bn r i u rs I Hr Hab Hi Hu Hrs) as (b' & Hrun & Hst & Hcl & Hab' & Hdisk & Hs); [lia|done|].
    set (s1 := mk_lfs (l_log s) b' (l_depth s)). set (s' := mk_lfs (logged i u bn (l_log s)) b' (l_depth s)).
    pose proof (tx_frame s b' bn (proj1 (ti_dev s I)) Hst Hdisk) as Hfr. fold s1 in Hfr.
    assert (tx_others s' bn = tx_others s bn + 1) as Ho'.
    { rewrite Eo. unfold tx_others. simpl. rewrite (ab_refs _ _ _ _ _ _ _ Hab'), (ab_lockd _ _ _ _ _ _ _ Hab'). simpl. lia. }
    pose proof (log_room (l_log s) i u rs (ti_log s I) Hu Hrs ltac:(lia)) as Hn.
    assert (tx_logged s' = tx_logged s ++ [bn]) as El by (apply logged_blocks; [apply I|done]).
    rewrite bool_decide_eq_false_2 in Ho by done. simpl in Ho.
    exists s'. split; [done|]. split; [|split].
    + split; try apply I; try done.
      * apply (logged_ok (l_log s) i u rs); try done; [apply I|lia|]. rewrite Hi. intros [= E]. by apply (ti_pid s I).
      * apply Hst.
      * intros bn'. rewrite El. destruct (decide (bn' = bn)) as [->|Hne].
        { rewrite Ho', (ti_others s I), (bool_decide_eq_false_2 (bn ∈ tx_logged s)), bool_decide_eq_true_2 by set_solver. simpl. lia. }
        destruct (Hfr bn' Hne) as (_ & _ & _ & E & _). change (tx_others s' bn') with (tx_others s1 bn'). rewrite E.
        rewrite (bool_decide_ext _ (bn' ∈ tx_logged s)) by set_solver. apply I.
    + intros bn' Hne. destruct (Hfr bn' Hne) as (? & ? & ? & _ & ?). by split_and!.
    + assert (tx_view s' bn = tx_view s bn) as Hv by apply Hab'.
      split; [|split; [done|split; [unfold tx_pinned; lia|split; [|done]]]].
      * exists (r + 1). split; [lia|]. rewrite Hv. split; [done|]. lia.
      * rewrite Eroom. unfold tx_room. change (log_client_from_pid (l_log s') pid) with (log_client_from_pid (l_log s) pid).
        rewrite (client_of (l_log s) i pid (ti_log s I) Hi (ti_pid s I)), (proj2 (Z.eqb_neq _ _)) by lia.
        change (tx_slot s') with (tx_slot s). rewrite Hslot. simpl.
        rewrite list_lookup_insert_eq, Hrs by (by eapply lookup_lt_Some). simpl. lia.
Qed.

Definition tx_in_log (s : lfs) (bn : Z) : bool := bool_decide (bn ∈ tx_logged s).

Lemma tx_in_log_pinned s bn : tx_inv s -> tx_in_log s bn = true -> tx_pinned s bn = true.
Proof.
  intros I Hl. unfold tx_pinned. rewrite (ti_others s I). pose proof (ti_shared s I bn). unfold tx_in_log in Hl. rewrite Hl. simpl. lia.
Qed.

Lemma on_bio_logged {A} (m : ST bio A) s a s' : on_bio m s = Ret (a, s') -> forall bn, tx_in_log s' bn = tx_in_log s bn.
Proof. unfold on_bio. destruct (m (l_bio s)) as [[a' b]| | | |]; try done. by intros [= <- <-]. Qed.

Lemma tx_log_logged s id bn c s' :
  tx_inv s -> tx_held s id bn c -> 0 < tx_room s -> tx_log id s = Ret (tt, s') ->
  tx_in_log s' bn = true /\ (forall bn', tx_in_log s bn' = true -> tx_in_log s' bn' = true) /\
  tx_room s - (if tx_in_log s bn then 0 else 1) <= tx_room s'.
Proof.
  intros I Hh Hroom Hrun. destruct (tx_log_run s id bn c I Hh Hroom) as (s2 & Hrun2 & _ & _ & _ & _ & _ & Hr & _).
  rewrite Hrun in Hrun2. injection Hrun2 as <-. destruct Hh as (r & Hr0 & Hab & _).
  destruct (tx_slot_run s I Hroom) as (i & u & rs & Hi & Hu & Hrs & Hslot & Eroom). pose proof (key_good bn s I) as Hg.
  unfold tx_in_log. destruct (decide (bn ∈ tx_logged s)) as [Hin|Hnin].
  - rewrite (bool_decide_eq_true_2 (bn ∈ tx_logged s)) by done.
    destruct (holds_by_key (l_bio s) id (key bn) (ti_bio s I) Hg (ab_holds _ _ _ _ _ _ _ Hab)) as (b & _ & _ & _ & Hk & Hfb).
    unfold tx_log in Hrun. rewrite (log_write_run s i pid u rs id b) in Hrun by (try done; try apply I; lia).
    assert (b_blockno b = bn) as E by (by injection Hk). rewrite E, decide_True in Hrun by done. injection Hrun as <-.
    split; [by rewrite bool_decide_eq_true_2|]. split; [done|lia].
  - rewrite (bool_decide_eq_false_2 (bn ∈ tx_logged s)) by done.
    destruct (tx_log_new s id bn r i u rs I Hr0 Hab Hi Hu Hrs) as (b' & Hrun' & _); [lia|done|].
    unfold tx_log in Hrun. rewrite Hrun in Hrun'. injection Hrun' as ->.
    pose proof (log_room (l_log s) i u rs (ti_log s I) Hu Hrs ltac:(lia)) as Hn.
    rewrite logged_blocks by (try apply I; done). split; [apply bool_decide_eq_true_2; set_solver|]. split; [|done].
    intros bn' ?%bool_decide_eq_true_1. apply bool_decide_eq_true_2. set_solver.
Qed.

(** The start of a transaction: nothing is locked or logged. *)
Lemma tx_inv_start s :
  dev <> 0 -> devs dev = true -> pid <> 0 -> log_ok (l_log s) ->
  bio_inv (l_bio s) -> bio_clean (l_bio s) -> lh_n (l_log s) = 0 ->
  (forall bn, lockd (l_bio s) (key bn) = false /\ refs (l_bio s) (key bn) = shared bn) -> (forall bn, 0 <= shared bn < 2 ^ 31) ->
  tx_inv s /\ forall bn, tx_free s bn.
Proof.
  intros Hd Hdev Hp Hok Hbi Hcl Hn Hb Hsh. split; [|intros bn; apply Hb]. split; try done.
  intros bn. unfold tx_logged, tx_others. rewrite Hn. change (take (Z.to_nat 0) (lh_block (l_log s))) with (@nil Z).
  rewrite bool_decide_eq_false_2 by (by apply not_elem_of_nil). destruct (Hb bn) as [-> ->]. simpl. lia.
Qed.

(** No buffer is locked or referenced. *)
Lemma unused_bufs b : bio_inv b -> Forall (fun c => b_locked c = false /\ b_refcnt c = 0) (buf_list b) ->
  dev <> 0 -> forall bn, lockd b (key bn) = false /\ refs b (key bn) = 0.
Proof.
  intros Hbi Hbufs Hd bn. rewrite Forall_forall in Hbufs. unfold lockd, refs.
  destruct (by_key (key bn) (buf_list b)) as [c|] eqn:E; [|done]. apply by_key_Some in E as [Hc _]; [|apply Hbi|done]. by apply Hbufs.
Qed.

#[export] Instance lfs_BlockStore : BlockStore lfs := {|
  bs_read := tx_read; bs_data := tx_data; bs_set := tx_set; bs_log := tx_log; bs_release := tx_release;
  bs_inv := tx_inv; bs_view := tx_view; bs_free := tx_free; bs_held := tx_held; bs_pinned := tx_pinned; bs_logged := tx_in_log;
  bs_room := tx_room; bs_bufs := fun s => spare (l_bio s);
  bs_held_locked := tx_held_locked; bs_read_run := tx_read_run; bs_data_run := tx_data_run; bs_set_run := tx_set_run;
  bs_log_run := tx_log_run; bs_release_run := tx_release_run; bs_logged_pinned := tx_in_log_pinned;
  bs_read_logged := fun s bn => on_bio_logged (bio_read devs dev bn) s;
  bs_set_logged := fun s id d => on_bio_logged (modify_buf id (set_data d)) s tt;
  bs_release_logged := fun s id => on_bio_logged (bio_release id) s tt; bs_log_logged := tx_log_logged
|}.
End Lfs.
