(* ===== verification/Bmap.v ===== *)
(** * Blocks of files (kernel/fs/vimixfs/bmap.c)

    The bitmap of used blocks and the tree of block addresses of an inode: 20 direct
    blocks, one indirect and one double indirect block.  The code runs inside of a
    transaction, over what [BlockStore] promises.  All blocks are on the device of the
    file system ([ip->dev] is the device of the super block for files and
    directories). *)
From stdpp Require Import list.
From S2P Require Import Prelude Bytes Bio Log LogCommit Txn.

(** ** vimixfs.h *)

Definition VIMIXFS_N_DIRECT_BLOCKS : Z := 20.
Definition VIMIXFS_INDIRECT_BLOCK_IDX : Z := VIMIXFS_N_DIRECT_BLOCKS.
Definition VIMIXFS_DOUBLE_INDIRECT_BLOCK_IDX : Z := VIMIXFS_N_DIRECT_BLOCKS + 1.
Definition VIMIXFS_N_INDIRECT_BLOCKS : Z := BLOCK_SIZE / 4.
Definition VIMIXFS_MAX_FILE_SIZE_BLOCKS : Z :=
  VIMIXFS_N_DIRECT_BLOCKS + VIMIXFS_N_INDIRECT_BLOCKS + VIMIXFS_N_INDIRECT_BLOCKS * VIMIXFS_N_INDIRECT_BLOCKS.
Definition VIMIXFS_BMAP_BITS_PER_BLOCK : Z := BLOCK_SIZE * 8.
Definition VIMIXFS_BMAP_BLOCK_OF_BIT (b bmapstart : Z) : Z := u32 (b / VIMIXFS_BMAP_BITS_PER_BLOCK + bmapstart).
Definition VIMIXFS_BLOCKS_FOR_BITMAP (size_in_blocks : Z) : Z := size_in_blocks / VIMIXFS_BMAP_BITS_PER_BLOCK + 1.

Record vimixfs_superblock := mk_superblock {
  sb_size : Z;
  sb_nblocks : Z;
  sb_ninode_blocks : Z;
  sb_inodestart : Z;
  sb_bmapstart : Z
}.

(** [struct vimixfs_inode] with the fields of [struct inode] that are on disk. *)
Record vimixfs_inode := mk_inode {
  i_inum : Z;
  i_mode : Z;
  i_dev : Z;
  i_nlink : Z;
  i_size : Z;
  i_uid : Z;
  i_gid : Z;
  i_ctime : Z;
  i_mtime : Z;
  addrs : list Z
}.

Definition set_addrs (l : list Z) (ip : vimixfs_inode) : vimixfs_inode :=
  mk_inode (i_inum ip) (i_mode ip) (i_dev ip) (i_nlink ip) (i_size ip) (i_uid ip) (i_gid ip)
    (i_ctime ip) (i_mtime ip) l.

(** The blocks and the inode that an operation works on. *)
Record fs (St : Type) := mk_fs { fs_st : St; fs_ip : vimixfs_inode }.
Arguments mk_fs {St}.
Arguments fs_st {St}.
Arguments fs_ip {St}.

Definition on_store {St A} (m : ST St A) : ST (fs St) A := fun s =>
  match m (fs_st s) with
  | Ret (a, t) => Ret (a, mk_fs t (fs_ip s))
  | Panic => Panic
  | Undef => Undef
  | Blocked => Blocked
  | NoFuel => NoFuel
  end.

Lemma on_store_run {St A} (m : ST St A) t ip a t' :
  m t = Ret (a, t') -> on_store m (mk_fs t ip) = Ret (a, mk_fs t' ip).
Proof. unfold on_store. simpl. by intros ->. Qed.

Section Bmap.
Context {St : Type} `{!BlockStore St} (sb : vimixfs_superblock).

(** ** The bitmap *)

Definition block_zero (blockno : Z) : ST St unit :=
  bp ← bs_read blockno;
  bs_set bp zero_block;;
  bs_log bp;;
  bs_release bp.

(** The inner loop of [block_alloc_init]: the first clear bit from [bi] on, with the
    bitmap block in which it is set. *)
Fixpoint scan_bits (fuel : nat) (b bi : Z) (data : block) : res (option (Z * block)) :=
  match fuel with
  | O => NoFuel
  | S fuel =>
      if ((bi <? VIMIXFS_BMAP_BITS_PER_BLOCK) && (u32 (b + bi) <? sb_size sb))%bool then
        let m := Z.shiftl 1 (bi mod 8) in
        byte ← load (data !! Z.to_nat (bi / 8));
        if Z.land byte m =? 0 then mret (Some (bi, <[Z.to_nat (bi / 8) := u8 (Z.lor byte m)]> data))
        else scan_bits fuel b (u32 (bi + 1)) data
      else mret None
  end.

Definition SCAN_FUEL : nat := Z.to_nat (VIMIXFS_BMAP_BITS_PER_BLOCK + 1).

Fixpoint block_alloc_loop (fuel : nat) (b : Z) : ST St Z :=
  match fuel with
  | O => lift NoFuel
  | S fuel =>
      if b <? sb_size sb then
        bp ← bs_read (VIMIXFS_BMAP_BLOCK_OF_BIT b (sb_bmapstart sb));
        data ← bs_data bp;
        found ← lift (scan_bits SCAN_FUEL b 0 data);
        match found with
        | Some (bi, data) =>
            bs_set bp data;;
            bs_log bp;;
            bs_release bp;;
            block_zero (u32 (b + bi));;
            mret (u32 (b + bi))
        | None =>
            bs_release bp;;
            block_alloc_loop fuel (u32 (b + VIMIXFS_BMAP_BITS_PER_BLOCK))
        end
      else mret 0
  end.

Definition block_alloc_init : ST St Z :=
  block_alloc_loop (Z.to_nat (sb_size sb / VIMIXFS_BMAP_BITS_PER_BLOCK + 2)) 0.

Definition block_free (block_id : Z) : ST St unit :=
  local_bitmap ← bs_read (VIMIXFS_BMAP_BLOCK_OF_BIT block_id (sb_bmapstart sb));
  data ← bs_data local_bitmap;
  let local_id := block_id mod VIMIXFS_BMAP_BITS_PER_BLOCK in
  let local_byte := Z.to_nat (local_id / 8) in
  let bit_in_byte := Z.shiftl 1 (local_id mod 8) in
  byte ← lift (load (data !! local_byte));
  lift (panic_unless (negb (Z.land byte bit_in_byte =? 0)));;
  bs_set local_bitmap (<[local_byte := u8 (Z.land byte (Z.lnot bit_in_byte))]> data);;
  bs_log local_bitmap;;
  bs_release local_bitmap.

(** ** The tree of addresses of an inode *)

(** A [uint32_t *]: the addresses of the inode or of an indirect block in a
    buffer. *)
Inductive addr_ptr := in_inode | in_buf (bp : nat).

Definition load_addr (p : addr_ptr) (i : Z) : ST (fs St) Z :=
  match p with
  | in_inode => s ← get; lift (load (addrs (fs_ip s) !! Z.to_nat i))
  | in_buf bp => data ← on_store (bs_data bp); lift (load (get_u32 (4 * Z.to_nat i) data))
  end.

Definition store_addr (p : addr_ptr) (i v : Z) : ST (fs St) unit :=
  match p with
  | in_inode =>
      s ← get;
      lift (if decide (Z.to_nat i < length (addrs (fs_ip s)))%nat then Ret tt else Undef);;
      put (mk_fs (fs_st s) (set_addrs (<[Z.to_nat i := v]> (addrs (fs_ip s))) (fs_ip s)))
  | in_buf bp =>
      data ← on_store (bs_data bp);
      data ← lift (load (put_u32 (4 * Z.to_nat i) v data));
      on_store (bs_set bp data)
  end.

(** The result with [did_allocate]. *)
Definition bmap_from_block_range (addr_block : addr_ptr) (block_number : Z) : ST (fs St) (Z * bool) :=
  addr ← load_addr addr_block block_number;
  if addr =? 0 then
    addr ← on_store block_alloc_init;
    if negb (addr =? 0) then store_addr addr_block block_number addr;; mret (addr, true)
    else mret (addr, false)
  else mret (addr, false).

Definition bmap_from_block (ib_addr block_number : Z) : ST (fs St) Z :=
  if ib_addr =? 0 then mret 0
  else
    bp ← on_store (bs_read ib_addr);
    r ← bmap_from_block_range (in_buf bp) block_number;
    (if snd r : bool then on_store (bs_log bp) else mret tt);;
    on_store (bs_release bp);;
    mret (fst r).

(** Allocate an indirect block if the inode has none. *)
Definition need_block (idx : Z) : ST (fs St) Z :=
  addr ← load_addr in_inode idx;
  (if addr =? 0 then addr ← on_store block_alloc_init; store_addr in_inode idx addr else mret tt);;
  load_addr in_inode idx.

Definition bmap_get_block_address (block_number : Z) : ST (fs St) Z :=
  if block_number <? VIMIXFS_N_DIRECT_BLOCKS then
    r ← bmap_from_block_range in_inode block_number; mret (fst r)
  else
    let block_number := block_number - VIMIXFS_N_DIRECT_BLOCKS in
    if block_number <? VIMIXFS_N_INDIRECT_BLOCKS then
      ib ← need_block VIMIXFS_INDIRECT_BLOCK_IDX;
      bmap_from_block ib block_number
    else
      let block_number := block_number - VIMIXFS_N_INDIRECT_BLOCKS in
      if block_number <? VIMIXFS_N_INDIRECT_BLOCKS * VIMIXFS_N_INDIRECT_BLOCKS then
        ib ← need_block VIMIXFS_DOUBLE_INDIRECT_BLOCK_IDX;
        let index_0 := block_number / VIMIXFS_N_INDIRECT_BLOCKS in
        let index_1 := block_number mod VIMIXFS_N_INDIRECT_BLOCKS in
        indirect_block ← bmap_from_block ib index_0;
        bmap_from_block indirect_block index_1
      else lift Panic.
End Bmap.

(** ** Bits of a bitmap block *)

Definition bit (data : block) (j : Z) : bool := Z.testbit (default 0 (data !! Z.to_nat (j / 8))) (j mod 8).

(** A block as the devices have them. *)
Definition is_block (d : block) : Prop := length d = 1024%nat /\ Forall (is_u 8) d.

Lemma land_bit x k : 0 <= k -> (Z.land x (Z.shiftl 1 k) =? 0) = negb (Z.testbit x k).
Proof.
  intros Hk. rewrite Z.shiftl_1_l. destruct (Z.testbit x k) eqn:E; simpl.
  - apply Z.eqb_neq. intros H. apply (f_equal (fun y => Z.testbit y k)) in H.
    rewrite Z.land_spec, E, Z.pow2_bits_true, Z.bits_0 in H by done. done.
  - apply Z.eqb_eq, Z.bits_inj'. intros n Hn. rewrite Z.land_spec, Z.bits_0, Z.pow2_bits_eqb by done.
    destruct (Z.eqb_spec k n) as [<-|]; [by rewrite E | by rewrite andb_false_r].
Qed.

Lemma u8_bits x j : 0 <= j < 8 -> Z.testbit (u8 x) j = Z.testbit x j.
Proof. intros. unfold uwrap. rewrite Z.mod_pow2_bits_low by lia. done. Qed.

Lemma is_block_byte d i : is_block d -> (i < 1024)%nat -> exists x, d !! i = Some x.
Proof. intros [Hl _] Hi. apply lookup_lt_is_Some_2. lia. Qed.

Lemma is_block_insert d i x : is_block d -> is_u 8 x -> is_block (<[i := x]> d).
Proof. intros [Hl Hf] Hx. split; [by rewrite length_insert | by apply Forall_insert]. Qed.

(** A change of one bit. *)
Lemma bit_update d j x y :
  is_block d -> 0 <= j < 8192 -> d !! Z.to_nat (j / 8) = Some x ->
  (forall k, 0 <= k < 8 -> k <> j mod 8 -> Z.testbit y k = Z.testbit x k) ->
  forall j', 0 <= j' ->
    bit (<[Z.to_nat (j / 8) := y]> d) j' = if decide (j' = j) then Z.testbit y (j mod 8) else bit d j'.
Proof.
  intros [Hl _] Hj Hx Hy j' Hj'. pose proof (Z.mod_pos_bound j' 8). pose proof (Z.mod_pos_bound j 8).
  pose proof (Z.div_mod j 8). pose proof (Z.div_mod j' 8). pose proof (Z.div_pos j' 8).
  pose proof (Z.div_pos j 8). unfold bit.
  destruct (decide (j' = j)) as [->|Hne].
  - rewrite list_lookup_insert_eq by (apply lookup_lt_Some in Hx; lia). done.
  - destruct (decide (j' / 8 = j / 8)) as [E|E].
    + rewrite E, list_lookup_insert_eq, Hx by (apply lookup_lt_Some in Hx; lia). simpl. apply Hy; lia.
    + by rewrite list_lookup_insert_ne by lia.
Qed.

Lemma set_bit_spec d j x :
  is_block d -> 0 <= j < 8192 -> d !! Z.to_nat (j / 8) = Some x ->
  let d' := <[Z.to_nat (j / 8) := u8 (Z.lor x (Z.shiftl 1 (j mod 8)))]> d in
  is_block d' /\ forall j', 0 <= j' -> bit d' j' = (bool_decide (j' = j) || bit d j')%bool.
Proof.
  intros Hb Hj Hx d'. pose proof (Z.mod_pos_bound j 8). split.
  { apply is_block_insert; [done|]. apply uwrap_range. lia. }
  intros j' Hj'. unfold d'. rewrite (bit_update d j x) by (try done; intros k Hk Hne;
    rewrite u8_bits, Z.lor_spec, Z.shiftl_1_l, Z.pow2_bits_false by lia; by rewrite orb_false_r).
  destruct (decide (j' = j)) as [->|Hne].
  - rewrite bool_decide_eq_true_2 by done. rewrite u8_bits, Z.lor_spec, Z.shiftl_1_l, Z.pow2_bits_true by lia.
    by rewrite orb_true_r.
  - by rewrite bool_decide_eq_false_2.
Qed.

Lemma clear_bit_spec d j x :
  is_block d -> 0 <= j < 8192 -> d !! Z.to_nat (j / 8) = Some x ->
  let d' := <[Z.to_nat (j / 8) := u8 (Z.land x (Z.lnot (Z.shiftl 1 (j mod 8))))]> d in
  is_block d' /\ forall j', 0 <= j' -> bit d' j' = (negb (bool_decide (j' = j)) && bit d j')%bool.
Proof.
  intros Hb Hj Hx d'. pose proof (Z.mod_pos_bound j 8). split.
  { apply is_block_insert; [done|]. apply uwrap_range. lia. }
  intros j' Hj'. unfold d'. rewrite (bit_update d j x) by (try done; intros k Hk Hne;
    rewrite u8_bits, Z.land_spec, Z.lnot_spec, Z.shiftl_1_l, Z.pow2_bits_false by lia; by rewrite andb_true_r).
  destruct (decide (j' = j)) as [->|Hne].
  - rewrite bool_decide_eq_true_2 by done.
    rewrite u8_bits, Z.land_spec, Z.lnot_spec, Z.shiftl_1_l, Z.pow2_bits_true by lia. simpl. by rewrite andb_false_r.
  - by rewrite bool_decide_eq_false_2.
Qed.

Lemma zero_is_block : is_block zero_block.
Proof. split; [done|]. unfold zero_block. apply Forall_replicate. done. Qed.

(** The inner loop. *)
Lemma scan_bits_run sb d b : forall fuel bi,
  is_block d -> 0 <= bi <= 8192 -> 0 <= b -> b + 8192 <= 2 ^ 32 -> (Z.to_nat (8192 - bi) < fuel)%nat ->
  exists r, scan_bits sb fuel b bi d = Ret r /\
    match r with
    | None => forall j, bi <= j < 8192 -> b + j < sb_size sb -> bit d j = true
    | Some (j, d') => bi <= j < 8192 /\ b + j < sb_size sb /\ bit d j = false /\
        (forall i, bi <= i < j -> bit d i = true) /\ is_block d' /\
        forall j', 0 <= j' -> bit d' j' = (bool_decide (j' = j) || bit d j')%bool
    end.
Proof.
  induction fuel as [|fuel IH]; intros bi Hd Hbi Hb Hb' Hf; [lia|]. cbn [scan_bits].
  change VIMIXFS_BMAP_BITS_PER_BLOCK with 8192.
  destruct (Z.ltb_spec bi 8192) as [Hlt|]; simpl; [|exists None; split; [done|lia]].
  rewrite uwrap_id by (unfold is_u; lia).
  destruct (Z.ltb_spec (b + bi) (sb_size sb)) as [Hs|]; [|exists None; split; [done|lia]].
  pose proof (Z.mod_pos_bound bi 8). assert (0 <= bi / 8 < 1024).
  { split; [apply Z.div_pos; lia | apply Z.div_lt_upper_bound; lia]. }
  destruct (is_block_byte d (Z.to_nat (bi / 8)) Hd ltac:(lia)) as [x Hx]. rewrite Hx. simpl.
  assert (bit d bi = Z.testbit x (bi mod 8)) as Ebit by (unfold bit; by rewrite Hx).
  rewrite land_bit by lia. rewrite <- Ebit. destruct (bit d bi) eqn:Eb; simpl.
  - rewrite uwrap_id by (unfold is_u; lia). destruct (IH (bi + 1)) as (r & Hr & Hspec); [done|lia..|].
    exists r. split; [done|]. destruct r as [[j d']|].
    + destruct Hspec as (? & ? & ? & Hall & ? & ?). split_and!; try done; [lia..|].
      intros i Hi. destruct (decide (i = bi)) as [->|]; [done|]. apply Hall. lia.
    + intros j Hj Hj'. destruct (decide (j = bi)) as [->|]; [done|]. apply Hspec; lia.
  - destruct (set_bit_spec d bi x Hd ltac:(lia) Hx) as [Hd' Hbits]. eexists. split; [done|].
    split_and!; try done; lia.
Qed.

(** ** Effects on the blocks *)

Section Effects.
Context {St : Type} `{!BlockStore St}.

(** From [s] to [s'] only the blocks in [W] change, no lock is kept, and at most
    [k] blocks were logged. *)
Record eff (s s' : St) (W : Z -> Prop) (k : Z) : Prop := {
  e_inv : bs_inv s';
  e_view bn : ~ W bn -> bs_view s' bn = bs_view s bn;
  e_pinned bn : ~ W bn -> bs_pinned s' bn = bs_pinned s bn;
  e_free bn : bs_free s bn -> bs_free s' bn;
  e_held bn id c : bs_held s id bn c -> bs_held s' id bn c;
  e_room : bs_room s - k <= bs_room s';
  e_bufs : bs_bufs s - k <= bs_bufs s';
  e_logged bn : bs_logged s bn = true -> bs_logged s' bn = true
}.

Lemma eff_refl s W : bs_inv s -> eff s s W 0.
Proof. intros I. split; try done; lia. Qed.

Lemma eff_trans s1 s2 s3 W W' W'' k k' k'' :
  eff s1 s2 W k -> eff s2 s3 W' k' -> (forall bn, W bn -> W'' bn) -> (forall bn, W' bn -> W'' bn) ->
  k + k' <= k'' -> eff s1 s3 W'' k''.
Proof.
  intros [I1 V1 P1 F1 H1 R1 B1 L1] [I2 V2 P2 F2 H2 R2 B2 L2] HW HW' Hk. split; auto; try lia.
  - intros bn Hn. rewrite V2, V1 by auto. done.
  - intros bn Hn. rewrite P2, P1 by auto. done.
Qed.

(** Reading a free block into a buffer. *)
Lemma read_run s bn :
  bs_inv s -> bs_free s bn -> 0 < bs_bufs s ->
  exists bp s', bs_read bn s = Ret (bp, s') /\ bs_inv s' /\ bs_held s' bp bn true /\
    (forall bn', bs_view s' bn' = bs_view s bn') /\
    (forall bn', bn' <> bn -> bs_free s bn' -> bs_free s' bn') /\
    (forall bn' id c, bs_held s id bn' c -> bs_held s' id bn' c /\ bn' <> bn) /\
    (forall bn', bn' <> bn -> bs_pinned s' bn' = bs_pinned s bn') /\
    bs_pinned s' bn = bs_pinned s bn /\ bs_room s' = bs_room s /\
    bs_bufs s' = bs_bufs s - (if bs_pinned s bn then 0 else 1).
Proof.
  intros I Hf Hb. destruct (bs_read_run s bn I Hf Hb) as (bp & s' & Hrun & I' & Hfr & Hh & Hv & Hp & Hr & Hbuf).
  exists bp, s'. split_and!; try done.
  - intros bn'. destruct (decide (bn' = bn)) as [->|Hne]; [done | by apply (Hfr bn' Hne)].
  - intros bn' Hne. apply (Hfr bn' Hne).
  - intros bn' id c Hh'. assert (bn' <> bn) as Hne by (intros ->; by apply (bs_held_locked s id bn c) in Hh').
    split; [by apply (Hfr bn' Hne) | done].
  - intros bn' Hne. apply (Hfr bn' Hne).
Qed.

(** Releasing the buffer of a read: nothing changed. *)
Lemma read_release_run s s1 bp bn :
  bs_inv s -> bs_free s bn -> 0 < bs_bufs s -> bs_read bn s = Ret (bp, s1) ->
  exists s2, bs_release bp s1 = Ret (tt, s2) /\ eff s s2 (fun _ => False) 0.
Proof.
  intros I Hf Hb Hrun. destruct (bs_read_run s bn I Hf Hb) as (bp' & s' & Hrun' & I' & Hfr & Hh & Hv & Hp & Hr & Hbuf).
  rewrite Hrun' in Hrun. injection Hrun as -> ->.
  destruct (bs_release_run s1 bp bn I' Hh) as (s2 & Hrel & I2 & Hfr2 & Hf2 & Hv2 & Hp2 & Hr2 & Hb2).
  exists s2. split; [done|]. split; try done.
  - intros bn' _. destruct (decide (bn' = bn)) as [->|Hne]; [congruence|].
    destruct (Hfr bn' Hne) as (E & _), (Hfr2 bn' Hne) as (E2 & _). congruence.
  - intros bn' _. destruct (decide (bn' = bn)) as [->|Hne]; [congruence|].
    destruct (Hfr bn' Hne) as (_ & _ & E & _), (Hfr2 bn' Hne) as (_ & _ & E2 & _). congruence.
  - intros bn'. destruct (decide (bn' = bn)) as [->|Hne]; [done|]. intros H. apply (Hfr2 bn' Hne), (Hfr bn' Hne), H.
  - intros bn' id c Hh'. assert (bn' <> bn) as Hne by (intros ->; by apply (bs_held_locked s id bn c) in Hh').
    apply (Hfr2 bn' Hne), (Hfr bn' Hne), Hh'.
  - rewrite Hr2, Hr. lia.
  - rewrite Hb2, Hbuf, Hp. destruct (bs_pinned s bn); lia.
  - intros bn'. by rewrite (bs_release_logged _ _ _ Hrel), (bs_read_logged _ _ _ _ Hrun').
Qed.

(** A buffer is written, logged and released; this takes no room if the block is in
    the log. *)
Lemma write_back_run s s1 bp bn d :
  bs_inv s -> bs_free s bn -> 0 < bs_bufs s -> 0 < bs_room s -> bs_read bn s = Ret (bp, s1) ->
  exists s2 s3 s4, bs_set bp d s1 = Ret (tt, s2) /\ bs_log bp s2 = Ret (tt, s3) /\
    bs_release bp s3 = Ret (tt, s4) /\ eff s s4 (fun b => b = bn) 1 /\ bs_view s4 bn = d /\ bs_logged s4 bn = true /\
    (bs_logged s bn = true -> bs_room s <= bs_room s4 /\ bs_bufs s <= bs_bufs s4).
Proof.
  intros I Hf Hb Hroom Hrun. destruct (bs_read_run s bn I Hf Hb) as (bp' & s' & Hrun' & I' & Hfr & Hh & Hv & Hp & Hr & Hbuf).
  rewrite Hrun' in Hrun. injection Hrun as -> ->.
  destruct (bs_set_run s1 bp bn true d I' Hh) as (s2 & Hset & I2 & Hfr2 & Hh2 & Hv2 & Hp2 & Hr2 & Hb2).
  destruct (bs_log_run s2 bp bn (bs_pinned s1 bn) I2 Hh2 ltac:(lia)) as (s3 & Hlog & I3 & Hfr3 & Hh3 & Hv3 & Hp3 & Hr3 & Hb3).
  destruct (bs_release_run s3 bp bn I3 Hh3) as (s4 & Hrel & I4 & Hfr4 & Hf4 & Hv4 & Hp4 & Hr4 & Hb4).
  destruct (bs_log_logged s2 bp bn _ s3 I2 Hh2 ltac:(lia) Hlog) as (Hl3 & Hmono & Hcost).
  assert (forall bn', bs_logged s2 bn' = bs_logged s bn') as El
    by (intros bn'; by rewrite (bs_set_logged _ _ _ _ Hset), (bs_read_logged _ _ _ _ Hrun')).
  rewrite El in Hcost. rewrite Hp3 in *. exists s2, s3, s4. split; [done|]. split; [done|]. split; [done|]. split; [|split; [congruence|split]].
  2: by rewrite (bs_release_logged _ _ _ Hrel).
  2: { intros Hl. rewrite Hl in Hcost. rewrite (bs_logged_pinned s bn I Hl) in Hbuf. lia. }
  split; try done.
  - intros bn' Hne. destruct (Hfr bn' Hne) as (E & _), (Hfr2 bn' Hne) as (E2 & _), (Hfr3 bn' Hne) as (E3 & _),
      (Hfr4 bn' Hne) as (E4 & _). congruence.
  - intros bn' Hne. destruct (Hfr bn' Hne) as (_ & _ & E & _), (Hfr2 bn' Hne) as (_ & _ & E2 & _),
      (Hfr3 bn' Hne) as (_ & _ & E3 & _), (Hfr4 bn' Hne) as (_ & _ & E4 & _). congruence.
  - intros bn'. destruct (decide (bn' = bn)) as [->|Hne]; [done|].
    intros H. by apply (Hfr4 bn' Hne), (Hfr3 bn' Hne), (Hfr2 bn' Hne), (Hfr bn' Hne).
  - intros bn' id c Hh'. assert (bn' <> bn) as Hne by (intros ->; by apply (bs_held_locked s id bn c) in Hh').
    apply (Hfr4 bn' Hne), (Hfr3 bn' Hne), (Hfr2 bn' Hne), (Hfr bn' Hne), Hh'.
  - lia.
  - destruct (bs_pinned s bn); lia.
  - intros bn' Hl. rewrite (bs_release_logged _ _ _ Hrel). apply Hmono. by rewrite El.
Qed.

Lemma block_zero_run s bn :
  bs_inv s -> bs_free s bn -> 0 < bs_bufs s -> 0 < bs_room s ->
  exists s', block_zero bn s = Ret (tt, s') /\ eff s s' (fun b => b = bn) 1 /\ bs_view s' bn = zero_block /\ bs_logged s' bn = true.
Proof.
  intros I Hf Hb Hr. destruct (bs_read_run s bn I Hf Hb) as (bp & s1 & Hrun & _).
  destruct (write_back_run s s1 bp bn zero_block I Hf Hb Hr Hrun) as (s2 & s3 & s4 & E2 & E3 & E4 & He & Hv & Hl & _).
  exists s4. split; [|done]. unfold block_zero.
  rewrite (bind_run _ _ s bp s1 Hrun), (bind_run _ _ s1 tt s2 E2), (bind_run _ _ s2 tt s3 E3). done.
Qed.
End Effects.

(** ** Allocation *)

Definition data_start (sb : vimixfs_superblock) : Z := sb_bmapstart sb + VIMIXFS_BLOCKS_FOR_BITMAP (sb_size sb).

Definition is_bitmap (sb : vimixfs_superblock) (bn : Z) : Prop := sb_bmapstart sb <= bn < data_start sb.

(** The layout of the disk: the bitmap is followed by the data blocks. *)
Record layout (sb : vimixfs_superblock) : Prop := {
  ly_size : 0 < sb_size sb /\ sb_size sb + 8192 <= 2 ^ 32;
  ly_bmap : 0 < sb_bmapstart sb;
  ly_data : data_start sb <= sb_size sb
}.

Section Alloc.
Context {St : Type} `{!BlockStore St} (sb : vimixfs_superblock) (L : layout sb).

(** The bit of block [b] in the bitmap. *)
Definition used (s : St) (b : Z) : bool := bit (bs_view s (sb_bmapstart sb + b / 8192)) (b mod 8192).

(** All blocks have the size of a block, and the blocks before the data blocks are
    in use. *)
Record fs_ok (s : St) : Prop := {
  fo_block bn : 0 <= bn < sb_size sb -> is_block (bs_view s bn);
  fo_meta b : 0 <= b < data_start sb -> used s b = true
}.

Lemma block_of_bit b :
  0 <= b < sb_size sb ->
  VIMIXFS_BMAP_BLOCK_OF_BIT b (sb_bmapstart sb) = sb_bmapstart sb + b / 8192 /\
  is_bitmap sb (sb_bmapstart sb + b / 8192).
Proof using L.
  intros Hb. destruct L as [[Hs Hs'] Hm Hd]. unfold is_bitmap, data_start, VIMIXFS_BLOCKS_FOR_BITMAP in *.
  change VIMIXFS_BMAP_BITS_PER_BLOCK with 8192 in *. pose proof (Z.div_pos b 8192).
  pose proof (Z.div_le_mono b (sb_size sb) 8192). split; [|lia]. unfold VIMIXFS_BMAP_BLOCK_OF_BIT.
  change VIMIXFS_BMAP_BITS_PER_BLOCK with 8192. rewrite uwrap_id by (unfold is_u; lia). lia.
Qed.

Lemma bitmap_range bn : is_bitmap sb bn -> 0 < bn < sb_size sb.
Proof using L. unfold is_bitmap. destruct L. lia. Qed.

Lemma bitmap_before_data : sb_bmapstart sb < data_start sb.
Proof using L.
  unfold data_start, VIMIXFS_BLOCKS_FOR_BITMAP. change VIMIXFS_BMAP_BITS_PER_BLOCK with 8192. destruct L as [? _ _].
  pose proof (Z.div_pos (sb_size sb) 8192 ltac:(lia) ltac:(lia)). lia.
Qed.

Lemma data_start_pos : 0 < data_start sb.
Proof using L.
  destruct L as [[? _] ? _]. unfold data_start, VIMIXFS_BLOCKS_FOR_BITMAP.
  change VIMIXFS_BMAP_BITS_PER_BLOCK with 8192. pose proof (Z.div_pos (sb_size sb) 8192). lia.
Qed.

(** The bits of one bitmap block. *)
Lemma used_at s k j : 0 <= j < 8192 -> used s (8192 * k + j) = bit (bs_view s (sb_bmapstart sb + k)) j.
Proof using.
  intros Hj. unfold used. rewrite <- (Z.div_unique (8192 * k + j) 8192 k j), <- (Z.mod_unique (8192 * k + j) 8192 k j) by lia.
  done.
Qed.

(** What allocation and freeing change in the bitmap. *)
Lemma used_update s s' r (v : bool) d :
  0 <= r -> bs_view s' (sb_bmapstart sb + r / 8192) = d ->
  (forall bn, is_bitmap sb bn -> bn <> sb_bmapstart sb + r / 8192 -> bs_view s' bn = bs_view s bn) ->
  (forall j, 0 <= j < 8192 ->
     bit d j = if decide (j = r mod 8192) then v else bit (bs_view s (sb_bmapstart sb + r / 8192)) j) ->
  forall b, 0 <= b < sb_size sb -> used s' b = if decide (b = r) then v else used s b.
Proof using L.
  intros Hr Hd Hother Hbit b Hb. destruct (block_of_bit b Hb) as [_ Hbm]. unfold used.
  pose proof (Z.mod_pos_bound b 8192 ltac:(lia)). pose proof (Z.div_mod b 8192). pose proof (Z.div_mod r 8192).
  destruct (decide (b / 8192 = r / 8192)) as [E|E].
  - rewrite E, Hd, Hbit by done. destruct (decide (b = r)) as [->|Hne]; [by rewrite decide_True|].
    by rewrite decide_False by lia.
  - rewrite (decide_False (P := b = r)) by (intros ->; done). rewrite Hother; [done|done|lia].
Qed.

(** The outcome of [block_alloc_init]. *)
Definition allocated (s : St) (r : Z) (s' : St) : Prop :=
  (r = 0 /\ (forall b, 0 <= b < sb_size sb -> used s b = true) /\ eff s s' (fun _ => False) 0) \/
  (data_start sb <= r < sb_size sb /\ used s r = false /\ (forall b, 0 <= b < r -> used s b = true) /\
   eff s s' (fun bn => is_bitmap sb bn \/ bn = r) 2 /\ (bs_view s' r = zero_block /\ bs_logged s' r = true) /\ fs_ok s' /\
   forall b, 0 <= b < sb_size sb -> used s' b = if decide (b = r) then true else used s b).

Lemma eff_same s s1 s' W k : eff s s1 (fun _ => False) 0 -> eff s1 s' W k -> eff s s' W k.
Proof using. intros H1 H2. by apply (eff_trans s s1 s' (fun _ => False) W W 0 k k). Qed.

Lemma used_same s s1 b : eff s s1 (fun _ => False) 0 -> used s1 b = used s b.
Proof using. intros H. unfold used. rewrite (e_view _ _ _ _ H) by intros []. done. Qed.

Lemma fs_ok_same s s1 : eff s s1 (fun _ => False) 0 -> fs_ok s -> fs_ok s1.
Proof using.
  intros H [F1 F2]. split; intros x Hx.
  - rewrite (e_view _ _ _ _ H) by intros []. auto.
  - rewrite (used_same s) by done. auto.
Qed.

(** A free bit was found in the bitmap block that starts with [b]. *)
Lemma alloc_found_run s s1 bp k j d' :
  bs_inv s -> fs_ok s -> (forall bn, is_bitmap sb bn -> bs_free s bn) ->
  bs_free s (8192 * k + j) -> 2 <= bs_room s -> 2 <= bs_bufs s -> 0 <= k -> 0 <= j < 8192 ->
  8192 * k + j < sb_size sb -> used s (8192 * k + j) = false ->
  (forall b, 0 <= b < 8192 * k + j -> used s b = true) ->
  bs_read (sb_bmapstart sb + k) s = Ret (bp, s1) -> is_block d' ->
  (forall j', 0 <= j' -> bit d' j' = (bool_decide (j' = j) || bit (bs_view s (sb_bmapstart sb + k)) j')%bool) ->
  exists s', (bs_set bp d';; bs_log bp;; bs_release bp;; block_zero (8192 * k + j)) s1 = Ret (tt, s') /\
    allocated s (8192 * k + j) s'.
Proof using L.
  intros I Hok Hbf Hrf Hroom Hbufs Hk Hj Hsz Hu Hbefore Hread Hd' Hbits. set (r := 8192 * k + j) in *.
  assert (0 <= r < sb_size sb) as Hr by lia. destruct (block_of_bit r Hr) as [_ Hbm].
  assert (r / 8192 = k) as Ek by (symmetry; apply (Z.div_unique r 8192 k j); lia).
  assert (r mod 8192 = j) as Ej by (symmetry; apply (Z.mod_unique r 8192 k j); lia).
  rewrite Ek in Hbm.
  assert (data_start sb <= r) as Hds.
  { destruct (decide (data_start sb <= r)) as [|Hn]; [done|]. rewrite (fo_meta s Hok r) in Hu by lia. done. }
  destruct (write_back_run s s1 bp (sb_bmapstart sb + k) d' I (Hbf _ Hbm) ltac:(lia) ltac:(lia) Hread)
    as (s2 & s3 & s4 & E2 & E3 & E4 & He4 & Hv4 & _).
  pose proof (e_room _ _ _ _ He4). pose proof (e_bufs _ _ _ _ He4).
  destruct (block_zero_run s4 r (e_inv _ _ _ _ He4) (e_free _ _ _ _ He4 r Hrf) ltac:(lia) ltac:(lia))
    as (s5 & E5 & He5 & Hv5 & Hl5).
  exists s5. split.
  { rewrite (bind_run _ _ s1 tt s2 E2), (bind_run _ _ s2 tt s3 E3), (bind_run _ _ s3 tt s4 E4). done. }
  assert (eff s s5 (fun bn => is_bitmap sb bn \/ bn = r) 2) as He.
  { eapply eff_trans; [exact He4|exact He5| | |lia]; [by intros bn ->; left | by intros bn ->; right]. }
  assert (~ is_bitmap sb r) as Hnb by (unfold is_bitmap; lia).
  assert (forall b, 0 <= b < sb_size sb -> used s5 b = if decide (b = r) then true else used s b) as Hused.
  { apply (used_update s s5 r true d'); rewrite ?Ek, ?Ej; [lia| | |].
    - rewrite (e_view _ _ _ _ He5); [done|]. intros E. apply Hnb. by rewrite <- E.
    - intros bn Hbn Hne. rewrite (e_view _ _ _ _ He5) by (intros ->; done). by rewrite (e_view _ _ _ _ He4).
    - intros j' Hj'. rewrite Hbits by lia. case_decide; [by rewrite bool_decide_eq_true_2|].
      by rewrite bool_decide_eq_false_2. }
  right. do 5 (split; [done|]). split; [|done]. split.
  - intros bn Hbn. destruct (decide (bn = r)) as [->|Hne]; [rewrite Hv5; apply zero_is_block|].
    rewrite (e_view _ _ _ _ He5) by done. destruct (decide (bn = sb_bmapstart sb + k)) as [->|Hne']; [by rewrite Hv4|].
    rewrite (e_view _ _ _ _ He4) by done. by apply Hok.
  - intros b Hb. rewrite Hused by (destruct L; lia). case_decide; [done|]. by apply Hok.
Qed.

Lemma alloc_loop_run : forall fuel k s,
  bs_inv s -> fs_ok s -> (forall bn, is_bitmap sb bn -> bs_free s bn) ->
  (forall bn, 0 <= bn < sb_size sb -> used s bn = false -> bs_free s bn) ->
  2 <= bs_room s -> 2 <= bs_bufs s -> 0 <= k -> 8192 * k < sb_size sb + 8192 ->
  sb_size sb < 8192 * (k + Z.of_nat fuel - 1) ->
  (forall b, 0 <= b < 8192 * k -> b < sb_size sb -> used s b = true) ->
  exists r s', block_alloc_loop sb fuel (8192 * k) s = Ret (r, s') /\ allocated s r s'.
Proof using L.
  induction fuel as [|fuel IH]; intros k s I Hok Hbf Huf Hroom Hbufs Hk Hkb Hfuel Hbefore.
  { lia. }
  pose proof (ly_size sb L) as [Hs Hs']. cbn [block_alloc_loop]. destruct (Z.ltb_spec (8192 * k) (sb_size sb)) as [Hlt|Hge].
  2:{ exists 0, s. split; [done|]. left. split; [done|]. split; [|by apply eff_refl].
      intros b Hb. apply Hbefore; lia. }
  destruct (block_of_bit (8192 * k) ltac:(lia)) as [Eb Hbm].
  rewrite (Z.mul_comm 8192 k), Z.div_mul in Eb, Hbm by lia. rewrite (Z.mul_comm k 8192) in Eb. rewrite Eb.
  destruct (read_run s (sb_bmapstart sb + k) I (Hbf _ Hbm) ltac:(lia)) as (bp & s1 & Hread & I1 & Hh & Hv & _).
  rewrite (bind_run _ _ s bp s1 Hread), (bind_run _ _ s1 (bs_view s (sb_bmapstart sb + k)) s1)
    by (rewrite <- Hv; by apply (bs_data_run s1 bp _ true)).
  destruct (scan_bits_run sb (bs_view s (sb_bmapstart sb + k)) (8192 * k) SCAN_FUEL 0) as (r & Hscan & Hspec);
    [apply Hok; pose proof (bitmap_range _ Hbm); lia | lia.. | unfold SCAN_FUEL; change VIMIXFS_BMAP_BITS_PER_BLOCK with 8192; lia |].
  rewrite (bind_run _ _ s1 r s1) by (by rewrite Hscan). destruct r as [[j d']|].
  - destruct Hspec as (Hj & Hsz & Hbit & Hall & Hd' & Hbits).
    rewrite uwrap_id by (unfold is_u; lia).
    assert (used s (8192 * k + j) = false) as Hu by (by rewrite used_at).
    destruct (alloc_found_run s s1 bp k j d') as (s' & Hrun & Hal); try done; [apply Huf; [lia|done]| |].
    { intros b Hb. destruct (decide (b < 8192 * k)); [apply Hbefore; lia|].
      replace b with (8192 * k + (b - 8192 * k)) by lia. rewrite used_at by lia. apply Hall. lia. }
    exists (8192 * k + j), s'. split; [|done].
    unfold mbind, ST_bind in Hrun |- *. destruct (bs_set bp d' s1) as [[? s2]| | | |]; try done.
    destruct (bs_log bp s2) as [[? s3]| | | |]; try done. destruct (bs_release bp s3) as [[? s4]| | | |]; try done.
    by rewrite Hrun.
  - destruct (read_release_run s s1 bp _ I (Hbf _ Hbm) ltac:(lia) Hread) as (s2 & Hrel & He).
    rewrite (bind_run _ _ s1 tt s2 Hrel). change VIMIXFS_BMAP_BITS_PER_BLOCK with 8192.
    rewrite uwrap_id by (unfold is_u; lia). replace (8192 * k + 8192) with (8192 * (k + 1)) by lia.
    pose proof (e_room _ _ _ _ He). pose proof (e_bufs _ _ _ _ He).
    destruct (IH (k + 1) s2) as (r & s' & Hrun & Hal); [apply He|by apply (fs_ok_same s)| | |lia..| |].
    + intros bn Hbn. by apply (e_free _ _ _ _ He), Hbf.
    + intros bn Hbn. rewrite (used_same s) by done. intros. by apply (e_free _ _ _ _ He), Huf.
    + intros b Hb Hb'. rewrite (used_same s) by done. destruct (decide (b < 8192 * k)); [apply Hbefore; lia|].
      replace b with (8192 * k + (b - 8192 * k)) by lia. rewrite used_at by lia. apply Hspec; lia.
    + exists r, s'. split; [done|]. destruct Hal as [(-> & Hfull & He')|(H1 & H2 & H3 & H4 & H5 & H6 & H7)].
      * left. split; [done|]. split; [|by apply (eff_same s s2)]. intros b Hb. rewrite <- (used_same s s2) by done. auto.
      * right. split; [done|]. rewrite (used_same s) in H2 by done. split; [done|].
        split; [intros b Hb; rewrite <- (used_same s s2) by done; auto|].
        split; [by apply (eff_same s s2)|]. do 2 (split; [done|]). intros b Hb. rewrite H7 by done.
        case_decide; [done|]. by apply used_same.
Qed.

Lemma block_alloc_run s :
  bs_inv s -> fs_ok s -> (forall bn, is_bitmap sb bn -> bs_free s bn) ->
  (forall bn, 0 <= bn < sb_size sb -> used s bn = false -> bs_free s bn) ->
  2 <= bs_room s -> 2 <= bs_bufs s ->
  exists r s', block_alloc_init sb s = Ret (r, s') /\ allocated s r s'.
Proof using L.
  intros I Hok Hbf Huf Hroom Hbufs. pose proof (ly_size sb L) as [Hs Hs']. unfold block_alloc_init.
  change VIMIXFS_BMAP_BITS_PER_BLOCK with 8192.
  pose proof (Z.div_mod (sb_size sb) 8192 ltac:(lia)). pose proof (Z.mod_pos_bound (sb_size sb) 8192 ltac:(lia)).
  pose proof (Z.div_pos (sb_size sb) 8192).
  apply (alloc_loop_run (Z.to_nat (sb_size sb / 8192 + 2)) 0 s); try done; lia.
Qed.

Lemma block_free_run s b :
  bs_inv s -> fs_ok s -> (forall bn, is_bitmap sb bn -> bs_free s bn) -> 1 <= bs_room s -> 1 <= bs_bufs s ->
  data_start sb <= b < sb_size sb ->
  if used s b then
    exists s', block_free sb b s = Ret (tt, s') /\ eff s s' (is_bitmap sb) 1 /\ fs_ok s' /\
      forall b', 0 <= b' < sb_size sb -> used s' b' = if decide (b' = b) then false else used s b'
  else block_free sb b s = Panic.
Proof using L.
  intros I Hok Hbf Hroom Hbufs Hb. assert (0 <= b < sb_size sb) as Hb'.
  { pose proof data_start_pos. lia. }
  destruct (block_of_bit b Hb') as [Eb Hbm]. set (bb := sb_bmapstart sb + b / 8192) in *.
  pose proof (Z.mod_pos_bound b 8192 ltac:(lia)) as Hj. set (j := b mod 8192) in *.
  assert (is_block (bs_view s bb)) as Hblk by (apply Hok; pose proof (bitmap_range _ Hbm); lia).
  destruct (read_run s bb I (Hbf _ Hbm) ltac:(lia)) as (bp & s1 & Hread & I1 & Hh & Hv & _).
  assert (0 <= j / 8 < 1024) as Hj8 by (split; [apply Z.div_pos; lia | apply Z.div_lt_upper_bound; lia]).
  destruct (is_block_byte _ (Z.to_nat (j / 8)) Hblk ltac:(lia)) as [x Hx].
  assert (used s b = Z.testbit x (j mod 8)) as Eu by (unfold used, bit; fold bb j; by rewrite Hx).
  unfold block_free. rewrite Eb. fold bb. rewrite (bind_run _ _ s bp s1 Hread).
  rewrite (bind_run _ _ s1 (bs_view s bb) s1) by (rewrite <- Hv; by apply (bs_data_run s1 bp _ true)).
  change VIMIXFS_BMAP_BITS_PER_BLOCK with 8192. fold j. cbv zeta.
  rewrite (bind_run _ _ s1 x s1) by (by rewrite Hx). pose proof (Z.mod_pos_bound j 8).
  rewrite land_bit, negb_involutive by lia. rewrite <- Eu. destruct (used s b) eqn:Ub; [|done].
  rewrite (bind_run _ _ s1 tt s1) by done.
  destruct (clear_bit_spec (bs_view s bb) j x Hblk Hj Hx) as [Hd' Hbits].
  set (d' := <[Z.to_nat (j / 8) := _]> (bs_view s bb)) in *.
  destruct (write_back_run s s1 bp bb d' I (Hbf _ Hbm) ltac:(lia) ltac:(lia) Hread)
    as (s2 & s3 & s4 & E2 & E3 & E4 & He & Hv4 & _).
  exists s4. rewrite (bind_run _ _ s1 tt s2 E2), (bind_run _ _ s2 tt s3 E3). split; [done|].
  assert (eff s s4 (is_bitmap sb) 1) as He'.
  { apply (eff_trans s s4 s4 (fun b => b = bb) (fun _ => False) _ 1 0); try done; [by apply eff_refl, He | by intros bn ->]. }
  assert (forall b', 0 <= b' < sb_size sb -> used s4 b' = if decide (b' = b) then false else used s b') as Hused.
  { apply (used_update s s4 b false d'); [lia|done| |].
    - intros bn _ Hne. by apply (e_view _ _ _ _ He).
    - intros j' Hj'. fold j bb. rewrite Hbits by lia. case_decide; [by rewrite bool_decide_eq_true_2|].
      by rewrite bool_decide_eq_false_2. }
  split; [done|]. split; [|done]. split.
  - intros bn Hbn. destruct (decide (bn = bb)) as [->|Hne]; [by rewrite Hv4|].
    rewrite (e_view _ _ _ _ He) by done. by apply Hok.
  - intros b' Hbm'. rewrite Hused by (destruct L; lia). rewrite decide_False by lia. by apply Hok.
Qed.
End Alloc.

(** ** Addresses in an indirect block *)

Definition word (d : block) (i : nat) : Z := default 0 (get_u32 (4 * i) d).

Lemma word_get d i : is_block d -> (i < 256)%nat -> get_u32 (4 * i) d = Some (word d i) /\ is_u 32 (word d i).
Proof.
  intros Hd Hi. unfold word, get_u32. destruct Hd as [Hl Hf].
  assert (forall j, (j < 1024)%nat -> exists x, d !! j = Some x /\ is_u 8 x) as Hb.
  { intros j Hj. destruct (lookup_lt_is_Some_2 d j) as [x Hx]; [lia|]. exists x. split; [done|].
    rewrite Forall_lookup in Hf. by apply (Hf j). }
  destruct (Hb (4 * i)%nat) as (x0 & -> & ?); [lia|]. destruct (Hb (4 * i + 1)%nat) as (x1 & -> & ?); [lia|].
  destruct (Hb (4 * i + 2)%nat) as (x2 & -> & ?); [lia|]. destruct (Hb (4 * i + 3)%nat) as (x3 & -> & ?); [lia|].
  simpl. split; [done|]. unfold is_u in *. lia.
Qed.

Lemma word_put d d' i v j :
  is_block d -> (i < 256)%nat -> (j < 256)%nat -> is_u 32 v -> put_u32 (4 * i) v d = Some d' ->
  word d' j = if decide (j = i) then v else word d j.
Proof.
  intros Hd Hi Hj Hv Hp. unfold word. case_decide as E.
  - subst. by rewrite (get_put_u32_eq _ _ _ _ Hv Hp).
  - by rewrite (get_put_u32_ne (4 * i) (4 * j) v d d') by (done || lia).
Qed.

Lemma put_is_block d i v :
  is_block d -> (i < 256)%nat -> exists d', put_u32 (4 * i) v d = Some d' /\ is_block d'.
Proof.
  intros [Hl Hf] Hi. unfold put_u32. rewrite decide_True by lia. eexists. split; [done|].
  repeat (apply is_block_insert; [|apply (Z.mod_pos_bound _ 256); lia]). done.
Qed.

Lemma word_zero i : word zero_block i = 0.
Proof.
  unfold word, get_u32, zero_block. destruct (decide (4 * i + 3 < 1024)%nat) as [H|H].
  - rewrite !lookup_replicate_2 by (change (Z.to_nat BLOCK_SIZE) with 1024%nat; lia). done.
  - assert (replicate (Z.to_nat BLOCK_SIZE) 0 !! (4 * i + 3)%nat = None) as ->
      by (apply lookup_replicate_None; change (Z.to_nat BLOCK_SIZE) with 1024%nat; lia).
    by repeat (destruct (_ !! _); simpl).
Qed.

Section FromBlock.
Context {St : Type} `{!BlockStore St} (sb : vimixfs_superblock) (L : layout sb).

(** The outcome of allocating a block whose address goes into entry [i] of block
    [a]. *)
Definition entered (s : St) (a : Z) (i : nat) (r : Z) (s' : St) : Prop :=
  (r = 0 /\ (forall b, 0 <= b < sb_size sb -> used sb s b = true) /\ eff s s' (fun _ => False) 0) \/
  (data_start sb <= r < sb_size sb /\ used sb s r = false /\
   eff s s' (fun bn => is_bitmap sb bn \/ bn = r \/ bn = a) 3 /\ (bs_view s' r = zero_block /\ bs_logged s' r = true) /\ fs_ok sb s' /\
   (forall j, (j < 256)%nat -> word (bs_view s' a) j = if decide (j = i) then r else word (bs_view s a) j) /\
   forall b, 0 <= b < sb_size sb -> used sb s' b = if decide (b = r) then true else used sb s b).

(** Writing the new address, logging and releasing the block. *)
Lemma enter_run s s1 s2 bp a i r ip :
  bs_inv s -> bs_free s a -> fs_ok sb s -> 3 <= bs_room s -> 3 <= bs_bufs s ->
  data_start sb <= a < sb_size sb -> used sb s a = true -> (i < 256)%nat ->
  bs_read a s = Ret (bp, s1) -> allocated sb s1 r s2 -> r <> 0 ->
  exists s3 s4 s', store_addr (in_buf bp) (Z.of_nat i) r (mk_fs s2 ip) = Ret (tt, mk_fs s3 ip) /\
    bs_log bp s3 = Ret (tt, s4) /\ bs_release bp s4 = Ret (tt, s') /\ entered s a i r s'.
Proof using L.
  intros I Hf Hok Hroom Hbufs Ha Hua Hi Hread Hal Hr0.
  destruct (bs_read_run s a I Hf ltac:(lia)) as (bp' & s' & Hrun' & I1 & Hfr1 & Hh1 & Hv1 & Hp1 & Hr1 & Hb1).
  rewrite Hrun' in Hread. injection Hread as -> ->.
  destruct Hal as [[? _]|(Hr & Hu & _ & He & [Hz Hlz] & Hok2 & Hused)]; [done|].
  assert (forall bn, bs_view s1 bn = bs_view s bn) as Hv.
  { intros bn. destruct (decide (bn = a)) as [->|Hne]; [done | by apply (Hfr1 bn Hne)]. }
  assert (forall b, used sb s1 b = used sb s b) as Hu1 by (intros b; unfold used; by rewrite Hv).
  assert (a <> r) as Har by (intros ->; rewrite Hu1 in Hu; congruence).
  assert (~ (is_bitmap sb a \/ a = r)) as Hnw by (unfold is_bitmap; lia).
  pose proof data_start_pos sb L as Hdp. assert (0 <= a < sb_size sb) as Ha' by lia.
  pose proof (e_held _ _ _ _ He a bp true Hh1) as Hh2. pose proof (e_view _ _ _ _ He a Hnw) as Hva. rewrite Hv in Hva.
  pose proof (fo_block _ _ Hok a Ha') as Hblk.
  destruct (put_is_block (bs_view s a) i r Hblk Hi) as (d' & Hput & Hd').
  destruct (bs_set_run s2 bp a true d' (e_inv _ _ _ _ He) Hh2) as (s3 & Hset & I3 & Hfr3 & Hh3 & Hv3 & Hp3 & Hr3 & Hb3).
  pose proof (e_room _ _ _ _ He). pose proof (e_bufs _ _ _ _ He).
  destruct (bs_log_run s3 bp a _ I3 Hh3 ltac:(lia)) as (s4 & Hlog & I4 & Hfr4 & Hh4 & Hv4 & Hp4 & Hr4 & Hb4).
  destruct (bs_release_run s4 bp a I4 Hh4) as (s5 & Hrel & I5 & Hfr5 & Hf5 & Hv5 & Hp5 & Hr5 & Hb5).
  rewrite Hp4 in Hb5.
  destruct (bs_log_logged s3 bp a _ s4 I3 Hh3 ltac:(lia) Hlog) as (_ & Hmono & _).
  assert (forall bn, bs_logged s2 bn = true -> bs_logged s5 bn = true) as Hl25
    by (intros bn Hl; rewrite (bs_release_logged _ _ _ Hrel); apply Hmono; by rewrite (bs_set_logged _ _ _ _ Hset)).
  assert (forall bn, bn <> a -> bs_view s5 bn = bs_view s2 bn) as Hv25.
  { intros bn Hne. destruct (Hfr3 bn Hne) as [E3 _], (Hfr4 bn Hne) as [E4 _], (Hfr5 bn Hne) as [E5 _]. congruence. }
  assert (bs_view s5 a = d') as Hvd by congruence.
  exists s3, s4, s5. split; [|split; [done|split; [done|]]].
  { unfold store_addr. rewrite (bind_run _ _ (mk_fs s2 ip) (bs_view s a) (mk_fs s2 ip)).
    - rewrite Nat2Z.id, Hput. rewrite (bind_run _ _ (mk_fs s2 ip) d' (mk_fs s2 ip)) by done. by apply on_store_run.
    - apply on_store_run. rewrite <- Hva. apply (bs_data_run s2 bp a true); [apply He|done]. }
  right. split; [done|]. rewrite Hu1 in Hu. split; [done|]. split; [|split; [|split; [|split]]].
  - split; try done.
    + intros bn Hn. rewrite Hv25, (e_view _ _ _ _ He), Hv by tauto. done.
    + intros bn Hn. assert (bn <> a) as Hne by tauto. destruct (Hfr1 bn Hne) as (_ & _ & E1 & _).
      destruct (Hfr3 bn Hne) as (_ & _ & E3 & _), (Hfr4 bn Hne) as (_ & _ & E4 & _), (Hfr5 bn Hne) as (_ & _ & E5 & _).
      rewrite E5, E4, E3, (e_pinned _ _ _ _ He), E1 by tauto. done.
    + intros bn Hbn. destruct (decide (bn = a)) as [->|Hne]; [done|].
      by apply (Hfr5 bn Hne), (Hfr4 bn Hne), (Hfr3 bn Hne), (e_free _ _ _ _ He), (Hfr1 bn Hne).
    + intros bn id c Hh. assert (bn <> a) as Hne by (intros ->; by apply (bs_held_locked s id a c) in Hh).
      apply (Hfr5 bn Hne), (Hfr4 bn Hne), (Hfr3 bn Hne), (e_held _ _ _ _ He), (Hfr1 bn Hne), Hh.
    + lia.
    + destruct (bs_pinned s a); lia.
    + intros bn Hl. apply Hl25, (e_logged _ _ _ _ He). by rewrite (bs_read_logged _ _ _ _ Hrun').
  - split; [by rewrite Hv25|by apply Hl25].
  - split.
    + intros bn Hbn. destruct (decide (bn = a)) as [->|Hne]; [by rewrite Hvd|]. rewrite Hv25 by done. by apply Hok2.
    + intros b Hb. unfold used. rewrite Hv25; [by apply Hok2|].
      destruct (block_of_bit sb L b) as [_ Hbm]; [destruct L; lia|]. intros E. rewrite E in Hbm. tauto.
  - intros j Hj. rewrite Hvd. apply (word_put (bs_view s a)); try done. unfold is_u. destruct L as [? _ _]. lia.
  - intros b Hb. rewrite <- Hu1, <- Hused by done. unfold used. rewrite Hv25; [done|].
    destruct (block_of_bit sb L b Hb) as [_ Hbm]. intros E. rewrite E in Hbm. tauto.
Qed.

Lemma from_block_run s ip a i :
  bs_inv s -> fs_ok sb s -> (forall bn, 0 <= bn < sb_size sb -> bs_free s bn) -> 3 <= bs_room s -> 3 <= bs_bufs s ->
  data_start sb <= a < sb_size sb -> used sb s a = true -> (i < 256)%nat ->
  exists r s', bmap_from_block sb a (Z.of_nat i) (mk_fs s ip) = Ret (r, mk_fs s' ip) /\
    if word (bs_view s a) i =? 0 then entered s a i r s'
    else r = word (bs_view s a) i /\ eff s s' (fun _ => False) 0.
Proof using L.
  intros I Hok Hfree Hroom Hbufs Ha Hua Hi. pose proof (data_start_pos sb L) as Hdp.
  pose proof (Hfree a ltac:(lia)) as Hfa.
  destruct (read_run s a I Hfa ltac:(lia)) as (bp & s1 & Hread & I1 & Hh & Hv & Hf1 & Hheld & Hp1 & Hp & Hr1 & Hb1).
  destruct (read_release_run s s1 bp a I Hfa ltac:(lia) Hread) as (s5 & Hrel & He5).
  unfold bmap_from_block. rewrite (proj2 (Z.eqb_neq a 0)) by lia.
  rewrite (bind_run _ _ _ bp (mk_fs s1 ip)) by (by apply on_store_run).
  destruct (word_get (bs_view s a) i (fo_block _ _ Hok a ltac:(lia)) Hi) as [Hget Hw].
  set (w := word (bs_view s a) i) in *.
  assert (load_addr (in_buf bp) (Z.of_nat i) (mk_fs s1 ip) = Ret (w, mk_fs s1 ip)) as Hload.
  { unfold load_addr. rewrite (bind_run _ _ _ (bs_view s a) (mk_fs s1 ip)).
    - by rewrite Nat2Z.id, Hget.
    - apply on_store_run. rewrite <- Hv. by apply (bs_data_run s1 bp a true). }
  destruct (Z.eqb_spec w 0) as [Ew|Ew].
  2:{ exists w, s5. split; [|done]. rewrite (bind_run _ _ _ (w, false) (mk_fs s1 ip)).
      - simpl. rewrite (bind_run _ _ _ tt (mk_fs s1 ip)) by done.
        rewrite (bind_run _ _ _ tt (mk_fs s5 ip)) by (by apply on_store_run). done.
      - unfold bmap_from_block_range. rewrite (bind_run _ _ _ w (mk_fs s1 ip) Hload).
        by rewrite (proj2 (Z.eqb_neq w 0)). }
  assert (forall b, used sb s1 b = used sb s b) as Hu1 by (intros b; unfold used; by rewrite Hv).
  assert (fs_ok sb s1) as Hok1.
  { split; [intros bn Hbn; rewrite Hv; by apply Hok | intros b Hb; rewrite Hu1; by apply Hok]. }
  destruct (block_alloc_run sb L s1 I1 Hok1) as (r & s2 & Halloc & Hal);
    [| |lia|destruct (bs_pinned s a); lia|].
  { intros bn Hbn. pose proof (bitmap_range sb L bn Hbn). apply Hf1; [|apply Hfree; lia]. unfold is_bitmap in Hbn. lia. }
  { intros bn Hbn Hu. apply Hf1; [|by apply Hfree]. intros ->. rewrite Hu1 in Hu. congruence. }
  destruct (Z.eqb_spec r 0) as [->|Hr0].
  - destruct Hal as [(_ & Hfull & He)|(? & _)]; [|lia].
    destruct (bs_release_run s2 bp a (e_inv _ _ _ _ He) (e_held _ _ _ _ He _ _ _ Hh))
      as (s3 & Hrel3 & I3 & Hfr3 & Hf3 & Hv3 & Hp3 & Hr3 & Hb3).
    exists 0, s3. split.
    { rewrite (bind_run _ _ _ (0, false) (mk_fs s2 ip)).
      - simpl. rewrite (bind_run _ _ _ tt (mk_fs s2 ip)) by done.
        rewrite (bind_run _ _ _ tt (mk_fs s3 ip)) by (by apply on_store_run). done.
      - unfold bmap_from_block_range. rewrite (bind_run _ _ _ w (mk_fs s1 ip) Hload), Ew. simpl.
        rewrite (bind_run _ _ _ 0 (mk_fs s2 ip)) by (by apply on_store_run). done. }
    left. split; [done|]. split; [intros b Hb; rewrite <- Hu1; auto|]. pose proof (e_room _ _ _ _ He).
    pose proof (e_bufs _ _ _ _ He). pose proof (e_pinned _ _ _ _ He a ltac:(by intros [])) as Hpa. split; try done.
    + intros bn _. rewrite <- Hv, <- (e_view _ _ _ _ He bn) by intros [].
      destruct (decide (bn = a)) as [->|Hne]; [done | by apply (Hfr3 bn Hne)].
    + intros bn _. destruct (decide (bn = a)) as [->|Hne]; [congruence|].
      destruct (Hfr3 bn Hne) as (_ & _ & -> & _). rewrite (e_pinned _ _ _ _ He bn) by intros []. by apply Hp1.
    + intros bn Hbn. destruct (decide (bn = a)) as [->|Hne]; [done|]. apply (Hfr3 bn Hne), (e_free _ _ _ _ He). auto.
    + intros bn id c Hc. destruct (Hheld bn id c Hc) as [Hc1 Hne]. apply (Hfr3 bn Hne), (e_held _ _ _ _ He), Hc1.
    + lia.
    + rewrite Hb3, Hpa, Hp. destruct (bs_pinned s a); lia.
    + intros bn Hl. rewrite (bs_release_logged _ _ _ Hrel3). apply (e_logged _ _ _ _ He). by rewrite (bs_read_logged _ _ _ _ Hread).
  - destruct (enter_run s s1 s2 bp a i r ip) as (s3 & s4 & s' & E3 & E4 & E5 & Hent); try done.
    exists r, s'. split; [|done]. rewrite (bind_run _ _ _ (r, true) (mk_fs s3 ip)).
    + simpl. rewrite (bind_run _ _ _ tt (mk_fs s4 ip)) by (by apply on_store_run).
      rewrite (bind_run _ _ _ tt (mk_fs s' ip)) by (by apply on_store_run). done.
    + unfold bmap_from_block_range. rewrite (bind_run _ _ _ w (mk_fs s1 ip) Hload), Ew. simpl.
      rewrite (bind_run _ _ _ r (mk_fs s2 ip)) by (by apply on_store_run).
      rewrite (proj2 (Z.eqb_neq r 0)) by done. simpl. by rewrite (bind_run _ _ _ tt (mk_fs s3 ip) E3).
Qed.
End FromBlock.

(** ** The tree of an inode

    A place in the tree is an entry of the inode and a path of entries in indirect
    blocks below it. *)

Section Tree.
Context {St : Type} `{!BlockStore St} (sb : vimixfs_superblock) (L : layout sb).

Definition child (s : St) (a : Z) (i : nat) : Z := if a =? 0 then 0 else word (bs_view s a) i.

Definition addr_at (s : St) (ip : vimixfs_inode) (p : nat * list nat) : Z :=
  foldl (child s) (default 0 (addrs ip !! fst p)) (snd p).

(** How many levels of indirect blocks are below an entry of the inode. *)
Definition levels (i : nat) : nat := if decide (i < 20)%nat then 0 else if decide (i = 20)%nat then 1 else 2.

Definition valid (p : nat * list nat) : Prop :=
  (fst p < 22)%nat /\ (length (snd p) <= levels (fst p))%nat /\ Forall (fun i => (i < 256)%nat) (snd p).

(** Every block of the tree is a data block that is marked as used, and has one
    place only. *)
Record tree_ok (s : St) (ip : vimixfs_inode) : Prop := {
  t_len : length (addrs ip) = 22%nat;
  t_range p : valid p -> addr_at s ip p <> 0 ->
    data_start sb <= addr_at s ip p < sb_size sb /\ used sb s (addr_at s ip p) = true;
  t_inj p q : valid p -> valid q -> addr_at s ip p = addr_at s ip q -> addr_at s ip p <> 0 -> p = q
}.

Lemma addr_at_snoc s ip i l x : addr_at s ip (i, l ++ [x]) = child s (addr_at s ip (i, l)) x.
Proof using. unfold addr_at. simpl. by rewrite foldl_app. Qed.

Lemma valid_snoc i l x : valid (i, l ++ [x]) -> valid (i, l) /\ (x < 256)%nat.
Proof using.
  unfold valid. simpl. rewrite length_app, Forall_app, Forall_singleton. simpl. intros (? & ? & ? & ?).
  split_and!; try done; lia.
Qed.

(** The tree after the address [r] of a new block was entered at place [p0]. *)
Lemma addr_at_store s ip s' ip' p0 r :
  addr_at s ip p0 = 0 -> r <> 0 -> valid p0 ->
  (forall l x, snd p0 = l ++ [x] -> addr_at s ip (fst p0, l) <> 0) ->
  (forall i, (i < 22)%nat ->
     default 0 (addrs ip' !! i) = if decide ((i, []) = p0) then r else default 0 (addrs ip !! i)) ->
  (forall i l x, valid (i, l ++ [x]) -> addr_at s ip (i, l) <> 0 ->
     word (bs_view s' (addr_at s ip (i, l))) x =
     if decide ((i, l ++ [x]) = p0) then r else word (bs_view s (addr_at s ip (i, l))) x) ->
  bs_view s' r = zero_block ->
  forall p, valid p -> addr_at s' ip' p = if decide (p = p0) then r else addr_at s ip p.
Proof using.
  intros H0 Hr Hp0 Hparent Hroot Hword Hz [i l]. induction l as [|x l IH] using rev_ind; intros Hp.
  { unfold addr_at. simpl. apply Hroot. apply Hp. }
  destruct (valid_snoc i l x Hp) as [Hpl Hx]. rewrite !addr_at_snoc, (IH Hpl). unfold child.
  destruct (decide ((i, l) = p0)) as [E|E].
  - rewrite (proj2 (Z.eqb_neq r 0)), Hz, word_zero by done.
    rewrite decide_False; [by rewrite E, H0|]. rewrite <- E. intros [= E']. apply (f_equal length) in E'.
    rewrite length_app in E'. simpl in E'. lia.
  - destruct (Z.eqb_spec (addr_at s ip (i, l)) 0) as [Ea|Ea]; [|by apply Hword].
    rewrite decide_False; [done|]. intros <-. by apply (Hparent l x).
Qed.

Lemma fresh_not_in_tree s ip r p :
  tree_ok s ip -> used sb s r = false -> valid p -> addr_at s ip p <> 0 -> addr_at s ip p <> r.
Proof using. intros T Hu Hp Hn <-. destruct (t_range s ip T p Hp Hn). congruence. Qed.

Lemma tree_ok_store s ip s' ip' p0 r :
  tree_ok s ip -> length (addrs ip') = 22%nat -> data_start sb <= r < sb_size sb -> used sb s r = false ->
  (forall p, valid p -> addr_at s' ip' p = if decide (p = p0) then r else addr_at s ip p) ->
  (forall b, 0 <= b < sb_size sb -> used sb s' b = if decide (b = r) then true else used sb s b) ->
  tree_ok s' ip'.
Proof using L.
  intros T Hlen Hr Hu Haddr Hused. pose proof (data_start_pos sb L) as Hdp. split; [done|..].
  - intros p Hp. rewrite Haddr by done. intros Hn. case_decide.
    + split; [done|]. rewrite Hused by lia. by rewrite decide_True.
    + destruct (t_range s ip T p Hp Hn) as [? Hup]. split; [done|]. rewrite Hused by lia. by case_decide.
  - intros p q Hp Hq. rewrite !Haddr by done. case_decide as E1; case_decide as E2; subst; try done.
    + intros Er _. symmetry in Er. exfalso. apply (fresh_not_in_tree s ip r q T Hu Hq); [lia|done].
    + intros Er _. exfalso. apply (fresh_not_in_tree s ip r p T Hu Hp); [lia|done].
    + by apply (t_inj s ip T).
Qed.

(** An index block: a block of the tree that holds addresses. *)
Definition is_index (s : St) (ip : vimixfs_inode) (bn : Z) : Prop :=
  exists i l, valid (i, l) /\ (length l < levels i)%nat /\ addr_at s ip (i, l) = bn.

(** The state between the operations: the invariants hold and nothing is locked. *)
Record quiet (s : St) (ip : vimixfs_inode) : Prop := {
  q_inv : bs_inv s;
  q_ok : fs_ok sb s;
  q_tree : tree_ok s ip;
  q_free bn : 0 <= bn < sb_size sb -> bs_free s bn
}.

(** From [s] to [s'] the tree grew at most by a block at place [p]; nothing was
    logged but the bitmap, the new block and, for a new block, the block that holds
    its address. *)
Record grown (s : St) (ip : vimixfs_inode) (s' : St) (ip' : vimixfs_inode) (p : nat * list nat) (k : Z) : Prop := {
  g_quiet : quiet s' ip';
  g_meta : ip' = set_addrs (addrs ip') ip;
  g_other q : valid q -> q <> p -> addr_at s' ip' q = addr_at s ip q;
  g_old : addr_at s ip p <> 0 -> ip' = ip /\ forall bn, bs_view s' bn = bs_view s bn;
  g_new : addr_at s ip p = 0 ->
    (addr_at s' ip' p = 0 /\ (forall b, 0 <= b < sb_size sb -> used sb s b = true) /\ bs_room s <= bs_room s') \/
    (addr_at s' ip' p <> 0 /\ used sb s (addr_at s' ip' p) = false /\ bs_view s' (addr_at s' ip' p) = zero_block /\
     bs_logged s' (addr_at s' ip' p) = true);
  g_used b : 0 <= b < sb_size sb -> used sb s b = true -> used sb s' b = true;
  g_view bn : 0 <= bn < sb_size sb -> used sb s bn = true -> ~ is_bitmap sb bn -> ~ is_index s ip bn ->
    bs_view s' bn = bs_view s bn;
  g_room : bs_room s - k <= bs_room s';
  g_bufs : bs_bufs s - k <= bs_bufs s'
}.

Lemma addr_at_ext s s' ip p : (forall bn, bs_view s' bn = bs_view s bn) -> addr_at s' ip p = addr_at s ip p.
Proof using.
  intros Hv. unfold addr_at. destruct p as [i l]. simpl. induction l as [|x l IH] using rev_ind; [done|].
  rewrite !foldl_app. simpl. rewrite IH. unfold child. by rewrite Hv.
Qed.

Lemma set_addrs_id ip : set_addrs (addrs ip) ip = ip.
Proof using. by destruct ip. Qed.

Lemma grown_same s ip s' p :
  quiet s ip -> eff s s' (fun _ => False) 0 ->
  (addr_at s ip p = 0 -> forall b, 0 <= b < sb_size sb -> used sb s b = true) -> grown s ip s' ip p 0.
Proof using.
  intros [I Hok T Hf] He Hfull.
  assert (forall bn, bs_view s' bn = bs_view s bn) as Hv by (intros bn; apply (e_view _ _ _ _ He); intros []).
  assert (forall q, addr_at s' ip q = addr_at s ip q) as Ha by (intros q; by apply addr_at_ext).
  assert (forall b, used sb s' b = used sb s b) as Hu by (intros b; unfold used; by rewrite Hv).
  split; auto.
  - split; [apply He | by apply (fs_ok_same sb s) | | by intros bn Hbn; apply (e_free _ _ _ _ He), Hf].
    destruct T as [T1 T2 T3]. split; [done| |].
    + intros q Hq. rewrite Ha, Hu. auto.
    + intros q q' Hq Hq'. rewrite !Ha. auto.
  - by rewrite set_addrs_id.
  - intros Hp. left. rewrite Ha. pose proof (e_room _ _ _ _ He). split; [done|]. split; [auto|lia].
  - intros b Hb. by rewrite Hu.
  - apply He.
  - apply He.
Qed.

(** A new block was entered at place [p]. *)
Lemma grown_new s ip s' ip' p r W k :
  quiet s ip -> valid p -> addr_at s ip p = 0 -> data_start sb <= r < sb_size sb -> used sb s r = false ->
  eff s s' W k -> fs_ok sb s' -> bs_view s' r = zero_block /\ bs_logged s' r = true ->
  (forall b, 0 <= b < sb_size sb -> used sb s' b = if decide (b = r) then true else used sb s b) ->
  (forall q, valid q -> addr_at s' ip' q = if decide (q = p) then r else addr_at s ip q) ->
  length (addrs ip') = 22%nat -> ip' = set_addrs (addrs ip') ip ->
  (forall bn, W bn -> is_bitmap sb bn \/ bn = r \/ is_index s ip bn) -> grown s ip s' ip' p k.
Proof using L.
  intros [I Hok T Hf] Hp H0 Hr Hu He Hok' [Hz Hlz] Hused Haddr Hlen Hmeta HW. pose proof (data_start_pos sb L) as Hdp.
  assert (addr_at s' ip' p = r) as Ep by (rewrite Haddr by done; by rewrite decide_True).
  split; try done.
  - split; [apply He | done | by eapply (tree_ok_store s ip s' ip' p r) |].
    intros bn Hbn. by apply (e_free _ _ _ _ He), Hf.
  - intros q Hq Hne. rewrite Haddr by done. by rewrite decide_False.
  - intros _. right. rewrite Ep. split; [lia|done].
  - intros b Hb Hub. rewrite Hused by done. by case_decide.
  - intros bn Hbn Hub Hnb Hni. apply (e_view _ _ _ _ He). intros Hw. destruct (HW bn Hw) as [|[->|]]; [done|congruence|done].
  - apply He.
  - apply He.
Qed.

(** A free entry of the inode. *)
Lemma inode_alloc_run s ip i :
  quiet s ip -> (i < 22)%nat -> addrs ip !! i = Some 0 -> 2 <= bs_room s -> 2 <= bs_bufs s ->
  exists r s', block_alloc_init sb s = Ret (r, s') /\
    grown s ip s' (set_addrs (<[i := r]> (addrs ip)) ip) (i, []) 2 /\
    (r = 0 -> set_addrs (<[i := r]> (addrs ip)) ip = ip) /\
    addr_at s' (set_addrs (<[i := r]> (addrs ip)) ip) (i, []) = r.
Proof using L.
  intros Q Hi H0 Hroom Hbufs. pose proof Q as [I Hok T Hf].
  destruct (block_alloc_run sb L s I Hok) as (r & s' & Hrun & Hal); [| |done|done|].
  { intros bn Hbn. apply Hf. pose proof (bitmap_range sb L bn Hbn). lia. }
  { intros bn Hbn _. by apply Hf. }
  exists r, s'. split; [done|]. set (ip' := set_addrs _ ip).
  assert (length (addrs ip) = 22%nat) as Hlen by apply T.
  assert (valid (i, [])) as Hval by (unfold valid; simpl; split_and!; [done|lia|done]).
  assert (addr_at s ip (i, []) = 0) as Ha0 by (unfold addr_at; simpl; by rewrite H0).
  split; [|split].
  2:{ intros ->. unfold ip'. rewrite list_insert_id by done. apply set_addrs_id. }
  2:{ unfold addr_at. simpl. by rewrite list_lookup_insert_eq by lia. }
  destruct Hal as [(-> & Hfull & He)|(Hr & Hu & _ & He & [Hz Hlz] & Hok' & Hused)].
  { unfold ip'. rewrite list_insert_id, set_addrs_id by done.
    assert (grown s ip s' ip (i, []) 0) as [] by (by apply grown_same). split; try done; lia. }
  eapply (grown_new s ip s' ip' (i, []) r); try done.
  - pose proof (data_start_pos sb L) as Hdp. apply addr_at_store; try done; [lia|by intros [] | |].
    + intros j Hj. simpl. destruct (decide (i = j)) as [->|Hne].
      * rewrite list_lookup_insert_eq by lia. by rewrite decide_True.
      * rewrite list_lookup_insert_ne by done. rewrite decide_False by congruence. done.
    + intros j l x Hv Hn. rewrite decide_False; [|intros [= _ E]; by destruct l].
      destruct (valid_snoc j l x Hv) as [Hv' _]. destruct (t_range s ip T (j, l) Hv' Hn) as [Hrange Hux].
      rewrite (e_view _ _ _ _ He); [done|]. unfold is_bitmap. intros [?|E]; [lia|rewrite E in Hux; congruence].
  - simpl. by rewrite length_insert.
  - intros bn [?| ->]; auto.
Qed.

Lemma inode_entry s ip i :
  tree_ok s ip -> (i < 22)%nat -> addrs ip !! i = Some (addr_at s ip (i, [])).
Proof using.
  intros T Hi. destruct (lookup_lt_is_Some_2 (addrs ip) i) as [x Hx]; [rewrite (t_len s ip T); lia|].
  unfold addr_at. simpl. by rewrite Hx.
Qed.

(** Allocation at an entry of the inode that is free. *)
Lemma inode_slot_run s ip i :
  quiet s ip -> (i < 22)%nat -> 2 <= bs_room s -> 2 <= bs_bufs s ->
  exists s' ip', grown s ip s' ip' (i, []) 2 /\
    (if addr_at s ip (i, []) =? 0
     then block_alloc_init sb s = Ret (addr_at s' ip' (i, []), s') /\
       ip' = set_addrs (<[i := addr_at s' ip' (i, [])]> (addrs ip)) ip /\
       (addr_at s' ip' (i, []) = 0 -> ip' = ip)
     else s' = s /\ ip' = ip).
Proof using L.
  intros Q Hi Hroom Hbufs. pose proof (inode_entry s ip i (q_tree _ _ Q) Hi) as He.
  destruct (Z.eqb_spec (addr_at s ip (i, [])) 0) as [E|E].
  - rewrite E in He. destruct (inode_alloc_run s ip i Q Hi He Hroom Hbufs) as (r & s' & Hrun & Hg & Hz & Ha).
    exists s', (set_addrs (<[i := r]> (addrs ip)) ip). rewrite Ha. by split_and!.
  - exists s, ip. split; [|done].
    assert (grown s ip s ip (i, []) 0) as [] by (apply grown_same; [done|apply eff_refl, Q|done]). split; try done; lia.
Qed.

Lemma load_inode_run s ip i :
  tree_ok s ip -> (i < 22)%nat ->
  load_addr in_inode (Z.of_nat i) (mk_fs s ip) = Ret (addr_at s ip (i, []), mk_fs s ip).
Proof using.
  intros T Hi. unfold load_addr, mbind, ST_bind, get. simpl. rewrite Nat2Z.id, (inode_entry s ip i T Hi). done.
Qed.

Lemma store_inode_run s ip i v :
  tree_ok s ip -> (i < 22)%nat ->
  forall s', store_addr in_inode (Z.of_nat i) v (mk_fs s' ip) = Ret (tt, mk_fs s' (set_addrs (<[i := v]> (addrs ip)) ip)).
Proof using.
  intros T Hi s'. unfold store_addr, mbind, ST_bind, get. simpl. rewrite Nat2Z.id.
  rewrite decide_True by (rewrite (t_len s ip T); lia). done.
Qed.

Lemma range_inode_run s ip i :
  quiet s ip -> (i < 22)%nat -> 2 <= bs_room s -> 2 <= bs_bufs s ->
  exists s' ip' did, bmap_from_block_range sb in_inode (Z.of_nat i) (mk_fs s ip) =
      Ret ((addr_at s' ip' (i, []), did), mk_fs s' ip') /\ grown s ip s' ip' (i, []) 2.
Proof using L.
  intros Q Hi Hroom Hbufs. pose proof (q_tree _ _ Q) as T.
  destruct (inode_slot_run s ip i Q Hi Hroom Hbufs) as (s' & ip' & Hg & Hcase). exists s', ip'.
  unfold bmap_from_block_range. rewrite (bind_run _ _ _ _ _ (load_inode_run s ip i T Hi)).
  destruct (Z.eqb_spec (addr_at s ip (i, [])) 0) as [E|E].
  - destruct Hcase as (Hrun & Hip & Hz). set (a := addr_at s' ip' (i, [])) in *.
    rewrite (bind_run _ _ _ a (mk_fs s' ip)) by (by apply on_store_run).
    destruct (Z.eqb_spec a 0) as [Ea|Ea]; simpl.
    + exists false. split; [|done]. pose proof (Hz Ea) as Eip. unfold mret, ST_ret. by rewrite Eip.
    + exists true. split; [|done]. rewrite (bind_run _ _ _ _ _ (store_inode_run s ip i a T Hi s')). by rewrite <- Hip.
  - destruct Hcase as [-> ->]. by exists false.
Qed.

Lemma need_block_run s ip i :
  quiet s ip -> (i < 22)%nat -> 2 <= bs_room s -> 2 <= bs_bufs s ->
  exists s' ip', need_block sb (Z.of_nat i) (mk_fs s ip) = Ret (addr_at s' ip' (i, []), mk_fs s' ip') /\
    grown s ip s' ip' (i, []) 2.
Proof using L.
  intros Q Hi Hroom Hbufs. pose proof (q_tree _ _ Q) as T.
  destruct (inode_slot_run s ip i Q Hi Hroom Hbufs) as (s' & ip' & Hg & Hcase). exists s', ip'. split; [|done].
  unfold need_block. rewrite (bind_run _ _ _ _ _ (load_inode_run s ip i T Hi)).
  rewrite (bind_run _ _ _ tt (mk_fs s' ip')).
  { apply load_inode_run; [apply Hg|done]. }
  destruct (Z.eqb_spec (addr_at s ip (i, [])) 0) as [E|E].
  - destruct Hcase as (Hrun & Hip & _). set (a := addr_at s' ip' (i, [])) in *.
    rewrite (bind_run _ _ _ a (mk_fs s' ip)) by (by apply on_store_run).
    rewrite (store_inode_run s ip i a T Hi s'). by rewrite <- Hip.
  - by destruct Hcase as [-> ->].
Qed.

(** Allocation at an entry of an indirect block of the tree. *)
Lemma block_slot_run s ip i l x :
  quiet s ip -> valid (i, l ++ [x]) -> addr_at s ip (i, l) <> 0 -> 3 <= bs_room s -> 3 <= bs_bufs s ->
  exists s', bmap_from_block sb (addr_at s ip (i, l)) (Z.of_nat x) (mk_fs s ip) =
      Ret (addr_at s' ip (i, l ++ [x]), mk_fs s' ip) /\ grown s ip s' ip (i, l ++ [x]) 3.
Proof using L.
  intros Q Hval Hn Hroom Hbufs. pose proof Q as [I Hok T Hf]. destruct (valid_snoc i l x Hval) as [Hval' Hx].
  destruct (t_range s ip T (i, l) Hval' Hn) as [Hrange Hu]. set (a := addr_at s ip (i, l)) in *.
  destruct (from_block_run sb L s ip a x I Hok Hf Hroom Hbufs Hrange Hu Hx) as (r & s' & Hrun & Hpost).
  exists s'. rewrite Hrun.
  assert (addr_at s ip (i, l ++ [x]) = word (bs_view s a) x) as Ew.
  { rewrite addr_at_snoc. fold a. unfold child. by rewrite (proj2 (Z.eqb_neq a 0)). }
  rewrite <- Ew in Hpost.
  assert (forall k, grown s ip s' ip (i, l ++ [x]) k -> k <= 3 -> grown s ip s' ip (i, l ++ [x]) 3) as Hmono.
  { intros k [] Hk. split; try done; lia. }
  destruct (Z.eqb_spec (addr_at s ip (i, l ++ [x])) 0) as [E|E].
  - destruct Hpost as [(-> & Hfull & He)|(Hr & Hur & He & [Hz Hlz] & Hok' & Hw & Hused)].
    + split; [|apply (Hmono 0); [by apply grown_same|lia]]. rewrite (addr_at_ext s s'); [by rewrite E|].
      intros bn. apply (e_view _ _ _ _ He). intros [].
    + pose proof (data_start_pos sb L) as Hdp.
      assert (forall p, valid p -> addr_at s' ip p = if decide (p = (i, l ++ [x])) then r else addr_at s ip p) as Haddr.
      { apply addr_at_store; try done; [lia| | |].
        - intros l' x' E'. simpl in E'. apply app_inj_tail in E' as [-> ->]. done.
        - intros j Hj. rewrite decide_False; [done|]. intros [= _ E']. by destruct l.
        - intros j l' x' Hv Hn'. destruct (valid_snoc j l' x' Hv) as [Hv' Hx'].
          destruct (decide (addr_at s ip (j, l') = a)) as [Ea|Ea].
          + rewrite Ea, Hw by done. assert ((j, l') = (i, l)) as [= -> ->] by (by apply (t_inj s ip T)).
            destruct (decide (x' = x)) as [->|Hxx]; [by rewrite decide_True|]. rewrite decide_False; [done|].
            intros [= E']. apply app_inj_tail in E' as [_ ?]. done.
          + rewrite decide_False.
            * destruct (t_range s ip T (j, l') Hv' Hn') as [Hr' Hu'].
              rewrite (e_view _ _ _ _ He); [done|]. unfold is_bitmap. intros [?|[E'|?]]; [lia| |done].
              rewrite E' in Hu'. congruence.
            * intros [= -> E']. apply app_inj_tail in E' as [-> _]. done. }
      split; [rewrite Haddr by done; by rewrite decide_True|].
      eapply (grown_new s ip s' ip _ r); try done; [apply T|by rewrite set_addrs_id|].
      intros bn [?|[?| ->]]; auto. right. right. exists i, l. split; [done|]. split; [|done].
      destruct Hval as (_ & Hlen & _). simpl in Hlen. rewrite length_app in Hlen. simpl in Hlen. lia.
  - destruct Hpost as [-> He]. split.
    + rewrite (addr_at_ext s s'); [done|]. intros bn. apply (e_view _ _ _ _ He). intros [].
    + apply (Hmono 0); [by apply grown_same|lia].
Qed.

(** An index block of the grown tree was one before, or is new. *)
Lemma grown_index s ip s' ip' p k bn :
  grown s ip s' ip' p k -> used sb s bn = true -> bn <> 0 -> is_index s' ip' bn -> is_index s ip bn.
Proof using.
  intros G Hu H0 (i & l & Hv & Hl & E). exists i, l. split; [done|]. split; [done|].
  destruct (decide ((i, l) = p)) as [<-|Hne]; [|by rewrite <- (g_other _ _ _ _ _ _ G)].
  destruct (decide (addr_at s ip (i, l) = 0)) as [Ez|Ez].
  - destruct (g_new _ _ _ _ _ _ G Ez) as [[? _]|(_ & Hf & _)]; congruence.
  - destruct (g_old _ _ _ _ _ _ G Ez) as [-> Hview]. by rewrite <- (addr_at_ext s s').
Qed.

(** Several steps of growth, at the places [P]. *)
Record evolved (s : St) (ip : vimixfs_inode) (s' : St) (ip' : vimixfs_inode) (P : list (nat * list nat)) (k : Z) : Prop := {
  v_quiet : quiet s' ip';
  v_meta : ip' = set_addrs (addrs ip') ip;
  v_other q : valid q -> q ∉ P -> addr_at s' ip' q = addr_at s ip q;
  v_same : (forall q, q ∈ P -> addr_at s ip q <> 0) -> ip' = ip /\ forall bn, bs_view s' bn = bs_view s bn;
  v_used b : 0 <= b < sb_size sb -> used sb s b = true -> used sb s' b = true;
  v_view bn : 0 <= bn < sb_size sb -> used sb s bn = true -> ~ is_bitmap sb bn -> ~ is_index s ip bn ->
    bs_view s' bn = bs_view s bn;
  v_index bn : 0 < bn < sb_size sb -> used sb s bn = true -> is_index s' ip' bn -> is_index s ip bn;
  v_room : bs_room s - k <= bs_room s';
  v_bufs : bs_bufs s - k <= bs_bufs s'
}.

Lemma evolved_grown s ip s' ip' p k : grown s ip s' ip' p k -> evolved s ip s' ip' [p] k.
Proof using.
  intros G. pose proof G as []. split; auto.
  - intros q Hq Hne. apply g_other0; [done|]. intros ->. apply Hne. by apply list_elem_of_singleton.
  - intros H. apply g_old0, H. by apply list_elem_of_singleton.
  - intros bn Hbn Hu. apply (grown_index s ip s' ip' p k); [done|done|lia].
Qed.

Lemma evolved_step s ip s1 ip1 s2 ip2 p P k k' :
  grown s ip s1 ip1 p k -> evolved s1 ip1 s2 ip2 P k' -> (forall q, q ∈ P -> valid q) -> 
  evolved s ip s2 ip2 (p :: P) (k + k').
Proof using L.
  intros G V HP. pose proof (data_start_pos sb L) as Hdp. pose proof V as []. split; try done.
  - rewrite v_meta0, (g_meta _ _ _ _ _ _ G). by destruct ip.
  - intros q Hq Hn. apply not_elem_of_cons in Hn as [Hne Hn]. rewrite v_other0 by done. by apply G.
  - intros H. destruct (g_old _ _ _ _ _ _ G (H p ltac:(by left))) as [-> Hv].
    destruct v_same0 as [-> Hv2]; [|split; [done|]; intros; by rewrite Hv2, Hv].
    intros q Hq. rewrite (addr_at_ext s s1) by done. apply H. by right.
  - intros b Hb Hu. apply v_used0; [done|]. by apply (g_used _ _ _ _ _ _ G).
  - intros bn Hbn Hu Hnb Hni. destruct (decide (bn = 0)) as [->|Hb0].
    + rewrite v_view0, (g_view _ _ _ _ _ _ G); try done; [by apply (g_used _ _ _ _ _ _ G)|].
      intros (i & l & Hv & Hl & E). apply Hni. exists i, l. split; [done|]. split; [done|].
      destruct (decide ((i, l) = p)) as [<-|Hne]; [|by rewrite <- (g_other _ _ _ _ _ _ G)].
      destruct (decide (addr_at s ip (i, l) = 0)) as [Ez|Ez]; [done|].
      destruct (g_old _ _ _ _ _ _ G Ez) as [-> Hview]. by rewrite <- (addr_at_ext s s1).
    + rewrite v_view0, (g_view _ _ _ _ _ _ G); try done; [by apply (g_used _ _ _ _ _ _ G)|].
      intros Hi. by apply Hni, (grown_index s ip s1 ip1 p k).
  - intros bn Hbn Hu Hi. apply (grown_index s ip s1 ip1 p k); [done|done|lia|].
    apply v_index0; [done| |done]. apply (g_used _ _ _ _ _ _ G); [lia|done].
  - pose proof (g_room _ _ _ _ _ _ G). lia.
  - pose proof (g_bufs _ _ _ _ _ _ G). lia.
Qed.

(** *** Blocks of a file *)

Definition file_place (n : Z) : nat * list nat :=
  if n <? 20 then (Z.to_nat n, [])
  else if n <? 276 then (20%nat, [Z.to_nat (n - 20)])
  else (21%nat, [Z.to_nat ((n - 276) / 256); Z.to_nat ((n - 276) mod 256)]).

(** The address of block [n] of the file, 0 if it has none. *)
Definition file_block (s : St) (ip : vimixfs_inode) (n : Z) : Z := addr_at s ip (file_place n).

Lemma file_place_valid n : 0 <= n < VIMIXFS_MAX_FILE_SIZE_BLOCKS -> valid (file_place n).
Proof using.
  change VIMIXFS_MAX_FILE_SIZE_BLOCKS with 65812. intros Hn. unfold file_place, valid.
  destruct (Z.ltb_spec n 20); [|destruct (Z.ltb_spec n 276)]; simpl.
  - split_and!; [lia|lia|done].
  - split; [lia|]. split; [done|]. apply Forall_singleton. lia.
  - pose proof (Z.mod_pos_bound (n - 276) 256 ltac:(lia)). pose proof (Z.div_pos (n - 276) 256 ltac:(lia) ltac:(lia)).
    pose proof (Z.div_lt_upper_bound (n - 276) 256 256 ltac:(lia) ltac:(lia)). split; [lia|]. split; [done|].
    apply Forall_cons. split; [lia|]. apply Forall_singleton. lia.
Qed.

Lemma file_place_inj n m : 0 <= n -> 0 <= m -> file_place n = file_place m -> n = m.
Proof using.
  intros Hn Hm. unfold file_place.
  pose proof (Z.div_mod (n - 276) 256). pose proof (Z.div_mod (m - 276) 256).
  pose proof (Z.mod_pos_bound (n - 276) 256). pose proof (Z.mod_pos_bound (m - 276) 256).
  destruct (Z.ltb_spec n 20), (Z.ltb_spec m 20); try destruct (Z.ltb_spec n 276); try destruct (Z.ltb_spec m 276);
    intros [= E]; lia.
Qed.

(** The outcome of [bmap_get_block_address] for block [n]. *)
Record mapped (s : St) (ip : vimixfs_inode) (n a : Z) (s' : St) (ip' : vimixfs_inode) : Prop := {
  m_quiet : quiet s' ip';
  m_meta : ip' = set_addrs (addrs ip') ip;
  m_addr : file_block s' ip' n = a;
  m_other m : 0 <= m < VIMIXFS_MAX_FILE_SIZE_BLOCKS -> m <> n -> file_block s' ip' m = file_block s ip m;
  m_new : file_block s ip n = 0 ->
    (a = 0 /\ (forall b, 0 <= b < sb_size sb -> used sb s' b = true) /\ bs_room s - 5 <= bs_room s') \/
    (a <> 0 /\ used sb s a = false /\ bs_view s' a = zero_block /\ bs_logged s' a = true);
  m_old : file_block s ip n <> 0 -> ip' = ip /\ forall bn, bs_view s' bn = bs_view s bn;
  m_view bn : 0 <= bn < sb_size sb -> used sb s bn = true -> ~ is_bitmap sb bn -> ~ is_index s ip bn ->
    bs_view s' bn = bs_view s bn;
  m_index bn : 0 < bn < sb_size sb -> used sb s bn = true -> is_index s' ip' bn -> is_index s ip bn;
  m_used b : 0 <= b < sb_size sb -> used sb s b = true -> used sb s' b = true;
  m_room : bs_room s - 8 <= bs_room s';
  m_bufs : bs_bufs s - 8 <= bs_bufs s'
}.

Lemma grown_mono s ip s' ip' p k k' : grown s ip s' ip' p k -> k <= k' -> grown s ip s' ip' p k'.
Proof using. intros [] Hk. split; try done; lia. Qed.

Lemma evolved_refl s ip : quiet s ip -> evolved s ip s ip [] 0.
Proof using. intros Q. split; try done; [by rewrite set_addrs_id | lia..]. Qed.

(** What the steps of growth at the places [P] and then at the place of block [n]
    say about the blocks of the file. *)
Lemma mapped_of s ip s1 ip1 s' ip' n P k :
  0 <= n < VIMIXFS_MAX_FILE_SIZE_BLOCKS -> evolved s ip s1 ip1 P k -> grown s1 ip1 s' ip' (file_place n) 3 ->
  evolved s ip s' ip' (P ++ [file_place n]) (k + 3) -> k <= 5 ->
  (forall q m, q ∈ P -> file_place m <> q) -> (forall q, q ∈ P -> addr_at s ip q = 0 -> file_block s ip n = 0) ->
  mapped s ip n (file_block s' ip' n) s' ip'.
Proof using L.
  intros Hn V1 G V Hk HP Hparent. pose proof (data_start_pos sb L) as Hdp.
  assert (file_block s1 ip1 n = file_block s ip n) as E1.
  { apply (v_other _ _ _ _ _ _ V1); [by apply file_place_valid|]. intros Hin. by apply (HP _ n Hin). }
  pose proof V as []. split; try done.
  - intros m Hm Hne. apply v_other0; [by apply file_place_valid|]. rewrite elem_of_app, list_elem_of_singleton.
    intros [Hin|E]; [by apply (HP _ m Hin)|]. apply file_place_inj in E; lia.
  - intros E0. rewrite <- E1 in E0. destruct (g_new _ _ _ _ _ _ G E0) as [(Ez & Hfull & Hr0)|(Hnz & Hfresh & Hz)].
    + left. split; [done|]. pose proof (v_room _ _ _ _ _ _ V1). split; [|lia]. intros b Hb. apply (g_used _ _ _ _ _ _ G); auto.
    + right. split; [done|]. split; [|done]. unfold file_block. destruct (used sb s (addr_at s' ip' (file_place n))) eqn:Eu; [|done].
      exfalso. rewrite (v_used _ _ _ _ _ _ V1) in Hfresh; [done| |done].
      destruct (t_range s' ip' (q_tree _ _ v_quiet0) (file_place n)) as [? _]; [by apply file_place_valid|done|]. lia.
  - intros E0. apply v_same0. intros q. rewrite elem_of_app, list_elem_of_singleton. intros [Hin| ->]; [|done].
    intros Eq. by apply E0, (Hparent q).
  - lia.
  - lia.
Qed.

Definition full (s : St) : Prop := forall b, 0 <= b < sb_size sb -> used sb s b = true.

Lemma grown_full s ip s1 ip1 p k : grown s ip s1 ip1 p k -> addr_at s1 ip1 p = 0 -> full s1.
Proof using.
  intros G E b Hb. apply (g_used _ _ _ _ _ _ G); [done|]. destruct (decide (addr_at s ip p = 0)) as [Ez|Ez].
  - destruct (g_new _ _ _ _ _ _ G Ez) as [(_ & Hf & _)|[? _]]; [auto|done].
  - destruct (g_old _ _ _ _ _ _ G Ez) as [-> Hv]. by rewrite (addr_at_ext s s1) in E.
Qed.

(** Allocation below a block of the tree that may not exist. *)
Lemma below_run s ip i l x :
  quiet s ip -> valid (i, l ++ [x]) -> (addr_at s ip (i, l) = 0 -> full s) -> 3 <= bs_room s -> 3 <= bs_bufs s ->
  exists s', bmap_from_block sb (addr_at s ip (i, l)) (Z.of_nat x) (mk_fs s ip) =
      Ret (addr_at s' ip (i, l ++ [x]), mk_fs s' ip) /\ grown s ip s' ip (i, l ++ [x]) 3.
Proof using L.
  intros Q Hv Hfull Hroom Hbufs. destruct (Z.eqb_spec (addr_at s ip (i, l)) 0) as [E|E]; [|by apply block_slot_run].
  exists s. rewrite addr_at_snoc. unfold bmap_from_block, child. rewrite E. simpl. split; [done|].
  apply (grown_mono _ _ _ _ _ 0); [|lia]. apply grown_same; [done|apply eff_refl, Q|]. intros _. by apply Hfull.
Qed.

Lemma bmap_run s ip n :
  quiet s ip -> 0 <= n < VIMIXFS_MAX_FILE_SIZE_BLOCKS -> 8 <= bs_room s -> 8 <= bs_bufs s ->
  exists a s' ip', bmap_get_block_address sb n (mk_fs s ip) = Ret (a, mk_fs s' ip') /\ mapped s ip n a s' ip'.
Proof using L.
  intros Q Hn Hroom Hbufs. pose proof (file_place_valid n Hn) as Hv. unfold bmap_get_block_address.
  change VIMIXFS_N_DIRECT_BLOCKS with 20. change VIMIXFS_N_INDIRECT_BLOCKS with 256.
  change VIMIXFS_INDIRECT_BLOCK_IDX with (Z.of_nat 20). change VIMIXFS_DOUBLE_INDIRECT_BLOCK_IDX with (Z.of_nat 21).
  change VIMIXFS_MAX_FILE_SIZE_BLOCKS with 65812 in Hn. change (256 * 256) with 65536.
  assert (file_place n = if n <? 20 then (Z.to_nat n, []) else if n <? 276 then (20%nat, [Z.to_nat (n - 20)])
    else (21%nat, [Z.to_nat ((n - 276) / 256); Z.to_nat ((n - 276) mod 256)])) as Ep by done.
  destruct (Z.ltb_spec n 20) as [H1|H1]; [|destruct (Z.ltb_spec (n - 20) 256) as [H2|H2]].
  - destruct (range_inode_run s ip (Z.to_nat n) Q ltac:(lia) ltac:(lia) ltac:(lia)) as (s' & ip' & did & Hrun & G).
    rewrite Z2Nat.id in Hrun by lia. rewrite <- Ep in *. apply (grown_mono _ _ _ _ _ _ 3) in G; [|lia].
    exists (file_block s' ip' n), s', ip'. rewrite (bind_run _ _ _ _ _ Hrun). split; [done|].
    apply (mapped_of s ip s ip s' ip' n [] 0); try done; [by apply evolved_refl|by apply evolved_grown|
      intros q m Hin; by apply not_elem_of_nil in Hin|intros q Hin; by apply not_elem_of_nil in Hin].
  - rewrite (proj2 (Z.ltb_lt n 276)) in Ep by lia. rewrite Ep in Hv.
    destruct (need_block_run s ip 20 Q ltac:(lia) ltac:(lia) ltac:(lia)) as (s1 & ip1 & Hrun1 & G1).
    rewrite (bind_run _ _ _ _ _ Hrun1). pose proof (g_room _ _ _ _ _ _ G1). pose proof (g_bufs _ _ _ _ _ _ G1).
    destruct (below_run s1 ip1 20 [] (Z.to_nat (n - 20)) (g_quiet _ _ _ _ _ _ G1) Hv (grown_full _ _ _ _ _ _ G1) ltac:(lia) ltac:(lia))
      as (s2 & Hrun2 & G2).
    rewrite Z2Nat.id in Hrun2 by lia. simpl app in *. rewrite <- Ep in Hrun2, G2, Hv.
    exists (file_block s2 ip1 n), s2, ip1. split; [done|].
    apply (mapped_of s ip s1 ip1 s2 ip1 n [(20%nat, [])] 2); try done.
    + by apply evolved_grown.
    + apply (evolved_step _ _ _ _ _ _ _ _ _ _ G1); [by apply evolved_grown|].
      by intros q ->%list_elem_of_singleton.
    + intros q m ->%list_elem_of_singleton. unfold file_place.
      destruct (Z.ltb_spec m 20), (m <? 276); try congruence; intros [= E]; lia.
    + intros q ->%list_elem_of_singleton E0. unfold file_block. rewrite Ep.
      change [Z.to_nat (n - 20)] with ([] ++ [Z.to_nat (n - 20)]). rewrite addr_at_snoc, E0. done.
  - rewrite (proj2 (Z.ltb_ge n 276)) in Ep by lia. rewrite Ep in Hv.
    rewrite (proj2 (Z.ltb_lt (n - 20 - 256) 65536)) by lia. replace (n - 20 - 256) with (n - 276) by lia.
    pose proof (Z.div_pos (n - 276) 256 ltac:(lia) ltac:(lia)). pose proof (Z.mod_pos_bound (n - 276) 256 ltac:(lia)).
    set (x0 := Z.to_nat ((n - 276) / 256)) in *. set (x1 := Z.to_nat ((n - 276) mod 256)) in *.
    assert (Z.of_nat x0 = (n - 276) / 256) as Ex0 by (apply Z2Nat.id; lia).
    assert (Z.of_nat x1 = (n - 276) mod 256) as Ex1 by (apply Z2Nat.id; lia).
    destruct (need_block_run s ip 21 Q ltac:(lia) ltac:(lia) ltac:(lia)) as (s1 & ip1 & Hrun1 & G1).
    rewrite (bind_run _ _ _ _ _ Hrun1). pose proof (g_room _ _ _ _ _ _ G1). pose proof (g_bufs _ _ _ _ _ _ G1).
    assert (valid (21%nat, [x0])) as Hv0 by (by apply (valid_snoc 21 [x0] x1)).
    destruct (below_run s1 ip1 21 [] x0 (g_quiet _ _ _ _ _ _ G1) Hv0 (grown_full _ _ _ _ _ _ G1) ltac:(lia) ltac:(lia))
      as (s2 & Hrun2 & G2).
    rewrite Ex0 in Hrun2. cbv zeta. rewrite (bind_run _ _ _ _ _ Hrun2).
    pose proof (g_room _ _ _ _ _ _ G2). pose proof (g_bufs _ _ _ _ _ _ G2).
    destruct (below_run s2 ip1 21 [x0] x1 (g_quiet _ _ _ _ _ _ G2) Hv (grown_full _ _ _ _ _ _ G2) ltac:(lia) ltac:(lia))
      as (s3 & Hrun3 & G3).
    rewrite Ex1 in Hrun3. simpl app in *. rewrite <- Ep in Hrun3, G3, Hv.
    exists (file_block s3 ip1 n), s3, ip1. split; [done|].
    assert (forall q, q ∈ [(21%nat, [x0])] -> valid q) as HP by (by intros q ->%list_elem_of_singleton).
    apply (mapped_of s ip s2 ip1 s3 ip1 n [(21%nat, []); (21%nat, [x0])] 5); try done.
    + apply (evolved_step _ _ _ _ _ _ _ _ 2 3 G1); [by apply evolved_grown|done].
    + apply (evolved_step _ _ _ _ _ _ _ _ 2 6 G1); [apply (evolved_step _ _ _ _ _ _ _ _ 3 3 G2)|].
      * by apply evolved_grown.
      * by intros q ->%list_elem_of_singleton.
      * intros q [->|Hq]%elem_of_cons; [done|]. by apply list_elem_of_singleton in Hq as ->.
    + intros q m [->|Hq]%elem_of_cons; [|apply list_elem_of_singleton in Hq as ->]; unfold file_place;
        destruct (Z.ltb_spec m 20), (m <? 276); try congruence; intros [= E]; lia.
    + unfold file_block. rewrite Ep. change [x0; x1] with ([x0] ++ [x1]).
      intros q [->|Hq]%elem_of_cons E0; rewrite addr_at_snoc.
      * change [x0] with ([] ++ [x0]). by rewrite addr_at_snoc, E0.
      * apply list_elem_of_singleton in Hq as ->. by rewrite E0.
Qed.
End Tree.

Section Claims.
Context {St : Type} `{!BlockStore St} (sb : vimixfs_superblock) (L : layout sb).

(** [block_alloc_init] takes the first block that the bitmap shows as free, marks
    it as used and clears it, and changes no other block; it returns 0 only if all
    blocks are in use.  [block_free] of the block restores the bitmap.  All buffers are
    released again, and at most two blocks are logged. *)
Theorem block_alloc_free_spec s :
  bs_inv s -> fs_ok sb s -> (forall bn, is_bitmap sb bn -> bs_free s bn) ->
  (forall bn, 0 <= bn < sb_size sb -> used sb s bn = false -> bs_free s bn) ->
  3 <= bs_room s -> 3 <= bs_bufs s ->
  exists r s', block_alloc_init sb s = Ret (r, s') /\ allocated sb s r s' /\
    (r <> 0 -> exists s'', block_free sb r s' = Ret (tt, s'') /\ fs_ok sb s'' /\
       (forall b, 0 <= b < sb_size sb -> used sb s'' b = used sb s b) /\
       (forall bn, ~ is_bitmap sb bn -> bn <> r -> bs_view s'' bn = bs_view s bn)).
Proof using L.
  intros I Hok Hbf Huf Hroom Hbufs. destruct (block_alloc_run sb L s I Hok Hbf Huf) as (r & s' & Hrun & Hal); [lia..|].
  exists r, s'. split; [done|]. split; [done|]. intros Hr0. destruct Hal as [[? _]|(Hr & Hu & _ & He & _ & Hok' & Hused)]; [done|].
  pose proof (data_start_pos sb L). pose proof (e_room _ _ _ _ He). pose proof (e_bufs _ _ _ _ He).
  pose proof (block_free_run sb L s' r (e_inv _ _ _ _ He) Hok') as Hfree.
  rewrite (Hused r ltac:(lia)), decide_True in Hfree by done.
  destruct Hfree as (s'' & Hrun' & He' & Hok'' & Hused'); [|lia..|].
  { intros bn Hbn. by apply (e_free _ _ _ _ He), Hbf. }
  exists s''. split; [done|]. split; [done|]. split.
  - intros b Hb. rewrite Hused', Hused by done. case_decide; [by subst|done].
  - intros bn Hnb Hne. rewrite (e_view _ _ _ _ He'), (e_view _ _ _ _ He); [done|tauto|done].
Qed.

(** C14: [bmap_get_block_address] refines the update of a map from the block numbers of
    a file to disk blocks.  A block that the file has is returned and nothing changes;
    otherwise a block that was free is cleared, marked as used and entered into the
    tree, with the indirect blocks it needs, and the other blocks of the file stay where
    they are; 0 is returned only if the disk is full.  No block gets two places in the
    tree, and the content of all other blocks in use, of this file or others, is
    kept. *)
Theorem bmap_get_block_address_refines s ip n :
  quiet sb s ip -> 0 <= n < VIMIXFS_MAX_FILE_SIZE_BLOCKS -> 8 <= bs_room s -> 8 <= bs_bufs s ->
  exists a s' ip', bmap_get_block_address sb n (mk_fs s ip) = Ret (a, mk_fs s' ip') /\ mapped sb s ip n a s' ip'.
Proof using L. apply bmap_run, L. Qed.
End Claims.

(** ** A small file system

    64 blocks on device 1: the log from block 2 on, inodes from 14 on, of which number 3
    is in use as a directory and number 4 as a file, the bitmap in block 20, then data, of
    which block 21 is in use.  Process 5 is in a transaction. *)

Definition small_sb : vimixfs_superblock := mk_superblock 64 43 6 14 20.

Definition small_bitmap : block := [255; 255; 63] ++ replicate 1021 0.

(** Modes 0x41ed and 0x81a4, and one link each. *)
Definition small_inodes : block :=
  replicate 384 0 ++ [237; 65; 0; 0; 0; 0; 0; 0; 1] ++ replicate 119 0 ++ [164; 129; 0; 0; 0; 0; 0; 0; 1] ++ replicate 503 0.

(** An entry for inode 4 with the name of one character, 97. *)
Definition small_entry : block := [4; 0; 0; 0; 97] ++ replicate 1019 0.

Definition small_bio : bio :=
  ran bio_init (mk_bio [] 0 0 0 0 {[(1, 20) := small_bitmap; (1, 14) := small_inodes; (1, 21) := small_entry]} [] (replicate 18 [9]) 0).
Definition small_mounted : lfs :=
  ran (log_init (Z.eqb 1) false 1 (mk_log_sb 12 2)) (mk_lfs (mk_log 0 0 0 0 0 0 [] [] [] [] 0) small_bio ∅).
Definition small_fs : lfs := ran (log_begin_fs_transaction 5) small_mounted.

Definition small_store : BlockStore lfs := lfs_BlockStore (Z.eqb 1) 1 5 (fun _ => 0).

Definition empty_inode : vimixfs_inode := mk_inode 3 0 1 1 0 0 0 0 0 (replicate 22 0).

Lemma small_layout : layout small_sb.
Proof. split; [split; [done|vm_compute; discriminate]|done|vm_compute; discriminate]. Qed.

Lemma empty_addr {St} `{!BlockStore St} s ip p : addrs ip = replicate 22 0 -> addr_at s ip p = 0.
Proof.
  intros E. destruct p as [i l]. induction l as [|x l IH] using rev_ind; [|by rewrite addr_at_snoc, IH].
  unfold addr_at. cbn [fst snd foldl]. rewrite E. destruct (replicate 22 0 !! i) eqn:Ei; [|done].
  apply lookup_replicate in Ei as [Ei _]. exact Ei.
Qed.

Lemma empty_tree_ok {St} `{!BlockStore St} sb s : tree_ok sb s empty_inode.
Proof.
  split; [done|..]; intros p.
  - by rewrite empty_addr.
  - intros q _ _ _. by rewrite empty_addr.
Qed.

Lemma small_log_ok : log_ok (l_log small_fs).
Proof.
  apply (log_step_ok (Z.eqb 1) small_mounted small_fs).
  - apply (log_init_ok (Z.eqb 1) 1 (mk_log_sb 12 2) (mk_lfs (mk_log 0 0 0 0 0 0 [] [] [] [] 0) small_bio ∅));
      [vm_compute; reflexivity|simpl; lia|done].
  - apply (step_begin _ 5 10 10 0 small_mounted small_fs); [lia..|]. vm_compute. reflexivity.
Qed.

Lemma small_bio_ok : bio_inv (l_bio small_fs) /\ bio_clean (l_bio small_fs).
Proof.
  split; [constructor; try match goal with |- uniq_keys _ => apply uniq_of_nodup end|]; by_decide.
Qed.

Lemma small_tx : tx_inv (Z.eqb 1) 1 5 (fun _ => 0) small_fs /\ forall bn, tx_free 1 small_fs bn.
Proof.
  apply (tx_inv_start (Z.eqb 1) 1 5 (fun _ => 0) small_fs);
    [discriminate|reflexivity|discriminate|apply small_log_ok|apply small_bio_ok|apply small_bio_ok| | |lia].
  - vm_compute. reflexivity.
  - apply unused_bufs; [apply small_bio_ok|by_decide|discriminate].
Qed.

Lemma small_fs_ok : @fs_ok lfs small_store small_sb small_fs.
Proof.
  split.
  - assert (Forall (fun bn => is_block (tx_view 1 small_fs bn)) (seqZ 0 64)) as H by by_decide.
    intros bn Hbn. rewrite Forall_forall in H. apply H, elem_of_seqZ. simpl in Hbn. lia.
  - assert (Forall (fun b => @used lfs small_store small_sb small_fs b = true) (seqZ 0 21)) as H by by_decide.
    intros b Hb. rewrite Forall_forall in H. apply H, elem_of_seqZ. change (data_start small_sb) with 21 in Hb. lia.
Qed.

Lemma small_quiet : @quiet lfs small_store small_sb small_fs empty_inode.
Proof.
  destruct small_tx as [Ht Hf]. split; [exact Ht|apply small_fs_ok|apply empty_tree_ok|intros bn _; apply Hf].
Qed.

Lemma small_budget : 10 <= @bs_room lfs small_store small_fs /\ 10 <= @bs_bufs lfs small_store small_fs.
Proof. split; vm_compute; discriminate. Qed.

Lemma block_alloc_free_spec_witness :
  exists r s', @block_alloc_init lfs small_store small_sb small_fs = Ret (r, s') /\
    @allocated lfs small_store small_sb small_fs r s'.
Proof.
  destruct small_tx as [Ht Hf]. destruct small_budget as [Hr Hb].
  destruct (@block_alloc_free_spec lfs small_store small_sb small_layout small_fs Ht small_fs_ok
    (fun bn _ => Hf bn) (fun bn _ _ => Hf bn) (Z.le_trans 3 10 _ ltac:(lia) Hr) (Z.le_trans 3 10 _ ltac:(lia) Hb))
    as (r & s' & H1 & H2 & _).
  exists r, s'. exact (conj H1 H2).
Defined.

Lemma bmap_get_block_address_refines_witness :
  exists a s' ip', @bmap_get_block_address lfs small_store small_sb 300 (mk_fs small_fs empty_inode) = Ret (a, mk_fs s' ip') /\
    @mapped lfs small_store small_sb small_fs empty_inode 300 a s' ip'.
Proof.
  destruct small_budget as [Hr Hb].
  exact (@bmap_get_block_address_refines lfs small_store small_sb small_layout small_fs empty_inode 300 small_quiet
    ltac:(vm_compute; split; [discriminate|reflexivity]) (Z.le_trans 8 10 _ ltac:(lia) Hr) (Z.le_trans 8 10 _ ltac:(lia) Hb)).
Defined.
