(* ===== verification/Inode.v ===== *)
(** * Inodes and file contents (kernel/fs/vimixfs/vimixfs.c)

    Reading, writing and truncating files, and the inodes on disk, over the block map of
    [Bmap].  The inode an operation works on is part of the state, as there.  The
    memory of the caller is what the call sees of it: a source is a partial function
    from addresses to bytes, a target a predicate of the addresses that can be
    written. *)
From stdpp Require Import list.
From S2P Require Import Prelude Bytes Bio Log LogCommit Txn Bmap.

Definition INVALID_DEVICE : Z := 0.
Definition VIMIXFS_INVALID_MODE : Z := 0.

(** [sizeof(struct vimixfs_dinode)] is 128. *)
Definition DINODE_SIZE : Z := 128.
Definition VIMIXFS_INODES_PER_BLOCK : Z := BLOCK_SIZE / DINODE_SIZE.
Definition VIMIXFS_BLOCK_OF_INODE_P (i : Z) (sb : vimixfs_superblock) : Z :=
  i / VIMIXFS_INODES_PER_BLOCK + sb_inodestart sb.
Definition VIMIXFS_DINODE_OFFSET_IN_BLOCK (i : Z) : Z := i mod VIMIXFS_INODES_PER_BLOCK.
Definition VIMIXFS_INUM_OF_DINODE (block_idx offset : Z) : Z := block_idx * VIMIXFS_INODES_PER_BLOCK + offset.

Definition set_size (n : Z) (ip : vimixfs_inode) : vimixfs_inode :=
  mk_inode (i_inum ip) (i_mode ip) (i_dev ip) (i_nlink ip) n (i_uid ip) (i_gid ip)
    (i_ctime ip) (i_mtime ip) (addrs ip).

(** ** Inodes on disk *)

(** The 32-bit words of an array in a block. *)
Fixpoint put_words (off : nat) (ws : list Z) (d : block) : option block :=
  match ws with
  | [] => Some d
  | w :: ws => d ← put_u32 off w d; put_words (off + 4) ws d
  end.

Fixpoint get_words (n off : nat) (d : block) : option (list Z) :=
  match n with
  | O => Some []
  | S n => w ← get_u32 off d; ws ← get_words n (off + 4) d; Some (w :: ws)
  end.

(** [struct vimixfs_dinode]: mode, dev, nlink, size, uid, gid, ctime, mtime, addrs. *)
Definition dinode_words (ip : vimixfs_inode) (dev : Z) : list Z :=
  [u32 (i_mode ip); u32 dev; u32 (i_nlink ip); u32 (i_size ip); u32 (i_uid ip); u32 (i_gid ip);
   u32 (i_ctime ip); u32 (i_ctime ip / 2 ^ 32); u32 (i_mtime ip); u32 (i_mtime ip / 2 ^ 32)] ++ addrs ip.

Section Inode.
Context {St : Type} `{!BlockStore St} (sb : vimixfs_superblock) (sb_dev : Z).

Definition get_ip : ST (fs St) vimixfs_inode := s ← get; mret (fs_ip s).
Definition modify_ip (f : vimixfs_inode -> vimixfs_inode) : ST (fs St) unit :=
  modify (fun s => mk_fs (fs_st s) (f (fs_ip s))).

Definition vimixfs_sops_write_inode : ST (fs St) unit :=
  ip ← get_ip;
  bp ← on_store (bs_read (VIMIXFS_BLOCK_OF_INODE_P (i_inum ip) sb));
  let dev := if i_dev ip =? sb_dev then INVALID_DEVICE else i_dev ip in
  data ← on_store (bs_data bp);
  data ← lift (load (put_words (Z.to_nat (DINODE_SIZE * VIMIXFS_DINODE_OFFSET_IN_BLOCK (i_inum ip)))
                       (dinode_words ip dev) data));
  on_store (bs_set bp data);;
  on_store (bs_log bp);;
  on_store (bs_release bp).

(** The inode with number [inum] from its words on disk. *)
Definition inode_of_words (inum : Z) (ws : list Z) : option vimixfs_inode :=
  match ws with
  | mode :: dev :: nlink :: size :: uid :: gid :: c0 :: c1 :: m0 :: m1 :: ads =>
      Some (mk_inode inum mode (if s32 dev =? INVALID_DEVICE then sb_dev else s32 dev) (swrap 16 nlink) size
        (s32 uid) (s32 gid) (s64 (c0 + 2 ^ 32 * c1)) (s64 (m0 + 2 ^ 32 * m1)) ads)
  | _ => None
  end.

Definition vimixfs_read_inode_metadata : ST (fs St) unit :=
  ip ← get_ip;
  bp ← on_store (bs_read (VIMIXFS_BLOCK_OF_INODE_P (i_inum ip) sb));
  data ← on_store (bs_data bp);
  ws ← lift (load (get_words 32 (Z.to_nat (DINODE_SIZE * VIMIXFS_DINODE_OFFSET_IN_BLOCK (i_inum ip))) data));
  ip' ← lift (load (inode_of_words (i_inum ip) ws));
  modify_ip (fun _ => ip');;
  on_store (bs_release bp).

(** The loops of [vimixfs_sops_alloc_inode]: the number of the first free inode, which
    is marked as used; [None] if there is none. *)
Fixpoint scan_inodes (fuel : nat) (bnum inum_local : Z) (data : block) : res (option Z) :=
  match fuel with
  | O => mret None
  | S fuel =>
      if VIMIXFS_INUM_OF_DINODE bnum inum_local =? 0 then scan_inodes fuel bnum (inum_local + 1) data
      else
        mode ← load (get_u32 (Z.to_nat (DINODE_SIZE * inum_local)) data);
        if mode =? VIMIXFS_INVALID_MODE then mret (Some inum_local)
        else scan_inodes fuel bnum (inum_local + 1) data
  end.

Fixpoint alloc_inode_loop (fuel : nat) (bnum mode time : Z) : ST St (option Z) :=
  match fuel with
  | O => mret None
  | S fuel =>
      bp ← bs_read (sb_inodestart sb + bnum);
      data ← bs_data bp;
      found ← lift (scan_inodes (Z.to_nat VIMIXFS_INODES_PER_BLOCK) bnum 0 data);
      match found with
      | Some inum_local =>
          let dip := mk_inode 0 mode 0 0 0 0 0 time time (replicate 22 0) in
          data ← lift (load (put_words (Z.to_nat (DINODE_SIZE * inum_local)) (dinode_words dip INVALID_DEVICE) data));
          bs_set bp data;;
          bs_log bp;;
          bs_release bp;;
          mret (Some (VIMIXFS_INUM_OF_DINODE bnum inum_local))
      | None =>
          bs_release bp;;
          alloc_inode_loop fuel (bnum + 1) mode time
      end
  end.

Definition vimixfs_sops_alloc_inode (mode time : Z) : ST St (option Z) :=
  alloc_inode_loop (Z.to_nat (sb_ninode_blocks sb)) 0 mode time.

(** ** Reading and writing *)

(** The bytes a copy from [src] gets before it faults. *)
Fixpoint readable (source : Z -> option Z) (src : Z) (m : nat) : list Z :=
  match m with
  | O => []
  | S m => match source src with Some b => b :: readable source (src + 1) m | None => [] end
  end.

(** Bytes of a block overwritten from [off] on. *)
Definition splice (d : block) (off : nat) (bytes : list Z) : block :=
  take off d ++ bytes ++ drop (off + length bytes) d.

(** The loop of [vimixfs_iops_read]; the result with the bytes it copied to the
    target. *)
Fixpoint iops_read_loop (fuel : nat) (target : Z -> bool) (off dst n tot : Z) (out : list Z) : ST (fs St) (Z * list Z) :=
  match fuel with
  | O => lift NoFuel
  | S fuel =>
      if tot <? n then
        addr ← bmap_get_block_address sb (u32 (off / BLOCK_SIZE));
        if addr =? 0 then mret (tot, out)
        else
          bp ← on_store (bs_read addr);
          data ← on_store (bs_data bp);
          let m := Z.min (n - tot) (BLOCK_SIZE - off mod BLOCK_SIZE) in
          if forallb target (seqZ dst m) then
            on_store (bs_release bp);;
            iops_read_loop fuel target (off + m) (dst + m) n (tot + m)
              (out ++ take (Z.to_nat m) (drop (Z.to_nat (off mod BLOCK_SIZE)) data))
          else
            on_store (bs_release bp);;
            mret (-1, out)
      else mret (tot, out)
  end.

(** Every iteration reads a byte at least and ends at the end of a block. *)
Definition rw_fuel (n : Z) : nat := Z.to_nat (n / BLOCK_SIZE + 3).

Definition vimixfs_iops_read (target : Z -> bool) (off dst n : Z) : ST (fs St) (Z * list Z) :=
  ip ← get_ip;
  if ((i_size ip <? off) || (u64 (off + n) <? off))%bool then mret (0, [])
  else
    let n := if i_size ip <? u64 (off + n) then i_size ip - off else n in
    iops_read_loop (rw_fuel n) target off dst n 0 [].

(** The loop of [vimixfs_write]: the result and the offset behind what was
    written. *)
Fixpoint file_write_loop (fuel : nat) (source : Z -> option Z) (off src n tot : Z) : ST (fs St) (Z * Z) :=
  match fuel with
  | O => lift NoFuel
  | S fuel =>
      if tot <? n then
        addr ← bmap_get_block_address sb (u32 (off / BLOCK_SIZE));
        if addr =? 0 then mret (tot, off)
        else
          bp ← on_store (bs_read addr);
          let m := Z.min (n - tot) (BLOCK_SIZE - off mod BLOCK_SIZE) in
          data ← on_store (bs_data bp);
          let bytes := readable source src (Z.to_nat m) in
          on_store (bs_set bp (splice data (Z.to_nat (off mod BLOCK_SIZE)) bytes));;
          if decide (length bytes = Z.to_nat m) then
            on_store (bs_log bp);;
            on_store (bs_release bp);;
            file_write_loop fuel source (off + m) (src + m) n (tot + m)
          else
            on_store (bs_release bp);;
            mret (- EFAULT, off)
      else mret (tot, off)
  end.

Definition vimixfs_write (source : Z -> option Z) (src off n : Z) : ST (fs St) Z :=
  ip ← get_ip;
  if ((i_size ip <? off) || (u64 (off + n) <? off))%bool then mret (- EINVAL)
  else if VIMIXFS_MAX_FILE_SIZE_BLOCKS * BLOCK_SIZE <? u64 (off + n) then mret (- EINVAL)
  else
    r ← file_write_loop (rw_fuel n) source off src n 0;
    modify_ip (fun ip => if i_size ip <? snd r then set_size (u32 (snd r)) ip else ip);;
    vimixfs_sops_write_inode;;
    mret (fst r).
End Inode.

(** ** Words of a block *)

Lemma put_words_run ws : forall off d,
  is_block d -> (off + 4 * length ws <= 1024)%nat -> Forall (is_u 32) ws ->
  exists d', put_words off ws d = Some d' /\ is_block d' /\ get_words (length ws) off d' = Some ws /\
    (forall o, (o + 4 <= off \/ off + 4 * length ws <= o)%nat -> get_u32 o d' = get_u32 o d).
Proof.
  induction ws as [|w ws IH]; intros off d Hd Hlen Hws; cbn [put_words get_words length].
  { exists d. by split_and!. }
  apply Forall_cons in Hws as [Hw Hws]. cbn [length] in Hlen. destruct Hd as [Hl Hf].
  assert (exists d1, put_u32 off w d = Some d1 /\ is_block d1) as (d1 & Hput & Hd1).
  { unfold put_u32. rewrite decide_True by lia. eexists. split; [done|].
    repeat (apply is_block_insert; [|apply (Z.mod_pos_bound _ 256); lia]). done. }
  destruct (IH (off + 4)%nat d1 Hd1 ltac:(lia) Hws) as (d' & Hput' & Hd' & Hget & Hout).
  exists d'. rewrite Hput. cbn. split; [done|]. split; [done|]. split.
  - rewrite Hout by lia. rewrite (get_put_u32_eq off w d d1 Hw Hput). cbn. by rewrite Hget.
  - intros o Ho. rewrite Hout by lia. apply (get_put_u32_ne off o w); [lia|done].
Qed.

(** Words outside of the written ones. *)
Lemma get_words_same n : forall off d d',
  (forall o, (off <= o)%nat -> (o + 4 <= off + 4 * n)%nat -> get_u32 o d' = get_u32 o d) ->
  get_words n off d' = get_words n off d.
Proof.
  induction n as [|n IH]; intros off d d' H; cbn; [done|]. rewrite H by lia.
  rewrite (IH (off + 4)%nat d d'); [done|]. intros o H1 H2. apply H; lia.
Qed.

(** ** Inodes: write and read back *)

Record inode_ok (ip : vimixfs_inode) : Prop := {
  io_mode : is_u 32 (i_mode ip);
  io_dev : is_s 32 (i_dev ip) /\ i_dev ip <> INVALID_DEVICE;
  io_nlink : 0 <= i_nlink ip < 2 ^ 15;
  io_size : is_u 32 (i_size ip);
  io_uid : is_s 32 (i_uid ip);
  io_gid : is_s 32 (i_gid ip);
  io_ctime : is_s 64 (i_ctime ip);
  io_mtime : is_s 64 (i_mtime ip);
  io_addrs : length (addrs ip) = 22%nat /\ Forall (is_u 32) (addrs ip)
}.

Lemma s32_u32 x : is_s 32 x -> s32 (u32 x) = x.
Proof.
  intros H. unfold is_s, swrap, uwrap in *. change (2 ^ (32 - 1)) with 2147483648 in *. change (2 ^ 32) with 4294967296.
  rewrite Zplus_mod_idemp_l. rewrite Z.mod_small by lia. lia.
Qed.

Lemma time_words t : is_s 64 t -> s64 (u32 t + 2 ^ 32 * u32 (t / 2 ^ 32)) = t.
Proof.
  intros H. unfold is_s, swrap, uwrap in *. change (2 ^ (64 - 1)) with 9223372036854775808 in *.
  change (2 ^ 64) with 18446744073709551616. change (2 ^ 32) with 4294967296.
  pose proof (Z.div_mod t 4294967296 ltac:(lia)). set (q := t / 4294967296) in *. set (r := t mod 4294967296) in *.
  pose proof (Z.mod_pos_bound t 4294967296 ltac:(lia)). fold r in H1.
  pose proof (Z.div_mod q 4294967296 ltac:(lia)). set (q2 := q / 4294967296) in *. set (r2 := q mod 4294967296) in *.
  replace (r + 4294967296 * r2 + 9223372036854775808) with (t + 9223372036854775808 + (- q2) * 18446744073709551616) by lia.
  rewrite Z_mod_plus_full, Z.mod_small by lia. lia.
Qed.

Lemma inode_words_roundtrip ip sb_dev :
  inode_ok ip -> is_s 32 sb_dev ->
  inode_of_words sb_dev (i_inum ip) (dinode_words ip (if i_dev ip =? sb_dev then INVALID_DEVICE else i_dev ip)) = Some ip.
Proof.
  intros [H1 [H2 H2'] H3 H4 H5 H6 H7 H8 _] Hsd. unfold dinode_words, inode_of_words. cbn [app]. destruct ip as [n m d nl sz u g c mt ad].
  cbn [i_inum i_mode i_dev i_nlink i_size i_uid i_gid i_ctime i_mtime addrs] in *.
  rewrite (uwrap_id 32 m), (uwrap_id 32 sz), (s32_u32 u), (s32_u32 g), (time_words c), (time_words mt) by done.
  assert (swrap 16 (u32 nl) = nl) as ->.
  { rewrite uwrap_id by (unfold is_u; lia). apply swrap_id; [unfold is_s; lia|lia]. }
  assert ((if s32 (u32 (if d =? sb_dev then INVALID_DEVICE else d)) =? INVALID_DEVICE then sb_dev
           else s32 (u32 (if d =? sb_dev then INVALID_DEVICE else d))) = d) as ->; [|done].
  destruct (Z.eqb_spec d sb_dev) as [->|Hne]; [done|]. rewrite s32_u32 by done. by rewrite (proj2 (Z.eqb_neq d INVALID_DEVICE)).
Qed.

Lemma dinode_words_ok ip dev : inode_ok ip -> length (dinode_words ip dev) = 32%nat /\ Forall (is_u 32) (dinode_words ip dev).
Proof.
  intros H. destruct (io_addrs ip H) as [Hl Hf]. unfold dinode_words. split; [rewrite length_app, Hl; done|].
  apply Forall_app. split; [|done]. repeat (apply Forall_cons; split; [by apply uwrap_range|]). done.
Qed.

(** The inode blocks are before the bitmap. *)
Definition inode_area (sb : vimixfs_superblock) : Prop :=
  0 < sb_inodestart sb /\ 0 <= sb_ninode_blocks sb /\ sb_inodestart sb + sb_ninode_blocks sb <= sb_bmapstart sb.

Definition inum_ok (sb : vimixfs_superblock) (inum : Z) : Prop := 0 < inum < 8 * sb_ninode_blocks sb.

Section InodeDisk.
Context {St : Type} `{!BlockStore St} (sb : vimixfs_superblock) (sb_dev : Z).
Context (L : layout sb) (A : inode_area sb) (Hdev : is_s 32 sb_dev).

Abbreviation iblock n := (VIMIXFS_BLOCK_OF_INODE_P n sb).
Abbreviation ioff n := (Z.to_nat (DINODE_SIZE * VIMIXFS_DINODE_OFFSET_IN_BLOCK n)).

(** The inode that block contents hold for number [n]. *)
Definition disk_inode (s : St) (n : Z) : option vimixfs_inode :=
  ws ← get_words 32 (ioff n) (bs_view s (iblock n)); inode_of_words sb_dev n ws.

Lemma iblock_range n : inum_ok sb n -> 0 < iblock n < sb_bmapstart sb /\ iblock n < sb_size sb /\ (ioff n + 128 <= 1024)%nat.
Proof using L A.
  unfold inum_ok, VIMIXFS_BLOCK_OF_INODE_P, VIMIXFS_DINODE_OFFSET_IN_BLOCK. change VIMIXFS_INODES_PER_BLOCK with 8.
  change DINODE_SIZE with 128. intros Hn. destruct A as (A1 & A2 & A3). pose proof (Z.div_pos n 8 ltac:(lia) ltac:(lia)).
  pose proof (Z.div_lt_upper_bound n 8 (sb_ninode_blocks sb) ltac:(lia) ltac:(lia)).
  pose proof (Z.mod_pos_bound n 8 ltac:(lia)). pose proof (ly_data sb L) as Hd. unfold data_start in Hd.
  assert (0 < VIMIXFS_BLOCKS_FOR_BITMAP (sb_size sb)).
  { unfold VIMIXFS_BLOCKS_FOR_BITMAP. change VIMIXFS_BMAP_BITS_PER_BLOCK with 8192.
    pose proof (Z.div_pos (sb_size sb) 8192 ltac:(destruct L as [[? _] _ _]; lia) ltac:(lia)). lia. }
  lia.
Qed.

(** Writing the words of inode [n] keeps the other inodes. *)
Lemma put_inode_run s n ws :
  inum_ok sb n -> is_block (bs_view s (iblock n)) -> length ws = 32%nat -> Forall (is_u 32) ws ->
  exists d, put_words (ioff n) ws (bs_view s (iblock n)) = Some d /\ is_block d /\ get_words 32 (ioff n) d = Some ws /\
    forall s', bs_view s' (iblock n) = d -> (forall bn, bn <> iblock n -> bs_view s' bn = bs_view s bn) ->
      forall n', 0 <= n' -> n' <> n -> disk_inode s' n' = disk_inode s n'.
Proof using L A.
  intros Hn Hblk Hlen Hws. destruct (iblock_range _ Hn) as (Hr1 & Hr2 & Hr3).
  destruct (put_words_run ws (ioff n) (bs_view s (iblock n))) as (d & Hput & Hd & Hget & Hout); [done|rewrite Hlen; lia|done|].
  rewrite Hlen in *. exists d. split; [done|]. split; [done|]. split; [done|]. intros s' Hv Hother n' H0 Hne. unfold disk_inode.
  destruct (decide (iblock n' = iblock n)) as [E|E]; [|by rewrite Hother].
  rewrite E, Hv. rewrite (get_words_same 32 (ioff n') (bs_view s (iblock n)) d); [done|]. intros o Ho1 Ho2. apply Hout.
  revert E Ho1 Ho2 Hne. unfold VIMIXFS_BLOCK_OF_INODE_P, VIMIXFS_DINODE_OFFSET_IN_BLOCK.
  change VIMIXFS_INODES_PER_BLOCK with 8. change DINODE_SIZE with 128. intros E Ho1 Ho2 Hne.
  destruct Hn as [Hn0 _]. pose proof (Z.div_mod n' 8 ltac:(lia)). pose proof (Z.div_mod n 8 ltac:(lia)).
  pose proof (Z.mod_pos_bound n' 8 ltac:(lia)). pose proof (Z.mod_pos_bound n 8 ltac:(lia)). lia.
Qed.

Lemma write_inode_run s ip :
  bs_inv s -> is_block (bs_view s (iblock (i_inum ip))) ->
  bs_free s (iblock (i_inum ip)) -> 0 < bs_room s -> 0 < bs_bufs s -> inode_ok ip -> inum_ok sb (i_inum ip) ->
  exists s', vimixfs_sops_write_inode sb sb_dev (mk_fs s ip) = Ret (tt, mk_fs s' ip) /\
    eff s s' (fun bn => bn = iblock (i_inum ip)) 1 /\ is_block (bs_view s' (iblock (i_inum ip))) /\
    disk_inode s' (i_inum ip) = Some ip /\
    (forall n, 0 <= n -> n <> i_inum ip -> disk_inode s' n = disk_inode s n) /\
    (bs_logged s (iblock (i_inum ip)) = true -> bs_room s <= bs_room s' /\ bs_bufs s <= bs_bufs s').
Proof using L A Hdev.
  intros I Hblk Hfree Hroom Hbufs Hip Hn.
  set (bn := iblock (i_inum ip)) in *. set (dev := if i_dev ip =? sb_dev then INVALID_DEVICE else i_dev ip).
  destruct (dinode_words_ok ip dev Hip) as [Hlen Hws].
  destruct (put_inode_run s (i_inum ip) (dinode_words ip dev) Hn Hblk Hlen Hws) as (d' & Hput & Hd' & Hget & Hothers). fold bn in Hput, Hothers.
  destruct (read_run s bn I Hfree Hbufs) as (bp & s1 & Hread & I1 & Hh & Hv & _).
  destruct (write_back_run s s1 bp bn d' I Hfree Hbufs Hroom Hread) as (s2 & s3 & s4 & E2 & E3 & E4 & He & Hv4 & _ & Hagain).
  exists s4. split.
  { unfold vimixfs_sops_write_inode. rewrite (bind_run _ _ _ ip (mk_fs s ip)) by done. fold bn.
    rewrite (bind_run _ _ _ bp (mk_fs s1 ip)) by (by apply on_store_run).
    rewrite (bind_run _ _ _ (bs_view s bn) (mk_fs s1 ip))
      by (apply on_store_run; rewrite <- Hv; by apply (bs_data_run s1 bp bn true)).
    fold dev. rewrite (bind_run _ _ _ d' (mk_fs s1 ip)) by (by rewrite Hput).
    rewrite (bind_run _ _ _ tt (mk_fs s2 ip)) by (by apply on_store_run).
    rewrite (bind_run _ _ _ tt (mk_fs s3 ip)) by (by apply on_store_run). by apply on_store_run. }
  split; [done|]. split; [by rewrite Hv4|]. split; [|split; [|exact Hagain]].
  - unfold disk_inode. fold bn. rewrite Hv4, Hget. cbn. by apply inode_words_roundtrip.
  - intros n H0 Hne. apply Hothers; [done| |done|done]. intros b Hb. by apply (e_view _ _ _ _ He).
Qed.

Lemma read_inode_run s ip0 ip :
  bs_inv s -> bs_free s (iblock (i_inum ip0)) -> 0 < bs_bufs s -> disk_inode s (i_inum ip0) = Some ip ->
  exists s', vimixfs_read_inode_metadata sb sb_dev (mk_fs s ip0) = Ret (tt, mk_fs s' ip) /\ eff s s' (fun _ => False) 0.
Proof using.
  intros I Hfree Hbufs Hdisk. set (bn := iblock (i_inum ip0)) in *.
  destruct (read_run s bn I Hfree Hbufs) as (bp & s1 & Hread & I1 & Hh & Hv & _).
  destruct (read_release_run s s1 bp bn I Hfree Hbufs Hread) as (s2 & Hrel & He). exists s2. split; [|done].
  unfold disk_inode in Hdisk. fold bn in Hdisk. destruct (get_words 32 (ioff (i_inum ip0)) (bs_view s bn)) as [ws|] eqn:Ew; [|done].
  unfold vimixfs_read_inode_metadata. rewrite (bind_run _ _ _ ip0 (mk_fs s ip0)) by done. fold bn.
  rewrite (bind_run _ _ _ bp (mk_fs s1 ip0)) by (by apply on_store_run).
  rewrite (bind_run _ _ _ (bs_view s bn) (mk_fs s1 ip0))
    by (apply on_store_run; rewrite <- Hv; by apply (bs_data_run s1 bp bn true)).
  rewrite (bind_run _ _ _ ws (mk_fs s1 ip0)) by (by rewrite Ew). cbn in Hdisk.
  rewrite (bind_run _ _ _ ip (mk_fs s1 ip0)) by (by rewrite Hdisk).
  rewrite (bind_run _ _ _ tt (mk_fs s1 ip)) by done. by apply on_store_run.
Qed.
End InodeDisk.

(** ** Blocks that a file has

    Looking them up logs nothing, so it needs no transaction. *)

Section Lookup.
Context {St : Type} `{!BlockStore St} (sb : vimixfs_superblock) (L : layout sb).

Lemma from_block_lookup s ip a i :
  bs_inv s -> bs_free s a -> 0 < bs_bufs s -> is_block (bs_view s a) -> a <> 0 -> (i < 256)%nat ->
  word (bs_view s a) i <> 0 ->
  exists s', bmap_from_block sb a (Z.of_nat i) (mk_fs s ip) = Ret (word (bs_view s a) i, mk_fs s' ip) /\
    eff s s' (fun _ => False) 0.
Proof using.
  intros I Hf Hb Hblk Ha Hi Hw. destruct (read_run s a I Hf Hb) as (bp & s1 & Hread & I1 & Hh & Hv & _).
  destruct (read_release_run s s1 bp a I Hf Hb Hread) as (s2 & Hrel & He). exists s2. split; [|done].
  unfold bmap_from_block. rewrite (proj2 (Z.eqb_neq a 0)) by done.
  rewrite (bind_run _ _ _ bp (mk_fs s1 ip)) by (by apply on_store_run).
  destruct (word_get (bs_view s a) i Hblk Hi) as [Hget _].
  rewrite (bind_run _ _ _ (word (bs_view s a) i, false) (mk_fs s1 ip)).
  - cbn. rewrite (bind_run _ _ _ tt (mk_fs s1 ip)) by done.
    rewrite (bind_run _ _ _ tt (mk_fs s2 ip)) by (by apply on_store_run). done.
  - unfold bmap_from_block_range, load_addr. rewrite (bind_run _ _ _ (word (bs_view s a) i) (mk_fs s1 ip)).
    + by rewrite (proj2 (Z.eqb_neq _ 0)).
    + rewrite (bind_run _ _ _ (bs_view s a) (mk_fs s1 ip))
        by (apply on_store_run; rewrite <- Hv; by apply (bs_data_run s1 bp a true)).
      by rewrite Nat2Z.id, Hget.
Qed.

Lemma need_block_lookup s ip i :
  tree_ok sb s ip -> (i < 22)%nat -> addr_at s ip (i, []) <> 0 ->
  need_block sb (Z.of_nat i) (mk_fs s ip) = Ret (addr_at s ip (i, []), mk_fs s ip).
Proof using.
  intros T Hi Hn. unfold need_block. rewrite (bind_run _ _ _ _ _ (load_inode_run sb s ip i T Hi)).
  rewrite (proj2 (Z.eqb_neq _ 0)) by done. rewrite (bind_run _ _ _ tt (mk_fs s ip)) by done.
  by apply (load_inode_run sb).
Qed.

Lemma eff_quiet s s' ip : quiet sb s ip -> eff s s' (fun _ => False) 0 -> quiet sb s' ip.
Proof using.
  intros [I Hok T Hf] He.
  assert (forall bn, bs_view s' bn = bs_view s bn) as Hv by (intros bn; apply (e_view _ _ _ _ He); intros []).
  split; [apply He | by apply (fs_ok_same sb s) | | by intros bn Hbn; apply (e_free _ _ _ _ He), Hf].
  destruct T as [T1 T2 T3]. split; [done| |].
  - intros q Hq. rewrite (addr_at_ext s s'), (used_same sb s) by done. auto.
  - intros q q' Hq Hq'. rewrite !(addr_at_ext s s') by done. auto.
Qed.

(** A block of the tree below another one. *)
Lemma child_lookup s ip i l x :
  quiet sb s ip -> valid (i, l ++ [x]) -> 0 < bs_bufs s -> addr_at s ip (i, l ++ [x]) <> 0 ->
  addr_at s ip (i, l) <> 0 /\
  exists s', bmap_from_block sb (addr_at s ip (i, l)) (Z.of_nat x) (mk_fs s ip) =
      Ret (addr_at s ip (i, l ++ [x]), mk_fs s' ip) /\ eff s s' (fun _ => False) 0.
Proof using L.
  intros Q Hv Hb Hn. destruct (valid_snoc i l x Hv) as [Hv' Hx]. rewrite addr_at_snoc in Hn |- *. unfold child in *.
  destruct (Z.eqb_spec (addr_at s ip (i, l)) 0) as [E|E]; [done|]. split; [done|].
  destruct (t_range sb s ip (q_tree _ _ _ Q) (i, l) Hv' E) as [Hr _]. pose proof (data_start_pos sb L).
  apply from_block_lookup; try done; [apply Q|apply Q; lia|apply Q; lia].
Qed.

Lemma bmap_lookup s ip n :
  quiet sb s ip -> 0 <= n < VIMIXFS_MAX_FILE_SIZE_BLOCKS -> 0 < bs_bufs s -> file_block s ip n <> 0 ->
  exists s', bmap_get_block_address sb n (mk_fs s ip) = Ret (file_block s ip n, mk_fs s' ip) /\
    eff s s' (fun _ => False) 0.
Proof using L.
  intros Q Hn Hb Hnz. pose proof (file_place_valid n Hn) as Hv. pose proof (q_tree _ _ _ Q) as T.
  unfold file_block, bmap_get_block_address in *. unfold file_place in *.
  change VIMIXFS_N_DIRECT_BLOCKS with 20. change VIMIXFS_N_INDIRECT_BLOCKS with 256.
  change VIMIXFS_INDIRECT_BLOCK_IDX with (Z.of_nat 20). change VIMIXFS_DOUBLE_INDIRECT_BLOCK_IDX with (Z.of_nat 21).
  change VIMIXFS_MAX_FILE_SIZE_BLOCKS with 65812 in Hn. change (256 * 256) with 65536.
  destruct (Z.ltb_spec n 20) as [H1|H1].
  { exists s. split; [|apply eff_refl, Q]. rewrite (bind_run _ _ _ (addr_at s ip (Z.to_nat n, []), false) (mk_fs s ip)); [done|].
    unfold bmap_from_block_range. pose proof (load_inode_run sb s ip (Z.to_nat n) T ltac:(lia)) as Hload.
    rewrite Z2Nat.id in Hload by lia. rewrite (bind_run _ _ _ _ _ Hload). by rewrite (proj2 (Z.eqb_neq _ 0)). }
  destruct (Z.ltb_spec (n - 20) 256) as [H2|H2].
  { rewrite (proj2 (Z.ltb_lt n 276)) in * by lia.
    destruct (child_lookup s ip 20 [] (Z.to_nat (n - 20)) Q Hv Hb Hnz) as (Hp & s' & Hrun & He).
    rewrite Z2Nat.id in Hrun by lia. exists s'. split; [|done].
    by rewrite (bind_run _ _ _ _ _ (need_block_lookup s ip 20 T ltac:(lia) Hp)). }
  rewrite (proj2 (Z.ltb_ge n 276)) in * by lia. rewrite (proj2 (Z.ltb_lt (n - 20 - 256) 65536)) by lia.
  replace (n - 20 - 256) with (n - 276) by lia.
  pose proof (Z.div_pos (n - 276) 256 ltac:(lia) ltac:(lia)). pose proof (Z.mod_pos_bound (n - 276) 256 ltac:(lia)).
  set (x0 := Z.to_nat ((n - 276) / 256)) in *. set (x1 := Z.to_nat ((n - 276) mod 256)) in *.
  assert (Z.of_nat x0 = (n - 276) / 256) as Ex0 by (apply Z2Nat.id; lia).
  assert (Z.of_nat x1 = (n - 276) mod 256) as Ex1 by (apply Z2Nat.id; lia).
  change [x0; x1] with ([x0] ++ [x1]) in *.
  destruct (child_lookup s ip 21 [x0] x1 Q Hv Hb Hnz) as (Hp1 & _).
  destruct (child_lookup s ip 21 [] x0 Q ltac:(by apply (valid_snoc 21 [x0] x1)) Hb Hp1) as (Hp0 & s1 & Hrun1 & He1).
  assert (forall q, addr_at s1 ip q = addr_at s ip q) as Ha
    by (intros q; apply addr_at_ext; intros bn; apply (e_view _ _ _ _ He1); intros []).
  pose proof (e_bufs _ _ _ _ He1).
  destruct (child_lookup s1 ip 21 [x0] x1 (eff_quiet s s1 ip Q He1) Hv ltac:(lia) ltac:(by rewrite Ha)) as (_ & s2 & Hrun2 & He2).
  rewrite !Ha, Ex1 in Hrun2. rewrite Ex0 in Hrun1. exists s2. split; [|by apply (eff_same s s1)].
  rewrite (bind_run _ _ _ _ _ (need_block_lookup s ip 21 T ltac:(lia) Hp0)). cbv zeta. cbn [app] in Hrun1.
  by rewrite (bind_run _ _ _ _ _ Hrun1).
Qed.
End Lookup.

(** ** Reading a file *)

Section Read.
Context {St : Type} `{!BlockStore St} (sb : vimixfs_superblock) (L : layout sb).

(** The bytes of a file; a block that it does not have reads as zeros. *)
Definition file_byte (s : St) (ip : vimixfs_inode) (i : Z) : Z :=
  let a := file_block s ip (i / 1024) in
  if a =? 0 then 0 else default 0 (bs_view s a !! Z.to_nat (i mod 1024)).

Definition file_bytes (s : St) (ip : vimixfs_inode) (off n : Z) : list Z := map (file_byte s ip) (seqZ off n).

(** The file has all blocks from byte [off] to byte [off + n]. *)
Definition no_holes (s : St) (ip : vimixfs_inode) (off n : Z) : Prop :=
  forall i, off <= i < off + n -> file_block s ip (i / 1024) <> 0.

Lemma file_byte_same s s' ip i : eff s s' (fun _ => False) 0 -> file_byte s' ip i = file_byte s ip i.
Proof using.
  intros He. assert (forall bn, bs_view s' bn = bs_view s bn) as Hv by (intros bn; apply (e_view _ _ _ _ He); intros []).
  unfold file_byte, file_block. rewrite (addr_at_ext s s') by done. by rewrite Hv.
Qed.

Lemma no_holes_same s s' ip off n : eff s s' (fun _ => False) 0 -> no_holes s ip off n -> no_holes s' ip off n.
Proof using.
  intros He H i Hi. unfold file_block. rewrite (addr_at_ext s s'); [by apply H|].
  intros bn. apply (e_view _ _ _ _ He). intros [].
Qed.

Lemma file_bytes_app s ip off n m : 0 <= n -> 0 <= m -> file_bytes s ip off (n + m) = file_bytes s ip off n ++ file_bytes s ip (off + n) m.
Proof using.
  intros Hn Hm. unfold file_bytes. rewrite <- map_app, <- seqZ_app by done. done.
Qed.

(** The part of one block. *)
Lemma file_bytes_block s ip off m a :
  0 <= off -> 0 <= m -> off mod 1024 + m <= 1024 -> file_block s ip (off / 1024) = a -> a <> 0 -> is_block (bs_view s a) ->
  file_bytes s ip off m = take (Z.to_nat m) (drop (Z.to_nat (off mod 1024)) (bs_view s a)).
Proof using.
  intros Ho Hm Hle Ha Hn [Hl _]. pose proof (Z.mod_pos_bound off 1024 ltac:(lia)) as Hmod. pose proof (Z.div_mod off 1024 ltac:(lia)).
  unfold file_bytes. apply list_eq. intros j. rewrite list_lookup_fmap.
  destruct (decide (j < Z.to_nat m)%nat) as [Hj|Hj].
  - rewrite lookup_seqZ_lt by lia. cbn. unfold file_byte.
    assert ((off + Z.of_nat j) / 1024 = off / 1024) as -> by (symmetry; apply (Z.div_unique _ _ _ (off mod 1024 + Z.of_nat j)); lia).
    assert ((off + Z.of_nat j) mod 1024 = off mod 1024 + Z.of_nat j) as ->
      by (symmetry; apply (Z.mod_unique _ _ (off / 1024)); lia).
    rewrite Ha, (proj2 (Z.eqb_neq a 0)) by done. rewrite lookup_take_lt, lookup_drop by done.
    rewrite Z2Nat.inj_add, Nat2Z.id by lia. destruct (lookup_lt_is_Some_2 (bs_view s a) (Z.to_nat (off mod 1024) + j)) as [x Hx]; [lia|].
    by rewrite Hx.
  - rewrite lookup_seqZ_ge by lia. symmetry. apply lookup_ge_None. rewrite length_take. lia.
Qed.

(** How many blocks [k] bytes from [off] on touch. *)
Definition chunks (off k : Z) : Z := if k =? 0 then 0 else (off mod 1024 + k + 1023) / 1024.

Lemma chunk_step off k m :
  0 <= off -> m = Z.min k (1024 - off mod 1024) -> 0 < k ->
  0 < m <= k /\ off mod 1024 + m <= 1024 /\ chunks (off + m) (k - m) = chunks off k - 1.
Proof using.
  intros Ho -> Hk. pose proof (Z.mod_pos_bound off 1024 ltac:(lia)). pose proof (Z.div_mod off 1024 ltac:(lia)).
  split; [lia|]. split; [lia|]. unfold chunks. rewrite (proj2 (Z.eqb_neq k 0)) by lia.
  destruct (Z.le_gt_cases k (1024 - off mod 1024)) as [Hle|Hgt].
  - rewrite Z.min_l by lia. rewrite Z.sub_diag. cbn.
    assert ((off mod 1024 + k + 1023) / 1024 = 1) as ->; [|done].
    symmetry. apply (Z.div_unique _ _ _ (off mod 1024 + k - 1)); lia.
  - rewrite Z.min_r by lia. rewrite (proj2 (Z.eqb_neq _ 0)) by lia.
    assert ((off + (1024 - off mod 1024)) mod 1024 = 0) as -> by (symmetry; apply (Z.mod_unique _ _ (off / 1024 + 1)); lia).
    replace (off mod 1024 + k + 1023) with ((0 + (k - (1024 - off mod 1024)) + 1023) + 1 * 1024) by lia.
    rewrite Z.div_add by lia. lia.
Qed.

Lemma chunks_fuel off n : 0 <= off -> 0 <= n -> chunks off n < Z.of_nat (rw_fuel n).
Proof using.
  intros Ho Hn. unfold chunks, rw_fuel. change BLOCK_SIZE with 1024. pose proof (Z.div_pos n 1024 ltac:(lia) ltac:(lia)).
  pose proof (Z.mod_pos_bound off 1024 ltac:(lia)). destruct (Z.eqb_spec n 0); [lia|].
  rewrite Z2Nat.id by lia. pose proof (Z.div_mod n 1024 ltac:(lia)). pose proof (Z.mod_pos_bound n 1024 ltac:(lia)).
  apply Z.div_lt_upper_bound; lia.
Qed.

Lemma chunks_pos off k : 0 <= off -> 0 <= k -> 0 <= chunks off k.
Proof using.
  intros Ho Hk. unfold chunks. destruct (k =? 0); [done|]. pose proof (Z.mod_pos_bound off 1024 ltac:(lia)). apply Z.div_pos; lia.
Qed.

Lemma forallb_seqZ_app (f : Z -> bool) a n m :
  0 <= n -> 0 <= m -> forallb f (seqZ a (n + m)) = (forallb f (seqZ a n) && forallb f (seqZ (a + n) m))%bool.
Proof using. intros Hn Hm. rewrite seqZ_app by done. apply forallb_app. Qed.

Lemma block_number_ok off : 0 <= off < VIMIXFS_MAX_FILE_SIZE_BLOCKS * 1024 ->
  u32 (off / BLOCK_SIZE) = off / 1024 /\ 0 <= off / 1024 < VIMIXFS_MAX_FILE_SIZE_BLOCKS.
Proof using.
  change BLOCK_SIZE with 1024. change VIMIXFS_MAX_FILE_SIZE_BLOCKS with 65812. intros Ho.
  pose proof (Z.div_pos off 1024 ltac:(lia) ltac:(lia)). pose proof (Z.div_lt_upper_bound off 1024 65812 ltac:(lia) ltac:(lia)).
  split; [|lia]. apply uwrap_id. unfold is_u. lia.
Qed.

Lemma iops_read_loop_run target n ip : forall fuel s off dst tot out,
  quiet sb s ip -> 0 < bs_bufs s -> 0 <= off -> 0 <= tot <= n -> off + (n - tot) <= VIMIXFS_MAX_FILE_SIZE_BLOCKS * 1024 ->
  no_holes s ip off (n - tot) -> chunks off (n - tot) < Z.of_nat fuel ->
  exists r s', iops_read_loop sb fuel target off dst n tot out (mk_fs s ip) = Ret (r, mk_fs s' ip) /\
    eff s s' (fun _ => False) 0 /\
    if forallb target (seqZ dst (n - tot)) then r = (n, out ++ file_bytes s ip off (n - tot)) else fst r = -1.
Proof using L.
  induction fuel as [|fuel IH]; intros s off dst tot out Q Hb Ho Ht Hmax Hnh Hf.
  { pose proof (chunks_pos off (n - tot) Ho ltac:(lia)). lia. }
  cbn [iops_read_loop]. destruct (Z.ltb_spec tot n) as [Hlt|Hge].
  2:{ exists (tot, out), s. split; [done|]. split; [apply eff_refl, Q|]. assert (n - tot = 0) as -> by lia.
      cbn. replace tot with n by lia. by rewrite app_nil_r. }
  destruct (block_number_ok off ltac:(lia)) as [-> Hbn]. pose proof (Hnh off ltac:(lia)) as Hnz.
  destruct (bmap_lookup sb L s ip (off / 1024) Q Hbn Hb Hnz) as (s1 & Hrun1 & He1). set (a := file_block s ip (off / 1024)) in *.
  rewrite (bind_run _ _ _ _ _ Hrun1), (proj2 (Z.eqb_neq a 0)) by done.
  pose proof (eff_quiet sb s s1 ip Q He1) as Q1. pose proof (e_bufs _ _ _ _ He1).
  destruct (t_range sb s ip (q_tree _ _ _ Q) (file_place (off / 1024)) (file_place_valid _ Hbn) Hnz) as [Hra _].
  fold (file_block s ip (off / 1024)) in Hra. fold a in Hra. pose proof (data_start_pos sb L).
  assert (is_block (bs_view s a)) as Hblk by (apply Q; lia).
  destruct (read_run s1 a (q_inv _ _ _ Q1) (q_free _ _ _ Q1 a ltac:(lia)) ltac:(lia)) as (bp & s2 & Hread & I2 & Hh & Hv & _).
  destruct (read_release_run s1 s2 bp a (q_inv _ _ _ Q1) (q_free _ _ _ Q1 a ltac:(lia)) ltac:(lia) Hread) as (s3 & Hrel & He3).
  rewrite (bind_run _ _ _ bp (mk_fs s2 ip)) by (by apply on_store_run).
  assert (bs_view s1 a = bs_view s a) as Hv1 by (apply (e_view _ _ _ _ He1); intros []).
  rewrite (bind_run _ _ _ (bs_view s a) (mk_fs s2 ip))
    by (apply on_store_run; rewrite <- Hv1, <- Hv; by apply (bs_data_run s2 bp a true)).
  change BLOCK_SIZE with 1024. cbv zeta. destruct (chunk_step off (n - tot) _ Ho eq_refl ltac:(lia)) as (Hm & Hend & Hch).
  set (m := Z.min (n - tot) (1024 - off mod 1024)) in *.
  pose proof (eff_same s s1 s3 _ _ He1 He3) as He.
  replace (n - tot) with (m + (n - (tot + m))) by lia. rewrite forallb_seqZ_app by lia.
  destruct (forallb target (seqZ dst m)) eqn:Em; cbn [andb].
  - rewrite (bind_run _ _ _ tt (mk_fs s3 ip)) by (by apply on_store_run). pose proof (e_bufs _ _ _ _ He).
    destruct (IH s3 (off + m) (dst + m) (tot + m) (out ++ take (Z.to_nat m) (drop (Z.to_nat (off mod 1024)) (bs_view s a))))
      as (r & s' & Hrun & He' & Hres); [by apply (eff_quiet sb s)|lia..| | |].
    + apply (no_holes_same s s3); [done|]. intros i Hi. apply Hnh. lia.
    + replace (n - (tot + m)) with (n - tot - m) by lia. lia.
    + exists r, s'. split; [done|]. split; [by apply (eff_same s s3)|].
      destruct (forallb target (seqZ (dst + m) (n - (tot + m)))); [|done]. rewrite Hres. f_equal.
      rewrite file_bytes_app by lia. rewrite app_assoc. f_equal.
      * f_equal. symmetry. apply file_bytes_block; try done; lia.
      * unfold file_bytes. apply map_ext. intros i. by apply file_byte_same.
  - rewrite (bind_run _ _ _ tt (mk_fs s3 ip)) by (by apply on_store_run). eexists _, s3. split; [done|]. by split.
Qed.
End Read.
