(* ===== verification/FileData.v ===== *)
(** * File contents (kernel/fs/vimixfs/vimixfs.c)

    [vimixfs_iops_read] and [vimixfs_write] on the array of bytes that a file is.  The
    operations are defined in [Inode]. *)
From stdpp Require Import list.
From S2P Require Import Prelude Bytes Bio Log LogCommit Txn Bmap Inode.

Section Write.
Context {St : Type} `{!BlockStore St} (sb : vimixfs_superblock) (L : layout sb).

(** ** Writes that keep the tree *)

Lemma file_place_leaf n i l : file_place n = (i, l) -> 0 <= n -> length l = levels i.
Proof using.
  unfold file_place, levels. intros E Hn. destruct (Z.ltb_spec n 20); [|destruct (n <? 276)]; injection E as <- <-; cbn.
  - by rewrite decide_True by lia.
  - done.
  - done.
Qed.

(** A block of a file is not an index block. *)
Lemma file_block_not_index s ip n :
  tree_ok sb s ip -> 0 <= n < VIMIXFS_MAX_FILE_SIZE_BLOCKS -> file_block s ip n <> 0 -> ~ is_index s ip (file_block s ip n).
Proof using.
  intros T Hn Hnz (i & l & Hv & Hl & E). pose proof (file_place_valid n Hn) as Hv'.
  assert (file_place n = (i, l)) as Ep by (apply (t_inj sb s ip T); [done|done|by rewrite E|done]).
  apply file_place_leaf in Ep; lia.
Qed.

Lemma file_block_range s ip n :
  tree_ok sb s ip -> 0 <= n < VIMIXFS_MAX_FILE_SIZE_BLOCKS -> file_block s ip n <> 0 ->
  0 < file_block s ip n < sb_size sb /\ data_start sb <= file_block s ip n /\ used sb s (file_block s ip n) = true.
Proof using L.
  intros T Hn Hnz. destruct (t_range sb s ip T (file_place n) (file_place_valid n Hn) Hnz) as [Hr Hu].
  pose proof (data_start_pos sb L). unfold file_block. split; [lia|]. split; [lia|done].
Qed.

(** Neither the bitmap nor an index block was written. *)
Record data_only (s : St) (ip : vimixfs_inode) (s' : St) : Prop := {
  d_quiet : quiet sb s' ip;
  d_addr p : valid p -> addr_at s' ip p = addr_at s ip p;
  d_used b : 0 <= b < sb_size sb -> used sb s' b = used sb s b
}.

Lemma eff_data s ip s' W k :
  quiet sb s ip -> eff s s' W k -> (forall bn, W bn -> ~ is_bitmap sb bn /\ ~ is_index s ip bn) ->
  (forall bn, W bn -> is_block (bs_view s' bn)) -> (forall bn, W bn \/ ~ W bn) -> data_only s ip s'.
Proof using L.
  intros [I Hok T Hf] He HW Hblk Hdec.
  assert (forall p, valid p -> addr_at s' ip p = addr_at s ip p) as Ha.
  { intros [i l]. induction l as [|x l IH] using rev_ind; intros Hv; [done|]. destruct (valid_snoc i l x Hv) as [Hv' Hx].
    rewrite !addr_at_snoc, (IH Hv'). unfold child. destruct (_ =? 0); [done|]. rewrite (e_view _ _ _ _ He); [done|].
    intros Hw. apply (HW _ Hw). exists i, l. split; [done|]. split; [|done].
    destruct Hv as (_ & Hlen & _). cbn in Hlen. rewrite length_app in Hlen. cbn in Hlen. lia. }
  assert (forall b, 0 <= b < sb_size sb -> used sb s' b = used sb s b) as Hu.
  { intros b Hb. unfold used. rewrite (e_view _ _ _ _ He); [done|]. intros Hw. by apply (proj1 (HW _ Hw)), (block_of_bit sb L b Hb). }
  split; [|done|done]. split; [apply He| | |].
  - destruct Hok as [F1 F2]. split.
    + intros bn Hbn. destruct (Hdec bn) as [Hw|Hw]; [auto|]. rewrite (e_view _ _ _ _ He) by done. auto.
    + intros b Hb. rewrite Hu; [auto|]. destruct L as [_ _ ?]. lia.
  - destruct T as [T1 T2 T3]. split; [done| |].
    + intros p Hp. rewrite Ha by done. intros Hn. destruct (T2 p Hp Hn) as [? ?]. split; [done|].
      pose proof (data_start_pos sb L). by rewrite Hu by lia.
    + intros p q Hp Hq. rewrite !Ha by done. auto.
  - intros bn Hbn. by apply (e_free _ _ _ _ He), Hf.
Qed.

Lemma data_only_index s ip s' bn : data_only s ip s' -> is_index s' ip bn <-> is_index s ip bn.
Proof using.
  intros D. split; intros (i & l & Hv & Hl & E); exists i, l; (split; [done|split; [done|]]);
    [by rewrite <- (d_addr _ _ _ D) | by rewrite (d_addr _ _ _ D)].
Qed.

(** ** The effect of a write on the file

    [bytes] were written at [off]: the byte array was updated there, the blocks that
    the file had stay, and no other block in use changed. *)
Record wrote (s : St) (ip : vimixfs_inode) (off : Z) (bytes : list Z) (s' : St) (ip' : vimixfs_inode) : Prop := {
  w_quiet : quiet sb s' ip';
  w_meta : ip' = set_addrs (addrs ip') ip;
  w_bytes i : 0 <= i < VIMIXFS_MAX_FILE_SIZE_BLOCKS * 1024 ->
    file_byte s' ip' i =
    if decide (off <= i < off + Z.of_nat (length bytes)) then default 0 (bytes !! Z.to_nat (i - off)) else file_byte s ip i;
  w_blocks : no_holes s' ip' off (Z.of_nat (length bytes));
  w_kept b : 0 <= b < VIMIXFS_MAX_FILE_SIZE_BLOCKS -> file_block s ip b <> 0 -> file_block s' ip' b = file_block s ip b;
  w_new b : 0 <= b < VIMIXFS_MAX_FILE_SIZE_BLOCKS -> file_block s ip b = 0 -> file_block s' ip' b <> 0 ->
    used sb s (file_block s' ip' b) = false;
  w_used b : 0 <= b < sb_size sb -> used sb s b = true -> used sb s' b = true;
  w_index bn : 0 < bn < sb_size sb -> used sb s bn = true -> is_index s' ip' bn -> is_index s ip bn;
  w_view bn : 0 < bn < sb_size sb -> used sb s bn = true -> ~ is_bitmap sb bn -> ~ is_index s ip bn ->
    (forall i, off <= i < off + Z.of_nat (length bytes) -> file_block s ip (i / 1024) <> bn) ->
    bs_view s' bn = bs_view s bn
}.

Lemma block_of_byte i : 0 <= i < VIMIXFS_MAX_FILE_SIZE_BLOCKS * 1024 -> 0 <= i / 1024 < VIMIXFS_MAX_FILE_SIZE_BLOCKS.
Proof using. intros Hi. by apply block_number_ok. Qed.

Lemma wrote_app s ip off b1 s1 ip1 b2 s2 ip2 :
  0 <= off -> off + Z.of_nat (length b1 + length b2) <= VIMIXFS_MAX_FILE_SIZE_BLOCKS * 1024 ->
  wrote s ip off b1 s1 ip1 -> wrote s1 ip1 (off + Z.of_nat (length b1)) b2 s2 ip2 -> wrote s ip off (b1 ++ b2) s2 ip2.
Proof using L.
  intros Ho Hmax W1 W2. pose proof (q_tree _ _ _ (w_quiet _ _ _ _ _ _ W1)) as T1.
  pose proof (q_tree _ _ _ (w_quiet _ _ _ _ _ _ W2)) as T2.
  split; rewrite ?length_app, ?Nat2Z.inj_add; [apply W2|..].
  - rewrite (w_meta _ _ _ _ _ _ W2), (w_meta _ _ _ _ _ _ W1). by destruct ip.
  - intros i Hi. rewrite (w_bytes _ _ _ _ _ _ W2), (w_bytes _ _ _ _ _ _ W1) by done.
    repeat case_decide; try lia; try done.
    + rewrite lookup_app_r by lia. do 2 f_equal. lia.
    + by rewrite lookup_app_l by lia.
  - intros i Hi. destruct (decide (i < off + Z.of_nat (length b1))) as [H1|H1].
    + pose proof (w_blocks _ _ _ _ _ _ W1 i ltac:(lia)) as Hn. by rewrite (w_kept _ _ _ _ _ _ W2) by (done || apply block_of_byte; lia).
    + apply (w_blocks _ _ _ _ _ _ W2). lia.
  - intros b Hb Hn. pose proof (w_kept _ _ _ _ _ _ W1 b Hb Hn) as E. rewrite <- E in Hn |- *. by apply W2.
  - intros b Hb E0 Hn. destruct (decide (file_block s1 ip1 b = 0)) as [E|E].
    + pose proof (w_new _ _ _ _ _ _ W2 b Hb E Hn) as Hu. destruct (used sb s (file_block s2 ip2 b)) eqn:Eu; [|done].
      destruct (file_block_range s2 ip2 b T2 Hb Hn) as [Hr _]. apply (w_used _ _ _ _ _ _ W1) in Eu; [congruence|lia].
    + rewrite (w_kept _ _ _ _ _ _ W2) in * by done. by apply W1.
  - intros b Hb Hu. by apply (w_used _ _ _ _ _ _ W2), (w_used _ _ _ _ _ _ W1).
  - intros bn Hb Hu Hi. apply (w_index _ _ _ _ _ _ W1); [done|done|].
    apply (w_index _ _ _ _ _ _ W2); [done| |done]. apply (w_used _ _ _ _ _ _ W1); [lia|done].
  - intros bn Hb Hu Hnb Hni Hout. rewrite (w_view _ _ _ _ _ _ W2), (w_view _ _ _ _ _ _ W1); try done.
    + intros i Hi. apply Hout. lia.
    + apply (w_used _ _ _ _ _ _ W1); [lia|done].
    + intros Hi. by apply Hni, (w_index _ _ _ _ _ _ W1).
    + intros i Hi. assert (0 <= i / 1024 < VIMIXFS_MAX_FILE_SIZE_BLOCKS) as Hb' by (apply block_of_byte; lia).
      destruct (decide (file_block s ip (i / 1024) = 0)) as [E|E].
      * destruct (decide (file_block s1 ip1 (i / 1024) = 0)) as [E'|E']; [lia|]. intros <-.
        pose proof (w_new _ _ _ _ _ _ W1 _ Hb' E E'). congruence.
      * rewrite (w_kept _ _ _ _ _ _ W1) by done. apply Hout. lia.
Qed.

(** Adding a block writes no byte: the new block is cleared. *)
Lemma wrote_mapped s ip off n a s' ip' :
  quiet sb s ip -> 0 <= n < VIMIXFS_MAX_FILE_SIZE_BLOCKS -> mapped sb s ip n a s' ip' -> wrote s ip off [] s' ip'.
Proof using L.
  intros Q Hn M. pose proof (q_tree _ _ _ Q) as T. cbn [length]. split; try apply M; cbn [length].
  - intros i Hi. rewrite decide_False by lia. unfold file_byte. pose proof (block_of_byte i Hi) as Hb.
    destruct (decide (i / 1024 = n)) as [E|E].
    + rewrite E. destruct (decide (file_block s ip n = 0)) as [Ez|Ez].
      * rewrite Ez. cbn. destruct (m_new _ _ _ _ _ _ _ M Ez) as [[-> _]|(Hnz & _ & Hz & _)]; rewrite (m_addr _ _ _ _ _ _ _ M); [done|].
        rewrite (proj2 (Z.eqb_neq a 0)), Hz by done. unfold zero_block.
        rewrite lookup_replicate_2; [done|]. change (Z.to_nat BLOCK_SIZE) with 1024%nat. pose proof (Z.mod_pos_bound i 1024). lia.
      * destruct (m_old _ _ _ _ _ _ _ M Ez) as [-> Hv]. unfold file_block. rewrite (addr_at_ext s s') by done. by rewrite Hv.
    + rewrite (m_other _ _ _ _ _ _ _ M) by done. destruct (Z.eqb_spec (file_block s ip (i / 1024)) 0) as [Ez|Ez]; [done|].
      destruct (file_block_range s ip _ T Hb Ez) as (Hr & Hd & Hu). rewrite (m_view _ _ _ _ _ _ _ M); [done|lia|done| |by apply file_block_not_index].
      unfold is_bitmap. lia.
  - intros i Hi. lia.
  - intros b Hb Hnz. destruct (decide (b = n)) as [->|Hne]; [|by apply M].
    destruct (m_old _ _ _ _ _ _ _ M Hnz) as [-> Hv]. unfold file_block. by apply addr_at_ext.
  - intros b Hb E0 Hnz. destruct (decide (b = n)) as [->|Hne]; [|by rewrite (m_other _ _ _ _ _ _ _ M) in Hnz].
    rewrite (m_addr _ _ _ _ _ _ _ M) in *. destruct (m_new _ _ _ _ _ _ _ M E0) as [[? _]|(_ & ? & _)]; done.
  - intros bn Hb Hu Hnb Hni _. apply (m_view _ _ _ _ _ _ _ M); [lia|done..].
Qed.

(** Data written into a block of the file. *)
Lemma splice_lookup d o bytes j : (o + length bytes <= length d)%nat ->
  splice d o bytes !! j = if decide (o <= j < o + length bytes)%nat then bytes !! (j - o)%nat else d !! j.
Proof using.
  intros Hl. unfold splice. case_decide as H.
  - rewrite lookup_app_r by (rewrite length_take; lia). rewrite length_take, lookup_app_l by lia. f_equal. lia.
  - destruct (decide (j < o)%nat) as [Hj|Hj].
    + rewrite lookup_app_l by (rewrite length_take; lia). by rewrite lookup_take_lt.
    + rewrite lookup_app_r by (rewrite length_take; lia). rewrite lookup_app_r by (rewrite length_take; lia).
      rewrite lookup_drop, length_take. f_equal. lia.
Qed.

Lemma splice_is_block d o bytes : is_block d -> (o + length bytes <= 1024)%nat -> Forall (is_u 8) bytes -> is_block (splice d o bytes).
Proof using.
  intros [Hl Hf] Ho Hb. unfold splice. split.
  - rewrite !length_app, length_take, length_drop. lia.
  - apply Forall_app. split; [by apply Forall_take|]. apply Forall_app. split; [done|by apply Forall_drop].
Qed.

Lemma wrote_data s ip off bytes s' :
  quiet sb s ip -> 0 <= off -> off < VIMIXFS_MAX_FILE_SIZE_BLOCKS * 1024 ->
  0 < Z.of_nat (length bytes) <= 1024 - off mod 1024 ->
  Forall (is_u 8) bytes -> file_block s ip (off / 1024) <> 0 ->
  eff s s' (fun b => b = file_block s ip (off / 1024)) 1 ->
  bs_view s' (file_block s ip (off / 1024)) = splice (bs_view s (file_block s ip (off / 1024))) (Z.to_nat (off mod 1024)) bytes ->
  wrote s ip off bytes s' ip.
Proof using L.
  intros Q Ho Hmax Hend Hby Hnz He Hv. assert (0 <= off / 1024 < VIMIXFS_MAX_FILE_SIZE_BLOCKS) as Hb by (apply block_of_byte; lia).
  pose proof (q_tree _ _ _ Q) as T. set (a := file_block s ip (off / 1024)) in *.
  destruct (file_block_range s ip _ T Hb Hnz) as (Hr & Hd & Hu). fold a in Hr, Hd, Hu.
  pose proof (Z.mod_pos_bound off 1024 ltac:(lia)). pose proof (Z.div_mod off 1024 ltac:(lia)).
  assert (is_block (bs_view s a)) as Hblk by (apply Q; lia).
  assert (data_only s ip s') as D.
  { apply (eff_data s ip s' _ 1 Q He).
    - intros bn ->. split; [unfold is_bitmap; lia|by apply file_block_not_index].
    - intros bn ->. rewrite Hv. apply splice_is_block; [done|lia|done].
    - intros bn. destruct (decide (bn = a)); auto. }
  assert (forall b, 0 <= b < VIMIXFS_MAX_FILE_SIZE_BLOCKS -> file_block s' ip b = file_block s ip b) as Hfb
    by (intros b Hb'; by apply (d_addr _ _ _ D), file_place_valid).
  split.
  - apply D.
  - by rewrite set_addrs_id.
  - intros i Hi. pose proof (block_of_byte i Hi) as Hib. unfold file_byte. rewrite Hfb by done.
    pose proof (Z.mod_pos_bound i 1024 ltac:(lia)). pose proof (Z.div_mod i 1024 ltac:(lia)).
    destruct (decide (i / 1024 = off / 1024)) as [E|E].
    + rewrite E. fold a. rewrite (proj2 (Z.eqb_neq a 0)), Hv, splice_lookup by (done || destruct Hblk; lia).
      destruct (decide (off <= i < off + Z.of_nat (length bytes))) as [Hin|Hin]; [|by rewrite decide_False by lia].
      rewrite decide_True by lia.
      replace (Z.to_nat (i mod 1024) - Z.to_nat (off mod 1024))%nat with (Z.to_nat (i - off)) by lia. done.
    + rewrite decide_False by (intros ?; apply E; symmetry; apply (Z.div_unique _ _ _ (off mod 1024 + (i - off))); lia).
      destruct (Z.eqb_spec (file_block s ip (i / 1024)) 0) as [Ez|Ez]; [done|]. rewrite (e_view _ _ _ _ He); [done|].
      unfold a, file_block. intros Ea. apply E. apply file_place_inj; [lia..|].
      apply (t_inj sb s ip T); [by apply file_place_valid..|done|done].
  - intros i Hi. rewrite Hfb by (apply block_of_byte; nia). 
    assert (i / 1024 = off / 1024) as ->; [|done]. symmetry. apply (Z.div_unique _ _ _ (off mod 1024 + (i - off))); lia.
  - intros b Hb' _. by apply Hfb.
  - intros b Hb' E0. by rewrite Hfb.
  - intros b Hb' Hub. by rewrite (d_used _ _ _ D).
  - intros bn _ _. apply (proj1 (data_only_index s ip s' bn D)).
  - intros bn Hbn Hub Hnb Hni Hout. apply (e_view _ _ _ _ He). intros ->.
    apply (Hout off); [lia|done].
Qed.

(** ** The loop *)

Lemma readable_app source src m k :
  length (readable source src m) = m -> readable source src (m + k) = readable source src m ++ readable source (src + Z.of_nat m) k.
Proof using.
  revert src. induction m as [|m IH]; intros src H; cbn [readable Nat.add app].
  { f_equal. lia. }
  cbn [readable] in H. destruct (source src) as [b|]; [|done]. cbn in H. rewrite IH by lia. cbn. do 3 f_equal. lia.
Qed.

Lemma readable_length source src m : (length (readable source src m) <= m)%nat.
Proof using.
  revert src. induction m as [|m IH]; intros src; cbn [readable length]; [lia|].
  destruct (source src); cbn; [|lia]. pose proof (IH (src + 1)). lia.
Qed.

Lemma readable_prefix source src m k : length (readable source src (m + k)) = (m + k)%nat -> length (readable source src m) = m.
Proof using.
  revert src. induction m as [|m IH]; intros src H; cbn [readable Nat.add length] in *; [done|].
  destruct (source src) as [b|]; cbn in *; [|done]. f_equal. apply IH. lia.
Qed.

(** The blocks a write logs: one for a block that the file has, and at most eight to add
    one. *)
Definition block_cost (s : St) (ip : vimixfs_inode) (b : Z) : Z := if file_block s ip b =? 0 then 8 else 1.

Definition write_cost (s : St) (ip : vimixfs_inode) (off k : Z) : Z :=
  foldr (fun b c => block_cost s ip b + c) 0 (seqZ (off / 1024) (chunks off k)).

Lemma write_cost_step s ip off k m :
  0 <= off -> m = Z.min k (1024 - off mod 1024) -> 0 < k ->
  write_cost s ip off k = block_cost s ip (off / 1024) + write_cost s ip (off + m) (k - m).
Proof using.
  intros Ho Em Hk. destruct (chunk_step off k m Ho Em Hk) as (Hm & Hend & Hch).
  pose proof (Z.mod_pos_bound off 1024 ltac:(lia)). pose proof (Z.div_mod off 1024 ltac:(lia)).
  pose proof (chunks_pos (off + m) (k - m) ltac:(lia) ltac:(lia)). unfold write_cost. rewrite (seqZ_cons (off / 1024) (chunks off k)) by lia.
  cbn. f_equal. rewrite <- Z.sub_1_r, <- Hch. destruct (decide (k - m = 0)) as [E|E].
  - by rewrite E.
  - assert ((off + m) / 1024 = Z.succ (off / 1024)) as ->; [|done]. symmetry. apply (Z.div_unique _ _ _ 0); lia.
Qed.

Lemma write_cost_mono s ip off bytes s' ip' : wrote s ip off bytes s' ip' -> forall o k,
  0 <= o -> 0 <= k -> o + k <= VIMIXFS_MAX_FILE_SIZE_BLOCKS * 1024 -> write_cost s' ip' o k <= write_cost s ip o k.
Proof using.
  intros W o k Ho Hk Hmax. unfold write_cost.
  assert (Forall (fun b => 0 <= b < VIMIXFS_MAX_FILE_SIZE_BLOCKS) (seqZ (o / 1024) (chunks o k))) as H.
  { apply Forall_forall. intros b [Hb1 Hb2]%elem_of_seqZ. change VIMIXFS_MAX_FILE_SIZE_BLOCKS with 65812 in *.
    pose proof (Z.div_pos o 1024 ltac:(lia) ltac:(lia)). split; [lia|]. revert Hb2. unfold chunks. destruct (Z.eqb_spec k 0); [lia|].
    pose proof (Z.div_mod o 1024 ltac:(lia)). intros Hb2. rewrite Z.add_comm, <- Z.div_add in Hb2 by lia.
    replace (o mod 1024 + k + 1023 + o / 1024 * 1024) with (o + k + 1023) in Hb2 by lia.
    pose proof (Z.div_lt_upper_bound (o + k + 1023) 1024 65813 ltac:(lia) ltac:(lia)). lia. }
  induction H as [|b bs Hb _ IH]; cbn; [lia|]. unfold block_cost at 1 3.
  destruct (Z.eqb_spec (file_block s ip b) 0) as [E|E].
  - destruct (_ =? 0); lia.
  - rewrite (w_kept _ _ _ _ _ _ W b Hb E), (proj2 (Z.eqb_neq _ 0)) by done. lia.
Qed.

(** A block that the file has costs nothing to look up. *)
Lemma bmap_cost_run s ip n :
  quiet sb s ip -> 0 <= n < VIMIXFS_MAX_FILE_SIZE_BLOCKS -> block_cost s ip n <= bs_room s -> block_cost s ip n <= bs_bufs s ->
  exists a s' ip', bmap_get_block_address sb n (mk_fs s ip) = Ret (a, mk_fs s' ip') /\ mapped sb s ip n a s' ip' /\
    bs_room s - (if file_block s ip n =? 0 then 8 else 0) <= bs_room s' /\ bs_bufs s - (if file_block s ip n =? 0 then 8 else 0) <= bs_bufs s'.
Proof using L.
  unfold block_cost. intros Q Hn Hr Hb. destruct (Z.eqb_spec (file_block s ip n) 0) as [E|E].
  - destruct (bmap_run sb L s ip n Q Hn ltac:(lia) ltac:(lia)) as (a & s' & ip' & Hrun & M).
    exists a, s', ip'. pose proof (m_room _ _ _ _ _ _ _ M). pose proof (m_bufs _ _ _ _ _ _ _ M). split; [done|]. split; [done|]. lia.
  - destruct (bmap_lookup sb L s ip n Q Hn ltac:(lia) E) as (s' & Hrun & He). exists (file_block s ip n), s', ip.
    pose proof (e_room _ _ _ _ He). pose proof (e_bufs _ _ _ _ He).
    assert (forall bn, bs_view s' bn = bs_view s bn) as Hv by (intros bn; apply (e_view _ _ _ _ He); intros []).
    assert (forall p, addr_at s' ip p = addr_at s ip p) as Ha by (intros p; by apply addr_at_ext).
    split; [done|]. split; [|lia]. split; try done; try lia.
    + by apply (eff_quiet sb s).
    + by rewrite set_addrs_id.
    + unfold file_block. by rewrite Ha.
    + intros m _ _. unfold file_block. by rewrite Ha.
    + intros bn _ _ (i & l & Hvl & Hl & El). exists i, l. by rewrite <- Ha.
    + intros b _. by rewrite (used_same sb s s').
Qed.

Abbreviation max_size := (VIMIXFS_MAX_FILE_SIZE_BLOCKS * 1024).

(** One iteration that finds or adds a block. *)
Lemma write_chunk_run s ip off bytes :
  quiet sb s ip -> 0 <= off < max_size -> 0 < Z.of_nat (length bytes) <= 1024 - off mod 1024 -> Forall (is_u 8) bytes ->
  block_cost s ip (off / 1024) < bs_room s -> block_cost s ip (off / 1024) < bs_bufs s ->
  exists a s1 ip', bmap_get_block_address sb (off / 1024) (mk_fs s ip) = Ret (a, mk_fs s1 ip') /\
    if a =? 0 then wrote s ip off [] s1 ip' /\ full sb s1 /\ bs_room s - 5 <= bs_room s1 /\
      bs_room s - block_cost s ip (off / 1024) <= bs_room s1 /\ bs_bufs s - block_cost s ip (off / 1024) <= bs_bufs s1
    else exists bp s2 s3 s4 s5, bs_read a s1 = Ret (bp, s2) /\ bs_data bp s2 = Ret (bs_view s2 a, s2) /\
      bs_set bp (splice (bs_view s2 a) (Z.to_nat (off mod 1024)) bytes) s2 = Ret (tt, s3) /\
      bs_log bp s3 = Ret (tt, s4) /\ bs_release bp s4 = Ret (tt, s5) /\ wrote s ip off bytes s5 ip' /\
      bs_room s - block_cost s ip (off / 1024) <= bs_room s5 /\ bs_bufs s - block_cost s ip (off / 1024) <= bs_bufs s5.
Proof using L.
  intros Q Ho Hlen Hby Hr Hb. pose proof (block_of_byte off Ho) as Hn.
  destruct (bmap_cost_run s ip _ Q Hn ltac:(lia) ltac:(lia)) as (a & s1 & ip' & Hrun & M & Hr1 & Hb1). exists a, s1, ip'. split; [done|].
  unfold block_cost in *.
  pose proof (wrote_mapped s ip off _ a s1 ip' Q Hn M) as W1. destruct (Z.eqb_spec a 0) as [->|Ha].
  - split; [done|]. destruct (decide (file_block s ip (off / 1024) = 0)) as [E|E].
    + destruct (m_new _ _ _ _ _ _ _ M E) as [(_ & Hf & Hr5)|[? _]]; [|done]. split; [done|]. split; [done|]. destruct (_ =? 0); lia.
    + pose proof (m_addr _ _ _ _ _ _ _ M) as Ea. by rewrite (w_kept _ _ _ _ _ _ W1) in Ea by done.
  - pose proof (m_quiet _ _ _ _ _ _ _ M) as Q1. pose proof (m_addr _ _ _ _ _ _ _ M) as Ea.
    destruct (file_block_range s1 ip' _ (q_tree _ _ _ Q1) Hn ltac:(by rewrite Ea)) as (Hra & _). rewrite Ea in Hra.
    assert (0 < bs_room s1 /\ 0 < bs_bufs s1) as [Hr0 Hb0] by (destruct (_ =? 0); lia).
    destruct (read_run s1 a (q_inv _ _ _ Q1) (q_free _ _ _ Q1 a ltac:(lia)) ltac:(lia)) as (bp & s2 & Hread & I2 & Hh & Hv & _).
    destruct (write_back_run s1 s2 bp a (splice (bs_view s2 a) (Z.to_nat (off mod 1024)) bytes) (q_inv _ _ _ Q1)
      (q_free _ _ _ Q1 a ltac:(lia)) ltac:(lia) ltac:(lia) Hread) as (s3 & s4 & s5 & E3 & E4 & E5 & He & Hv5 & _ & Hagain).
    pose proof (e_room _ _ _ _ He). pose proof (e_bufs _ _ _ _ He).
    assert (bs_room s - (if file_block s ip (off / 1024) =? 0 then 8 else 1) <= bs_room s5 /\
      bs_bufs s - (if file_block s ip (off / 1024) =? 0 then 8 else 1) <= bs_bufs s5) as [Hr5 Hb5].
    { destruct (Z.eqb_spec (file_block s ip (off / 1024)) 0) as [E|E]; [|lia].
      destruct (m_new _ _ _ _ _ _ _ M E) as [[? _]|(_ & _ & _ & Hl)]; [done|]. destruct (Hagain Hl). lia. }
    exists bp, s2, s3, s4, s5. split; [done|]. split; [by apply (bs_data_run s2 bp a true)|]. split_and!; try done.
    apply (wrote_app s ip off [] s1 ip' bytes s5 ip'); [lia| |done|].
    { cbn [length]. change VIMIXFS_MAX_FILE_SIZE_BLOCKS with 65812 in *. pose proof (Z.div_mod off 1024 ltac:(lia)). lia. }
    cbn [length]. rewrite Z.add_0_r. rewrite <- Ea in *. apply wrote_data; try done; [lia..|].
    by rewrite Hv5, Hv.
Qed.

Lemma wrote_refl s ip off : quiet sb s ip -> wrote s ip off [] s ip.
Proof using.
  intros Q. split; cbn [length]; try done.
  - by rewrite set_addrs_id.
  - intros i _. by rewrite decide_False by lia.
  - intros i Hi. lia.
Qed.

Lemma file_write_loop_run source n : forall fuel s ip off src tot,
  quiet sb s ip -> 0 <= off -> 0 <= tot <= n -> off + (n - tot) <= max_size ->
  length (readable source src (Z.to_nat (n - tot))) = Z.to_nat (n - tot) -> Forall (is_u 8) (readable source src (Z.to_nat (n - tot))) ->
  write_cost s ip off (n - tot) < bs_room s -> write_cost s ip off (n - tot) < bs_bufs s ->
  chunks off (n - tot) < Z.of_nat fuel ->
  exists r s' ip', file_write_loop sb fuel source off src n tot (mk_fs s ip) = Ret ((tot + r, off + r), mk_fs s' ip') /\
    0 <= r <= n - tot /\
    (r < n - tot -> full sb s' /\ (r = 0 /\ bs_room s - 5 <= bs_room s' \/ 0 < r /\ (off + r) mod 1024 = 0)) /\ wrote s ip off (readable source src (Z.to_nat r)) s' ip' /\
    bs_room s - write_cost s ip off (n - tot) <= bs_room s' /\ bs_bufs s - write_cost s ip off (n - tot) <= bs_bufs s'.
Proof using L.
  induction fuel as [|fuel IH]; intros s ip off src tot Q Ho Ht Hmax Hlen Hby Hr Hb Hf.
  { pose proof (chunks_pos off (n - tot) Ho ltac:(lia)). lia. }
  cbn [file_write_loop]. destruct (Z.ltb_spec tot n) as [Hlt|Hge].
  2:{ exists 0, s, ip. rewrite !Z.add_0_r. assert (n - tot = 0) as -> by lia. split; [done|]. split; [lia|]. split; [lia|].
      split; [by apply wrote_refl|]. change (write_cost s ip off 0) with 0. lia. }
  destruct (block_number_ok off ltac:(lia)) as [-> Hbn]. change BLOCK_SIZE with 1024. cbv zeta.
  destruct (chunk_step off (n - tot) _ Ho eq_refl ltac:(lia)) as (Hm & Hend & Hch).
  rewrite (write_cost_step s ip off (n - tot) _ Ho eq_refl ltac:(lia)) in *.
  set (m := Z.min (n - tot) (1024 - off mod 1024)) in *.
  replace (n - tot - m) with (n - (tot + m)) in * by lia.
  assert (Z.to_nat (n - tot) = Z.to_nat m + Z.to_nat (n - (tot + m)))%nat as Esplit by lia.
  rewrite Esplit in Hlen, Hby. pose proof (readable_prefix _ _ _ _ Hlen) as Hlm.
  rewrite (readable_app source src _ _ Hlm) in Hlen, Hby. rewrite length_app, Hlm in Hlen. apply Forall_app in Hby as [Hbm Hbr].
  rewrite Z2Nat.id in Hlen, Hbr by lia.
  assert (0 <= write_cost s ip (off + m) (n - (tot + m))) as Hc0.
  { unfold write_cost. clear. induction (seqZ _ _) as [|b bs IH]; cbn; [lia|]. unfold block_cost at 1. destruct (_ =? 0); lia. }
  assert (1 <= block_cost s ip (off / 1024)) by (unfold block_cost; destruct (_ =? 0); lia).
  destruct (write_chunk_run s ip off (readable source src (Z.to_nat m)) Q ltac:(lia) ltac:(lia) Hbm ltac:(lia) ltac:(lia))
    as (a & s1 & ip1 & Hrun & Hcase).
  rewrite (bind_run _ _ _ _ _ Hrun). destruct (Z.eqb_spec a 0) as [->|Ha].
  { destruct Hcase as (W & Hfull & Hr5 & Hr1 & Hb1). exists 0, s1, ip1. rewrite !Z.add_0_r. split; [done|]. split; [lia|]. split; [by auto|].
    split; [done|]. lia. }
  destruct Hcase as (bp & s2 & s3 & s4 & s5 & E2 & Ed & E3 & E4 & E5 & W & Hr5 & Hb5).
  rewrite (bind_run _ _ _ bp (mk_fs s2 ip1)) by (by apply on_store_run).
  rewrite (bind_run _ _ _ (bs_view s2 a) (mk_fs s2 ip1)) by (by apply on_store_run).
  rewrite (bind_run _ _ _ tt (mk_fs s3 ip1)) by (by apply on_store_run). rewrite decide_True by done.
  rewrite (bind_run _ _ _ tt (mk_fs s4 ip1)) by (by apply on_store_run).
  rewrite (bind_run _ _ _ tt (mk_fs s5 ip1)) by (by apply on_store_run).
  pose proof (write_cost_mono s ip off _ s5 ip1 W (off + m) (n - (tot + m)) ltac:(lia) ltac:(lia) ltac:(lia)).
  destruct (IH s5 ip1 (off + m) (src + m) (tot + m) (w_quiet _ _ _ _ _ _ W)) as (r & s' & ip' & Hrun' & Hrr & Hfull & W' & Hr' & Hb');
    [lia..|done|lia|lia|lia|].
  exists (m + r), s', ip'. split; [by rewrite Hrun', !Z.add_assoc|]. split; [lia|]. split.
  { intros Hs. destruct (Hfull ltac:(lia)) as [Hf' Hstop]. split; [done|]. right. split; [lia|]. rewrite Z.add_assoc.
    destruct Hstop as [[-> _]|[_ ?]]; [|done].
    rewrite Z.add_0_r. pose proof (Z.div_mod off 1024 ltac:(lia)). symmetry. apply (Z.mod_unique _ _ (off / 1024 + 1)); lia. }
  split; [|lia]. rewrite Z2Nat.inj_add by lia. rewrite readable_app, Z2Nat.id by (done || lia).
  pose proof (readable_length source (src + m) (Z.to_nat r)) as Hlr.
  apply (wrote_app s ip off _ s5 ip1); [lia| |done|]; rewrite Hlm; [lia|]. by rewrite Z2Nat.id by lia.
Qed.
End Write.

Section Claims.
Context {St : Type} `{!BlockStore St} (sb : vimixfs_superblock) (sb_dev : Z).
Context (L : layout sb) (A : inode_area sb) (Hdev : is_s 32 sb_dev).

Abbreviation iblock n := (VIMIXFS_BLOCK_OF_INODE_P n sb).
Abbreviation max_size := (VIMIXFS_MAX_FILE_SIZE_BLOCKS * 1024).

(** [bytes] were written at [off], and the inode on disk is the one in memory. *)
Record file_written (s : St) (ip : vimixfs_inode) (off : Z) (bytes : list Z) (s' : St) (ip' : vimixfs_inode) : Prop := {
  fw_quiet : quiet sb s' ip';
  fw_meta : ip' = set_size (Z.max (i_size ip) (off + Z.of_nat (length bytes))) (set_addrs (addrs ip') ip);
  fw_bytes i : 0 <= i < max_size ->
    file_byte s' ip' i =
    if decide (off <= i < off + Z.of_nat (length bytes)) then default 0 (bytes !! Z.to_nat (i - off)) else file_byte s ip i;
  fw_blocks : no_holes s' ip' off (Z.of_nat (length bytes));
  fw_kept b : 0 <= b < VIMIXFS_MAX_FILE_SIZE_BLOCKS -> file_block s ip b <> 0 -> file_block s' ip' b = file_block s ip b;
  fw_disk : disk_inode sb sb_dev s' (i_inum ip) = Some ip';
  fw_inodes n : inum_ok sb n -> n <> i_inum ip -> disk_inode sb sb_dev s' n = disk_inode sb sb_dev s n;
  fw_used b : 0 <= b < sb_size sb -> used sb s b = true -> used sb s' b = true;
  fw_view bn : 0 < bn < sb_size sb -> used sb s bn = true -> ~ is_bitmap sb bn -> ~ is_index s ip bn ->
    bn <> iblock (i_inum ip) ->
    (forall i, off <= i < off + Z.of_nat (length bytes) -> file_block s ip (i / 1024) <> bn) ->
    bs_view s' bn = bs_view s bn
}.

Lemma tree_addrs_ok s ip : tree_ok sb s ip -> length (addrs ip) = 22%nat /\ Forall (is_u 32) (addrs ip).
Proof using L.
  intros T. pose proof (t_len sb s ip T) as Hl. split; [done|]. apply Forall_lookup. intros i x Hx.
  pose proof (lookup_lt_Some _ _ _ Hx). pose proof (t_range sb s ip T (i, [])) as Hr. unfold addr_at in Hr. cbn in Hr. rewrite Hx in Hr.
  cbn in Hr. destruct (decide (x = 0)) as [->|Hn]; [done|].
  destruct Hr as [? _]; [|done|unfold is_u; pose proof (data_start_pos sb L); destruct L; lia].
  split; [cbn; lia|]. split; [apply Nat.le_0_l|done].
Qed.

(** Blocks before the bitmap do not belong to files. *)
Lemma meta_block s ip bn :
  quiet sb s ip -> 0 < bn < sb_bmapstart sb ->
  used sb s bn = true /\ ~ is_bitmap sb bn /\ ~ is_index s ip bn /\
  (forall b, 0 <= b < VIMIXFS_MAX_FILE_SIZE_BLOCKS -> file_block s ip b <> bn).
Proof using L.
  intros [_ Hok T _] Hbn. pose proof (bitmap_before_data sb L) as Hd.
  split; [apply Hok; lia|]. split; [unfold is_bitmap; lia|]. split.
  - intros (i & l & Hv & _ & E). destruct (t_range sb s ip T (i, l) Hv) as [? _]; lia.
  - intros b Hb E. destruct (t_range sb s ip T (file_place b) (file_place_valid b Hb)) as [Hr _]; unfold file_block in E; lia.
Qed.

(** The end of [vimixfs_write]: the new size, and the inode is written back. *)
Lemma write_end_run s ip off bytes s1 ip1 :
  quiet sb s ip -> inode_ok ip -> inum_ok sb (i_inum ip) -> 0 <= off -> off + Z.of_nat (length bytes) <= max_size ->
  wrote sb s ip off bytes s1 ip1 -> 0 < bs_room s1 -> 0 < bs_bufs s1 ->
  let ip2 := if i_size ip1 <? off + Z.of_nat (length bytes) then set_size (u32 (off + Z.of_nat (length bytes))) ip1 else ip1 in
  exists s', vimixfs_sops_write_inode sb sb_dev (mk_fs s1 ip2) = Ret (tt, mk_fs s' ip2) /\
    (forall b, 0 <= b < sb_size sb -> used sb s' b = used sb s1 b) /\ file_written s ip off bytes s' ip2 /\
    bs_room s1 - 1 <= bs_room s' /\ bs_bufs s1 - 1 <= bs_bufs s'.
Proof using L A Hdev.
  intros Q Hip Hnum Ho Hmax W Hroom Hbufs ip2. pose proof (w_quiet _ _ _ _ _ _ _ W) as Q1.
  pose proof (w_meta _ _ _ _ _ _ _ W) as Hm. pose proof (tree_addrs_ok s1 ip1 (q_tree _ _ _ Q1)) as Hads.
  assert (i_size ip1 = i_size ip) as Es by (by rewrite Hm). assert (addrs ip2 = addrs ip1) as Eads by (by unfold ip2; destruct (_ <? _)).
  assert (ip2 = set_size (Z.max (i_size ip) (off + Z.of_nat (length bytes))) (set_addrs (addrs ip1) ip)) as E2.
  { unfold ip2. change VIMIXFS_MAX_FILE_SIZE_BLOCKS with 65812 in Hmax. rewrite uwrap_id by (unfold is_u; lia).
    destruct (Z.ltb_spec (i_size ip1) (off + Z.of_nat (length bytes))).
    - rewrite Z.max_r by lia. by rewrite Hm.
    - rewrite Z.max_l by lia. rewrite Hm at 1. by destruct ip. }
  assert (inode_ok ip2) as Hip2.
  { rewrite E2. destruct Hip. split; try done. cbn. unfold is_u in *. change VIMIXFS_MAX_FILE_SIZE_BLOCKS with 65812 in Hmax. lia. }
  assert (i_inum ip2 = i_inum ip) as En by (by rewrite E2). clearbody ip2. rewrite <- En in Hnum.
  destruct (iblock_range sb L A _ Hnum) as (Hib & Hib' & _).
  assert (quiet sb s1 ip2) as Q2.
  { destruct Q1 as [I Hok [T1 T2 T3] Hf]. split; [done..| |done]. unfold addr_at in *.
    split; [by rewrite Eads|intros p; unfold addr_at; rewrite Eads; apply T2|intros p q; unfold addr_at; rewrite Eads; apply T3]. }
  destruct (write_inode_run sb sb_dev L A Hdev s1 ip2 (q_inv _ _ _ Q1) (fo_block _ _ (q_ok _ _ _ Q1) (iblock (i_inum ip2)) ltac:(lia)) (q_free _ _ _ Q1 (iblock (i_inum ip2)) ltac:(lia)) Hroom Hbufs Hip2 Hnum)
    as (s' & Hrun & He & Hblk & Hdisk & Hothers & _). exists s'. split; [done|].
  destruct (meta_block s1 ip2 _ Q2 Hib) as (_ & Hnb & Hni & Hnf).
  assert (data_only sb s1 ip2 s') as D.
  { apply (eff_data sb L s1 ip2 s' _ 1 Q2 He); [by intros bn ->|by intros bn ->|]. intros bn. destruct (decide (bn = iblock (i_inum ip2))); auto. }
  assert (forall b, 0 <= b < VIMIXFS_MAX_FILE_SIZE_BLOCKS -> file_block s' ip2 b = file_block s1 ip1 b) as Hfb.
  { intros b Hb. unfold file_block. rewrite (d_addr _ _ _ _ D) by (by apply file_place_valid). unfold addr_at. by rewrite Eads. }
  split; [apply D|]. split; [|split; apply He]. split.
  - apply D.
  - rewrite E2. cbn [addrs set_size set_addrs]. done.
  - intros i Hi. rewrite <- (w_bytes _ _ _ _ _ _ _ W i Hi). pose proof (block_of_byte i Hi) as Hb. unfold file_byte.
    rewrite Hfb by done. destruct (_ =? 0); [done|]. rewrite (e_view _ _ _ _ He); [done|]. rewrite <- Hfb by done.
    unfold file_block. rewrite (d_addr _ _ _ _ D) by (by apply file_place_valid). by apply Hnf.
  - intros i Hi. rewrite Hfb by (apply block_of_byte; lia). by apply (w_blocks _ _ _ _ _ _ _ W).
  - intros b Hb Hn. rewrite Hfb by done. by apply (w_kept _ _ _ _ _ _ _ W).
  - by rewrite <- En.
  - intros n Hn Hne. rewrite Hothers by (rewrite ?En; destruct Hn; (done || lia)). unfold disk_inode.
    destruct (iblock_range sb L A n Hn) as (Hn1 & Hn2 & _). destruct (meta_block s ip _ Q Hn1) as (M1 & M2 & M3 & M4).
    rewrite (w_view _ _ _ _ _ _ _ W); try done; [lia|]. intros i Hi. apply M4, block_of_byte. lia.
  - intros b Hb Hu. rewrite (d_used _ _ _ _ D) by done. by apply (w_used _ _ _ _ _ _ _ W).
  - intros bn Hbn Hu Hb1 Hb2 Hb3 Hb4. rewrite (e_view _ _ _ _ He) by (by rewrite En). by apply (w_view _ _ _ _ _ _ _ W).
Qed.

(** A write that adds no byte logs less. *)
Lemma write_run s ip source src off n :
  quiet sb s ip -> inode_ok ip -> inum_ok sb (i_inum ip) -> is_u 64 off -> is_u 64 n ->
  length (readable source src (Z.to_nat n)) = Z.to_nat n -> Forall (is_u 8) (readable source src (Z.to_nat n)) ->
  write_cost s ip off n < bs_room s -> write_cost s ip off n < bs_bufs s ->
  exists r s' ip', vimixfs_write sb sb_dev source src off n (mk_fs s ip) = Ret (r, mk_fs s' ip') /\
    if decide (off <= i_size ip /\ off + n <= max_size)
    then 0 <= r <= n /\ (r < n -> full sb s' /\ (r = 0 /\ bs_room s - 6 <= bs_room s' \/ 0 < r /\ (off + r) mod 1024 = 0)) /\
      file_written s ip off (readable source src (Z.to_nat r)) s' ip' /\
      bs_room s - (write_cost s ip off n + 1) <= bs_room s' /\ bs_bufs s - (write_cost s ip off n + 1) <= bs_bufs s'
    else r = - EINVAL /\ s' = s /\ ip' = ip.
Proof using L A Hdev.
  intros Q Hip Hnum Ho Hn Hlen Hby Hroom Hbufs. unfold is_u in Ho, Hn. unfold vimixfs_write.
  rewrite (bind_run _ _ _ ip (mk_fs s ip)) by done. change BLOCK_SIZE with 1024.
  assert (((i_size ip <? off) || (u64 (off + n) <? off))%bool = true -> ~ (off <= i_size ip /\ off + n <= max_size)) as Hbad.
  { change VIMIXFS_MAX_FILE_SIZE_BLOCKS with 65812. intros [?%Z.ltb_lt|H%Z.ltb_lt]%orb_true_iff [H1 H2]; [lia|].
    rewrite uwrap_id in H by (unfold is_u; lia). lia. }
  destruct (_ || _)%bool eqn:E1.
  { eexists _, s, ip. by rewrite decide_False by auto. }
  apply orb_false_iff in E1 as [E1%Z.ltb_ge E2%Z.ltb_ge].
  assert (u64 (off + n) = off + n) as Eu.
  { destruct (decide (off + n < 2 ^ 64)); [apply uwrap_id; unfold is_u; lia|]. exfalso. revert E2. unfold uwrap.
    rewrite <- (Z.mod_unique (off + n) (2 ^ 64) 1 (off + n - 2 ^ 64)) by lia. lia. }
  rewrite Eu. destruct (Z.ltb_spec max_size (off + n)) as [H3|H3].
  { eexists _, s, ip. by rewrite decide_False by lia. }
  pose proof (file_write_loop_run sb L source n (rw_fuel n) s ip off src 0) as Hloop. rewrite Z.sub_0_r in Hloop.
  destruct Hloop as (r & s1 & ip1 & Hrun & Hr & Hfull & W & Hr1 & Hb1); [done|lia..|done|done|lia|lia|by apply chunks_fuel; lia|].
  rewrite (bind_run _ _ _ _ _ Hrun). cbn [fst snd]. rewrite Z.add_0_l.
  assert (length (readable source src (Z.to_nat r)) = Z.to_nat r) as Hlr.
  { apply (readable_prefix source src (Z.to_nat r) (Z.to_nat (n - r))). rewrite <- Z2Nat.inj_add by lia. by replace (r + (n - r)) with n by lia. }
  pose proof (write_end_run s ip off (readable source src (Z.to_nat r)) s1 ip1 Q Hip Hnum ltac:(lia)) as Hend.
  rewrite Hlr, Z2Nat.id in Hend by lia. destruct (Hend ltac:(lia) W ltac:(lia) ltac:(lia)) as (s' & Hrun' & Hu & Hw & Hr2 & Hb2).
  set (ip2 := if i_size ip1 <? off + r then _ else _) in *.
  exists r, s', ip2. split.
  - rewrite (bind_run _ _ _ tt (mk_fs s1 ip2)) by done. by rewrite (bind_run _ _ _ tt (mk_fs s' ip2)).
  - rewrite decide_True by lia. split; [lia|]. split; [|split; [done|lia]]. intros Hlt. destruct (Hfull Hlt) as [Hf Hstop]. split; [|lia].
    intros b Hb. rewrite Hu by done. by apply Hf.
Qed.

(** How many bytes a read of [n] bytes at [off] gets. *)
Definition read_count (ip : vimixfs_inode) (off n : Z) : Z :=
  if ((i_size ip <? off) || (2 ^ 64 <=? off + n))%bool then 0 else Z.min n (i_size ip - off).

Lemma iops_read_run s ip target off dst n :
  quiet sb s ip -> 0 < bs_bufs s -> is_u 64 off -> is_u 64 n -> i_size ip <= max_size -> no_holes s ip off (read_count ip off n) ->
  exists res s', vimixfs_iops_read sb target off dst n (mk_fs s ip) = Ret (res, mk_fs s' ip) /\ eff s s' (fun _ => False) 0 /\
    if forallb target (seqZ dst (read_count ip off n))
    then res = (read_count ip off n, file_bytes s ip off (read_count ip off n)) else fst res = -1.
Proof using L.
  intros Q Hb Ho Hn Hsz Hnh. unfold vimixfs_iops_read, read_count in *. rewrite (bind_run _ _ _ ip (mk_fs s ip)) by done.
  change VIMIXFS_MAX_FILE_SIZE_BLOCKS with 65812 in Hsz. unfold is_u in *.
  assert ((u64 (off + n) <? off) = (2 ^ 64 <=? off + n)) as Eu.
  { destruct (Z.leb_spec (2 ^ 64) (off + n)).
    - apply Z.ltb_lt. unfold uwrap. rewrite <- (Z.mod_unique (off + n) (2 ^ 64) 1 (off + n - 2 ^ 64)) by lia. lia.
    - apply Z.ltb_ge. rewrite uwrap_id by (unfold is_u; lia). lia. }
  rewrite Eu in *. destruct (_ || _)%bool eqn:E1.
  { exists (0, []), s. split; [done|]. split; [apply eff_refl, Q|done]. }
  apply orb_false_iff in E1 as [E1%Z.ltb_ge E2%Z.leb_gt]. rewrite uwrap_id by (unfold is_u; lia).
  assert ((if i_size ip <? off + n then i_size ip - off else n) = Z.min n (i_size ip - off)) as ->
    by (destruct (Z.ltb_spec (i_size ip) (off + n)); lia).
  set (m := Z.min n (i_size ip - off)) in *.
  pose proof (iops_read_loop_run sb L target m ip (rw_fuel m) s off dst 0 []) as Hloop. rewrite Z.sub_0_r in Hloop. apply Hloop; try done; try lia.
  - change VIMIXFS_MAX_FILE_SIZE_BLOCKS with 65812. lia.
  - apply chunks_fuel; lia.
Qed.

(** C7: [vimixfs_write] refines the update of an array of bytes.  An offset behind the
    end of the file and a file that would get too large are refused.  Otherwise [r]
    bytes are written at [off], all of them unless the disk is full, in which case the
    write stops at the end of a block: the other bytes of
    the file, the blocks of other files and the other inodes stay as they are, the size
    grows to the end of what was written, and the inode on disk is the one in memory.
    The blocks logged are those that [write_cost] counts and the one of the inode. *)
Theorem vimixfs_write_refines s ip source src off n :
  quiet sb s ip -> inode_ok ip -> inum_ok sb (i_inum ip) -> is_u 64 off -> is_u 64 n ->
  length (readable source src (Z.to_nat n)) = Z.to_nat n -> Forall (is_u 8) (readable source src (Z.to_nat n)) ->
  write_cost s ip off n < bs_room s -> write_cost s ip off n < bs_bufs s ->
  exists r s' ip', vimixfs_write sb sb_dev source src off n (mk_fs s ip) = Ret (r, mk_fs s' ip') /\
    if decide (off <= i_size ip /\ off + n <= max_size)
    then 0 <= r <= n /\ (r < n -> full sb s' /\ (r = 0 \/ (off + r) mod 1024 = 0)) /\
      file_written s ip off (readable source src (Z.to_nat r)) s' ip' /\
      bs_room s - (write_cost s ip off n + 1) <= bs_room s' /\ bs_bufs s - (write_cost s ip off n + 1) <= bs_bufs s'
    else r = - EINVAL /\ s' = s /\ ip' = ip.
Proof using L A Hdev.
  intros Q Hip Hn Ho Hnn Hlen Hby Hr Hb. destruct (write_run s ip source src off n Q Hip Hn Ho Hnn Hlen Hby Hr Hb) as (r & s' & ip' & Hrun & Hres).
  exists r, s', ip'. split; [exact Hrun|]. case_decide; [|exact Hres]. destruct Hres as (H1 & H2 & H3). split; [exact H1|]. split; [|exact H3].
  intros Hlt. destruct (H2 Hlt) as [Hf Hc]. split; [exact Hf|lia].
Qed.


(** An inode that was written to disk is read back as it was, whatever the inode in
    memory had before, and the other inodes of its block are kept. *)
Theorem write_read_inode s ip ip0 :
  quiet sb s ip -> inode_ok ip -> inum_ok sb (i_inum ip) -> 0 < bs_room s -> 1 < bs_bufs s -> i_inum ip0 = i_inum ip ->
  exists s1 s2, vimixfs_sops_write_inode sb sb_dev (mk_fs s ip) = Ret (tt, mk_fs s1 ip) /\
    vimixfs_read_inode_metadata sb sb_dev (mk_fs s1 ip0) = Ret (tt, mk_fs s2 ip) /\
    eff s s2 (fun bn => bn = iblock (i_inum ip)) 1 /\
    forall n, 0 <= n -> n <> i_inum ip -> disk_inode sb sb_dev s2 n = disk_inode sb sb_dev s n.
Proof using L A Hdev.
  intros Q Hip Hn Hr Hb E. destruct (iblock_range sb L A _ Hn) as (? & ? & _). pose proof (q_free _ _ _ Q (iblock (i_inum ip)) ltac:(lia)) as Hf.
  destruct (write_inode_run sb sb_dev L A Hdev s ip (q_inv _ _ _ Q) (fo_block _ _ (q_ok _ _ _ Q) (iblock (i_inum ip)) ltac:(lia)) Hf Hr ltac:(lia) Hip Hn)
    as (s1 & Hrun & He & _ & Hdisk & Hothers & _). pose proof (e_bufs _ _ _ _ He).
  destruct (read_inode_run sb sb_dev s1 ip0 ip (e_inv _ _ _ _ He)) as (s2 & Hrun2 & He2).
  - rewrite E. by apply He.
  - lia.
  - by rewrite E.
  - exists s1, s2. split; [done|]. split; [done|]. split; [apply (eff_trans s s1 s2 _ (fun _ => False) _ 1 0 1 He He2); [auto|by intros bn []|lia]|].
    intros n Hn0 Hne. rewrite <- Hothers by done. unfold disk_inode. by rewrite (e_view _ _ _ _ He2) by intros [].
Qed.
End Claims.

(** ** Types

    The fields of an inode are in the range of their C types. *)
Record inode_typed (ip : vimixfs_inode) : Prop := {
  ty_mode : is_u 32 (i_mode ip);
  ty_dev : is_s 32 (i_dev ip);
  ty_nlink : is_s 16 (i_nlink ip);
  ty_size : is_u 32 (i_size ip);
  ty_uid : is_s 32 (i_uid ip);
  ty_gid : is_s 32 (i_gid ip);
  ty_ctime : is_s 64 (i_ctime ip);
  ty_mtime : is_s 64 (i_mtime ip);
  ty_addrs : length (addrs ip) = 22%nat /\ Forall (is_u 32) (addrs ip)
}.

Lemma get_words_typed n : forall off d, is_block d -> (off + 4 * n <= 1024)%nat ->
  exists ws, get_words n off d = Some ws /\ length ws = n /\ Forall (is_u 32) ws.
Proof.
  induction n as [|n IH]; intros off d Hd Hl; cbn [get_words]; [by exists []|].
  destruct (IH (off + 4)%nat d Hd ltac:(lia)) as (ws & -> & Hlen & Hws).
  assert (exists w, get_u32 off d = Some w /\ is_u 32 w) as (w & -> & Hw).
  { destruct Hd as [Hdl Hdf]. unfold get_u32.
    assert (forall j, (j < 1024)%nat -> exists x, d !! j = Some x /\ is_u 8 x) as Hb.
    { intros j Hj. destruct (lookup_lt_is_Some_2 d j) as [x Hx]; [lia|]. exists x. split; [done|].
      rewrite Forall_lookup in Hdf. by apply (Hdf j). }
    destruct (Hb off) as (x0 & -> & ?); [lia|]. destruct (Hb (off + 1)%nat) as (x1 & -> & ?); [lia|].
    destruct (Hb (off + 2)%nat) as (x2 & -> & ?); [lia|]. destruct (Hb (off + 3)%nat) as (x3 & -> & ?); [lia|].
    simpl. eexists. split; [done|]. unfold is_u in *. lia. }
  exists (w :: ws). cbn. split; [done|]. split; [by rewrite Hlen|]. by apply Forall_cons.
Qed.


(** ** The small file system

    Three bytes are written to the empty file and read back. *)

Definition small_source (a : Z) : option Z := if (100 <=? a) && (a <? 103) then Some (a - 30) else None.

Lemma small_area : inode_area small_sb.
Proof. unfold inode_area. cbn. lia. Qed.

Lemma empty_inode_ok : inode_ok empty_inode.
Proof.
  unfold empty_inode. split; cbn [i_mode i_dev i_nlink i_size i_uid i_gid i_ctime i_mtime addrs]; unfold is_u, is_s; [lia| |lia..|].
  - split; [lia|discriminate].
  - split; [done|]. apply Forall_replicate. lia.
Qed.

Definition small_written : fs lfs :=
  ran (@vimixfs_write lfs small_store small_sb 1 small_source 100 0 3) (mk_fs small_fs empty_inode).

Lemma small_write_cost : @write_cost lfs small_store small_fs empty_inode 0 3 = 8.
Proof. vm_compute. reflexivity. Qed.

Lemma vimixfs_write_refines_witness :
  exists r s' ip', @vimixfs_write lfs small_store small_sb 1 small_source 100 0 3 (mk_fs small_fs empty_inode) = Ret (r, mk_fs s' ip') /\
    if decide (0 <= 0 /\ 0 + 3 <= VIMIXFS_MAX_FILE_SIZE_BLOCKS * 1024)
    then 0 <= r <= 3 /\ (r < 3 -> @full lfs small_store small_sb s' /\ (r = 0 \/ (0 + r) mod 1024 = 0)) /\
      @file_written lfs small_store small_sb 1 small_fs empty_inode 0 (readable small_source 100 (Z.to_nat r)) s' ip' /\
      @bs_room lfs small_store small_fs - (@write_cost lfs small_store small_fs empty_inode 0 3 + 1) <= @bs_room lfs small_store s' /\
      @bs_bufs lfs small_store small_fs - (@write_cost lfs small_store small_fs empty_inode 0 3 + 1) <= @bs_bufs lfs small_store s'
    else r = - EINVAL /\ s' = small_fs /\ ip' = empty_inode.
Proof.
  destruct small_budget as [Hr Hb].
  refine (@vimixfs_write_refines lfs small_store small_sb 1 small_layout small_area _ small_fs empty_inode small_source 100 0 3
    small_quiet empty_inode_ok _ _ _ eq_refl _ _ _).
  - vm_compute. split; [discriminate|reflexivity].
  - vm_compute. split; reflexivity.
  - vm_compute. split; [discriminate|reflexivity].
  - vm_compute. split; [discriminate|reflexivity].
  - repeat (apply Forall_cons; split; [vm_compute; split; [discriminate|reflexivity]|]). apply Forall_nil. exact I.
  - rewrite small_write_cost. lia.
  - rewrite small_write_cost. lia.
Defined.

Lemma small_written_ok :
  @file_written lfs small_store small_sb 1 small_fs empty_inode 0 [70; 71; 72] (fs_st small_written) (fs_ip small_written).
Proof.
  destruct small_budget as [Hr Hb].
  destruct (@write_run lfs small_store small_sb 1 small_layout small_area ltac:(unfold is_s; lia) small_fs empty_inode small_source 100 0 3
    small_quiet empty_inode_ok) as (r & s' & ip' & Hrun & Hres); try (rewrite small_write_cost; lia); try (unfold is_u; lia).
  - unfold inum_ok. cbn. lia.
  - reflexivity.
  - repeat (apply Forall_cons; split; [unfold is_u; cbn; lia|]). apply Forall_nil. exact I.
  - rewrite decide_True in Hres by (vm_compute; split; discriminate). destruct Hres as (_ & _ & Hw & _).
    assert (r = 3) as ->.
    { assert (option_map fst (match @vimixfs_write lfs small_store small_sb 1 small_source 100 0 3 (mk_fs small_fs empty_inode) with
        Ret x => Some x | _ => None end) = Some 3) as E by (vm_compute; reflexivity).
      rewrite Hrun in E. cbn in E. by injection E. }
    unfold small_written, ran. rewrite Hrun. exact Hw.
Qed.


Lemma write_read_inode_witness :
  exists s1 s2, @vimixfs_sops_write_inode lfs small_store small_sb 1 (mk_fs small_fs empty_inode) = Ret (tt, mk_fs s1 empty_inode) /\
    @vimixfs_read_inode_metadata lfs small_store small_sb 1 (mk_fs s1 (set_size 17 empty_inode)) = Ret (tt, mk_fs s2 empty_inode).
Proof.
  destruct small_budget as [Hr Hb].
  destruct (@write_read_inode lfs small_store small_sb 1 small_layout small_area ltac:(unfold is_s; lia) small_fs empty_inode (set_size 17 empty_inode)
    small_quiet empty_inode_ok) as (s1 & s2 & H1 & H2 & _).
  - unfold inum_ok. cbn. lia.
  - lia.
  - lia.
  - reflexivity.
  - exists s1, s2. split; [exact H1|exact H2].
Defined.

