(* ===== verification/Trunc.v ===== *)
(** * Changing the size of files, writing through the log, statistics (kernel/fs/vimixfs/vimixfs.c)

    [vimixfs_trunc] and the functions above it over the block map of [Bmap]; the
    operations that run transactions of their own are functions of the file system with
    its log.  The inode is locked by the caller or by the operation itself, so nobody
    else uses it meanwhile. *)
From stdpp Require Import list.
From S2P Require Import Prelude Bytes Bio Log LogCommit Perm Txn Bmap Inode FileData.

Definition EFBIG : Z := 27.

Definition set_mode (m : Z) (ip : vimixfs_inode) : vimixfs_inode :=
  mk_inode (i_inum ip) m (i_dev ip) (i_nlink ip) (i_size ip) (i_uid ip) (i_gid ip) (i_ctime ip) (i_mtime ip) (addrs ip).
Definition set_owner (uid gid : Z) (ip : vimixfs_inode) : vimixfs_inode :=
  mk_inode (i_inum ip) (i_mode ip) (i_dev ip) (i_nlink ip) (i_size ip) uid gid (i_ctime ip) (i_mtime ip) (addrs ip).

Section Trunc.
Context {St : Type} `{!BlockStore St} (sb : vimixfs_superblock).

(** ** Freeing the blocks of a file *)

(** The loop of [vimixfs_trunc_block_range]. *)
Fixpoint trunc_range_loop (fuel : nat) (addr : addr_ptr) (arr_size i : Z) : ST (fs St) unit :=
  match fuel with
  | O => lift NoFuel
  | S fuel =>
      if i <? arr_size then
        a ← load_addr addr i;
        (if negb (a =? 0) then on_store (block_free sb a);; store_addr addr i 0 else mret tt);;
        trunc_range_loop fuel addr arr_size (i + 1)
      else mret tt
  end.

Definition vimixfs_trunc_block_range (addr : addr_ptr) (arr_size first_trunc_block : Z) : ST (fs St) unit :=
  trunc_range_loop (S (Z.to_nat arr_size)) addr arr_size first_trunc_block.

Definition vimixfs_trunc_block (block_number first_trunc_block : Z) : ST (fs St) unit :=
  if VIMIXFS_N_INDIRECT_BLOCKS <=? first_trunc_block then mret tt
  else
    bp ← on_store (bs_read block_number);
    vimixfs_trunc_block_range (in_buf bp) VIMIXFS_N_INDIRECT_BLOCKS first_trunc_block;;
    on_store (bs_release bp);;
    (if first_trunc_block =? 0 then on_store (block_free sb block_number) else mret tt).

Definition sub_clamped (val sub : Z) : Z := if val >? sub then val - sub else 0.

(** The loop over the tables below the double indirect block. *)
Fixpoint trunc_tables_loop (fuel : nat) (bp : nat) (first_db : Z) : ST (fs St) unit :=
  match fuel with
  | O => lift NoFuel
  | S fuel =>
      if first_db <? VIMIXFS_N_INDIRECT_BLOCKS then
        a ← load_addr (in_buf bp) first_db;
        if negb (a =? 0) then
          vimixfs_trunc_block a 0;;
          store_addr (in_buf bp) first_db 0;;
          trunc_tables_loop fuel bp (first_db + 1)
        else mret tt
      else mret tt
  end.

Definition trunc_double_indirect (first_trunc_block : Z) : ST (fs St) unit :=
  a ← load_addr in_inode VIMIXFS_DOUBLE_INDIRECT_BLOCK_IDX;
  if negb (a =? 0) then
    bp ← on_store (bs_read a);
    let first_db := first_trunc_block / VIMIXFS_N_INDIRECT_BLOCKS in
    let db_index := first_trunc_block mod VIMIXFS_N_INDIRECT_BLOCKS in
    let clear_indirect_block := first_db =? 0 in
    first_db ←
      (if negb (db_index =? 0) then
         t ← load_addr (in_buf bp) first_db;
         vimixfs_trunc_block t db_index;;
         mret (first_db + 1)
       else mret first_db);
    trunc_tables_loop (S (Z.to_nat VIMIXFS_N_INDIRECT_BLOCKS)) bp first_db;;
    on_store (bs_release bp);;
    (if clear_indirect_block then
       a ← load_addr in_inode VIMIXFS_DOUBLE_INDIRECT_BLOCK_IDX;
       on_store (block_free sb a);;
       store_addr in_inode VIMIXFS_DOUBLE_INDIRECT_BLOCK_IDX 0
     else mret tt)
  else mret tt.

Definition vimixfs_trunc (first_trunc_block : Z) : ST (fs St) unit :=
  vimixfs_trunc_block_range in_inode VIMIXFS_N_DIRECT_BLOCKS first_trunc_block;;
  let first_trunc_block := sub_clamped first_trunc_block VIMIXFS_N_DIRECT_BLOCKS in
  a ← load_addr in_inode VIMIXFS_INDIRECT_BLOCK_IDX;
  first_trunc_block ←
    (if negb (a =? 0) then
       vimixfs_trunc_block a first_trunc_block;;
       (if first_trunc_block =? 0 then store_addr in_inode VIMIXFS_INDIRECT_BLOCK_IDX 0 else mret tt);;
       let first_trunc_block := sub_clamped first_trunc_block VIMIXFS_N_INDIRECT_BLOCKS in
       trunc_double_indirect first_trunc_block;;
       mret first_trunc_block
     else mret first_trunc_block);
  modify_ip (set_size (u32 (first_trunc_block * BLOCK_SIZE))).

(** ** Changing the size *)

Definition clear_block_from (block_number from_byte : Z) : ST (fs St) unit :=
  if BLOCK_SIZE <=? from_byte then mret tt
  else
    addr ← bmap_get_block_address sb (u32 block_number);
    lift (panic_unless (negb (addr =? 0)));;
    bp ← on_store (bs_read addr);
    data ← on_store (bs_data bp);
    on_store (bs_set bp (splice data (Z.to_nat from_byte) (replicate (Z.to_nat (BLOCK_SIZE - from_byte)) 0)));;
    on_store (bs_log bp);;
    on_store (bs_release bp).

(** [available] is [log_get_client_available_blocks] of the caller's transaction. *)
Fixpoint trunc_shrink (fuel : nat) (available : ST (fs St) Z) (new_size MIN_BLOCKS : Z) : ST (fs St) Z :=
  match fuel with
  | O => lift NoFuel
  | S fuel =>
      ip ← get_ip;
      if new_size <? i_size ip then
        done ←
          (if negb (i_size ip mod BLOCK_SIZE =? 0) then
             let clear_block := i_size ip / BLOCK_SIZE in
             let clear_block_start := u64 (clear_block * BLOCK_SIZE) in
             if clear_block_start <=? u64 new_size then
               let clear_start := u64 (Z.rem new_size BLOCK_SIZE) in
               clear_block_from clear_block clear_start;;
               modify_ip (set_size (u32 new_size));;
               mret true
             else
               vimixfs_trunc clear_block;;
               modify_ip (set_size (u32 clear_block_start));;
               mret false
           else
             let clear_block := u32 (i_size ip / BLOCK_SIZE - 1) in
             let clear_block_start := u64 (clear_block * BLOCK_SIZE) in
             let clear_start := s64 (Z.max clear_block_start (u64 new_size)) in
             (if negb (Z.rem clear_start BLOCK_SIZE =? 0) then clear_block_from clear_block (u64 clear_start)
              else vimixfs_trunc clear_block);;
             modify_ip (set_size (u32 clear_start));;
             mret false);
        if (done : bool) then mret 0
        else
          available_blocks ← available;
          if available_blocks <? MIN_BLOCKS then mret 0
          else trunc_shrink fuel available new_size MIN_BLOCKS
      else mret 0
  end.

(** The body of the loop of [trunc_grow]; the result is [true] if no block could be
    allocated. *)
Definition trunc_grow_step (new_size : Z) : ST (fs St) bool :=
  ip ← get_ip;
  (if i_size ip / BLOCK_SIZE =? new_size / BLOCK_SIZE then
     clear_block_from (i_size ip / BLOCK_SIZE) (i_size ip mod BLOCK_SIZE);;
     modify_ip (set_size (u32 new_size))
   else mret tt);;
  ip ← get_ip;
  if negb (i_size ip mod BLOCK_SIZE =? 0) then
    clear_block_from (i_size ip / BLOCK_SIZE) (i_size ip mod BLOCK_SIZE);;
    let max_size := u32 ((i_size ip / BLOCK_SIZE + 1) * BLOCK_SIZE) in
    modify_ip (set_size (u32 (Z.min max_size new_size)));;
    mret false
  else
    let next_block := i_size ip / BLOCK_SIZE + 1 in
    a ← bmap_get_block_address sb (u32 next_block);
    if a =? 0 then mret true
    else
      modify_ip (fun ip => set_size (u32 (i_size ip + BLOCK_SIZE)) ip);;
      mret false.

Fixpoint trunc_grow (fuel : nat) (available : ST (fs St) Z) (new_size MIN_BLOCKS : Z) : ST (fs St) Z :=
  match fuel with
  | O => lift NoFuel
  | S fuel =>
      ip ← get_ip;
      if i_size ip <? new_size then
        out_of_space ← trunc_grow_step new_size;
        if (out_of_space : bool) then mret (- ENOSPC)
        else
          available_blocks ← available;
          if available_blocks <? MIN_BLOCKS then mret 0
          else trunc_grow fuel available new_size MIN_BLOCKS
      else mret 0
  end.

(** ** Statistics *)

(** The loop over the bits of a bitmap block. *)
Fixpoint count_free_bits (fuel : nat) (b bi : Z) (data : block) (free_blocks : Z) : res Z :=
  match fuel with
  | O => NoFuel
  | S fuel =>
      if ((bi <? VIMIXFS_BMAP_BITS_PER_BLOCK) && (u32 (b + bi) <? sb_size sb))%bool then
        byte ← load (data !! Z.to_nat (bi / 8));
        count_free_bits fuel b (bi + 1) data
          (if Z.land byte (Z.shiftl 1 (bi mod 8)) =? 0 then u32 (free_blocks + 1) else free_blocks)
      else mret free_blocks
  end.

Fixpoint count_free_blocks (fuel : nat) (b free_blocks : Z) : ST St Z :=
  match fuel with
  | O => lift NoFuel
  | S fuel =>
      if b <? sb_size sb then
        bp ← bs_read (VIMIXFS_BMAP_BLOCK_OF_BIT b (sb_bmapstart sb));
        data ← bs_data bp;
        n ← lift (count_free_bits (S (Z.to_nat VIMIXFS_BMAP_BITS_PER_BLOCK)) b 0 data free_blocks);
        bs_release bp;;
        count_free_blocks fuel (u32 (b + VIMIXFS_BMAP_BITS_PER_BLOCK)) n
      else mret free_blocks
  end.

(** The loops over the inodes: [k] inodes from [inum_local] on, [k] blocks from [bnum]
    on. *)
Fixpoint count_free_in_block (k : nat) (bnum inum_local : Z) (data : block) (free_inodes : Z) : res Z :=
  match k with
  | O => mret free_inodes
  | S k =>
      let inum := VIMIXFS_INUM_OF_DINODE bnum inum_local in
      if inum =? 0 then count_free_in_block k bnum (inum_local + 1) data free_inodes
      else
        mode ← load (get_u32 (Z.to_nat (DINODE_SIZE * VIMIXFS_DINODE_OFFSET_IN_BLOCK inum)) data);
        count_free_in_block k bnum (inum_local + 1) data
          (if mode =? VIMIXFS_INVALID_MODE then u32 (free_inodes + 1) else free_inodes)
  end.

Fixpoint count_free_inodes (k : nat) (bnum free_inodes : Z) : ST St Z :=
  match k with
  | O => mret free_inodes
  | S k =>
      bp ← bs_read (sb_inodestart sb + bnum);
      data ← bs_data bp;
      n ← lift (count_free_in_block (Z.to_nat VIMIXFS_INODES_PER_BLOCK) bnum 0 data free_inodes);
      bs_release bp;;
      count_free_inodes k (bnum + 1) n
  end.

(** [struct statvfs]. *)
Record statvfs := mk_statvfs {
  f_bsize : Z; f_frsize : Z; f_blocks : Z; f_bfree : Z; f_bavail : Z;
  f_files : Z; f_ffree : Z; f_favail : Z; f_fsid : Z; f_flag : Z; f_namemax : Z
}.

Definition vimix_sops_statvfs (sb_dev s_mountflags : Z) : ST St statvfs :=
  free_blocks ← count_free_blocks (Z.to_nat (sb_size sb / VIMIXFS_BMAP_BITS_PER_BLOCK + 2)) 0 0;
  free_inodes ← count_free_inodes (Z.to_nat (sb_ninode_blocks sb)) 0 0;
  mret (mk_statvfs BLOCK_SIZE BLOCK_SIZE (sb_size sb) free_blocks free_blocks
    (sb_ninode_blocks sb * VIMIXFS_INODES_PER_BLOCK) free_inodes free_inodes sb_dev s_mountflags NAME_MAX).
End Trunc.

(** ** Transactions

    Process [pid] on device [dev]; [devs] are the disks that exist. *)
Section Transactions.
Context (devs : Z -> bool) (dev pid : Z) (sb : vimixfs_superblock).

#[local] Instance store : BlockStore lfs := lfs_BlockStore devs dev pid (fun _ => 0).

Definition MIN_BLOCKS_FOR_TRUNCATE : Z := 5.

Definition available_now (client : Z) : ST (fs lfs) Z :=
  on_store (s ← get; lift (log_get_client_available_blocks (l_log s) client)).

(** The loop over the transactions; [k] bounds the iterations of [trunc_shrink] and
    [trunc_grow]. *)
Fixpoint truncate_loop (fuel k : nat) (new_size : Z) : ST (fs lfs) Z :=
  match fuel with
  | O => lift NoFuel
  | S fuel =>
      ip ← get_ip;
      if negb (i_size ip =? new_size) then
        client ← on_store (log_begin_fs_transaction_explicit pid MIN_BLOCKS_FOR_TRUNCATE (5 * MIN_BLOCKS_FOR_TRUNCATE));
        ip ← get_ip;
        ret ← (if new_size <? i_size ip then trunc_shrink sb k (available_now client) new_size MIN_BLOCKS_FOR_TRUNCATE
               else trunc_grow sb k (available_now client) new_size MIN_BLOCKS_FOR_TRUNCATE);
        vimixfs_sops_write_inode sb dev;;
        on_store (log_end_fs_transaction devs pid);;
        if ret <? 0 then mret ret else truncate_loop fuel k new_size
      else mret 0
  end.

Definition vimixfs_iops_truncate (fuel k : nat) (new_size : Z) : ST (fs lfs) Z :=
  if VIMIXFS_MAX_FILE_SIZE_BLOCKS * BLOCK_SIZE <? new_size then mret (- EFBIG)
  else truncate_loop fuel k new_size.

(** The loop of [vimixfs_fops_write]; the result and the file offset. *)
Definition extra_blocks : Z := 5.

Fixpoint fops_write_loop (fuel : nat) (source : Z -> option Z) (addr n written_total off : Z) : ST (fs lfs) (Z * Z) :=
  match fuel with
  | O => lift NoFuel
  | S fuel =>
      if written_total <? n then
        let to_write := n - written_total in
        let to_write_blocks := (to_write + BLOCK_SIZE - 1) / BLOCK_SIZE in
        client ← on_store (log_begin_fs_transaction_explicit pid (1 + extra_blocks) (to_write_blocks + extra_blocks));
        reserved ← available_now client;
        let max_bytes := (reserved - extra_blocks) * BLOCK_SIZE in
        let to_write := if to_write >? max_bytes then max_bytes else to_write in
        bytes_written ← vimixfs_write sb dev source (addr + written_total) off to_write;
        on_store (log_end_fs_transaction devs pid);;
        let off := if bytes_written >? 0 then off + bytes_written else off in
        if negb (bytes_written =? to_write) then mret (bytes_written, off)
        else fops_write_loop fuel source addr n (written_total + bytes_written) off
      else mret (written_total, off)
  end.

Definition vimixfs_fops_write (source : Z -> option Z) (addr n off : Z) : ST (fs lfs) (Z * Z) :=
  fops_write_loop (S (Z.to_nat (n / BLOCK_SIZE + 1))) source addr n 0 off.

Definition vimixfs_iops_chmod (mode : Z) : ST (fs lfs) Z :=
  on_store (log_begin_fs_transaction_explicit pid 1 1);;
  modify_ip (fun ip => set_mode (Z.lor mode (Z.land (i_mode ip) S_IFMT)) ip);;
  vimixfs_sops_write_inode sb dev;;
  on_store (log_end_fs_transaction devs pid);;
  mret 0.

Definition vimixfs_iops_chown (uid gid : Z) : ST (fs lfs) Z :=
  on_store (log_begin_fs_transaction_explicit pid 1 1);;
  modify_ip (fun ip => set_owner (if 0 <=? uid then uid else i_uid ip) (if 0 <=? gid then gid else i_gid ip) ip);;
  vimixfs_sops_write_inode sb dev;;
  on_store (log_end_fs_transaction devs pid);;
  mret 0.
End Transactions.

(** ** Truncating a file with direct blocks only *)

Section TruncDirect.
Context {St : Type} `{!BlockStore St} (sb : vimixfs_superblock) (L : layout sb).

(** Entries from [i] on are cleared. *)
Definition cut (i : nat) (l : list Z) : list Z := take i l ++ replicate (length l - i) 0.

Lemma cut_lookup i l j : default 0 (cut i l !! j) = if decide (j < i)%nat then default 0 (l !! j) else 0.
Proof using.
  unfold cut. case_decide as H.
  - destruct (decide (j < length l)%nat).
    + rewrite lookup_app_l by (rewrite length_take; lia). by rewrite lookup_take_lt.
    + rewrite (lookup_ge_None_2 l) by lia. rewrite lookup_ge_None_2; [done|]. rewrite length_app, length_take, length_replicate. lia.
  - destruct (decide (j < length l)%nat).
    + rewrite lookup_app_r by (rewrite length_take; lia). rewrite lookup_replicate_2; [done|]. rewrite length_take. lia.
    + rewrite lookup_ge_None_2; [done|]. rewrite length_app, length_take, length_replicate. lia.
Qed.

(** Only direct blocks. *)
Definition flat (ip : vimixfs_inode) : Prop := addrs ip !! 20%nat = Some 0 /\ addrs ip !! 21%nat = Some 0.

Lemma flat_below s ip i l : flat ip -> valid (i, l) -> l <> [] -> addr_at s ip (i, l) = 0.
Proof using.
  intros [H20 H21] (Hi & Hl & _) Hne. cbn in Hi, Hl. destruct l as [|x l]; [done|]. cbn in Hl.
  assert (default 0 (addrs ip !! i) = 0) as E.
  { unfold levels in Hl. destruct (decide (i < 20)%nat); [lia|]. destruct (decide (i = 20)%nat) as [->|]; [by rewrite H20|].
    replace i with 21%nat by lia. by rewrite H21. }
  unfold addr_at. cbn. rewrite E. clear. change (child s 0 x) with 0. induction l; done.
Qed.

Lemma flat_tree_ok s ip :
  flat ip -> length (addrs ip) = 22%nat ->
  (forall i x, addrs ip !! i = Some x -> x <> 0 -> data_start sb <= x < sb_size sb /\ used sb s x = true) ->
  (forall i j x, addrs ip !! i = Some x -> addrs ip !! j = Some x -> x <> 0 -> i = j) -> tree_ok sb s ip.
Proof using.
  intros F Hl Hr Hi. assert (forall i l, valid (i, l) -> addr_at s ip (i, l) <> 0 -> l = [] /\ addrs ip !! i = Some (addr_at s ip (i, l))) as Hd.
  { intros i l Hv Hn. destruct (decide (l = [])) as [->|Hne]; [|by rewrite (flat_below s ip i l F Hv Hne) in Hn]. split; [done|].
    unfold addr_at in *. cbn in *. by destruct (addrs ip !! i). }
  split; [done| |].
  - intros [i l] Hv Hn. destruct (Hd i l Hv Hn) as [_ E]. by apply (Hr i).
  - intros [i l] [j l'] Hv Hv' E Hn. destruct (Hd i l Hv Hn) as [-> E1]. rewrite E in Hn. destruct (Hd j l' Hv' Hn) as [-> E2].
    f_equal. rewrite E in E1. by apply (Hi i j _ E1 E2).
Qed.

Lemma tree_entry s ip i x :
  tree_ok sb s ip -> addrs ip !! i = Some x -> x <> 0 -> data_start sb <= x < sb_size sb /\ used sb s x = true.
Proof using.
  intros T Hx Hn. pose proof (lookup_lt_Some _ _ _ Hx) as Hlt. rewrite (t_len _ _ _ T) in Hlt.
  pose proof (t_range sb s ip T (i, [])) as Hr. unfold addr_at in Hr. cbn in Hr. rewrite Hx in Hr. cbn in Hr. apply Hr; [|done].
  split; [done|]. split; [apply Nat.le_0_l|done].
Qed.

Lemma tree_entry_inj s ip i j x :
  tree_ok sb s ip -> addrs ip !! i = Some x -> addrs ip !! j = Some x -> x <> 0 -> i = j.
Proof using.
  intros T Hi Hj Hn. assert (forall k, addrs ip !! k = Some x -> valid (k, []) /\ addr_at s ip (k, []) = x) as H.
  { intros k Hk. pose proof (lookup_lt_Some _ _ _ Hk) as Hlt. rewrite (t_len _ _ _ T) in Hlt. unfold addr_at. cbn. rewrite Hk.
    split; [|done]. split; [done|]. split; [apply Nat.le_0_l|done]. }
  destruct (H i Hi) as [V1 E1], (H j Hj) as [V2 E2]. pose proof (t_inj sb s ip T (i, []) (j, []) V1 V2) as Hinj.
  rewrite E1, E2 in Hinj. by injection (Hinj eq_refl Hn).
Qed.

(** One entry is freed and cleared. *)
Lemma free_entry_run s ip i x :
  quiet sb s ip -> flat ip -> (i < 20)%nat -> addrs ip !! i = Some x -> x <> 0 -> 1 <= bs_room s -> 1 <= bs_bufs s ->
  let ip' := set_addrs (<[i := 0]> (addrs ip)) ip in
  exists s', block_free sb x s = Ret (tt, s') /\ quiet sb s' ip' /\ flat ip' /\ eff s s' (is_bitmap sb) 1 /\
    forall b, 0 <= b < sb_size sb -> used sb s' b = if decide (b = x) then false else used sb s b.
Proof using L.
  intros [I Hok T Hf] F Hi Hx Hn Hroom Hbufs ip'. destruct (tree_entry s ip i x T Hx Hn) as [Hr Hu].
  pose proof (block_free_run sb L s x I Hok) as Hrun. rewrite Hu in Hrun.
  destruct Hrun as (s' & Hrun & He & Hok' & Hused); [|done..|].
  { intros bn Hbn. apply Hf. pose proof (bitmap_range sb L bn Hbn). lia. }
  assert (flat ip') as F' by (unfold flat in *; cbn; rewrite !list_lookup_insert_ne by lia; done).
  exists s'. split; [done|]. split; [|by split_and!]. split; [apply He|done| |by intros bn Hbn; apply (e_free _ _ _ _ He), Hf].
  assert (forall j y, <[i := 0]> (addrs ip) !! j = Some y -> y <> 0 -> j <> i /\ addrs ip !! j = Some y) as Hother.
  { intros j y Hy Hny. destruct (decide (j = i)) as [->|Hne]; [|by rewrite list_lookup_insert_ne in Hy by done].
    rewrite list_lookup_insert_eq in Hy by (by apply lookup_lt_Some in Hx). congruence. }
  apply flat_tree_ok; unfold ip'; cbn [addrs set_addrs]; [done|rewrite length_insert; apply T| |].
  - intros j y Hy Hny. destruct (Hother j y Hy Hny) as [Hne Hy']. destruct (tree_entry s ip j y T Hy' Hny) as [? ?].
    split; [done|]. pose proof (data_start_pos sb L). rewrite Hused by lia. rewrite decide_False; [done|].
    intros ->. by apply Hne, (tree_entry_inj s ip j i x T).
  - intros j k y Hj Hk Hny. destruct (Hother j y Hj Hny) as [_ Hj'], (Hother k y Hk Hny) as [_ Hk']. by apply (tree_entry_inj s ip j k y T).
Qed.

Lemma cut_step i l x : l !! i = Some x -> cut i l = cut (S i) (<[i := 0]> l).
Proof using.
  intros Hx. pose proof (lookup_lt_Some _ _ _ Hx). unfold cut. rewrite length_insert.
  rewrite (take_S_r _ _ 0) by (by apply list_lookup_insert_eq). rewrite take_insert_ge by lia.
  rewrite <- app_assoc. f_equal. by replace (length l - i)%nat with (S (length l - S i)) by lia.
Qed.

Lemma cut_flat l : length l = 22%nat -> l !! 20%nat = Some 0 -> l !! 21%nat = Some 0 -> cut 20 l = l.
Proof using.
  intros Hl H1 H2. unfold cut. rewrite Hl. rewrite <- (take_drop 20 l) at 2. f_equal.
  rewrite (drop_S l 0 20), (drop_S l 0 21) by done. rewrite drop_ge by lia. done.
Qed.

Lemma trunc_range_run k : forall i fuel s ip,
  (i + k = 20)%nat -> (k < fuel)%nat -> quiet sb s ip -> flat ip -> Z.of_nat k <= bs_room s -> Z.of_nat k <= bs_bufs s ->
  let ip' := set_addrs (cut i (addrs ip)) ip in
  exists s', trunc_range_loop sb fuel in_inode 20 (Z.of_nat i) (mk_fs s ip) = Ret (tt, mk_fs s' ip') /\
    quiet sb s' ip' /\ flat ip' /\ eff s s' (is_bitmap sb) (Z.of_nat k) /\
    forall b, 0 < b < sb_size sb -> used sb s' b = if decide (b ∈ drop i (addrs ip)) then false else used sb s b.
Proof using L.
  induction k as [|k IH]; intros i fuel s ip Hik Hfuel Q F Hroom Hbufs; cbv zeta; (destruct fuel as [|fuel]; [lia|]); cbn [trunc_range_loop].
  - replace i with 20%nat in * by lia. pose proof (t_len _ _ _ (q_tree _ _ _ Q)) as Hl.
    rewrite (cut_flat (addrs ip) Hl (proj1 F) (proj2 F)), set_addrs_id. exists s.
    split; [done|]. split; [done|]. split; [done|]. split; [apply eff_refl, Q|]. intros b Hb. rewrite decide_False; [done|].
    rewrite (drop_S _ 0 20), (drop_S _ 0 21), drop_ge by (rewrite ?Hl; (apply F || lia)). intros Hin.
    apply elem_of_cons in Hin as [->|Hin]; [lia|]. apply list_elem_of_singleton in Hin as ->. lia.
  - rewrite (proj2 (Z.ltb_lt _ _)) by lia. pose proof (q_tree _ _ _ Q) as T.
    rewrite (bind_run _ _ _ _ _ (load_inode_run sb s ip i T ltac:(lia))).
    destruct (lookup_lt_is_Some_2 (addrs ip) i) as [x Hx]; [rewrite (t_len _ _ _ T); lia|].
    assert (addr_at s ip (i, []) = x) as -> by (unfold addr_at; cbn; by rewrite Hx).
    rewrite (drop_S _ x i Hx). replace (Z.of_nat i + 1) with (Z.of_nat (S i)) by lia.
    destruct (Z.eqb_spec x 0) as [->|Hn]; cbn [negb].
    + rewrite (bind_run _ _ _ tt (mk_fs s ip)) by done.
      destruct (IH (S i) fuel s ip) as (s' & Hrun & Q' & F' & He & Hu); [lia|lia|done|done|lia|lia|].
      assert (cut i (addrs ip) = cut (S i) (addrs ip)) as Ec.
      { rewrite (cut_step i _ 0 Hx). f_equal. by apply list_insert_id. }
      rewrite Ec. exists s'. split; [done|]. split; [done|]. split; [done|].
      split; [apply (eff_trans s s s' (fun _ => False) (is_bitmap sb) _ 0 (Z.of_nat k)); [apply eff_refl, Q|done|by intros bn []|auto|lia]|].
      intros b Hb. rewrite Hu by done. destruct (decide (b ∈ drop (S i) (addrs ip))) as [Hin|Hin].
      * rewrite decide_True; [done|by right].
      * rewrite decide_False; [done|]. intros [->|?]%elem_of_cons; [lia|done].
    + destruct (free_entry_run s ip i x Q F ltac:(lia) Hx Hn ltac:(lia) ltac:(lia)) as (s1 & Hfree & Q1 & F1 & He1 & Hu1).
      rewrite (bind_run _ _ _ tt (mk_fs s1 (set_addrs (<[i := 0]> (addrs ip)) ip))).
      2:{ rewrite (bind_run _ _ _ tt (mk_fs s1 ip)) by (by apply on_store_run). apply (store_inode_run sb s ip i 0 T ltac:(lia) s1). }
      pose proof (e_room _ _ _ _ He1). pose proof (e_bufs _ _ _ _ He1).
      destruct (IH (S i) fuel s1 _ ltac:(lia) ltac:(lia) Q1 F1 ltac:(lia) ltac:(lia)) as (s' & Hrun & Q' & F' & He & Hu).
      cbn [addrs set_addrs] in Hu.
      change (set_addrs (cut (S i) _) _) with (set_addrs (cut (S i) (<[i := 0]> (addrs ip))) ip) in Hrun, Q', F'.
      rewrite <- (cut_step i _ x Hx) in Hrun, Q', F'. exists s'. split; [done|]. split; [done|]. split; [done|].
      split; [apply (eff_trans s s1 s' _ _ _ 1 (Z.of_nat k) _ He1 He); [auto|auto|lia]|].
      intros b Hb. rewrite Hu, Hu1 by lia. rewrite drop_insert_lt by lia.
      destruct (decide (b = x)) as [->|Hne]; [rewrite (decide_True (P := x ∈ x :: _)) by left; by case_decide|].
      destruct (decide (b ∈ drop (S i) (addrs ip))) as [Hin|Hin].
      * rewrite decide_True; [done|by right].
      * rewrite decide_False; [done|]. by intros [?|?]%elem_of_cons.
Qed.

(** Truncating a file that has direct blocks only, as files up to 20 KB have, to its
    first [n] blocks frees exactly the disk blocks of the others: the blocks before keep
    their place, the later ones are gone from the file and from the bitmap, and no block
    but the bitmap changes.  Freeing never panics. *)
Theorem vimixfs_trunc_direct s ip n :
  quiet sb s ip -> flat ip -> 0 <= n -> 20 - n <= bs_room s -> 20 - n <= bs_bufs s -> 0 <= bs_room s -> 0 <= bs_bufs s ->
  exists s' ip', vimixfs_trunc sb n (mk_fs s ip) = Ret (tt, mk_fs s' ip') /\ quiet sb s' ip' /\
    (forall b, 0 <= b < VIMIXFS_MAX_FILE_SIZE_BLOCKS -> file_block s' ip' b = if b <? n then file_block s ip b else 0) /\
    (forall b, 0 < b < sb_size sb -> used sb s' b =
       if decide (b ∈ drop (Z.to_nat n) (addrs ip)) then false else used sb s b) /\
    eff s s' (is_bitmap sb) (Z.max 0 (20 - n)).
Proof using L.
  intros Q F Hn Hroom Hbufs Hroom0 Hbufs0. set (i := Nat.min (Z.to_nat n) 20). set (ip1 := set_addrs (cut i (addrs ip)) ip).
  assert (exists s', vimixfs_trunc_block_range sb in_inode 20 n (mk_fs s ip) = Ret (tt, mk_fs s' ip1) /\
    quiet sb s' ip1 /\ flat ip1 /\ eff s s' (is_bitmap sb) (Z.max 0 (20 - n)) /\
    forall b, 0 < b < sb_size sb -> used sb s' b = if decide (b ∈ drop i (addrs ip)) then false else used sb s b) as (s' & Hrun & Q' & F' & He & Hu).
  { destruct (trunc_range_run (20 - i) i 21 s ip ltac:(lia) ltac:(lia) Q F ltac:(lia) ltac:(lia)) as (s' & Hrun & Q' & F' & He & Hu).
    exists s'. split; [|split; [done|split; [done|split; [|done]]]].
    - unfold vimixfs_trunc_block_range. change (S (Z.to_nat 20)) with 21%nat. destruct (Z.ltb_spec n 20) as [H|H].
      + replace n with (Z.of_nat i) by lia. exact Hrun.
      + cbn [trunc_range_loop] in Hrun |- *. rewrite (proj2 (Z.ltb_ge n 20)) by lia. rewrite (proj2 (Z.ltb_ge (Z.of_nat i) 20)) in Hrun by lia.
        exact Hrun.
    - apply (eff_trans s s' s' _ (fun _ => False) _ (Z.of_nat (20 - i)) 0 _ He); [apply eff_refl, He|auto|by intros bn []|lia]. }
  pose proof (q_tree _ _ _ Q') as T'. pose proof (load_inode_run sb s' ip1 20 T' ltac:(lia)) as Hload.
  assert (addr_at s' ip1 (20%nat, []) = 0) as E20 by (unfold addr_at; cbn [fst snd foldl]; by rewrite (proj1 F')). rewrite E20 in Hload.
  set (m := sub_clamped n VIMIXFS_N_DIRECT_BLOCKS). exists s', (set_size (u32 (m * BLOCK_SIZE)) ip1). split.
  { unfold vimixfs_trunc. rewrite (bind_run _ _ _ _ _ Hrun). cbv zeta. fold m. change VIMIXFS_INDIRECT_BLOCK_IDX with (Z.of_nat 20).
    rewrite (bind_run _ _ _ _ _ Hload). by rewrite (bind_run _ _ _ m (mk_fs s' ip1)). }
  split; [destruct Q' as [? ? [] ?]; by split|]. split; [|split; [|done]].
  - intros b Hb. change (file_block s' (set_size _ ip1) b) with (file_block s' ip1 b). unfold file_block, file_place.
    destruct (Z.ltb_spec b 20) as [H1|H1].
    + unfold addr_at. cbn [fst snd foldl]. unfold ip1. cbn [addrs set_addrs]. rewrite cut_lookup.
      destruct (Z.ltb_spec b n); case_decide; (done || lia).
    + pose proof (file_place_valid b Hb) as Hv. unfold file_place in Hv. rewrite (proj2 (Z.ltb_ge b 20)) in Hv by lia.
      destruct (b <? 276); rewrite (flat_below s' ip1 _ _ F' Hv), (flat_below s ip _ _ F Hv) by done; by destruct (_ <? _).
  - intros b Hb. rewrite Hu by done. destruct (decide (Z.to_nat n <= 20)%nat) as [H|H].
    + by replace i with (Z.to_nat n) by lia.
    + pose proof (t_len _ _ _ (q_tree _ _ _ Q)) as Hl. replace i with 20%nat by lia.
      assert (forall k, (20 <= k)%nat -> b ∉ drop k (addrs ip)) as Hnot.
      { intros k Hk (j & Hj)%list_elem_of_lookup. rewrite lookup_drop in Hj. pose proof (lookup_lt_Some _ _ _ Hj).
        destruct F as [F20 F21]. destruct (decide (k + j = 20)%nat) as [E|E]; [rewrite E in Hj|replace (k + j)%nat with 21%nat in Hj by lia];
          simplify_eq; lia. }
      rewrite !decide_False by (apply Hnot; lia). done.
Qed.
End TruncDirect.

(** ** Counting *)

Section Statvfs.
Context {St : Type} `{!BlockStore St} (sb : vimixfs_superblock) (L : layout sb) (A : inode_area sb).

(** How many of the numbers from [a] on, [n] of them, satisfy [f]. *)
Definition count (f : Z -> bool) (a n : Z) : Z := Z.of_nat (length (filter (fun i => f i = true) (seqZ a n))).

Lemma count_cons f a n : 0 < n -> count f a n = (if f a then 1 else 0) + count f (a + 1) (n - 1).
Proof using.
  intros Hn. unfold count. rewrite (seqZ_cons a n) by lia. rewrite filter_cons, <- Z.add_1_r, <- Z.sub_1_r.
  destruct (f a); [rewrite decide_True by done; cbn [length]; lia|by rewrite decide_False by done].
Qed.

Lemma count_nonpos f a n : n <= 0 -> count f a n = 0.
Proof using. intros Hn. unfold count. by rewrite seqZ_nil by lia. Qed.

Lemma count_app f a n m : 0 <= n -> 0 <= m -> count f a (n + m) = count f a n + count f (a + n) m.
Proof using. intros Hn Hm. unfold count. rewrite seqZ_app, filter_app, length_app by done. lia. Qed.

Lemma count_bounds f a n : 0 <= n -> 0 <= count f a n <= n.
Proof using.
  intros Hn. unfold count. pose proof (length_filter (fun i => f i = true) (seqZ a n)) as H. rewrite length_seqZ in H. lia.
Qed.

Lemma count_ext f g a n : (forall i, a <= i < a + n -> f i = g i) -> count f a n = count g a n.
Proof using.
  intros H. unfold count. f_equal. f_equal. assert (forall i, i ∈ seqZ a n -> f i = g i) as Hl by (intros i Hi; by apply H, elem_of_seqZ).
  induction (seqZ a n) as [|x l IH]; [done|]. rewrite !filter_cons, (Hl x ltac:(left)), IH by (intros i Hi; apply Hl; by right). done.
Qed.

Lemma count_shift f b n : 0 <= n -> count f 0 n = count (fun x => f (x - b)) b n.
Proof using.
  intros Hn. assert (forall c, count f (c - b) n = count (fun x => f (x - b)) c n) as H; [|by rewrite <- H, Z.sub_diag].
  revert n Hn. apply (natlike_ind (fun n => forall c, count f (c - b) n = count (fun x => f (x - b)) c n)).
  - intros c. by rewrite !count_nonpos by lia.
  - intros n Hn IH c. rewrite (count_cons f (c - b)), (count_cons _ c) by lia.
    replace (Z.succ n - 1) with n by lia. rewrite <- (IH (c + 1)). do 2 f_equal. lia.
Qed.

Lemma count_free_bits_run d b : forall fuel bi free,
  is_block d -> 0 <= bi <= 8192 -> 0 <= b -> b + 8192 <= 2 ^ 32 -> 0 <= free -> free + (8192 - bi) < 2 ^ 32 ->
  8192 - bi < Z.of_nat fuel ->
  count_free_bits sb fuel b bi d free = Ret (free + count (fun j => negb (bit d j)) bi (Z.min 8192 (sb_size sb - b) - bi)).
Proof using.
  induction fuel as [|fuel IH]; intros bi free Hd Hbi Hb Hb' Hf Hf' Hfuel; [lia|]. cbn [count_free_bits].
  change VIMIXFS_BMAP_BITS_PER_BLOCK with 8192. destruct (Z.ltb_spec bi 8192) as [H1|H1]; cbn [andb].
  2:{ rewrite count_nonpos by lia. by rewrite Z.add_0_r. }
  rewrite uwrap_id by (unfold is_u; lia). destruct (Z.ltb_spec (b + bi) (sb_size sb)) as [H2|H2].
  2:{ rewrite count_nonpos by lia. by rewrite Z.add_0_r. }
  assert (0 <= bi / 8 < 1024) by (split; [apply Z.div_pos; lia | apply Z.div_lt_upper_bound; lia]).
  destruct (is_block_byte d (Z.to_nat (bi / 8)) Hd ltac:(lia)) as [x Hx]. rewrite Hx. cbn [load mbind res_bind].
  pose proof (Z.mod_pos_bound bi 8 ltac:(lia)).
  assert (bit d bi = Z.testbit x (bi mod 8)) as Ebit by (unfold bit; by rewrite Hx).
  rewrite land_bit by lia. rewrite <- Ebit. rewrite IH; try done; [|lia|destruct (negb _); rewrite ?uwrap_id; unfold is_u; lia|
    destruct (negb _); rewrite ?uwrap_id; unfold is_u; lia|lia].
  f_equal. rewrite (count_cons _ bi) by lia. replace (Z.min 8192 (sb_size sb - b) - (bi + 1)) with (Z.min 8192 (sb_size sb - b) - bi - 1) by lia.
  destruct (negb (bit d bi)); rewrite ?uwrap_id by (unfold is_u; lia); lia.
Qed.

(** The blocks that the bitmap shows as free. *)
Abbreviation free_block s := (fun b => negb (used sb s b)).

Lemma count_free_blocks_run : forall fuel k s free,
  bs_inv s -> fs_ok sb s -> (forall bn, is_bitmap sb bn -> bs_free s bn) -> 0 < bs_bufs s -> 0 <= k -> 8192 * k < sb_size sb + 8192 ->
  0 <= free -> free + (sb_size sb - 8192 * k) + 8192 < 2 ^ 32 -> sb_size sb - 8192 * k < 8192 * (Z.of_nat fuel - 1) ->
  exists s', count_free_blocks sb fuel (8192 * k) free s = Ret (free + count (free_block s) (8192 * k) (sb_size sb - 8192 * k), s') /\
    eff s s' (fun _ => False) 0.
Proof using L.
  induction fuel as [|fuel IH]; intros k s free I Hok Hbf Hb Hk Hk' Hf Hf' Hfuel; [lia|].
  cbn [count_free_blocks]. destruct (Z.ltb_spec (8192 * k) (sb_size sb)) as [H|H].
  2:{ exists s. rewrite count_nonpos by lia. rewrite Z.add_0_r. split; [done|by apply eff_refl]. }
  destruct (block_of_bit sb L (8192 * k) ltac:(lia)) as [-> Hbm]. replace (8192 * k / 8192) with k in * by (rewrite Z.mul_comm, Z.div_mul; lia).
  pose proof (bitmap_range sb L _ Hbm). set (bb := sb_bmapstart sb + k) in *.
  destruct (read_run s bb I (Hbf _ Hbm) Hb) as (bp & s1 & Hread & I1 & Hh & Hv & _).
  destruct (read_release_run s s1 bp bb I (Hbf _ Hbm) Hb Hread) as (s2 & Hrel & He).
  rewrite (bind_run _ _ s bp s1 Hread).
  rewrite (bind_run _ _ s1 (bs_view s bb) s1) by (rewrite <- Hv; by apply (bs_data_run s1 bp _ true)).
  change VIMIXFS_BMAP_BITS_PER_BLOCK with 8192. set (m := Z.min 8192 (sb_size sb - 8192 * k)). destruct L as [Hls _ _].
  assert (lift (count_free_bits sb (S (Z.to_nat 8192)) (8192 * k) 0 (bs_view s bb) free) s1 = Ret (free + count (free_block s) (8192 * k) m, s1)) as Hc.
  { rewrite count_free_bits_run; [|apply Hok; lia|lia..]. unfold lift. cbn. do 3 f_equal.
    rewrite Z.sub_0_r, (count_shift _ (8192 * k)) by lia. apply count_ext. intros i Hi.
    rewrite <- (used_at sb s k (i - 8192 * k)) by lia. do 2 f_equal. lia. }
  rewrite (bind_run _ _ s1 _ s1 Hc). rewrite (bind_run _ _ s1 tt s2 Hrel).
  rewrite uwrap_id by (unfold is_u; lia). replace (8192 * k + 8192) with (8192 * (k + 1)) by lia.
  pose proof (count_bounds (free_block s) (8192 * k) m ltac:(lia)). pose proof (e_bufs _ _ _ _ He).
  destruct (IH (k + 1) s2 (free + count (free_block s) (8192 * k) m)) as (s3 & Hrun & He3);
    [apply He|by apply (fs_ok_same sb s)|by intros bn Hbn; apply He, Hbf|lia..|].
  exists s3. split; [|by apply (eff_same s s2)]. rewrite Hrun. f_equal. f_equal.
  rewrite <- Z.add_assoc. f_equal.
  rewrite (count_ext (free_block s2) (free_block s)) by (intros i _; by rewrite (used_same sb s)).
  destruct (Z.le_gt_cases 8192 (sb_size sb - 8192 * k)) as [Hge|Hlt].
  - replace m with 8192 by lia. replace (8192 * (k + 1)) with (8192 * k + 8192) by lia. rewrite <- count_app by lia. f_equal. lia.
  - replace m with (sb_size sb - 8192 * k) by lia. rewrite (count_nonpos _ (8192 * (k + 1))) by lia. lia.
Qed.

(** Inode [n], which is not 0, is marked as unused on disk. *)
Definition free_inode (s : St) (n : Z) : bool :=
  negb (n =? 0) && match get_u32 (Z.to_nat (128 * (n mod 8))) (bs_view s (sb_inodestart sb + n / 8)) with
                   | Some mode => mode =? 0 | None => false end.

Lemma count_in_block_run s bnum : forall k i free,
  is_block (bs_view s (sb_inodestart sb + bnum)) -> 0 <= bnum -> 0 <= i -> i + Z.of_nat k <= 8 -> 0 <= free -> free + Z.of_nat k < 2 ^ 32 ->
  count_free_in_block k bnum i (bs_view s (sb_inodestart sb + bnum)) free =
  Ret (free + count (free_inode s) (8 * bnum + i) (Z.of_nat k)).
Proof using.
  induction k as [|k IH]; intros i free Hd Hb Hi Hk Hf Hf'; cbn [count_free_in_block].
  { rewrite count_nonpos by lia. by rewrite Z.add_0_r. }
  unfold VIMIXFS_INUM_OF_DINODE, VIMIXFS_DINODE_OFFSET_IN_BLOCK. change VIMIXFS_INODES_PER_BLOCK with 8. change DINODE_SIZE with 128.
  rewrite count_cons by lia. replace (Z.of_nat (S k) - 1) with (Z.of_nat k) by lia. replace (bnum * 8 + i) with (8 * bnum + i) by lia.
  unfold free_inode at 1. replace (8 * bnum + i + 1) with (8 * bnum + (i + 1)) by lia.
  destruct (Z.eqb_spec (8 * bnum + i) 0) as [E|E]; cbn [negb andb].
  { rewrite IH by (done || lia). f_equal. }
  assert ((8 * bnum + i) / 8 = bnum) as -> by (symmetry; apply (Z.div_unique _ _ _ i); lia).
  assert ((8 * bnum + i) mod 8 = i) as -> by (symmetry; apply (Z.mod_unique _ _ bnum); lia).
  destruct (get_words_typed 1 (Z.to_nat (128 * i)) _ Hd ltac:(lia)) as (ws & Hw & Hl & _). cbn [get_words] in Hw.
  destruct (get_u32 (Z.to_nat (128 * i)) (bs_view s (sb_inodestart sb + bnum))) as [mode|]; [|done]. cbn [load mbind res_bind].
  change VIMIXFS_INVALID_MODE with 0.
  rewrite IH; try done; try lia; destruct (mode =? 0); rewrite ?uwrap_id; try (unfold is_u; lia); f_equal; lia.
Qed.

Lemma count_free_inodes_run : forall k bnum s free,
  bs_inv s -> fs_ok sb s -> (forall bn, 0 <= bn < sb_size sb -> bs_free s bn) -> 0 < bs_bufs s ->
  0 <= bnum -> bnum + Z.of_nat k <= sb_ninode_blocks sb -> 0 <= free -> free + 8 * Z.of_nat k < 2 ^ 32 ->
  exists s', count_free_inodes sb k bnum free s = Ret (free + count (free_inode s) (8 * bnum) (8 * Z.of_nat k), s') /\
    eff s s' (fun _ => False) 0.
Proof using L A.
  induction k as [|k IH]; intros bnum s free I Hok Hfree Hb Hn Hk Hf Hf'; cbn [count_free_inodes].
  { exists s. rewrite count_nonpos by lia. rewrite Z.add_0_r. split; [done|by apply eff_refl]. }
  set (bn := sb_inodestart sb + bnum) in *. assert (0 <= bn < sb_size sb) as Hbn.
  { destruct A as (A1 & A2 & A3). destruct L as [_ _ Hd]. unfold data_start, VIMIXFS_BLOCKS_FOR_BITMAP in Hd.
    change VIMIXFS_BMAP_BITS_PER_BLOCK with 8192 in Hd. pose proof (ly_size sb L). pose proof (Z.div_pos (sb_size sb) 8192). lia. }
  destruct (read_run s bn I (Hfree _ Hbn) Hb) as (bp & s1 & Hread & I1 & Hh & Hv & _).
  destruct (read_release_run s s1 bp bn I (Hfree _ Hbn) Hb Hread) as (s2 & Hrel & He).
  rewrite (bind_run _ _ s bp s1 Hread).
  rewrite (bind_run _ _ s1 (bs_view s bn) s1) by (rewrite <- Hv; by apply (bs_data_run s1 bp _ true)).
  change (Z.to_nat VIMIXFS_INODES_PER_BLOCK) with 8%nat.
  rewrite (bind_run _ _ s1 (free + count (free_inode s) (8 * bnum) 8) s1).
  2:{ unfold bn. rewrite count_in_block_run; [|apply Hok; done|lia..]. unfold lift. cbn. do 3 f_equal. f_equal. lia. }
  rewrite (bind_run _ _ s1 tt s2 Hrel). pose proof (count_bounds (free_inode s) (8 * bnum) 8 ltac:(lia)). pose proof (e_bufs _ _ _ _ He).
  destruct (IH (bnum + 1) s2 (free + count (free_inode s) (8 * bnum) 8)) as (s3 & Hrun & He3);
    [apply He|by apply (fs_ok_same sb s)|by intros b Hb'; apply He, Hfree|lia..|].
  exists s3. split; [|by apply (eff_same s s2)]. rewrite Hrun. f_equal. f_equal. rewrite <- Z.add_assoc. f_equal.
  rewrite (count_ext (free_inode s2) (free_inode s)) by (intros i _; unfold free_inode; by rewrite (e_view _ _ _ _ He) by intros []).
  replace (8 * Z.of_nat (S k)) with (8 + 8 * Z.of_nat k) by lia. rewrite count_app by lia. do 2 f_equal. lia.
Qed.

(** [vimix_sops_statvfs] reports exactly the numbers of blocks that the bitmap shows
    as free and of inodes that are unused, inode 0 not counted; it changes no block and
    logs nothing. *)
Theorem statvfs_spec s sb_dev flags :
  bs_inv s -> fs_ok sb s -> (forall bn, 0 <= bn < sb_size sb -> bs_free s bn) -> 0 < bs_bufs s ->
  sb_size sb + 8192 < 2 ^ 32 -> 8 * sb_ninode_blocks sb < 2 ^ 32 ->
  exists st s', vimix_sops_statvfs sb sb_dev flags s = Ret (st, s') /\ eff s s' (fun _ => False) 0 /\
    f_blocks st = sb_size sb /\ f_bfree st = count (free_block s) 0 (sb_size sb) /\ f_bavail st = f_bfree st /\
    f_files st = 8 * sb_ninode_blocks sb /\ f_ffree st = count (free_inode s) 0 (8 * sb_ninode_blocks sb) /\ f_favail st = f_ffree st.
Proof using L A.
  intros I Hok Hfree Hb Hs Hi. pose proof (ly_size sb L). pose proof (Z.div_pos (sb_size sb) 8192 ltac:(lia) ltac:(lia)).
  pose proof (Z.mul_succ_div_gt (sb_size sb) 8192 ltac:(lia)). destruct A as (A1 & A2 & A3).
  destruct (count_free_blocks_run (Z.to_nat (sb_size sb / 8192 + 2)) 0 s 0) as (s1 & Hrun1 & He1); try done; try lia.
  { intros bn Hbn. apply Hfree. pose proof (bitmap_range sb L bn Hbn). lia. }
  pose proof (e_bufs _ _ _ _ He1). replace (8192 * 0) with 0 in Hrun1 by lia. rewrite Z.sub_0_r, Z.add_0_l in Hrun1.
  destruct (count_free_inodes_run (Z.to_nat (sb_ninode_blocks sb)) 0 s1 0) as (s2 & Hrun2 & He2);
    [apply He1|by apply (fs_ok_same sb s)|by intros b Hb'; apply He1, Hfree|lia..|].
  unfold vimix_sops_statvfs. change VIMIXFS_BMAP_BITS_PER_BLOCK with 8192. rewrite (bind_run _ _ s _ s1 Hrun1), (bind_run _ _ s1 _ s2 Hrun2).
  eexists _, s2. split; [done|]. split; [by apply (eff_same s s1)|]. cbn [f_blocks f_bfree f_bavail f_files f_ffree f_favail].
  rewrite Z2Nat.id by lia. change VIMIXFS_INODES_PER_BLOCK with 8. split; [done|]. split; [done|]. split; [done|]. split; [lia|]. split; [|done].
  rewrite Z.add_0_l. apply count_ext. intros i _. unfold free_inode. by rewrite (e_view _ _ _ _ He1) by intros [].
Qed.
End Statvfs.

(** ** What goes wrong: concrete runs *)

(** A file that gets blocks 20, 276 and 277: the indirect and the double indirect
    block. *)
Definition sparse_file : fs lfs :=
  ran (_ ← @bmap_get_block_address lfs small_store small_sb 20; _ ← @bmap_get_block_address lfs small_store small_sb 276;
       @bmap_get_block_address lfs small_store small_sb 277) (mk_fs small_fs empty_inode).

Definition sparse_cut : fs lfs := ran (@vimixfs_trunc lfs small_store small_sb 277) sparse_file.

Definition outcome {S A} (m : ST S A) (s : S) : res A := x ← m s; mret (fst x).


(** An empty file is grown to 1500 bytes. *)
Definition grown_file : fs lfs := ran (vimixfs_iops_truncate (Z.eqb 1) 1 6 small_sb 5 5 1500) (mk_fs small_mounted empty_inode).

(** [trunc_grow] allocates the block after the one that the file needs: the first
    block of an empty file that was grown to 1500 bytes is a hole.  Reading a byte of it
    tries to allocate the block outside of a transaction, and the kernel panics. *)
Theorem truncate_grow_then_read_panics :
  outcome (vimixfs_iops_truncate (Z.eqb 1) 1 6 small_sb 5 5 1500) (mk_fs small_mounted empty_inode) = Ret 0 /\
  i_size (fs_ip grown_file) = 1500 /\
  @file_block lfs small_store (fs_st grown_file) (fs_ip grown_file) 0 = 0 /\
  outcome (@vimixfs_iops_read lfs (lfs_BlockStore (Z.eqb 1) 1 6 (fun _ => 0)) small_sb (fun _ => true) 0 500 1) grown_file = Panic.
Proof. vm_compute. repeat split. Qed.

(** ** The small file system *)

(** The empty file gets its block 15. *)
Definition block_15 : fs lfs := ran (@bmap_get_block_address lfs small_store small_sb 15) (mk_fs small_fs empty_inode).

Lemma block_15_quiet : @quiet lfs small_store small_sb (fs_st block_15) (fs_ip block_15).
Proof.
  destruct small_budget as [Hr Hb].
  destruct (@bmap_run lfs small_store small_sb small_layout small_fs empty_inode 15 small_quiet) as (a & s' & ip' & Hrun & M); [|lia..|].
  - vm_compute. split; [discriminate|reflexivity].
  - unfold block_15, ran. rewrite Hrun. apply M.
Qed.

Lemma vimixfs_trunc_direct_witness :
  exists s' ip', @vimixfs_trunc lfs small_store small_sb 15 block_15 = Ret (tt, mk_fs s' ip') /\
    @quiet lfs small_store small_sb s' ip'.
Proof.
  destruct (@vimixfs_trunc_direct lfs small_store small_sb small_layout (fs_st block_15) (fs_ip block_15) 15 block_15_quiet)
    as (s' & ip' & H1 & H2 & _).
  - vm_compute. split; reflexivity.
  - lia.
  - vm_compute. discriminate.
  - vm_compute. discriminate.
  - vm_compute. discriminate.
  - vm_compute. discriminate.
  - exists s', ip'. split; [|exact H2]. rewrite <- H1. by destruct block_15.
Defined.

Lemma statvfs_spec_witness :
  exists st s', @vimix_sops_statvfs lfs small_store small_sb 1 0 small_fs = Ret (st, s') /\
    f_bfree st = @count (fun b => negb (@used lfs small_store small_sb small_fs b)) 0 64.
Proof.
  destruct small_budget as [Hr Hb]. destruct small_tx as [Ht Hf].
  destruct (@statvfs_spec lfs small_store small_sb small_layout small_area small_fs 1 0 Ht small_fs_ok (fun bn _ => Hf bn))
    as (st & s' & H1 & _ & _ & H2 & _).
  - lia.
  - cbn. lia.
  - cbn. lia.
  - exists st, s'. split; [exact H1|exact H2].
Defined.
