(* ===== verification/Durable.v ===== *)
(** * Operations as transactions (kernel/fs/vimixfs/vimixfs.c, log.c, kernel/fs/bio.c)

    An operation of the file system that runs inside of a transaction changes the cache;
    the end of the transaction writes what it changed to the disk.  This file composes
    the block map and the inodes, which only know the interface [BlockStore], with the
    log and the buffer cache that implement it. *)
From stdpp Require Import list gmap.
From S2P Require Import Prelude Bytes Bio Log LogCommit Perm Txn Bmap Inode FileData Trunc.

(** ** What a computation keeps *)

Definition respects {S A} (R : S -> S -> Prop) (m : ST S A) : Prop := forall s a s', m s = Ret (a, s') -> R s s'.

Section Respects.
Context {S : Type} (R : S -> S -> Prop) `{!PreOrder R}.

Lemma respects_ret {A} (a : A) : respects R (mret a).
Proof using All. intros s b s' [= <- <-]. reflexivity. Qed.

Lemma respects_lift {A} (r : res A) : respects R (lift r).
Proof using All. intros s b s'. unfold lift. destruct r; intros [= <- <-]. reflexivity. Qed.

Lemma respects_get : respects R get.
Proof using All. intros s b s' [= <- <-]. reflexivity. Qed.

Lemma respects_bind {A B} (m : ST S A) (f : A -> ST S B) :
  respects R m -> (forall a, respects R (f a)) -> respects R (m ≫= f).
Proof using All. intros Hm Hf s b s' (a & s1 & E1 & E2)%ST_bind_Ret. etrans; [by eapply Hm|by eapply Hf]. Qed.

Lemma respects_modify (f : S -> S) : (forall s, R s (f s)) -> respects R (modify f).
Proof using. intros H s a s' [= <- <-]. apply H. Qed.
End Respects.

Create HintDb steady.
#[export] Hint Extern 1 (respects _ (mret _)) => apply respects_ret; typeclasses eauto : steady.
#[export] Hint Extern 1 (respects _ (lift _)) => apply respects_lift; typeclasses eauto : steady.
#[export] Hint Extern 1 (respects _ get) => apply respects_get; typeclasses eauto : steady.
#[export] Hint Extern 2 (respects _ (_ ≫= _)) => apply respects_bind; [typeclasses eauto| |intros ?] : steady.
#[export] Hint Extern 2 (respects _ (if ?b then _ else _)) => destruct b : steady.
#[export] Hint Extern 2 (respects _ (match ?b with Some _ => _ | None => _ end)) => destruct b : steady.

(** The buffer cache: nothing is written to the disk. *)
Definition same_disk (s s' : bio) : Prop := disk s' = disk s.

#[export] Instance same_disk_PreOrder : PreOrder same_disk.
Proof. split; unfold same_disk; congruence. Qed.

Lemma disk_modify (f : bio -> bio) : (forall s, disk (f s) = disk s) -> respects same_disk (modify f).
Proof. intros H. apply respects_modify. exact H. Qed.

Lemma disk_deref id : respects same_disk (deref id).
Proof. intros s a s'. unfold deref. destruct (find_buf _ _); intros [= <- <-]. reflexivity. Qed.

Lemma disk_modify_buf id f : respects same_disk (modify_buf id f).
Proof. by apply disk_modify. Qed.
#[export] Hint Resolve disk_deref disk_modify_buf : steady.
#[export] Hint Extern 1 (respects same_disk (modify _)) => by apply disk_modify : steady.

Lemma disk_buf_alloc dev bn : respects same_disk (buf_alloc_init dev bn).
Proof.
  intros s a s'. unfold buf_alloc_init, mbind, ST_bind, get. cbn. destruct (heap s); intros [= <- <-]; reflexivity.
Qed.
#[export] Hint Resolve disk_buf_alloc : steady.

Lemma disk_sleep_lock id : respects same_disk (Bio.sleep_lock id).
Proof. unfold Bio.sleep_lock. auto with steady. Qed.
#[export] Hint Resolve disk_sleep_lock : steady.

Lemma disk_bio_read devs dev bn : respects same_disk (bio_read devs dev bn).
Proof.
  unfold bio_read, bio_get_from_cache. apply respects_bind; [typeclasses eauto| |intros id; auto 10 with steady].
  apply respects_bind; [typeclasses eauto|auto with steady|intros s].
  apply respects_bind; [typeclasses eauto| |intros id; auto with steady].
  destruct (cache_scan _ _ _ _) as [[b|] [i|]]; auto 10 with steady.
Qed.

Lemma disk_bio_release id : respects same_disk (bio_release id).
Proof.
  unfold bio_release, Bio.sleep_unlock, bio_might_free, buf_deinit, kfree_buf. auto 15 with steady.
Qed.

Lemma disk_bio_get id : respects same_disk (bio_get id).
Proof. unfold bio_get. auto with steady. Qed.

(** ** What stays in a transaction

    Between the begin and the end of a transaction only the cache, the blocks listed in
    the header and the blocks used change; no block is listed twice. *)

Definition head_ok (l : log) : Prop :=
  0 <= lh_n l <= Z.of_nat (length (lh_block l)) /\ Z.of_nat (length (lh_block l)) < 2 ^ 32 /\
  NoDup (take (Z.to_nat (lh_n l)) (lh_block l)).

Record log_static (l l' : log) : Prop := {
  ls_start : lg_start l' = lg_start l;
  ls_size : lg_size l' = lg_size l;
  ls_dev : lg_dev l' = lg_dev l;
  ls_outstanding : lg_outstanding l' = lg_outstanding l;
  ls_committing : lg_committing l' = lg_committing l;
  ls_clients : clients l' = clients l;
  ls_reserved : blocks_reserved l' = blocks_reserved l;
  ls_old : blocks_used_old_clients l' = blocks_used_old_clients l;
  ls_head : head_ok l -> head_ok l'
}.

Record steady (s s' : lfs) : Prop := {
  st_log : log_static (l_log s) (l_log s');
  st_depth : l_depth s' = l_depth s;
  st_disk : disk (l_bio s') = disk (l_bio s)
}.

#[export] Instance log_static_PreOrder : PreOrder log_static.
Proof. split; [intros l; by split|]. intros l l' l'' [] []. split; congruence || auto. Qed.

#[export] Instance steady_PreOrder : PreOrder steady.
Proof. split; [intros s; by split|]. intros s s' s'' [] []. split; [by etrans|congruence|congruence]. Qed.

Lemma steady_on_bio {A} (m : ST bio A) : respects same_disk m -> respects steady (on_bio m).
Proof.
  intros H s a s'. unfold on_bio. destruct (m _) as [[]| | | |] eqn:E; intros [= <- <-]. split; [done..|]. by apply (H _ _ _ E).
Qed.
#[export] Hint Resolve steady_on_bio disk_bio_read disk_bio_release disk_bio_get : steady.

(** A block that is not listed yet is listed at the end. *)
Lemma log_append_static l bn u u' i :
  bn ∉ take (Z.to_nat (lh_n l)) (lh_block l) -> (Z.to_nat (lh_n l) < length (lh_block l))%nat -> u = u32 (lh_n l + 1) ->
  log_static l (count_used i u' (set_lh_n u (set_lh_block (<[Z.to_nat (lh_n l) := bn]> (lh_block l)) l))).
Proof.
  intros Hni Hlt ->. split; try done. intros (Hn & Hlen & Hnd). unfold head_ok. cbn [lh_n lh_block count_used set_lh_n set_lh_block].
  rewrite length_insert, uwrap_id by (unfold is_u; lia). split; [lia|]. split; [done|].
  replace (Z.to_nat (lh_n l + 1)) with (S (Z.to_nat (lh_n l))) by lia.
  rewrite (take_S_r _ _ bn) by (by apply list_lookup_insert_eq). rewrite take_insert_ge by lia.
  apply NoDup_app. split; [done|]. split; [by intros x Hx ->%list_elem_of_singleton|apply NoDup_singleton].
Qed.

Lemma steady_log_write pid b : respects steady (log_write pid b).
Proof.
  intros s [] s' E. unfold log_write in E. apply ST_bind_Ret in E as (? & ? & [= <- <-] & E).
  apply ST_bind_Ret in E as ([] & s1 & E1 & E). apply respects_lift with (R := eq) in E1 as <-; [|typeclasses eauto].
  apply ST_bind_Ret in E as ([] & s1 & E1 & E). apply respects_lift with (R := eq) in E1 as <-; [|typeclasses eauto].
  apply ST_bind_Ret in E as (bf & s1 & E1 & E).
  assert (s1 = s) as ->.
  { unfold on_bio, deref in E1. destruct (find_buf b _); [|done]. injection E1 as _ <-. by destruct s. }
  destruct (negb (log_index (b_blockno bf) (l_log s) =? lh_n (l_log s))) eqn:Ei; [injection E as <-; reflexivity|].
  apply negb_false_iff, Z.eqb_eq in Ei. rewrite Ei in E.
  apply ST_bind_Ret in E as ([] & s1 & E2 & E). destruct (decide _) as [Hlt|]; [|done]. injection E2 as <-.
  apply ST_bind_Ret in E as ([] & s1 & [= <-] & E). apply ST_bind_Ret in E as ([] & s2 & E2 & E).
  assert (l_log s2 = set_lh_block (<[Z.to_nat (lh_n (l_log s)):=b_blockno bf]> (lh_block (l_log s))) (l_log s) /\ l_depth s2 = l_depth s /\
    disk (l_bio s2) = disk (l_bio s)) as (El & Ed & Eb).
  { destruct (keeps_on_bio _ _ _ _ E2) as [-> ->]. split; [done|]. split; [done|].
    by apply (steady_on_bio _ (disk_bio_get b) _ _ _ E2). }
  apply ST_bind_Ret in E as ([] & s3 & [= <-] & E). apply ST_bind_Ret in E as ([] & s3 & E3 & E).
  apply respects_lift with (R := eq) in E3 as <-; [|typeclasses eauto].
  apply ST_bind_Ret in E as (used & s3 & E3 & E). apply respects_lift with (R := eq) in E3 as <-; [|typeclasses eauto].
  injection E as <-. split; cbn [l_log l_depth l_bio]; [|done..]. rewrite El. cbn [lh_n set_lh_block].
  destruct (decide (0 <= lh_n (l_log s) /\ (Z.to_nat (lh_n (l_log s)) <= length (lh_block (l_log s)))%nat)) as [[H1 H2]|H].
  - destruct (log_index_spec (b_blockno bf) (l_log s) H2 H1) as [[_ Hni]|[? _]]; [|done]. by apply log_append_static.
  - split; try done. intros (Hn & _ & _). exfalso. apply H. lia.
Qed.
#[export] Hint Resolve steady_log_write : steady.

(** ** Programs over the interface

    What the operations of [BlockStore] keep, the file system keeps. *)

Section Programs.
Context {St : Type} `{!BlockStore St} (R : St -> St -> Prop) `{!PreOrder R} (sb : vimixfs_superblock) (sb_dev : Z).
Context (Hread : forall bn, respects R (bs_read bn)) (Hdata : forall id, respects R (bs_data id))
  (Hset : forall id d, respects R (bs_set id d)) (Hlog : forall id, respects R (bs_log id))
  (Hrelease : forall id, respects R (bs_release id)).

Definition on_fs (s s' : fs St) : Prop := R (fs_st s) (fs_st s').

#[local] Instance on_fs_PreOrder : PreOrder on_fs.
Proof using PreOrder0. split; unfold on_fs; [intros s; reflexivity|]. intros s s' s''. apply transitivity. Qed.

Lemma keep_on_store {A} (m : ST St A) : respects R m -> respects on_fs (on_store m).
Proof using.
  intros H s a s'. unfold on_store. destruct (m _) as [[]| | | |] eqn:E; intros [= <- <-]. by apply (H _ _ _ E).
Qed.

Lemma keep_modify_ip (f : vimixfs_inode -> vimixfs_inode) : respects on_fs (modify_ip f).
Proof using PreOrder0. apply respects_modify. intros s. unfold on_fs. reflexivity. Qed.

Lemma keep_get_ip : respects on_fs get_ip.
Proof using PreOrder0. unfold get_ip. auto with steady. Qed.

#[local] Hint Resolve keep_on_store keep_modify_ip keep_get_ip : steady.

Lemma keep_block_zero bn : respects R (block_zero bn).
Proof using All. unfold block_zero. auto 10 with steady. Qed.
#[local] Hint Resolve keep_block_zero : steady.

Lemma keep_block_alloc : respects R (block_alloc_init sb).
Proof using All.
  unfold block_alloc_init. generalize 0. induction (Z.to_nat _) as [|fuel IH]; intros b; cbn [block_alloc_loop]; [auto with steady|].
  destruct (b <? sb_size sb); [|auto with steady]. do 3 (apply respects_bind; [done|auto with steady|intros ?]).
  destruct a1 as [[]|]; auto 10 with steady.
Qed.

Lemma keep_block_free b : respects R (block_free sb b).
Proof using All. unfold block_free. auto 15 with steady. Qed.

Lemma keep_load_addr p i : respects on_fs (load_addr p i).
Proof using All. unfold load_addr. destruct p; auto with steady. Qed.

Lemma keep_store_addr p i v : respects on_fs (store_addr p i v).
Proof using All.
  unfold store_addr. destruct p as [|bp]; [|auto with steady]. intros s a s' E. apply ST_bind_Ret in E as (? & ? & [= <- <-] & E).
  apply ST_bind_Ret in E as ([] & s1 & E1 & E). injection E as _ <-. unfold on_fs. reflexivity.
Qed.
#[local] Hint Resolve keep_block_alloc keep_block_free keep_load_addr keep_store_addr : steady.

Lemma keep_from_block_range p i : respects on_fs (bmap_from_block_range sb p i).
Proof using All. unfold bmap_from_block_range. auto 10 with steady. Qed.
#[local] Hint Resolve keep_from_block_range : steady.

Lemma keep_from_block a i : respects on_fs (bmap_from_block sb a i).
Proof using All. unfold bmap_from_block. auto 12 with steady. Qed.

Lemma keep_need_block i : respects on_fs (need_block sb i).
Proof using All. unfold need_block. auto 10 with steady. Qed.
#[local] Hint Resolve keep_from_block keep_need_block : steady.

Lemma keep_bmap n : respects on_fs (bmap_get_block_address sb n).
Proof using All. unfold bmap_get_block_address. auto 15 with steady. Qed.
#[local] Hint Resolve keep_bmap : steady.

Lemma keep_write_inode : respects on_fs (vimixfs_sops_write_inode sb sb_dev).
Proof using All. unfold vimixfs_sops_write_inode. auto 15 with steady. Qed.
#[local] Hint Resolve keep_write_inode : steady.

Lemma keep_write source src off n : respects on_fs (vimixfs_write sb sb_dev source src off n).
Proof using All.
  unfold vimixfs_write. apply respects_bind; [typeclasses eauto|auto with steady|intros ip].
  destruct (_ || _)%bool; [auto with steady|]. destruct (_ <? _); [auto with steady|].
  apply respects_bind; [typeclasses eauto| |intros r; auto 10 with steady]. generalize off src 0.
  induction (rw_fuel n) as [|fuel IH]; intros o sr t; cbn [file_write_loop]; [auto with steady|].
  destruct (_ <? _); [|auto with steady]. apply respects_bind; [typeclasses eauto|auto with steady|intros a].
  destruct (a =? 0); [auto with steady|]. do 3 (apply respects_bind; [typeclasses eauto|auto with steady|intros ?]).
  destruct (decide _); auto 10 with steady.
Qed.

Lemma keep_clear_block b from : respects on_fs (clear_block_from sb b from).
Proof using All. unfold clear_block_from. auto 15 with steady. Qed.
End Programs.

(** ** A transaction of a single process

    [idle]: the file system between transactions.  Nothing is logged, locked or in use,
    so the cache holds what the disk holds. *)

Section Transaction.
Context (devs : Z -> bool) (dev pid : Z).

#[local] Instance tx_store : BlockStore lfs := lfs_BlockStore devs dev pid (fun _ => 0).

Record idle (s : lfs) : Prop := {
  id_dev : dev <> 0 /\ devs dev = true /\ lg_dev (l_log s) = dev;
  id_pid : 0 < pid /\ default 0 (l_depth s !! pid) = 0;
  id_log : log_ok (l_log s);
  id_geo : 0 <= lg_start (l_log s) /\ lg_start (l_log s) + lg_size (l_log s) + 1 <= 2 ^ 32 /\ lg_size (l_log s) <= VIMIXFS_MAX_LOG_BLOCKS;
  id_empty : lh_n (l_log s) = 0 /\ lg_outstanding (l_log s) = 0 /\ lg_committing (l_log s) = 0;
  id_bio : bio_inv (l_bio s) /\ bio_clean (l_bio s);
  id_unused bn : lockd (l_bio s) (dev, bn) = false /\ refs (l_bio s) (dev, bn) = 0
}.

(** A block that a transaction of at most [r] blocks may write: it is not in the part of
    the log that the transaction uses, the header and [r] blocks. *)
Definition home (s : lfs) (r bn : Z) : Prop :=
  is_u 32 bn /\ ~ (lg_start (l_log s) <= bn <= lg_start (l_log s) + r).

(** The state after the begin of a transaction that reserved [r] blocks in slot [i]. *)
Record started (s : lfs) (i : nat) (r : Z) (s1 : lfs) : Prop := {
  sd_tx : tx_inv devs dev pid (fun _ => 0) s1;
  sd_free bn : tx_free dev s1 bn;
  sd_room : tx_room pid s1 = r;
  sd_bio : l_bio s1 = l_bio s;
  sd_client : clients (l_log s1) !! i = Some pid;
  sd_count : lg_outstanding (l_log s1) = 1 /\ lg_committing (l_log s1) = 0;
  sd_head : head_ok (l_log s1);
  sd_sum : blocks_used_old_clients (l_log s1) + zsum (blocks_reserved (l_log s1)) = r;
  sd_depth : l_depth s1 = <[pid := 1]> (l_depth s);
  sd_geo : lg_start (l_log s1) = lg_start (l_log s) /\ lg_size (l_log s1) = lg_size (l_log s) /\ lg_dev (l_log s1) = dev
}.

Lemma logged_le l : log_ok l -> lh_n l <= blocks_used_old_clients l + zsum (blocks_reserved l).
Proof using.
  intros Hok. rewrite (ok_n _ Hok). pose proof (ok_within _ Hok) as Hw.
  assert (length (blocks_used l) = length (blocks_reserved l)) as Hl by (by rewrite (ok_lused _ Hok), (ok_lreserved _ Hok)).
  pose proof (zsum_le _ _ Hl (fun i x y Hx Hy => proj2 (Hw i x y Hx Hy))). lia.
Qed.

Lemma idle_available l : log_ok l -> lg_outstanding l = 0 -> lh_n l = 0 ->
  available_blocks l = lg_size l /\ forall c, c ∈ clients l -> c = 0.
Proof using.
  intros Hok Ho Hn. assert (forall i c, clients l !! i = Some c -> c = 0) as Hz
    by (apply active_zero; by rewrite <- (ok_outstanding _ Hok)).
  split; [|by intros c (i & Hi)%list_elem_of_lookup; apply (Hz i)].
  unfold available_blocks. pose proof (ok_n _ Hok). pose proof (ok_old _ Hok). pose proof (reserved_nonneg l Hok).
  assert (0 <= zsum (blocks_used l)).
  { apply zsum_nonneg. intros j x Hx. destruct (lookup_lt_is_Some_2 (blocks_reserved l) j) as [y Hy].
    - rewrite (ok_lreserved _ Hok), <- (ok_lused _ Hok). by eapply lookup_lt_Some.
    - pose proof (ok_within _ Hok j x y Hx Hy). lia. }
  assert (zsum (blocks_reserved l) = 0); [|lia].
  assert (Forall (fun x => x = 0) (blocks_reserved l)) as Hall.
  { apply Forall_lookup. intros j x Hx. destruct (lookup_lt_is_Some_2 (clients l) j) as [c Hc].
    - rewrite (ok_clients _ Hok), <- (ok_lreserved _ Hok). by eapply lookup_lt_Some.
    - rewrite (Hz j c Hc) in Hc. destruct (ok_idle _ Hok j Hc) as [_ Hr]. congruence. }
  clear -Hall. induction Hall as [|x xs -> _ IH]; [done|]. cbn. unfold zsum in *. cbn. by rewrite IH.
Qed.

Lemma begin_idle s mn ideal :
  idle s -> 0 <= mn <= ideal -> mn <= lg_size (l_log s) ->
  exists i s1, log_begin_fs_transaction_explicit pid mn ideal s = Ret (Z.of_nat i, s1) /\
    started s i (Z.min (lg_size (l_log s)) ideal) s1.
Proof using.
  intros [(Hd & Hdv & Hld) [Hp Hdep] Hok Hgeo (Hn & Hout & Hcom) [Hbi Hcl] Hun] Hmn Hsize.
  destruct (idle_available (l_log s) Hok Hout Hn) as [Hav Hz]. rewrite (log_begin_run s pid mn ideal Hok Hdep ltac:(lia)). cbv zeta.
  rewrite Hav, Hcom, (proj2 (Z.leb_le _ _)) by lia. cbn [Z.eqb andb].
  destruct (find_client_0 0 (clients (l_log s))) as [[_ Hni]|(i & -> & Hi & _)].
  { exfalso. destruct (clients (l_log s)) as [|c cs] eqn:E; [pose proof (ok_clients _ Hok) as Hl; by rewrite E in Hl|].
    apply Hni. rewrite (Hz c ltac:(left)). left. }
  rewrite (proj2 (Z.eqb_neq (Z.of_nat i) (-1))) by lia. cbn [negb]. rewrite Nat2Z.id.
  set (r := Z.min (lg_size (l_log s)) ideal). pose proof (ok_size _ Hok). assert (0 <= r <= lg_size (l_log s)) as Hr by lia.
  clearbody r.
  assert (pid ∉ clients (l_log s)) as Hpi by (intros Hin; apply Hz in Hin; lia).
  assert (log_ok (set_outstanding (lg_outstanding (l_log s) + 1) (claim_slot i pid r (l_log s)))) as Hok1
    by (apply claim_ok; try done; lia).
  assert (i < 4)%nat as Hi4 by (rewrite <- (ok_clients _ Hok : length _ = 4%nat); by eapply lookup_lt_Some).
  exists i. eexists. split; [done|].
  destruct (tx_inv_start devs dev pid (fun _ => 0)
    (mk_lfs (set_outstanding (lg_outstanding (l_log s) + 1) (claim_slot i pid r (l_log s))) (l_bio s) (<[pid := 1]> (l_depth s))))
    as [Htx Hfree]; try done; try lia.
  assert (clients (claim_slot i pid r (l_log s)) !! i = Some pid) as Hci by (apply list_lookup_insert_eq; by eapply lookup_lt_Some).
  split; cbn [l_log l_bio l_depth]; try done; try lia.
  - unfold tx_room. cbn [l_log]. rewrite (client_of _ i pid Hok1 Hci), (proj2 (Z.eqb_neq _ _)) by lia.
    unfold tx_slot. cbn [l_log]. rewrite (client_of _ i pid Hok1 Hci), Nat2Z.id by lia. cbn [blocks_reserved blocks_used set_outstanding claim_slot].
    rewrite !list_lookup_insert_eq by (rewrite ?(ok_lused _ Hok), ?(ok_lreserved _ Hok); done).
    rewrite (swrap_id 32 r) by (unfold is_s; lia). cbn. lia.
  - cbn [lg_outstanding lg_committing set_outstanding claim_slot]. lia.
  - unfold head_ok. cbn [lh_n lh_block set_outstanding claim_slot]. rewrite Hn. cbn. rewrite (ok_block _ Hok), Z2Nat.id by lia.
    split; [lia|]. split; [lia|apply NoDup_nil_2].
  - cbn [blocks_used_old_clients blocks_reserved set_outstanding claim_slot]. destruct (ok_idle _ Hok i Hi) as [_ Hr0].
    rewrite (zsum_insert _ _ 0) by done. rewrite (swrap_id 32 r) by (unfold is_s; lia). unfold available_blocks in Hav. lia.
Qed.

(** The blocks that the transaction has logged. *)
Lemma logged_home s i r s1 s2 W k :
  idle s -> started s i r s1 -> @eff lfs tx_store s1 s2 W k -> steady s1 s2 -> (forall bn, W bn -> home s r bn) ->
  NoDup (tx_logged s2) /\ Z.of_nat (length (tx_logged s2)) = lh_n (l_log s2) /\ lh_n (l_log s2) <= r <= lg_size (l_log s) /\
  (forall bn, bn ∈ tx_logged s2 -> home s r bn) /\
  (forall bn, lockd (l_bio s2) (dev, bn) = false /\ refs (l_bio s2) (dev, bn) = Z.b2z (bool_decide (bn ∈ tx_logged s2))).
Proof using.
  intros Hid Hst He Hs HW. pose proof (e_inv _ _ _ _ He) as I2. cbn in I2.
  destruct (ls_head _ _ (st_log _ _ Hs) (sd_head _ _ _ _ Hst)) as (Hn & Hlen & Hnd).
  pose proof (ok_block _ (ti_log _ _ _ _ _ I2)) as Hbl. pose proof (ok_size _ (ti_log _ _ _ _ _ I2)) as Hsz.
  rewrite (ls_size _ _ (st_log _ _ Hs)), (proj1 (proj2 (sd_geo _ _ _ _ Hst))) in Hbl, Hsz.
  pose proof (logged_le (l_log s2) (ti_log _ _ _ _ _ I2)) as Hle. pose proof (ok_room _ (ti_log _ _ _ _ _ I2)) as Hroom.
  rewrite (ls_reserved _ _ (st_log _ _ Hs)), (ls_old _ _ (st_log _ _ Hs)), (sd_sum _ _ _ _ Hst) in Hle, Hroom.
  rewrite (ls_size _ _ (st_log _ _ Hs)), (proj1 (proj2 (sd_geo _ _ _ _ Hst))) in Hroom.
  split; [done|]. split; [unfold tx_logged; rewrite length_take; lia|]. split; [lia|].
  assert (forall bn, lockd (l_bio s2) (dev, bn) = false) as Hfree.
  { intros bn. apply (e_free _ _ _ _ He bn). apply (sd_free _ _ _ _ Hst). }
  split.
  - intros bn Hin. assert (home s r bn \/ ~ home s r bn) as [Hh|Hh]; [|done|].
    { destruct (decide (is_u 32 bn /\ ~ (lg_start (l_log s) <= bn <= lg_start (l_log s) + r))) as [?|?]; [by left|by right]. }
    exfalso. pose proof (e_pinned _ _ _ _ He bn ltac:(intros Hw; by apply Hh, HW)) as Hp. cbn in Hp. unfold tx_pinned in Hp.
    rewrite (ti_others _ _ _ _ _ I2 bn), bool_decide_eq_true_2 in Hp by done. unfold tx_others in Hp.
    rewrite (sd_bio _ _ _ _ Hst) in Hp. destruct (id_unused _ Hid bn) as [El Er]. rewrite El, Er in Hp. done.
  - intros bn. split; [done|]. pose proof (ti_others _ _ _ _ _ I2 bn) as Ho. unfold tx_others in Ho. rewrite Hfree in Ho. cbn in Ho. lia.
Qed.

(** The blocks are ready to be committed. *)
Lemma logged_ready s i r s1 s2 W k u :
  idle s -> started s i r s1 -> @eff lfs tx_store s1 s2 W k -> steady s1 s2 -> (forall bn, W bn -> home s r bn) ->
  k + 2 <= spare (l_bio s) -> ready devs (end_log i u (l_log s2)) (l_bio s2) (tx_logged s2).
Proof using.
  intros Hid Hst He Hs HW Hsp. destruct (logged_home s i r s1 s2 W k Hid Hst He Hs HW) as (Hnd & Hlen & Hn & Hhome & Hrefs).
  pose proof (e_inv _ _ _ _ He) as I2. cbn in I2. destruct (id_dev _ Hid) as (Hd & Hdv & Hld). destruct (id_geo _ Hid) as (G1 & G2 & G3).
  destruct (sd_geo _ _ _ _ Hst) as (E1 & E2 & E3). pose proof (st_log _ _ Hs) as HL.
  destruct (sd_count _ _ _ _ Hst) as [Hout Hcom]. rewrite <- (ls_outstanding _ _ HL) in Hout.
  unfold end_log. rewrite Hout. change (1 - 1) with 0. cbn [Z.eqb].
  pose proof (ls_start _ _ HL) as Es. pose proof (ls_dev _ _ HL) as Ed. rewrite E1 in Es. rewrite E3 in Ed.
  split; cbn [lg_dev lg_start lh_n lh_block set_committing leave_slot set_outstanding]; rewrite ?Ed; try done.
  - split; cbn [lg_dev lg_start set_committing leave_slot set_outstanding]; rewrite ?Ed, ?Es; try done; try lia.
    intros h Hh. destruct (Hhome h Hh) as [_ Ha]. lia.
  - unfold tx_logged in *. rewrite length_take in *. f_equal. lia.
  - lia.
  - apply Forall_forall. intros h Hh. apply (Hhome h Hh).
  - pose proof (e_bufs _ _ _ _ He) as Hb. cbn in Hb. rewrite (sd_bio _ _ _ _ Hst) in Hb.
    split; [apply I2|apply I2|lia|intros n; apply Hrefs|]. intros n. rewrite (proj2 (Hrefs n)). destruct (bool_decide _); cbn; lia.
  - intros h Hh. rewrite (proj2 (Hrefs h)), bool_decide_eq_true_2 by done. cbn. lia.
Qed.

(** Committing what was logged, or nothing. *)
Lemma commit_logged s i r s1 s2 W k u :
  idle s -> started s i r s1 -> @eff lfs tx_store s1 s2 W k -> steady s1 s2 -> (forall bn, W bn -> home s r bn) ->
  k + 2 <= spare (l_bio s) -> log_ok (end_log i u (l_log s2)) ->
  exists b', commit devs (mk_lfs (end_log i u (l_log s2)) (l_bio s2) (l_depth s2)) =
      Ret (tt, mk_lfs (set_old_clients 0 (set_lh_n 0 (end_log i u (l_log s2)))) b' (l_depth s2)) /\
    bio_inv b' /\ bio_clean b' /\ spare (l_bio s2) <= spare b' /\
    (forall bn, lockd b' (dev, bn) = false /\ refs b' (dev, bn) = 0) /\
    forall bn, home s r bn -> view b' (dev, bn) = view (l_bio s2) (dev, bn).
Proof using.
  intros Hid Hst He Hs HW Hsp Hok. destruct (logged_home s i r s1 s2 W k Hid Hst He Hs HW) as (Hnd & Hlen & Hn & Hhome & Hrefs).
  pose proof (logged_ready s i r s1 s2 W k u Hid Hst He Hs HW Hsp) as Hr. pose proof (e_inv _ _ _ _ He) as I2. cbn in I2.
  set (l' := end_log i u (l_log s2)) in *. pose proof (rd_n _ _ _ _ Hr) as Hln.
  assert (lg_dev l' = dev /\ lg_start l' = lg_start (l_log s)) as [Ed Es].
  { destruct (sd_geo _ _ _ _ Hst) as (E1 & _ & E3). pose proof (st_log _ _ Hs) as HL. unfold l', end_log.
    destruct (_ =? 0); cbn; rewrite (ls_dev _ _ HL), (ls_start _ _ HL); done. }
  destruct (decide (tx_logged s2 = [])) as [Enil|Hne].
  - rewrite Enil in Hln. cbn in Hln. exists (l_bio s2). split.
    { assert (set_old_clients 0 (set_lh_n 0 l') = l') as ->.
      { pose proof (ok_n _ Hok). pose proof (ok_old _ Hok). assert (0 <= zsum (blocks_used l')).
        { apply zsum_nonneg. intros j x Hx. destruct (lookup_lt_is_Some_2 (blocks_reserved l') j) as [y Hy].
          - rewrite (ok_lreserved _ Hok), <- (ok_lused _ Hok). by eapply lookup_lt_Some.
          - pose proof (ok_within _ Hok j x y Hx Hy). lia. }
        assert (blocks_used_old_clients l' = 0) as Eo by lia. clearbody l'. destruct l'. cbn in *. by subst. }
      unfold commit. rewrite (bind_run get _ _ _ _ eq_refl). cbn [l_log]. by rewrite Hln. }
    split; [apply I2|]. split; [apply I2|]. split; [done|]. split; [|done].
    intros bn. destruct (Hrefs bn) as [-> ->]. rewrite Enil. done.
  - destruct (commit_view devs l' (l_bio s2) (l_depth s2) (tx_logged s2) Hr Hne) as (b' & E & H1 & H2 & H3 & _ & H4 & H5).
    destruct (id_dev _ Hid) as (Hd & _). rewrite Ed, Es in *.
    exists b'. split; [done|]. split; [done|]. split; [done|]. split; [done|]. split.
    + intros bn. destruct (H4 (dev, bn) Hd) as [-> ->]. destruct (Hrefs bn) as [-> ->]. split; [done|].
      destruct (decide (bn ∈ tx_logged s2)) as [Hin|Hin].
      * rewrite bool_decide_eq_true_2, decide_True; [done| |done]. by apply (list_elem_of_fmap_2 (pair dev)).
      * rewrite bool_decide_eq_false_2, decide_False; [done| |done]. intros (x & [= ->] & Hx)%list_elem_of_fmap. done.
    + intros bn [_ Hb]. apply H5; [done|]. unfold in_log. cbn. lia.
Qed.

(** The end of the transaction: the system is idle again, and the disk holds what the
    transaction saw. *)
Lemma end_idle s i r s1 s2 W k :
  idle s -> started s i r s1 -> @eff lfs tx_store s1 s2 W k -> steady s1 s2 -> (forall bn, W bn -> home s r bn) ->
  k + 2 <= spare (l_bio s) ->
  exists s3, log_end_fs_transaction devs pid s2 = Ret (tt, s3) /\ idle s3 /\ spare (l_bio s) - k <= spare (l_bio s3) /\
    lg_start (l_log s3) = lg_start (l_log s) /\ lg_size (l_log s3) = lg_size (l_log s) /\
    forall bn, home s r bn -> tx_view dev s3 bn = tx_view dev s2 bn /\ disk_block (disk (l_bio s3)) (dev, bn) = tx_view dev s2 bn.
Proof using.
  intros Hid Hst He Hs HW Hsp. pose proof (e_inv _ _ _ _ He) as I2. cbn in I2. pose proof (ti_log _ _ _ _ _ I2) as Hok2.
  pose proof (st_log _ _ Hs) as HL. destruct (sd_count _ _ _ _ Hst) as [Hout Hcom].
  rewrite <- (ls_outstanding _ _ HL) in Hout. rewrite <- (ls_committing _ _ HL) in Hcom.
  pose proof (sd_client _ _ _ _ Hst) as Hci. rewrite <- (ls_clients _ _ HL) in Hci. destruct (id_pid _ Hid) as [Hp Hdep].
  destruct (used_reserved _ i pid Hok2 Hci) as (u & rs & Hu & _).
  pose proof (end_log_ok (l_log s2) i pid u Hok2 Hci ltac:(lia) Hu Hcom) as Hok'.
  destruct (commit_logged s i r s1 s2 W k u Hid Hst He Hs HW Hsp Hok') as (b' & Hcommit & B1 & B2 & B3 & B4 & B5).
  pose proof (log_end_locked_run s2 i pid u Hok2 Hci ltac:(lia) Hu Hcom) as Hlocked. rewrite Hout in Hlocked. change (1 - 1 =? 0) with true in Hlocked.
  set (l' := end_log i u (l_log s2)) in *. set (l3 := set_committing 0 (set_old_clients 0 (set_lh_n 0 l'))).
  assert (lg_outstanding l' = 0 /\ lg_start l' = lg_start (l_log s) /\ lg_size l' = lg_size (l_log s) /\ lg_dev l' = dev) as (Ho' & Es & Ez & Ed).
  { destruct (sd_geo _ _ _ _ Hst) as (E1 & E2 & E3). unfold l', end_log. rewrite Hout. change (1 - 1 =? 0) with true. cbn.
    rewrite (ls_dev _ _ HL), (ls_start _ _ HL), (ls_size _ _ HL). done. }
  assert (l_depth s2 !! pid = Some 1) as Hd2 by (rewrite (st_depth _ _ Hs), (sd_depth _ _ _ _ Hst); apply lookup_insert_eq).
  exists (mk_lfs l3 b' (<[pid := 0]> (l_depth s2))). split.
  { unfold log_end_fs_transaction. rewrite (bind_run _ _ _ _ _ Hlocked).
    rewrite (bind_run _ _ _ tt (mk_lfs l3 b' (l_depth s2))).
    - rewrite (bind_run _ _ _ 0 (mk_lfs l3 b' (<[pid := 0]> (l_depth s2)))); [done|].
      unfold add_depth. rewrite (bind_run get _ _ _ _ eq_refl). cbn [l_depth l_log l_bio]. rewrite Hd2. done.
    - unfold log_end_commit. by rewrite (bind_run _ _ _ _ _ Hcommit). }
  assert (bio_inv b' /\ bio_clean b') as Hbio by done.
  pose proof (e_bufs _ _ _ _ He) as Hb. cbn in Hb. rewrite (sd_bio _ _ _ _ Hst) in Hb.
  split; [|split; [cbn; lia|split; [done|split; [done|]]]].
  - destruct (id_dev _ Hid) as (Hd & Hdv & _). destruct (id_geo _ Hid) as (G1 & G2 & G3).
    split; cbn [l_log l_bio l_depth]; try done.
    + split; [done|]. by rewrite lookup_insert_eq.
    + by apply committed_ok.
    + cbn. rewrite Es, Ez. done.
  - intros bn Hh. pose proof (B5 bn Hh) as Hv. unfold tx_view. cbn [l_bio]. split; [done|]. rewrite <- Hv. symmetry.
    apply view_unused; try done; [apply (id_dev _ Hid)|apply B4].
Qed.

Lemma idle_tx s : idle s -> tx_inv devs dev pid (fun _ => 0) s /\ forall bn, tx_free dev s bn.
Proof using.
  intros [(Hd & Hdv & Hld) [Hp Hdep] Hok Hgeo (Hn & Hout & Hcom) [Hbi Hcl] Hun].
  apply tx_inv_start; try done; lia.
Qed.

Lemma idle_disk s bn : idle s -> tx_view dev s bn = disk_block (disk (l_bio s)) (dev, bn).
Proof using. intros Hid. apply view_unused; apply Hid. Qed.
End Transaction.

(** ** Changes of an inode *)

Section InodeUpdate.
Context (devs : Z -> bool) (dev pid : Z) (sb : vimixfs_superblock) (L : layout sb) (A : inode_area sb) (Hdev : is_s 32 dev).

#[local] Instance iu_store : BlockStore lfs := lfs_BlockStore devs dev pid (fun _ => 0).

Abbreviation iblock n := (VIMIXFS_BLOCK_OF_INODE_P n sb).

(** A file system on disk: the log is not among the blocks of the file system. *)
Record mounted_ok (s : lfs) : Prop := {
  mo_idle : idle devs dev pid s;
  mo_size : 1 < lg_size (l_log s);
  mo_area : lg_start (l_log s) + lg_size (l_log s) <= sb_inodestart sb;
  mo_block bn : sb_inodestart sb <= bn < sb_size sb -> is_block (tx_view dev s bn)
}.

(** What the disk holds for inode [n]. *)
Definition stored_inode (s : lfs) (n : Z) : option vimixfs_inode :=
  ws ← get_words 32 (Z.to_nat (DINODE_SIZE * VIMIXFS_DINODE_OFFSET_IN_BLOCK n)) (disk_block (disk (l_bio s)) (dev, iblock n));
  inode_of_words dev n ws.

Lemma stored_disk s n : idle devs dev pid s -> stored_inode s n = @disk_inode lfs iu_store sb dev s n.
Proof using. intros Hid. unfold stored_inode, disk_inode. cbn. by rewrite (idle_disk devs dev pid s _ Hid). Qed.

Lemma iblock_start n : inum_ok sb n -> sb_inodestart sb <= iblock n.
Proof using.
  intros [Hn _]. unfold VIMIXFS_BLOCK_OF_INODE_P. change VIMIXFS_INODES_PER_BLOCK with 8.
  pose proof (Z.div_pos n 8 ltac:(lia) ltac:(lia)). lia.
Qed.

(** The operations that change the inode only. *)
Definition update_inode (f : vimixfs_inode -> vimixfs_inode) : ST (fs lfs) Z :=
  on_store (log_begin_fs_transaction_explicit pid 1 1);;
  modify_ip f;;
  vimixfs_sops_write_inode sb dev;;
  on_store (log_end_fs_transaction devs pid);;
  mret 0.

Lemma update_inode_run f s ip :
  mounted_ok s -> inode_ok (f ip) -> i_inum (f ip) = i_inum ip -> inum_ok sb (i_inum ip) -> 3 <= spare (l_bio s) ->
  exists s', update_inode f (mk_fs s ip) = Ret (0, mk_fs s' (f ip)) /\ idle devs dev pid s' /\
    stored_inode s' (i_inum ip) = Some (f ip) /\
    (forall n, inum_ok sb n -> n <> i_inum ip -> stored_inode s' n = stored_inode s n) /\
    (forall bn, home s 1 bn -> bn <> iblock (i_inum ip) ->
       disk_block (disk (l_bio s')) (dev, bn) = disk_block (disk (l_bio s)) (dev, bn)).
Proof using L A Hdev.
  intros [Hid Hsz Harea Hblk] Hok Hnum Hin Hsp. pose proof (iblock_range sb L A) as Hrange.
  assert (forall n, inum_ok sb n -> home s 1 (iblock n)) as Hih.
  { intros n Hn. destruct (Hrange n Hn) as (R1 & R2 & _). pose proof (iblock_start n Hn). destruct L as [Hls _ _]. split; [unfold is_u; lia|lia]. }
  destruct (begin_idle devs dev pid s 1 1 Hid ltac:(lia) ltac:(lia)) as (i & s1 & Hbegin & Hst). rewrite Z.min_r in Hst by lia.
  assert (forall bn, tx_view dev s1 bn = tx_view dev s bn) as Hv1 by (intros bn; unfold tx_view; by rewrite (sd_bio _ _ _ _ _ _ _ Hst)).
  destruct (@write_inode_run lfs iu_store sb dev L A Hdev s1 (f ip)) as (s2 & Hrun & He & _ & Hdisk & Hothers & _).
  { apply (sd_tx _ _ _ _ _ _ _ Hst). }
  { cbn. rewrite Hv1, Hnum. apply Hblk. split; [by apply iblock_start|]. by apply Hrange. }
  { apply (sd_free _ _ _ _ _ _ _ Hst). }
  { cbn. rewrite (sd_room _ _ _ _ _ _ _ Hst). lia. }
  { cbn. rewrite (sd_bio _ _ _ _ _ _ _ Hst). lia. }
  { done. }
  { by rewrite Hnum. }
  rewrite Hnum in *.
  assert (steady s1 s2) as Hs.
  { apply (@keep_write_inode lfs iu_store steady _ sb dev) in Hrun; [done|..]; intros; cbn; unfold tx_read, tx_data, tx_set, tx_log, tx_release; auto with steady. }
  destruct (end_idle devs dev pid s i 1 s1 s2 _ 1 Hid Hst He Hs) as (s3 & Hend & Hid3 & _ & _ & _ & Hviews); [by intros bn ->; apply Hih|lia|].
  exists s3. split.
  { unfold update_inode. rewrite (bind_run _ _ _ (Z.of_nat i) (mk_fs s1 ip)) by (by apply on_store_run).
    rewrite (bind_run _ _ _ tt (mk_fs s1 (f ip))) by done. rewrite (bind_run _ _ _ tt (mk_fs s2 (f ip))) by done.
    by rewrite (bind_run _ _ _ tt (mk_fs s3 (f ip))) by (by apply on_store_run). }
  assert (forall n, inum_ok sb n -> stored_inode s3 n = @disk_inode lfs iu_store sb dev s2 n) as H32.
  { intros n Hn. unfold stored_inode, disk_inode. cbn. destruct (Hviews _ (Hih n Hn)) as [_ ->]. done. }
  split; [done|]. split; [|split].
  - by rewrite H32.
  - intros n Hn Hne. rewrite H32, Hothers by (try done; destruct Hn; lia). unfold disk_inode. cbn. rewrite Hv1.
    unfold stored_inode. by rewrite (idle_disk devs dev pid s _ Hid).
  - intros bn Hh Hne. destruct (Hviews bn Hh) as [_ ->]. rewrite <- (idle_disk devs dev pid s bn Hid), <- Hv1.
    exact (e_view _ _ _ _ He bn Hne).
Qed.

End InodeUpdate.

(** ** Overwriting the data of a file *)

Section Overwrite.
Context {St : Type} `{!BlockStore St} (sb : vimixfs_superblock) (sb_dev : Z).
Context (L : layout sb) (A : inode_area sb) (Hdev : is_s 32 sb_dev).

Abbreviation max_size := (VIMIXFS_MAX_FILE_SIZE_BLOCKS * 1024).

(** The blocks of the file from byte [off] to byte [off + n]. *)
Definition in_range (s : St) (ip : vimixfs_inode) (off n bn : Z) : Prop :=
  exists i, off <= i < off + n /\ bn = file_block s ip (i / 1024).

Lemma full_cost s ip off n : 0 <= off -> 0 <= n -> no_holes s ip off n -> write_cost s ip off n = chunks off n.
Proof using.
  intros Ho Hn Hnh. unfold write_cost. assert (forall b, b ∈ seqZ (off / 1024) (chunks off n) -> block_cost s ip b = 1) as H.
  { intros b [Hb1 Hb2]%elem_of_seqZ. unfold block_cost. rewrite (proj2 (Z.eqb_neq _ 0)); [done|].
    pose proof (Z.mod_pos_bound off 1024 ltac:(lia)). pose proof (Z.div_mod off 1024 ltac:(lia)). unfold chunks in Hb2.
    destruct (Z.eqb_spec n 0) as [->|Hn0]; [lia|].
    assert (b * 1024 <= off + n - 1).
    { rewrite Z.add_comm, <- Z.div_add in Hb2 by lia. apply Z.lt_le_pred in Hb2.
      pose proof (Z.mul_div_le (off mod 1024 + n + 1023 + off / 1024 * 1024) 1024 ltac:(lia)). lia. }
    set (i := Z.max off (b * 1024)). replace b with (i / 1024); [apply Hnh; lia|].
    destruct (decide (b = off / 1024)) as [->|Hne]; [replace i with off by lia; done|].
    replace i with (b * 1024) by lia. by apply Z.div_mul. }
  rewrite <- (Z2Nat.id (chunks off n)) at 2 by (apply chunks_pos; lia). rewrite <- (length_seqZ (off / 1024) (chunks off n)).
  induction (seqZ _ _) as [|b bs IH]; [done|]. cbn [foldr length]. rewrite (H b ltac:(left)), IH by (intros x Hx; apply H; by right). lia.
Qed.

(** The loop of [vimixfs_write] writes no block but those of the range. *)
Lemma overwrite_loop_run source n ip : forall fuel s off src tot,
  quiet sb s ip -> 0 <= off -> 0 <= tot <= n -> off + (n - tot) <= max_size -> no_holes s ip off (n - tot) ->
  length (readable source src (Z.to_nat (n - tot))) = Z.to_nat (n - tot) -> Forall (is_u 8) (readable source src (Z.to_nat (n - tot))) ->
  chunks off (n - tot) <= bs_room s -> chunks off (n - tot) <= bs_bufs s -> chunks off (n - tot) < Z.of_nat fuel ->
  exists s', file_write_loop sb fuel source off src n tot (mk_fs s ip) = Ret ((n, off + (n - tot)), mk_fs s' ip) /\
    eff s s' (in_range s ip off (n - tot)) (chunks off (n - tot)).
Proof using L.
  induction fuel as [|fuel IH]; intros s off src tot Q Ho Ht Hmax Hnh Hlen Hby Hr Hb Hf.
  { pose proof (chunks_pos off (n - tot) Ho ltac:(lia)). lia. }
  cbn [file_write_loop]. destruct (Z.ltb_spec tot n) as [Hlt|Hge].
  2:{ exists s. replace tot with n by lia. rewrite Z.sub_diag, Z.add_0_r. split; [done|apply eff_refl, Q]. }
  destruct (block_number_ok off ltac:(lia)) as [-> Hbn]. change BLOCK_SIZE with 1024. cbv zeta.
  destruct (chunk_step off (n - tot) _ Ho eq_refl ltac:(lia)) as (Hm & Hend & Hch).
  set (m := Z.min (n - tot) (1024 - off mod 1024)) in *. pose proof (Hnh off ltac:(lia)) as Hnz.
  pose proof (chunks_pos (off + m) (n - tot - m) ltac:(lia) ltac:(lia)).
  assert (Z.to_nat (n - tot) = Z.to_nat m + Z.to_nat (n - (tot + m)))%nat as Esplit by lia.
  rewrite Esplit in Hlen, Hby. pose proof (readable_prefix _ _ _ _ Hlen) as Hlm.
  rewrite (readable_app source src _ _ Hlm) in Hlen, Hby. rewrite length_app, Hlm in Hlen. apply Forall_app in Hby as [Hbm Hbr].
  rewrite Z2Nat.id in Hlen, Hbr by lia. set (bytes := readable source src (Z.to_nat m)) in *.
  destruct (bmap_lookup sb L s ip (off / 1024) Q Hbn ltac:(lia) Hnz) as (s1 & Hrun1 & He1). set (a := file_block s ip (off / 1024)) in *.
  rewrite (bind_run _ _ _ _ _ Hrun1), (proj2 (Z.eqb_neq a 0)) by done.
  pose proof (eff_quiet sb s s1 ip Q He1) as Q1. pose proof (e_bufs _ _ _ _ He1). pose proof (e_room _ _ _ _ He1).
  destruct (file_block_range sb L s ip _ (q_tree _ _ _ Q) Hbn Hnz) as (Hra & _). fold a in Hra.
  destruct (read_run s1 a (q_inv _ _ _ Q1) (q_free _ _ _ Q1 a ltac:(lia)) ltac:(lia)) as (bp & s2 & Hread & I2 & Hh & Hv & _).
  destruct (write_back_run s1 s2 bp a (splice (bs_view s2 a) (Z.to_nat (off mod 1024)) bytes) (q_inv _ _ _ Q1)
    (q_free _ _ _ Q1 a ltac:(lia)) ltac:(lia) ltac:(lia) Hread) as (s3 & s4 & s5 & E3 & E4 & E5 & He & Hv5 & _).
  rewrite (bind_run _ _ _ bp (mk_fs s2 ip)) by (by apply on_store_run).
  rewrite (bind_run _ _ _ (bs_view s2 a) (mk_fs s2 ip)) by (apply on_store_run; by apply (bs_data_run s2 bp a true)).
  rewrite (bind_run _ _ _ tt (mk_fs s3 ip)) by (by apply on_store_run). rewrite decide_True by done.
  rewrite (bind_run _ _ _ tt (mk_fs s4 ip)) by (by apply on_store_run).
  rewrite (bind_run _ _ _ tt (mk_fs s5 ip)) by (by apply on_store_run).
  pose proof (eff_same s s1 s5 _ _ He1 He) as He'.
  assert (forall bn, bs_view s1 bn = bs_view s bn) as Hv1 by (intros bn; apply (e_view _ _ _ _ He1); intros []).
  assert (wrote sb s ip off bytes s5 ip) as W.
  { apply wrote_data; try done; try lia. fold a. by rewrite Hv5, Hv, Hv1. }
  assert (forall i, off + m <= i < off + m + (n - (tot + m)) -> file_block s5 ip (i / 1024) = file_block s ip (i / 1024)) as Hsame.
  { intros i Hi. apply (w_kept _ _ _ _ _ _ _ W); [apply block_of_byte; lia|]. apply Hnh. lia. }
  pose proof (e_bufs _ _ _ _ He'). pose proof (e_room _ _ _ _ He'). replace (n - tot - m) with (n - (tot + m)) in * by lia.
  destruct (IH s5 (off + m) (src + m) (tot + m) (w_quiet _ _ _ _ _ _ _ W)) as (s' & Hrun & Heff); [lia|lia|lia| |lia|done|lia|lia|lia|].
  { intros i Hi. rewrite Hsame by lia. apply Hnh. lia. }
  exists s'. split; [rewrite Hrun; do 3 f_equal; lia|].
  apply (eff_trans s s5 s' _ _ _ 1 (chunks (off + m) (n - (tot + m))) _ He' Heff).
  - intros bn ->. exists off. split; [lia|done].
  - intros bn (i & Hi & ->). exists i. split; [lia|]. by apply Hsame.
  - lia.
Qed.

Lemma overwrite_run s ip source src off n :
  quiet sb s ip -> inode_ok ip -> inum_ok sb (i_inum ip) -> 0 <= off <= i_size ip -> 0 <= n -> off + n <= max_size -> no_holes s ip off n ->
  length (readable source src (Z.to_nat n)) = Z.to_nat n -> Forall (is_u 8) (readable source src (Z.to_nat n)) ->
  chunks off n < bs_room s -> chunks off n < bs_bufs s ->
  exists s' ip', vimixfs_write sb sb_dev source src off n (mk_fs s ip) = Ret (n, mk_fs s' ip') /\
    file_written sb sb_dev s ip off (readable source src (Z.to_nat n)) s' ip' /\
    eff s s' (fun bn => in_range s ip off n bn \/ bn = VIMIXFS_BLOCK_OF_INODE_P (i_inum ip) sb) (chunks off n + 1).
Proof using L A Hdev.
  intros Q Hip Hnum Ho Hn Hmax Hnh Hlen Hby Hroom Hbufs. pose proof (chunks_pos off n ltac:(lia) Hn) as Hc0.
  pose proof (chunks_fuel off n ltac:(lia) Hn) as Hfuel.
  pose proof (overwrite_loop_run source n ip (rw_fuel n) s off src 0 Q ltac:(lia) ltac:(lia)) as Hloop. rewrite Z.sub_0_r in Hloop.
  destruct (Hloop Hmax Hnh Hlen Hby ltac:(lia) ltac:(lia) Hfuel) as (s1 & Hrun & He).
  pose proof (file_write_loop_run sb L source n (rw_fuel n) s ip off src 0 Q ltac:(lia) ltac:(lia)) as Hw. rewrite Z.sub_0_r, full_cost in Hw by (done || lia).
  destruct (Hw Hmax Hlen Hby ltac:(lia) ltac:(lia) Hfuel) as (r & s1' & ip1' & Hrun' & _ & _ & W & _ & _).
  rewrite Hrun in Hrun'. injection Hrun' as Er _ <- <-. rewrite Z.add_0_l in Er. subst r.
  pose proof (e_room _ _ _ _ He). pose proof (e_bufs _ _ _ _ He).
  pose proof (write_end_run sb sb_dev L A Hdev s ip off (readable source src (Z.to_nat n)) s1 ip Q Hip Hnum ltac:(lia)) as Hend.
  rewrite Hlen, Z2Nat.id in Hend by lia. destruct (Hend Hmax W ltac:(lia) ltac:(lia)) as (s' & Hwi & _ & Hfw & _).
  set (ip2 := if i_size ip <? off + n then _ else _) in *. exists s', ip2. split; [|split; [done|]].
  - unfold vimixfs_write. rewrite (bind_run _ _ _ ip (mk_fs s ip)) by done. change BLOCK_SIZE with 1024.
    change VIMIXFS_MAX_FILE_SIZE_BLOCKS with 65812 in *. rewrite uwrap_id by (unfold is_u; lia).
    rewrite (proj2 (Z.ltb_ge _ _)) by lia. cbn [orb]. rewrite (proj2 (Z.ltb_ge (off + n) off)) by lia.
    rewrite (proj2 (Z.ltb_ge (65812 * 1024) _)) by lia. rewrite (bind_run _ _ _ _ _ Hrun). cbn [fst snd].
    rewrite (bind_run _ _ _ tt (mk_fs s1 ip2)) by done. by rewrite (bind_run _ _ _ tt (mk_fs s' ip2)).
  - assert (i_inum ip2 = i_inum ip) as En by (unfold ip2; by destruct (_ <? _)).
    pose proof (w_quiet _ _ _ _ _ _ _ W) as Q1. destruct (iblock_range sb L A _ Hnum) as (Hib & Hib' & _).
    assert (inode_ok ip2) as Hip2.
    { unfold ip2. destruct (Z.ltb_spec (i_size ip) (off + n)); [|done]. destruct Hip. split; try done. cbn [i_size set_size]. by apply uwrap_range. }
    destruct (write_inode_run sb sb_dev L A Hdev s1 ip2 (q_inv _ _ _ Q1)) as (s'' & Hwi' & Hei & _); rewrite ?En; try done; try lia.
    { apply Q1. lia. } { apply Q1. lia. }
    rewrite Hwi in Hwi'. injection Hwi' as <-. rewrite En in Hei.
    apply (eff_trans s s1 s' _ _ _ (chunks off n) 1 _ He Hei); [auto|auto|lia].
Qed.
End Overwrite.

Section DurableWrite.
Context (devs : Z -> bool) (dev pid : Z) (sb : vimixfs_superblock) (L : layout sb) (A : inode_area sb) (Hdev : is_s 32 dev).

#[local] Instance dw_store : BlockStore lfs := lfs_BlockStore devs dev pid (fun _ => 0).

Abbreviation max_size := (VIMIXFS_MAX_FILE_SIZE_BLOCKS * 1024).
Abbreviation iblock n := (VIMIXFS_BLOCK_OF_INODE_P n sb).

Lemma started_available s i r s1 :
  started devs dev pid s i r s1 -> log_get_client_available_blocks (l_log s1) (Z.of_nat i) = Ret r.
Proof using.
  intros Hst. pose proof (sd_tx _ _ _ _ _ _ _ Hst) as I. pose proof (ti_log _ _ _ _ _ I) as Hok. pose proof (sd_client _ _ _ _ _ _ _ Hst) as Hc.
  destruct (used_reserved _ i pid Hok Hc) as (u & x & Hu & Hx). pose proof (ok_within _ Hok i u x Hu Hx).
  pose proof (sd_room _ _ _ _ _ _ _ Hst) as Hr. unfold tx_room, tx_slot in Hr. rewrite (client_of _ i pid Hok Hc (ti_pid _ _ _ _ _ I)) in Hr.
  rewrite (proj2 (Z.eqb_neq _ _)), Nat2Z.id, Hu, Hx in Hr by lia. cbn in Hr.
  assert (x <= lg_size (l_log s1)) as Hle.
  { pose proof (ok_room _ Hok). pose proof (ok_old _ Hok). pose proof (zsum_insert _ i x 0 Hx) as Hz.
    assert (0 <= zsum (<[i := 0]> (blocks_reserved (l_log s1)))); [|lia]. apply zsum_nonneg. intros j y Hy.
    apply list_lookup_insert_Some in Hy as [(_ & <- & _)|[_ Hy]]; [done|]. by apply (reserved_pos _ Hok j). }
  pose proof (ok_size _ Hok). unfold log_get_client_available_blocks. rewrite Nat2Z.id, Hu, Hx. cbn.
  rewrite (swrap_id 32) by (unfold is_s; lia). rewrite uwrap_id by (unfold is_u; lia). by rewrite Hr.
Qed.

Lemma quiet_views s s1 ip :
  quiet sb s ip -> bs_inv s1 -> (forall bn, bs_free s1 bn) -> (forall bn, bs_view s1 bn = bs_view s bn) -> quiet sb s1 ip.
Proof using.
  intros [_ [F1 F2] [T1 T2 T3] _] I Hf Hv. assert (forall b, used sb s1 b = used sb s b) as Hu by (intros b; unfold used; by rewrite Hv).
  split; [done| | |auto].
  - split; [intros bn Hbn; rewrite Hv; auto|intros b Hb; rewrite Hu; auto].
  - split; [done| |].
    + intros p Hp. rewrite (addr_at_ext s s1), Hu by done. auto.
    + intros p q Hp Hq. rewrite !(addr_at_ext s s1) by done. auto.
Qed.

(** The tree of a file is in its data blocks. *)
Lemma addr_at_data s s1 ip :
  tree_ok sb s ip -> (forall bn, data_start sb <= bn < sb_size sb -> bs_view s1 bn = bs_view s bn) ->
  forall p, valid p -> addr_at s1 ip p = addr_at s ip p.
Proof using.
  intros T Hv [i l]. induction l as [|x l IH] using rev_ind; intros Hp; [done|]. destruct (valid_snoc i l x Hp) as [Hp' _].
  rewrite !addr_at_snoc, (IH Hp'). unfold child. destruct (Z.eqb_spec (addr_at s ip (i, l)) 0) as [|Hn]; [done|].
  rewrite Hv; [done|]. by apply (t_range sb s ip T).
Qed.

Lemma file_byte_data s s1 ip i :
  tree_ok sb s ip -> (forall bn, data_start sb <= bn < sb_size sb -> bs_view s1 bn = bs_view s bn) ->
  0 <= i < max_size -> file_byte s1 ip i = file_byte s ip i.
Proof using.
  intros T Hv Hi. pose proof (file_place_valid _ (block_of_byte i Hi)) as Hp. unfold file_byte, file_block. rewrite (addr_at_data s s1 ip T Hv _ Hp).
  destruct (Z.eqb_spec (addr_at s ip (file_place (i / 1024))) 0) as [|Hn]; [done|]. rewrite Hv; [done|]. by apply (t_range sb s ip T).
Qed.

(** The state after a write that is on the disk. *)
Record on_disk (s : lfs) (ip : vimixfs_inode) (off : Z) (bytes : list Z) (s' : lfs) (ip' : vimixfs_inode) : Prop := {
  od_idle : idle devs dev pid s';
  od_disk bn : tx_view dev s' bn = disk_block (disk (l_bio s')) (dev, bn);
  od_meta : ip' = set_size (Z.max (i_size ip) (off + Z.of_nat (length bytes))) (set_addrs (addrs ip') ip);
  od_bytes i : 0 <= i < max_size ->
    @file_byte lfs dw_store s' ip' i =
    if decide (off <= i < off + Z.of_nat (length bytes)) then default 0 (bytes !! Z.to_nat (i - off)) else @file_byte lfs dw_store s ip i;
  od_inode : stored_inode dev sb s' (i_inum ip) = Some ip';
  od_inodes n : inum_ok sb n -> n <> i_inum ip -> stored_inode dev sb s' n = stored_inode dev sb s n;
  od_other bn : sb_inodestart sb <= bn < sb_size sb -> bn <> iblock (i_inum ip) ->
    (forall i, off <= i < off + Z.of_nat (length bytes) -> bn <> @file_block lfs dw_store s ip (i / 1024)) ->
    disk_block (disk (l_bio s')) (dev, bn) = disk_block (disk (l_bio s)) (dev, bn)
}.

Lemma write_transaction s ip source addr off n r :
  mounted_ok devs dev pid sb s -> quiet sb s ip -> inode_ok ip -> inum_ok sb (i_inum ip) ->
  0 <= off <= i_size ip -> 0 <= n -> off + n <= max_size -> no_holes s ip off n ->
  length (readable source addr (Z.to_nat n)) = Z.to_nat n -> Forall (is_u 8) (readable source addr (Z.to_nat n)) ->
  6 <= r < lg_size (l_log s) -> chunks off n < r -> chunks off n + 3 <= spare (l_bio s) ->
  exists i s1 s2 s3 ip', log_begin_fs_transaction_explicit pid 6 r s = Ret (Z.of_nat i, s1) /\
    log_get_client_available_blocks (l_log s1) (Z.of_nat i) = Ret r /\
    vimixfs_write sb dev source addr off n (mk_fs s1 ip) = Ret (n, mk_fs s2 ip') /\
    log_end_fs_transaction devs pid s2 = Ret (tt, s3) /\ on_disk s ip off (readable source addr (Z.to_nat n)) s3 ip'.
Proof using L A Hdev.
  intros [Hid Hsz Harea Hblk] Q Hip Hnum Ho Hn Hmax Hnh Hlen Hby Hr Hc Hsp.
  destruct (begin_idle devs dev pid s 6 r Hid ltac:(lia) ltac:(lia)) as (i & s1 & Hbegin & Hst). rewrite Z.min_r in Hst by lia.
  assert (forall bn, tx_view dev s1 bn = tx_view dev s bn) as Hv1 by (intros bn; unfold tx_view; by rewrite (sd_bio _ _ _ _ _ _ _ Hst)).
  assert (forall p, addr_at s1 ip p = addr_at s ip p) as Ha1 by (intros p; by apply addr_at_ext).
  assert (forall b, file_block s1 ip b = file_block s ip b) as Hfb1 by (intros b; apply Ha1).
  pose proof (quiet_views s s1 ip Q (sd_tx _ _ _ _ _ _ _ Hst) (sd_free _ _ _ _ _ _ _ Hst) Hv1) as Q1.
  destruct (overwrite_run sb dev L A Hdev s1 ip source addr off n) as (s2 & ip' & Hw & Hfw & He); try done.
  { intros j Hj. rewrite Hfb1. by apply Hnh. }
  { cbn. rewrite (sd_room _ _ _ _ _ _ _ Hst). lia. }
  { cbn. rewrite (sd_bio _ _ _ _ _ _ _ Hst). lia. }
  assert (steady s1 s2) as Hs.
  { apply (@keep_write lfs dw_store steady _ sb dev) in Hw; [done|..]; intros; cbn; unfold tx_read, tx_data, tx_set, tx_log, tx_release; auto with steady. }
  assert (forall bn, sb_inodestart sb <= bn < sb_size sb -> home s r bn) as Hhome.
  { intros bn Hbn. destruct L as [Hls _ _]. destruct A as (A1 & _). split; [unfold is_u; lia|lia]. }
  assert (sb_inodestart sb <= sb_bmapstart sb < data_start sb) as Hds.
  { destruct A as (_ & A2 & A3). unfold data_start, VIMIXFS_BLOCKS_FOR_BITMAP. change VIMIXFS_BMAP_BITS_PER_BLOCK with 8192.
    pose proof (ly_size sb L). pose proof (Z.div_pos (sb_size sb) 8192 ltac:(lia) ltac:(lia)). lia. }
  pose proof (iblock_range sb L A) as Hir. pose proof (iblock_start sb) as His.
  destruct (end_idle devs dev pid s i r s1 s2 _ _ Hid Hst He Hs) as (s3 & Hend & Hid3 & _ & _ & _ & Hviews); [|lia|].
  { intros bn [(j & Hj & ->)| ->]; apply Hhome.
    - rewrite Hfb1. assert (0 <= j / 1024 < VIMIXFS_MAX_FILE_SIZE_BLOCKS) as Hb by (apply block_of_byte; lia).
      destruct (file_block_range sb L s ip _ (q_tree _ _ _ Q) Hb (Hnh j ltac:(lia))) as (? & ? & _). lia.
    - destruct (Hir _ Hnum) as (? & ? & _). split; [by apply His|done]. }
  exists i, s1, s2, s3, ip'. split; [done|]. split; [by apply (started_available s)|]. split; [done|]. split; [done|].
  assert (forall bn, data_start sb <= bn < sb_size sb -> tx_view dev s3 bn = tx_view dev s2 bn) as Hv3 by (intros bn Hbn; apply Hviews, Hhome; lia).
  assert (forall m, inum_ok sb m -> stored_inode dev sb s3 m = disk_inode sb dev s2 m) as H32.
  { intros m Hm. unfold stored_inode, disk_inode. destruct (Hir m Hm) as (? & ? & _).
    destruct (Hviews (iblock m)) as [_ ->]; [|done]. apply Hhome. split; [by apply His|done]. }
  split; [done|by intros bn; apply (idle_disk devs dev pid)|apply (fw_meta _ _ _ _ _ _ _ _ Hfw)| | | |].
  - intros j Hj. rewrite (file_byte_data s2 s3 ip' j (q_tree _ _ _ (fw_quiet _ _ _ _ _ _ _ _ Hfw)) Hv3 Hj), (fw_bytes _ _ _ _ _ _ _ _ Hfw j Hj).
    case_decide; [done|]. unfold file_byte. rewrite Hfb1. destruct (_ =? 0); [done|]. cbn. by rewrite Hv1.
  - rewrite H32 by done. apply (fw_disk _ _ _ _ _ _ _ _ Hfw).
  - intros m Hm Hne. rewrite H32, (fw_inodes _ _ _ _ _ _ _ _ Hfw m Hm Hne) by done. unfold disk_inode. cbn. rewrite Hv1.
    unfold stored_inode. by rewrite (idle_disk devs dev pid s _ Hid).
  - intros bn Hbn Hne Hout. destruct (Hviews bn (Hhome bn Hbn)) as [_ ->]. rewrite <- (idle_disk devs dev pid s bn Hid), <- Hv1.
    refine (e_view _ _ _ _ He bn _). intros [(j & Hj & E)| ->]; [|done]. rewrite Hfb1 in E.
    apply (Hout j); [|done]. rewrite Hlen. lia.
Qed.

End DurableWrite.

(** ** The small file system *)

Lemma small_idle : idle (Z.eqb 1) 1 5 small_mounted.
Proof.
  assert (bio_inv (l_bio small_mounted) /\ bio_clean (l_bio small_mounted)) as Hb.
  { split; [constructor; try match goal with |- uniq_keys _ => apply uniq_of_nodup end; by_decide|by_decide]. }
  split.
  - split; [discriminate|]. split; [reflexivity|]. vm_compute. reflexivity.
  - split; [lia|]. vm_compute. reflexivity.
  - apply (log_init_ok (Z.eqb 1) 1 (mk_log_sb 12 2) (mk_lfs (mk_log 0 0 0 0 0 0 [] [] [] [] 0) small_bio ∅));
      [vm_compute; reflexivity|simpl; lia|done].
  - assert (lg_start (l_log small_mounted) = 2 /\ lg_size (l_log small_mounted) = 12) as [-> ->] by (vm_compute; split; reflexivity).
    change VIMIXFS_MAX_LOG_BLOCKS with 255. lia.
  - vm_compute. repeat split.
  - exact Hb.
  - apply unused_bufs; [apply Hb|by_decide|discriminate].
Qed.

Lemma small_mounted_ok : mounted_ok (Z.eqb 1) 1 5 small_sb small_mounted.
Proof.
  assert (lg_start (l_log small_mounted) = 2 /\ lg_size (l_log small_mounted) = 12) as [E1 E2] by (vm_compute; split; reflexivity).
  split; [exact small_idle|lia|rewrite E1, E2; cbn; lia|].
  assert (Forall (fun bn => is_block (tx_view 1 small_mounted bn)) (seqZ 0 64)) as H by by_decide.
  intros bn Hbn. rewrite Forall_forall in H. apply H, elem_of_seqZ. cbn in Hbn. lia.
Qed.


(** A file of 1024 bytes in block 21. *)
Definition data_inode : vimixfs_inode := mk_inode 4 0 1 1 1024 0 0 0 0 (21 :: replicate 21 0).

Lemma data_inode_ok : inode_ok data_inode.
Proof.
  unfold data_inode. split; cbn [i_mode i_dev i_nlink i_size i_uid i_gid i_ctime i_mtime addrs]; unfold is_u, is_s; [lia| |lia..|].
  - split; [lia|discriminate].
  - split; [done|]. apply Forall_cons. split; [lia|]. apply Forall_replicate. lia.
Qed.

Lemma data_entry i x : addrs data_inode !! i = Some x -> x <> 0 -> i = 0%nat /\ x = 21.
Proof.
  unfold data_inode. cbn [addrs]. destruct i as [|i]; cbn [lookup list_lookup]; [by intros [= <-]|].
  intros H Hn. apply lookup_replicate in H as [-> _]. done.
Qed.

Lemma small_data_quiet : @quiet lfs small_store small_sb small_mounted data_inode.
Proof.
  destruct (idle_tx (Z.eqb 1) 1 5 small_mounted small_idle) as [Ht Hf]. split; [exact Ht| | |intros bn _; apply Hf].
  - split.
    + assert (Forall (fun bn => is_block (tx_view 1 small_mounted bn)) (seqZ 0 64)) as H by by_decide.
      intros bn Hbn. rewrite Forall_forall in H. apply H, elem_of_seqZ. cbn in Hbn. lia.
    + assert (Forall (fun b => @used lfs small_store small_sb small_mounted b = true) (seqZ 0 21)) as H by by_decide.
      intros b Hb. rewrite Forall_forall in H. apply H, elem_of_seqZ. change (data_start small_sb) with 21 in Hb. lia.
  - apply flat_tree_ok; [split; reflexivity|reflexivity| |].
    + intros i x Hx Hn. destruct (data_entry i x Hx Hn) as [_ ->]. split; [vm_compute; split; [discriminate|reflexivity]|].
      vm_compute. reflexivity.
    + intros i j x Hi Hj Hn. destruct (data_entry i x Hi Hn) as [-> _], (data_entry j x Hj Hn) as [-> _]. reflexivity.
Qed.

