(* ===== verification/Icache.v ===== *)
(** * The inode cache and read-write spin locks (kernel/fs/vimixfs/vimixfs.c,
      kernel/lib/rwspinlock.c, kernel/include/kernel/kref.h, kernel/fs/fs.c)

    [n] processes look up inodes with [vimixfs_iget], copy references with [inode_get]
    and drop them with [vimixfs_iops_put], in any order.  A step of a process is one
    atomic operation on memory that processes share; a search of the list is one step, as
    the list does not change under the lock of the list.  The list is that of one file
    system, so the device of an inode is not compared.  An inode is an object at an
    address; addresses are not used again, so that an access to freed memory is seen as
    such.  References are pointers in memory, so the counter does not overflow. *)
From stdpp Require Import list.
From S2P Require Import Prelude.

(** ** State *)

(** The next operation of a process. *)
Inductive pc_t :=
| Outside
(* vimixfs_iget: under the lock for reading *)
| G_spin (inum : Z) | G_inc (inum : Z) | G_open (inum : Z) | G_search (inum : Z)
| G_get (inum : Z) (a : nat) | G_leave (inum : Z) (r : option nat)
(* vimixfs_iget: a new inode [a] *)
| N_alloc (inum : Z) | N_disk (a : nat) | N_spin (a : nat) | N_wait (a : nat) | N_search (a : nat)
| N_get (a b : nat) | N_found (a b : nat) | N_free (a b : nat) | N_add (a : nat) | N_added (a : nat)
(* vimixfs_iops_put *)
| P_put (a : nat) | P_sb (a : nat) | P_spin (a : nat) | P_wait (a : nat) | P_read (a : nat)
| P_back (a : nat) | P_del (a : nat) | P_unlock (a : nat) | P_disk (a : nat) | P_free (a : nat).

(** A process with the references it has. *)
Record thread := mk_thread { t_pc : pc_t; t_held : list nat }.

(** [struct inode]: number, reference count, and whether its memory is allocated. *)
Record object := mk_object { o_inum : Z; o_ref : Z; o_live : bool }.

(** [struct rwspinlock]. *)
Record rwspinlock := mk_rwlock { rw_locked : bool; rw_readers : Z }.

(** [fault] is set by an access to memory that was freed. *)
Record state := mk_state {
  list_lock : rwspinlock;
  inode_list : list nat;
  objs : nat -> object;
  next : nat;
  threads : nat -> thread;
  fault : bool
}.

Definition set_lock (l : rwspinlock) (s : state) : state :=
  mk_state l (inode_list s) (objs s) (next s) (threads s) (fault s).
Definition set_list (l : list nat) (s : state) : state :=
  mk_state (list_lock s) l (objs s) (next s) (threads s) (fault s).
Definition set_obj (a : nat) (o : object) (s : state) : state :=
  mk_state (list_lock s) (inode_list s) (upd a o (objs s)) (next s) (threads s) (fault s).
Definition set_thread (p : nat) (t : thread) (s : state) : state :=
  mk_state (list_lock s) (inode_list s) (objs s) (next s) (upd p t (threads s)) (fault s).

Definition pc (s : state) (p : nat) : pc_t := t_pc (threads s p).
Definition held (s : state) (p : nat) : list nat := t_held (threads s p).
Definition goto (p : nat) (k : pc_t) (s : state) : state := set_thread p (mk_thread k (held s p)) s.
(** The process returns with a new reference. *)
Definition return_ref (p a : nat) (s : state) : state := set_thread p (mk_thread Outside (a :: held s p)) s.

(** An access to the inode at [a]. *)
Definition touch (a : nat) (s : state) : state :=
  mk_state (list_lock s) (inode_list s) (objs s) (next s) (threads s) (fault s || negb (o_live (objs s a))).

(** ** Atomic operations *)

(** [atomic_exchange] of [locked] with [true], repeated while it was set: a process that
    spins has no step. *)
Definition rw_exchange (l : rwspinlock) : option rwspinlock :=
  if rw_locked l then None else Some (mk_rwlock true (rw_readers l)).
Definition rw_open (l : rwspinlock) : rwspinlock := mk_rwlock false (rw_readers l).
Definition rw_add (k : Z) (l : rwspinlock) : rwspinlock := mk_rwlock (rw_locked l) (rw_readers l + k).

Definition kref_add (a : nat) (k : Z) (s : state) : state :=
  let o := objs s a in set_obj a (mk_object (o_inum o) (o_ref o + k) (o_live o)) (touch a s).
Definition kfree (a : nat) (s : state) : state :=
  let o := objs s a in set_obj a (mk_object (o_inum o) (o_ref o) false) (touch a s).

(** The first inode of the list with the number. *)
Definition vimixfs_iget_locked (inum : Z) (s : state) : option nat :=
  snd <$> list_find (fun a => o_inum (objs s a) = inum) (inode_list s).

(** ** The code *)

Definition rwspin_read_lock (p : nat) (s : state) : option state :=
  match pc s p with
  | G_spin i => l ← rw_exchange (list_lock s); Some (goto p (G_inc i) (set_lock l s))
  | G_inc i => Some (goto p (G_open i) (set_lock (rw_add 1 (list_lock s)) s))
  | G_open i => Some (goto p (G_search i) (set_lock (rw_open (list_lock s)) s))
  | _ => None
  end.

Definition rwspin_write_lock (p : nat) (s : state) : option state :=
  match pc s p with
  | N_spin a => l ← rw_exchange (list_lock s); Some (goto p (N_wait a) (set_lock l s))
  | N_wait a => if rw_readers (list_lock s) =? 0 then Some (goto p (N_search a) s) else None
  | P_spin a => l ← rw_exchange (list_lock s); Some (goto p (P_wait a) (set_lock l s))
  | P_wait a => if rw_readers (list_lock s) =? 0 then Some (goto p (P_read a) s) else None
  | _ => None
  end.

(** [memory]: [kmalloc] has memory. *)
Definition vimixfs_iget (memory : bool) (p : nat) (s : state) : option state :=
  match pc s p with
  | G_search i =>
      Some (match vimixfs_iget_locked i s with
            | Some a => goto p (G_get i a) s
            | None => goto p (G_leave i None) s
            end)
  | G_get i a => Some (goto p (G_leave i (Some a)) (kref_add a 1 s))
  | G_leave i r =>
      let s := set_lock (rw_add (-1) (list_lock s)) s in
      Some (match r with Some a => return_ref p a s | None => goto p (N_alloc i) s end)
  | N_alloc i =>
      Some (if memory then
              let a := next s in
              goto p (N_disk a)
                (mk_state (list_lock s) (inode_list s) (upd a (mk_object i 1 true) (objs s)) (S a) (threads s) (fault s))
            else goto p Outside s)
  | N_disk a => Some (goto p (N_spin a) (touch a s))
  | N_search a =>
      Some (match vimixfs_iget_locked (o_inum (objs s a)) s with
            | Some b => goto p (N_get a b) s
            | None => goto p (N_add a) s
            end)
  | N_get a b => Some (goto p (N_found a b) (kref_add b 1 s))
  | N_found a b => Some (goto p (N_free a b) (set_lock (rw_open (list_lock s)) s))
  | N_free a b => Some (return_ref p b (kfree a s))
  | N_add a => Some (goto p (N_added a) (set_list (inode_list s ++ [a]) (touch a s)))
  | N_added a => Some (return_ref p a (set_lock (rw_open (list_lock s)) s))
  | _ => None
  end.

(** [P_disk] reads the number of links and deletes the file on the disk if it is 0, with
    the operations of [Trunc].  [list_del] leaves an entry that is in no list, so that
    deleting it again changes nothing. *)
Definition vimixfs_iops_put (p : nat) (s : state) : option state :=
  match pc s p with
  | P_put a =>
      Some (goto p (if o_ref (objs s a) =? 1 then P_sb a else Outside) (kref_add a (-1) s))
  | P_sb a => Some (goto p (P_spin a) (touch a s))
  | P_read a => Some (goto p (if o_ref (objs s a) =? 0 then P_del a else P_back a) (touch a s))
  | P_back a => Some (goto p Outside (set_lock (rw_open (list_lock s)) s))
  | P_del a => Some (goto p (P_unlock a) (set_list (filter (fun b => b <> a) (inode_list s)) (touch a s)))
  | P_unlock a => Some (goto p (P_disk a) (set_lock (rw_open (list_lock s)) s))
  | P_disk a => Some (goto p (P_free a) (touch a s))
  | P_free a => Some (goto p Outside (kfree a s))
  | _ => None
  end.

(** What a process does: look up an inode, copy or drop the [i]-th reference it has, or
    go on; [no_memory] goes on with a [kmalloc] that fails. *)
Inductive action := iget (inum : Z) | copy (i : nat) | put (i : nat) | go | no_memory.

Definition step_outside (p : nat) (act : action) (s : state) : option state :=
  match pc s p, act with
  | Outside, iget inum => Some (goto p (G_spin inum) s)
  | Outside, copy i => a ← held s p !! i; Some (return_ref p a (kref_add a 1 s))
  | Outside, put i => a ← held s p !! i; Some (set_thread p (mk_thread (P_put a) (delete i (held s p))) s)
  | _, _ => None
  end.

Definition orelse {A} (x y : option A) : option A := match x with Some _ => x | None => y end.

Definition step (n : nat) (e : nat * action) (s : state) : option state :=
  let (p, act) := e in
  if (p <? n)%nat then
    match act with
    | go => orelse (rwspin_read_lock p s) (orelse (rwspin_write_lock p s) (orelse (vimixfs_iget true p s) (vimixfs_iops_put p s)))
    | no_memory => vimixfs_iget false p s
    | _ => step_outside p act s
    end
  else None.

(** A schedule; events that are not possible are skipped. *)
Fixpoint run (n : nat) (es : list (nat * action)) (s : state) : state :=
  match es with
  | [] => s
  | e :: es => run n es (default s (step n e s))
  end.

Definition init : state :=
  mk_state (mk_rwlock false 0) [] (fun _ => mk_object 0 0 false) 0 (fun _ => mk_thread Outside []) false.

(** ** Where a process is *)

(** The process has set [locked]. *)
Definition gate (k : pc_t) : bool :=
  match k with
  | G_inc _ | G_open _ | N_wait _ | N_search _ | N_get _ _ | N_found _ _ | N_add _ | N_added _
  | P_wait _ | P_read _ | P_back _ | P_del _ | P_unlock _ => true
  | _ => false
  end.

(** The process is counted as a reader. *)
Definition reads (k : pc_t) : Z :=
  match k with G_open _ | G_search _ | G_get _ _ | G_leave _ _ => 1 | _ => 0 end.

(** The process has the lock for writing. *)
Definition writes (k : pc_t) : bool :=
  match k with
  | N_search _ | N_get _ _ | N_found _ _ | N_add _ | N_added _ | P_read _ | P_back _ | P_del _ | P_unlock _ => true
  | _ => false
  end.

(** The new inode that nobody else knows. *)
Definition fresh (k : pc_t) : option nat :=
  match k with
  | N_disk a | N_spin a | N_wait a | N_search a | N_get a _ | N_found a _ | N_free a _ | N_add a => Some a
  | _ => None
  end.

(** The reference to an inode of the list that the process has in a local variable. *)
Definition ref_of (k : pc_t) : option nat :=
  match k with
  | G_leave _ r => r
  | N_found _ b | N_free _ b => Some b
  | N_added a => Some a
  | P_put a => Some a
  | _ => None
  end.

(** The inode of a [vimixfs_iops_put] that dropped the last reference, and one that
    decided to free it. *)
Definition dropping (k : pc_t) : option nat :=
  match k with
  | P_sb a | P_spin a | P_wait a | P_read a | P_back a | P_del a | P_unlock a | P_disk a | P_free a => Some a
  | _ => None
  end.
Definition dying (k : pc_t) : option nat :=
  match k with P_unlock a | P_disk a | P_free a => Some a | _ => None end.

Definition one (a : nat) (o : option nat) : Z := if decide (o = Some a) then 1 else 0.
Definition count (a : nat) (l : list nat) : Z := Z.of_nat (length (filter (fun b => b = a) l)).

(** References to inodes of the list, and all references. *)
Definition pub (a : nat) (t : thread) : Z := count a (t_held t) + one a (ref_of (t_pc t)).
Definition refs (a : nat) (t : thread) : Z := pub a t + one a (fresh (t_pc t)).

Fixpoint total (n : nat) (f : nat -> Z) : Z :=
  match n with O => 0 | S n => total n f + f n end.

(** ** The invariant *)

Record lock_inv (n : nat) (l : rwspinlock) (k : nat -> pc_t) : Prop := {
  l_locked : rw_locked l = true <-> exists p, gate (k p) = true;
  l_one p q : gate (k p) = true -> gate (k q) = true -> p = q;
  l_readers : rw_readers l = total n (fun p => reads (k p));
  l_writer p : writes (k p) = true -> rw_readers l = 0
}.

Record inv (n : nat) (s : state) : Prop := {
  i_out p : (n <= p)%nat -> threads s p = mk_thread Outside [];
  i_lock : lock_inv n (list_lock s) (pc s);
  i_listed a : a ∈ inode_list s -> o_live (objs s a) = true /\ (a < next s)%nat;
  i_unique a b : a ∈ inode_list s -> b ∈ inode_list s -> o_inum (objs s a) = o_inum (objs s b) -> a = b;
  i_nodup : NoDup (inode_list s);
  i_ref a : o_live (objs s a) = true -> o_ref (objs s a) = total n (fun p => refs a (threads s p));
  i_pub p a : 0 < pub a (threads s p) -> a ∈ inode_list s;
  i_fresh p a : fresh (pc s p) = Some a -> o_live (objs s a) = true /\ a ∉ inode_list s /\ (a < next s)%nat;
  i_alone p q a : fresh (pc s p) = Some a -> fresh (pc s q) = Some a -> p = q;
  i_drop p a : dropping (pc s p) = Some a -> (a < next s)%nat /\ forall q, fresh (pc s q) <> Some a;
  i_dying p a : dying (pc s p) = Some a -> a ∉ inode_list s;
  i_del p a q : pc s p = P_del a -> refs a (threads s q) = 0;
  i_get p i a : pc s p = G_get i a -> a ∈ inode_list s /\ o_inum (objs s a) = i;
  i_get' p a b : pc s p = N_get a b -> b ∈ inode_list s /\ o_inum (objs s b) = o_inum (objs s a);
  i_add p a b : pc s p = N_add a -> b ∈ inode_list s -> o_inum (objs s b) <> o_inum (objs s a)
}.

Lemma total_ext n f g : (forall p, (p < n)%nat -> f p = g p) -> total n f = total n g.
Proof. induction n as [|n IH]; intros H; [done|]. cbn. rewrite IH, H by eauto with lia. done. Qed.

Lemma total_upd n p (f g : nat -> Z) :
  (p < n)%nat -> (forall q, q <> p -> g q = f q) -> total n g = total n f + (g p - f p).
Proof.
  induction n as [|n IH]; intros Hp H; [lia|]. cbn. destruct (decide (p = n)) as [->|Hne].
  - rewrite (total_ext n g f); [lia|]. intros q Hq. apply H. lia.
  - rewrite IH, (H n) by (done || lia). lia.
Qed.

Lemma total_nonneg n f : (forall p, 0 <= f p) -> 0 <= total n f.
Proof. intros H. induction n as [|n IH]; cbn; [lia|]. pose proof (H n). lia. Qed.

Lemma total_zero n f : (forall p, 0 <= f p) -> total n f = 0 -> forall p, (p < n)%nat -> f p = 0.
Proof.
  intros Hf. induction n as [|n IH]; intros H p Hp; [lia|]. cbn in H. pose proof (Hf n). pose proof (total_nonneg n f Hf).
  destruct (decide (p = n)) as [->|]; [lia|]. apply IH; lia.
Qed.

Lemma refs_nonneg a t : 0 <= pub a t /\ 0 <= one a (fresh (t_pc t)) /\ 0 <= one a (ref_of (t_pc t)).
Proof. unfold pub, count, one. repeat case_decide; lia. Qed.

Lemma one_eq a : one a (Some a) = 1.
Proof. unfold one. by rewrite decide_True. Qed.

Lemma one_ne a o : o <> Some a -> one a o = 0.
Proof. intros. unfold one. by rewrite decide_False. Qed.

Lemma count_elem a l : 0 < count a l <-> a ∈ l.
Proof.
  unfold count. rewrite <- (Nat2Z.inj_lt 0). split.
  - intros H. destruct (filter _ l) as [|b k] eqn:E; [cbn in H; lia|].
    assert (b ∈ filter (fun b => b = a) l) as Hb by (rewrite E; left). apply list_elem_of_filter in Hb as [-> ?]. done.
  - intros H. assert (a ∈ filter (fun b => b = a) l) as Hb by (apply list_elem_of_filter; done).
    destruct (filter _ l); [by apply elem_of_nil in Hb|cbn; lia].
Qed.

Lemma count_delete a l i b : l !! i = Some b -> count a l = count a (delete i l) + one a (Some b).
Proof.
  intros H. unfold count, one. rewrite <- (take_drop_middle l i b H) at 1. rewrite delete_take_drop, !filter_app, !length_app.
  rewrite filter_cons. case_decide; case_decide; simplify_eq; cbn [length]; lia.
Qed.

(** ** The lock *)

Section Lock.
Context (n p : nat) (Hp : (p < n)%nat) (l : rwspinlock) (f g : nat -> pc_t).
Context (Hg : forall q, q <> p -> g q = f q) (I : lock_inv n l f).

Lemma total_reads : total n (fun q => reads (g q)) = total n (fun q => reads (f q)) + (reads (g p) - reads (f p)).
Proof using Hp Hg. apply (total_upd n p (fun q => reads (f q)) (fun q => reads (g q))); [done|]. intros q Hq. by rewrite Hg. Qed.

Lemma reader_writer q : writes (f q) = true -> reads (f p) = 0.
Proof using Hp I.
  intros Hw. pose proof (l_writer _ _ _ I q Hw) as H. rewrite (l_readers _ _ _ I) in H.
  apply (total_zero n (fun q => reads (f q)) ltac:(intros r; cbn beta; destruct (f r); cbn; lia) H p Hp).
Qed.

Lemma lock_same :
  gate (g p) = gate (f p) -> reads (g p) = reads (f p) -> (writes (g p) = true -> writes (f p) = true \/ rw_readers l = 0) ->
  lock_inv n l g.
Proof using Hp Hg I.
  intros H1 H2 H3. assert (forall q, gate (g q) = gate (f q)) as E.
  { intros q. destruct (decide (q = p)) as [->|Hq]; [done|by rewrite Hg]. }
  split.
  - rewrite (l_locked _ _ _ I). by setoid_rewrite E.
  - intros q r. rewrite !E. apply I.
  - rewrite total_reads, (l_readers _ _ _ I). lia.
  - intros q Hw. destruct (decide (q = p)) as [->|Hq]; [destruct (H3 Hw); [by apply (l_writer _ _ _ I p)|done]|].
    rewrite Hg in Hw by done. by apply (l_writer _ _ _ I q).
Qed.

Lemma lock_take l' : rw_exchange l = Some l' -> gate (g p) = true -> reads (g p) = reads (f p) -> writes (g p) = false ->
  lock_inv n l' g.
Proof using Hp Hg I.
  unfold rw_exchange. intros E H1 H2 H3. destruct (rw_locked l) eqn:El; [done|]. simplify_eq.
  assert (forall q, gate (g q) = true -> q = p) as Hone.
  { intros q Hq. destruct (decide (q = p)) as [|Hne]; [done|]. rewrite Hg in Hq by done.
    assert (rw_locked l = true) by (apply (l_locked _ _ _ I); eauto). congruence. }
  split; cbn.
  - split; [|done]. intros _. eauto.
  - intros q r Hq Hr. by rewrite (Hone q Hq), (Hone r Hr).
  - rewrite total_reads, (l_readers _ _ _ I). lia.
  - intros q Hw. destruct (decide (q = p)) as [->|Hq]; [congruence|]. rewrite Hg in Hw by done. by apply (l_writer _ _ _ I q).
Qed.

Lemma lock_release : gate (f p) = true -> gate (g p) = false -> reads (g p) = reads (f p) -> lock_inv n (rw_open l) g.
Proof using Hp Hg I.
  intros H1 H2 H3. assert (forall q, gate (g q) = false) as Hno.
  { intros q. destruct (decide (q = p)) as [->|Hq]; [done|]. rewrite Hg by done. destruct (gate (f q)) eqn:E; [|done].
    by rewrite (l_one _ _ _ I q p E H1) in Hq. }
  split; cbn.
  - split; [done|]. intros (q & Hq). by rewrite Hno in Hq.
  - intros q r. by rewrite Hno.
  - rewrite total_reads, (l_readers _ _ _ I). lia.
  - intros q Hw. assert (gate (g q) = true) as Hgq by (destruct (g q); done). by rewrite Hno in Hgq.
Qed.

Lemma lock_reader k :
  gate (g p) = gate (f p) -> reads (g p) = reads (f p) + k -> writes (g p) = false ->
  (k = 1 /\ gate (f p) = true \/ k = -1 /\ gate (f p) = false /\ reads (f p) = 1) -> lock_inv n (rw_add k l) g.
Proof using Hp Hg I.
  intros H1 H2 H3 H4. assert (forall q, gate (g q) = gate (f q)) as E.
  { intros q. destruct (decide (q = p)) as [->|Hq]; [done|by rewrite Hg]. }
  split; cbn.
  - rewrite (l_locked _ _ _ I). by setoid_rewrite E.
  - intros q r. rewrite !E. apply I.
  - rewrite total_reads, (l_readers _ _ _ I). lia.
  - intros q Hw. destruct (decide (q = p)) as [->|Hq]; [congruence|]. rewrite Hg in Hw by done.
    destruct H4 as [[-> Hgp]|(-> & _ & Hr)]; [|pose proof (reader_writer q Hw); lia].
    assert (gate (f q) = true) as Hgq by (destruct (f q); done). by rewrite (l_one _ _ _ I q p Hgq Hgp) in Hq.
Qed.
End Lock.

(** Case analysis on whether thread [q] is the one that took the step. *)
Ltac who q p :=
  destruct (decide (q = p)) as [->|];
  repeat match goal with x := _ : state |- _ => unfold x in * end;
  unfold pc, held in *; cbn [threads inode_list objs next list_lock fault set_thread set_lock set_list set_obj touch goto return_ref kref_add kfree] in *;
  rewrite ?upd_eq, ?upd_ne in * by done; cbn [t_pc t_held] in *.

Section Step.
Context (n p : nat) (Hp : (p < n)%nat).

(** Only the lock and the thread change, and the thread has the references it had. *)
Lemma inv_move s t l b :
  let s' := mk_state l (inode_list s) (objs s) (next s) (upd p t (threads s)) b in
  inv n s -> lock_inv n l (pc s') -> (forall a, pub a t = pub a (threads s p)) -> fresh (t_pc t) = fresh (pc s p) ->
  (forall a, dropping (t_pc t) = Some a -> dropping (pc s p) = Some a) ->
  (forall a, dying (t_pc t) = Some a -> dying (pc s p) = Some a) ->
  (forall a q, t_pc t = P_del a -> refs a (threads s q) = 0) ->
  (forall i a, t_pc t = G_get i a -> a ∈ inode_list s /\ o_inum (objs s a) = i) ->
  (forall a b, t_pc t = N_get a b -> b ∈ inode_list s /\ o_inum (objs s b) = o_inum (objs s a)) ->
  (forall a b, t_pc t = N_add a -> b ∈ inode_list s -> o_inum (objs s b) <> o_inum (objs s a)) ->
  inv n s'.
Proof using Hp.
  intros s' I Hl Hr Hf Hdr Hdy Hdel Hg Hg' Hadd.
  assert (forall q, fresh (pc s' q) = fresh (pc s q)) as Ef by (intros q; who q p; done).
  assert (forall q a, pub a (threads s' q) = pub a (threads s q)) as Ep by (intros q a; who q p; auto).
  assert (forall q a, refs a (threads s' q) = refs a (threads s q)) as Er.
  { intros q a. unfold refs. rewrite Ep. change (t_pc (threads s' q)) with (pc s' q). by rewrite Ef. }
  split; cbn [inode_list objs next s'].
  - intros q Hq. cbn. rewrite upd_ne by lia. by apply I.
  - done.
  - apply I.
  - apply I.
  - apply I.
  - intros a Ha. rewrite (i_ref _ _ I a Ha). by apply total_ext.
  - intros q a. rewrite Ep. apply I.
  - intros q a. rewrite Ef. apply I.
  - intros q r a. rewrite !Ef. apply I.
  - intros q a Hq. setoid_rewrite Ef. apply (i_drop _ _ I q). who q p; auto.
  - intros q a Hq. apply (i_dying _ _ I q). who q p; auto.
  - intros q a r Hq. rewrite Er. who q p; [auto|by apply (i_del _ _ I q)].
  - intros q i a Hq. who q p; [auto|by apply (i_get _ _ I q)].
  - intros q a c Hq. who q p; [auto|by apply (i_get' _ _ I q)].
  - intros q a c Hq. who q p; [auto|by apply (i_add _ _ I q)].
Qed.

(** The places with a condition of their own. *)
Definition special (k : pc_t) : bool :=
  match k with P_del _ | G_get _ _ | N_get _ _ | N_add _ | P_unlock _ | P_disk _ | P_free _ => true | _ => false end.

(** A reference to [a] is made ([d] is 1) or dropped (-1). *)
Lemma inv_ref s t a d b :
  let o := objs s a in
  let s' := mk_state (list_lock s) (inode_list s) (upd a (mk_object (o_inum o) (o_ref o + d) (o_live o)) (objs s)) (next s)
              (upd p t (threads s)) b in
  inv n s -> lock_inv n (list_lock s) (pc s') ->
  (forall c, pub c t = pub c (threads s p) + if decide (c = a) then d else 0) -> fresh (t_pc t) = fresh (pc s p) ->
  (0 < d -> a ∈ inode_list s) -> (forall q, pc s q <> P_del a) -> special (t_pc t) = false ->
  (forall c, dropping (t_pc t) = Some c -> (c < next s)%nat /\ forall q, fresh (pc s q) <> Some c) ->
  inv n s'.
Proof using Hp.
  intros o s' I Hl Hr Hf Ha Hnd Hsp Hdr.
  assert (forall q, fresh (pc s' q) = fresh (pc s q)) as Ef by (intros q; who q p; done).
  assert (forall q c, refs c (threads s' q) = refs c (threads s q) + if decide (q = p /\ c = a) then d else 0) as Er.
  { intros q c. unfold refs. change (t_pc (threads s' q)) with (pc s' q). rewrite Ef. unfold pc. who q p.
    - rewrite Hr. destruct (decide (c = a)); [rewrite (decide_True (P := p = p /\ c = a)) by done|rewrite decide_False by (intros [_ ?]; done)]; lia.
    - rewrite decide_False by (intros [? _]; done). lia. }
  assert (forall c, o_inum (objs s' c) = o_inum (objs s c)) as Ei by (intros c; cbn; unfold upd; by case_decide; subst).
  assert (forall c, o_live (objs s' c) = o_live (objs s c)) as El by (intros c; cbn; unfold upd; by case_decide; subst).
  split; cbn [inode_list next s'].
  - intros q Hq. cbn. rewrite upd_ne by lia. by apply I.
  - done.
  - intros c. rewrite El. apply I.
  - intros c e. rewrite !Ei. apply I.
  - apply I.
  - intros c. rewrite El. intros Hc. rewrite (total_upd n p (fun q => refs c (threads s q))); [|done|].
    + rewrite Er, <- (i_ref _ _ I c Hc). cbn [objs s']. unfold upd, o.
      destruct (decide (c = a)) as [->|]; [rewrite decide_True by done|rewrite decide_False by (intros [_ ?]; done)]; cbn [o_ref]; lia.
    + intros q Hq. cbn beta. rewrite Er, decide_False by (intros [? _]; done). lia.
  - intros q c. who q p; [|by apply (i_pub _ _ I q)]. rewrite Hr. case_decide as Ec; [subst c|intros; apply (i_pub _ _ I p); lia].
    intros Hpos. destruct (decide (0 < d)); [auto|]. apply (i_pub _ _ I p). lia.
  - intros q c. rewrite Ef, El. apply I.
  - intros q r c. rewrite !Ef. apply I.
  - intros q c Hq. setoid_rewrite Ef. who q p; [by apply Hdr|by apply (i_drop _ _ I q)].
  - intros q c Hq. who q p; [by destruct (t_pc t)|by apply (i_dying _ _ I q)].
  - intros q c r Hq. rewrite Er. assert (pc s q = P_del c) as Hq' by (who q p; [by rewrite Hq in Hsp|done]).
    rewrite (i_del _ _ I q c r Hq'), decide_False; [done|]. intros [_ ->]. by apply (Hnd q).
  - intros q i c Hq. rewrite Ei. who q p; [by rewrite Hq in Hsp|by apply (i_get _ _ I q)].
  - intros q c e Hq. rewrite !Ei. who q p; [by rewrite Hq in Hsp|by apply (i_get' _ _ I q)].
  - intros q c e Hq. rewrite !Ei. who q p; [by rewrite Hq in Hsp|by apply (i_add _ _ I q)].
Qed.

(** A new inode. *)
Lemma inv_alloc s i :
  pc s p = N_alloc i -> inv n s ->
  inv n (mk_state (list_lock s) (inode_list s) (upd (next s) (mk_object i 1 true) (objs s)) (S (next s))
          (upd p (mk_thread (N_disk (next s)) (held s p)) (threads s)) (fault s)).
Proof using Hp.
  intros Epc I. set (a := next s). set (s' := mk_state _ _ _ _ _ _).
  assert (forall c, c ∈ inode_list s -> c <> a) as Hl by (intros c Hc; pose proof (i_listed _ _ I c Hc); unfold a; lia).
  assert (forall q c, fresh (pc s q) = Some c -> c <> a) as Hfr by (intros q c Hc; pose proof (i_fresh _ _ I q c Hc); unfold a; lia).
  assert (forall q c, pub c (threads s' q) = pub c (threads s q)) as Ep.
  { intros q c. unfold pub. who q p; [|done]. by rewrite Epc. }
  assert (forall q c, q <> p -> fresh (pc s' q) = Some c -> fresh (pc s q) = Some c) as Ef by (intros q c Hq; who q p; done).
  assert (forall c, c <> a -> objs s' c = objs s c) as Eo by (intros c Hc; cbn; by rewrite upd_ne).
  split; cbn [inode_list next s'].
  - intros q Hq. cbn. rewrite upd_ne by lia. by apply I.
  - apply (lock_same n p Hp _ (pc s)); try apply I; [intros q Hq; by who q p|..]; unfold pc; cbn; rewrite upd_eq; cbn;
      change (t_pc (threads s p)) with (pc s p); by rewrite Epc.
  - intros c Hc. rewrite Eo by auto. pose proof (i_listed _ _ I c Hc) as [? ?]. split; [done|lia].
  - intros c e Hc He. rewrite !Eo by auto. by apply I.
  - apply I.
  - intros c. destruct (decide (c = a)) as [->|Hc].
    + intros _. cbn [objs s']. rewrite upd_eq. cbn [o_ref].
      assert (forall q, pub a (threads s' q) = 0) as H0.
      { intros q. rewrite Ep. pose proof (refs_nonneg a (threads s q)). destruct (decide (0 < pub a (threads s q))) as [Hpos|]; [|lia].
        apply (i_pub _ _ I) in Hpos. by apply Hl in Hpos. }
      rewrite (total_upd n p (fun _ => 0)); [|done|].
      * assert (total n (fun _ => 0) = 0) as -> by (clear; induction n; cbn; lia). unfold refs. rewrite H0. cbn. rewrite upd_eq. cbn.
        unfold one. by rewrite decide_True by done.
      * intros q Hq. cbn beta. unfold refs. rewrite H0. cbn. rewrite upd_ne by done. unfold one. rewrite decide_False; [done|].
        intros H. by apply Hfr in H.
    + rewrite Eo by done. intros Hlive. rewrite (i_ref _ _ I c Hlive). apply total_ext. intros q _. unfold refs. rewrite Ep.
      who q p; [|done]. rewrite Epc. cbn [fresh]. by rewrite !one_ne by congruence.
  - intros q c. rewrite Ep. apply I.
  - intros q c Hq. destruct (decide (q = p)) as [->|Hne].
    + revert Hq. unfold pc. cbn. rewrite upd_eq. cbn. intros [= <-]. rewrite upd_eq. split_and!; [done| |lia]. intros Hc. by apply Hl in Hc.
    + apply Ef in Hq; [|done]. rewrite Eo by (by apply (Hfr q)). pose proof (i_fresh _ _ I q c Hq) as (? & ? & ?). split_and!; [done..|lia].
  - intros q r c Hq Hr. who q p; who r p; [done|..].
    + injection Hq as <-. by apply Hfr in Hr.
    + injection Hr as <-. by apply Hfr in Hq.
    + by apply (i_alone _ _ I q r c).
  - intros q c Hq. assert (dropping (pc s q) = Some c) as Hq' by (who q p; done).
    destruct (i_drop _ _ I q c Hq') as [H1 H2]. split; [lia|]. intros r Hr. destruct (decide (r = p)) as [->|Hne].
    + revert Hr. unfold pc. cbn. rewrite upd_eq. cbn. intros [= <-]. unfold a in H1. lia.
    + apply Ef in Hr; [|done]. by apply (H2 r).
  - intros q c Hq. apply (i_dying _ _ I q). who q p; done.
  - intros q c r Hq. assert (pc s q = P_del c) as Hq' by (who q p; done). pose proof (i_del _ _ I q c r Hq') as H0.
    unfold refs in *. rewrite Ep. destruct (i_drop _ _ I q c ltac:(by rewrite Hq')) as [H1 _].
    who r p; [|done]. rewrite Epc in H0. cbn [fresh] in *. rewrite one_ne in H0 by done. rewrite one_ne by (intros E; injection E as E; unfold a in *; lia). done.
  - intros q j c Hq. assert (pc s q = G_get j c) as Hq' by (who q p; done). destruct (i_get _ _ I q j c Hq') as [H1 H2]. by rewrite Eo by auto.
  - intros q c e Hq. assert (pc s q = N_get c e) as Hq' by (who q p; done). destruct (i_get' _ _ I q c e Hq') as [H1 H2].
    rewrite !Eo; [done|by apply (Hfr q); rewrite Hq'|auto].
  - intros q c e Hq He. assert (pc s q = N_add c) as Hq' by (who q p; done).
    rewrite !Eo; [by apply (i_add _ _ I q)|by apply (Hfr q); rewrite Hq'|auto].
Qed.

(** An inode that is not in the list and that no other process is about to add is freed. *)
Lemma inv_free s t a b :
  let o := objs s a in
  let s' := mk_state (list_lock s) (inode_list s) (upd a (mk_object (o_inum o) (o_ref o) false) (objs s)) (next s)
              (upd p t (threads s)) b in
  inv n s -> lock_inv n (list_lock s) (pc s') -> a ∉ inode_list s -> t_pc t = Outside ->
  (forall c, pub c t = pub c (threads s p)) -> (forall c, fresh (pc s p) = Some c -> c = a) ->
  (forall q, q <> p -> fresh (pc s q) <> Some a) -> inv n s'.
Proof using Hp.
  intros o s' I Hlk Ha Ht Hr Hfp Hfq.
  assert (forall q c, fresh (pc s' q) = Some c -> q <> p /\ fresh (pc s q) = Some c /\ c <> a) as Ef.
  { intros q c Hq. who q p; [by rewrite Ht in Hq|]. split; [done|]. split; [done|]. intros ->. by apply (Hfq q). }
  assert (forall q c, pub c (threads s' q) = pub c (threads s q)) as Ep by (intros q c; who q p; auto).
  assert (forall q k, pc s' q = k -> k <> Outside -> pc s q = k) as Epc by (intros q k Hq Hk; who q p; congruence).
  assert (forall c, o_inum (objs s' c) = o_inum (objs s c)) as Ei by (intros c; cbn; unfold upd; by case_decide; subst).
  assert (forall c, c <> a -> objs s' c = objs s c) as Eo by (intros c Hc; cbn; by rewrite upd_ne).
  split; cbn [inode_list next s'].
  - intros q Hq. cbn. rewrite upd_ne by lia. by apply I.
  - done.
  - intros c Hc. rewrite Eo by (intros ->; done). by apply I.
  - intros c e. rewrite !Ei. apply I.
  - apply I.
  - intros c Hc. destruct (decide (c = a)) as [->|Hne]; [cbn in Hc; by rewrite upd_eq in Hc|]. rewrite Eo in * by done.
    rewrite (i_ref _ _ I c Hc). apply total_ext. intros q _. unfold refs. rewrite Ep. who q p; [|done]. rewrite Ht. cbn [fresh].
    rewrite !one_ne; [done|done|]. intros Hq. by apply Hne, Hfp.
  - intros q c. rewrite Ep. apply I.
  - intros q c Hq. apply Ef in Hq as (_ & Hq & Hne). rewrite Eo by done. by apply (i_fresh _ _ I q).
  - intros q r c Hq Hr'. apply Ef in Hq as (_ & Hq & _), Hr' as (_ & Hr' & _). by apply (i_alone _ _ I q r c).
  - intros q c Hq. assert (dropping (pc s q) = Some c) as Hq' by (who q p; [by rewrite Ht in Hq|done]).
    destruct (i_drop _ _ I q c Hq') as [H1 H2]. split; [done|]. intros r Hr'. apply Ef in Hr' as (_ & Hr' & _). by apply (H2 r).
  - intros q c Hq. apply (i_dying _ _ I q). who q p; [by rewrite Ht in Hq|done].
  - intros q c r Hq. apply Epc in Hq; [|done]. pose proof (i_del _ _ I q c r Hq) as H0. unfold refs in *. rewrite Ep.
    pose proof (refs_nonneg c (threads s r)) as (? & ? & ?). who r p; [|done]. rewrite Ht. cbn [fresh]. rewrite one_ne by done. lia.
  - intros q i c Hq. rewrite Ei. apply Epc in Hq; [|done]. by apply (i_get _ _ I q).
  - intros q c e Hq. rewrite !Ei. apply Epc in Hq; [|done]. by apply (i_get' _ _ I q).
  - intros q c e Hq. rewrite !Ei. apply Epc in Hq; [|done]. by apply (i_add _ _ I q).
Qed.

(** Two processes are not both at places with the lock of the list. *)
Lemma gate_alone s q : inv n s -> gate (pc s p) = true -> gate (pc s q) = true -> q = p.
Proof using. intros I H1 H2. by apply (l_one _ _ _ (i_lock _ _ I)). Qed.

(** Nobody reads the list while [p] may write it. *)
Lemma no_reader s q : inv n s -> writes (pc s p) = true -> reads (pc s q) <> 1.
Proof using Hp.
  intros I Hw Hr. destruct (decide (q < n)%nat) as [Hq|Hq].
  - pose proof (reader_writer n q Hq _ _ (i_lock _ _ I) p Hw). lia.
  - revert Hr. unfold pc. by rewrite (i_out _ _ I q) by lia.
Qed.

(** The new inode is added to the list. *)
Lemma inv_added s a b :
  let s' := mk_state (list_lock s) (inode_list s ++ [a]) (objs s) (next s) (upd p (mk_thread (N_added a) (held s p)) (threads s)) b in
  pc s p = N_add a -> inv n s -> inv n s'.
Proof using Hp.
  intros s' Epc I. destruct (i_fresh _ _ I p a ltac:(by rewrite Epc)) as (Hlive & Hnin & Hlt).
  assert (forall q, q <> p -> fresh (pc s q) <> Some a) as Hfq.
  { intros q Hne Hq. apply Hne. by apply (i_alone _ _ I q p a Hq); rewrite Epc. }
  assert (forall q c, refs c (threads s' q) = refs c (threads s q)) as Er.
  { intros q c. unfold refs, pub. who q p; [|done]. rewrite Epc. cbn [ref_of fresh]. rewrite (one_ne c None) by done. lia. }
  assert (forall c, c ∈ inode_list s ++ [a] <-> c ∈ inode_list s \/ c = a) as Hin.
  { intros c. by rewrite elem_of_app, list_elem_of_singleton. }
  assert (forall q k, pc s' q = k -> k <> N_added a -> q <> p /\ pc s q = k) as Hpc by (intros q k Hq Hk; who q p; [congruence|done]).
  split; cbn [inode_list next objs s'].
  - intros q Hq. cbn. rewrite upd_ne by lia. by apply I.
  - apply (lock_same n p Hp _ (pc s)); try apply I; [intros q Hq; by who q p|..]; unfold pc; cbn; rewrite upd_eq; cbn;
      change (t_pc (threads s p)) with (pc s p); rewrite Epc; auto.
  - intros c [Hc| ->]%Hin; [by apply I|done].
  - intros c e [Hc| ->]%Hin [He| ->]%Hin; [by apply I|..|done]; intros E.
    + by destruct (i_add _ _ I p a c Epc Hc).
    + by destruct (i_add _ _ I p a e Epc He).
  - apply NoDup_app. split_and!; [apply I| |apply NoDup_singleton]. intros c Hc ->%list_elem_of_singleton. done.
  - intros c Hc. rewrite (i_ref _ _ I c Hc). by apply total_ext.
  - intros q c Hpos. apply Hin. destruct (decide (c = a)) as [->|Hne]; [by right|left]. apply (i_pub _ _ I q). revert Hpos.
    unfold pub. who q p; [|done]. cbn [ref_of]. rewrite one_ne by congruence. by rewrite Epc, one_ne.
  - intros q c Hq. assert (q <> p /\ fresh (pc s q) = Some c) as [Hne Hq'] by (who q p; done).
    destruct (i_fresh _ _ I q c Hq') as (? & ? & ?). split; [done|]. split; [|done]. intros [?| ->]%Hin; [done|]. by apply (Hfq q).
  - intros q r c Hq Hr. who q p; who r p; try done. by apply (i_alone _ _ I q r c).
  - intros q c Hq. assert (dropping (pc s q) = Some c) as Hq' by (who q p; done). destruct (i_drop _ _ I q c Hq') as [H1 H2].
    split; [done|]. intros r Hr. apply (H2 r). who r p; done.
  - intros q c Hq. assert (dying (pc s q) = Some c) as Hq' by (who q p; done). intros [Hc| ->]%Hin; [by apply (i_dying _ _ I q c)|].
    destruct (i_drop _ _ I q a) as [_ H2]; [by destruct (pc s q)|]. apply (H2 p). by rewrite Epc.
  - intros q c r Hq. apply Hpc in Hq as [_ Hq]; [|done]. rewrite Er. by apply (i_del _ _ I q).
  - intros q i c Hq. apply Hpc in Hq as [_ Hq]; [|done]. destruct (i_get _ _ I q i c Hq). split; [apply Hin; by left|done].
  - intros q c e Hq. apply Hpc in Hq as [_ Hq]; [|done]. destruct (i_get' _ _ I q c e Hq). split; [apply Hin; by left|done].
  - intros q c e Hq _. apply Hpc in Hq as [Hne Hq]; [|done]. exfalso. apply Hne, (gate_alone s); [done|by rewrite Epc|by rewrite Hq].
Qed.

(** An inode without references is removed from the list. *)
Lemma inv_deleted s a b :
  let s' := mk_state (list_lock s) (filter (fun c => c <> a) (inode_list s)) (objs s) (next s)
              (upd p (mk_thread (P_unlock a) (held s p)) (threads s)) b in
  pc s p = P_del a -> inv n s -> inv n s'.
Proof using Hp.
  intros s' Epc I. pose proof (i_del _ _ I p a) as Hz.
  assert (forall q, fresh (pc s' q) = fresh (pc s q)) as Ef by (intros q; who q p; [by rewrite Epc|done]).
  assert (forall q c, pub c (threads s' q) = pub c (threads s q)) as Ep by (intros q c; unfold pub; who q p; [by rewrite Epc|done]).
  assert (forall q c, refs c (threads s' q) = refs c (threads s q)) as Er.
  { intros q c. unfold refs. rewrite Ep. change (t_pc (threads s' q)) with (pc s' q). by rewrite Ef. }
  assert (forall q k, pc s' q = k -> k <> P_unlock a -> q <> p /\ pc s q = k) as Hpc by (intros q k Hq Hk; who q p; [congruence|done]).
  assert (forall c, c ∈ filter (fun c => c <> a) (inode_list s) <-> c <> a /\ c ∈ inode_list s) as Hin by (intros c; by rewrite list_elem_of_filter).
  split; cbn [inode_list next objs s'].
  - intros q Hq. cbn. rewrite upd_ne by lia. by apply I.
  - apply (lock_same n p Hp _ (pc s)); try apply I; [intros q Hq; by who q p|..]; unfold pc; cbn; rewrite upd_eq; cbn;
      change (t_pc (threads s p)) with (pc s p); rewrite Epc; auto.
  - intros c [_ Hc]%Hin. by apply I.
  - intros c e [_ Hc]%Hin [_ He]%Hin. by apply I.
  - apply NoDup_filter, I.
  - intros c Hc. rewrite (i_ref _ _ I c Hc). by apply total_ext.
  - intros q c. rewrite Ep. intros Hpos. apply Hin. split; [|by apply (i_pub _ _ I q)]. intros ->.
    pose proof (Hz q Epc) as H0. unfold refs in H0. pose proof (refs_nonneg a (threads s q)). lia.
  - intros q c. rewrite Ef. intros Hq. destruct (i_fresh _ _ I q c Hq) as (? & ? & ?). split; [done|]. split; [|done]. by intros [_ ?]%Hin.
  - intros q r c. rewrite !Ef. apply I.
  - intros q c Hq. setoid_rewrite Ef. apply (i_drop _ _ I q). who q p; [by rewrite Epc|done].
  - intros q c Hq [Hne Hc]%Hin. revert Hq Hc. who q p; [intros [= <-]; done|apply (i_dying _ _ I q)].
  - intros q c r Hq. apply Hpc in Hq as [_ Hq]; [|done]. rewrite Er. by apply (i_del _ _ I q).
  - intros q i c Hq. apply Hpc in Hq as [_ Hq]; [|done]. destruct (i_get _ _ I q i c Hq). split; [|done]. apply Hin. split; [|done]. intros ->.
    by apply (no_reader s q I ltac:(by rewrite Epc)); rewrite Hq.
  - intros q c e Hq. apply Hpc in Hq as [Hne Hq]; [|done]. exfalso. apply Hne, (gate_alone s); [done|by rewrite Epc|by rewrite Hq].
  - intros q c e Hq [_ He]%Hin. apply Hpc in Hq as [_ Hq]; [|done]. by apply (i_add _ _ I q).
Qed.

(** The conditions of the lemmas above that follow from the place of the process. *)
Ltac place Epc :=
  intros; unfold pub, pc, held in *; cbn [threads t_pc t_held] in *; rewrite ?upd_eq in *; cbn [t_pc t_held] in *;
  rewrite ?Epc in *; cbn [ref_of fresh dropping dying gate reads writes] in *; first [done | congruence | solve [auto] | lia].
Ltac others := let q := fresh "q" in intros q ?; unfold pc; cbn [threads]; by rewrite upd_ne.

Lemma read_lock_inv s s' : inv n s -> rwspin_read_lock p s = Some s' -> inv n s'.
Proof using Hp.
  intros I. unfold rwspin_read_lock. destruct (pc s p) eqn:Epc; try done.
  - destruct (rw_exchange _) as [l|] eqn:El; [|done]. intros [= <-].
    apply (inv_move s (mk_thread (G_inc inum) (held s p)) l (fault s) I); [|place Epc..].
    apply (lock_take n p Hp (list_lock s) (pc s)); [others|apply I|done|place Epc..].
  - intros [= <-]. apply (inv_move s (mk_thread (G_open inum) (held s p)) (rw_add 1 (list_lock s)) (fault s) I); [|place Epc..].
    apply (lock_reader n p Hp _ (pc s)); [others|apply I|place Epc..].
  - intros [= <-]. apply (inv_move s (mk_thread (G_search inum) (held s p)) (rw_open (list_lock s)) (fault s) I); [|place Epc..].
    apply (lock_release n p Hp _ (pc s)); [others|apply I|place Epc..].
Qed.

Lemma write_lock_inv s s' : inv n s -> rwspin_write_lock p s = Some s' -> inv n s'.
Proof using Hp.
  intros I. unfold rwspin_write_lock. destruct (pc s p) eqn:Epc; try done;
    first [destruct (rw_exchange _) as [l|] eqn:El; [|done] | destruct (Z.eqb_spec (rw_readers (list_lock s)) 0) as [E0|]; [|done]];
    intros [= <-].
  - apply (inv_move s (mk_thread (N_wait a) (held s p)) l (fault s) I); [|place Epc..].
    apply (lock_take n p Hp (list_lock s) (pc s)); [others|apply I|done|place Epc..].
  - apply (inv_move s (mk_thread (N_search a) (held s p)) (list_lock s) (fault s) I); [|place Epc..].
    apply (lock_same n p Hp _ (pc s)); [others|apply I|place Epc..].
  - apply (inv_move s (mk_thread (P_wait a) (held s p)) l (fault s) I); [|place Epc..].
    apply (lock_take n p Hp (list_lock s) (pc s)); [others|apply I|done|place Epc..].
  - apply (inv_move s (mk_thread (P_read a) (held s p)) (list_lock s) (fault s) I); [|place Epc..].
    apply (lock_same n p Hp _ (pc s)); [others|apply I|place Epc..].
Qed.

Lemma iget_locked_Some i s a : vimixfs_iget_locked i s = Some a -> a ∈ inode_list s /\ o_inum (objs s a) = i.
Proof using.
  unfold vimixfs_iget_locked. intros ([j b] & Hb & ->)%fmap_Some. apply list_find_Some in Hb as (Hj & Hi & _).
  split; [by eapply list_elem_of_lookup_2|done].
Qed.

Lemma iget_locked_None i s a : vimixfs_iget_locked i s = None -> a ∈ inode_list s -> o_inum (objs s a) <> i.
Proof using.
  unfold vimixfs_iget_locked. intros H%fmap_None Ha. apply list_find_None in H. rewrite Forall_forall in H. by apply H.
Qed.

(** The reader finds an inode and takes a reference. *)
Lemma get_inv s i a : pc s p = G_get i a -> inv n s -> inv n (goto p (G_leave i (Some a)) (kref_add a 1 s)).
Proof using Hp.
  intros Epc I. destruct (i_get _ _ I p i a Epc) as [Ha Hi].
  apply (inv_ref s (mk_thread (G_leave i (Some a)) (held s p)) a 1 (fault s || negb (o_live (objs s a))) I).
  - apply (lock_same n p Hp _ (pc s)); [others|apply I|place Epc..].
  - intros c. unfold pub, held. cbn [t_pc t_held ref_of]. change (t_pc (threads s p)) with (pc s p). rewrite Epc. cbn [ref_of].
    rewrite (one_ne c None) by done. case_decide; [subst; rewrite one_eq|rewrite one_ne by congruence]; lia.
  - place Epc.
  - done.
  - intros q Hq. pose proof (reader_writer n p Hp _ _ (i_lock _ _ I) q ltac:(by rewrite Hq)) as Hr. by rewrite Epc in Hr.
  - done.
  - done.
Qed.

(** A search under the lock for writing found an inode. *)
Lemma get_again_inv s a b : pc s p = N_get a b -> inv n s -> inv n (goto p (N_found a b) (kref_add b 1 s)).
Proof using Hp.
  intros Epc I. destruct (i_get' _ _ I p a b Epc) as [Ha Hi].
  apply (inv_ref s (mk_thread (N_found a b) (held s p)) b 1 (fault s || negb (o_live (objs s b))) I).
  - apply (lock_same n p Hp _ (pc s)); [others|apply I|place Epc..].
  - intros c. unfold pub, held. cbn [t_pc t_held ref_of]. change (t_pc (threads s p)) with (pc s p). rewrite Epc. cbn [ref_of].
    rewrite (one_ne c None) by done. case_decide; [subst; rewrite one_eq|rewrite one_ne by congruence]; lia.
  - place Epc.
  - done.
  - intros q Hq. assert (q = p) as -> by (apply (gate_alone s); [done|by rewrite Epc|by rewrite Hq]). congruence.
  - done.
  - done.
Qed.

(** A reference moves from a local variable to those that the caller has. *)
Lemma pub_return c a t : ref_of (t_pc t) = Some a -> pub c (mk_thread Outside (a :: t_held t)) = pub c t.
Proof using.
  clear Hp. intros E. unfold pub, count, one. rewrite E. cbn [t_pc t_held ref_of]. rewrite filter_cons, (decide_False (P := None = Some c)) by done.
  destruct (decide (a = c)) as [->|]; [rewrite decide_True by done|rewrite decide_False by congruence]; cbn [length]; lia.
Qed.

Lemma iget_inv memory s s' : inv n s -> vimixfs_iget memory p s = Some s' -> inv n s'.
Proof using Hp.
  intros I. unfold vimixfs_iget. destruct (pc s p) eqn:Epc; try done; intros [= <-].
  - destruct (vimixfs_iget_locked inum s) as [a|] eqn:E.
    + apply iget_locked_Some in E. apply (inv_move s (mk_thread (G_get inum a) (held s p)) (list_lock s) (fault s) I); [|place Epc..].
      apply (lock_same n p Hp _ (pc s)); [others|apply I|place Epc..].
    + apply (inv_move s (mk_thread (G_leave inum None) (held s p)) (list_lock s) (fault s) I); [|place Epc..].
      apply (lock_same n p Hp _ (pc s)); [others|apply I|place Epc..].
  - by apply get_inv.
  - destruct r as [a|].
    + apply (inv_move s (mk_thread Outside (a :: held s p)) (rw_add (-1) (list_lock s)) (fault s) I);
        [|intros c; apply pub_return; unfold pc in Epc; by rewrite Epc|place Epc..].
      apply (lock_reader n p Hp _ (pc s)); [others|apply I|place Epc..].
    + apply (inv_move s (mk_thread (N_alloc inum) (held s p)) (rw_add (-1) (list_lock s)) (fault s) I); [|place Epc..].
      apply (lock_reader n p Hp _ (pc s)); [others|apply I|place Epc..].
  - destruct memory; [exact (inv_alloc s inum Epc I)|]. apply (inv_move s (mk_thread Outside (held s p)) (list_lock s) (fault s) I); [|place Epc..].
    apply (lock_same n p Hp _ (pc s)); [others|apply I|place Epc..].
  - apply (inv_move s (mk_thread (N_spin a) (held s p)) (list_lock s) (fault s || negb (o_live (objs s a))) I); [|place Epc..].
    apply (lock_same n p Hp _ (pc s)); [others|apply I|place Epc..].
  - destruct (vimixfs_iget_locked _ s) as [b|] eqn:E.
    + apply iget_locked_Some in E. apply (inv_move s (mk_thread (N_get a b) (held s p)) (list_lock s) (fault s) I); [|place Epc..].
      apply (lock_same n p Hp _ (pc s)); [others|apply I|place Epc..].
    + apply (inv_move s (mk_thread (N_add a) (held s p)) (list_lock s) (fault s) I); [|place Epc..|].
      * apply (lock_same n p Hp _ (pc s)); [others|apply I|place Epc..].
      * intros c b [= <-]. by apply iget_locked_None.
  - by apply get_again_inv.
  - apply (inv_move s (mk_thread (N_free a b) (held s p)) (rw_open (list_lock s)) (fault s) I); [|place Epc..].
    apply (lock_release n p Hp _ (pc s)); [others|apply I|place Epc..].
  - destruct (i_fresh _ _ I p a ltac:(by rewrite Epc)) as (_ & Hnin & _).
    apply (inv_free s (mk_thread Outside (b :: held s p)) a (fault s || negb (o_live (objs s a))) I); [|done|done|..].
    + apply (lock_same n p Hp _ (pc s)); [others|apply I|place Epc..].
    + intros c. apply pub_return. unfold pc in Epc. by rewrite Epc.
    + place Epc.
    + intros q Hne Hq. apply Hne. apply (i_alone _ _ I q p a Hq). by rewrite Epc.
  - exact (inv_added s a _ Epc I).
  - apply (inv_move s (mk_thread Outside (a :: held s p)) (rw_open (list_lock s)) (fault s) I);
      [|intros c; apply pub_return; unfold pc in Epc; by rewrite Epc|place Epc..].
    apply (lock_release n p Hp _ (pc s)); [others|apply I|place Epc..].
Qed.

Lemma iops_put_inv s s' : inv n s -> vimixfs_iops_put p s = Some s' -> fault s' = false -> inv n s'.
Proof using Hp.
  intros I. unfold vimixfs_iops_put. destruct (pc s p) eqn:Epc; try done; intros [= <-].
  - intros _. assert (a ∈ inode_list s) as Ha.
    { apply (i_pub _ _ I p). pose proof (refs_nonneg a (threads s p)) as (_ & _ & H1). unfold pub, pc in *. rewrite Epc. cbn [ref_of].
      rewrite one_eq. unfold count. lia. }
    apply (inv_ref s (mk_thread (if o_ref (objs s a) =? 1 then P_sb a else Outside) (held s p)) a (-1) (fault s || negb (o_live (objs s a))) I).
    + apply (lock_same n p Hp _ (pc s)); [others|apply I|..]; destruct (_ =? 1); place Epc.
    + intros c. unfold pub, held. cbn [t_pc t_held]. change (t_pc (threads s p)) with (pc s p). rewrite Epc. cbn [ref_of].
      destruct (_ =? 1); cbn [ref_of]; rewrite (one_ne c None) by done; (case_decide; [subst; rewrite one_eq|rewrite one_ne by congruence]; lia).
    + destruct (_ =? 1); place Epc.
    + lia.
    + intros q Hq. pose proof (i_del _ _ I q a p Hq) as H0. unfold refs in H0. pose proof (refs_nonneg a (threads s p)) as (H1 & H2 & H3).
      assert (pub a (threads s p) = 0) as H4 by lia. revert H4. unfold pub, pc in *. rewrite Epc. cbn [ref_of]. rewrite one_eq. unfold count. lia.
    + by destruct (_ =? 1).
    + intros c Hc. assert (c = a) as -> by (destruct (_ =? 1); cbn in Hc; congruence). split; [by apply (i_listed _ _ I)|].
      intros q Hq. by destruct (i_fresh _ _ I q a Hq) as (_ & ? & _).
  - intros _. apply (inv_move s (mk_thread (P_spin a) (held s p)) (list_lock s) (fault s || negb (o_live (objs s a))) I); [|place Epc..].
    apply (lock_same n p Hp _ (pc s)); [others|apply I|place Epc..].
  - intros Hf. cbn in Hf. apply orb_false_iff in Hf as [_ Hlive%negb_false_iff].
    apply (inv_move s (mk_thread (if o_ref (objs s a) =? 0 then P_del a else P_back a) (held s p)) (list_lock s)
             (fault s || negb (o_live (objs s a))) I).
    1: apply (lock_same n p Hp _ (pc s)); [others|apply I|..]; destruct (_ =? 0); place Epc.
    all: destruct (Z.eqb_spec (o_ref (objs s a)) 0) as [E0|E0]; try (place Epc).
    intros c q [= <-]. rewrite (i_ref _ _ I a Hlive) in E0. destruct (decide (q < n)%nat) as [Hq|Hq].
    + apply (total_zero n (fun q => refs a (threads s q))); [|done|done]. intros r. cbn beta. unfold refs. pose proof (refs_nonneg a (threads s r)). lia.
    + by rewrite (i_out _ _ I q) by lia.
  - intros _. apply (inv_move s (mk_thread Outside (held s p)) (rw_open (list_lock s)) (fault s) I); [|place Epc..].
    apply (lock_release n p Hp _ (pc s)); [others|apply I|place Epc..].
  - intros _. exact (inv_deleted s a _ Epc I).
  - intros _. apply (inv_move s (mk_thread (P_disk a) (held s p)) (rw_open (list_lock s)) (fault s) I); [|place Epc..].
    apply (lock_release n p Hp _ (pc s)); [others|apply I|place Epc..].
  - intros _. apply (inv_move s (mk_thread (P_free a) (held s p)) (list_lock s) (fault s || negb (o_live (objs s a))) I); [|place Epc..].
    apply (lock_same n p Hp _ (pc s)); [others|apply I|place Epc..].
  - intros _. apply (inv_free s (mk_thread Outside (held s p)) a (fault s || negb (o_live (objs s a))) I); [| |done|place Epc..|].
    + apply (lock_same n p Hp _ (pc s)); [others|apply I|place Epc..].
    + apply (i_dying _ _ I p). by rewrite Epc.
    + intros q _ Hq. destruct (i_drop _ _ I p a ltac:(by rewrite Epc)) as [_ H2]. by apply (H2 q).
Qed.

Lemma outside_inv act s s' : inv n s -> step_outside p act s = Some s' -> inv n s'.
Proof using Hp.
  intros I. unfold step_outside. destruct (pc s p) eqn:Epc; try done. destruct act as [inum|i|i| |]; try done.
  - intros [= <-]. apply (inv_move s (mk_thread (G_spin inum) (held s p)) (list_lock s) (fault s) I); [|place Epc..].
    apply (lock_same n p Hp _ (pc s)); [others|apply I|place Epc..].
  - destruct (held s p !! i) as [a|] eqn:Ei; [|done]. intros [= <-].
    assert (0 < count a (held s p)) as Hc by (apply count_elem; by eapply list_elem_of_lookup_2).
    assert (0 < pub a (threads s p)) as Hpos by (pose proof (refs_nonneg a (threads s p)); unfold pub, held in *; lia).
    apply (inv_ref s (mk_thread Outside (a :: held s p)) a 1 (fault s || negb (o_live (objs s a))) I).
    + apply (lock_same n p Hp _ (pc s)); [others|apply I|place Epc..].
    + intros c. unfold pub, count, held. change (t_pc (threads s p)) with (pc s p). rewrite Epc. cbn [t_pc t_held ref_of]. rewrite filter_cons.
      case_decide; subst; [rewrite decide_True by done|rewrite decide_False by congruence]; cbn [length]; lia.
    + place Epc.
    + intros _. by apply (i_pub _ _ I p).
    + intros q Hq. pose proof (i_del _ _ I q a p Hq) as H0. unfold refs in H0. pose proof (refs_nonneg a (threads s p)). lia.
    + done.
    + done.
  - destruct (held s p !! i) as [a|] eqn:Ei; [|done]. intros [= <-].
    apply (inv_move s (mk_thread (P_put a) (delete i (held s p))) (list_lock s) (fault s) I); [| |place Epc..].
    + apply (lock_same n p Hp _ (pc s)); [others|apply I|place Epc..].
    + intros c. unfold pub. change (t_pc (threads s p)) with (pc s p). rewrite Epc. cbn [t_pc t_held ref_of].
      rewrite (count_delete c (t_held (threads s p)) i a) by done. unfold held. rewrite (one_ne c None) by done. lia.
Qed.
End Step.

Lemma init_inv n : inv n init.
Proof.
  split; try done.
  - split; try done.
    + split; [done|]. by intros (p & ?).
    + change (rw_readers _) with 0. clear. induction n as [|n IH]; [done|]. cbn [total]. by rewrite <- IH.
  - intros a Ha. by apply elem_of_nil in Ha.
  - intros a b Ha. by apply elem_of_nil in Ha.
  - constructor.
Qed.

Lemma step_inv n e s s' : inv n s -> step n e s = Some s' -> fault s' = false -> inv n s'.
Proof.
  intros I. destruct e as [p act]. unfold step. destruct (Nat.ltb_spec p n) as [Hp|]; [|done].
  destruct act; try (by intros H _; eapply outside_inv; eauto).
  - unfold orelse. destruct (rwspin_read_lock p s) eqn:E1; [intros [= <-] _; by eapply read_lock_inv|].
    destruct (rwspin_write_lock p s) eqn:E2; [intros [= <-] _; by eapply write_lock_inv|].
    destruct (vimixfs_iget true p s) eqn:E3; [intros [= <-] _; by eapply iget_inv|]. by eapply iops_put_inv.
  - intros H _. by eapply iget_inv.
Qed.

(** The inode that a process reads or writes in a step. *)
Definition accesses (s : state) (e : nat * action) : option nat :=
  match pc s (fst e), snd e with
  | Outside, copy i => held s (fst e) !! i
  | (G_get _ a | N_disk a | N_get _ a | N_free a _ | N_add a | P_put a | P_sb a | P_read a | P_del a | P_disk a | P_free a), _ => Some a
  | _, _ => None
  end.

Lemma step_fault n e s s' :
  step n e s = Some s' ->
  fault s' = fault s \/ exists a, accesses s e = Some a /\ fault s' = (fault s || negb (o_live (objs s a)))%bool.
Proof.
  destruct e as [p act]. unfold step, orelse, accesses. cbn [fst snd]. destruct (p <? n)%nat; [|done].
  unfold rwspin_read_lock, rwspin_write_lock, vimixfs_iget, vimixfs_iops_put, step_outside.
  destruct (pc s p) eqn:Epc, act; try done; cbn [mbind option_bind]; intros H;
    repeat (match type of H with
            | context [?x ≫= _] => destruct x eqn:?; cbn [mbind option_bind] in H
            | context [match (if ?x then _ else _) with Some _ => _ | None => _ end] => destruct x eqn:?
            | context [match vimixfs_iget_locked ?i ?s with Some _ => _ | None => _ end] => destruct (vimixfs_iget_locked i s) eqn:?
            | context [match ?r with Some _ => return_ref _ _ _ | None => _ end] => destruct r
            end; try done);
    injection H as <-; first [left; reflexivity | right; eexists; split; [first [reflexivity | eassumption] | reflexivity]].
Qed.

Lemma run_fault n es : forall s, fault (run n es s) = false -> fault s = false.
Proof.
  induction es as [|e es IH]; intros s Hf; [done|]. cbn [run] in Hf.
  destruct (step n e s) as [s'|] eqn:E; cbn [default] in Hf; apply IH in Hf; [|done]. unfold from_option, id in Hf.
  destruct (step_fault n e s s' E) as [H|(a & _ & H)]; rewrite H in Hf; [done|]. by apply orb_false_iff in Hf as [? _].
Qed.

Lemma run_inv n es : forall s, inv n s -> fault (run n es s) = false -> inv n (run n es s).
Proof.
  induction es as [|e es IH]; intros s I Hf; [done|]. cbn [run] in *. destruct (step n e s) as [s'|] eqn:E; [|by apply IH].
  apply IH; [|done]. by apply (step_inv n e s s' I E), (run_fault n es).
Qed.

(** An access to freed memory is one of a process that dropped the last reference. *)
Lemma access_dropping n s e a :
  inv n s -> step n e s <> None -> accesses s e = Some a -> o_live (objs s a) = false -> dropping (pc s (fst e)) = Some a.
Proof.
  intros I Hs Ha Hl. destruct e as [p act]. unfold accesses in Ha. cbn [fst snd] in *.
  assert (a ∉ inode_list s) as Hn by (intros H; destruct (i_listed _ _ I a H); congruence).
  assert (forall q, pub a (threads s q) <= 0) as Hpub.
  { intros q. destruct (decide (0 < pub a (threads s q))) as [H|]; [by apply (i_pub _ _ I) in H|lia]. }
  assert (fresh (pc s p) <> Some a) as Hfr by (intros H; destruct (i_fresh _ _ I p a H); congruence).
  destruct (pc s p) eqn:Epc; try (simplify_eq; try done).
  - destruct act as [|i| | |]; try done. exfalso. pose proof (Hpub p) as Hp. unfold pub in Hp.
    pose proof (refs_nonneg a (threads s p)). assert (0 < count a (held s p)) by (apply count_elem; by eapply list_elem_of_lookup_2).
    unfold held in *. lia.
  - by destruct (i_get _ _ I p _ _ Epc).
  - by destruct (i_get' _ _ I p _ _ Epc).
  - exfalso. pose proof (Hpub p) as Hp. unfold pub, count, pc in *. rewrite Epc in Hp. cbn [ref_of] in Hp. rewrite one_eq in Hp. lia.
Qed.

(** C8: [vimixfs_iget] and [vimixfs_iops_put] keep the list of inodes under every
    interleaving, as long as no freed memory was used: an inode number is in the list at
    most once, a reference that a process has is to an inode in the list whose memory is
    allocated, the counter of an inode is the number of references to it, and a process
    that changes the list is the only one that uses it.  The first use of freed memory, if
    there is one, is by a process in [vimixfs_iops_put] that dropped the last
    reference. *)
Theorem icache_safe n es :
  let s := run n es init in
  fault s = false ->
  (forall a b, a ∈ inode_list s -> b ∈ inode_list s -> o_inum (objs s a) = o_inum (objs s b) -> a = b) /\
  (forall p a, a ∈ held s p -> a ∈ inode_list s /\ o_live (objs s a) = true) /\
  (forall a, a ∈ inode_list s -> o_ref (objs s a) = total n (fun p => refs a (threads s p))) /\
  (forall p q, writes (pc s p) = true -> gate (pc s q) = true \/ reads (pc s q) = 1 -> q = p) /\
  (forall e s', step n e s = Some s' -> fault s' = true ->
    exists a, dropping (pc s (fst e)) = Some a /\ o_live (objs s a) = false).
Proof.
  intros s Hf. pose proof (run_inv n es init (init_inv n) Hf) as I. fold s in I. split_and!.
  - apply I.
  - intros p a Ha. assert (a ∈ inode_list s) as Hin; [|split; [done|by apply I]]. apply (i_pub _ _ I p). apply count_elem in Ha.
    pose proof (refs_nonneg a (threads s p)). unfold pub, held in *. lia.
  - intros a Ha. apply (i_ref _ _ I). by apply I.
  - intros p q Hw [Hg|Hr].
    + apply (l_one _ _ _ (i_lock _ _ I) q p Hg). by destruct (pc s p).
    + destruct (decide (p < n)%nat) as [Hp|Hp]; [by destruct (no_reader n p Hp s q I Hw)|].
      revert Hw. unfold pc. by rewrite (i_out _ _ I p) by lia.
  - intros e s' E Hf'. destruct (step_fault n e s s' E) as [H|(a & Ha & H)]; [congruence|]. rewrite Hf, Hf' in H. symmetry in H.
    apply negb_true_iff in H. exists a. split; [|done]. by apply (access_dropping n s e a I); [rewrite E| |].
Qed.

(** Process [p] takes [k] steps. *)
Definition times (k p : nat) : list (nat * action) := replicate k (p, go).

(** Process 0 has the only reference to inode 7 and drops it; before it has the lock of
    the list, process 1 finds the inode, drops the reference again and removes the inode
    from the list. *)
Definition race : list (nat * action) :=
  [(0%nat, iget 7)] ++ times 12 0 ++ [(0%nat, put 0)] ++ times 2 0 ++
  [(1%nat, iget 7)] ++ times 6 1 ++ [(1%nat, put 0)] ++ times 8 1.


(** Process 0 has a reference, process 1 holds the lock of the list. *)
Lemma icache_safe_witness :
  let s := run 2 ([(0%nat, iget 7)] ++ times 12 0 ++ [(1%nat, iget 8)] ++ times 10 1) init in
  held s 0 = [0%nat] /\ pc s 1 = N_add 1 /\ 0%nat ∈ inode_list s /\ gate (pc s 0) = false.
Proof.
  set (s := run _ _ _). assert (fault s = false) as Hf by (vm_compute; done).
  destruct (icache_safe 2 ([(0%nat, iget 7)] ++ times 12 0 ++ [(1%nat, iget 8)] ++ times 10 1) Hf) as (_ & H2 & _ & H4 & _).
  fold s in H2, H4. assert (held s 0 = [0%nat]) as Hh by (vm_compute; done). assert (pc s 1 = N_add 1) as Hpc by (vm_compute; done).
  split; [done|]. split; [done|]. split; [apply (H2 0%nat); rewrite Hh; left|].
  destruct (gate (pc s 0)) eqn:E; [|done]. by assert (0%nat = 1%nat) by (apply H4; [by rewrite Hpc|by left]).
Defined.
