(* ===== verification/Dir.v ===== *)
(** * Directories (kernel/fs/vimixfs/vimixfs.c, kernel/fs/fs.c)

    A directory is a file that is an array of entries.  The operations on one directory,
    whose inode is locked by the caller, as operations on the file; they refine a finite
    map from names to inode numbers.  A name is the list of its characters, the
    terminating zero is not part of it. *)
From stdpp Require Import list gmap.
From S2P Require Import Prelude Bytes Bio Log LogCommit Perm CString Txn Bmap Inode FileData Trunc Durable.

Definition EEXIST : Z := 17.
Definition ENOTEMPTY : Z := 39.
Definition EOTHER : Z := 0xFFF0.
Definition INVALID_INODE : Z := 0.
Definition VIMIXFS_NAME_MAX : Z := 60.

(** [sizeof(struct vimixfs_dirent)]: the number of the inode and the name. *)
Definition DIRENT_SIZE : Z := 64.
Definition DIRS_PER_BLOCK : Z := BLOCK_SIZE / DIRENT_SIZE.

(** ** Names *)

(** [strncmp] of [CString] on the characters of two strings. *)
Fixpoint chars_ncmp (n : nat) (s t : list Z) : Z :=
  match n with
  | O => 0
  | S n => let a := hd 0 s in let b := hd 0 t in
           if (negb (a =? 0) && (a =? b))%bool then chars_ncmp n (tl s) (tl t) else a - b
  end.

Definition file_name_cmp (s t : list Z) : Z := chars_ncmp (Z.to_nat NAME_MAX) s t.

(** The [n] characters that [strncpy] writes. *)
Fixpoint chars_ncpy (n : nat) (s : list Z) : list Z :=
  match n with
  | O => []
  | S n => let c := hd 0 s in if c =? 0 then c :: replicate n 0 else c :: chars_ncpy n (tl s)
  end.

(** ** Entries *)

(** [struct vimixfs_dirent] in a block, its fields, and its bytes. *)
Definition dirent_at (data : block) (dir_idx : Z) : list Z :=
  take (Z.to_nat DIRENT_SIZE) (drop (Z.to_nat (dir_idx * DIRENT_SIZE)) data).
Definition de_inum (de : list Z) : option Z := get_u32 0 de.
Definition de_name (de : list Z) : list Z := take (Z.to_nat VIMIXFS_NAME_MAX) (drop 4 de).
Definition dirent_bytes (inum : Z) (name : list Z) : list Z :=
  default [] (put_u32 0 inum (replicate 4 0)) ++ chars_ncpy (Z.to_nat VIMIXFS_NAME_MAX) name.

(** The object [de] at address 0 of the kernel. *)
Definition kernel_object (bytes : list Z) (a : Z) : option Z := bytes !! Z.to_nat a.

Section Dir.
Context {St : Type} `{!BlockStore St} (sb : vimixfs_superblock) (sb_dev : Z).

(** The loop over the entries of a block: an entry, the end of the directory, or the end
    of the block. *)
Inductive scan := Found (inum off : Z) | End_of_dir | End_of_block.

Fixpoint lookup_block (k : nat) (name : list Z) (data : block) (size block dir_idx : Z) : res scan :=
  match k with
  | O => mret End_of_block
  | S k =>
      let dir_off := u32 (dir_idx * DIRENT_SIZE + block * BLOCK_SIZE) in
      if size <=? dir_off then mret End_of_dir
      else
        let de := dirent_at data dir_idx in
        inum ← load (de_inum de);
        if inum =? INVALID_INODE then lookup_block k name data size block (dir_idx + 1)
        else if file_name_cmp name (de_name de) =? 0 then mret (Found inum dir_off)
        else lookup_block k name data size block (dir_idx + 1)
  end.

Fixpoint lookup_loop (k : nat) (name : list Z) (block : Z) : ST (fs St) (option (Z * Z)) :=
  match k with
  | O => mret None
  | S k =>
      addr ← bmap_get_block_address sb (u32 block);
      if addr =? 0 then mret None
      else
        bp ← on_store (bs_read addr);
        data ← on_store (bs_data bp);
        ip ← get_ip;
        r ← lift (lookup_block (Z.to_nat DIRS_PER_BLOCK) name data (i_size ip) block 0);
        on_store (bs_release bp);;
        match r with
        | Found inum off => mret (Some (inum, off))
        | End_of_dir => mret None
        | End_of_block => lookup_loop k name (block + 1)
        end
  end.

(** [block_count] of a directory. *)
Definition block_count (ip : vimixfs_inode) : Z := u32 (i_size ip + BLOCK_SIZE - 1) / BLOCK_SIZE.

(** The number of the inode and the offset of the entry; the inode itself is the matter
    of [vimixfs_iget]. *)
Definition vimixfs_lookup (name : list Z) : ST (fs St) (option (Z * Z)) :=
  ip ← get_ip; lookup_loop (Z.to_nat (block_count ip)) name 0.

(** The loops that look for a free entry. *)
Fixpoint free_in_block (k : nat) (data : block) (size block dir_idx : Z) : res (option Z) :=
  match k with
  | O => mret None
  | S k =>
      let dir_off := u32 (dir_idx * DIRENT_SIZE + block * BLOCK_SIZE) in
      if size <=? dir_off then mret None
      else
        inum ← load (de_inum (dirent_at data dir_idx));
        if inum =? INVALID_INODE then mret (Some dir_idx) else free_in_block k data size block (dir_idx + 1)
  end.

(** [Some r]: the function returns [r]. *)
Fixpoint link_loop (k : nat) (name : list Z) (inum block : Z) : ST (fs St) (option Z) :=
  match k with
  | O => mret None
  | S k =>
      addr ← bmap_get_block_address sb (u32 block);
      if addr =? 0 then mret (Some (- EOTHER))
      else
        bp ← on_store (bs_read addr);
        data ← on_store (bs_data bp);
        ip ← get_ip;
        r ← lift (free_in_block (Z.to_nat DIRS_PER_BLOCK) data (i_size ip) block 0);
        match r with
        | Some dir_idx =>
            on_store (bs_set bp (splice data (Z.to_nat (dir_idx * DIRENT_SIZE)) (dirent_bytes (u32 inum) name)));;
            on_store (bs_log bp);;
            on_store (bs_release bp);;
            mret (Some 0)
        | None => on_store (bs_release bp);; link_loop k name inum (block + 1)
        end
  end.

Definition vimixfs_dir_link_unchecked (name : list Z) (inum : Z) : ST (fs St) Z :=
  ip ← get_ip;
  r ← link_loop (Z.to_nat (block_count ip)) name inum 0;
  match r with
  | Some r => mret r
  | None =>
      ip ← get_ip;
      written ← vimixfs_write sb sb_dev (kernel_object (dirent_bytes (u32 inum) name)) 0 (i_size ip) DIRENT_SIZE;
      if negb (written =? DIRENT_SIZE) then mret (- EOTHER) else mret 0
  end.

Definition vimixfs_dir_link (name : list Z) (inum : Z) : ST (fs St) Z :=
  r ← vimixfs_lookup name;
  match r with
  | Some _ => mret (- EEXIST)
  | None => vimixfs_dir_link_unchecked name inum
  end.

(** Overwriting an entry with zeros, as [vimixfs_iops_unlink] and [vimixfs_iops_rmdir]
    do. *)
Definition clear_dirent (off : Z) : ST (fs St) unit :=
  written ← vimixfs_write sb sb_dev (kernel_object (replicate (Z.to_nat DIRENT_SIZE) 0)) 0 off DIRENT_SIZE;
  lift (panic_unless (written =? DIRENT_SIZE)).

Fixpoint isdirempty_loop (fuel : nat) (off : Z) : ST (fs St) bool :=
  match fuel with
  | O => lift NoFuel
  | S fuel =>
      ip ← get_ip;
      if off <? i_size ip then
        r ← vimixfs_iops_read sb (fun _ => true) off 0 DIRENT_SIZE;
        lift (panic_unless (fst r =? DIRENT_SIZE));;
        inum ← lift (load (de_inum (snd r)));
        if negb (inum =? INVALID_INODE) then mret false else isdirempty_loop fuel (off + DIRENT_SIZE)
      else mret true
  end.

Definition isdirempty : ST (fs St) bool :=
  ip ← get_ip; isdirempty_loop (S (Z.to_nat (i_size ip / DIRENT_SIZE))) (2 * DIRENT_SIZE).

(** The fields of [struct dirent] that the function sets to something: [d_ino], [d_off]
    and [d_name]; the result is the new position. *)
Fixpoint get_dirent_loop (fuel : nat) (seek_pos : Z) : ST (fs St) (Z * option (Z * Z * list Z)) :=
  match fuel with
  | O => lift NoFuel
  | S fuel =>
      r ← vimixfs_iops_read sb (fun _ => true) (u64 seek_pos) 0 DIRENT_SIZE;
      let read_bytes := u64 (fst r) in
      if read_bytes <=? 0 then mret (read_bytes, None)
      else if read_bytes <? DIRENT_SIZE then mret (0, None)
      else
        let seek_pos := s64 (seek_pos + read_bytes) in
        inum ← lift (load (de_inum (snd r)));
        if inum =? INVALID_INODE then get_dirent_loop fuel seek_pos
        else mret (seek_pos, Some (inum, seek_pos, chars_ncpy (Z.to_nat VIMIXFS_NAME_MAX) (de_name (snd r))))
  end.

Definition vimixfs_iops_get_dirent (seek_pos : Z) : ST (fs St) (Z * option (Z * Z * list Z)) :=
  ip ← get_ip; get_dirent_loop (Z.to_nat (i_size ip / DIRENT_SIZE + 2)) seek_pos.

(** [do_get_dirent] of a file of mode [mode]; [copied] tells whether [either_copyout] can
    write to the target. *)
Definition do_get_dirent (mode : Z) (copied : bool) (seek_pos : Z) : ST (fs St) (Z * option (Z * Z * list Z)) :=
  if negb (S_ISDIR mode) then mret (- ENOTDIR, None)
  else if seek_pos <? 0 then mret (- EINVAL, None)
  else
    r ← vimixfs_iops_get_dirent seek_pos;
    if ((0 <? fst r) && negb copied)%bool then mret (- EFAULT, None) else mret r.

(** [readdir] with the [next_entry] of the stream: the entry and the new [next_entry].  The
    target is memory of the process. *)
Definition readdir (mode next_entry : Z) : ST (fs St) (option (Z * list Z) * Z) :=
  if next_entry <? 0 then mret (None, next_entry)
  else
    r ← do_get_dirent mode true next_entry;
    if fst r <? 0 then mret (None, next_entry)
    else if fst r =? 0 then mret (None, -1)
    else mret ((fun e => (fst (fst e), snd e)) <$> snd r, fst r).

(** A program that reads entries until there is none. *)
Fixpoint read_all (fuel : nat) (mode next_entry : Z) : ST (fs St) (list (Z * list Z)) :=
  match fuel with
  | O => lift NoFuel
  | S fuel =>
      r ← readdir mode next_entry;
      match fst r with
      | None => mret []
      | Some e => l ← read_all fuel mode (snd r); mret (e :: l)
      end
  end.
End Dir.

(** ** Names as lists of characters *)

(** The characters of the string in an array of [n] characters. *)
Fixpoint cstr (n : nat) (s : list Z) : list Z :=
  match n, s with
  | S n, c :: s => if c =? 0 then [] else c :: cstr n s
  | _, _ => []
  end.

Lemma ncmp_zero n s t : chars_ncmp n s t = 0 <-> cstr n s = cstr n t.
Proof.
  revert s t. induction n as [|n IH]; intros s t; [done|]. cbn [chars_ncmp]. destruct s as [|a s], t as [|b t]; cbn [hd tl cstr].
  - done.
  - cbn. destruct (Z.eqb_spec b 0); [by subst|]. split; [lia|done].
  - rewrite Z.eqb_sym. destruct (Z.eqb_spec 0 a) as [<-|]; cbn; [done|]. destruct (Z.eqb_spec a 0); [lia|]. split; [lia|done].
  - destruct (Z.eqb_spec a b) as [<-|Hne]; destruct (Z.eqb_spec a 0) as [->|Ha]; cbn; rewrite ?IH.
    + done.
    + split; [by intros ->|by intros [=]].
    + destruct (Z.eqb_spec b 0); [lia|]. split; [lia|done].
    + destruct (Z.eqb_spec b 0); (split; [lia|congruence]).
Qed.

Lemma ncpy_length n s : length (chars_ncpy n s) = n.
Proof.
  revert s. induction n as [|n IH]; intros s; [done|]. cbn. destruct (_ =? 0); cbn; [by rewrite length_replicate|by rewrite IH].
Qed.

Lemma ncpy_cstr n s : cstr n (chars_ncpy n s) = cstr n s.
Proof.
  revert s. induction n as [|n IH]; intros s; [done|]. cbn [chars_ncpy]. destruct s as [|c s]; cbn [hd tl cstr]; [done|].
  destruct (Z.eqb_spec c 0); cbn [cstr]; rewrite ?IH; by destruct (Z.eqb_spec c 0).
Qed.

Lemma ncpy_bytes n s : Forall (is_u 8) s -> Forall (is_u 8) (chars_ncpy n s).
Proof.
  revert s. induction n as [|n IH]; intros s Hs; cbn; [constructor|].
  assert (is_u 8 (hd 0 s)) by (destruct Hs; [unfold is_u; cbn; lia|done]).
  assert (Forall (is_u 8) (tl s)) by (by destruct Hs).
  destruct (_ =? 0); constructor; try done; [|auto]. apply Forall_replicate. unfold is_u. lia.
Qed.

(** They are [strncmp] and [strncpy] on the bytes in memory. *)
Definition chars_at (m : mem) (a : Z) (n : nat) : list Z := map (fun i => m (a + Z.of_nat i)) (seq 0 n).

Lemma chars_at_cons m a n : chars_at m a (S n) = m a :: chars_at m (a + 1) n.
Proof.
  unfold chars_at. cbn [seq map]. f_equal; [f_equal; lia|]. rewrite <- fmap_S_seq, map_map. apply map_ext. intros i. f_equal. lia.
Qed.

Lemma ncmp_strncmp m n : (forall a, is_u 8 (m a)) -> forall s t, strncmp n m s t = chars_ncmp n (chars_at m s n) (chars_at m t n).
Proof.
  intros Hm. induction n as [|n IH]; intros s t; [done|]. rewrite !chars_at_cons. cbn [strncmp chars_ncmp hd tl].
  rewrite !(uwrap_id 8) by apply Hm. by rewrite IH.
Qed.

Lemma ncpy_strncpy n : forall m d s, (d + Z.of_nat n <= s \/ s + Z.of_nat n <= d) ->
  chars_at (strncpy n m d s) d n = chars_ncpy n (chars_at m s n).
Proof.
  assert (forall n m d x, x < d -> fill_zero n m d x = m x) as Hf0.
  { induction n0 as [|k IH]; intros m d x Hx; cbn [fill_zero]; [done|]. rewrite IH by lia. by rewrite store_ne by lia. }
  assert (forall n m d s x, x < d -> strncpy n m d s x = m x) as Hs0.
  { induction n0 as [|k IH]; intros m d s x Hx; cbn [strncpy]; [done|]. destruct (_ =? 0); [rewrite Hf0 by lia|rewrite IH by lia]; by rewrite store_ne by lia. }
  assert (forall n m d, chars_at (fill_zero n m d) d n = replicate n 0) as Hz.
  { induction n0 as [|k IH]; intros m d; [done|]. rewrite chars_at_cons. cbn [fill_zero replicate]. rewrite Hf0 by lia. by rewrite store_eq, IH. }
  induction n as [|n IH]; intros m d s Hd; [done|]. rewrite !chars_at_cons. cbn [strncpy chars_ncpy hd tl].
  destruct (Z.eqb_spec (m s) 0) as [E|E].
  - rewrite Hf0 by lia. by rewrite store_eq, Hz.
  - rewrite Hs0 by lia. rewrite store_eq, IH by lia. do 2 f_equal. apply map_ext_in. intros i Hi%in_seq. apply store_ne. lia.
Qed.

(** ** Entries of the file *)

Lemma dirent_bytes_ok inum name :
  is_u 32 inum -> Forall (is_u 8) name ->
  length (dirent_bytes inum name) = 64%nat /\ Forall (is_u 8) (dirent_bytes inum name) /\
  de_inum (dirent_bytes inum name) = Some inum /\ de_name (dirent_bytes inum name) = chars_ncpy 60 name.
Proof.
  intros Hi Hn. unfold dirent_bytes. change (Z.to_nat VIMIXFS_NAME_MAX) with 60%nat.
  destruct (put_u32_Some 0 inum (replicate 4 0)) as (b & Eb & Hl); [cbn; lia|]. rewrite Eb. cbn [default]. unfold from_option, id.
  cbn in Hl. assert (get_u32 0 b = Some inum) as Hg by (by apply (get_put_u32_eq 0 inum (replicate 4 0))).
  split; [rewrite length_app, ncpy_length; lia|]. split.
  - apply Forall_app. split; [|by apply ncpy_bytes]. revert Eb. unfold put_u32. rewrite decide_True by (cbn; lia). intros [= <-].
    cbn. repeat constructor; apply Z.mod_pos_bound; lia.
  - split.
    + unfold de_inum, get_u32 in *. rewrite !lookup_app_l by lia. done.
    + unfold de_name. change (Z.to_nat VIMIXFS_NAME_MAX) with 60%nat. rewrite drop_app_length' by done.
      apply take_ge. rewrite ncpy_length. lia.
Qed.

Section Slots.
Context {St : Type} `{!BlockStore St} (sb : vimixfs_superblock) (sb_dev : Z).
Context (L : layout sb) (A : inode_area sb) (Hdev : is_s 32 sb_dev).

Abbreviation max_size := (VIMIXFS_MAX_FILE_SIZE_BLOCKS * 1024).

Definition slot (s : St) (ip : vimixfs_inode) (j : Z) : list Z := file_bytes s ip (64 * j) 64.
Definition slot_inum (s : St) (ip : vimixfs_inode) (j : Z) : Z := default 0 (de_inum (slot s ip j)).
Definition slot_name (s : St) (ip : vimixfs_inode) (j : Z) : list Z := cstr 60 (de_name (slot s ip j)).
Definition slots (ip : vimixfs_inode) : Z := i_size ip / 64.

(** A directory: a file without holes that is an array of entries. *)
Record dir_ok (s : St) (ip : vimixfs_inode) : Prop := {
  d_quiet : quiet sb s ip;
  d_inode : inode_ok ip;
  d_inum : inum_ok sb (i_inum ip);
  d_size : i_size ip = 64 * slots ip;
  d_max : i_size ip <= max_size;
  d_blocks : no_holes s ip 0 (i_size ip)
}.

Lemma slot_inum_same s s' ip j : eff s s' (fun _ => False) 0 -> slot s' ip j = slot s ip j.
Proof using. intros He. unfold slot, file_bytes. apply map_ext. intros i. by apply file_byte_same. Qed.

Lemma dir_ok_same s s' ip : eff s s' (fun _ => False) 0 -> dir_ok s ip -> dir_ok s' ip.
Proof using. intros He [Q H1 H2 H3 H4 H5]. split; try done; [by apply (eff_quiet sb s)|by apply (no_holes_same s)]. Qed.

Lemma slots_pos s ip : dir_ok s ip -> 0 <= slots ip /\ slots ip <= 16 * VIMIXFS_MAX_FILE_SIZE_BLOCKS.
Proof using.
  intros D. destruct (d_inode _ _ D) as [? ? ? Hs]. unfold is_u in Hs. pose proof (d_size _ _ D). pose proof (d_max _ _ D). lia.
Qed.

Lemma block_count_eq s ip : dir_ok s ip -> block_count ip = (slots ip + 15) / 16.
Proof using.
  intros D. pose proof (slots_pos s ip D). unfold block_count. change BLOCK_SIZE with 1024. rewrite (d_size _ _ D).
  change VIMIXFS_MAX_FILE_SIZE_BLOCKS with 65812 in *. rewrite uwrap_id by (unfold is_u; lia).
  replace (64 * slots ip + 1024 - 1) with (63 + (slots ip + 15) * 64) by lia.
  change 1024 with (64 * 16). rewrite <- Z.div_div by lia. rewrite Z.div_add by lia. done.
Qed.

(** Block [b] of the directory holds the entries from [16 * b] on. *)
Lemma slot_in_block s ip b i :
  dir_ok s ip -> 0 <= b -> 0 <= i < 16 -> 16 * b + i < slots ip ->
  let a := file_block s ip b in
  a <> 0 /\ 0 < a < sb_size sb /\ 0 <= b < VIMIXFS_MAX_FILE_SIZE_BLOCKS /\ is_block (bs_view s a) /\
  dirent_at (bs_view s a) i = slot s ip (16 * b + i) /\ u32 (i * DIRENT_SIZE + b * BLOCK_SIZE) = 64 * (16 * b + i).
Proof using L.
  intros D Hb Hi Hlt a. pose proof (slots_pos s ip D) as [_ Hmax]. pose proof (d_size _ _ D) as Hsz. pose proof (d_quiet _ _ D) as Q.
  change VIMIXFS_MAX_FILE_SIZE_BLOCKS with 65812 in *. assert ((64 * (16 * b + i)) / 1024 = b) as Ediv
    by (symmetry; apply (Z.div_unique _ _ _ (64 * i)); lia).
  assert ((64 * (16 * b + i)) mod 1024 = 64 * i) as Emod by (symmetry; apply (Z.mod_unique _ _ b); lia).
  assert (a <> 0) as Ha. { unfold a. rewrite <- Ediv. apply (d_blocks _ _ D). lia. }
  assert (0 <= b < 65812) as Hb' by lia.
  destruct (file_block_range sb L s ip b (q_tree _ _ _ Q) Hb' Ha) as (Hr & _). fold a in Hr.
  assert (is_block (bs_view s a)) as Hblk by (apply Q; lia).
  split_and!; try done; try lia.
  - unfold slot. rewrite (file_bytes_block s ip (64 * (16 * b + i)) 64 a); [|lia..|by rewrite Ediv|done|done].
    rewrite Emod. unfold dirent_at. change DIRENT_SIZE with 64. do 2 f_equal. lia.
  - change DIRENT_SIZE with 64. change BLOCK_SIZE with 1024. rewrite uwrap_id by (unfold is_u; lia). lia.
Qed.

(** The number in an entry. *)
Lemma slot_inum_ok s ip j :
  dir_ok s ip -> 0 <= j < slots ip -> de_inum (slot s ip j) = Some (slot_inum s ip j) /\ is_u 32 (slot_inum s ip j).
Proof using L.
  intros D Hj. pose proof (Z.div_mod j 16 ltac:(lia)) as Ej. pose proof (Z.mod_pos_bound j 16 ltac:(lia)) as Hm.
  pose proof (Z.div_pos j 16 ltac:(lia) ltac:(lia)).
  destruct (slot_in_block s ip (j / 16) (j mod 16) D ltac:(lia) Hm ltac:(lia)) as (_ & _ & _ & Hblk & Hs & _).
  rewrite <- Ej in Hs. rewrite <- Hs. unfold slot_inum. rewrite <- Hs. unfold de_inum, dirent_at. change DIRENT_SIZE with 64.
  destruct (word_get (bs_view s (file_block s ip (j / 16))) (16 * Z.to_nat (j mod 16)) Hblk ltac:(lia)) as [Hw Hu].
  assert (get_u32 0 (take (Z.to_nat 64) (drop (Z.to_nat (j mod 16 * 64)) (bs_view s (file_block s ip (j / 16)))))
    = get_u32 (4 * (16 * Z.to_nat (j mod 16))) (bs_view s (file_block s ip (j / 16)))) as ->.
  { unfold get_u32. rewrite !lookup_take_lt, !lookup_drop by lia. replace (Z.to_nat (j mod 16 * 64)) with (4 * (16 * Z.to_nat (j mod 16)))%nat by lia. by rewrite Nat.add_0_r. }
  by rewrite Hw.
Qed.

Lemma dir_off_eq s ip b i : dir_ok s ip -> 0 <= b -> 0 <= i -> 16 * b + i <= slots ip -> u32 (i * DIRENT_SIZE + b * BLOCK_SIZE) = 64 * (16 * b + i).
Proof using.
  intros D Hb Hi Hle. pose proof (slots_pos s ip D) as [_ Hmax]. change VIMIXFS_MAX_FILE_SIZE_BLOCKS with 65812 in Hmax.
  change DIRENT_SIZE with 64. change BLOCK_SIZE with 1024. rewrite uwrap_id by (unfold is_u; lia). lia.
Qed.

(** ** Looking up a name *)

(** Entry [j] is in use and has the name. *)
Definition matches (s : St) (ip : vimixfs_inode) (name : list Z) (j : Z) : Prop :=
  slot_inum s ip j <> 0 /\ cstr 60 name = slot_name s ip j.

(** [r] is the first entry from [a] to [b] that has the property. *)
Definition first (P : Z -> Prop) (a b : Z) (r : option Z) : Prop :=
  match r with
  | Some j => a <= j < b /\ P j /\ forall i, a <= i < j -> ~ P i
  | None => forall i, a <= i < b -> ~ P i
  end.

Lemma first_skip (P : Z -> Prop) a b r : ~ P a -> first P (a + 1) b r -> first P a b r.
Proof using.
  intros Ha. destruct r as [j|]; cbn.
  - intros (Hj & HP & Hn). split; [lia|]. split; [done|]. intros i Hi. destruct (decide (i = a)) as [->|]; [done|]. apply Hn. lia.
  - intros Hn i Hi. destruct (decide (i = a)) as [->|]; [done|]. apply Hn. lia.
Qed.

Lemma first_ext (P Q : Z -> Prop) a b r : (forall i, P i <-> Q i) -> first P a b r -> first Q a b r.
Proof using.
  intros H. destruct r as [j|]; cbn [first].
  - intros (Hj & HP & Hn). split; [exact Hj|]. split; [exact (proj1 (H j) HP)|]. intros i Hi Hq. exact (Hn i Hi (proj2 (H i) Hq)).
  - intros Hn i Hi Hq. exact (Hn i Hi (proj2 (H i) Hq)).
Qed.

Lemma first_app (P : Z -> Prop) a b c r : a <= b -> (forall i, a <= i < b -> ~ P i) -> first P b c r -> first P a c r.
Proof using.
  intros Hab H. destruct r as [j|]; cbn.
  - intros (Hj & HP & Hn). split; [lia|]. split; [done|]. intros i Hi. destruct (decide (i < b)); [apply H; lia|apply Hn; lia].
  - intros Hn i Hi. destruct (decide (i < b)); [apply H; lia|apply Hn; lia].
Qed.

Lemma lookup_block_run s ip name b : dir_ok s ip -> 0 <= b -> forall k i,
  0 <= i -> i + Z.of_nat k = 16 -> 16 * b + i <= slots ip ->
  exists r, lookup_block k name (bs_view s (file_block s ip b)) (i_size ip) b i = Ret r /\
    match r with
    | Found inum off => exists j, first (matches s ip name) (16 * b + i) (slots ip) (Some j) /\ inum = slot_inum s ip j /\ off = 64 * j
    | End_of_dir => first (matches s ip name) (16 * b + i) (slots ip) None
    | End_of_block => first (matches s ip name) (16 * b + i) (16 * (b + 1)) None /\ 16 * (b + 1) <= slots ip
    end.
Proof using L.
  intros D Hb. induction k as [|k IH]; intros i Hi Hk Hle; cbn [lookup_block].
  { eexists. split; [done|]. cbn. split; [intros; lia|lia]. }
  rewrite (dir_off_eq s ip b i D Hb Hi Hle). rewrite (d_size _ _ D).
  destruct (Z.leb_spec (64 * slots ip) (64 * (16 * b + i))) as [H1|H1].
  { eexists. split; [done|]. cbn. intros; lia. }
  destruct (slot_in_block s ip b i D Hb ltac:(lia) ltac:(lia)) as (_ & _ & _ & _ & Hs & _). rewrite Hs.
  destruct (slot_inum_ok s ip (16 * b + i) D ltac:(lia)) as [Hin Hu]. rewrite Hin. cbn [load mbind res_bind].
  rewrite (d_size _ _ D) in IH.
  assert (~ matches s ip name (16 * b + i) -> exists r, lookup_block k name (bs_view s (file_block s ip b)) (64 * slots ip) b (i + 1) = Ret r /\
    match r with
    | Found inum off => exists j, first (matches s ip name) (16 * b + i) (slots ip) (Some j) /\ inum = slot_inum s ip j /\ off = 64 * j
    | End_of_dir => first (matches s ip name) (16 * b + i) (slots ip) None
    | End_of_block => first (matches s ip name) (16 * b + i) (16 * (b + 1)) None /\ 16 * (b + 1) <= slots ip
    end) as Hskip.
  { intros Hno. destruct (IH (i + 1) ltac:(lia) ltac:(lia) ltac:(lia)) as (r & Hr & Hres). exists r. split; [done|].
    replace (16 * b + (i + 1)) with (16 * b + i + 1) in Hres by lia. destruct r as [inum off| |].
    - destruct Hres as (j & Hf & Hj). exists j. split; [by apply first_skip|done].
    - by apply first_skip.
    - destruct Hres. split; [by apply first_skip|done]. }
  destruct (Z.eqb_spec (slot_inum s ip (16 * b + i)) INVALID_INODE) as [E|E].
  { apply Hskip. intros [H _]. done. }
  destruct (Z.eqb_spec (file_name_cmp name (de_name (slot s ip (16 * b + i)))) 0) as [Ec|Ec]; unfold file_name_cmp in Ec;
    change (Z.to_nat NAME_MAX) with 60%nat in Ec; rewrite ncmp_zero in Ec.
  - eexists. split; [done|]. exists (16 * b + i). split; [|done]. cbn. split; [lia|]. split; [done|]. intros; lia.
  - apply Hskip. intros [_ H]. done.
Qed.

(** Reading block [b] of a directory. *)
Lemma dir_block_run s ip b :
  dir_ok s ip -> 0 <= b -> 16 * b < slots ip -> 0 < bs_bufs s ->
  let a := file_block s ip b in
  exists s1 bp s2 s3, bmap_get_block_address sb (u32 b) (mk_fs s ip) = Ret (a, mk_fs s1 ip) /\ (a =? 0) = false /\
    eff s s1 (fun _ => False) 0 /\ bs_read a s1 = Ret (bp, s2) /\ bs_data bp s2 = Ret (bs_view s a, s2) /\
    bs_release bp s2 = Ret (tt, s3) /\ eff s s3 (fun _ => False) 0.
Proof using L.
  intros D Hb Hlt Hbufs a. destruct (slot_in_block s ip b 0 D Hb ltac:(lia) ltac:(lia)) as (Ha & Hr & Hb' & Hblk & _).
  pose proof (d_quiet _ _ D) as Q. destruct (bmap_lookup sb L s ip b Q Hb' Hbufs Ha) as (s1 & Hrun & He1).
  pose proof (eff_quiet sb s s1 ip Q He1) as Q1. pose proof (e_bufs _ _ _ _ He1).
  destruct (read_run s1 a (q_inv _ _ _ Q1) (q_free _ _ _ Q1 a ltac:(unfold a; lia)) ltac:(lia)) as (bp & s2 & Hread & I2 & Hh & Hv & _).
  destruct (read_release_run s1 s2 bp a (q_inv _ _ _ Q1) (q_free _ _ _ Q1 a ltac:(unfold a; lia)) ltac:(lia) Hread) as (s3 & Hrel & He3).
  exists s1, bp, s2, s3. split.
  { change VIMIXFS_MAX_FILE_SIZE_BLOCKS with 65812 in Hb'. by rewrite uwrap_id by (unfold is_u; lia). }
  split; [by apply Z.eqb_neq|]. split; [done|]. split; [done|]. split.
  { assert (bs_view s1 a = bs_view s a) as <- by (apply (e_view _ _ _ _ He1); intros []). rewrite <- Hv. by apply (bs_data_run s2 bp a true). }
  split; [done|]. by apply (eff_same s s1).
Qed.

Lemma matches_same s s' ip name j : eff s s' (fun _ => False) 0 -> matches s' ip name j <-> matches s ip name j.
Proof using. intros He. unfold matches, slot_inum, slot_name. by rewrite (slot_inum_same s s'). Qed.

Lemma first_same s s' ip name a b r : eff s s' (fun _ => False) 0 -> first (matches s' ip name) a b r -> first (matches s ip name) a b r.
Proof using.
  intros He. apply first_ext. intros j. exact (matches_same s s' ip name j He).
Qed.

Lemma lookup_loop_run name ip : forall k s b,
  dir_ok s ip -> 0 < bs_bufs s -> 0 <= b -> 16 * b <= slots ip + 15 -> b + Z.of_nat k = block_count ip ->
  exists r s', lookup_loop sb k name b (mk_fs s ip) = Ret (r, mk_fs s' ip) /\ eff s s' (fun _ => False) 0 /\
    exists o, first (matches s ip name) (16 * b) (slots ip) o /\ r = (fun j => (slot_inum s ip j, 64 * j)) <$> o.
Proof using L.
  induction k as [|k IH]; intros s b D Hbufs Hb Hle Hk; rewrite (block_count_eq s ip D) in *.
  { exists None, s. split; [done|]. split; [apply eff_refl, D|]. exists None. split; [|done]. cbn. intros i Hi.
    pose proof (Z.div_mod (slots ip + 15) 16 ltac:(lia)). pose proof (Z.mod_pos_bound (slots ip + 15) 16 ltac:(lia)). lia. }
  pose proof (Z.div_mod (slots ip + 15) 16 ltac:(lia)). pose proof (Z.mod_pos_bound (slots ip + 15) 16 ltac:(lia)).
  destruct (dir_block_run s ip b D Hb ltac:(lia) Hbufs) as (s1 & bp & s2 & s3 & E1 & Ea & _ & E2 & E3 & E4 & He).
  cbn [lookup_loop]. rewrite (bind_run _ _ _ _ _ E1), Ea. rewrite (bind_run _ _ _ bp (mk_fs s2 ip)) by (by apply on_store_run).
  rewrite (bind_run _ _ _ (bs_view s (file_block s ip b)) (mk_fs s2 ip)) by (by apply on_store_run).
  rewrite (bind_run _ _ _ ip (mk_fs s2 ip)) by done.
  destruct (lookup_block_run s ip name b D Hb 16 0 ltac:(lia) ltac:(lia) ltac:(lia)) as (r & Er & Hr). change (Z.to_nat DIRS_PER_BLOCK) with 16%nat.
  rewrite (bind_run _ _ _ r (mk_fs s2 ip)) by (by rewrite Er). rewrite (bind_run _ _ _ tt (mk_fs s3 ip)) by (by apply on_store_run).
  rewrite Z.add_0_r in Hr. destruct r as [inum off| |].
  - destruct Hr as (j & Hf & -> & ->). eexists _, s3. split; [done|]. split; [done|]. by exists (Some j).
  - eexists _, s3. split; [done|]. split; [done|]. by exists None.
  - destruct Hr as [Hno Hle']. pose proof (e_bufs _ _ _ _ He).
    destruct (IH s3 (b + 1) (dir_ok_same s s3 ip He D) ltac:(lia) ltac:(lia) ltac:(lia) ltac:(lia)) as (r & s' & Hrun & He' & o & Hf & ->).
    eexists _, s'. split; [done|]. split; [by apply (eff_same s s3)|]. exists o. split.
    + apply (first_app _ _ (16 * (b + 1))); [lia|done|by apply (first_same s s3)].
    + destruct o as [j|]; [|done]. cbn. unfold slot_inum. by rewrite (slot_inum_same s s3).
Qed.

Lemma lookup_run s ip name :
  dir_ok s ip -> 0 < bs_bufs s ->
  exists r s', vimixfs_lookup sb name (mk_fs s ip) = Ret (r, mk_fs s' ip) /\ eff s s' (fun _ => False) 0 /\
    exists o, first (matches s ip name) 0 (slots ip) o /\ r = (fun j => (slot_inum s ip j, 64 * j)) <$> o.
Proof using L.
  intros D Hb. pose proof (slots_pos s ip D). unfold vimixfs_lookup. rewrite (bind_run _ _ _ ip (mk_fs s ip)) by done.
  apply (lookup_loop_run name ip _ s 0 D Hb); [lia|lia|]. rewrite Z2Nat.id; [lia|]. rewrite (block_count_eq s ip D). apply Z.div_pos; lia.
Qed.

(** ** Writing an entry *)

Abbreviation iblock n := (VIMIXFS_BLOCK_OF_INODE_P n sb).

(** The bytes of entry [j] are [e] now; the other entries, the other inodes and the other
    blocks in use are as before. *)
Record entry_set (s : St) (ip : vimixfs_inode) (j : Z) (e : list Z) (s' : St) (ip' : vimixfs_inode) : Prop := {
  es_dir : dir_ok s' ip';
  es_slots : slots ip' = Z.max (slots ip) (j + 1);
  es_slot i : 0 <= i < slots ip' -> slot s' ip' i = if decide (i = j) then e else slot s ip i;
  es_meta : ip' = set_size (i_size ip') (set_addrs (addrs ip') ip);
  es_disk : disk_inode sb sb_dev s (i_inum ip) = Some ip -> disk_inode sb sb_dev s' (i_inum ip) = Some ip';
  es_inodes n : inum_ok sb n -> n <> i_inum ip -> disk_inode sb sb_dev s' n = disk_inode sb sb_dev s n;
  es_used b : 0 <= b < sb_size sb -> used sb s b = true -> used sb s' b = true;
  es_view bn : 0 < bn < sb_size sb -> used sb s bn = true -> ~ is_bitmap sb bn -> ~ is_index s ip bn ->
    bn <> iblock (i_inum ip) -> (forall b, 0 <= b < VIMIXFS_MAX_FILE_SIZE_BLOCKS -> file_block s ip b <> bn) ->
    bs_view s' bn = bs_view s bn;
  es_room : bs_room s - 9 <= bs_room s';
  es_bufs : bs_bufs s - 9 <= bs_bufs s'
}.

Lemma slot_update s ip j e s' ip' i :
  length e = 64%nat -> 0 <= j -> 0 <= i -> 64 * i + 64 <= max_size ->
  (forall k, 0 <= k < max_size -> file_byte s' ip' k =
    if decide (64 * j <= k < 64 * j + Z.of_nat (length e)) then default 0 (e !! Z.to_nat (k - 64 * j)) else file_byte s ip k) ->
  slot s' ip' i = if decide (i = j) then e else slot s ip i.
Proof using.
  intros Hl Hj Hi Hmax Hb. unfold slot, file_bytes. apply list_eq. intros k. rewrite list_lookup_fmap.
  destruct (decide (k < 64)%nat) as [Hk|Hk].
  - rewrite lookup_seqZ_lt by lia. cbn [fmap option_fmap option_map]. rewrite Hb by lia. rewrite Hl. destruct (decide (i = j)) as [->|Hne].
    + rewrite decide_True by lia. replace (Z.to_nat (64 * j + Z.of_nat k - 64 * j)) with k by lia.
      destruct (lookup_lt_is_Some_2 e k ltac:(lia)) as [x Hx]. by rewrite Hx.
    + rewrite decide_False by lia. rewrite list_lookup_fmap, lookup_seqZ_lt by lia. done.
  - rewrite lookup_seqZ_ge by lia. symmetry. destruct (decide (i = j)); [apply lookup_ge_None; lia|].
    rewrite list_lookup_fmap, lookup_seqZ_ge by lia. done.
Qed.

(** In a block that the directory has. *)
Lemma entry_set_wrote s ip j e s' :
  dir_ok s ip -> 0 <= j < slots ip -> length e = 64%nat -> wrote sb s ip (64 * j) e s' ip ->
  bs_room s - 9 <= bs_room s' -> bs_bufs s - 9 <= bs_bufs s' -> entry_set s ip j e s' ip.
Proof using L A.
  intros D Hj Hl W Hro Hbu. pose proof (slots_pos s ip D) as [_ Hmax]. destruct D as [Q D1 D2 D3 D4 D5].
  assert (forall bn, 0 < bn < sb_bmapstart sb -> bs_view s' bn = bs_view s bn) as Hmeta.
  { intros bn Hbn. destruct (meta_block sb L s ip bn Q Hbn) as (M1 & M2 & M3 & M4). pose proof (ly_data sb L).
    assert (bn < sb_size sb) by (unfold data_start, VIMIXFS_BLOCKS_FOR_BITMAP in *; change VIMIXFS_BMAP_BITS_PER_BLOCK with 8192 in *;
      pose proof (Z.div_pos (sb_size sb) 8192 ltac:(destruct L; lia) ltac:(lia)); lia).
    apply (w_view _ _ _ _ _ _ _ W); try done; [lia|]. intros i Hi. apply M4, block_of_byte. lia. }
  assert (forall n, inum_ok sb n -> disk_inode sb sb_dev s' n = disk_inode sb sb_dev s n) as Hdisk.
  { intros n Hn. unfold disk_inode. rewrite Hmeta; [done|]. by apply (iblock_range sb L A n Hn). }
  split.
  - split; try done; [apply W|]. intros i Hi. rewrite (w_kept _ _ _ _ _ _ _ W); [by apply D5|apply block_of_byte; lia|by apply D5].
  - lia.
  - intros i Hi. apply slot_update; try done; try lia. apply W.
  - by destruct ip.
  - by rewrite Hdisk.
  - intros n Hn _. by apply Hdisk.
  - apply W.
  - intros bn H1 H2 H3 H4 _ H5. apply (w_view _ _ _ _ _ _ _ W); try done. intros i Hi. apply H5, block_of_byte. lia.
  - done.
  - done.
Qed.

(** With [vimixfs_write], in the directory or at its end. *)
Lemma entry_set_written s ip j e s' ip' :
  dir_ok s ip -> 0 <= j <= slots ip -> 64 * j + 64 <= max_size -> length e = 64%nat ->
  file_written sb sb_dev s ip (64 * j) e s' ip' -> bs_room s - 9 <= bs_room s' -> bs_bufs s - 9 <= bs_bufs s' ->
  entry_set s ip j e s' ip'.
Proof using L.
  intros D Hj Hmax' Hl W Hro Hbu. pose proof (slots_pos s ip D) as [_ Hmax]. destruct D as [Q D1 D2 D3 D4 D5].
  pose proof (fw_meta _ _ _ _ _ _ _ _ W) as Hm. rewrite Hl in Hm. change VIMIXFS_MAX_FILE_SIZE_BLOCKS with 65812 in *.
  assert (i_size ip' = 64 * Z.max (slots ip) (j + 1)) as Hs. { rewrite Hm. cbn [i_size set_size set_addrs]. lia. }
  assert (slots ip' = Z.max (slots ip) (j + 1)) as Hsl. { unfold slots at 1. rewrite Hs, Z.mul_comm, Z.div_mul by lia. done. }
  split.
  - split.
    + apply W.
    + destruct (tree_addrs_ok sb L s' ip' (q_tree _ _ _ (fw_quiet _ _ _ _ _ _ _ _ W))) as [Ha1 Ha2]. rewrite Hm in Ha1, Ha2 |- *.
      destruct D1. split; try done. cbn. unfold is_u in *. lia.
    + by rewrite Hm.
    + lia.
    + change VIMIXFS_MAX_FILE_SIZE_BLOCKS with 65812. lia.
    + intros i Hi. destruct (decide (64 * j <= i < 64 * j + 64)) as [H1|H1].
      * apply (fw_blocks _ _ _ _ _ _ _ _ W). lia.
      * assert (file_block s ip (i / 1024) <> 0) as Hn by (apply D5; lia). rewrite (fw_kept _ _ _ _ _ _ _ _ W); [done| |done].
        apply block_of_byte. change VIMIXFS_MAX_FILE_SIZE_BLOCKS with 65812. lia.
  - done.
  - intros i Hi. apply slot_update; try done; [lia..| |apply W]. change VIMIXFS_MAX_FILE_SIZE_BLOCKS with 65812. lia.
  - rewrite Hm at 1 2. rewrite Hm. done.
  - intros _. apply W.
  - apply W.
  - apply W.
  - intros bn H1 H2 H3 H4 H5 H6. apply (fw_view _ _ _ _ _ _ _ _ W); try done. intros i Hi. apply H6, block_of_byte.
    change VIMIXFS_MAX_FILE_SIZE_BLOCKS with 65812. lia.
  - done.
  - done.
Qed.

(** No entry changed, and no block was left. *)
Record entry_kept (s : St) (ip : vimixfs_inode) (s' : St) (ip' : vimixfs_inode) : Prop := {
  ek_dir : dir_ok s' ip';
  ek_slots : slots ip' = slots ip;
  ek_slot i : 0 <= i < slots ip -> slot s' ip' i = slot s ip i;
  ek_full : full sb s' \/ max_size < i_size ip + 64;
  ek_inodes n : inum_ok sb n -> n <> i_inum ip -> disk_inode sb sb_dev s' n = disk_inode sb sb_dev s n;
  ek_inum : i_inum ip' = i_inum ip;
  ek_room : bs_room s - 6 <= bs_room s';
  ek_bufs : bs_bufs s - 9 <= bs_bufs s'
}.

Lemma kernel_readable e n : readable (kernel_object e) 0 n = take n e.
Proof using.
  assert (forall n k, readable (kernel_object e) (Z.of_nat k) n = take n (drop k e)) as H; [|exact (H n 0%nat)].
  clear n. induction n as [|n IH]; intros k; [done|]. cbn [readable]. unfold kernel_object at 1. rewrite Nat2Z.id.
  destruct (e !! k) as [x|] eqn:E.
  - rewrite (drop_S _ _ _ E). cbn. f_equal. replace (Z.of_nat k + 1) with (Z.of_nat (S k)) by lia. apply IH.
  - by rewrite (drop_ge e k) by (by apply lookup_ge_None).
Qed.

Lemma entry_cost s ip j : 0 <= j -> 0 <= write_cost s ip (64 * j) 64 <= 8.
Proof using.
  intros Hj. unfold write_cost, chunks. rewrite (proj2 (Z.eqb_neq 64 0)) by lia.
  pose proof (Z.div_mod j 16 ltac:(lia)). pose proof (Z.mod_pos_bound j 16 ltac:(lia)).
  assert ((64 * j) mod 1024 = 64 * (j mod 16)) as -> by (symmetry; apply (Z.mod_unique _ _ (j / 16)); lia).
  assert ((64 * (j mod 16) + 64 + 1023) / 1024 = 1) as -> by (symmetry; apply (Z.div_unique _ _ _ (64 * (j mod 16) + 63)); lia).
  rewrite seqZ_cons by lia. change (seqZ _ (Z.pred 1)) with (@nil Z). cbn [foldr]. unfold block_cost. destruct (_ =? 0); lia.
Qed.

(** [vimixfs_write] of an entry: all of it, or nothing. *)
Lemma write_entry_run s ip j e :
  dir_ok s ip -> 0 <= j <= slots ip -> length e = 64%nat -> Forall (is_u 8) e -> 9 <= bs_room s -> 9 <= bs_bufs s ->
  exists r s' ip', vimixfs_write sb sb_dev (kernel_object e) 0 (64 * j) DIRENT_SIZE (mk_fs s ip) = Ret (r, mk_fs s' ip') /\
    (r = 64 /\ entry_set s ip j e s' ip' \/ r <> 64 /\ entry_kept s ip s' ip').
Proof using L A Hdev.
  intros D Hj Hl He Hr Hb. pose proof (entry_cost s ip j ltac:(lia)) as Hc. pose proof (slots_pos s ip D) as [_ Hmax].
  change DIRENT_SIZE with 64. change VIMIXFS_MAX_FILE_SIZE_BLOCKS with 65812 in Hmax.
  destruct (write_run sb sb_dev L A Hdev s ip (kernel_object e) 0 (64 * j) 64 (d_quiet _ _ D) (d_inode _ _ D) (d_inum _ _ D))
    as (r & s' & ip' & Hrun & Hres); rewrite ?kernel_readable; try (unfold is_u; lia).
  { rewrite take_ge; lia. } { by rewrite take_ge by lia. }
  exists r, s', ip'. split; [done|]. case_decide as Hd.
  - destruct Hres as (Hrr & Hshort & W & Hro & Hbu). rewrite kernel_readable in W. destruct (decide (r = 64)) as [->|Hne].
    + left. split; [done|]. rewrite take_ge in W by lia. apply entry_set_written; try done; lia.
    + right. split; [done|]. destruct (Hshort ltac:(lia)) as [Hfull Hstop].
      assert (r = 0) as ->.
      { destruct Hstop as [[? Hr6]|[_ Hm]]; [done|]. pose proof (Z.div_mod j 16 ltac:(lia)). pose proof (Z.mod_pos_bound j 16 ltac:(lia)).
        rewrite <- (Z.mod_unique (64 * j + r) 1024 (j / 16) (64 * (j mod 16) + r)) in Hm by lia. lia. }
      change (take (Z.to_nat 0) e) with (@nil Z) in W. pose proof (fw_meta _ _ _ _ _ _ _ _ W) as Hm. cbn [length] in Hm.
      rewrite (d_size _ _ D), Z.max_l in Hm by lia.
      assert (i_size ip' = i_size ip) as Es by (rewrite Hm, (d_size _ _ D); done).
      assert (slots ip' = slots ip) as Esl by (unfold slots; by rewrite Es). split; [split| | |by left|apply W|by rewrite Hm|lia|lia].
      * apply W.
      * destruct (tree_addrs_ok sb L s' ip' (q_tree _ _ _ (fw_quiet _ _ _ _ _ _ _ _ W))) as [Ha1 Ha2]. rewrite Hm in Ha1, Ha2 |- *.
        destruct (d_inode _ _ D). split; try done. cbn. by rewrite <- (d_size _ _ D).
      * rewrite Hm. apply D.
      * rewrite Es, Esl. apply D.
      * rewrite Es. apply D.
      * rewrite Es. intros i Hi. pose proof (d_size _ _ D). rewrite (fw_kept _ _ _ _ _ _ _ _ W); [by apply (d_blocks _ _ D)| |by apply (d_blocks _ _ D)].
        apply block_of_byte. change VIMIXFS_MAX_FILE_SIZE_BLOCKS with 65812. lia.
      * done.
      * intros i Hi. unfold slot, file_bytes. apply map_ext_in. intros k [Hk1 Hk2]%list_elem_of_In%elem_of_seqZ.
        rewrite (fw_bytes _ _ _ _ _ _ _ _ W) by (change VIMIXFS_MAX_FILE_SIZE_BLOCKS with 65812; lia). cbn [length].
        by rewrite decide_False by lia.
  - destruct Hres as (-> & -> & ->). right. split; [done|]. split; try done; [|lia|lia]. right.
    pose proof (d_size _ _ D). pose proof (d_max _ _ D). lia.
Qed.

Lemma entry_set_same s s1 ip j e s' ip' : eff s s1 (fun _ => False) 0 -> entry_set s1 ip j e s' ip' -> entry_set s ip j e s' ip'.
Proof using.
  intros He [E1 E2 E3 E4 E5 E6 E7 E8 E9 E10]. assert (forall bn, bs_view s1 bn = bs_view s bn) as Hv by (intros bn; apply (e_view _ _ _ _ He); intros []).
  assert (forall p, addr_at s1 ip p = addr_at s ip p) as Ha by (intros p; by apply addr_at_ext).
  assert (forall n, disk_inode sb sb_dev s1 n = disk_inode sb sb_dev s n) as Hd by (intros n; unfold disk_inode; by rewrite Hv).
  pose proof (e_room _ _ _ _ He). pose proof (e_bufs _ _ _ _ He). split.
  - exact E1.
  - exact E2.
  - intros i Hi. rewrite (E3 i Hi). case_decide; [done|]. by apply slot_inum_same.
  - exact E4.
  - rewrite <- Hd. exact E5.
  - intros n. rewrite <- Hd. exact (E6 n).
  - intros b Hb. rewrite <- (used_same sb s s1) by exact He. exact (E7 b Hb).
  - intros bn H1 H2 H3 H4 H5 H6. rewrite <- Hv. apply E8; [exact H1|by rewrite (used_same sb s s1)|exact H3| |exact H5|].
    + intros (i & l & Hvl & Hl & E). apply H4. exists i, l. by rewrite <- Ha.
    + intros b Hb. unfold file_block. rewrite Ha. by apply H6.
  - lia.
  - lia.
Qed.

Lemma entry_kept_same s s1 ip s' ip' : eff s s1 (fun _ => False) 0 -> entry_kept s1 ip s' ip' -> entry_kept s ip s' ip'.
Proof using.
  intros He [K1 K2 K3 K4 K5 K6 K7 K8]. pose proof (e_room _ _ _ _ He). pose proof (e_bufs _ _ _ _ He).
  split; [exact K1|exact K2| |exact K4| |exact K6|lia|lia].
  - intros i Hii. rewrite K3 by done. by apply slot_inum_same.
  - intros n Hn Hne'. rewrite K5 by done. unfold disk_inode. by rewrite (e_view _ _ _ _ He) by intros [].
Qed.

(** ** Looking for a free entry *)

Definition unused (s : St) (ip : vimixfs_inode) (j : Z) : Prop := slot_inum s ip j = 0.

Lemma unused_same s s' ip a b r : eff s s' (fun _ => False) 0 -> first (unused s' ip) a b r -> first (unused s ip) a b r.
Proof using.
  intros He. apply first_ext. intros j. unfold unused, slot_inum. by rewrite (slot_inum_same s s').
Qed.

Lemma free_in_block_run s ip b : dir_ok s ip -> 0 <= b -> forall k i,
  0 <= i -> i + Z.of_nat k = 16 -> 16 * b + i <= slots ip ->
  exists r, free_in_block k (bs_view s (file_block s ip b)) (i_size ip) b i = Ret r /\
    match r with
    | Some x => 0 <= x < 16 /\ first (unused s ip) (16 * b + i) (slots ip) (Some (16 * b + x))
    | None => first (unused s ip) (16 * b + i) (Z.min (slots ip) (16 * (b + 1))) None
    end.
Proof using L.
  intros D Hb. induction k as [|k IH]; intros i Hi Hk Hle; cbn [free_in_block].
  { eexists. split; [done|]. cbn. intros; lia. }
  rewrite (dir_off_eq s ip b i D Hb Hi Hle). rewrite (d_size _ _ D) in *.
  destruct (Z.leb_spec (64 * slots ip) (64 * (16 * b + i))) as [H1|H1].
  { eexists. split; [done|]. cbn. intros; lia. }
  destruct (slot_in_block s ip b i D Hb ltac:(lia) ltac:(lia)) as (_ & _ & _ & _ & Hs & _). rewrite Hs.
  destruct (slot_inum_ok s ip (16 * b + i) D ltac:(lia)) as [Hin Hu]. rewrite Hin. cbn [load mbind res_bind].
  destruct (Z.eqb_spec (slot_inum s ip (16 * b + i)) INVALID_INODE) as [E|E].
  - exists (Some i). split; [done|]. split; [lia|]. cbn. split; [lia|]. split; [done|]. intros; lia.
  - destruct (IH (i + 1) ltac:(lia) ltac:(lia) ltac:(lia)) as (r & Hr & Hres). exists r. split; [done|].
    replace (16 * b + (i + 1)) with (16 * b + i + 1) in Hres by lia. destruct r as [x|].
    + destruct Hres as [Hx Hf]. split; [done|by apply first_skip].
    + by apply first_skip.
Qed.

Lemma link_loop_run name inum ip : is_u 32 inum -> Forall (is_u 8) name -> forall k s b,
  dir_ok s ip -> 9 <= bs_room s -> 9 <= bs_bufs s -> 0 <= b -> 16 * b <= slots ip + 15 -> b + Z.of_nat k = block_count ip ->
  exists r s', link_loop sb k name inum b (mk_fs s ip) = Ret (r, mk_fs s' ip) /\
    (r = Some 0 /\ (exists j, first (unused s ip) (16 * b) (slots ip) (Some j) /\ entry_set s ip j (dirent_bytes inum name) s' ip) \/
     r = None /\ eff s s' (fun _ => False) 0 /\ first (unused s ip) (16 * b) (slots ip) None).
Proof using L A.
  intros Hi Hname. destruct (dirent_bytes_ok inum name Hi Hname) as (Hel & Heb & _).
  induction k as [|k IH]; intros s b D Hroom Hbufs Hb Hle Hk; rewrite (block_count_eq s ip D) in *;
    pose proof (Z.div_mod (slots ip + 15) 16 ltac:(lia)); pose proof (Z.mod_pos_bound (slots ip + 15) 16 ltac:(lia)).
  { exists None, s. split; [done|]. right. split; [done|]. split; [apply eff_refl, D|]. cbn. intros; lia. }
  destruct (dir_block_run s ip b D Hb ltac:(lia) ltac:(lia)) as (s1 & bp & s2 & s3 & E1 & Ea & He1 & E2 & E3 & E4 & He).
  destruct (slot_in_block s ip b 0 D Hb ltac:(lia) ltac:(lia)) as (Hnz & Hra & Hb' & Hblk & _).
  cbn [link_loop]. rewrite (bind_run _ _ _ _ _ E1), Ea. rewrite (bind_run _ _ _ bp (mk_fs s2 ip)) by (by apply on_store_run).
  rewrite (bind_run _ _ _ (bs_view s (file_block s ip b)) (mk_fs s2 ip)) by (by apply on_store_run).
  rewrite (bind_run _ _ _ ip (mk_fs s2 ip)) by done. change (Z.to_nat DIRS_PER_BLOCK) with 16%nat.
  destruct (free_in_block_run s ip b D Hb 16 0 ltac:(lia) ltac:(lia) ltac:(lia)) as (r & Er & Hr). rewrite Z.add_0_r in Hr.
  rewrite (bind_run _ _ _ r (mk_fs s2 ip)) by (by rewrite Er). destruct r as [x|].
  - destruct Hr as [Hx Hf]. rewrite (uwrap_id 32 inum) by done. change DIRENT_SIZE with 64. set (a := file_block s ip b) in *.
    pose proof (eff_quiet sb s s1 ip (d_quiet _ _ D) He1) as Q1. pose proof (e_bufs _ _ _ _ He1). pose proof (e_room _ _ _ _ He1).
    destruct (write_back_run s1 s2 bp a (splice (bs_view s a) (Z.to_nat (x * 64)) (dirent_bytes inum name)) (q_inv _ _ _ Q1)
      (q_free _ _ _ Q1 a ltac:(lia)) ltac:(lia) ltac:(lia) E2) as (s4 & s5 & s6 & F3 & F4 & F5 & He6 & Hv6 & _).
    rewrite (bind_run _ _ _ tt (mk_fs s4 ip)) by (by apply on_store_run). rewrite (bind_run _ _ _ tt (mk_fs s5 ip)) by (by apply on_store_run).
    rewrite (bind_run _ _ _ tt (mk_fs s6 ip)) by (by apply on_store_run). exists (Some 0), s6. split; [done|]. left. split; [done|].
    exists (16 * b + x). split; [done|]. destruct Hf as [Hj _]. pose proof (slots_pos s ip D) as [_ Hmax].
    pose proof (eff_same s s1 s6 _ _ He1 He6) as He'.
    assert ((64 * (16 * b + x)) / 1024 = b) as Ediv by (symmetry; apply (Z.div_unique _ _ _ (64 * x)); lia).
    assert ((64 * (16 * b + x)) mod 1024 = 64 * x) as Emod by (symmetry; apply (Z.mod_unique _ _ b); lia).
    pose proof (e_room _ _ _ _ He'). pose proof (e_bufs _ _ _ _ He').
    apply entry_set_wrote; try done; try lia. apply (wrote_data sb L); try done; rewrite ?Ediv, ?Emod, ?Hel; fold a; try done; try lia.
    + apply D.
    + rewrite Hv6. by replace (x * 64) with (64 * x) by lia.
  - rewrite (bind_run _ _ _ tt (mk_fs s3 ip)) by (by apply on_store_run). pose proof (e_bufs _ _ _ _ He). pose proof (e_room _ _ _ _ He).
    destruct (decide (slots ip <= 16 * (b + 1))) as [Hend|Hmore].
    + destruct k as [|k]; [|lia]. exists None, s3. split; [done|]. right. split; [done|]. split; [done|].
      by rewrite Z.min_l in Hr by lia.
    + rewrite Z.min_r in Hr by lia.
      destruct (IH s3 (b + 1) (dir_ok_same s s3 ip He D) ltac:(lia) ltac:(lia) ltac:(lia) ltac:(lia) ltac:(lia)) as (r & s' & Hrun & Hres).
      exists r, s'. split; [done|]. destruct Hres as [(-> & j & Hf & Hset)|(-> & He' & Hf)].
      * left. split; [done|]. exists j. split; [apply (first_app _ _ (16 * (b + 1))); [lia|done|by apply (unused_same s s3)]|].
        by apply (entry_set_same s s3).
      * right. split; [done|]. split; [by apply (eff_same s s3)|]. apply (first_app _ _ (16 * (b + 1))); [lia|done|by apply (unused_same s s3)].
Qed.

Lemma dir_link_unchecked_run s ip name inum :
  dir_ok s ip -> is_u 32 inum -> Forall (is_u 8) name -> 9 <= bs_room s -> 9 <= bs_bufs s ->
  exists r s' ip', vimixfs_dir_link_unchecked sb sb_dev name inum (mk_fs s ip) = Ret (r, mk_fs s' ip') /\
    (r = 0 /\ (exists j, 0 <= j <= slots ip /\
       ((j < slots ip -> slot_inum s ip j = 0) /\ forall i, 0 <= i < j -> slot_inum s ip i <> 0) /\
       entry_set s ip j (dirent_bytes inum name) s' ip') \/
     r = - EOTHER /\ entry_kept s ip s' ip' /\ forall i, 0 <= i < slots ip -> slot_inum s ip i <> 0).
Proof using L A Hdev.
  intros D Hi Hname Hr Hb. pose proof (slots_pos s ip D) as [Hpos _]. destruct (dirent_bytes_ok inum name Hi Hname) as (Hel & Heb & _).
  unfold vimixfs_dir_link_unchecked. rewrite (bind_run _ _ _ ip (mk_fs s ip)) by done.
  destruct (link_loop_run name inum ip Hi Hname (Z.to_nat (block_count ip)) s 0 D Hr Hb ltac:(lia) ltac:(lia)) as (r & s1 & Hrun & Hres).
  { rewrite Z2Nat.id; [lia|]. rewrite (block_count_eq s ip D). apply Z.div_pos; lia. }
  rewrite (bind_run _ _ _ _ _ Hrun). destruct Hres as [(-> & j & (Hj & Hu & Hfirst) & Hset)|(-> & He & Hno)].
  { exists 0, s1, ip. split; [done|]. left. split; [done|]. exists j. split; [lia|]. split; [done|done]. }
  rewrite (bind_run _ _ _ ip (mk_fs s1 ip)) by done. pose proof (e_room _ _ _ _ He). pose proof (e_bufs _ _ _ _ He).
  rewrite (uwrap_id 32 inum) by done. rewrite (d_size _ _ D).
  destruct (write_entry_run s1 ip (slots ip) (dirent_bytes inum name) (dir_ok_same s s1 ip He D) ltac:(lia) Hel Heb ltac:(lia) ltac:(lia))
    as (r & s' & ip' & Hw & Hcase).
  rewrite (bind_run _ _ _ _ _ Hw). change DIRENT_SIZE with 64. destruct Hcase as [[-> Hset]|[Hne Hk]].
  - exists 0, s', ip'. split; [done|]. left. split; [done|]. exists (slots ip). split; [lia|]. split; [split; [lia|exact Hno]|]. by apply (entry_set_same s s1).
  - rewrite (proj2 (Z.eqb_neq r 64)) by done. eexists _, s', ip'. split; [done|]. right. split; [done|]. split; [|exact Hno].
    by apply (entry_kept_same s s1).
Qed.

(** ** A directory is a map from names to inode numbers *)

Record dir_rep (s : St) (ip : vimixfs_inode) (m : gmap (list Z) Z) : Prop := {
  dr_ok : dir_ok s ip;
  dr_map k i : m !! k = Some i <-> exists j, 0 <= j < slots ip /\ slot_inum s ip j = i /\ i <> 0 /\ slot_name s ip j = k;
  dr_unique i j : 0 <= i < slots ip -> 0 <= j < slots ip -> slot_inum s ip i <> 0 -> slot_inum s ip j <> 0 ->
    slot_name s ip i = slot_name s ip j -> i = j
}.

Lemma dir_rep_ext s ip m s' ip' :
  dir_rep s ip m -> dir_ok s' ip' -> slots ip' = slots ip -> (forall i, 0 <= i < slots ip -> slot s' ip' i = slot s ip i) -> dir_rep s' ip' m.
Proof using.
  intros [R1 R2 R3] D' Hs He. split; [done| |]; rewrite Hs.
  - intros k i. rewrite R2. split; intros (j & Hj & H); exists j; (split; [done|]); revert H; unfold slot_inum, slot_name; by rewrite He by done.
  - intros i j Hi Hj. unfold slot_inum, slot_name. rewrite !He by done. by apply R3.
Qed.

Lemma dir_rep_first s ip m name o :
  dir_rep s ip m -> first (matches s ip name) 0 (slots ip) o ->
  match o with
  | Some j => m !! cstr 60 name = Some (slot_inum s ip j) /\ 0 <= j < slots ip /\ slot_inum s ip j <> 0 /\ slot_name s ip j = cstr 60 name
  | None => m !! cstr 60 name = None
  end.
Proof using.
  intros R. destruct o as [j|]; cbn [first].
  - intros (Hj & [Hn Hname] & _). split; [|by rewrite Hname]. apply (dr_map _ _ _ R). exists j. by rewrite Hname.
  - intros Hno. destruct (m !! cstr 60 name) as [i|] eqn:E; [|done]. apply (dr_map _ _ _ R) in E as (j & Hj & <- & Hn & Hname).
    destruct (Hno j Hj). by split.
Qed.

(** An entry is added. *)
Lemma dir_rep_insert s ip m j name inum s' ip' :
  dir_rep s ip m -> m !! cstr 60 name = None -> is_u 32 inum -> inum <> 0 -> Forall (is_u 8) name ->
  0 <= j <= slots ip -> (j < slots ip -> slot_inum s ip j = 0) ->
  entry_set s ip j (dirent_bytes inum name) s' ip' -> dir_rep s' ip' (<[cstr 60 name := inum]> m).
Proof using.
  intros R Hm Hi Hnz Hname Hj Hfree E. destruct (dirent_bytes_ok inum name Hi Hname) as (_ & _ & Hin & Hna).
  pose proof (es_slots _ _ _ _ _ _ E) as Hs.
  assert (slot_inum s' ip' j = inum) as Ij. { unfold slot_inum. rewrite (es_slot _ _ _ _ _ _ E), decide_True by (done || lia). by rewrite Hin. }
  assert (slot_name s' ip' j = cstr 60 name) as Nj.
  { unfold slot_name. rewrite (es_slot _ _ _ _ _ _ E), decide_True by (done || lia). by rewrite Hna, ncpy_cstr. }
  assert (forall i, 0 <= i < slots ip' -> i <> j -> i < slots ip /\ slot_inum s' ip' i = slot_inum s ip i /\ slot_name s' ip' i = slot_name s ip i) as Ho.
  { intros i Hii Hne. split; [lia|]. unfold slot_inum, slot_name. by rewrite (es_slot _ _ _ _ _ _ E), decide_False by done. }
  assert (forall i, 0 <= i < slots ip' -> i <> j -> slot_inum s ip i <> 0 -> slot_name s ip i <> cstr 60 name) as Hnew.
  { intros i Hii Hne Hl Heq. assert (m !! cstr 60 name = Some (slot_inum s ip i)) as Hx; [|congruence]. apply (dr_map _ _ _ R). exists i.
    destruct (Ho i Hii Hne) as [? _]. split; [lia|]. done. }
  split; [apply E| |].
  - intros k i. destruct (decide (k = cstr 60 name)) as [->|Hk].
    + rewrite lookup_insert_eq. split.
      * intros [= <-]. exists j. split; [lia|done].
      * intros (i' & Hi' & <- & Hl & Heq). destruct (decide (i' = j)) as [->|Hne]; [by rewrite Ij|].
        destruct (Ho i' Hi' Hne) as (_ & E1 & E2). rewrite E1 in Hl. rewrite E2 in Heq. destruct (Hnew i' Hi' Hne Hl Heq).
    + rewrite lookup_insert_ne by done. rewrite (dr_map _ _ _ R). split.
      * intros (i' & Hi' & <- & Hl & <-). exists i'. assert (i' <> j) as Hne by (intros ->; exact (Hl (Hfree ltac:(lia)))).
        destruct (Ho i' ltac:(lia) Hne) as (_ & -> & ->). split; [lia|]. split; [reflexivity|]. split; [exact Hl|reflexivity].
      * intros (i' & Hi' & <- & Hl & <-). destruct (decide (i' = j)) as [->|Hne]; [by rewrite Nj in Hk|].
        destruct (Ho i' Hi' Hne) as (? & E1 & E2). rewrite E1 in Hl |- *. rewrite E2. exists i'. split; [lia|]. split; [reflexivity|]. split; [exact Hl|reflexivity].
  - intros x y Hx Hy Hlx Hly Heq. destruct (decide (x = j)) as [->|Hxj], (decide (y = j)) as [->|Hyj]; [done|..].
    + destruct (Ho y Hy Hyj) as (_ & E1 & E2). rewrite E1 in Hly. rewrite E2, Nj in Heq. destruct (Hnew y Hy Hyj Hly (eq_sym Heq)).
    + destruct (Ho x Hx Hxj) as (_ & E1 & E2). rewrite E1 in Hlx. rewrite E2, Nj in Heq. destruct (Hnew x Hx Hxj Hlx Heq).
    + destruct (Ho x Hx Hxj) as (? & E1 & E2), (Ho y Hy Hyj) as (? & E3 & E4). rewrite E1 in Hlx. rewrite E3 in Hly. rewrite E2, E4 in Heq.
      apply (dr_unique _ _ _ R); [lia|lia|exact Hlx|exact Hly|exact Heq].
Qed.

(** An entry is cleared. *)
Lemma dir_rep_delete s ip m j s' ip' :
  dir_rep s ip m -> 0 <= j < slots ip -> slot_inum s ip j <> 0 -> entry_set s ip j (replicate 64 0) s' ip' ->
  dir_rep s' ip' (delete (slot_name s ip j) m).
Proof using.
  intros R Hj Hl E. pose proof (es_slots _ _ _ _ _ _ E) as Hs. rewrite Z.max_l in Hs by lia.
  assert (slot_inum s' ip' j = 0) as Ij. { unfold slot_inum. by rewrite (es_slot _ _ _ _ _ _ E), decide_True by (done || lia). }
  assert (forall i, 0 <= i < slots ip -> i <> j -> slot_inum s' ip' i = slot_inum s ip i /\ slot_name s' ip' i = slot_name s ip i) as Ho.
  { intros i Hii Hne. unfold slot_inum, slot_name. by rewrite (es_slot _ _ _ _ _ _ E), decide_False by (done || lia). }
  split; [apply E| |]; rewrite Hs.
  - intros k i. rewrite lookup_delete_Some, (dr_map _ _ _ R). split.
    + intros (Hk & i' & Hi' & <- & Hli & <-). exists i'. assert (i' <> j) as Hne by (intros ->; exact (Hk eq_refl)).
      destruct (Ho i' Hi' Hne) as (-> & ->). split; [exact Hi'|]. split; [reflexivity|]. split; [exact Hli|reflexivity].
    + intros (i' & Hi' & <- & Hli & <-). assert (i' <> j) as Hne by (intros ->; exact (Hli Ij)). destruct (Ho i' Hi' Hne) as (E1 & E2).
      rewrite E1 in Hli |- *. rewrite E2. split.
      * intros Heq. apply Hne. apply (dr_unique _ _ _ R); [exact Hi'|exact Hj|exact Hli|exact Hl|exact (eq_sym Heq)].
      * exists i'. split; [exact Hi'|]. split; [reflexivity|]. split; [exact Hli|reflexivity].
  - intros x y Hx Hy Hlx Hly Heq. assert (x <> j) as Hxj by (intros ->; exact (Hlx Ij)). assert (y <> j) as Hyj by (intros ->; exact (Hly Ij)).
    destruct (Ho x Hx Hxj) as (E1 & E2), (Ho y Hy Hyj) as (E3 & E4). rewrite E1 in Hlx. rewrite E3 in Hly. rewrite E2, E4 in Heq.
    apply (dr_unique _ _ _ R); [exact Hx|exact Hy|exact Hlx|exact Hly|exact Heq].
Qed.

Lemma dir_link_run s ip m name inum :
  dir_rep s ip m -> Forall (is_u 8) name -> is_u 32 inum -> inum <> 0 -> 9 <= bs_room s -> 9 <= bs_bufs s ->
  exists r s' ip', vimixfs_dir_link sb sb_dev name inum (mk_fs s ip) = Ret (r, mk_fs s' ip') /\
    match m !! cstr 60 name with
    | Some _ => r = - EEXIST /\ ip' = ip /\ eff s s' (fun _ => False) 0
    | None => r = 0 /\ dir_rep s' ip' (<[cstr 60 name := inum]> m) /\ (exists j, entry_set s ip j (dirent_bytes inum name) s' ip') \/
              r = - EOTHER /\ dir_rep s' ip' m /\ (full sb s' \/ max_size < i_size ip + 64)
    end.
Proof using L A Hdev.
  intros R Hname Hi Hnz Hr Hb. pose proof (dr_ok _ _ _ R) as D. destruct (lookup_run s ip name D ltac:(lia)) as (r & s1 & Hrun & He & o & Hf & ->).
  pose proof (dir_rep_first s ip m name o R Hf) as Ho. unfold vimixfs_dir_link. rewrite (bind_run _ _ _ _ _ Hrun).
  destruct o as [j|]; cbn [fmap option_fmap option_map].
  { destruct Ho as [-> _]. exists (- EEXIST), s1, ip. done. }
  rewrite Ho. pose proof (e_room _ _ _ _ He). pose proof (e_bufs _ _ _ _ He).
  destruct (dir_link_unchecked_run s1 ip name inum (dir_ok_same s s1 ip He D) Hi Hname ltac:(lia) ltac:(lia)) as (r & s' & ip' & Hrun' & Hres).
  exists r, s', ip'. split; [exact Hrun'|]. destruct Hres as [(-> & j & Hj & [Hfree _] & Hset)|(-> & Hk & _)].
  - left. apply (entry_set_same s s1) in Hset; [|exact He]. split; [done|]. split; [|by exists j].
    apply (dir_rep_insert s ip m j name inum); try done. intros Hlt. unfold slot_inum. rewrite <- (slot_inum_same s s1) by exact He. by apply Hfree.
  - right. split; [done|]. destruct Hk as [K1 K2 K3 K4 _ _ _ _]. split; [|exact K4]. apply (dir_rep_ext s ip); [done|done|done|].
    intros i Hii. rewrite (K3 i Hii). by apply slot_inum_same.
Qed.

(** An entry that exists is overwritten: no block has to be allocated. *)
Lemma overwrite_entry_run s ip j e :
  dir_ok s ip -> 0 <= j < slots ip -> length e = 64%nat -> Forall (is_u 8) e -> 2 <= bs_room s -> 2 <= bs_bufs s ->
  exists s' ip', vimixfs_write sb sb_dev (kernel_object e) 0 (64 * j) 64 (mk_fs s ip) = Ret (64, mk_fs s' ip') /\
    entry_set s ip j e s' ip' /\ bs_room s - 2 <= bs_room s' /\ bs_bufs s - 2 <= bs_bufs s'.
Proof using L A Hdev.
  intros D Hj Hl Hby Hr Hb. pose proof (slots_pos s ip D) as [_ Hmax]. pose proof (d_size _ _ D) as Hs. pose proof (d_max _ _ D).
  change VIMIXFS_MAX_FILE_SIZE_BLOCKS with 65812 in *.
  assert (chunks (64 * j) 64 = 1) as Hc.
  { unfold chunks. cbn [Z.eqb]. pose proof (Z.div_mod j 16 ltac:(lia)). pose proof (Z.mod_pos_bound j 16 ltac:(lia)).
    assert ((64 * j) mod 1024 = 64 * (j mod 16)) as -> by (symmetry; apply (Z.mod_unique _ _ (j / 16)); lia).
    symmetry. apply (Z.div_unique _ _ _ (64 * (j mod 16) + 63)); lia. }
  destruct (overwrite_run sb sb_dev L A Hdev s ip (kernel_object e) 0 (64 * j) 64 (d_quiet _ _ D) (d_inode _ _ D) (d_inum _ _ D))
    as (s' & ip' & Hrun & Hw & He); rewrite ?kernel_readable, ?Hc; try lia.
  { change VIMIXFS_MAX_FILE_SIZE_BLOCKS with 65812. lia. }
  { intros i Hi. apply (d_blocks _ _ D). lia. }
  { rewrite take_ge by lia. exact Hl. }
  { by apply Forall_take. }
  exists s', ip'. split; [exact Hrun|]. rewrite kernel_readable, take_ge in Hw by lia.
  pose proof (e_room _ _ _ _ He). pose proof (e_bufs _ _ _ _ He). rewrite Hc in *.
  split; [|lia]. apply entry_set_written; try done; try lia. change VIMIXFS_MAX_FILE_SIZE_BLOCKS with 65812. lia.
Qed.

Lemma clear_dirent_run s ip j :
  dir_ok s ip -> 0 <= j < slots ip -> 2 <= bs_room s -> 2 <= bs_bufs s ->
  exists s' ip', clear_dirent sb sb_dev (64 * j) (mk_fs s ip) = Ret (tt, mk_fs s' ip') /\
    entry_set s ip j (replicate 64 0) s' ip' /\ bs_room s - 2 <= bs_room s' /\ bs_bufs s - 2 <= bs_bufs s'.
Proof using L A Hdev.
  intros D Hj Hr Hb. destruct (overwrite_entry_run s ip j (replicate 64 0) D Hj eq_refl) as (s' & ip' & Hrun & Hset); [|done|done|].
  { apply Forall_replicate. unfold is_u. lia. }
  exists s', ip'. split; [|exact Hset]. unfold clear_dirent. change (Z.to_nat DIRENT_SIZE) with 64%nat. change DIRENT_SIZE with 64.
  by rewrite (bind_run _ _ _ _ _ Hrun).
Qed.

Lemma read_entry_run s ip j :
  dir_ok s ip -> 0 <= j -> 64 * j < 2 ^ 63 -> 0 < bs_bufs s ->
  exists r s', vimixfs_iops_read sb (fun _ => true) (64 * j) 0 DIRENT_SIZE (mk_fs s ip) = Ret (r, mk_fs s' ip) /\
    eff s s' (fun _ => False) 0 /\ r = (if decide (j < slots ip) then (64, slot s ip j) else (0, [])).
Proof using L.
  intros D Hj Hmaxj Hb. pose proof (slots_pos s ip D) as [_ Hmax]. pose proof (d_size _ _ D) as Hs. change VIMIXFS_MAX_FILE_SIZE_BLOCKS with 65812 in *.
  change DIRENT_SIZE with 64. assert (read_count ip (64 * j) 64 = if decide (j < slots ip) then 64 else 0) as Hc.
  { unfold read_count. rewrite Hs. rewrite (proj2 (Z.leb_gt (2 ^ 64) _)) by lia. case_decide.
    - rewrite (proj2 (Z.ltb_ge _ _)) by lia. cbn [orb]. lia.
    - destruct (Z.ltb_spec (64 * slots ip) (64 * j)); cbn [orb]; lia. }
  destruct (iops_read_run sb L s ip (fun _ => true) (64 * j) 0 64 (d_quiet _ _ D) Hb) as (r & s' & Hrun & He & Hres); try (unfold is_u; lia).
  - apply D.
  - rewrite Hc. intros i Hi. apply (d_blocks _ _ D). case_decide; lia.
  - exists r, s'. split; [done|]. split; [done|]. rewrite Hc in Hres. assert (forall l : list Z, forallb (fun _ => true) l = true) as Hall
      by (induction l; done). rewrite Hall in Hres. rewrite Hres. by case_decide.
Qed.

Lemma isdirempty_loop_run ip : forall fuel s j,
  dir_ok s ip -> 0 < bs_bufs s -> 0 <= j -> Z.max 0 (slots ip - j) < Z.of_nat fuel ->
  exists r s', isdirempty_loop sb fuel (64 * j) (mk_fs s ip) = Ret (r, mk_fs s' ip) /\ eff s s' (fun _ => False) 0 /\
    (r = true <-> forall i, j <= i < slots ip -> slot_inum s ip i = 0).
Proof using L.
  induction fuel as [|fuel IH]; intros s j D Hb Hj Hf; cbn [isdirempty_loop].
  { exfalso. lia. }
  rewrite (bind_run _ _ _ ip (mk_fs s ip)) by done. rewrite (d_size _ _ D). pose proof (slots_pos s ip D) as [_ Hmax].
  change VIMIXFS_MAX_FILE_SIZE_BLOCKS with 65812 in Hmax. destruct (Z.ltb_spec (64 * j) (64 * slots ip)) as [Hlt|Hge].
  2:{ exists true, s. split; [done|]. split; [apply eff_refl, D|]. split; [intros _ i Hi; lia|done]. }
  destruct (read_entry_run s ip j D Hj ltac:(lia) Hb) as (r & s1 & Hrun & He & ->). rewrite decide_True in Hrun by lia.
  rewrite (bind_run _ _ _ _ _ Hrun). cbn [fst snd]. rewrite (bind_run _ _ _ tt (mk_fs s1 ip)) by done.
  destruct (slot_inum_ok s ip j D ltac:(lia)) as [Hin Hu]. rewrite (bind_run _ _ _ (slot_inum s ip j) (mk_fs s1 ip)) by (by rewrite Hin).
  destruct (Z.eqb_spec (slot_inum s ip j) INVALID_INODE) as [E|E]; cbn [negb].
  - pose proof (e_bufs _ _ _ _ He). change DIRENT_SIZE with 64. replace (64 * j + 64) with (64 * (j + 1)) by lia.
    destruct (IH s1 (j + 1) (dir_ok_same s s1 ip He D) ltac:(lia) ltac:(lia) ltac:(lia)) as (r & s' & Hrun' & He' & Hr).
    exists r, s'. split; [exact Hrun'|]. split; [by apply (eff_same s s1)|]. rewrite Hr. unfold slot_inum. split; intros H1 i Hi.
    + destruct (decide (i = j)) as [->|]; [exact E|]. rewrite <- (slot_inum_same s s1) by exact He. apply H1. lia.
    + rewrite (slot_inum_same s s1) by exact He. apply H1. lia.
  - exists false, s1. split; [done|]. split; [done|]. split; [done|]. intros H1. exfalso. apply E, H1. lia.
Qed.

Lemma isdirempty_run s ip :
  dir_ok s ip -> 0 < bs_bufs s ->
  exists r s', isdirempty sb (mk_fs s ip) = Ret (r, mk_fs s' ip) /\ eff s s' (fun _ => False) 0 /\
    (r = true <-> forall i, 2 <= i < slots ip -> slot_inum s ip i = 0).
Proof using L.
  intros D Hb. pose proof (slots_pos s ip D) as [? _]. unfold isdirempty. rewrite (bind_run _ _ _ ip (mk_fs s ip)) by done.
  apply (isdirempty_loop_run ip _ s 2 D Hb); [lia|]. change DIRENT_SIZE with 64. fold (slots ip). lia.
Qed.

(** The next entry in use from [j] on. *)
Lemma get_dirent_loop_run ip : forall fuel s j,
  dir_ok s ip -> 0 < bs_bufs s -> 0 <= j <= slots ip -> slots ip - j < Z.of_nat fuel ->
  exists o s', get_dirent_loop sb fuel (64 * j)  (mk_fs s ip) =
      Ret (match o with Some i => (64 * (i + 1), Some (slot_inum s ip i, 64 * (i + 1), chars_ncpy 60 (de_name (slot s ip i))))
           | None => (0, None) end, mk_fs s' ip) /\ eff s s' (fun _ => False) 0 /\
    first (fun i => slot_inum s ip i <> 0) j (slots ip) o.
Proof using L.
  induction fuel as [|fuel IH]; intros s j D Hb Hj Hf; cbn [get_dirent_loop].
  { exfalso. lia. }
  pose proof (slots_pos s ip D) as [_ Hmax]. change VIMIXFS_MAX_FILE_SIZE_BLOCKS with 65812 in Hmax.
  rewrite (uwrap_id 64 (64 * j)) by (unfold is_u; lia).
  destruct (read_entry_run s ip j D ltac:(lia) ltac:(lia) Hb) as (r & s1 & Hrun & He & ->). rewrite (bind_run _ _ _ _ _ Hrun).
  destruct (decide (j < slots ip)) as [Hlt|Hge]; cbn [fst snd].
  2:{ exists None, s1. split; [done|]. split; [done|]. cbn. intros; lia. }
  change (u64 64) with 64. cbn [Z.leb Z.compare]. change (64 <? DIRENT_SIZE) with false. cbn iota zeta beta.
  rewrite (swrap_id 64 (64 * j + 64)) by (unfold is_s; lia || lia). replace (64 * j + 64) with (64 * (j + 1)) by lia.
  destruct (slot_inum_ok s ip j D ltac:(lia)) as [Hin Hu]. rewrite (bind_run _ _ _ (slot_inum s ip j) (mk_fs s1 ip)) by (by rewrite Hin).
  destruct (Z.eqb_spec (slot_inum s ip j) INVALID_INODE) as [E|E].
  - pose proof (e_bufs _ _ _ _ He).
    destruct (IH s1 (j + 1) (dir_ok_same s s1 ip He D) ltac:(lia) ltac:(lia) ltac:(lia)) as (o & s' & Hrun' & He' & Hf').
    assert (forall i, slot s1 ip i = slot s ip i) as Hsl by (intros i; by apply slot_inum_same).
    exists o, s'. split.
    { rewrite Hrun'. destruct o as [i|]; [|done]. unfold slot_inum. rewrite Hsl. reflexivity. }
    split; [by apply (eff_same s s1)|]. apply first_skip; [intros H1; exact (H1 E)|]. revert Hf'. unfold slot_inum.
    destruct o as [i|]; cbn [first].
    + rewrite Hsl. intros (H1 & H2 & H3). split; [exact H1|]. split; [exact H2|]. intros k Hk. rewrite <- Hsl. exact (H3 k Hk).
    + intros H3 k Hk. rewrite <- Hsl. exact (H3 k Hk).
  - exists (Some j), s1. split; [reflexivity|]. split; [exact He|]. cbn [first]. split; [lia|]. split; [exact E|]. intros; lia.
Qed.

Definition entry (s : St) (ip : vimixfs_inode) (i : Z) : Z * list Z := (slot_inum s ip i, chars_ncpy 60 (de_name (slot s ip i))).

(** The entries in use from [a] to [b]. *)
Definition entries (s : St) (ip : vimixfs_inode) (a b : Z) : list (Z * list Z) :=
  map (entry s ip) (filter (fun i => slot_inum s ip i <> 0) (seqZ a (b - a))).

Lemma filter_none (P : Z -> Prop) `{!forall i, Decision (P i)} a n : (forall i, a <= i < a + n -> ~ P i) -> filter P (seqZ a n) = [].
Proof using.
  intros Hno. destruct (filter P (seqZ a n)) as [|i l] eqn:E; [done|]. assert (i ∈ filter P (seqZ a n)) as Hi by (rewrite E; left).
  apply list_elem_of_filter in Hi as [HP [Hi1 Hi2]%elem_of_seqZ]. destruct (Hno i); [lia|done].
Qed.

Lemma entries_first s ip a b o :
  first (fun i => slot_inum s ip i <> 0) a b o ->
  entries s ip a b = match o with Some i => entry s ip i :: entries s ip (i + 1) b | None => [] end.
Proof using.
  unfold entries. destruct o as [i|]; cbn [first].
  - intros (Hi & Hl & Hno). replace (b - a) with ((i - a) + (1 + (b - (i + 1)))) by lia. rewrite seqZ_app, filter_app by lia.
    rewrite (filter_none _ a (i - a)) by (intros k Hk; apply Hno; lia). replace (a + (i - a)) with i by lia.
    rewrite seqZ_app, filter_app by lia. change (seqZ i 1) with [0 + i]. rewrite Z.add_0_l, filter_cons_True by exact Hl. reflexivity.
  - intros Hno. destruct (decide (a <= b)).
    + rewrite filter_none; [done|]. intros k Hk. apply Hno. lia.
    + unfold seqZ. replace (Z.to_nat (b - a)) with 0%nat by lia. done.
Qed.

Lemma map_filter_ext {B} (P Q : Z -> Prop) `{!forall i, Decision (P i), !forall i, Decision (Q i)} (f g : Z -> B) l :
  (forall i, P i <-> Q i) -> (forall i, f i = g i) -> map f (filter P l) = map g (filter Q l).
Proof using.
  intros HPQ Hfg. induction l as [|i l IH]; [done|]. rewrite !filter_cons. destruct (decide (P i)) as [Hd|Hd].
  - rewrite decide_True by (by apply HPQ). cbn. by rewrite IH, Hfg.
  - rewrite decide_False by (by rewrite <- HPQ). done.
Qed.

Lemma entries_same s s' ip a b : eff s s' (fun _ => False) 0 -> entries s' ip a b = entries s ip a b.
Proof using.
  intros He. assert (forall i, slot s' ip i = slot s ip i) as Hs by (intros i; by apply slot_inum_same).
  assert (forall i, slot_inum s' ip i = slot_inum s ip i) as Hi by (intros i; unfold slot_inum; rewrite Hs; reflexivity).
  assert (forall i, entry s' ip i = entry s ip i) as Hent by (intros i; unfold entry; rewrite Hi, Hs; reflexivity).
  unfold entries. apply map_filter_ext; [intros i; by rewrite Hi|exact Hent].
Qed.

Lemma do_get_dirent_run mode s ip j : S_ISDIR mode = true -> 0 <= j -> forall r s',
  get_dirent_loop sb (Z.to_nat (i_size ip / DIRENT_SIZE + 2)) (64 * j) (mk_fs s ip) = Ret (r, s') ->
  do_get_dirent sb mode true (64 * j) (mk_fs s ip) = Ret (r, s').
Proof using.
  intros Hmode Hj r s' Hrun. unfold do_get_dirent. rewrite Hmode, (proj2 (Z.ltb_ge (64 * j) 0)) by lia. cbn [negb].
  unfold vimixfs_iops_get_dirent. rewrite (bind_run _ _ _ r s'); [by rewrite andb_false_r|].
  by rewrite (bind_run _ _ _ ip (mk_fs s ip)).
Qed.

Lemma read_all_run mode ip : S_ISDIR mode = true -> forall fuel s j,
  dir_ok s ip -> 0 < bs_bufs s -> 0 <= j <= slots ip -> slots ip - j < Z.of_nat fuel ->
  exists s', read_all sb fuel mode (64 * j) (mk_fs s ip) = Ret (entries s ip j (slots ip), mk_fs s' ip) /\ eff s s' (fun _ => False) 0.
Proof using L.
  intros Hmode. induction fuel as [|fuel IH]; intros s j D Hb Hj Hf; [lia|]. cbn [read_all].
  destruct (get_dirent_loop_run ip (Z.to_nat (i_size ip / DIRENT_SIZE + 2)) s j D Hb Hj) as (o & s1 & Hrun & He & Hfirst).
  { change DIRENT_SIZE with 64. fold (slots ip). lia. }
  pose proof (do_get_dirent_run mode s ip j Hmode ltac:(lia) _ _ Hrun) as Hdo.
  rewrite (entries_first s ip j (slots ip) o Hfirst). unfold readdir. rewrite (proj2 (Z.ltb_ge (64 * j) 0)) by lia.
  destruct o as [i|].
  - destruct Hfirst as (Hi & _). rewrite (bind_run _ _ _ (Some (entry s ip i), 64 * (i + 1)) (mk_fs s1 ip)).
    2:{ rewrite (bind_run _ _ _ _ _ Hdo). cbn [fst snd]. rewrite (proj2 (Z.ltb_ge _ 0)) by lia.
        by rewrite (proj2 (Z.eqb_neq _ 0)) by lia. }
    cbn [fst snd]. pose proof (e_bufs _ _ _ _ He).
    destruct (IH s1 (i + 1) (dir_ok_same s s1 ip He D) ltac:(lia) ltac:(lia) ltac:(lia)) as (s' & Hrun' & He').
    rewrite (bind_run _ _ _ _ _ Hrun'). exists s'. split; [|by apply (eff_same s s1)]. by rewrite (entries_same s s1).
  - rewrite (bind_run _ _ _ (None, -1) (mk_fs s1 ip)); [by exists s1|]. by rewrite (bind_run _ _ _ _ _ Hdo).
Qed.

Lemma elem_of_entries s ip i n :
  (i, n) ∈ entries s ip 0 (slots ip) <-> exists j, 0 <= j < slots ip /\ slot_inum s ip j <> 0 /\ (i, n) = entry s ip j.
Proof using.
  unfold entries. rewrite list_elem_of_fmap. split.
  - intros (j & E & [Hl Hj]%list_elem_of_filter). apply elem_of_seqZ in Hj. exists j. split; [lia|]. split; [exact Hl|exact E].
  - intros (j & Hj & Hl & E). exists j. split; [exact E|]. apply list_elem_of_filter. split; [exact Hl|]. apply elem_of_seqZ. lia.
Qed.

Lemma entry_name s ip j : cstr 60 (snd (entry s ip j)) = slot_name s ip j.
Proof using. unfold entry, slot_name. cbn [snd]. apply ncpy_cstr. Qed.

(** The names of the entries are different. *)
Lemma entries_nodup s ip m : dir_rep s ip m -> NoDup (map (fun e => cstr 60 (snd e)) (entries s ip 0 (slots ip))).
Proof using.
  intros R. unfold entries. rewrite map_map. apply NoDup_fmap_2_strong.
  - intros x y [Hx [Hx1 Hx2]%elem_of_seqZ]%list_elem_of_filter [Hy [Hy1 Hy2]%elem_of_seqZ]%list_elem_of_filter. rewrite !entry_name. intros E.
    apply (dr_unique _ _ _ R); [lia|lia|exact Hx|exact Hy|exact E].
  - apply NoDup_filter, NoDup_seqZ.
Qed.


End Slots.

(** ** An example: an empty directory *)

Lemma small_dir : @dir_rep lfs small_store small_sb small_fs empty_inode ∅.
Proof.
  assert (slots empty_inode = 0) as Hs by reflexivity. split.
  - split; [exact small_quiet|exact empty_inode_ok| |reflexivity|vm_compute; discriminate|].
    + unfold inum_ok. cbn. lia.
    + intros i Hi. change (i_size empty_inode) with 0 in Hi. lia.
  - intros k i. rewrite Hs, lookup_empty. split; [done|]. intros (j & Hj & _). lia.
  - rewrite Hs. intros i j Hi. lia.
Qed.


