(* ===== verification/DirOld.v ===== *)
(** * The earlier versions of the directory operations (kernel/fs/vimixfs/vimixfs.c)

    [vimixfs_lookup_old] and [vimixfs_dir_link_unchecked_old] read a directory entry by
    entry through [vimixfs_iops_read]; the functions that replaced them ([Dir]) walk over
    the buffers of its blocks.  Both give the same results. *)
From stdpp Require Import list gmap.
From S2P Require Import Prelude Bytes Bio Log LogCommit Perm CString Txn Bmap Inode FileData Trunc Durable Dir.

Section Old.
Context {St : Type} `{!BlockStore St} (sb : vimixfs_superblock) (sb_dev : Z).

Fixpoint lookup_old_loop (fuel : nat) (name : list Z) (off : Z) : ST (fs St) (option (Z * Z)) :=
  match fuel with
  | O => lift NoFuel
  | S fuel =>
      ip ← get_ip;
      if off <? i_size ip then
        r ← vimixfs_iops_read sb (fun _ => true) off 0 DIRENT_SIZE;
        lift (panic_unless (fst r =? DIRENT_SIZE));;
        inum ← lift (load (de_inum (snd r)));
        if inum =? INVALID_INODE then lookup_old_loop fuel name (off + DIRENT_SIZE)
        else if file_name_cmp name (de_name (snd r)) =? 0 then mret (Some (inum, u32 off))
        else lookup_old_loop fuel name (off + DIRENT_SIZE)
      else mret None
  end.

Definition vimixfs_lookup_old (name : list Z) : ST (fs St) (option (Z * Z)) :=
  ip ← get_ip; lookup_old_loop (S (Z.to_nat (i_size ip / DIRENT_SIZE))) name 0.

(** The offset of the first free entry, or of the end of the directory. *)
Fixpoint free_entry_loop (fuel : nat) (off : Z) : ST (fs St) Z :=
  match fuel with
  | O => lift NoFuel
  | S fuel =>
      ip ← get_ip;
      if off <? i_size ip then
        r ← vimixfs_iops_read sb (fun _ => true) off 0 DIRENT_SIZE;
        lift (panic_unless (fst r =? DIRENT_SIZE));;
        inum ← lift (load (de_inum (snd r)));
        if inum =? INVALID_INODE then mret off else free_entry_loop fuel (off + DIRENT_SIZE)
      else mret off
  end.

Definition vimixfs_dir_link_unchecked_old (name : list Z) (inum : Z) : ST (fs St) Z :=
  ip ← get_ip;
  off ← free_entry_loop (S (Z.to_nat (i_size ip / DIRENT_SIZE))) 0;
  written ← vimixfs_write sb sb_dev (kernel_object (dirent_bytes (u32 inum) name)) 0 off DIRENT_SIZE;
  if negb (written =? DIRENT_SIZE) then mret (- EOTHER) else mret 0.
End Old.

Section Equivalence.
Context {St : Type} `{!BlockStore St} (sb : vimixfs_superblock) (sb_dev : Z).
Context (L : layout sb) (A : inode_area sb) (Hdev : is_s 32 sb_dev).

Abbreviation dir_ok := (dir_ok sb).
Abbreviation entry_set := (entry_set sb sb_dev).

(** One step of the loops: the entry at [64 * j] is read. *)
Lemma scan_entry_run s ip j : dir_ok s ip -> 0 < bs_bufs s -> 0 <= j < slots ip ->
  exists s', vimixfs_iops_read sb (fun _ => true) (64 * j) 0 DIRENT_SIZE (mk_fs s ip) = Ret ((64, slot s ip j), mk_fs s' ip) /\
    eff s s' (fun _ => False) 0 /\ de_inum (slot s ip j) = Some (slot_inum s ip j) /\ 64 * j < i_size ip.
Proof using L.
  intros D Hb Hj. pose proof (slots_pos sb s ip D) as [_ Hmax]. change VIMIXFS_MAX_FILE_SIZE_BLOCKS with 65812 in Hmax.
  destruct (read_entry_run sb L s ip j D ltac:(lia) ltac:(lia) Hb) as (r & s1 & Hrun & He & ->). rewrite decide_True in Hrun by lia.
  exists s1. split; [exact Hrun|]. split; [exact He|]. split; [apply (slot_inum_ok sb L s ip j D Hj)|]. rewrite (d_size _ _ _ D). lia.
Qed.

Lemma lookup_old_loop_run name ip : forall fuel s j,
  dir_ok s ip -> 0 < bs_bufs s -> 0 <= j <= slots ip -> slots ip - j < Z.of_nat fuel ->
  exists o s', lookup_old_loop sb fuel name (64 * j) (mk_fs s ip) = Ret ((fun i => (slot_inum s ip i, 64 * i)) <$> o, mk_fs s' ip) /\
    eff s s' (fun _ => False) 0 /\ first (matches s ip name) j (slots ip) o.
Proof using L.
  induction fuel as [|fuel IH]; intros s j D Hb Hj Hf; cbn [lookup_old_loop]; [lia|].
  rewrite (bind_run _ _ _ ip (mk_fs s ip)) by done. pose proof (slots_pos sb s ip D) as [_ Hmax].
  change VIMIXFS_MAX_FILE_SIZE_BLOCKS with 65812 in Hmax. rewrite (d_size _ _ _ D).
  destruct (Z.ltb_spec (64 * j) (64 * slots ip)) as [Hlt|Hge].
  2: { exists None, s. split; [done|]. split; [apply eff_refl, D|]. cbn. intros; lia. }
  destruct (scan_entry_run s ip j D Hb ltac:(lia)) as (s1 & Hrun & He & Hin & _). rewrite (bind_run _ _ _ _ _ Hrun). cbn [fst snd].
  rewrite (bind_run _ _ _ tt (mk_fs s1 ip)) by done. rewrite (bind_run _ _ _ (slot_inum s ip j) (mk_fs s1 ip)) by (by rewrite Hin).
  change DIRENT_SIZE with 64. replace (64 * j + 64) with (64 * (j + 1)) by lia. pose proof (e_bufs _ _ _ _ He).
  assert (~ matches s ip name j -> exists o s', lookup_old_loop sb fuel name (64 * (j + 1)) (mk_fs s1 ip)
      = Ret ((fun i => (slot_inum s ip i, 64 * i)) <$> o, mk_fs s' ip) /\ eff s s' (fun _ => False) 0 /\ first (matches s ip name) j (slots ip) o) as Hskip.
  { intros Hno. destruct (IH s1 (j + 1) (dir_ok_same sb s s1 ip He D) ltac:(lia) ltac:(lia) ltac:(lia)) as (o & s' & Hrun' & He' & Hfirst).
    exists o, s'. split; [|split; [by apply (eff_same s s1)|apply first_skip; [done|by apply (first_same s s1)]]].
    rewrite Hrun'. destruct o as [i|]; [|done]. cbn. unfold slot_inum. by rewrite (slot_inum_same s s1). }
  destruct (Z.eqb_spec (slot_inum s ip j) INVALID_INODE) as [E|E]; [apply Hskip; by intros [? _]|].
  destruct (Z.eqb_spec (file_name_cmp name (de_name (slot s ip j))) 0) as [Ec|Ec]; unfold file_name_cmp in Ec;
    change (Z.to_nat NAME_MAX) with 60%nat in Ec; rewrite ncmp_zero in Ec; [|apply Hskip; by intros [_ ?]].
  exists (Some j), s1. rewrite uwrap_id by (unfold is_u; lia). split; [done|]. split; [done|]. cbn. split; [lia|]. split; [done|]. intros; lia.
Qed.

Lemma free_entry_loop_run ip : forall fuel s j,
  dir_ok s ip -> 0 < bs_bufs s -> 0 <= j <= slots ip -> slots ip - j < Z.of_nat fuel ->
  exists k s', free_entry_loop sb fuel (64 * j) (mk_fs s ip) = Ret (64 * k, mk_fs s' ip) /\ eff s s' (fun _ => False) 0 /\
    j <= k <= slots ip /\ (k < slots ip -> slot_inum s ip k = 0) /\ forall i, j <= i < k -> slot_inum s ip i <> 0.
Proof using L.
  induction fuel as [|fuel IH]; intros s j D Hb Hj Hf; cbn [free_entry_loop]; [lia|].
  rewrite (bind_run _ _ _ ip (mk_fs s ip)) by done. rewrite (d_size _ _ _ D).
  destruct (Z.ltb_spec (64 * j) (64 * slots ip)) as [Hlt|Hge].
  2: { exists j, s. split; [done|]. split; [apply eff_refl, D|]. split; [lia|]. split; intros; lia. }
  destruct (scan_entry_run s ip j D Hb ltac:(lia)) as (s1 & Hrun & He & Hin & _). rewrite (bind_run _ _ _ _ _ Hrun). cbn [fst snd].
  rewrite (bind_run _ _ _ tt (mk_fs s1 ip)) by done. rewrite (bind_run _ _ _ (slot_inum s ip j) (mk_fs s1 ip)) by (by rewrite Hin).
  change DIRENT_SIZE with 64. replace (64 * j + 64) with (64 * (j + 1)) by lia. pose proof (e_bufs _ _ _ _ He).
  destruct (Z.eqb_spec (slot_inum s ip j) INVALID_INODE) as [E|E].
  { exists j, s1. split; [done|]. split; [done|]. split; [lia|]. split; [done|intros; lia]. }
  destruct (IH s1 (j + 1) (dir_ok_same sb s s1 ip He D) ltac:(lia) ltac:(lia) ltac:(lia)) as (k & s' & Hrun' & He' & Hk & Hu & Hno).
  assert (forall i, slot_inum s1 ip i = slot_inum s ip i) as Hs by (intros i; unfold slot_inum; by rewrite (slot_inum_same s s1)).
  exists k, s'. split; [exact Hrun'|]. split; [by apply (eff_same s s1)|]. split; [lia|]. split; [by rewrite <- Hs|].
  intros i Hi. destruct (decide (i = j)) as [->|]; [done|]. rewrite <- Hs. apply Hno. lia.
Qed.

Lemma dir_link_old_run s ip name inum :
  dir_ok s ip -> is_u 32 inum -> Forall (is_u 8) name -> 9 <= bs_room s -> 9 <= bs_bufs s ->
  exists r s' ip', vimixfs_dir_link_unchecked_old sb sb_dev name inum (mk_fs s ip) = Ret (r, mk_fs s' ip') /\
    (r = 0 /\ (exists j, 0 <= j <= slots ip /\
       ((j < slots ip -> slot_inum s ip j = 0) /\ forall i, 0 <= i < j -> slot_inum s ip i <> 0) /\
       entry_set s ip j (dirent_bytes inum name) s' ip') \/
     r = - EOTHER /\ entry_kept sb sb_dev s ip s' ip' /\ forall i, 0 <= i < slots ip -> slot_inum s ip i <> 0).
Proof using L A Hdev.
  intros D Hi Hname Hr Hb. pose proof (slots_pos sb s ip D) as [Hpos _]. destruct (dirent_bytes_ok inum name Hi Hname) as (Hel & Heb & _).
  unfold vimixfs_dir_link_unchecked_old. rewrite (bind_run _ _ _ ip (mk_fs s ip)) by done.
  destruct (free_entry_loop_run ip (S (Z.to_nat (i_size ip / DIRENT_SIZE))) s 0 D ltac:(lia) ltac:(lia)) as (j & s1 & Hrun & He & Hj & Hu & Hno).
  { change DIRENT_SIZE with 64. fold (slots ip). lia. }
  rewrite Z.mul_0_r in Hrun. rewrite (bind_run _ _ _ _ _ Hrun), (uwrap_id 32 inum) by done. pose proof (e_room _ _ _ _ He). pose proof (e_bufs _ _ _ _ He).
  change DIRENT_SIZE with 64. pose proof (dir_ok_same sb s s1 ip He D) as D1. destruct (decide (j < slots ip)) as [Hlt|Hge].
  - destruct (overwrite_entry_run sb sb_dev L A Hdev s1 ip j (dirent_bytes inum name) D1 ltac:(lia) Hel Heb ltac:(lia) ltac:(lia))
      as (s' & ip' & Hw & Hset & _). rewrite (bind_run _ _ _ _ _ Hw). eexists _, s', ip'. split; [done|]. left. split; [done|]. exists j.
    split; [lia|]. split; [done|]. by apply (entry_set_same sb sb_dev s s1).
  - assert (j = slots ip) as -> by lia.
    destruct (write_entry_run sb sb_dev L A Hdev s1 ip (slots ip) (dirent_bytes inum name) D1 ltac:(lia) Hel Heb ltac:(lia) ltac:(lia))
      as (r & s' & ip' & Hw & Hcase). change DIRENT_SIZE with 64 in Hw. rewrite (bind_run _ _ _ _ _ Hw). destruct Hcase as [[-> Hset]|[Hne Hk]].
    + eexists _, s', ip'. split; [done|]. left. split; [done|]. exists (slots ip). split; [lia|]. split; [done|]. by apply (entry_set_same sb sb_dev s s1).
    + rewrite (proj2 (Z.eqb_neq r 64)) by done. eexists _, s', ip'. split; [done|]. right. split; [done|]. split; [|exact Hno].
      by apply (entry_kept_same sb sb_dev s s1).
Qed.

Lemma first_unique (P : Z -> Prop) a b o o' : first P a b o -> first P a b o' -> o = o'.
Proof using.
  destruct o as [i|], o' as [j|]; cbn [first].
  - intros (Hi & Pi & Ni) (Hj & Pj & Nj). f_equal. destruct (Z.lt_trichotomy i j) as [H|[H|H]]; [|done|]; exfalso; [apply (Nj i)|apply (Ni j)]; done || lia.
  - intros (Hi & Pi & _) N. exfalso. by apply (N i).
  - intros N (Hj & Pj & _). exfalso. by apply (N j).
  - done.
Qed.

(** C13: the directory operations and their earlier versions agree.  A lookup gives the
    same inode and offset and changes nothing.  A new name goes to the same entry, so that
    the entries of the directory are the same after both; they differ at most in what an
    allocation for a directory without a free entry finds on a disk that is full. *)
Theorem dir_operations_match_old s ip name inum :
  dir_ok s ip -> is_u 32 inum -> Forall (is_u 8) name -> 9 <= bs_room s -> 9 <= bs_bufs s ->
  (exists r s1 s2, vimixfs_lookup sb name (mk_fs s ip) = Ret (r, mk_fs s1 ip) /\ vimixfs_lookup_old sb name (mk_fs s ip) = Ret (r, mk_fs s2 ip) /\
    eff s s1 (fun _ => False) 0 /\ eff s s2 (fun _ => False) 0) /\
  (exists r1 s1 ip1 r2 s2 ip2, vimixfs_dir_link_unchecked sb sb_dev name inum (mk_fs s ip) = Ret (r1, mk_fs s1 ip1) /\
    vimixfs_dir_link_unchecked_old sb sb_dev name inum (mk_fs s ip) = Ret (r2, mk_fs s2 ip2) /\
    (r1 = r2 -> slots ip1 = slots ip2 /\ forall i, 0 <= i < slots ip1 -> slot s1 ip1 i = slot s2 ip2 i) /\
    (r1 <> r2 -> (full sb s1 \/ full sb s2 \/ VIMIXFS_MAX_FILE_SIZE_BLOCKS * 1024 < i_size ip + 64) /\
      forall i, 0 <= i < slots ip -> slot_inum s ip i <> 0)).
Proof using L A Hdev.
  intros D Hi Hname Hr Hb. pose proof (slots_pos sb s ip D) as [Hpos _]. split.
  - destruct (lookup_run sb L s ip name D ltac:(lia)) as (r & s1 & Hrun & He1 & o & Ho & ->).
    destruct (lookup_old_loop_run name ip (S (Z.to_nat (i_size ip / DIRENT_SIZE))) s 0 D ltac:(lia) ltac:(lia)) as (o' & s2 & Hrun' & He2 & Ho').
    { change DIRENT_SIZE with 64. fold (slots ip). lia. }
    rewrite (first_unique _ _ _ _ _ Ho' Ho) in Hrun'. eexists _, s1, s2. split; [exact Hrun|]. split; [|by split].
    unfold vimixfs_lookup_old. rewrite (bind_run _ _ _ ip (mk_fs s ip)) by done. exact Hrun'.
  - destruct (dir_link_unchecked_run sb sb_dev L A Hdev s ip name inum D Hi Hname Hr Hb) as (r1 & s1 & ip1 & Hrun1 & H1).
    destruct (dir_link_old_run s ip name inum D Hi Hname Hr Hb) as (r2 & s2 & ip2 & Hrun2 & H2).
    exists r1, s1, ip1, r2, s2, ip2. split; [exact Hrun1|]. split; [exact Hrun2|].
    destruct H1 as [(-> & j1 & Hj1 & [Hu1 Hn1] & E1)|(-> & K1 & N1)], H2 as [(-> & j2 & Hj2 & [Hu2 Hn2] & E2)|(-> & K2 & N2)]; split; try done.
    + intros _. assert (j1 = j2) as ->.
      { destruct (Z.lt_trichotomy j1 j2) as [H|[H|H]]; [|done|]; exfalso; [apply (Hn2 j1); [lia|apply Hu1; lia]|apply (Hn1 j2); [lia|apply Hu2; lia]]. }
      pose proof (es_slots _ _ _ _ _ _ _ _ E1) as S1. pose proof (es_slots _ _ _ _ _ _ _ _ E2) as S2. split; [lia|]. intros i Hii.
      rewrite (es_slot _ _ _ _ _ _ _ _ E1) by lia. rewrite (es_slot _ _ _ _ _ _ _ _ E2) by lia. done.
    + intros _. split; [|exact N2]. destruct (ek_full _ _ _ _ _ _ K2); auto.
    + intros _. split; [|exact N1]. destruct (ek_full _ _ _ _ _ _ K1); auto.
    + intros _. pose proof (ek_slots _ _ _ _ _ _ K1) as S1. pose proof (ek_slots _ _ _ _ _ _ K2) as S2. split; [lia|]. intros i Hii.
      rewrite (ek_slot _ _ _ _ _ _ K1) by lia. rewrite (ek_slot _ _ _ _ _ _ K2) by lia. done.
Qed.
End Equivalence.

Lemma dir_operations_match_old_witness :
  exists s1 ip1 s2 ip2, @vimixfs_dir_link_unchecked lfs small_store small_sb 1 [97] 7 (mk_fs small_fs empty_inode) = Ret (0, mk_fs s1 ip1) /\
    @vimixfs_dir_link_unchecked_old lfs small_store small_sb 1 [97] 7 (mk_fs small_fs empty_inode) = Ret (0, mk_fs s2 ip2) /\
    slots ip1 = slots ip2 /\ forall i, 0 <= i < slots ip1 -> @slot lfs small_store s1 ip1 i = @slot lfs small_store s2 ip2 i.
Proof.
  destruct small_budget as [Hr Hb].
  destruct (@dir_operations_match_old lfs small_store small_sb 1 small_layout small_area ltac:(unfold is_s; lia) small_fs empty_inode [97] 7
    (dr_ok _ _ _ _ small_dir) ltac:(unfold is_u; lia) ltac:(repeat constructor; lia) (Z.le_trans 9 10 _ ltac:(lia) Hr) (Z.le_trans 9 10 _ ltac:(lia) Hb))
    as (_ & r1 & s1 & ip1 & r2 & s2 & ip2 & H1 & H2 & Hsame & _).
  assert (option_map fst (match @vimixfs_dir_link_unchecked lfs small_store small_sb 1 [97] 7 (mk_fs small_fs empty_inode) with
    Ret x => Some x | _ => None end) = Some 0) as E1 by (vm_compute; reflexivity).
  assert (option_map fst (match @vimixfs_dir_link_unchecked_old lfs small_store small_sb 1 [97] 7 (mk_fs small_fs empty_inode) with
    Ret x => Some x | _ => None end) = Some 0) as E2 by (vm_compute; reflexivity).
  rewrite H1 in E1. rewrite H2 in E2. cbn in E1, E2. injection E1 as ->. injection E2 as ->.
  exists s1, ip1, s2, ip2. split; [exact H1|]. split; [exact H2|]. exact (Hsame eq_refl).
Defined.
