(* ===== verification/Names.v ===== *)
(** * Creating, linking and removing files (kernel/fs/vimixfs/vimixfs.c)

    Operations on several inodes of the file system: the directory and the file.  The state
    is the store with the list of the inodes in memory and their reference counts; one
    process at a time, whose locks are free ([Icache] has the interleavings, [Dir] the
    operations on one directory).  Memory for an inode is available.  The fields of
    [struct dentry] that the operations set are their results. *)
From stdpp Require Import list gmap.
From S2P Require Import Prelude Bytes Bio Log LogCommit Perm Txn Bmap Inode FileData Trunc Durable Dir.

Definition set_nlink (n : Z) (ip : vimixfs_inode) : vimixfs_inode :=
  mk_inode (i_inum ip) (i_mode ip) (i_dev ip) n (i_size ip) (i_uid ip) (i_gid ip) (i_ctime ip) (i_mtime ip) (addrs ip).
Definition set_dev (d : Z) (ip : vimixfs_inode) : vimixfs_inode :=
  mk_inode (i_inum ip) (i_mode ip) d (i_nlink ip) (i_size ip) (i_uid ip) (i_gid ip) (i_ctime ip) (i_mtime ip) (addrs ip).

(** [nlink] is an [int16_t]. *)
Abbreviation s16 := (swrap 16).

(** An inode of [fs_inode_list] with its reference count. *)
Record cached := mk_cached { c_ip : vimixfs_inode; c_ref : Z }.

Section Names.
Context {St : Type} `{!BlockStore St} (sb : vimixfs_superblock) (sb_dev : Z).

Record vfs := mk_vfs { v_st : St; v_inodes : list cached }.

Definition find_inode (inum : Z) (l : list cached) : option nat := fst <$> list_find (fun c => i_inum (c_ip c) = inum) l.

Definition on_disk_blocks {A} (m : ST St A) : ST vfs A :=
  fun v => '(a, s) ← m (v_st v); Ret (a, mk_vfs s (v_inodes v)).

(** An operation on the inode in memory that has the number. *)
Definition with_inode {A} (inum : Z) (m : ST (fs St) A) : ST vfs A :=
  fun v =>
    j ← load (find_inode inum (v_inodes v));
    c ← load (v_inodes v !! j);
    '(a, s) ← m (mk_fs (v_st v) (c_ip c));
    Ret (a, mk_vfs (fs_st s) (<[j := mk_cached (fs_ip s) (c_ref c)]> (v_inodes v))).

Definition modify_inodes (f : list cached -> list cached) : ST vfs unit := modify (fun v => mk_vfs (v_st v) (f (v_inodes v))).

(** [inode_get] and [kref_put]. *)
Definition add_ref (j : nat) (k : Z) : ST vfs unit :=
  modify_inodes (alter (fun c => mk_cached (c_ip c) (c_ref c + k)) j).

(** [vimixfs_iget] with the inode that [inode_init] makes. *)
Definition iget (inum : Z) : ST vfs unit :=
  v ← get;
  match find_inode inum (v_inodes v) with
  | Some j => add_ref j 1
  | None =>
      let ip := mk_inode inum 0 sb_dev 0 0 0 0 0 0 (replicate 22 0) in
      modify_inodes (fun l => l ++ [mk_cached ip 1]);;
      with_inode inum (vimixfs_read_inode_metadata sb sb_dev)
  end.

(** [vimixfs_iops_put] inside of a transaction. *)
Definition iput (inum : Z) : ST vfs unit :=
  v ← get;
  j ← lift (load (find_inode inum (v_inodes v)));
  add_ref j (-1);;
  v ← get;
  c ← lift (load (v_inodes v !! j));
  if negb (c_ref c =? 0) then mret tt
  else
    (if i_nlink (c_ip c) =? 0 then
       with_inode inum (vimixfs_trunc sb 0;; modify_ip (set_mode 0);; vimixfs_sops_write_inode sb sb_dev)
     else mret tt);;
    modify_inodes (delete j).

Definition get_inode (inum : Z) : ST vfs vimixfs_inode := with_inode inum get_ip.

(** [vimixfs_iops_create_internal]: the number of the new inode, of which the caller gets a
    reference; [euid] and [egid] are those of the process. *)
Definition vimixfs_iops_create_internal (iparent : Z) (name : list Z) (mode device euid egid time : Z) : ST vfs (option Z) :=
  r ← on_disk_blocks (vimixfs_sops_alloc_inode sb mode time);
  match r with
  | None => mret None
  | Some inum =>
      iget inum;;
      with_inode inum (
        modify_ip (set_dev (if negb (device =? INVALID_DEVICE) then device else sb_dev));;
        modify_ip (set_nlink 1);;
        modify_ip (set_owner euid egid);;
        vimixfs_sops_write_inode sb sb_dev);;
      ok ←
        (if S_ISDIR mode then
           r ← with_inode inum (vimixfs_dir_link_unchecked sb sb_dev [46] inum);
           if r <? 0 then mret false
           else r ← with_inode inum (vimixfs_dir_link_unchecked sb sb_dev [46; 46] iparent); mret (negb (r <? 0))
         else mret true);
      ok ←
        (if (ok : bool) then r ← with_inode iparent (vimixfs_dir_link_unchecked sb sb_dev name inum); mret (negb (r <? 0))
         else mret false);
      if (ok : bool) then
        (if S_ISDIR mode then
           with_inode iparent (modify_ip (fun ip => set_nlink (s16 (i_nlink ip + 1)) ip);; vimixfs_sops_write_inode sb sb_dev)
         else mret tt);;
        mret (Some inum)
      else
        with_inode inum (modify_ip (set_nlink 0);; vimixfs_sops_write_inode sb sb_dev);;
        iput inum;;
        mret None
  end.

(** The bodies of the transactions of [vimixfs_iops_unlink], [vimixfs_iops_rmdir] and
    [vimixfs_iops_link]. *)
Definition drop_link (parent inum off : Z) : ST vfs Z :=
  with_inode parent (clear_dirent sb sb_dev off);;
  with_inode inum (modify_ip (fun ip => set_nlink (s16 (i_nlink ip - 1)) ip);; vimixfs_sops_write_inode sb sb_dev);;
  iput inum;;
  mret 0.

Definition unlink_body (parent : Z) (name : list Z) : ST vfs Z :=
  r ← with_inode parent (vimixfs_lookup sb name);
  match r with
  | None => mret (- ENOENT)
  | Some (inum, off) =>
      iget inum;;
      ip ← get_inode inum;
      lift (panic_unless (negb (i_nlink ip <? 1)));;
      if S_ISDIR (i_mode ip) then iput inum;; mret (- EISDIR)
      else drop_link parent inum off
  end.

Definition rmdir_body (parent : Z) (name : list Z) : ST vfs Z :=
  r ← with_inode parent (vimixfs_lookup sb name);
  match r with
  | None => mret (- ENOENT)
  | Some (inum, off) =>
      iget inum;;
      ip ← get_inode inum;
      lift (panic_unless (negb (i_nlink ip <? 1)));;
      empty ← with_inode inum (isdirempty sb);
      if negb (empty : bool) then iput inum;; mret (- ENOTEMPTY)
      else drop_link parent inum off
  end.

Definition link_body (file_from dir_to : Z) (name : list Z) : ST vfs Z :=
  with_inode file_from (modify_ip (fun ip => set_nlink (s16 (i_nlink ip + 1)) ip);; vimixfs_sops_write_inode sb sb_dev);;
  r ← with_inode dir_to (vimixfs_dir_link sb sb_dev name file_from);
  if r <? 0 then
    with_inode file_from (modify_ip (fun ip => set_nlink (s16 (i_nlink ip - 1)) ip);; vimixfs_sops_write_inode sb sb_dev);;
    mret (- EOTHER)
  else
    v ← get;
    j ← lift (load (find_inode file_from (v_inodes v)));
    add_ref j 1;;
    mret 0.
End Names.
Arguments vfs St : clear implicits.
Arguments mk_vfs {St}.

(** ** Transactions

    Process [pid] on device [devs]. *)
Section Transactions.
Context (devs : Z -> bool) (dev pid : Z) (sb : vimixfs_superblock).

#[local] Instance names_store : BlockStore lfs := lfs_BlockStore devs dev pid (fun _ => 0).

Definition transaction {A} (m : ST (vfs lfs) A) : ST (vfs lfs) A :=
  on_disk_blocks (log_begin_fs_transaction pid);;
  a ← m;
  on_disk_blocks (log_end_fs_transaction devs pid);;
  mret a.

(** The reference of [vimixfs_iops_create_internal] becomes the one of the entry: the
    function takes one and puts the other. *)
Definition created (r : option Z) : ST (vfs lfs) (Z * option Z) :=
  match r with
  | None => mret (- EFAULT, None)
  | Some inum =>
      v ← get;
      j ← lift (load (find_inode inum (v_inodes v)));
      add_ref j 1;;
      iput sb dev inum;;
      mret (0, Some inum)
  end.

Definition vimixfs_iops_create (parent : Z) (name : list Z) (mode euid egid time : Z) : ST (vfs lfs) (Z * option Z) :=
  r ← transaction (vimixfs_iops_create_internal sb dev parent name mode INVALID_DEVICE euid egid time); created r.

Definition vimixfs_iops_mknod (parent : Z) (name : list Z) (mode device euid egid time : Z) : ST (vfs lfs) (Z * option Z) :=
  r ← transaction (vimixfs_iops_create_internal sb dev parent name mode device euid egid time); created r.

Definition vimixfs_iops_mkdir (parent : Z) (name : list Z) (mode euid egid time : Z) : ST (vfs lfs) (Z * option Z) :=
  r ← transaction (vimixfs_iops_create_internal sb dev parent name mode INVALID_DEVICE euid egid time); created r.

Definition vimixfs_iops_unlink (parent : Z) (name : list Z) : ST (vfs lfs) Z := transaction (unlink_body sb dev parent name).
Definition vimixfs_iops_rmdir (parent : Z) (name : list Z) : ST (vfs lfs) Z := transaction (rmdir_body sb dev parent name).
Definition vimixfs_iops_link (file_from dir_to : Z) (name : list Z) : ST (vfs lfs) Z :=
  transaction (link_body sb dev file_from dir_to name).

(** [vimixfs_fops_open] with [O_TRUNC] or without. *)
Definition vimixfs_fops_open (inum : Z) (o_trunc : bool) : ST (vfs lfs) Z :=
  ip ← get_inode inum;
  if (S_ISREG (i_mode ip) && o_trunc)%bool then
    transaction (with_inode inum (vimixfs_trunc sb 0;; vimixfs_sops_write_inode sb dev));; mret 0
  else mret 0.

(** Dropping a reference outside of a transaction: [vimixfs_iops_put] starts one if it
    has to delete the file. *)
Definition vimixfs_iops_put (inum : Z) : ST (vfs lfs) unit :=
  v ← get;
  j ← lift (load (find_inode inum (v_inodes v)));
  c ← lift (load (v_inodes v !! j));
  if ((c_ref c =? 1) && (i_nlink (c_ip c) =? 0))%bool then transaction (iput sb dev inum) else iput sb dev inum.
End Transactions.

(** ** Allocation of an inode *)

Section Alloc.
Context {St : Type} `{!BlockStore St} (sb : vimixfs_superblock) (sb_dev : Z).
Context (L : layout sb) (A : inode_area sb) (Hdev : is_s 32 sb_dev).

Abbreviation iblock n := (VIMIXFS_BLOCK_OF_INODE_P n sb).

(** The mode of inode [n] on the disk; 0 is a free inode. *)
Definition disk_mode (s : St) (n : Z) : Z := word (bs_view s (iblock n)) (32 * Z.to_nat (n mod 8)).

Lemma iblock_of b i : 0 <= b -> 0 <= i < 8 -> iblock (8 * b + i) = sb_inodestart sb + b /\ (8 * b + i) mod 8 = i.
Proof using.
  intros Hb Hi. unfold VIMIXFS_BLOCK_OF_INODE_P. change VIMIXFS_INODES_PER_BLOCK with 8.
  rewrite <- (Z.div_unique (8 * b + i) 8 b i), <- (Z.mod_unique (8 * b + i) 8 b i) by lia. lia.
Qed.

Lemma scan_run s b : is_block (bs_view s (sb_inodestart sb + b)) -> 0 <= b -> forall k i,
  0 <= i -> i + Z.of_nat k = 8 ->
  exists r, scan_inodes k b i (bs_view s (sb_inodestart sb + b)) = Ret r /\
    match r with
    | Some x => 0 <= x < 8 /\ first (fun n => n <> 0 /\ disk_mode s n = 0) (8 * b + i) (8 * (b + 1)) (Some (8 * b + x))
    | None => first (fun n => n <> 0 /\ disk_mode s n = 0) (8 * b + i) (8 * (b + 1)) None
    end.
Proof using.
  intros Hblk Hb. induction k as [|k IH]; intros i Hi Hk; cbn [scan_inodes].
  { eexists. split; [done|]. cbn. intros; lia. }
  assert (forall r, ~ (8 * b + i <> 0 /\ disk_mode s (8 * b + i) = 0) ->
    match r with
    | Some x => 0 <= x < 8 /\ first (fun n => n <> 0 /\ disk_mode s n = 0) (8 * b + (i + 1)) (8 * (b + 1)) (Some (8 * b + x))
    | None => first (fun n => n <> 0 /\ disk_mode s n = 0) (8 * b + (i + 1)) (8 * (b + 1)) None
    end ->
    match r with
    | Some x => 0 <= x < 8 /\ first (fun n => n <> 0 /\ disk_mode s n = 0) (8 * b + i) (8 * (b + 1)) (Some (8 * b + x))
    | None => first (fun n => n <> 0 /\ disk_mode s n = 0) (8 * b + i) (8 * (b + 1)) None
    end) as Hskip.
  { intros r Hno. rewrite Z.add_assoc. destruct r as [x|]; [intros [Hx Hf]; split; [done|]|intros Hf]; by apply first_skip. }
  unfold VIMIXFS_INUM_OF_DINODE. change VIMIXFS_INODES_PER_BLOCK with 8. replace (b * 8 + i) with (8 * b + i) by lia.
  destruct (IH (i + 1) ltac:(lia) ltac:(lia)) as (r & Hr & Hres). destruct (Z.eqb_spec (8 * b + i) 0) as [E0|E0].
  { exists r. split; [done|]. apply Hskip; [tauto|done]. }
  destruct (word_get (bs_view s (sb_inodestart sb + b)) (32 * Z.to_nat i) Hblk ltac:(lia)) as [Hw _].
  change DINODE_SIZE with 128. replace (Z.to_nat (128 * i)) with (4 * (32 * Z.to_nat i))%nat by lia. rewrite Hw. cbn [load mbind res_bind].
  destruct (iblock_of b i Hb ltac:(lia)) as [Eb Em].
  assert (disk_mode s (8 * b + i) = word (bs_view s (sb_inodestart sb + b)) (32 * Z.to_nat i)) as Hdm by (unfold disk_mode; by rewrite Eb, Em).
  rewrite <- Hdm. change VIMIXFS_INVALID_MODE with 0. destruct (Z.eqb_spec (disk_mode s (8 * b + i)) 0) as [Ez|Ez].
  - exists (Some i). split; [done|]. split; [lia|]. cbn. split; [lia|]. split; [done|]. intros; lia.
  - exists r. split; [done|]. apply Hskip; [tauto|done].
Qed.

(** Inode [n] is allocated: the first one that was free. *)
Definition inode_allocated (s : St) (mode time n : Z) (s' : St) : Prop :=
  inum_ok sb n /\ first (fun n => n <> 0 /\ disk_mode s n = 0) 0 (8 * sb_ninode_blocks sb) (Some n) /\
  eff s s' (fun bn => bn = iblock n) 1 /\ (is_block (bs_view s' (iblock n)) /\ bs_logged s' (iblock n) = true) /\
  disk_inode sb sb_dev s' n = Some (mk_inode n mode sb_dev 0 0 0 0 time time (replicate 22 0)) /\
  forall n', 0 <= n' -> n' <> n -> disk_inode sb sb_dev s' n' = disk_inode sb sb_dev s n'.

Lemma new_inode_words n mode time :
  is_u 32 mode -> is_s 64 time ->
  let ws := dinode_words (mk_inode 0 mode 0 0 0 0 0 time time (replicate 22 0)) INVALID_DEVICE in
  length ws = 32%nat /\ Forall (is_u 32) ws /\
  inode_of_words sb_dev n ws = Some (mk_inode n mode sb_dev 0 0 0 0 time time (replicate 22 0)).
Proof using.
  intros Hm Ht ws. split; [done|]. split.
  - repeat (apply Forall_cons; split; [apply uwrap_range; lia|]). apply Forall_replicate. unfold is_u. lia.
  - unfold ws, dinode_words. cbn [i_mode i_nlink i_size i_uid i_gid i_ctime i_mtime addrs app inode_of_words].
    rewrite (uwrap_id 32 mode) by done. change (u32 INVALID_DEVICE) with 0. change (u32 0) with 0.
    rewrite !time_words by done. done.
Qed.

(** The state in which the inode blocks can be used. *)
Definition inodes_ready (s : St) : Prop :=
  bs_inv s /\ forall b, 0 <= b < sb_ninode_blocks sb -> is_block (bs_view s (sb_inodestart sb + b)) /\ bs_free s (sb_inodestart sb + b).

Lemma inodes_ready_same s s' : inodes_ready s -> eff s s' (fun _ => False) 0 -> inodes_ready s'.
Proof using.
  intros [I H] He. split; [apply He|]. intros b Hb. destruct (H b Hb) as [H1 H2]. split; [|by apply He].
  by rewrite (e_view _ _ _ _ He) by intros [].
Qed.

Lemma alloc_inode_loop_run mode time : is_u 32 mode -> is_s 64 time -> forall k s b,
  inodes_ready s -> 0 < bs_room s -> 0 < bs_bufs s -> 0 <= b -> b + Z.of_nat k = sb_ninode_blocks sb ->
  (forall n, 0 <= n < 8 * b -> ~ (n <> 0 /\ disk_mode s n = 0)) ->
  exists r s', alloc_inode_loop sb k b mode time s = Ret (r, s') /\
    match r with
    | Some n => inode_allocated s mode time n s'
    | None => eff s s' (fun _ => False) 0 /\ first (fun n => n <> 0 /\ disk_mode s n = 0) 0 (8 * sb_ninode_blocks sb) None
    end.
Proof using L A.
  intros Hm Ht. induction k as [|k IH]; intros s b R Hroom Hbufs Hb Hk Hbefore; cbn [alloc_inode_loop].
  { exists None, s. split; [done|]. split; [apply eff_refl, R|]. cbn. intros n Hn. apply Hbefore. lia. }
  destruct R as [I R]. destruct (R b ltac:(lia)) as [Hblk Hfree]. set (bn := sb_inodestart sb + b) in *.
  destruct (read_run s bn I Hfree Hbufs) as (bp & s1 & Hread & I1 & Hh & Hv & _).
  rewrite (bind_run _ _ _ _ _ Hread). rewrite (bind_run _ _ _ (bs_view s bn) s1) by (rewrite <- Hv; by apply (bs_data_run s1 bp bn true)).
  destruct (scan_run s b Hblk Hb 8 0 ltac:(lia) ltac:(lia)) as (r & Er & Hr). change (Z.to_nat VIMIXFS_INODES_PER_BLOCK) with 8%nat. fold bn in Er.
  rewrite (bind_run _ _ _ r s1) by (by rewrite Er). rewrite Z.add_0_r in Hr. destruct r as [x|].
  - destruct Hr as [Hx Hf]. destruct (iblock_of b x Hb Hx) as [Eb Em]. set (n := 8 * b + x) in *.
    assert (inum_ok sb n) as Hn. { unfold inum_ok, n. cbn in Hf. lia. }
    destruct (new_inode_words n mode time Hm Ht) as (Hlen & Hws & Hdec). set (ws := dinode_words _ _) in *.
    destruct (put_inode_run sb sb_dev L A s n ws Hn ltac:(by rewrite Eb) Hlen Hws) as (d & Hput & Hd & Hget & Hothers).
    unfold VIMIXFS_DINODE_OFFSET_IN_BLOCK in Hput, Hget. change VIMIXFS_INODES_PER_BLOCK with 8 in *. rewrite Em in Hput, Hget. rewrite Eb in Hput, Hothers. fold bn in Hput, Hothers.
    rewrite (bind_run _ _ _ d s1) by (by rewrite Hput).
    destruct (write_back_run s s1 bp bn d I Hfree Hbufs Hroom Hread) as (s2 & s3 & s4 & E2 & E3 & E4 & He & Hv4 & Hl4 & _).
    rewrite (bind_run _ _ _ _ _ E2), (bind_run _ _ _ _ _ E3), (bind_run _ _ _ _ _ E4).
    exists (Some n), s4. split. { unfold VIMIXFS_INUM_OF_DINODE. change VIMIXFS_INODES_PER_BLOCK with 8. unfold n. by replace (b * 8 + x) with (8 * b + x) by lia. }
    split; [done|]. split.
    { apply (first_app _ _ (8 * b)); [lia|done|]. destruct Hf as (H1 & H2 & H3). split; [lia|]. split; [done|done]. }
    rewrite Eb. fold bn. split; [done|]. split; [by rewrite Hv4|]. split.
    + unfold disk_inode, VIMIXFS_DINODE_OFFSET_IN_BLOCK. change VIMIXFS_INODES_PER_BLOCK with 8. rewrite Eb, Em. fold bn. rewrite Hv4, Hget. exact Hdec.
    + intros n' H0 Hne. apply Hothers; [done| |done|done]. intros b' Hb'. by apply (e_view _ _ _ _ He).
  - destruct (read_release_run s s1 bp bn I Hfree Hbufs Hread) as (s2 & Hrel & He). rewrite (bind_run _ _ _ _ _ Hrel).
    pose proof (e_room _ _ _ _ He). pose proof (e_bufs _ _ _ _ He).
    assert (forall n, disk_mode s2 n = disk_mode s n) as Hdm by (intros n; unfold disk_mode; by rewrite (e_view _ _ _ _ He) by intros []).
    destruct (IH s2 (b + 1) (inodes_ready_same s s2 (conj I R) He) ltac:(lia) ltac:(lia) ltac:(lia) ltac:(lia)) as (r & s' & Hrun & Hres).
    { intros n Hn. rewrite Hdm. destruct (decide (n < 8 * b)); [apply Hbefore; lia|]. apply Hr. lia. }
    exists r, s'. split; [done|].
    assert (forall r, first (fun n => n <> 0 /\ disk_mode s2 n = 0) 0 (8 * sb_ninode_blocks sb) r ->
      first (fun n => n <> 0 /\ disk_mode s n = 0) 0 (8 * sb_ninode_blocks sb) r) as Hfirst
      by (intros r'; apply first_ext; intros n; by rewrite Hdm).
    destruct r as [n|].
    + destruct Hres as (H1 & H2 & H3 & H4 & H5 & H6). split; [done|]. split; [auto|]. split; [by apply (eff_same s s2)|]. split; [done|].
      split; [done|]. intros n' Hn' Hne. rewrite H6 by done. unfold disk_inode. by rewrite (e_view _ _ _ _ He) by intros [].
    + destruct Hres as [H1 H2]. split; [by apply (eff_same s s2)|auto].
Qed.

Lemma alloc_inode_run s mode time :
  is_u 32 mode -> is_s 64 time -> inodes_ready s -> 0 < bs_room s -> 0 < bs_bufs s ->
  exists r s', vimixfs_sops_alloc_inode sb mode time s = Ret (r, s') /\
    match r with
    | Some n => inode_allocated s mode time n s'
    | None => eff s s' (fun _ => False) 0 /\ first (fun n => n <> 0 /\ disk_mode s n = 0) 0 (8 * sb_ninode_blocks sb) None
    end.
Proof using L A.
  intros Hm Ht R Hr Hb. unfold vimixfs_sops_alloc_inode. destruct A as (? & ? & ?). apply alloc_inode_loop_run; try done; [lia|]. intros n Hn. lia.
Qed.

(** ** Inodes in memory *)

Lemma find_inode_inums n (l l' : list cached) :
  map (fun c => i_inum (c_ip c)) l = map (fun c => i_inum (c_ip c)) l' -> find_inode n l = find_inode n l'.
Proof using.
  revert l'. induction l as [|c l IH]; intros [|c' l'] H; try done. cbn in H. injection H as H1 H2. unfold find_inode in *. cbn.
  rewrite H1. case_decide; [done|]. specialize (IH l' H2). destruct (list_find _ l) as [[? ?]|], (list_find _ l') as [[? ?]|]; cbn in *; naive_solver.
Qed.

Lemma find_inode_insert n (l : list cached) j c c' :
  l !! j = Some c -> i_inum (c_ip c') = i_inum (c_ip c) -> find_inode n (<[j := c']> l) = find_inode n l.
Proof using.
  intros Hj E. apply find_inode_inums. change (map (fun c => i_inum (c_ip c)) (<[j := c']> l)) with ((fun c => i_inum (c_ip c)) <$> <[j := c']> l).
  rewrite list_fmap_insert. apply list_insert_id. by rewrite list_lookup_fmap, Hj, E.
Qed.

Lemma find_inode_app n (l : list cached) j k : find_inode n l = Some j -> find_inode n (l ++ k) = Some j.
Proof using.
  unfold find_inode. intros ([i c] & Hf & ->)%fmap_Some. by rewrite (list_find_app_l _ _ _ _ _ Hf).
Qed.

Lemma find_inode_new n (l : list cached) c : (forall c', c' ∈ l -> i_inum (c_ip c') <> n) -> i_inum (c_ip c) = n ->
  find_inode n (l ++ [c]) = Some (length l).
Proof using.
  intros Hno Hc. unfold find_inode. rewrite list_find_app_r.
  - cbn. by rewrite decide_True.
  - apply list_find_None, Forall_forall. exact Hno.
Qed.

Lemma with_inode_run {B} (m : ST (fs St) B) inum v j c a s' :
  find_inode inum (v_inodes v) = Some j -> v_inodes v !! j = Some c -> m (mk_fs (v_st v) (c_ip c)) = Ret (a, s') ->
  with_inode inum m v = Ret (a, mk_vfs (fs_st s') (<[j := mk_cached (fs_ip s') (c_ref c)]> (v_inodes v))).
Proof using. intros H1 H2 H3. unfold with_inode. rewrite H1. cbn. rewrite H2. cbn. by rewrite H3. Qed.

(** Writing an inode that is not the one of the directory keeps the directory. *)
Lemma inode_write_data s s' ip n k :
  quiet sb s ip -> inum_ok sb n -> eff s s' (fun bn => bn = iblock n) k -> is_block (bs_view s' (iblock n)) -> data_only sb s ip s'.
Proof using L A.
  intros Q Hn He Hblk. destruct (iblock_range sb L A n Hn) as (Hr & _). destruct (meta_block sb L s ip _ Q Hr) as (_ & Hnb & Hni & Hnf).
  apply (eff_data sb L s ip s' _ k Q He); [by intros bn ->|by intros bn ->|]. intros bn. destruct (decide (bn = iblock n)); auto.
Qed.

Lemma dir_rep_eff s s' ip m n k :
  dir_rep sb s ip m -> inum_ok sb n -> eff s s' (fun bn => bn = iblock n) k -> is_block (bs_view s' (iblock n)) -> dir_rep sb s' ip m.
Proof using L A.
  intros R Hn He Hblk. pose proof (dr_ok _ _ _ _ R) as D. pose proof (d_quiet _ _ _ D) as Q. destruct (iblock_range sb L A n Hn) as (Hr & _).
  destruct (meta_block sb L s ip _ Q Hr) as (_ & Hnb & Hni & Hnf).
  pose proof (inode_write_data s s' ip n k Q Hn He Hblk) as DO.
  assert (forall b, 0 <= b < VIMIXFS_MAX_FILE_SIZE_BLOCKS -> file_block s' ip b = file_block s ip b) as Hfb
    by (intros b Hb; apply (d_addr _ _ _ _ DO); by apply file_place_valid).
  pose proof (d_max _ _ _ D) as Hmax. pose proof (d_size _ _ _ D) as Hsz.
  apply (dir_rep_ext sb s ip m); [done| |done|].
  - destruct D as [D1 D2 D3 D4 D5 D6]. split; try done; [apply DO|]. intros i Hi. rewrite Hfb by (apply block_of_byte; lia). by apply D6.
  - intros j Hj. unfold slot, file_bytes. apply map_ext_in. intros i [Hi1 Hi2]%list_elem_of_In%elem_of_seqZ. unfold file_byte.
    assert (0 <= i / 1024 < VIMIXFS_MAX_FILE_SIZE_BLOCKS) as Hb by (apply block_of_byte; lia). rewrite Hfb by done.
    rewrite (e_view _ _ _ _ He); [done|]. by apply Hnf.
Qed.

Lemma dir_rep_same s s' ip m : eff s s' (fun _ => False) 0 -> dir_rep sb s ip m -> dir_rep sb s' ip m.
Proof using.
  intros He R. apply (dir_rep_ext sb s ip m); [done|apply (dir_ok_same sb s); [done|apply R]|done|].
  intros i _. by apply slot_inum_same.
Qed.

(** All blocks of the inodes are ready in a directory that is not in use. *)
Lemma dir_inodes_ready s ip : dir_ok sb s ip -> inodes_ready s.
Proof using L A.
  intros D. destruct (d_quiet _ _ _ D) as [I Hok _ Hf]. split; [done|]. intros b Hb.
  destruct (iblock_range sb L A (8 * b + 1)) as (Hr1 & Hr2 & _); [unfold inum_ok; lia|]. destruct (iblock_of b 1 ltac:(lia) ltac:(lia)) as [Eb _].
  rewrite Eb in *. split; [apply Hok; lia|apply Hf; lia].
Qed.

Lemma find_inode_None n (l : list cached) : (forall c, c ∈ l -> i_inum (c_ip c) <> n) -> find_inode n l = None.
Proof using. intros H. unfold find_inode. apply fmap_None, list_find_None, Forall_forall. exact H. Qed.

(** Reading an inode that is not in memory. *)
Lemma iget_new_run s l n ip :
  (forall c, c ∈ l -> i_inum (c_ip c) <> n) -> inodes_ready s -> inum_ok sb n -> 0 < bs_bufs s -> disk_inode sb sb_dev s n = Some ip ->
  exists s', iget sb sb_dev n (mk_vfs s l) = Ret (tt, mk_vfs s' (l ++ [mk_cached ip 1])) /\ eff s s' (fun _ => False) 0.
Proof using.
  intros Hno [I R] Hn Hb Hd. unfold iget. rewrite (bind_run get _ _ _ _ eq_refl). cbn [v_inodes]. rewrite find_inode_None by done.
  set (ip0 := mk_inode n 0 sb_dev 0 0 0 0 0 0 (replicate 22 0)).
  assert (bs_free s (iblock n)) as Hfree.
  { unfold inum_ok in Hn. pose proof (Z.div_mod n 8 ltac:(lia)). pose proof (Z.mod_pos_bound n 8 ltac:(lia)).
    destruct (iblock_of (n / 8) (n mod 8)) as [Eb _]; [apply Z.div_pos; lia|lia|]. replace (8 * (n / 8) + n mod 8) with n in Eb by lia.
    rewrite Eb. apply R. split; [apply Z.div_pos; lia|]. apply Z.div_lt_upper_bound; lia. }
  destruct (read_inode_run sb sb_dev s ip0 ip I Hfree Hb Hd) as (s' & Hrun & He). exists s'. split; [|done].
  rewrite (bind_run _ _ _ tt (mk_vfs s (l ++ [mk_cached ip0 1]))) by done.
  rewrite (with_inode_run _ n _ (length l) (mk_cached ip0 1) tt (mk_fs s' ip)); [| | |exact Hrun]; cbn [v_inodes].
  - cbn [fs_st fs_ip c_ref]. by rewrite insert_app_r_alt, Nat.sub_diag by lia.
  - by apply find_inode_new.
  - by rewrite lookup_app_r, Nat.sub_diag by lia.
Qed.

(** The operations on one inode that end with writing it. *)
Lemma update_run s ip f :
  inodes_ready s -> 0 < bs_room s -> 0 < bs_bufs s -> inode_ok (f ip) -> i_inum (f ip) = i_inum ip -> inum_ok sb (i_inum ip) ->
  exists s', (modify_ip f;; vimixfs_sops_write_inode sb sb_dev) (mk_fs s ip) = Ret (tt, mk_fs s' (f ip)) /\
    eff s s' (fun bn => bn = iblock (i_inum ip)) 1 /\ is_block (bs_view s' (iblock (i_inum ip))) /\
    disk_inode sb sb_dev s' (i_inum ip) = Some (f ip) /\
    (forall n, 0 <= n -> n <> i_inum ip -> disk_inode sb sb_dev s' n = disk_inode sb sb_dev s n) /\
    (bs_logged s (iblock (i_inum ip)) = true -> bs_room s <= bs_room s' /\ bs_bufs s <= bs_bufs s').
Proof using L A Hdev.
  intros [I R] Hr Hb Hok Ei Hn. rewrite (bind_run _ _ _ tt (mk_fs s (f ip))) by done.
  assert (is_block (bs_view s (iblock (i_inum ip))) /\ bs_free s (iblock (i_inum ip))) as [Hblk Hfree].
  { unfold inum_ok in Hn. set (n := i_inum ip) in *. pose proof (Z.div_mod n 8 ltac:(lia)). pose proof (Z.mod_pos_bound n 8 ltac:(lia)).
    destruct (iblock_of (n / 8) (n mod 8)) as [Eb _]; [apply Z.div_pos; lia|lia|]. replace (8 * (n / 8) + n mod 8) with n in Eb by lia.
    rewrite Eb. apply R. split; [apply Z.div_pos; lia|]. apply Z.div_lt_upper_bound; lia. }
  destruct (write_inode_run sb sb_dev L A Hdev s (f ip) I) as (s' & Hrun & He); rewrite ?Ei; try done.
  rewrite Ei in He. by exists s'.
Qed.

(** The last reference to a file without blocks and links. *)
Lemma trunc_empty_run s ip : addrs ip = replicate 22 0 -> i_size ip = 0 -> vimixfs_trunc sb 0 (mk_fs s ip) = Ret (tt, mk_fs s ip).
Proof using. destruct ip. cbn. intros -> ->. reflexivity. Qed.

Lemma iput_free_run s l ip :
  (forall c, c ∈ l -> i_inum (c_ip c) <> i_inum ip) -> addrs ip = replicate 22 0 -> i_size ip = 0 -> i_nlink ip = 0 ->
  inodes_ready s -> 0 < bs_room s -> 0 < bs_bufs s -> inode_ok ip -> inum_ok sb (i_inum ip) ->
  exists s', iput sb sb_dev (i_inum ip) (mk_vfs s (l ++ [mk_cached ip 1])) = Ret (tt, mk_vfs s' l) /\
    eff s s' (fun bn => bn = iblock (i_inum ip)) 1 /\ is_block (bs_view s' (iblock (i_inum ip))) /\
    disk_inode sb sb_dev s' (i_inum ip) = Some (set_mode 0 ip) /\
    (forall n, 0 <= n -> n <> i_inum ip -> disk_inode sb sb_dev s' n = disk_inode sb sb_dev s n).
Proof using L A Hdev.
  intros Hno Ha Hs Hl R Hr Hb Hok Hn.
  destruct (update_run s ip (set_mode 0) R Hr Hb) as (s' & Hrun & He1 & He2 & He3 & He4 & _); [by destruct Hok; split|done|done|].
  exists s'. split; [|by split].
  unfold iput. rewrite (bind_run get _ _ _ _ eq_refl). cbn [v_inodes].
  assert (forall r, find_inode (i_inum ip) (l ++ [mk_cached ip r]) = Some (length l)) as Hf by (intros r; by apply find_inode_new).
  rewrite (bind_run _ _ _ (length l) (mk_vfs s (l ++ [mk_cached ip 1]))) by (by rewrite Hf).
  rewrite (bind_run _ _ _ tt (mk_vfs s (l ++ [mk_cached ip 0]))).
  2: { unfold add_ref, modify_inodes, modify. cbn [v_st v_inodes]. do 3 f_equal. by rewrite alter_app_r_alt, Nat.sub_diag by lia. }
  rewrite (bind_run get _ _ _ _ eq_refl). cbn [v_inodes].
  rewrite (bind_run _ _ _ (mk_cached ip 0) (mk_vfs s (l ++ [mk_cached ip 0]))) by (by rewrite lookup_app_r, Nat.sub_diag by lia).
  cbn [c_ref c_ip]. cbn [Z.eqb negb]. rewrite Hl. cbn [Z.eqb].
  rewrite (bind_run _ _ _ tt (mk_vfs s' (l ++ [mk_cached (set_mode 0 ip) 0]))).
  - unfold modify_inodes, modify. cbn [v_st v_inodes]. do 3 f_equal. rewrite delete_take_drop, take_app_length, drop_ge by (rewrite length_app; cbn; lia). by rewrite app_nil_r.
  - rewrite (with_inode_run _ (i_inum ip) _ (length l) (mk_cached ip 0) tt (mk_fs s' (set_mode 0 ip))); cbn [v_inodes v_st c_ip].
    + cbn [fs_st fs_ip c_ref]. by rewrite insert_app_r_alt, Nat.sub_diag by lia.
    + apply Hf.
    + by rewrite lookup_app_r, Nat.sub_diag by lia.
    + rewrite (bind_run _ _ _ _ _ (trunc_empty_run s ip Ha Hs)). exact Hrun.
Qed.

(** ** Creating a file *)

Lemma find_inode_Some n (l : list cached) j : find_inode n l = Some j -> exists c, l !! j = Some c /\ i_inum (c_ip c) = n.
Proof using. unfold find_inode. intros ([i c] & Hf & ->)%fmap_Some. apply list_find_Some in Hf as (H1 & H2 & _). by exists c. Qed.

(** The directory is in memory at [j]; the inodes in memory are allocated on the disk. *)
Record dir_in (v : vfs St) (iparent : Z) (j : nat) (d : cached) (m : gmap (list Z) Z) : Prop := {
  di_find : find_inode iparent (v_inodes v) = Some j;
  di_at : v_inodes v !! j = Some d;
  di_rep : dir_rep sb (v_st v) (c_ip d) m;
  di_modes c : c ∈ v_inodes v -> disk_mode (v_st v) (i_inum (c_ip c)) <> 0
}.

Lemma di_inum v iparent j d m : dir_in v iparent j d m -> i_inum (c_ip d) = iparent.
Proof using. intros [Hf Hat _ _]. destruct (find_inode_Some _ _ _ Hf) as (c & Hc & <-). congruence. Qed.

Definition new_inode (n mode device euid egid time : Z) : vimixfs_inode :=
  mk_inode n mode (if negb (device =? INVALID_DEVICE) then device else sb_dev) 1 0 euid egid time time (replicate 22 0).

Lemma new_inode_ok n mode device euid egid time :
  sb_dev <> INVALID_DEVICE -> is_u 32 mode -> is_s 32 device -> is_s 32 euid -> is_s 32 egid -> is_s 64 time ->
  inode_ok (new_inode n mode device euid egid time).
Proof using Hdev.
  intros Hd Hm Hde Hu Hg Ht. unfold new_inode. split; cbn; try done; try lia.
  - destruct (Z.eqb_spec device INVALID_DEVICE); done.
  - split; [done|]. apply (Forall_replicate (is_u 32) 22 0). unfold is_u. lia.
Qed.

(** From the allocation to the inode with its owner. *)
Lemma new_file_run s l n mode device euid egid time s1 d m :
  inode_allocated s mode time n s1 -> (forall c, c ∈ l -> i_inum (c_ip c) <> n) -> dir_rep sb s d m ->
  sb_dev <> INVALID_DEVICE -> is_u 32 mode -> is_s 32 device -> is_s 32 euid -> is_s 32 egid -> is_s 64 time ->
  3 <= bs_room s -> 3 <= bs_bufs s ->
  let ip := new_inode n mode device euid egid time in
  exists s2 s3, iget sb sb_dev n (mk_vfs s1 l) = Ret (tt, mk_vfs s2 (l ++ [mk_cached (mk_inode n mode sb_dev 0 0 0 0 time time (replicate 22 0)) 1])) /\
    with_inode n (
        modify_ip (set_dev (if negb (device =? INVALID_DEVICE) then device else sb_dev));;
        modify_ip (set_nlink 1);;
        modify_ip (set_owner euid egid);;
        vimixfs_sops_write_inode sb sb_dev) (mk_vfs s2 (l ++ [mk_cached (mk_inode n mode sb_dev 0 0 0 0 time time (replicate 22 0)) 1]))
      = Ret (tt, mk_vfs s3 (l ++ [mk_cached ip 1])) /\
    dir_rep sb s3 d m /\ disk_inode sb sb_dev s3 n = Some ip /\
    (forall n', 0 <= n' -> n' <> n -> disk_inode sb sb_dev s3 n' = disk_inode sb sb_dev s n') /\
    bs_room s - 1 <= bs_room s3 /\ bs_bufs s - 1 <= bs_bufs s3.
Proof using L A Hdev.
  intros (Hn & _ & He1 & [Hb1 Hl1] & Hd1 & Ho1) Hno R Hsd Hm Hde Hu Hg Ht Hr Hb ip. pose proof (e_room _ _ _ _ He1). pose proof (e_bufs _ _ _ _ He1).
  pose proof (dir_rep_eff s s1 d m n 1 R Hn He1 Hb1) as R1.
  set (ip0 := mk_inode n mode sb_dev 0 0 0 0 time time (replicate 22 0)) in *.
  destruct (iget_new_run s1 l n ip0 Hno (dir_inodes_ready s1 d (dr_ok _ _ _ _ R1)) Hn ltac:(lia) Hd1) as (s2 & Hget & He2).
  pose proof (e_room _ _ _ _ He2). pose proof (e_bufs _ _ _ _ He2).
  assert (forall bn, bs_view s2 bn = bs_view s1 bn) as Hv by (intros bn; apply (e_view _ _ _ _ He2); intros []).
  pose proof (dir_rep_same s1 s2 d m He2 R1) as R2.
  destruct (update_run s2 ip0 (fun _ => ip) (dir_inodes_ready s2 d (dr_ok _ _ _ _ R2)) ltac:(lia) ltac:(lia)) as (s3 & Hrun & He3 & Hb3 & Hd3 & Ho3 & Hagain);
    [by apply new_inode_ok|done|done|]. specialize (Hagain (e_logged _ _ _ _ He2 _ Hl1)).
  pose proof (e_room _ _ _ _ He3). pose proof (e_bufs _ _ _ _ He3). exists s2, s3. split; [exact Hget|]. split; [|split; [|split; [|split]]].
  - rewrite (with_inode_run _ n _ (length l) (mk_cached ip0 1) tt (mk_fs s3 ip)); [| | |exact Hrun]; cbn [v_inodes].
    + cbn [fs_st fs_ip c_ref]. by rewrite insert_app_r_alt, Nat.sub_diag by lia.
    + by apply find_inode_new.
    + by rewrite lookup_app_r, Nat.sub_diag by lia.
  - by apply (dir_rep_eff s2 s3 d m n 1).
  - exact Hd3.
  - intros n' Hge Hne. rewrite Ho3 by done. rewrite <- Ho1 by done. unfold disk_inode. by rewrite Hv.
  - lia.
Qed.

Lemma dir_add_run s ip m name inum :
  dir_rep sb s ip m -> m !! cstr 60 name = None -> Forall (is_u 8) name -> is_u 32 inum -> inum <> 0 -> 9 <= bs_room s -> 9 <= bs_bufs s ->
  exists r s' ip', vimixfs_dir_link_unchecked sb sb_dev name inum (mk_fs s ip) = Ret (r, mk_fs s' ip') /\ i_inum ip' = i_inum ip /\
    (forall n, inum_ok sb n -> n <> i_inum ip -> disk_inode sb sb_dev s' n = disk_inode sb sb_dev s n) /\
    bs_bufs s - 9 <= bs_bufs s' /\
    (r = 0 /\ dir_rep sb s' ip' (<[cstr 60 name := inum]> m) /\
       (disk_inode sb sb_dev s (i_inum ip) = Some ip -> disk_inode sb sb_dev s' (i_inum ip) = Some ip') \/
     r = - EOTHER /\ dir_rep sb s' ip' m /\ bs_room s - 6 <= bs_room s' /\
       (full sb s' \/ VIMIXFS_MAX_FILE_SIZE_BLOCKS * 1024 < i_size ip + 64)).
Proof using L A Hdev.
  intros R Hm Hname Hi Hnz Hr Hb. destruct (dir_link_unchecked_run sb sb_dev L A Hdev s ip name inum (dr_ok _ _ _ _ R) Hi Hname Hr Hb)
    as (r & s' & ip' & Hrun & [(-> & j & Hj & [Hfree _] & Hset)|(-> & Hk & _)]); eexists _, s', ip'; (split; [exact Hrun|]).
  - split; [by rewrite (es_meta _ _ _ _ _ _ _ _ Hset)|]. split; [apply Hset|]. split; [apply Hset|]. left. split; [done|].
    split; [by apply (dir_rep_insert sb sb_dev s ip m j name inum)|apply Hset].
  - split; [apply Hk|]. split; [apply Hk|]. split; [apply Hk|]. right. split; [done|]. split; [|split; apply Hk].
    apply (dir_rep_ext sb s ip); [done|apply Hk|apply Hk|apply Hk].
Qed.

(** The end of the failing path: the inode becomes free again. *)
Lemma create_undo_run s l d m ip :
  (forall c, c ∈ l -> i_inum (c_ip c) <> i_inum ip) -> addrs ip = replicate 22 0 -> i_size ip = 0 -> dir_rep sb s d m ->
  2 <= bs_room s -> 2 <= bs_bufs s -> inode_ok ip -> inum_ok sb (i_inum ip) ->
  exists s1 s', with_inode (i_inum ip) (modify_ip (set_nlink 0);; vimixfs_sops_write_inode sb sb_dev) (mk_vfs s (l ++ [mk_cached ip 1]))
      = Ret (tt, mk_vfs s1 (l ++ [mk_cached (set_nlink 0 ip) 1])) /\
    iput sb sb_dev (i_inum ip) (mk_vfs s1 (l ++ [mk_cached (set_nlink 0 ip) 1])) = Ret (tt, mk_vfs s' l) /\
    dir_rep sb s' d m /\ (full sb s -> full sb s') /\
    disk_inode sb sb_dev s' (i_inum ip) = Some (set_mode 0 (set_nlink 0 ip)) /\
    (forall n, 0 <= n -> n <> i_inum ip -> disk_inode sb sb_dev s' n = disk_inode sb sb_dev s n).
Proof using L A Hdev.
  intros Hno Ha Hs R Hr Hb Hok Hn. assert (inode_ok (set_nlink 0 ip)) as Hok1 by (destruct Hok; split; cbn; try done; lia).
  destruct (update_run s ip (set_nlink 0) (dir_inodes_ready s d (dr_ok _ _ _ _ R)) ltac:(lia) ltac:(lia) Hok1 eq_refl Hn)
    as (s1 & Hrun & He1 & Hb1 & Hd1 & Ho1 & _). pose proof (e_room _ _ _ _ He1). pose proof (e_bufs _ _ _ _ He1).
  pose proof (dir_rep_eff s s1 d m _ 1 R Hn He1 Hb1) as R1.
  destruct (iput_free_run s1 l (set_nlink 0 ip) Hno Ha Hs eq_refl (dir_inodes_ready s1 d (dr_ok _ _ _ _ R1)) ltac:(lia) ltac:(lia) Hok1 Hn)
    as (s' & Hput & He2 & Hb2 & Hd2 & Ho2). change (i_inum (set_nlink 0 ip)) with (i_inum ip) in *.
  exists s1, s'. split; [|split; [exact Hput|]; split; [by apply (dir_rep_eff s1 s' d m (i_inum ip) 1)|]; split; [|split; [exact Hd2|]]].
  - rewrite (with_inode_run _ (i_inum ip) _ (length l) (mk_cached ip 1) tt (mk_fs s1 (set_nlink 0 ip))); [| | |exact Hrun]; cbn [v_inodes].
    + cbn [fs_st fs_ip c_ref]. by rewrite insert_app_r_alt, Nat.sub_diag by lia.
    + by apply find_inode_new.
    + by rewrite lookup_app_r, Nat.sub_diag by lia.
  - intros Hf b Hbb. pose proof (inode_write_data s s1 d _ 1 (d_quiet _ _ _ (dr_ok _ _ _ _ R)) Hn He1 Hb1) as D1.
    pose proof (inode_write_data s1 s' d (i_inum ip) 1 (d_quiet _ _ _ (dr_ok _ _ _ _ R1)) Hn He2 Hb2) as D2.
    rewrite (d_used _ _ _ _ D2), (d_used _ _ _ _ D1) by done. by apply Hf.
  - intros n Hge Hne. rewrite Ho2, Ho1 by done. done.
Qed.

(** C12: creating a file that is not a directory, with a name the directory does not have,
    takes the first free inode, writes it to the disk with the mode, the owner and one
    link and enters it under the name.  If no inode is free nothing changes; if the
    directory cannot grow the names are as before and the inode is free again.  No other
    inode changes. *)
Theorem vimixfs_create_file v iparent j d m name mode device euid egid time :
  dir_in v iparent j d m -> m !! cstr 60 name = None -> Forall (is_u 8) name -> S_ISDIR mode = false ->
  sb_dev <> INVALID_DEVICE -> is_u 32 mode -> is_s 32 device -> is_s 32 euid -> is_s 32 egid -> is_s 64 time ->
  8 * sb_ninode_blocks sb <= 2 ^ 32 -> 10 <= bs_room (v_st v) -> 12 <= bs_bufs (v_st v) ->
  exists r s', let free n := n <> 0 /\ disk_mode (v_st v) n = 0 in
    match r with
    | Some n =>
        exists d', let ip := new_inode n mode device euid egid time in
        vimixfs_iops_create_internal sb sb_dev iparent name mode device euid egid time v
          = Ret (r, mk_vfs s' (<[j := mk_cached d' (c_ref d)]> (v_inodes v) ++ [mk_cached ip 1])) /\
        first free 0 (8 * sb_ninode_blocks sb) (Some n) /\
        dir_rep sb s' d' (<[cstr 60 name := n]> m) /\ disk_inode sb sb_dev s' n = Some ip /\
        (disk_inode sb sb_dev (v_st v) iparent = Some (c_ip d) -> disk_inode sb sb_dev s' iparent = Some d') /\
        (forall n', inum_ok sb n' -> n' <> n -> n' <> iparent -> disk_inode sb sb_dev s' n' = disk_inode sb sb_dev (v_st v) n')
    | None =>
        exists d',
        vimixfs_iops_create_internal sb sb_dev iparent name mode device euid egid time v
          = Ret (r, mk_vfs s' (<[j := mk_cached d' (c_ref d)]> (v_inodes v))) /\ dir_rep sb s' d' m /\
        (d' = c_ip d /\ first free 0 (8 * sb_ninode_blocks sb) None /\ eff (v_st v) s' (fun _ => False) 0 \/
         (full sb s' \/ VIMIXFS_MAX_FILE_SIZE_BLOCKS * 1024 < i_size (c_ip d) + 64) /\
         exists n ip, first free 0 (8 * sb_ninode_blocks sb) (Some n) /\ disk_inode sb sb_dev s' n = Some ip /\ i_mode ip = 0 /\
         (forall n', inum_ok sb n' -> n' <> n -> n' <> iparent -> disk_inode sb sb_dev s' n' = disk_inode sb sb_dev (v_st v) n'))
    end.
Proof using L A Hdev.
  intros Hin Hm Hname Hdir Hsd Hmode Hde Hu Hg Ht Hwide Hroom Hbufs. pose proof (di_inum _ _ _ _ _ Hin) as Hip. destruct Hin as [Hfind Hat R Hmodes].
  destruct v as [s l]. cbn [v_st v_inodes] in *. unfold vimixfs_iops_create_internal.
  destruct (alloc_inode_run s mode time Hmode Ht (dir_inodes_ready s _ (dr_ok _ _ _ _ R)) ltac:(lia) ltac:(lia)) as (r & s1 & Halloc & Hres).
  rewrite (bind_run _ _ _ r (mk_vfs s1 l)) by (unfold on_disk_blocks; cbn [v_st]; by rewrite Halloc). destruct r as [n|].
  2: { destruct Hres as [He Hf]. exists None, s1, (c_ip d). destruct d as [ip rf]. cbn [c_ip c_ref] in *. rewrite list_insert_id by done.
       split; [done|]. split; [by apply (dir_rep_same s)|]. by left. }
  pose proof Hres as (Hn & Hf & _). pose proof Hf as (_ & [Hnz Hfree] & _).
  assert (forall c, c ∈ l -> i_inum (c_ip c) <> n) as Hno by (intros c Hc <-; by apply (Hmodes c Hc)).
  assert (iparent <> n) as Hpn by (rewrite <- Hip; by apply Hno, (list_elem_of_lookup_2 _ j)).
  destruct (new_file_run s l n mode device euid egid time s1 (c_ip d) m Hres Hno R Hsd Hmode Hde Hu Hg Ht ltac:(lia) ltac:(lia))
    as (s2 & s3 & Hget & Hset & R3 & Hd3 & Ho3 & Hr3 & Hb3). set (ip := new_inode n mode device euid egid time) in *.
  rewrite (bind_run _ _ _ _ _ Hget), (bind_run _ _ _ _ _ Hset), Hdir.
  rewrite (bind_run _ _ _ true (mk_vfs s3 (l ++ [mk_cached ip 1]))) by done.
  assert (0 <= n /\ is_u 32 n) as [Hge Hun] by (unfold inum_ok, is_u in *; lia).
  destruct (dir_add_run s3 (c_ip d) m name n R3 Hm Hname Hun Hnz ltac:(lia) ltac:(lia)) as (r & s4 & d' & Hlink & Hd' & Ho4 & Hb4 & Hcase).
  rewrite Hip in *.
  assert (with_inode iparent (vimixfs_dir_link_unchecked sb sb_dev name n) (mk_vfs s3 (l ++ [mk_cached ip 1]))
    = Ret (r, mk_vfs s4 (<[j := mk_cached d' (c_ref d)]> l ++ [mk_cached ip 1]))) as Hw.
  { rewrite (with_inode_run _ iparent _ j d r (mk_fs s4 d')); cbn [v_inodes v_st fs_st fs_ip c_ref]; [|by apply find_inode_app|by apply lookup_app_l_Some|done].
    by rewrite insert_app_l by (by apply (lookup_lt_Some _ _ d)). }
  assert (forall n', inum_ok sb n' -> n' <> n -> n' <> iparent -> disk_inode sb sb_dev s4 n' = disk_inode sb sb_dev s n') as Ho
    by (intros n' Hn' H1 H2; rewrite Ho4 by done; apply Ho3; [destruct Hn'; lia|done]).
  destruct Hcase as [(-> & R4 & Hdd)|(-> & R4 & Hr4 & Hfull)].
  - rewrite (bind_run _ _ _ true (mk_vfs s4 (<[j := mk_cached d' (c_ref d)]> l ++ [mk_cached ip 1]))) by (by rewrite (bind_run _ _ _ _ _ Hw)).
    exists (Some n), s4, d'. split; [done|]. split; [exact Hf|]. split; [exact R4|]. split; [by rewrite Ho4|]. split; [|exact Ho].
    intros Hpd. apply Hdd. rewrite Ho3; [exact Hpd|destruct (d_inum _ _ _ (dr_ok _ _ _ _ R)); lia|done].
  - rewrite (bind_run _ _ _ false (mk_vfs s4 (<[j := mk_cached d' (c_ref d)]> l ++ [mk_cached ip 1]))) by (by rewrite (bind_run _ _ _ _ _ Hw)).
    destruct (create_undo_run s4 (<[j := mk_cached d' (c_ref d)]> l) d' m ip) as (s5 & s6 & Hw5 & Hput & R6 & Hfull6 & Hd6 & Ho6); try done; try lia.
    { intros c [i Hc]%list_elem_of_lookup. apply list_lookup_insert_Some in Hc as [(-> & <- & _)|[_ Hc]]; [cbn; congruence|].
      by apply Hno, (list_elem_of_lookup_2 _ i). }
    { by apply new_inode_ok. }
    change (i_inum ip) with n in *. rewrite (bind_run _ _ _ _ _ Hw5), (bind_run _ _ _ _ _ Hput).
    exists None, s6, d'. split; [done|]. split; [exact R6|]. right. split; [tauto|]. eexists n, _. split; [exact Hf|]. split; [exact Hd6|]. split; [done|].
    intros n' Hn' H1 H2. rewrite Ho6; [by apply Ho|destruct Hn'; lia|done].
Qed.

(** ** Removing a name *)

(** The trees of two files have no block in common. *)
Definition apart (s : St) (ip ip' : vimixfs_inode) : Prop :=
  forall p q, valid p -> valid q -> addr_at s ip p = addr_at s ip' q -> addr_at s ip p = 0.

(** A file of which no block is changed stays as it is. *)
Lemma file_kept s s' ip ip' :
  quiet sb s ip -> addrs ip' = addrs ip -> bs_inv s' -> fs_ok sb s' -> (forall bn, 0 <= bn < sb_size sb -> bs_free s' bn) ->
  (forall p, valid p -> addr_at s ip p <> 0 -> bs_view s' (addr_at s ip p) = bs_view s (addr_at s ip p)) ->
  (forall b, 0 <= b < sb_size sb -> used sb s b = true -> used sb s' b = true) ->
  quiet sb s' ip' /\ forall i, 0 <= i < VIMIXFS_MAX_FILE_SIZE_BLOCKS * 1024 -> file_byte s' ip' i = file_byte s ip i.
Proof using L.
  intros [_ _ T _] Ea I Hok Hfree Hv Hu.
  assert (forall p, valid p -> addr_at s' ip' p = addr_at s ip p) as Ha.
  { intros [i l]. induction l as [|x l IH] using rev_ind; intros Hp; [unfold addr_at; cbn; by rewrite Ea|].
    destruct (valid_snoc i l x Hp) as [Hpl _]. rewrite !addr_at_snoc, (IH Hpl). unfold child.
    destruct (Z.eqb_spec (addr_at s ip (i, l)) 0) as [E|E]; [done|]. by rewrite Hv. }
  pose proof (data_start_pos sb L) as Hds. split.
  - split; [done|done| |done]. destruct T as [T1 T2 T3]. split; [by rewrite Ea| |].
    + intros p Hp. rewrite (Ha p Hp). intros Hn. destruct (T2 p Hp Hn) as [Hr Hus]. split; [done|]. apply Hu; [lia|done].
    + intros p q Hp Hq. rewrite (Ha p Hp), (Ha q Hq). by apply T3.
  - intros i Hi. unfold file_byte, file_block. pose proof (file_place_valid _ (block_of_byte i Hi)) as Hp. rewrite (Ha _ Hp).
    destruct (Z.eqb_spec (addr_at s ip (file_place (i / 1024))) 0) as [E|E]; [done|]. by rewrite Hv.
Qed.

Lemma add_ref_run (s : St) l j c k :
  l !! j = Some c -> add_ref j k (mk_vfs s l) = Ret (tt, mk_vfs s (<[j := mk_cached (c_ip c) (c_ref c + k)]> l)).
Proof using.
  intros Hj. unfold add_ref, modify_inodes, modify. cbn [v_st v_inodes]. do 3 f_equal. rewrite list_insert_alter.
  apply list_alter_ext; [|done]. intros x Hx. congruence.
Qed.

(** Dropping a reference that is not the last one. *)
Lemma iput_shared_run s l n j c :
  find_inode n l = Some j -> l !! j = Some c -> c_ref c <> 1 ->
  iput sb sb_dev n (mk_vfs s l) = Ret (tt, mk_vfs s (<[j := mk_cached (c_ip c) (c_ref c - 1)]> l)).
Proof using.
  intros Hf Hj Hr. unfold iput. rewrite (bind_run get _ _ _ _ eq_refl). cbn [v_inodes].
  rewrite (bind_run _ _ _ j (mk_vfs s l)) by (by rewrite Hf). set (c' := mk_cached (c_ip c) (c_ref c - 1)).
  rewrite (bind_run _ _ _ _ _ (add_ref_run s l j c (-1) Hj)). fold c'.
  rewrite (bind_run get _ _ _ _ eq_refl). cbn [v_inodes].
  rewrite (bind_run _ _ _ c' (mk_vfs s (<[j := c']> l))) by (by rewrite list_lookup_insert_eq by (by apply (lookup_lt_Some _ _ c))).
  cbn [c_ref c']. by rewrite (proj2 (Z.eqb_neq (c_ref c - 1) 0)) by lia.
Qed.

(** The file of the entry is in memory at [k]. *)
Record file_in (v : vfs St) (n : Z) (k : nat) (f : cached) : Prop := {
  fi_find : find_inode n (v_inodes v) = Some k;
  fi_at : v_inodes v !! k = Some f;
  fi_quiet : quiet sb (v_st v) (c_ip f);
  fi_ok : inode_ok (c_ip f);
  fi_links : 1 <= i_nlink (c_ip f);
  fi_ref : 1 <= c_ref f
}.

Lemma drop_link_run s l iparent j d m n k f e :
  let v := mk_vfs s l in
  find_inode iparent l = Some j -> l !! j = Some d -> i_inum (c_ip d) = iparent -> dir_rep sb s (c_ip d) m ->
  file_in v n k f -> i_inum (c_ip f) = n -> inum_ok sb n -> n <> iparent -> apart s (c_ip f) (c_ip d) -> 2 <= c_ref f ->
  0 <= e < slots (c_ip d) -> slot_inum s (c_ip d) e <> 0 -> 3 <= bs_room s -> 3 <= bs_bufs s ->
  let f' := set_nlink (i_nlink (c_ip f) - 1) (c_ip f) in
  exists s' d', drop_link sb sb_dev iparent n (64 * e) v
      = Ret (0, mk_vfs s' (<[k := mk_cached f' (c_ref f - 1)]> (<[j := mk_cached d' (c_ref d)]> l))) /\
    dir_rep sb s' d' (delete (slot_name s (c_ip d) e) m) /\ disk_inode sb sb_dev s' n = Some f' /\ quiet sb s' f' /\
    (forall i, 0 <= i < VIMIXFS_MAX_FILE_SIZE_BLOCKS * 1024 -> file_byte s' f' i = file_byte s (c_ip f) i) /\
    (forall n', inum_ok sb n' -> n' <> n -> n' <> iparent -> disk_inode sb sb_dev s' n' = disk_inode sb sb_dev s n').
Proof using L A Hdev.
  intros v Hfind Hat Hip R [Ff Fa FQ Fok Fl _] Hfn Hn Hne Hap Href He Hlive Hr Hb f'. cbn [v_inodes v_st v] in *.
  destruct (clear_dirent_run sb sb_dev L A Hdev s (c_ip d) e (dr_ok _ _ _ _ R) He ltac:(lia) ltac:(lia)) as (s1 & d' & Hclear & Hset & Hr1 & Hb1).
  pose proof (dir_rep_delete sb sb_dev s (c_ip d) m e s1 d' R He Hlive Hset) as R1.
  assert (i_inum d' = iparent) as Hd' by (rewrite (es_meta _ _ _ _ _ _ _ _ Hset); done).
  assert (j <> k) as Hjk by congruence. pose proof (es_dir _ _ _ _ _ _ _ _ Hset) as D1.
  assert (with_inode iparent (clear_dirent sb sb_dev (64 * e)) v = Ret (tt, mk_vfs s1 (<[j := mk_cached d' (c_ref d)]> l))) as Hw1
    by (by rewrite (with_inode_run _ iparent v j d tt (mk_fs s1 d'))).
  set (l1 := <[j := mk_cached d' (c_ref d)]> l) in *.
  assert (find_inode n l1 = Some k /\ l1 !! k = Some f) as [Ff1 Fa1].
  { unfold l1. rewrite (find_inode_insert n l j d) by (cbn; congruence). by rewrite list_lookup_insert_ne. }
  assert (s16 (i_nlink (c_ip f) - 1) = i_nlink (c_ip f) - 1) as Es
    by (destruct Fok; apply swrap_id; unfold is_s; lia).
  assert (inode_ok f') as Fok' by (destruct Fok; split; cbn; try done; lia).
  destruct (update_run s1 (c_ip f) (fun ip => set_nlink (s16 (i_nlink ip - 1)) ip) (dir_inodes_ready s1 d' D1) ltac:(lia) ltac:(lia))
    as (s2 & Hup & He2 & Hblk2 & Hd2 & Ho2 & _); [by rewrite Es|done|by rewrite Hfn|]. rewrite Hfn, Es in *. fold f' in Hd2.
  set (l2 := <[k := mk_cached f' (c_ref f)]> l1).
  assert (with_inode n (modify_ip (fun ip => set_nlink (s16 (i_nlink ip - 1)) ip);; vimixfs_sops_write_inode sb sb_dev) (mk_vfs s1 l1)
    = Ret (tt, mk_vfs s2 l2)) as Hw2.
  { rewrite (with_inode_run _ n (mk_vfs s1 l1) k f tt (mk_fs s2 f')); [done|done|done|]. exact Hup. }
  assert (l2 !! k = Some (mk_cached f' (c_ref f))) as Fa2 by (apply list_lookup_insert_eq; by apply (lookup_lt_Some _ _ f)).
  assert (find_inode n l2 = Some k) as Ff2 by (unfold l2; by rewrite (find_inode_insert n l1 k f)).
  pose proof (dir_rep_eff s1 s2 d' _ n 1 R1 Hn He2 Hblk2) as R2. pose proof (d_quiet _ _ _ (dr_ok _ _ _ _ R2)) as Q2.
  destruct (file_kept s s2 (c_ip f) f' FQ eq_refl (q_inv _ _ _ Q2) (q_ok _ _ _ Q2) (q_free _ _ _ Q2)) as [Q2f Hbytes].
  { intros p Hp Ha. destruct (t_range _ _ _ (q_tree _ _ _ FQ) p Hp Ha) as [Hr0 Hu0]. destruct (iblock_range sb L A n Hn) as (Hi1 & _).
    destruct (iblock_range sb L A iparent ltac:(rewrite <- Hip; apply (dr_ok _ _ _ _ R))) as (Hi2 & _).
    pose proof (bitmap_before_data sb L).
    rewrite (e_view _ _ _ _ He2) by lia. apply (es_view _ _ _ _ _ _ _ _ Hset); [lia|done|unfold is_bitmap; lia| |rewrite Hip; lia|].
    - intros (x & y & Hv & _ & E). apply Ha. by apply (Hap p (x, y)).
    - intros b Hb0 E. apply Ha. apply (Hap p (file_place b)); [done|by apply file_place_valid|done]. }
  { intros b Hb0 Hu. rewrite (d_used _ _ _ _ (inode_write_data s1 s2 d' n 1 (d_quiet _ _ _ D1) Hn He2 Hblk2)) by done.
    by apply (es_used _ _ _ _ _ _ _ _ Hset). }
  exists s2, d'. split; [|split; [exact R2|split; [exact Hd2|split; [exact Q2f|split; [exact Hbytes|]]]]].
  - unfold drop_link. rewrite (bind_run _ _ _ _ _ Hw1), (bind_run _ _ _ _ _ Hw2).
    rewrite (bind_run _ _ _ _ _ (iput_shared_run s2 l2 n k _ Ff2 Fa2 ltac:(cbn; lia))). cbn [c_ip c_ref]. unfold l2. by rewrite list_insert_insert_eq.
  - intros n' Hn' H1 H2. rewrite Ho2 by (try done; destruct Hn'; lia). apply (es_inodes _ _ _ _ _ _ _ _ Hset); [done|by rewrite Hip].
Qed.

(** Looking a name up in a directory that is in memory. *)
Lemma lookup_in_run v iparent j d m name :
  dir_in v iparent j d m -> 0 < bs_bufs (v_st v) ->
  exists s' o, with_inode iparent (vimixfs_lookup sb name) v
      = Ret ((fun e => (slot_inum (v_st v) (c_ip d) e, 64 * e)) <$> o, mk_vfs s' (v_inodes v)) /\
    eff (v_st v) s' (fun _ => False) 0 /\
    match o with
    | Some e => m !! cstr 60 name = Some (slot_inum (v_st v) (c_ip d) e) /\ 0 <= e < slots (c_ip d) /\
        slot_inum (v_st v) (c_ip d) e <> 0 /\ slot_name (v_st v) (c_ip d) e = cstr 60 name
    | None => m !! cstr 60 name = None
    end.
Proof using L.
  intros [Hf Hat R _] Hb. destruct (lookup_run sb L (v_st v) (c_ip d) name (dr_ok _ _ _ _ R) Hb) as (r & s' & Hrun & He & o & Ho & ->).
  exists s', o. split; [|split; [exact He|exact (dir_rep_first sb (v_st v) (c_ip d) m name o R Ho)]].
  rewrite (with_inode_run _ iparent v j d _ _ Hf Hat Hrun). cbn [fs_st fs_ip]. destruct d as [ip r]. cbn [c_ip c_ref] in *. by rewrite list_insert_id.
Qed.

(** C26: [vimixfs_iops_unlink] of a file that is open: the name is gone from the directory
    and the file has one link less, on the disk too, but it stays in memory with its
    references and all of its bytes can still be read.  A name that the directory does
    not have and a directory are refused, and nothing changes. *)
Theorem vimixfs_unlink_open_file v iparent j d m name :
  dir_in v iparent j d m -> 3 <= bs_room (v_st v) -> 3 <= bs_bufs (v_st v) ->
  match m !! cstr 60 name with
  | None => exists s', unlink_body sb sb_dev iparent name v = Ret (- ENOENT, mk_vfs s' (v_inodes v)) /\ eff (v_st v) s' (fun _ => False) 0
  | Some n =>
      forall k f, file_in v n k f -> n <> iparent -> inum_ok sb n -> apart (v_st v) (c_ip f) (c_ip d) ->
      if S_ISDIR (i_mode (c_ip f))
      then exists s', unlink_body sb sb_dev iparent name v = Ret (- EISDIR, mk_vfs s' (v_inodes v)) /\ eff (v_st v) s' (fun _ => False) 0
      else exists s' d', let f' := set_nlink (i_nlink (c_ip f) - 1) (c_ip f) in
        unlink_body sb sb_dev iparent name v
          = Ret (0, mk_vfs s' (<[k := mk_cached f' (c_ref f)]> (<[j := mk_cached d' (c_ref d)]> (v_inodes v)))) /\
        dir_rep sb s' d' (delete (cstr 60 name) m) /\ disk_inode sb sb_dev s' n = Some f' /\ quiet sb s' f' /\
        (forall i, 0 <= i < VIMIXFS_MAX_FILE_SIZE_BLOCKS * 1024 -> file_byte s' f' i = file_byte (v_st v) (c_ip f) i) /\
        (forall n', inum_ok sb n' -> n' <> n -> n' <> iparent -> disk_inode sb sb_dev s' n' = disk_inode sb sb_dev (v_st v) n')
  end.
Proof using L A Hdev.
  intros Hin Hr Hb. destruct (lookup_in_run v iparent j d m name Hin ltac:(lia)) as (s1 & o & Hlook & He & Ho).
  unfold unlink_body. rewrite (bind_run _ _ _ _ _ Hlook). pose proof (di_inum _ _ _ _ _ Hin) as Hip. destruct v as [s l]. cbn [v_st v_inodes] in *.
  destruct o as [e|]; cbn [fmap option_fmap option_map]; [|rewrite Ho; by exists s1].
  destruct Ho as (-> & Hej & Hlive & Hname). set (n := slot_inum s (c_ip d) e) in *. intros k f [Ff Fa FQ Fok Fl Fr] Hne Hn Hap.
  cbn [v_st v_inodes] in *. destruct (find_inode_Some n l k Ff) as (f0 & Hf0 & Hfn). assert (f0 = f) as -> by congruence.
  set (f1 := mk_cached (c_ip f) (c_ref f + 1)). set (l1 := <[k := f1]> l).
  assert (iget sb sb_dev n (mk_vfs s1 l) = Ret (tt, mk_vfs s1 l1)) as Hget.
  { unfold iget. rewrite (bind_run get _ _ _ _ eq_refl). cbn [v_inodes]. rewrite Ff. exact (add_ref_run s1 l k f 1 Fa). }
  assert (find_inode n l1 = Some k) as Ff1 by (unfold l1; by rewrite (find_inode_insert n l k f)).
  assert (l1 !! k = Some f1) as Fa1 by (apply list_lookup_insert_eq; by apply (lookup_lt_Some _ _ f)).
  rewrite (bind_run _ _ _ _ _ Hget). rewrite (bind_run _ _ _ (c_ip f) (mk_vfs s1 l1)).
  2: { unfold get_inode. rewrite (with_inode_run _ n (mk_vfs s1 l1) k f1 (c_ip f) (mk_fs s1 (c_ip f))) by done. cbn [fs_st fs_ip c_ref f1 v_inodes]. unfold f1. by rewrite (list_insert_id l1). }
  rewrite (proj2 (Z.ltb_ge _ _)) by lia. cbn [negb panic_unless]. rewrite (bind_run _ _ _ tt (mk_vfs s1 l1)) by done.
  assert (j <> k) as Hjk by (destruct Hin as [_ Hat _ _]; cbn in Hat; congruence).
  destruct (S_ISDIR (i_mode (c_ip f))).
  - exists s1. split; [|exact He]. rewrite (bind_run _ _ _ _ _ (iput_shared_run s1 l1 n k f1 Ff1 Fa1 ltac:(cbn; lia))). cbn [c_ip c_ref f1].
    unfold l1, mret, ST_ret. rewrite list_insert_insert_eq. do 3 f_equal. destruct f as [ip rf]. cbn [c_ip c_ref]. rewrite Z.add_simpl_r. by apply list_insert_id.
  - destruct Hin as [Hfind Hat R _]. cbn [v_st v_inodes] in *. pose proof (e_room _ _ _ _ He). pose proof (e_bufs _ _ _ _ He).
    assert (forall bn, bs_view s1 bn = bs_view s bn) as Hv by (intros bn; apply (e_view _ _ _ _ He); intros []).
    assert (forall p ip, addr_at s1 ip p = addr_at s ip p) as Ha by (intros p ip; by apply addr_at_ext).
    destruct (drop_link_run s1 l1 iparent j d m n k f1 e) as (s' & d' & Hrun & R' & Hd' & Q' & Hby & Ho'); try done; try lia.
    + unfold l1. by rewrite (find_inode_insert iparent l k f).
    + unfold l1. by rewrite list_lookup_insert_ne.
    + by apply (dir_rep_same s).
    + split; cbn [v_st v_inodes]; try done; [by apply (eff_quiet sb s)|cbn; lia].
    + intros p q Hp Hq. cbn [c_ip f1]. rewrite !Ha. by apply Hap.
    + cbn. lia.
    + unfold slot_inum. by rewrite (slot_inum_same s s1).
    + cbn [c_ip c_ref f1] in *. rewrite Z.add_simpl_r in Hrun. unfold l1 in Hrun.
      rewrite (list_insert_insert_ne l j k), list_insert_insert_eq in Hrun by done.
      exists s', d'. split; [exact Hrun|]. unfold slot_name in R'. rewrite (slot_inum_same s s1) in R' by exact He. fold (slot_name s (c_ip d) e) in R'.
      rewrite Hname in R'. split; [exact R'|]. split; [exact Hd'|]. split; [exact Q'|]. split.
      * intros i Hi. rewrite Hby by exact Hi. by apply file_byte_same.
      * intros n' H1 H2 H3. rewrite Ho' by done. unfold disk_inode. by rewrite Hv.
Qed.
End Alloc.

(** ** The small file system *)

#[local] Existing Instance small_store.

(** The directory with the entry of the small file system, and the file of the entry. *)
Definition names_inode : vimixfs_inode := mk_inode 3 16877 1 1 64 0 0 0 0 (21 :: replicate 21 0).
Definition named_file : vimixfs_inode := mk_inode 4 33188 1 1 0 0 0 0 0 (replicate 22 0).

Lemma names_inode_ok : inode_ok names_inode /\ inode_ok named_file.
Proof.
  split; split; cbn [i_mode i_dev i_nlink i_size i_uid i_gid i_ctime i_mtime addrs names_inode named_file]; unfold is_u, is_s;
    try lia; try (split; [lia|discriminate]); split; try done.
  - apply Forall_cons. split; [lia|]. apply Forall_replicate. lia.
  - apply Forall_replicate. lia.
Qed.

Lemma small_names_quiet : quiet small_sb small_fs names_inode /\ quiet small_sb small_fs named_file.
Proof.
  destruct small_tx as [Ht Hf]. assert (l_bio small_fs = l_bio small_mounted) as E by (vm_compute; reflexivity).
  assert (forall bn, bs_view small_fs bn = bs_view small_mounted bn) as Hv by (intros bn; cbn; unfold tx_view; by rewrite E).
  split.
  - apply (file_kept small_sb small_layout small_mounted small_fs data_inode names_inode small_data_quiet eq_refl Ht small_fs_ok (fun bn _ => Hf bn)).
    + intros p _ _. apply Hv.
    + intros b _. unfold used. by rewrite Hv.
  - by apply (file_kept small_sb small_layout small_fs small_fs empty_inode named_file small_quiet eq_refl Ht small_fs_ok (fun bn _ => Hf bn)).
Qed.

Lemma small_names : dir_rep small_sb small_fs names_inode {[ [97] := 4 ]}.
Proof.
  assert (slots names_inode = 1) as Hs by reflexivity.
  assert (slot_inum small_fs names_inode 0 = 4) as Hi by (vm_compute; reflexivity).
  assert (slot_name small_fs names_inode 0 = [97]) as Hn by (vm_compute; reflexivity). split.
  - split; [apply small_names_quiet|apply names_inode_ok| |reflexivity|vm_compute; discriminate|].
    + unfold inum_ok. cbn. lia.
    + intros i Hii. change (i_size names_inode) with 64 in Hii. replace (i / 1024) with 0 by (symmetry; apply Z.div_small; lia). vm_compute. discriminate.
  - intros k i. rewrite Hs, lookup_singleton_Some. split.
    + intros [<- <-]. exists 0. rewrite Hi, Hn. split; [lia|]. split; [reflexivity|]. split; [discriminate|reflexivity].
    + intros (j & Hj & H). assert (j = 0) as -> by lia. rewrite Hi, Hn in H. destruct H as (<- & _ & <-). split; reflexivity.
  - rewrite Hs. intros i j Hii Hj. lia.
Qed.

(** The directory and the file in memory. *)
Definition small_vfs : vfs lfs := mk_vfs small_fs [mk_cached names_inode 1; mk_cached named_file 1].

Lemma small_dir_in : dir_in small_sb small_vfs 3 0 (mk_cached names_inode 1) {[ [97] := 4 ]}.
Proof.
  split; [reflexivity|reflexivity|exact small_names|].
  assert (Forall (fun c => disk_mode small_sb small_fs (i_inum (c_ip c)) <> 0) (v_inodes small_vfs)) as H.
  { apply Forall_cons. split; [vm_compute; discriminate|]. apply Forall_cons. split; [vm_compute; discriminate|]. apply Forall_nil. exact I. }
  rewrite Forall_forall in H. exact H.
Qed.

Lemma vimixfs_create_file_witness :
  exists s' d', vimixfs_iops_create_internal small_sb 1 3 [98] 33188 0 7 8 9 small_vfs
      = Ret (Some 1, mk_vfs s' [mk_cached d' 1; mk_cached named_file 1; mk_cached (mk_inode 1 33188 1 1 0 7 8 9 9 (replicate 22 0)) 1]) /\
    dir_rep small_sb s' d' (<[ [98] := 1 ]> {[ [97] := 4 ]}).
Proof.
  destruct small_budget as [Hr Hb].
  assert (12 <= bs_bufs small_fs) as Hb12 by (vm_compute; discriminate).
  destruct (vimixfs_create_file small_sb 1 small_layout small_area ltac:(unfold is_s; lia) small_vfs 3 0 (mk_cached names_inode 1) {[ [97] := 4 ]} [98]
    33188 0 7 8 9 small_dir_in eq_refl ltac:(repeat constructor; lia) eq_refl ltac:(discriminate) ltac:(unfold is_u; lia)
    ltac:(unfold is_s; lia) ltac:(unfold is_s; lia) ltac:(unfold is_s; lia) ltac:(unfold is_s; lia) ltac:(cbn; lia) Hr Hb12) as (r & s' & Hres).
  assert (option_map fst (match vimixfs_iops_create_internal small_sb 1 3 [98] 33188 0 7 8 9 small_vfs with
      Ret x => Some x | _ => None end) = Some (Some 1)) as E by (vm_compute; reflexivity).
  destruct r as [n|].
  - destruct Hres as (d' & Hrun & _ & HR & _). rewrite Hrun in E. cbn in E. injection E as ->. exists s', d'. split; [exact Hrun|exact HR].
  - destruct Hres as (d' & Hrun & _). rewrite Hrun in E. discriminate E.
Defined.

Lemma vimixfs_unlink_open_file_witness :
  exists s' d', unlink_body small_sb 1 3 [97] small_vfs
      = Ret (0, mk_vfs s' [mk_cached d' 1; mk_cached (set_nlink 0 named_file) 1]) /\ dir_rep small_sb s' d' ∅.
Proof.
  destruct small_budget as [Hr Hb].
  pose proof (vimixfs_unlink_open_file small_sb 1 small_layout small_area ltac:(unfold is_s; lia) small_vfs 3 0 (mk_cached names_inode 1) {[ [97] := 4 ]} [97]
    small_dir_in (Z.le_trans 3 10 _ ltac:(lia) Hr) (Z.le_trans 3 10 _ ltac:(lia) Hb) 1%nat (mk_cached named_file 1)) as H.
  destruct H as (s' & d' & Hrun & HR & _).
  - split; [reflexivity|reflexivity|apply small_names_quiet|apply names_inode_ok|cbn; lia|cbn; lia].
  - discriminate.
  - unfold inum_ok. cbn. lia.
  - intros p q _ _ _. by apply empty_addr.
  - exists s', d'. split; [exact Hrun|]. rewrite delete_singleton_eq in HR. exact HR.
Defined.

(** ** Directories that are never freed *)

(** A directory 1 is made in directory 3, and a directory 2 in it; both are removed again.
    The references of the entries are put. *)
Definition mkdir_rmdir : ST (vfs lfs) (list Z) :=
  a ← vimixfs_iops_mkdir (Z.eqb 1) 1 5 small_sb 3 [100] 16877 0 0 0;
  b ← vimixfs_iops_mkdir (Z.eqb 1) 1 5 small_sb 1 [101] 16877 0 0 0;
  vimixfs_iops_put (Z.eqb 1) 1 5 small_sb 2;;
  r ← vimixfs_iops_rmdir (Z.eqb 1) 1 5 small_sb 1 [101];
  vimixfs_iops_put (Z.eqb 1) 1 5 small_sb 1;;
  r' ← vimixfs_iops_rmdir (Z.eqb 1) 1 5 small_sb 3 [100];
  mret [fst a; fst b; r; r'].

