(* ===== verification/Qsort.v ===== *)
(** * Quicksort (kernel/lib/qsort_impl.c)

    [qsort] sorts an array of [nmemb] elements of [elem_size] bytes with the algorithm of
    Unix V7, by exchanges of bytes in memory.  The comparison function reads the two
    elements it is called with.  The depth of the recursion is an argument of the model:
    the theorem shows how much stack is enough. *)
From stdpp Require Import list numbers.
From S2P Require Import Prelude CString.

(** ** Exchanging elements *)

Fixpoint swap_bytes (elem_size : nat) (a b : Z) (m : mem) : mem :=
  match elem_size with
  | O => m
  | S n =>
      let tmp := m a in
      swap_bytes n (a + 1) (b + 1) (store (store m a (m b)) b tmp)
  end.

Fixpoint rotate_three (elem_size : nat) (a b c : Z) (m : mem) : mem :=
  match elem_size with
  | O => m
  | S n =>
      let xa := m a in let xb := m b in let xc := m c in
      rotate_three n (a + 1) (b + 1) (c + 1) (store (store (store m a xc) c xb) b xa)
  end.

(** ** Partitioning and sorting *)

(** Where the loop of [qs_partition] continues: at its start or at [loop_right]. *)
Inductive label := For | Loop_right.

Section Qsort.
Context (elem_size : Z) (compare : mem -> Z -> Z -> Z).

Abbreviation swap a b m := (swap_bytes (Z.to_nat elem_size) a b m).
Abbreviation rotate a b c m := (rotate_three (Z.to_nat elem_size) a b c m).

(** [for (;;)]; the result is the range of the pivot. *)
Fixpoint partition_loop (fuel : nat) (at_ : label) (left right pivot_lo pivot_hi : Z) (m : mem) : res (Z * Z * mem) :=
  match fuel with
  | O => NoFuel
  | S fuel =>
      match at_ with
      | For =>
          if left <? pivot_lo then
            let cmp := compare m left pivot_lo in
            if cmp =? 0 then
              let pivot_lo := pivot_lo - elem_size in
              partition_loop fuel For left right pivot_lo pivot_hi (swap left pivot_lo m)
            else if cmp <? 0 then partition_loop fuel For (left + elem_size) right pivot_lo pivot_hi m
            else partition_loop fuel Loop_right left right pivot_lo pivot_hi m
          else partition_loop fuel Loop_right left right pivot_lo pivot_hi m
      | Loop_right =>
          if pivot_hi <? right then
            let cmp := compare m pivot_hi right in
            if cmp =? 0 then
              let pivot_hi := pivot_hi + elem_size in
              partition_loop fuel Loop_right left right pivot_lo pivot_hi (swap pivot_hi right m)
            else if 0 <? cmp then
              if left =? pivot_lo then
                let pivot_hi := pivot_hi + elem_size in
                let m := rotate left pivot_hi right m in
                let pivot_lo := pivot_lo + elem_size in
                partition_loop fuel Loop_right pivot_lo right pivot_lo pivot_hi m
              else partition_loop fuel For (left + elem_size) (right - elem_size) pivot_lo pivot_hi (swap left right m)
            else partition_loop fuel Loop_right left (right - elem_size) pivot_lo pivot_hi m
          else if left =? pivot_lo then mret (pivot_lo, pivot_hi, m)
          else
            let pivot_lo := pivot_lo - elem_size in
            let m := rotate right pivot_lo left m in
            let pivot_hi := pivot_hi - elem_size in
            partition_loop fuel For left pivot_hi pivot_lo pivot_hi m
      end
  end.

(** [qs_partition] with room for [depth] calls of itself on the stack; [k] bounds the
    number of jumps to [start]. *)
Fixpoint qs_partition (depth : nat) : nat -> Z -> Z -> mem -> res mem :=
  fix start (k : nat) (lo hi : Z) (m : mem) : res mem :=
    match k with
    | O => NoFuel
    | S k =>
        let range_bytes := hi - lo in
        if range_bytes <=? elem_size then mret m
        else
          let middle_offset := elem_size * (range_bytes / u64 (2 * elem_size)) in
          let pivot := lo + middle_offset in
          '(pivot_lo, pivot_hi, m) ← partition_loop (Z.to_nat (2 * (range_bytes / elem_size))) For lo (hi - elem_size) pivot pivot m;
          let left_size := pivot_lo - lo in
          let right_size := hi - pivot_hi in
          if right_size <=? left_size then
            m ← (if 0 <? right_size then
                   match depth with
                   | O => NoFuel
                   | S depth => qs_partition depth (S (Z.to_nat (right_size / elem_size))) (pivot_hi + elem_size) hi m
                   end
                 else mret m);
            start k lo pivot_lo m
          else
            m ← (if 0 <? left_size then
                   match depth with
                   | O => NoFuel
                   | S depth => qs_partition depth (S (Z.to_nat (left_size / elem_size))) lo pivot_lo m
                   end
                 else mret m);
            start k (pivot_hi + elem_size) hi m
    end.
End Qsort.

Definition qsort (depth : nat) (base nmemb size : Z) (compare : option (mem -> Z -> Z -> Z)) (m : mem) : res mem :=
  match compare with
  | None => mret m
  | Some compare =>
      if ((nmemb =? 0) || (size =? 0) || (base =? 0))%bool then mret m
      else qs_partition size compare depth (S (Z.to_nat nmemb)) base (base + u64 (nmemb * size)) m
  end.

(** ** What the exchanges do to the bytes *)

Lemma swap_bytes_at n : forall a b m x, a = b \/ a + Z.of_nat n <= b \/ b + Z.of_nat n <= a ->
  swap_bytes n a b m x =
    m (if decide (a <= x < a + Z.of_nat n) then x - a + b else if decide (b <= x < b + Z.of_nat n) then x - b + a else x).
Proof.
  induction n as [|n IH]; intros a b m x H; cbn [swap_bytes].
  { repeat case_decide; f_equal; lia. }
  rewrite IH by lia. unfold store. repeat case_decide; repeat zcase; f_equal; lia.
Qed.

Lemma rotate_three_at n : forall a b c m x,
  a + Z.of_nat n <= b \/ b + Z.of_nat n <= a -> a + Z.of_nat n <= c \/ c + Z.of_nat n <= a ->
  b = c \/ b + Z.of_nat n <= c \/ c + Z.of_nat n <= b ->
  rotate_three n a b c m x =
    m (if decide (a <= x < a + Z.of_nat n) then x - a + c else if decide (b <= x < b + Z.of_nat n) then x - b + a
       else if decide (c <= x < c + Z.of_nat n) then x - c + b else x).
Proof.
  induction n as [|n IH]; intros a b c m x Hab Hac Hbc; cbn [rotate_three].
  { repeat case_decide; f_equal; lia. }
  rewrite IH by lia. unfold store. repeat case_decide; repeat zcase; f_equal; lia.
Qed.

(** ** Arrays of elements *)

Definition elem (elem_size : Z) (m : mem) (p : Z) : list Z := (fun i => m (p + i)) <$> seqZ 0 elem_size.

Section Elements.
Context (es base : Z) (Hes : 0 < es).

Abbreviation P i := (base + i * es).
Abbreviation A m i := (elem es m (base + i * es)).
Abbreviation size := (Z.to_nat es).

Lemma grid i k d : 0 <= d < es -> (P i <= P k + d < P i + Z.of_nat size <-> k = i).
Proof using Hes.
  intros Hd. rewrite Z2Nat.id by lia. split; [|intros ->; lia]. intros H.
  destruct (Z.lt_trichotomy k i) as [|[|]]; [|done|]; nia.
Qed.

Lemma elems_apart i j : i = j \/ P i + Z.of_nat size <= P j \/ P j + Z.of_nat size <= P i.
Proof using Hes. rewrite Z2Nat.id by lia. destruct (Z.lt_trichotomy i j) as [|[|]]; [right; left|left|right; right]; nia. Qed.

Lemma elem_ext m m' k k' : (forall d, 0 <= d < es -> m' (P k + d) = m (P k' + d)) -> A m' k = A m k'.
Proof using. intros H. apply list_fmap_ext. intros i d [-> Hd]%lookup_seqZ. apply H. lia. Qed.

Lemma swap_elem i j m k :
  A (swap_bytes size (P i) (P j) m) k = A m (if decide (k = i) then j else if decide (k = j) then i else k).
Proof using Hes.
  apply elem_ext. intros d Hd. rewrite swap_bytes_at by (destruct (elems_apart i j) as [->|]; auto).
  pose proof (grid i k d Hd). pose proof (grid j k d Hd). repeat case_decide; try tauto; f_equal; subst; lia.
Qed.

Lemma rotate_elem a b c m k : a <> b -> a <> c ->
  A (rotate_three size (P a) (P b) (P c) m) k =
    A m (if decide (k = a) then c else if decide (k = b) then a else if decide (k = c) then b else k).
Proof using Hes.
  intros Hab Hac. apply elem_ext. intros d Hd. pose proof (elems_apart a b). pose proof (elems_apart a c).
  rewrite rotate_three_at by (destruct (elems_apart b c) as [->|]; tauto).
  pose proof (grid a k d Hd). pose proof (grid b k d Hd). pose proof (grid c k d Hd).
  repeat case_decide; try tauto; f_equal; subst; lia.
Qed.

(** [m'] is [m] with the elements from [l] to [h] in another order, and all other bytes as
    they were. *)
Definition perm_on (l h : Z) (m m' : mem) : Prop :=
  exists f g : Z -> Z, (forall i, g (f i) = i) /\ (forall i, f (g i) = i) /\
    (forall i, ~ (l <= i < h) -> f i = i) /\ forall i, A m' i = A m (f i).

Lemma perm_refl l h m : perm_on l h m m.
Proof using. exists (fun i => i), (fun i => i). auto. Qed.

Lemma perm_trans l h m1 m2 m3 : perm_on l h m1 m2 -> perm_on l h m2 m3 -> perm_on l h m1 m3.
Proof using.
  intros (f1 & g1 & H1 & H1' & Ho1 & E1) (f2 & g2 & H2 & H2' & Ho2 & E2).
  exists (fun i => f1 (f2 i)), (fun i => g2 (g1 i)). split; [|split; [|split]].
  - intros i. by rewrite H1, H2.
  - intros i. by rewrite H2', H1'.
  - intros i Hi. by rewrite Ho2, Ho1.
  - intros i. by rewrite E2, E1.
Qed.

Lemma perm_weaken l h l' h' m m' : l' <= l -> h <= h' -> perm_on l h m m' -> perm_on l' h' m m'.
Proof using. intros Hl Hh (f & g & H & H' & Ho & E). exists f, g. repeat split; auto. intros i Hi. apply Ho. lia. Qed.

Lemma perm_in l h m m' i : perm_on l h m m' -> l <= i < h -> exists j, l <= j < h /\ A m' i = A m j.
Proof using.
  intros (f & g & H & H' & Ho & E) Hi. exists (f i). split; [|apply E].
  destruct (decide (l <= f i < h)) as [|Hn]; [done|]. pose proof (Ho _ Hn) as Hf. apply (f_equal g) in Hf. rewrite !H in Hf. lia.
Qed.

Lemma perm_out l h m m' i : perm_on l h m m' -> ~ (l <= i < h) -> A m' i = A m i.
Proof using. intros (f & g & H & H' & Ho & E) Hi. by rewrite E, Ho. Qed.

Lemma perm_swap l h i j m : l <= i < h -> l <= j < h -> perm_on l h m (swap_bytes size (P i) (P j) m).
Proof using Hes.
  intros Hi Hj. pose (f := fun k => if decide (k = i) then j else if decide (k = j) then i else k).
  exists f, f. unfold f. split; [|split; [|split]]; try (intros k; repeat case_decide; lia). intros k. apply swap_elem.
Qed.

Lemma perm_rotate l h a b c m : l <= a < h -> l <= b < h -> l <= c < h -> a <> b -> a <> c ->
  perm_on l h m (rotate_three size (P a) (P b) (P c) m).
Proof using Hes.
  intros Ha Hb Hc Hab Hac.
  exists (fun k => if decide (k = a) then c else if decide (k = b) then a else if decide (k = c) then b else k),
    (fun k => if decide (k = c) then a else if decide (k = a) then b else if decide (k = b) then c else k).
  split; [|split; [|split]]; try (intros k; repeat case_decide; lia). intros k. by apply rotate_elem.
Qed.

(** Every byte is one of an element. *)
Lemma perm_bytes l h m m' x : perm_on l h m m' -> ~ (P l <= x < P h) -> m' x = m x.
Proof using Hes.
  intros Hp Hx. pose proof (Z.div_mod (x - base) es ltac:(lia)). pose proof (Z.mod_pos_bound (x - base) es Hes).
  set (k := (x - base) / es) in *. set (d := (x - base) mod es) in *.
  assert (A m' k = A m k) as E by (apply (perm_out l h _ _ _ Hp); nia).
  apply (f_equal (fun l => l !! Z.to_nat d)) in E. unfold elem in E.
  rewrite !list_lookup_fmap, !lookup_seqZ_lt in E by lia. cbn in E. injection E as E.
  replace x with (P k + (0 + Z.of_nat (Z.to_nat d))) by lia. exact E.
Qed.

Lemma perm_Permutation n m m' : perm_on 0 n m m' -> ((fun i => A m' i) <$> seqZ 0 n) ≡ₚ ((fun i => A m i) <$> seqZ 0 n).
Proof using.
  intros Hp. destruct Hp as (f & g & H & H' & Ho & E).
  rewrite (list_fmap_ext _ ((fun i => A m i) ∘ f) (seqZ 0 n)) by (intros; apply E). rewrite list_fmap_compose. apply fmap_Permutation.
  assert (forall i, 0 <= i < n -> 0 <= f i < n) as Hf.
  { intros i Hi. destruct (decide (0 <= f i < n)) as [|Hn]; [done|]. pose proof (Ho _ Hn) as Hff. apply (f_equal g) in Hff. rewrite !H in Hff. lia. }
  apply NoDup_Permutation; [|apply NoDup_seqZ|].
  - apply NoDup_fmap_2; [|apply NoDup_seqZ]. intros i j Hij. by rewrite <- (H i), Hij, H.
  - intros x. rewrite list_elem_of_fmap, elem_of_seqZ. split.
    + intros (i & -> & Hi%elem_of_seqZ). specialize (Hf i ltac:(lia)). lia.
    + intros Hx. exists (g x). split; [by rewrite H'|]. apply elem_of_seqZ.
      destruct (decide (0 <= g x < n)) as [|Hn]; [lia|]. pose proof (Ho _ Hn) as Hg. rewrite H' in Hg. rewrite <- Hg in Hn. lia.
Qed.
End Elements.

(** ** Comparison functions

    The function compares the elements it reads; its sign is that of a total preorder. *)
Record comparison (elem_size : Z) (compare : mem -> Z -> Z -> Z) (cmp : list Z -> list Z -> Z) : Prop := {
  c_reads m a b : compare m a b = cmp (elem elem_size m a) (elem elem_size m b);
  c_sym x y : cmp x y < 0 <-> 0 < cmp y x;
  c_trans x y z : cmp x y <= 0 -> cmp y z <= 0 -> cmp x z <= 0
}.

Section Sorting.
Context (es base : Z) (Hes : 0 < es) (compare : mem -> Z -> Z -> Z) (cmp : list Z -> list Z -> Z) (C : comparison es compare cmp).

Abbreviation P i := (base + i * es).
Abbreviation A m i := (elem es m (base + i * es)).
Abbreviation perm_on := (perm_on es base).

Lemma cmp_refl x : cmp x x = 0.
Proof using C. pose proof (c_sym _ _ _ C x x). lia. Qed.

Lemma cmp_same x y v : cmp y v = 0 ->
  (cmp x y < 0 <-> cmp x v < 0) /\ (0 < cmp x y <-> 0 < cmp x v) /\ (cmp y x < 0 <-> 0 < cmp x v) /\ (0 < cmp y x <-> cmp x v < 0).
Proof using C.
  intros H. pose proof (c_sym _ _ _ C) as S. pose proof (c_trans _ _ _ C) as T.
  pose proof (S y v). pose proof (S v y). pose proof (S x y). pose proof (S y x). pose proof (S x v). pose proof (S v x).
  pose proof (T x y v). pose proof (T x v y). pose proof (T v y x). pose proof (T y v x). lia.
Qed.

Lemma cmp_split x y v : cmp x v <= 0 -> 0 <= cmp y v -> cmp x y <= 0.
Proof using C.
  intros Hx Hy. apply (c_trans _ _ _ C _ v); [done|]. pose proof (c_sym _ _ _ C y v). pose proof (c_sym _ _ _ C v y). lia.
Qed.

Lemma P_ltb i j : (P i <? P j) = (i <? j).
Proof using Hes. apply eq_true_iff_eq. rewrite !Z.ltb_lt. nia. Qed.

Lemma P_eqb i j : (P i =? P j) = (i =? j).
Proof using Hes. apply eq_true_iff_eq. rewrite !Z.eqb_eq. nia. Qed.

Lemma P_succ i : P i + es = P (i + 1).
Proof using. lia. Qed.

Lemma P_pred i : P i - es = P (i - 1).
Proof using. lia. Qed.

(** The loop of [qs_partition] on the elements from [l] to [h]: those before [left] are
    less than the pivot [v], those behind [right] are greater. *)
Record partition_inv (l h : Z) (v : list Z) (at_ : label) (left right plo phi : Z) (m : mem) : Prop := {
  pi_range : l <= left <= plo /\ plo <= phi <= right /\ right < h;
  pi_less i : l <= i < left -> cmp (A m i) v < 0;
  pi_same i : plo <= i <= phi -> cmp (A m i) v = 0;
  pi_more i : right < i < h -> 0 < cmp (A m i) v;
  pi_right : at_ = Loop_right -> left = plo \/ 0 < cmp (A m left) v
}.

Ltac place :=
  match goal with
  | H : context [A ?m ?k] |- context [A ?m ?j] => replace j with k by lia; exact H
  end.

(** The invariant after a step that puts element [k] in its place. *)
Ltac step_inv I k :=
  destruct I as [Hrange Hless Hsame Hmore Hright]; split;
  [ lia
  | intros i Hi; destruct (decide (i = k)) as [->|];
    rewrite ?(swap_elem es base Hes), ?(rotate_elem es base Hes) by lia; repeat case_decide; subst; try (exfalso; lia);
    first [apply Hless; lia | apply Hsame; lia | apply Hmore; lia | place] ..
  | try discriminate ].

Lemma partition_run l h v : forall fuel at_ left right plo phi m,
  partition_inv l h v at_ left right plo phi m ->
  2 * ((plo - left) + (right - phi)) + (if at_ is For then 1 else 0) < Z.of_nat fuel ->
  exists plo' phi' m', partition_loop es compare fuel at_ (P left) (P right) (P plo) (P phi) m = Ret (P plo', P phi', m') /\
    perm_on l h m m' /\ partition_inv l h v Loop_right plo' phi' plo' phi' m'.
Proof using Hes C.
  induction fuel as [|fuel IH]; intros at_ left right plo phi m I Hf; [destruct at_; pose proof (pi_range _ _ _ _ _ _ _ _ _ I); lia|].
  assert (forall at' left' right' plo' phi' m1, perm_on l h m m1 -> partition_inv l h v at' left' right' plo' phi' m1 ->
    2 * ((plo' - left') + (right' - phi')) + (if at' is For then 1 else 0) < Z.of_nat fuel ->
    exists plo1 phi1 m', partition_loop es compare fuel at' (P left') (P right') (P plo') (P phi') m1 = Ret (P plo1, P phi1, m') /\
      perm_on l h m m' /\ partition_inv l h v Loop_right plo1 phi1 plo1 phi1 m') as step.
  { intros at' left' right' plo' phi' m1 Hp I1 H1. destruct (IH _ _ _ _ _ _ I1 H1) as (plo1 & phi1 & m' & Hrun & Hp' & I').
    exists plo1, phi1, m'. split; [exact Hrun|]. split; [by apply (perm_trans es base l h m m1)|exact I']. }
  clear IH. pose proof (pi_range _ _ _ _ _ _ _ _ _ I) as Hr.
  destruct at_; cbn [partition_loop]; rewrite P_ltb, !(c_reads _ _ _ C), ?P_pred, ?P_succ, ?P_eqb.
  - pose proof (cmp_same (A m left) (A m plo) v (pi_same _ _ _ _ _ _ _ _ _ I plo ltac:(lia))).
    repeat zcase.
    + assert (cmp (A m left) v = 0) by lia. apply step; [apply perm_swap; lia|step_inv I left|lia].
    + assert (cmp (A m left) v < 0) by lia. apply step; [apply perm_refl|step_inv I left|lia].
    + apply step; [apply perm_refl|step_inv I left|lia]. right. lia.
    + apply step; [apply perm_refl|step_inv I left|lia]. left. lia.
  - pose proof (cmp_same (A m right) (A m phi) v (pi_same _ _ _ _ _ _ _ _ _ I phi ltac:(lia))).
    destruct (pi_right _ _ _ _ _ _ _ _ _ I eq_refl) as [Hl|Hl]; [repeat zcase; try (exfalso; lia)|].
    + assert (cmp (A m right) v = 0) by lia. apply step; [apply perm_swap; lia|step_inv I right|lia]. by left.
    + assert (cmp (A m right) v < 0) by lia. apply step; [apply perm_rotate; lia|step_inv I left|lia]. by left.
    + assert (0 < cmp (A m right) v) by lia. apply step; [apply perm_refl|step_inv I right|lia]. by left.
    + exists plo, phi, m. split; [done|]. split; [apply perm_refl|]. assert (right = phi) as -> by lia. by subst left.
    + assert (left < plo).
      { enough (left <> plo) by lia. intros ->. pose proof (pi_same _ _ _ _ _ _ _ _ _ I plo ltac:(lia)). lia. }
      repeat zcase; try (exfalso; lia).
      * assert (cmp (A m right) v = 0) by lia. apply step; [apply perm_swap; lia|step_inv I right|lia]. right.
        rewrite (swap_elem es base Hes). by repeat case_decide; try lia.
      * assert (cmp (A m right) v < 0) by lia. apply step; [apply perm_swap; lia|step_inv I left|lia].
      * assert (0 < cmp (A m right) v) by lia. apply step; [apply perm_refl|step_inv I right|lia]. by right.
      * apply step; [apply perm_rotate; lia|step_inv I right|lia].
Qed.

(** ** Sorting *)

Definition sorted_on (l h : Z) (m : mem) : Prop := forall i j, l <= i <= j -> j < h -> cmp (A m i) (A m j) <= 0.

Lemma perm_all (Q : list Z -> Prop) l h m m' :
  perm_on l h m m' -> (forall i, l <= i < h -> Q (A m i)) -> forall i, l <= i < h -> Q (A m' i).
Proof using. intros Hp H i Hi. destruct (perm_in es base l h m m' i Hp Hi) as (j & Hj & ->). auto. Qed.

(** Sorting the two sides of a partition sorts the whole. *)
Lemma sides_sorted l h v plo phi m m1 m2 :
  partition_inv l h v Loop_right plo phi plo phi m ->
  perm_on l plo m m1 /\ perm_on (phi + 1) h m1 m2 /\ sorted_on l plo m1 /\ sorted_on (phi + 1) h m2 \/
  perm_on (phi + 1) h m m1 /\ perm_on l plo m1 m2 /\ sorted_on (phi + 1) h m1 /\ sorted_on l plo m2 ->
  perm_on l h m m2 /\ sorted_on l h m2.
Proof using C.
  intros [Hr Hless Hsame Hmore _] Hs.
  assert (perm_on l h m m2) as Hp.
  { apply (perm_trans es base l h m m1); destruct Hs as [(?&?&_)|(?&?&_)];
      (eapply perm_weaken; [| |eassumption]; lia). }
  split; [exact Hp|].
  assert (forall i, l <= i < plo -> cmp (A m2 i) v < 0) as Hless'.
  { destruct Hs as [(H1 & H2 & _)|(H1 & H2 & _)]; intros i Hi.
    - rewrite (perm_out es base _ _ _ _ _ H2) by lia. by apply (perm_all (fun x => cmp x v < 0) l plo m m1).
    - apply (perm_all (fun x => cmp x v < 0) l plo m1 m2); [done| |done]. intros j Hj. rewrite (perm_out es base _ _ _ _ _ H1) by lia. by apply Hless. }
  assert (forall i, phi + 1 <= i < h -> 0 < cmp (A m2 i) v) as Hmore'.
  { destruct Hs as [(H1 & H2 & _)|(H1 & H2 & _)]; intros i Hi.
    - apply (perm_all (fun x => 0 < cmp x v) (phi + 1) h m1 m2); [done| |done]. intros j Hj. rewrite (perm_out es base _ _ _ _ _ H1) by lia. apply Hmore. lia.
    - rewrite (perm_out es base _ _ _ _ _ H2) by lia. apply (perm_all (fun x => 0 < cmp x v) (phi + 1) h m m1); [done| |done]. intros. apply Hmore. lia. }
  assert (forall i, plo <= i <= phi -> cmp (A m2 i) v = 0) as Hsame'.
  { destruct Hs as [(H1 & H2 & _)|(H1 & H2 & _)]; intros i Hi;
      rewrite (perm_out es base _ _ _ _ _ H2), (perm_out es base _ _ _ _ _ H1) by lia; by apply Hsame. }
  assert (sorted_on l plo m2 /\ sorted_on (phi + 1) h m2) as [S1 S2].
  { destruct Hs as [(H1 & H2 & S1 & S2)|(H1 & H2 & S2 & S1)]; split; try done; intros i j Hi Hj;
      rewrite !(perm_out es base _ _ _ _ _ H2) by lia; auto. }
  intros i j Hi Hj. destruct (decide (j < plo)); [apply S1; lia|]. destruct (decide (phi < i)); [apply S2; lia|].
  assert (cmp (A m2 i) v <= 0). { destruct (decide (i < plo)); [pose proof (Hless' i)|pose proof (Hsame' i)]; lia. }
  assert (0 <= cmp (A m2 j) v). { destruct (decide (phi < j)); [pose proof (Hmore' j)|pose proof (Hsame' j)]; lia. }
  by apply (cmp_split _ _ v).
Qed.
Lemma qs_partition_S depth k lo hi m :
  qs_partition es compare depth (S k) lo hi m =
    if hi - lo <=? es then mret m
    else
      let pivot := lo + es * ((hi - lo) / u64 (2 * es)) in
      '(pivot_lo, pivot_hi, m) ← partition_loop es compare (Z.to_nat (2 * ((hi - lo) / es))) For lo (hi - es) pivot pivot m;
      if hi - pivot_hi <=? pivot_lo - lo then
        m ← (if 0 <? hi - pivot_hi then
               match depth with
               | O => NoFuel
               | S depth => qs_partition es compare depth (S (Z.to_nat ((hi - pivot_hi) / es))) (pivot_hi + es) hi m
               end
             else mret m);
        qs_partition es compare depth k lo pivot_lo m
      else
        m ← (if 0 <? pivot_lo - lo then
               match depth with
               | O => NoFuel
               | S depth => qs_partition es compare depth (S (Z.to_nat ((pivot_lo - lo) / es))) lo pivot_lo m
               end
             else mret m);
        qs_partition es compare depth k (pivot_hi + es) hi m.
Proof using. by destruct depth. Qed.

Lemma P_diff i j : P i - P j = (i - j) * es.
Proof using. lia. Qed.

Lemma partition_start l h m : 2 <= h - l -> (h - l) * es < 2 ^ 64 ->
  let pivot := P l + es * ((P h - P l) / u64 (2 * es)) in
  exists plo phi m' v, partition_loop es compare (Z.to_nat (2 * ((P h - P l) / es))) For (P l) (P h - es) pivot pivot m = Ret (P plo, P phi, m') /\
    perm_on l h m m' /\ partition_inv l h v Loop_right plo phi plo phi m'.
Proof using Hes C.
  intros Hn Hov. rewrite P_diff, Z.div_mul by lia. cbv zeta. rewrite uwrap_id by (unfold is_u; nia).
  rewrite Z.div_mul_cancel_r by lia. pose proof (Z.div_mod (h - l) 2 ltac:(lia)). pose proof (Z.mod_pos_bound (h - l) 2 ltac:(lia)).
  set (mid := l + (h - l) / 2). replace (P l + es * ((h - l) / 2)) with (P mid) by (unfold mid; lia). rewrite P_pred.
  destruct (partition_run l h (A m mid) (Z.to_nat (2 * (h - l))) For l (h - 1) mid mid m) as (plo & phi & m' & Hrun & Hp & I).
  - split; [unfold mid; lia| | | |discriminate]; intros i Hi; try lia. replace i with mid by lia. apply cmp_refl.
  - lia.
  - by exists plo, phi, m', (A m mid).
Qed.

Lemma qs_run : forall depth k l h m,
  l <= h -> (h - l) * es < 2 ^ 64 -> h - l < 2 ^ (Z.of_nat depth + 1) -> h - l < Z.of_nat k ->
  exists m', qs_partition es compare depth k (P l) (P h) m = Ret m' /\ perm_on l h m m' /\ sorted_on l h m'.
Proof using Hes C.
  induction depth as [depth IHd] using lt_wf_ind. induction k as [|k IHk]; intros l h m Hlh Hov Hd Hk; [lia|].
  rewrite qs_partition_S. destruct (P h - P l <=? es) eqn:E; zbool.
  { exists m. split; [done|]. split; [apply perm_refl|]. intros i j Hi Hj. assert (i = j) as -> by nia. pose proof (cmp_refl (A m j)). lia. }
  destruct (partition_start l h m) as (plo & phi & m1 & v & Hrun & Hp1 & I); [nia|done|]. cbv zeta in *. rewrite Hrun. cbn [mbind res_bind].
  pose proof (pi_range _ _ _ _ _ _ _ _ _ I) as Hr. rewrite !P_diff, !Z.div_mul, P_succ by lia.
  destruct depth as [|depth]; [change (2 ^ (Z.of_nat 0 + 1)) with 2 in Hd; nia|].
  rewrite Nat2Z.inj_succ in Hd. unfold Z.succ in Hd. rewrite Z.pow_add_r in Hd by lia.
  destruct ((h - phi) * es <=? (plo - l) * es) eqn:Eside; zbool.
  - rewrite (proj2 (Z.ltb_lt 0 _)) by nia.
    destruct (IHd depth ltac:(lia) (S (Z.to_nat (h - phi))) (phi + 1) h m1) as (m2 & -> & Hp2 & S2); [nia..|]. cbn [mbind res_bind].
    destruct (IHk l plo m2) as (m3 & -> & Hp3 & S3); [nia..| |lia|].
    { rewrite Nat2Z.inj_succ. unfold Z.succ. rewrite Z.pow_add_r by lia. lia. }
    destruct (sides_sorted l h v plo phi m1 m2 m3 I) as [Hp S]; [by right|]. exists m3. split; [done|]. split; [|done]. by apply (perm_trans es base l h m m1).
  - destruct (decide (l < plo)).
    + rewrite (proj2 (Z.ltb_lt 0 _)) by nia.
      destruct (IHd depth ltac:(lia) (S (Z.to_nat (plo - l))) l plo m1) as (m2 & -> & Hp2 & S2); [nia..|]. cbn [mbind res_bind].
      destruct (IHk (phi + 1) h m2) as (m3 & -> & Hp3 & S3); [nia..| |lia|].
      { rewrite Nat2Z.inj_succ. unfold Z.succ. rewrite Z.pow_add_r by lia. lia. }
      destruct (sides_sorted l h v plo phi m1 m2 m3 I) as [Hp S]; [by left|]. exists m3. split; [done|]. split; [|done]. by apply (perm_trans es base l h m m1).
    + rewrite (proj2 (Z.ltb_ge 0 _)) by nia. cbn [mbind res_bind mret res_ret].
      destruct (IHk (phi + 1) h m1) as (m3 & -> & Hp3 & S3); [nia..| |lia|].
      { rewrite Nat2Z.inj_succ. unfold Z.succ. rewrite Z.pow_add_r by lia. lia. }
      destruct (sides_sorted l h v plo phi m1 m1 m3 I) as [Hp S].
      { left. split; [apply perm_refl|]. split; [done|]. split; [|done]. intros i j. lia. }
      exists m3. split; [done|]. split; [|done]. by apply (perm_trans es base l h m m1).
Qed.
End Sorting.

(** C28: [qsort] with a comparison function that orders the elements returns with the elements
    of the array in order: the new array is a permutation of the old one, every element is
    at most the ones behind it, and no byte outside of the array changes.  Calls of
    [qs_partition] nest at most as deep as the logarithm of the number of elements. *)
Theorem qsort_sorts base nmemb size compare cmp m :
  comparison size compare cmp -> 0 < base -> 0 <= nmemb -> 0 < size -> base + nmemb * size <= 2 ^ 64 ->
  exists m', qsort (Z.to_nat (Z.log2 nmemb)) base nmemb size (Some compare) m = Ret m' /\
    ((fun i => elem size m' (base + i * size)) <$> seqZ 0 nmemb) ≡ₚ ((fun i => elem size m (base + i * size)) <$> seqZ 0 nmemb) /\
    (forall i j, 0 <= i <= j -> j < nmemb -> cmp (elem size m' (base + i * size)) (elem size m' (base + j * size)) <= 0) /\
    (forall x, ~ (base <= x < base + nmemb * size) -> m' x = m x).
Proof.
  intros C Hb Hn Hs Hov. unfold qsort. rewrite (proj2 (Z.eqb_neq size 0)), (proj2 (Z.eqb_neq base 0)) by lia.
  destruct (nmemb =? 0) eqn:E; zbool; cbn [orb].
  { subst. exists m. split; [done|]. split; [done|]. split; [lia|done]. }
  rewrite uwrap_id by (unfold is_u; nia). pose proof (Z.log2_nonneg nmemb). pose proof (Z.log2_spec nmemb ltac:(lia)).
  destruct (qs_run size base Hs compare cmp C (Z.to_nat (Z.log2 nmemb)) (S (Z.to_nat nmemb)) 0 nmemb m) as (m' & Hrun & Hp & S).
  - lia.
  - nia.
  - rewrite Z2Nat.id by done. lia.
  - lia.
  - rewrite Z.mul_0_l, Z.add_0_r in Hrun. exists m'. split; [exact Hrun|]. split; [by apply perm_Permutation|]. split; [exact S|].
    intros x Hx. apply (perm_bytes size base Hs 0 nmemb m m' x Hp). lia.
Qed.

(** An array of three numbers of two bytes. *)
Definition number (x : list Z) : Z := match x with [a; b] => a + 256 * b | _ => 0 end.
Definition compare_numbers (m : mem) (a b : Z) : Z := (m a + 256 * m (a + 1)) - (m b + 256 * m (b + 1)).
Definition three_numbers (x : Z) : Z := nth (Z.to_nat (x - 100)) [7; 0; 3; 1; 3; 0] 0.

Lemma compare_numbers_ok : comparison 2 compare_numbers (fun x y => number x - number y).
Proof.
  split; [|lia..]. intros m a b. unfold compare_numbers. change (elem 2 m a) with [m (a + 0); m (a + 1)].
  change (elem 2 m b) with [m (b + 0); m (b + 1)]. cbn [number]. by rewrite !Z.add_0_r.
Qed.

Lemma qsort_sorts_witness :
  exists m', qsort 1 100 3 2 (Some compare_numbers) three_numbers = Ret m' /\
    number (elem 2 m' (100 + 0 * 2)) - number (elem 2 m' (100 + 2 * 2)) <= 0.
Proof.
  destruct (qsort_sorts 100 3 2 compare_numbers (fun x y => number x - number y) three_numbers compare_numbers_ok
    ltac:(lia) ltac:(lia) ltac:(lia) ltac:(lia)) as (m' & Hrun & _ & S & _).
  exists m'. split; [exact Hrun|]. exact (S 0 2 ltac:(lia) ltac:(lia)).
Defined.
