(* ===== verification/Print.v ===== *)
(** * Formatted printing (kernel/lib/print_impl.c)

    [print_impl] writes with a function that takes one character; a run of the model is
    the list of the characters the function is called with, in their order, and the number
    that is returned.  [vsnprintf] passes them to [put_char_in_buffer].  Strings are lists
    of characters without the terminating 0, arguments are words of 64 bits or strings.
    The sizes of the buffers are those of 64-bit targets. *)
From stdpp Require Import list numbers.
From S2P Require Import Prelude CString.

Definition INT_2_ASCII (x : Z) : Z := x + 48.
Definition ASCII_2_INT (x : Z) : Z := x - 48.

(** ** Numbers

    The buffer of [max_len] characters is filled from its end; the list holds the last
    [num_len] of them. *)

(** [buffer[MAX_LEN - num_len - 1] = c; num_len++] *)
Definition put_front (max_len c : Z) (buffer : list Z) : res (list Z) :=
  if Z.of_nat (length buffer) <? max_len then mret (c :: buffer) else Undef.

Fixpoint pad_front (max_len : Z) (padding : nat) (padding_char : Z) (buffer : list Z) : res (list Z) :=
  match padding with
  | O => mret buffer
  | S padding => buffer ← put_front max_len padding_char buffer; pad_front max_len padding padding_char buffer
  end.

(** [for (size_t i = 0; i < MAX_LEN; ++i)]; [num_len] stays 0 if the number is too long. *)
Fixpoint number_loop (k : nat) (base : Z) (digit : Z -> Z) (value : Z) (buffer : list Z) : list Z :=
  match k with
  | O => []
  | S k =>
      let rem := Z.rem value base in
      let value := Z.quot value base in
      let rem := if rem <? 0 then rem * -1 else rem in
      let buffer := digit rem :: buffer in
      if value =? 0 then buffer else number_loop k base digit value buffer
  end.

(** [if (padding > num_len)]: the padding is converted to [size_t]. *)
Definition pad_number (max_len padding padding_char : Z) (buffer : list Z) : res (list Z) :=
  let num_len := Z.of_nat (length buffer) in
  if num_len <? u64 padding then pad_front max_len (Z.to_nat (padding - num_len)) padding_char buffer else mret buffer.

Definition print_signed_long_long (padding padding_char value : Z) : res (list Z) :=
  let print_minus := value <? 0 in
  let value := if print_minus then s64 (value * -1) else value in
  let buffer := number_loop 19 10 INT_2_ASCII value [] in
  buffer ← (if (print_minus && (padding_char =? 32))%bool then put_front 19 45 buffer else mret buffer);
  let num_len := Z.of_nat (length buffer) in
  buffer ←
    (if num_len <? u64 padding then
       let padding := padding - num_len in
       let padding := if (print_minus && (padding_char =? 48))%bool then padding - 1 else padding in
       pad_front 19 (Z.to_nat padding) padding_char buffer
     else mret buffer);
  if (print_minus && (padding_char =? 48))%bool then put_front 19 45 buffer else mret buffer.

Definition print_signed_int (padding padding_char value : Z) : res (list Z) := print_signed_long_long padding padding_char value.
Definition print_signed_long (padding padding_char value : Z) : res (list Z) := print_signed_long_long padding padding_char value.

Definition print_unsigned_long_long (padding padding_char value : Z) : res (list Z) :=
  pad_number 20 padding padding_char (number_loop 20 10 INT_2_ASCII value []).
Definition print_unsigned_int (padding padding_char value : Z) : res (list Z) := print_unsigned_long_long padding padding_char value.
Definition print_unsigned_long (padding padding_char value : Z) : res (list Z) := print_unsigned_long_long padding padding_char value.

Definition hex_digit (upperCase : bool) (rem : Z) : Z :=
  let asciiOffset := if upperCase then 65 else 97 in
  if rem <=? 9 then INT_2_ASCII rem else (rem - 10) + asciiOffset.

Definition print_unsigned_hex (padding padding_char value : Z) (upperCase : bool) : res (list Z) :=
  pad_number 16 padding padding_char (number_loop 16 16 (hex_digit upperCase) value []).

Definition print_unsigned_octal (padding padding_char value : Z) : res (list Z) :=
  pad_number 22 padding padding_char (number_loop 22 8 INT_2_ASCII value []).

Definition print_string (value : list Z) : list Z := value.

(** ** Arguments *)

Inductive arg := Word (w : Z) | Str (s : list Z).

Definition va_word (vl : list arg) : res (Z * list arg) :=
  match vl with Word w :: vl => mret (w, vl) | _ => Undef end.
Definition va_string (vl : list arg) : res (list Z * list arg) :=
  match vl with Str s :: vl => mret (s, vl) | _ => Undef end.

(** ** The format *)

(** The optional padding, its character and the rest of the format; [None] if the format
    ends. *)
Definition parse_padding (format : list Z) : option (Z * Z * list Z) :=
  match format with
  | [] => None
  | c :: rest =>
      if ((48 <=? c) && (c <? 57))%bool then
        let '(padding_char, format) := if c =? 48 then (48, rest) else (32, format) in
        match format with
        | [] => None
        | c :: format =>
            let padding := ASCII_2_INT c in
            let padding := if ((9 <? padding) || (padding <? 0))%bool then 0 else padding in
            match format with
            | [] => None
            | c :: rest =>
                if ((48 <=? c) && (c <? 57))%bool then
                  match rest with
                  | [] => None
                  | _ => Some (padding * 10 + ASCII_2_INT c, padding_char, rest)
                  end
                else Some (padding, padding_char, format)
            end
        end
      else Some (0, 32, format)
  end.

Fixpoint parse_l (k : nat) (format : list Z) (length_mod : Z) : Z * list Z :=
  match k with
  | O => (length_mod, format)
  | S k =>
      match format with
      | 108 :: rest => parse_l k rest (length_mod + 1)
      | _ => parse_l k format length_mod
      end
  end.

Definition parse_length (format : list Z) : Z * list Z :=
  let '(length_mod, format) := parse_l 2 format 0 in
  let '(length_mod, format) := match format with 76 :: rest => (2, rest) | _ => (length_mod, format) end in
  match format with 122 :: rest => (1, rest) | _ => (length_mod, format) end.

(** The conversion [c]: the characters, how many there are, and the arguments that are
    left. *)
Definition conversion (length_mod padding padding_char c : Z) (vl : list arg) : res (list Z * list arg) :=
  if ((c =? 100) || (c =? 105))%bool then
    '(w, vl) ← va_word vl;
    out ← (if length_mod =? 0 then print_signed_int padding padding_char (s32 w)
           else if length_mod =? 1 then print_signed_long padding padding_char (s64 w)
           else print_signed_long_long padding padding_char (s64 w));
    mret (out, vl)
  else if c =? 117 then
    '(w, vl) ← va_word vl;
    out ← (if length_mod =? 0 then print_unsigned_int padding padding_char (u32 w)
           else if length_mod =? 1 then print_unsigned_long padding padding_char (u64 w)
           else print_unsigned_long_long padding padding_char (u64 w));
    mret (out, vl)
  else if ((c =? 120) || (c =? 88))%bool then
    '(w, vl) ← va_word vl; out ← print_unsigned_hex padding padding_char (u64 w) (c =? 88); mret (out, vl)
  else if c =? 112 then
    '(w, vl) ← va_word vl; out ← print_unsigned_hex padding padding_char (u64 w) false; mret (out, vl)
  else if c =? 115 then '(s, vl) ← va_string vl; mret (print_string s, vl)
  else if c =? 99 then '(w, vl) ← va_word vl; mret ([s32 w], vl)
  else if c =? 111 then
    '(w, vl) ← va_word vl; out ← print_unsigned_octal padding padding_char (u64 w); mret (out, vl)
  else mret ([], vl).

(** The characters and [charsWritten].  A format that ends inside of a conversion is left
    behind its end. *)
Fixpoint print_impl_loop (fuel : nat) (format : list Z) (vl : list arg) (out : list Z) (charsWritten : Z) : res (list Z * Z) :=
  match fuel with
  | O => NoFuel
  | S fuel =>
      match format with
      | [] => mret (out, charsWritten)
      | c :: rest =>
          if c =? 10 then print_impl_loop fuel rest vl (out ++ [10]) (s32 (charsWritten + 1))
          else if c =? 37 then
            match parse_padding rest with
            | None => mret (out, charsWritten)
            | Some (padding, padding_char, format) =>
                let '(length_mod, format) := parse_length format in
                match format with
                | [] => Undef
                | c :: rest =>
                    '(s, vl) ← conversion length_mod padding padding_char c vl;
                    print_impl_loop fuel rest vl (out ++ s) (s32 (charsWritten + Z.of_nat (length s)))
                end
            end
          else print_impl_loop fuel rest vl (out ++ [c]) (s32 (charsWritten + 1))
      end
  end.

Definition print_impl (format : list Z) (vl : list arg) : res (list Z * Z) :=
  print_impl_loop (S (length format)) format vl [] 0.

(** ** Printing to memory *)

Record sprintf_payload := mk_payload { n_left : Z; dst_pos : Z; p_mem : mem }.

Definition put_char_in_buffer (p : sprintf_payload) (c : Z) : sprintf_payload :=
  if n_left p =? 0 then p
  else mk_payload (n_left p - 1) (dst_pos p + 1) (store (p_mem p) (dst_pos p) (u8 c)).

Definition vsnprintf (dst n : Z) (format : list Z) (vl : list arg) (m : mem) : res (Z * mem) :=
  '(out, ret) ← print_impl format vl;
  let payload := foldl put_char_in_buffer (mk_payload n dst m) out in
  mret (ret,
    if 0 <? n then
      if n_left payload =? 0 then store (p_mem payload) (dst_pos payload - 1) 0
      else store (p_mem payload) (dst_pos payload) 0
    else p_mem payload).

Definition snprintf (dst n : Z) (format : list Z) (vl : list arg) (m : mem) : res (Z * mem) := vsnprintf dst n format vl m.

(** ** Numerals *)

Definition numeral_value (base : Z) (ds : list Z) : Z := foldl (fun n d => n * base + d) 0 ds.

(** [l] is [value] written in [base]: its digits have the value, and it starts with 0 only if
    it is 0. *)
Definition numeral (base : Z) (digit : Z -> Z) (value : Z) (l : list Z) : Prop :=
  exists d ds, l = digit <$> d :: ds /\ Forall (fun d => 0 <= d < base) (d :: ds) /\ numeral_value base (d :: ds) = value /\
    (d = 0 -> ds = []).

Lemma quot_rem_abs v base : 0 < base ->
  Z.abs (Z.quot v base) = Z.abs v / base /\ (if Z.rem v base <? 0 then Z.rem v base * -1 else Z.rem v base) = Z.abs v mod base.
Proof.
  intros Hb. pose proof (Z.quot_abs v base ltac:(lia)) as Hq. pose proof (Z.rem_abs v base ltac:(lia)) as Hr.
  rewrite (Z.abs_eq base), Z.quot_div_nonneg in Hq by lia. rewrite (Z.abs_eq base), Z.rem_mod_nonneg in Hr by lia.
  split; [done|]. rewrite Hr. zcase; lia.
Qed.

Lemma numeral_snoc base digit v l d : 0 < base -> numeral base digit v l -> v <> 0 -> 0 <= d < base ->
  numeral base digit (v * base + d) (l ++ [digit d]).
Proof.
  intros Hb (d0 & ds & -> & Hds & Hv & H0) Hnz Hd. exists d0, (ds ++ [d]). split; [|split; [|split]].
  - change (d0 :: ds ++ [d]) with ((d0 :: ds) ++ [d]). by rewrite fmap_app.
  - change (d0 :: ds ++ [d]) with ((d0 :: ds) ++ [d]). apply Forall_app. split; [done|]. by constructor.
  - change (d0 :: ds ++ [d]) with ((d0 :: ds) ++ [d]). unfold numeral_value in *. rewrite foldl_app, Hv. done.
  - intros ->. rewrite (H0 eq_refl) in Hv. done.
Qed.

Lemma number_loop_spec base digit : 1 < base -> forall k v buffer, (0 < k)%nat -> Z.abs v < base ^ Z.of_nat k ->
  exists l, number_loop k base digit v buffer = l ++ buffer /\ numeral base digit (Z.abs v) l.
Proof.
  intros Hb. induction k as [|k IH]; intros v buffer Hk Hv; [lia|]. cbn [number_loop].
  destruct (quot_rem_abs v base ltac:(lia)) as [Hq ->]. pose proof (Z.div_mod (Z.abs v) base ltac:(lia)).
  pose proof (Z.mod_pos_bound (Z.abs v) base ltac:(lia)). zcase.
  - assert (Z.abs v / base = 0) by lia. exists [digit (Z.abs v mod base)]. split; [done|].
    exists (Z.abs v mod base), []. split; [done|]. split; [by constructor|]. split; [cbn; lia|done].
  - rewrite Nat2Z.inj_succ, Z.pow_succ_r in Hv by lia. assert (Z.abs v / base < base ^ Z.of_nat k) by (apply Z.div_lt_upper_bound; lia).
    destruct k as [|k]; [change (base ^ Z.of_nat 0) with 1 in *; lia|].
    destruct (IH (Z.quot v base) (digit (Z.abs v mod base) :: buffer)) as (l & -> & Hl); [lia|lia|].
    exists (l ++ [digit (Z.abs v mod base)]). rewrite <- app_assoc. split; [done|].
    rewrite Hq in Hl. replace (Z.abs v) with (Z.abs v / base * base + Z.abs v mod base) at 1 by lia. apply numeral_snoc; [lia|done|lia|done].
Qed.

Lemma numeral_value_ge base : 0 <= base -> forall ds n, 0 <= n -> Forall (fun d => 0 <= d < base) ds ->
  n * base ^ Z.of_nat (length ds) <= foldl (fun n d => n * base + d) n ds.
Proof.
  intros Hb. induction ds as [|d ds IH]; intros n Hn Hds; cbn [foldl length]; [rewrite Z.pow_0_r; lia|].
  apply Forall_cons in Hds as [Hd Hds]. etrans; [|apply IH; [nia|done]].
  rewrite Nat2Z.inj_succ, Z.pow_succ_r by lia. pose proof (Z.pow_nonneg base (Z.of_nat (length ds)) Hb). nia.
Qed.

Lemma numeral_length base digit v l k : 1 < base -> numeral base digit v l -> v < base ^ Z.of_nat k -> (0 < k)%nat -> (length l <= k)%nat.
Proof.
  intros Hb (d & ds & -> & Hds & Hv & H0) Hlt Hk. rewrite length_fmap. cbn [length].
  destruct (decide (d = 0)) as [->|Hd]; [rewrite (H0 eq_refl); cbn; lia|]. apply Forall_cons in Hds as [Hd' Hds].
  pose proof (numeral_value_ge base ltac:(lia) ds d ltac:(lia) Hds) as Hge. unfold numeral_value in Hv. cbn [foldl] in Hv. rewrite Z.mul_0_l, Z.add_0_l in Hv. rewrite Hv in Hge.
  apply Nat.nlt_ge. intros Hn. assert (base ^ Z.of_nat k <= base ^ Z.of_nat (length ds)) by (apply Z.pow_le_mono_r; lia).
  pose proof (Z.pow_pos_nonneg base (Z.of_nat (length ds)) ltac:(lia) ltac:(lia)). nia.
Qed.

(** ** Padding *)

(** The characters, if they fit the buffer on the stack. *)
Definition fits (max_len : Z) (out : list Z) : res (list Z) := if Z.of_nat (length out) <=? max_len then Ret out else Undef.

Definition padded (padding padding_char : Z) (l : list Z) : list Z :=
  replicate (Z.to_nat (padding - Z.of_nat (length l))) padding_char ++ l.

Definition signed_text (padding padding_char value : Z) (l : list Z) : list Z :=
  let sign := if value <? 0 then [45] else [] in
  if padding_char =? 48 then sign ++ padded (padding - Z.of_nat (length sign)) 48 l else padded padding padding_char (sign ++ l).

Lemma put_front_spec max_len c l : put_front max_len c l = fits max_len (c :: l).
Proof. unfold put_front, fits. cbn [length]. repeat zcase; done || lia. Qed.

Lemma pad_front_spec max_len c : forall k l, Z.of_nat (length l) <= max_len -> pad_front max_len k c l = fits max_len (replicate k c ++ l).
Proof.
  induction k as [|k IH]; intros l Hl; cbn [pad_front].
  { unfold fits. by rewrite (proj2 (Z.leb_le _ _)) by done. }
  rewrite put_front_spec. unfold fits at 1. cbn [length]. zcase; cbn [mbind res_bind].
  - rewrite IH by (cbn [length]; lia). f_equal. change (c :: l) with ([c] ++ l). rewrite app_assoc, <- replicate_S_end. done.
  - unfold fits. rewrite (proj2 (Z.leb_gt _ _)); [done|]. cbn [length app replicate]. rewrite length_app. lia.
Qed.

Lemma pad_number_spec max_len padding c l : 0 <= padding < 2 ^ 63 -> Z.of_nat (length l) <= max_len ->
  pad_number max_len padding c l = fits max_len (padded padding c l).
Proof.
  intros Hp Hl. unfold pad_number, padded. rewrite uwrap_id by (unfold is_u; lia). zcase; [by apply pad_front_spec|].
  replace (Z.to_nat (padding - Z.of_nat (length l))) with 0%nat by lia. unfold fits. by rewrite (proj2 (Z.leb_le _ _)) by done.
Qed.

Lemma unsigned_spec max_len base digit padding c v : 1 < base -> (0 < max_len)%nat -> 0 <= v < base ^ Z.of_nat max_len -> 0 <= padding < 2 ^ 63 ->
  exists l, numeral base digit v l /\
    pad_number (Z.of_nat max_len) padding c (number_loop max_len base digit v []) = fits (Z.of_nat max_len) (padded padding c l).
Proof.
  intros Hb Hm Hv Hp. destruct (number_loop_spec base digit Hb max_len v [] Hm ltac:(lia)) as (l & -> & Hl).
  rewrite app_nil_r. rewrite Z.abs_eq in Hl by lia. exists l. split; [done|]. apply pad_number_spec; [done|].
  pose proof (numeral_length base digit v l max_len Hb Hl ltac:(lia) Hm). lia.
Qed.

Lemma signed_spec padding c v : 0 <= padding < 2 ^ 63 -> c = 32 \/ c = 48 -> is_s 64 v ->
  exists l, numeral 10 INT_2_ASCII (Z.abs v) l /\ print_signed_long_long padding c v = fits 19 (signed_text padding c v l).
Proof.
  intros Hp Hc Hv. unfold is_s in Hv. unfold print_signed_long_long, signed_text.
  assert (Z.abs (if v <? 0 then s64 (v * -1) else v) = Z.abs v) as Habs.
  { zcase; [|done]. destruct (decide (v = - 2 ^ 63)) as [->|]; [done|]. rewrite swrap_id; [lia|unfold is_s; lia|lia]. }
  destruct (number_loop_spec 10 INT_2_ASCII ltac:(lia) 19 (if v <? 0 then s64 (v * -1) else v) [] ltac:(lia) ltac:(lia)) as (l & Hrun & Hl).
  rewrite Habs in Hl. rewrite Hrun, app_nil_r. exists l. split; [done|].
  pose proof (numeral_length 10 _ _ l 19 ltac:(lia) Hl ltac:(lia) ltac:(lia)). rewrite (uwrap_id 64 padding) by (unfold is_u; lia).
  destruct Hc as [-> | ->]; destruct (v <? 0); cbn [andb Z.eqb Pos.eqb app length].
  - rewrite put_front_spec. unfold fits at 1. cbn [length]. zcase; cbn [mbind res_bind].
    + rewrite <- pad_number_spec by (cbn [length]; lia). unfold pad_number. rewrite (uwrap_id 64 padding) by (unfold is_u; lia). cbn [length].
      zcase; [|done]. by destruct (pad_front 19 _ 32 (45 :: l)).
    + unfold fits. rewrite (proj2 (Z.leb_gt _ _)); [done|]. unfold padded. rewrite length_app. cbn [length]. lia.
  - cbn [mbind res_bind mret res_ret]. rewrite <- pad_number_spec by lia. unfold pad_number. rewrite (uwrap_id 64 padding) by (unfold is_u; lia).
    zcase; [|done]. by destruct (pad_front 19 _ 32 l).
  - cbn [mbind res_bind mret res_ret]. assert ((if Z.of_nat (length l) <? padding then pad_front 19 (Z.to_nat (padding - Z.of_nat (length l) - 1)) 48 l else mret l)
      = fits 19 (padded (padding - 1) 48 l)) as ->.
    { unfold padded. zcase.
      - rewrite pad_front_spec by lia. do 3 f_equal. lia.
      - replace (Z.to_nat (padding - 1 - Z.of_nat (length l))) with 0%nat by lia. unfold fits. by rewrite (proj2 (Z.leb_le _ _)) by (cbn; lia). }
    unfold fits at 1. zcase; cbn [mbind res_bind]; [by rewrite put_front_spec|].
    unfold fits. rewrite (proj2 (Z.leb_gt _ _)); [done|]. change (Z.of_nat 1) with 1. cbn [length]. lia.
  - cbn [mbind res_bind mret res_ret]. rewrite Z.sub_0_r. rewrite <- pad_number_spec by lia. unfold pad_number. rewrite (uwrap_id 64 padding) by (unfold is_u; lia).
    zcase; [|done]. by destruct (pad_front 19 _ 48 l).
Qed.

(** C29: numbers are printed in full, and only if they fit.  The four functions write the
    numeral of the number, with its sign, padded on the left with blanks in front of the
    sign or with zeros behind it, if that takes no more characters than the buffer on the
    stack has (19, 20, 16 or 22); if it takes more they write in front of the buffer. *)
Theorem print_numbers_spec padding padding_char v :
  0 <= padding < 2 ^ 63 -> padding_char = 32 \/ padding_char = 48 ->
  (is_s 64 v -> exists l, numeral 10 INT_2_ASCII (Z.abs v) l /\
     print_signed_long_long padding padding_char v = fits 19 (signed_text padding padding_char v l)) /\
  (is_u 64 v ->
     (exists l, numeral 10 INT_2_ASCII v l /\ print_unsigned_long_long padding padding_char v = fits 20 (padded padding padding_char l)) /\
     (forall upper, exists l, numeral 16 (hex_digit upper) v l /\
        print_unsigned_hex padding padding_char v upper = fits 16 (padded padding padding_char l)) /\
     (exists l, numeral 8 INT_2_ASCII v l /\ print_unsigned_octal padding padding_char v = fits 22 (padded padding padding_char l))).
Proof.
  intros Hp Hc. split; [by apply signed_spec|]. unfold is_u. intros Hv. split; [|split].
  - by apply (unsigned_spec 20 10); lia.
  - intros upper. by apply (unsigned_spec 16 16); lia.
  - by apply (unsigned_spec 22 8); lia.
Qed.

Lemma print_numbers_spec_witness :
  print_signed_long_long 0 32 (- 10 ^ 18) = Undef /\ print_signed_long_long 6 48 (-42) = Ret [45; 48; 48; 48; 52; 50] /\
  exists l, numeral 10 INT_2_ASCII 42 l /\ Ret [45; 48; 48; 48; 52; 50] = fits 19 (signed_text 6 48 (-42) l).
Proof.
  split; [vm_compute; reflexivity|]. split; [vm_compute; reflexivity|].
  exact (proj1 (print_numbers_spec 6 48 (-42) ltac:(lia) ltac:(right; reflexivity)) ltac:(unfold is_s; lia)).
Defined.

(** ** Printing to memory *)

Lemma swrap_add_l w a b : 0 < w -> swrap w (swrap w a + b) = swrap w (a + b).
Proof.
  intros Hw. pose proof (Z.pow_pos_nonneg 2 w ltac:(lia) ltac:(lia)). unfold swrap. f_equal.
  replace ((a + 2 ^ (w - 1)) mod 2 ^ w - 2 ^ (w - 1) + b + 2 ^ (w - 1)) with ((a + 2 ^ (w - 1)) mod 2 ^ w + b) by lia.
  rewrite Zplus_mod_idemp_l. f_equal. lia.
Qed.

Lemma parse_padding_length format padding c rest : parse_padding format = Some (padding, c, rest) -> (length rest <= length format)%nat.
Proof.
  unfold parse_padding. destruct format as [|c0 format]; [done|]. zcase; [|by intros [= <- <- <-]].
  destruct (c0 =? 48); destruct format as [|c1 format]; try done; try (destruct format as [|c2 format]; try done);
    repeat zcase; try (destruct format as [|c3 format]); try done; intros [= <- <- <-]; cbn [length]; lia.
Qed.

Lemma parse_l_length : forall k format n n' rest, parse_l k format n = (n', rest) -> (length rest <= length format)%nat.
Proof.
  induction k as [|k IH]; intros format n n' rest; cbn [parse_l]; [by intros [= <- <-]|].
  repeat case_match; subst; intros H%IH; cbn [length] in *; lia.
Qed.

Lemma parse_length_length format n rest : parse_length format = (n, rest) -> (length rest <= length format)%nat.
Proof.
  unfold parse_length. destruct (parse_l 2 format 0) as [n1 r1] eqn:E1. apply parse_l_length in E1.
  destruct (match r1 with 76 :: rest => (2, rest) | _ => (n1, r1) end) as [n2 r2] eqn:E2.
  assert (length r2 <= length r1)%nat by (repeat case_match; injection E2 as <- <-; subst; cbn [length]; lia).
  intros E3. enough (length rest <= length r2)%nat by lia. repeat case_match; injection E3 as <- <-; subst; cbn [length]; lia.
Qed.

Lemma pad_front_fuel max_len c : forall k l, pad_front max_len k c l <> NoFuel.
Proof. induction k as [|k IH]; intros l; cbn [pad_front]; [done|]. unfold put_front. zcase; cbn [mbind res_bind]; [apply IH|done]. Qed.

Lemma pad_number_fuel max_len padding c l : pad_number max_len padding c l <> NoFuel.
Proof. unfold pad_number. zcase; [apply pad_front_fuel|done]. Qed.

Lemma bind_fuel {X Y} (r : res X) (f : X -> res Y) : r <> NoFuel -> (forall x, f x <> NoFuel) -> (r ≫= f) <> NoFuel.
Proof. destruct r; cbn; auto. Qed.

Lemma print_signed_fuel padding c v : print_signed_long_long padding c v <> NoFuel.
Proof.
  unfold print_signed_long_long. assert (forall l, put_front 19 45 l <> NoFuel) by (intros l; unfold put_front; zcase; done).
  apply bind_fuel; [destruct (_ && _)%bool; [auto|done]|]. intros l.
  apply bind_fuel; [zcase; [apply pad_front_fuel|done]|]. intros l'. destruct (_ && _)%bool; [auto|done].
Qed.

Lemma conversion_fuel length_mod padding padding_char c vl : conversion length_mod padding padding_char c vl <> NoFuel.
Proof.
  assert (forall x, va_word x <> NoFuel /\ va_string x <> NoFuel) as Hva by (intros [|[]]; done).
  unfold conversion, print_unsigned_hex, print_unsigned_octal, print_unsigned_int, print_unsigned_long, print_unsigned_long_long.
  repeat match goal with |- (if ?b then _ else _) <> _ => destruct b end; try done;
    (apply bind_fuel; [apply Hva|intros [w vl']; cbv beta iota]); try done; (apply bind_fuel; [|done]);
    repeat match goal with |- (if ?b then _ else _) <> _ => destruct b end; first [apply print_signed_fuel | apply pad_number_fuel].
Qed.

Lemma print_loop_run : forall fuel format vl out n, (length format < fuel)%nat -> n = s32 (Z.of_nat (length out)) ->
  match print_impl_loop fuel format vl out n with Ret (out', n') => n' = s32 (Z.of_nat (length out')) | NoFuel => False | _ => True end.
Proof.
  induction fuel as [|fuel IH]; intros format vl out n Hf Hn; [lia|]. cbn [print_impl_loop].
  assert (forall s, s32 (n + Z.of_nat (length s)) = s32 (Z.of_nat (length (out ++ s)))) as Hs.
  { intros s. rewrite Hn, swrap_add_l, length_app by lia. f_equal. lia. }
  destruct format as [|c rest]; [done|]. cbn [length] in Hf.
  destruct (c =? 10); [apply IH; [lia|apply (Hs [10])]|]. destruct (c =? 37); [|apply IH; [lia|apply (Hs [c])]].
  destruct (parse_padding rest) as [[[padding padding_char] r1]|] eqn:E1; [|done]. apply parse_padding_length in E1.
  destruct (parse_length r1) as [length_mod r2] eqn:E2. apply parse_length_length in E2.
  destruct r2 as [|c2 r2]; [done|]. cbn [length] in E2.
  pose proof (conversion_fuel length_mod padding padding_char c2 vl) as Hc.
  destruct (conversion length_mod padding padding_char c2 vl) as [[s vl']| | | |]; cbn [mbind res_bind]; try done.
  apply IH; [lia|apply Hs].
Qed.

Lemma put_chars_run : forall out n dst m, 0 <= n ->
  let p := foldl put_char_in_buffer (mk_payload n dst m) out in
  let k := Z.min n (Z.of_nat (length out)) in
  n_left p = n - k /\ dst_pos p = dst + k /\
  forall x, p_mem p x = if decide (dst <= x < dst + k) then u8 (default 0 (out !! Z.to_nat (x - dst))) else m x.
Proof.
  induction out as [|c out IH]; intros n dst m Hn; cbn [foldl length].
  { rewrite Z.min_r by (cbn; lia). cbn. repeat split; try lia. intros x. case_decide; [lia|done]. }
  unfold put_char_in_buffer at 2 4 6. cbn [n_left dst_pos p_mem]. zcase.
  - subst. destruct (IH 0 dst m ltac:(lia)) as (-> & -> & Hm). rewrite !Z.min_l in * by lia. repeat split; try lia.
    intros x. rewrite Hm. repeat case_decide; lia || done.
  - destruct (IH (n - 1) (dst + 1) (store m dst (u8 c)) ltac:(lia)) as (-> & -> & Hm). rewrite Nat2Z.inj_succ. repeat split; try lia.
    intros x. rewrite Hm. unfold store. repeat case_decide; try lia; repeat zcase; try lia.
    + replace (Z.to_nat (x - dst)) with (S (Z.to_nat (x - (dst + 1)))) by lia. done.
    + subst. by rewrite Z.sub_diag.
Qed.

Lemma vsnprintf_run dst n format vl m out ret : 0 <= n -> print_impl format vl = Ret (out, ret) ->
  exists m', vsnprintf dst n format vl m = Ret (ret, m') /\
    (forall x, ~ (dst <= x < dst + Z.min n (Z.of_nat (length out) + 1)) -> m' x = m x) /\
    (0 < n -> forall x, dst <= x <= dst + Z.min (n - 1) (Z.of_nat (length out)) ->
       m' x = if decide (x = dst + Z.min (n - 1) (Z.of_nat (length out))) then 0 else u8 (default 0 (out !! Z.to_nat (x - dst)))).
Proof.
  intros Hn Hp. unfold vsnprintf. rewrite Hp. cbn [mbind res_bind].
  destruct (put_chars_run out n dst m Hn) as (-> & -> & Hm). eexists. split; [reflexivity|]. split.
  - intros x Hx. repeat zcase; unfold store; repeat zcase; try lia; rewrite Hm; case_decide; lia || done.
  - intros H0 x Hx. rewrite (proj2 (Z.ltb_lt 0 n)) by lia. repeat zcase; unfold store; zcase; case_decide; try lia; try done;
      rewrite Hm; case_decide; lia || done.
Qed.

(** C30: [vsnprintf] writes at most [n] bytes: the first characters of what [print_impl]
    prints, as many as there is room for, and a 0 behind them; no other byte changes.  The
    result is the number of characters of the whole text, also if it did not fit. *)
Theorem vsnprintf_bounded dst n format vl m :
  0 <= n ->
  match print_impl format vl with
  | Ret (out, ret) =>
      ret = s32 (Z.of_nat (length out)) /\
      exists m', vsnprintf dst n format vl m = Ret (ret, m') /\
        (forall x, ~ (dst <= x < dst + n) -> m' x = m x) /\
        (0 < n -> let len := Z.min (n - 1) (Z.of_nat (length out)) in
          m' (dst + len) = 0 /\ forall i c, 0 <= i < len -> out !! Z.to_nat i = Some c -> m' (dst + i) = u8 c)
  | NoFuel => False
  | _ => forall r, vsnprintf dst n format vl m <> Ret r
  end.
Proof.
  intros Hn. pose proof (print_loop_run (S (length format)) format vl [] 0 ltac:(lia) eq_refl) as Hrun. fold (print_impl format vl) in Hrun.
  destruct (print_impl format vl) as [[out ret]| | | |] eqn:Hp; [|by unfold vsnprintf; rewrite Hp..|done].
  split; [exact Hrun|]. destruct (vsnprintf_run dst n format vl m out ret Hn Hp) as (m' & Hv & Hframe & Htext).
  exists m'. split; [exact Hv|]. split; [intros x Hx; apply Hframe; lia|]. intros H0. cbv zeta. split.
  - rewrite Htext by lia. by rewrite decide_True.
  - intros i c Hi Hc. rewrite Htext by lia. rewrite decide_False by lia. replace (dst + i - dst) with i by lia. by rewrite Hc.
Qed.

Lemma vsnprintf_bounded_witness :
  exists m', vsnprintf 16 4 [97; 37; 100; 10] [Word 1234] (text []) = Ret (6, m') /\ m' 19 = 0.
Proof.
  destruct (vsnprintf_bounded 16 4 [97; 37; 100; 10] [Word 1234] (text []) ltac:(lia)) as (_ & m' & Hrun & _ & Htext).
  exists m'. split; [exact Hrun|]. exact (proj1 (Htext ltac:(lia))).
Defined.

(** ** Printing and parsing a number *)

Lemma numeral_digits v l : numeral 10 INT_2_ASCII v l ->
  exists d ds, l = d :: ds /\ Forall (is_digit 10) (d :: ds) /\ digits_value 10 0 (d :: ds) = v.
Proof.
  intros (d & ds & -> & Hds & <- & _). exists (INT_2_ASCII d), (INT_2_ASCII <$> ds). split; [done|].
  change (INT_2_ASCII d :: (INT_2_ASCII <$> ds)) with (INT_2_ASCII <$> d :: ds). split.
  - apply Forall_fmap. eapply Forall_impl; [exact Hds|]. intros x Hx. cbv beta in Hx. unfold is_digit, compose, INT_2_ASCII. lia.
  - unfold digits_value, numeral_value. generalize 0. generalize (d :: ds). clear. intros l.
    induction l as [|x l IH]; intros a; [done|]. cbn. rewrite IH. unfold INT_2_ASCII. f_equal. lia.
Qed.


