(* ===== verification/Dentry.v ===== *)
(** * Directory entries in memory (kernel/fs/dentry.c, dentry_cache.c, fs_lookup.c)

    The tree of directory entries with their reference counts, the list of the entries
    that are not in use (LRU list), the lookup of paths and the removal of names ([do_rm]
    of kernel/syscalls/sys_link.c).  A dentry is a number; one
    that is not in [dentries] was freed, and using it is [Undef].  Names are lists of
    characters.  Memory for a dentry is always available.

    The locks are not modelled: an operation runs as one process between the points where
    it sleeps.  The lookup of a name on the disk sleeps, and other processes run then;
    what they do is a parameter of [dentry_from_path].  The file system is a parameter,
    too: the inode of a name in a directory and the mode and owner of inodes. *)
From stdpp Require Import list gmap.
From S2P Require Import Prelude Perm.

Record dentry := mk_dentry {
  d_ref : Z;
  d_ip : option Z;
  d_name : list Z;
  d_parent : option nat;
  d_child_list : list nat
}.

(** [inode_refs] counts the references to inodes. *)
Record dentry_cache := mk_cache {
  dentries : gmap nat dentry;
  next_dentry : nat;
  root : nat;
  unlinked_root : nat;
  lru_list : list nat;
  lru_size : Z;
  max_lru_size : Z;
  inode_refs : Z -> Z
}.

Definition set_ref (r : Z) (d : dentry) : dentry := mk_dentry r (d_ip d) (d_name d) (d_parent d) (d_child_list d).
Definition set_ip (ip : option Z) (d : dentry) : dentry := mk_dentry (d_ref d) ip (d_name d) (d_parent d) (d_child_list d).
Definition set_parent (p : option nat) (d : dentry) : dentry := mk_dentry (d_ref d) (d_ip d) (d_name d) p (d_child_list d).
Definition set_children (l : list nat) (d : dentry) : dentry := mk_dentry (d_ref d) (d_ip d) (d_name d) (d_parent d) l.

Definition set_dentries (m : gmap nat dentry) (c : dentry_cache) : dentry_cache :=
  mk_cache m (next_dentry c) (root c) (unlinked_root c) (lru_list c) (lru_size c) (max_lru_size c) (inode_refs c).
Definition set_lru (l : list nat) (n : Z) (c : dentry_cache) : dentry_cache :=
  mk_cache (dentries c) (next_dentry c) (root c) (unlinked_root c) l n (max_lru_size c) (inode_refs c).
Definition set_max_lru (n : Z) (c : dentry_cache) : dentry_cache :=
  mk_cache (dentries c) (next_dentry c) (root c) (unlinked_root c) (lru_list c) (lru_size c) n (inode_refs c).
Definition add_inode_ref (ip : option Z) (n : Z) (c : dentry_cache) : dentry_cache :=
  mk_cache (dentries c) (next_dentry c) (root c) (unlinked_root c) (lru_list c) (lru_size c) (max_lru_size c)
    (fun i => if decide (ip = Some i) then inode_refs c i + n else inode_refs c i).

Definition load_dentry (dp : nat) : ST dentry_cache dentry := c ← get; lift (load (dentries c !! dp)).
Definition change (dp : nat) (f : dentry -> dentry) : ST dentry_cache unit :=
  d ← load_dentry dp; modify (fun c => set_dentries (<[dp := f d]> (dentries c)) c).

(** [list_del] *)
Definition list_del (x : nat) (l : list nat) : list nat := filter (fun y => y <> x) l.

(** ** dentry.c *)

(** [dentry_alloc] and [dentry_alloc_init_orphan] *)
Definition dentry_alloc_init_orphan (name : list Z) (ip : option Z) : ST dentry_cache nat :=
  c ← get;
  let new := next_dentry c in
  put (mk_cache (<[new := mk_dentry 1 ip name None []]> (dentries c)) (S new) (root c) (unlinked_root c)
         (lru_list c) (lru_size c) (max_lru_size c) (inode_refs c));;
  modify (add_inode_ref ip 1);;
  mret new.

Definition dentry_free (dp : nat) : ST dentry_cache unit :=
  d ← load_dentry dp;
  modify (add_inode_ref (d_ip d) (-1));;
  modify (fun c => set_dentries (delete dp (dentries c)) c).

Definition dentry_get (dp : nat) : ST dentry_cache unit :=
  d ← load_dentry dp;
  change dp (set_ref (d_ref d + 1));;
  if d_ref d =? 0 then
    modify (fun c => if decide (dp ∈ lru_list c) then set_lru (list_del dp (lru_list c)) (lru_size c - 1) c else c)
  else mret tt.

Definition dentry_register_with_parent (parent child : nat) : ST dentry_cache unit :=
  dentry_get parent;;
  change child (set_parent (Some parent));;
  p ← load_dentry parent;
  change parent (set_children (child :: d_child_list p)).

Definition dentry_alloc_init (parent : nat) (name : list Z) (ip : option Z) : ST dentry_cache nat :=
  new_dentry ← dentry_alloc_init_orphan name ip;
  dentry_register_with_parent parent new_dentry;;
  mret new_dentry.

(** The new dentry takes the place of the old one, with its reference to the parent. *)
Definition dentry_switch_children (old_dp new_dp : nat) : ST dentry_cache unit :=
  d ← load_dentry old_dp;
  parent ← lift (load (d_parent d));
  p ← load_dentry parent;
  change parent (set_children (new_dp :: list_del old_dp (d_child_list p)));;
  change new_dp (set_parent (Some parent));;
  change old_dp (set_parent None).

(** ** dentry_cache.c *)

(** The loop that takes up to [k] entries from the end of the LRU list out of the tree;
    it returns them with their parents. *)
Fixpoint drain_batch (k : nat) (target : Z) : ST dentry_cache (list (nat * option nat)) :=
  match k with
  | O => mret []
  | S k =>
      c ← get;
      if target <? lru_size c then
        lru_dp ← lift (load (last (lru_list c)));
        d ← load_dentry lru_dp;
        if negb (d_ref d =? 0) then mret []
        else
          put (set_lru (list_del lru_dp (lru_list c)) (lru_size c - 1) c);;
          match d_parent d with
          | Some parent =>
              p ← load_dentry parent;
              change parent (set_children (list_del lru_dp (d_child_list p)));;
              change lru_dp (set_parent None)
          | None => mret tt
          end;;
          rest ← drain_batch k target;
          mret ((lru_dp, d_parent d) :: rest)
      else mret []
  end.

(** Dropping the references to the parents and freeing the entries of a batch. *)
Fixpoint drop_batch (put_ : nat -> ST dentry_cache unit) (l : list (nat * option nat)) : ST dentry_cache unit :=
  match l with
  | [] => mret tt
  | (dp, parent) :: l =>
      match parent with Some parent => put_ parent | None => mret tt end;;
      dentry_free dp;;
      drop_batch put_ l
  end.

Definition DRAIN_BATCH_SIZE : nat := 32.

Fixpoint drain_loop (put_ : nat -> ST dentry_cache unit) (fuel : nat) (target : Z) : ST dentry_cache unit :=
  match fuel with
  | O => lift NoFuel
  | S fuel =>
      c ← get;
      if target <? lru_size c then
        l ← drain_batch DRAIN_BATCH_SIZE target;
        match l with
        | [] => mret tt
        | _ => drop_batch put_ l;; drain_loop put_ fuel target
        end
      else mret tt
  end.

Definition drain_lru (put_ : nat -> ST dentry_cache unit) (target : Z) : ST dentry_cache unit :=
  c ← get; drain_loop put_ (S (size (dentries c))) target.

Definition move_to_lru (put_ : nat -> ST dentry_cache unit) (dp : nat) : ST dentry_cache unit :=
  modify (fun c => if decide (dp ∈ lru_list c) then c else set_lru (dp :: lru_list c) (lru_size c + 1) c);;
  c ← get; drain_lru put_ (max_lru_size c).

Definition remove_from_unlinked (put_ : nat -> ST dentry_cache unit) (dp : nat) : ST dentry_cache unit :=
  d ← load_dentry dp;
  match d_parent d with
  | Some parent =>
      p ← load_dentry parent;
      change parent (set_children (list_del dp (d_child_list p)));;
      change dp (set_parent None);;
      put_ parent
  | None => mret tt
  end.

(** [dentry_put], which calls itself for parents; [fuel] bounds the depth. *)
Fixpoint dentry_put_rec (fuel : nat) (dp : nat) : ST dentry_cache unit :=
  match fuel with
  | O => lift NoFuel
  | S fuel =>
      d ← load_dentry dp;
      change dp (set_ref (d_ref d - 1));;
      if negb (d_ref d =? 1) then mret tt
      else
        c ← get;
        if decide (d_parent d = Some (unlinked_root c)) then remove_from_unlinked (dentry_put_rec fuel) dp;; dentry_free dp
        else
          match d_parent d with
          | Some _ => move_to_lru (dentry_put_rec fuel) dp
          | None => dentry_free dp
          end
  end.

Definition dentry_put (dp : nat) : ST dentry_cache unit :=
  c ← get; dentry_put_rec (S (S (size (dentries c)))) dp.

Definition dentry_cache_drain_lru (target : Z) : ST dentry_cache unit := drain_lru dentry_put target.
Definition dentry_cache_move_to_lru (dp : nat) : ST dentry_cache unit := move_to_lru dentry_put dp.
Definition dentry_cache_remove_from_unlinked (dp : nat) : ST dentry_cache unit := remove_from_unlinked dentry_put dp.

Definition dentry_unregister_from_parent (child : nat) : ST dentry_cache unit :=
  d ← load_dentry child;
  match d_parent d with
  | None => mret tt
  | Some parent =>
      p ← load_dentry parent;
      change parent (set_children (list_del child (d_child_list p)));;
      dentry_put parent;;
      change child (set_parent None)
  end.

Fixpoint lookup_children (l : list nat) (name : list Z) : ST dentry_cache (option nat) :=
  match l with
  | [] => mret None
  | child :: l =>
      d ← load_dentry child;
      if decide (d_name d = name) then dentry_get child;; mret (Some child) else lookup_children l name
  end.

Definition dentry_cache_lookup_tree_locked (parent : nat) (name : list Z) : ST dentry_cache (option nat) :=
  p ← load_dentry parent; lookup_children (d_child_list p) name.
Definition dentry_cache_lookup (parent : nat) (name : list Z) : ST dentry_cache (option nat) :=
  dentry_cache_lookup_tree_locked parent name.

Definition dentry_cache_add (parent : nat) (name : list Z) (ip : option Z) : ST dentry_cache nat :=
  new ← dentry_alloc_init_orphan name ip;
  tmp ← dentry_cache_lookup_tree_locked parent name;
  match tmp with
  | Some tmp => d ← load_dentry new; change new (set_ref (d_ref d - 1));; dentry_free new;; mret tmp
  | None => dentry_register_with_parent parent new;; mret new
  end.

Definition dentry_cache_add_to_unlinked (dp : nat) : ST dentry_cache unit := c ← get; dentry_register_with_parent (unlinked_root c) dp.

Definition dentry_cache_set_max_lru (n : Z) : ST dentry_cache Z :=
  modify (set_max_lru n);; dentry_cache_drain_lru n;; mret 0.
Definition dentry_cache_clear_lru : ST dentry_cache Z := dentry_cache_drain_lru 0;; mret 0.

(** [dentry_cache_init] with the references to inodes before it; the kernel object of the
    cache is left out. *)
Definition dentry_cache_init (refs : Z -> Z) (root_ip : Z) : dentry_cache :=
  add_inode_ref (Some root_ip) 1
    (mk_cache (<[0%nat := mk_dentry 1 (Some root_ip) [47] None []]>
                 {[1%nat := mk_dentry 1 None [40; 117; 110; 108; 105; 110; 107; 101; 100; 41] None []]})
       2 0 1 [] 0 16 refs).

Definition dentry_cache_get_root : ST dentry_cache nat := c ← get; dentry_get (root c);; mret (root c).

(** ** fs_lookup.c *)

(** The loop that skips slashes and [./]. *)
Fixpoint skip_slashes (path : list Z) : list Z :=
  match path with
  | 46 :: 47 :: rest => skip_slashes rest
  | 47 :: rest => skip_slashes rest
  | _ => path
  end.

(** The element up to the next slash, and what follows it. *)
Fixpoint split_name (path : list Z) : list Z * list Z :=
  match path with
  | [] => ([], [])
  | c :: rest => if c =? 47 then ([], path) else let '(name, rest) := split_name rest in (c :: name, rest)
  end.

(** The loop over the slashes behind the element. *)
Fixpoint skip_end (path : list Z) : list Z :=
  match path with
  | 47 :: rest => skip_end rest
  | _ => path
  end.

(** [None] is NULL; the name is [None] if it is too long. *)
Definition skipelem (path : list Z) : option (option (list Z) * list Z) :=
  match skip_slashes path with
  | [] => None
  | path =>
      let '(name, path) := split_name path in
      if NAME_MAX <? Z.of_nat (length name) then Some (None, path) else Some (Some name, skip_end path)
  end.

Section Lookup.
Context (fs_lookup : Z -> list Z -> option Z) (attr : Z -> inode_attr) (cr : cred) (others : dentry_cache -> dentry_cache).

(** The dentry of the next path element [name] in [dp], with a reference. *)
Definition lookup_element (dp : nat) (ip : Z) (name : list Z) : ST dentry_cache nat :=
  next ← dentry_cache_lookup_tree_locked dp name;
  match next with
  | Some next => mret next
  | None =>
      lookup_result ← dentry_alloc_init_orphan name None;
      modify others;;
      modify (add_inode_ref (fs_lookup ip name) 1);;
      change lookup_result (set_ip (fs_lookup ip name));;
      created_concurrently ← dentry_cache_lookup_tree_locked dp name;
      match created_concurrently with
      | Some next => dentry_put lookup_result;; mret next
      | None => dentry_register_with_parent dp lookup_result;; mret lookup_result
      end
  end.

(** The result is the dentry or NULL and the error. *)
Fixpoint path_loop (fuel : nat) (dp : nat) (path : list Z) : ST dentry_cache (option nat * Z) :=
  match fuel with
  | O => lift NoFuel
  | S fuel =>
      match skipelem path with
      | None => mret (Some dp, 0)
      | Some (None, _) => dentry_put dp;; mret (None, - ENOENT)
      | Some (Some name, path) =>
          d ← load_dentry dp;
          match d_ip d with
          | None => dentry_put dp;; mret (None, - ENOENT)
          | Some ip =>
              if negb (S_ISDIR (i_mode (attr ip))) then dentry_put dp;; mret (None, - ENOTDIR)
              else if check_dentry_permission cr (Some (attr ip)) MAY_EXEC <? 0 then dentry_put dp;; mret (None, - EACCES)
              else
                next ←
                  (if decide (name = [46]) then dentry_get dp;; mret dp
                   else if decide (name = [46; 46]) then
                     match d_parent d with
                     | None => dentry_get dp;; mret dp
                     | Some parent => dentry_get parent;; mret parent
                     end
                   else lookup_element dp ip name);
                dentry_put dp;;
                path_loop fuel next path
          end
      end
  end.

Definition dentry_from_path (cwd : nat) (path : list Z) : ST dentry_cache (option nat * Z) :=
  match path with
  | [] => mret (None, - EINVAL)
  | c :: _ =>
      if c =? 47 then dp ← dentry_cache_get_root; path_loop (S (length path)) dp path
      else
        dentry_get cwd;;
        d ← load_dentry cwd;
        s ← get;
        if decide (d_parent d = Some (unlinked_root s)) then dentry_put cwd;; mret (None, - ENOENT)
        else path_loop (S (length path)) cwd path
  end.

(** ** sys_link.c *)

(** Paths that end in [/.] or [/..] *)
Definition ends_in_dots (path : list Z) : bool :=
  match rev path with
  | 46 :: 47 :: _ => true
  | 46 :: 46 :: 47 :: _ => true
  | _ => false
  end.

(** [do_rm]; [ret] is what [VFS_INODE_RMDIR] or [VFS_INODE_UNLINK] returns.  Other processes
    run while it sleeps for the locks of the two inodes, but not during the operation of
    the file system. *)
Definition do_rm (cwd : nat) (path : list Z) (is_rmdir : bool) (ret : Z) : ST dentry_cache Z :=
  '(file, error) ← dentry_from_path cwd path;
  match file with
  | None => mret error
  | Some file =>
      d ← load_dentry file;
      match d_ip d with
      | None => dentry_put file;; mret (- ENOENT)
      | Some ip =>
          if (is_rmdir && negb (S_ISDIR (i_mode (attr ip))))%bool then dentry_put file;; mret (- ENOTDIR)
          else if (negb is_rmdir && S_ISDIR (i_mode (attr ip)))%bool then dentry_put file;; mret (- EISDIR)
          else
            parent ← lift (load (d_parent d));
            dentry_get parent;;
            if (bool_decide (d_name d = [46]) || bool_decide (d_name d = [46; 46]) || ends_in_dots path)%bool
            then dentry_put file;; dentry_put parent;; mret (- EPERM)
            else
              p ← load_dentry parent;
              let perm_ok := check_dentry_permission cr (attr <$> d_ip p) MAY_UNLINK in
              if perm_ok <? 0 then dentry_put file;; dentry_put parent;; mret perm_ok
              else
                modify others;;
                d ← load_dentry file;
                if decide (d_parent d <> Some parent) then dentry_put file;; dentry_put parent;; mret (- EACCES)
                else
                  new_dentry ← dentry_alloc_init_orphan (d_name d) None;
                  dentry_unregister_from_parent file;;
                  c ← get;
                  dentry_register_with_parent (unlinked_root c) file;;
                  dentry_register_with_parent parent new_dentry;;
                  (if ret <? 0 then
                     dentry_unregister_from_parent new_dentry;;
                     dentry_unregister_from_parent file;;
                     dentry_register_with_parent parent file
                   else
                     d ← load_dentry file;
                     if d_ref d =? 1 then dentry_cache_remove_from_unlinked file else mret tt);;
                  dentry_put file;;
                  dentry_put parent;;
                  dentry_put new_dentry;;
                  mret ret
      end
  end.
End Lookup.

(** ** The invariant of the cache *)

(** The references that the cache itself has. *)
Definition own (c : dentry_cache) (dp : nat) : Z := if decide (dp = root c \/ dp = unlinked_root c) then 1 else 0.

Definition has_ip (i : Z) (d : dentry) : Prop := d_ip d = Some i.
#[global] Instance has_ip_dec i d : Decision (has_ip i d) := decide (d_ip d = Some i).

(** The tree: parents and children agree, and a name is in a directory once. *)
Record tree_ok (m : gmap nat dentry) (r u : nat) : Prop := {
  t_child dp d ch : m !! dp = Some d -> ch ∈ d_child_list d -> exists dch, m !! ch = Some dch /\ d_parent dch = Some dp;
  t_parent ch dch dp : m !! ch = Some dch -> d_parent dch = Some dp -> exists d, m !! dp = Some d /\ ch ∈ d_child_list d;
  t_nodup dp d : m !! dp = Some d -> NoDup (d_child_list d);
  t_roots : r <> u /\ forall dp, dp = r \/ dp = u -> exists d, m !! dp = Some d /\ d_parent d = None;
  t_names ch1 ch2 d1 d2 dp : m !! ch1 = Some d1 -> m !! ch2 = Some d2 ->
    d_parent d1 = Some dp -> d_parent d2 = Some dp -> dp <> u -> d_name d1 = d_name d2 -> ch1 = ch2
}.

(** The reference counts, where [H] is the number of references to each dentry that
    processes have. *)
Record counted (H : nat -> Z) (c : dentry_cache) : Prop := {
  n_ref dp d : dentries c !! dp = Some d -> d_ref d = Z.of_nat (length (d_child_list d)) + H dp + own c dp;
  n_held dp : 0 <= H dp /\ (H dp <> 0 -> is_Some (dentries c !! dp))
}.

(** A dentry without references, in the tree or not. *)
Definition idle (m : gmap nat dentry) (dp : nat) : Prop := exists d, m !! dp = Some d /\ d_ref d = 0 /\ d_parent d <> None.
Definition orphan (m : gmap nat dentry) (dp : nat) : Prop := exists d, m !! dp = Some d /\ d_ref d = 0 /\ d_parent d = None.

(** The dentries without references: those of the LRU list, and those of [freed], which
    were taken out of the tree and are about to be freed. *)
Record listed (freed : list nat) (c : dentry_cache) : Prop := {
  l_lru dp : dp ∈ lru_list c <-> idle (dentries c) dp;
  l_nodup : NoDup (lru_list c);
  l_size : lru_size c = Z.of_nat (length (lru_list c));
  l_freed dp : dp ∈ freed <-> orphan (dentries c) dp;
  l_freed_nodup : NoDup freed;
  l_unlinked dp d : dentries c !! dp = Some d -> d_ref d = 0 -> d_parent d <> Some (unlinked_root c);
  l_max : 0 <= max_lru_size c
}.

(** The number of dentries with inode [i]. *)
Definition inode_users (m : gmap nat dentry) (i : Z) : Z := Z.of_nat (size (filter (fun kd => has_ip i kd.2) m)).

(** [E] is the number of references to each inode from elsewhere. *)
Record cache_inv (E : Z -> Z) (freed : list nat) (H : nat -> Z) (c : dentry_cache) : Prop := {
  v_tree : tree_ok (dentries c) (root c) (unlinked_root c);
  v_count : counted H c;
  v_lists : listed freed c;
  v_fresh dp : is_Some (dentries c !! dp) -> (dp < next_dentry c)%nat;
  v_inodes i : inode_refs c i = E i + inode_users (dentries c) i
}.

(** ** Changes of one dentry *)

Definition plus (dp : nat) (k : Z) (H : nat -> Z) : nat -> Z := fun x => if decide (x = dp) then H x + k else H x.

Lemma inv_ext E freed H H' c : (forall x, H' x = H x) -> cache_inv E freed H c -> cache_inv E freed H' c.
Proof.
  intros HH [T [N1 N2] L F I]. split; [done| |done..]. split.
  - intros dp d Hd. rewrite HH. by apply N1.
  - intros dp. rewrite HH. apply N2.
Qed.

Lemma elem_of_list_del x y l : x ∈ list_del y l <-> x ∈ l /\ x <> y.
Proof. unfold list_del. rewrite list_elem_of_filter. tauto. Qed.

Lemma NoDup_list_del y l : NoDup l -> NoDup (list_del y l).
Proof. apply NoDup_filter. Qed.

Lemma list_del_notin y l : y ∉ l -> list_del y l = l.
Proof.
  unfold list_del. induction l as [|x l IH]; intros Hy; [done|]. rewrite not_elem_of_cons in Hy. destruct Hy as [Hx Hl].
  rewrite filter_cons_True by congruence. by rewrite IH.
Qed.

Lemma length_list_del y l : NoDup l -> y ∈ l -> length l = S (length (list_del y l)).
Proof.
  induction l as [|x l IH]; intros Hn Hy; [by apply elem_of_nil in Hy|]. apply NoDup_cons in Hn as [Hx Hn]. unfold list_del in *.
  destruct (decide (x = y)) as [->|Hxy].
  - rewrite filter_cons_False by tauto. fold (list_del y l). by rewrite list_del_notin.
  - rewrite filter_cons_True by done. cbn. rewrite <- IH; [done|done|]. apply elem_of_cons in Hy as [->|]; done.
Qed.

(** The tree does not depend on counts and inodes. *)
Definition shape (d : dentry) : option nat * list nat * list Z := (d_parent d, d_child_list d, d_name d).

Lemma tree_ext m m' r u : (forall x, shape <$> m' !! x = shape <$> m !! x) -> tree_ok m r u -> tree_ok m' r u.
Proof.
  intros Hs. assert (forall x d', m' !! x = Some d' -> exists d, m !! x = Some d /\ shape d' = shape d) as H1.
  { intros x d' Hx. specialize (Hs x). rewrite Hx in Hs. destruct (m !! x) as [d|]; [|done]. injection Hs as ???. exists d. split; [done|]. unfold shape. congruence. }
  assert (forall x d, m !! x = Some d -> exists d', m' !! x = Some d' /\ shape d' = shape d) as H2.
  { intros x d Hx. specialize (Hs x). rewrite Hx in Hs. destruct (m' !! x) as [d'|]; [|done]. injection Hs as ???. exists d'. split; [done|]. unfold shape. congruence. }
  intros [Tc Tp Tn [Tr Tr'] Ta]. split.
  - intros dp d ch Hd Hch. destruct (H1 _ _ Hd) as (d0 & Hd0 & [= _ Ec _]). rewrite Ec in Hch. destruct (Tc _ _ _ Hd0 Hch) as (dch & Hdch & Hp).
    destruct (H2 _ _ Hdch) as (dch' & Hdch' & [= Ep _ _]). exists dch'. split; [done|]. congruence.
  - intros ch dch dp Hd Hp. destruct (H1 _ _ Hd) as (d0 & Hd0 & [= Ep _ _]). rewrite Ep in Hp. destruct (Tp _ _ _ Hd0 Hp) as (d & Hdp & Hch).
    destruct (H2 _ _ Hdp) as (d' & Hd' & [= _ Ec _]). exists d'. split; [done|]. congruence.
  - intros dp d Hd. destruct (H1 _ _ Hd) as (d0 & Hd0 & [= _ -> _]). by apply (Tn dp d0).
  - split; [done|]. intros dp Hdp. destruct (Tr' dp Hdp) as (d & Hd & Hn). destruct (H2 _ _ Hd) as (d' & Hd' & [= Ep _ _]). exists d'. split; [done|]. congruence.
  - intros ch1 ch2 d1 d2 dp Hc1 Hc2 Hp1 Hp2 Hu Hn. destruct (H1 _ _ Hc1) as (e1 & He1 & [= Ep1 _ En1]). destruct (H1 _ _ Hc2) as (e2 & He2 & [= Ep2 _ En2]).
    apply (Ta ch1 ch2 e1 e2 dp); congruence.
Qed.

Lemma users_insert m i dp d : m !! dp = None -> inode_users (<[dp := d]> m) i = inode_users m i + (if decide (d_ip d = Some i) then 1 else 0).
Proof.
  intros Hn. unfold inode_users. case_decide.
  - rewrite map_filter_insert_True by done. rewrite map_size_insert_None; [lia|]. apply map_lookup_filter_None_2. by left.
  - rewrite map_filter_insert_False by done. rewrite delete_id by done. lia.
Qed.

Lemma users_delete m i dp d : m !! dp = Some d -> inode_users m i = inode_users (delete dp m) i + (if decide (d_ip d = Some i) then 1 else 0).
Proof. intros Hd. rewrite <- (users_insert _ i dp d) by apply lookup_delete_eq. by rewrite insert_delete_eq, insert_id. Qed.

Lemma users_change m i dp d d' : m !! dp = Some d ->
  inode_users (<[dp := d']> m) i = inode_users m i + (if decide (d_ip d' = Some i) then 1 else 0) - (if decide (d_ip d = Some i) then 1 else 0).
Proof.
  intros Hd. rewrite <- (insert_delete_eq m dp d'). rewrite users_insert by apply lookup_delete_eq. rewrite (users_delete m i dp d Hd). lia.
Qed.

Lemma idle_insert m dp d x : idle (<[dp := d]> m) x <-> x = dp /\ d_ref d = 0 /\ d_parent d <> None \/ x <> dp /\ idle m x.
Proof.
  unfold idle. setoid_rewrite lookup_insert. destruct (decide (dp = x)) as [->|Hx].
  - split; [intros (d' & [= <-] & H); by left|]. intros [(_ & H)|[H _]]; [by exists d|done].
  - split; [intros H; by right|]. intros [(E & _)|[_ H]]; [by destruct Hx|done].
Qed.

Lemma orphan_insert m dp d x : orphan (<[dp := d]> m) x <-> x = dp /\ d_ref d = 0 /\ d_parent d = None \/ x <> dp /\ orphan m x.
Proof.
  unfold orphan. setoid_rewrite lookup_insert. destruct (decide (dp = x)) as [->|Hx].
  - split; [intros (d' & [= <-] & H); by left|]. intros [(_ & H)|[H _]]; [by exists d|done].
  - split; [intros H; by right|]. intros [(E & _)|[_ H]]; [by destruct Hx|done].
Qed.

Lemma idle_at m dp d : m !! dp = Some d -> (idle m dp <-> d_ref d = 0 /\ d_parent d <> None) /\ (orphan m dp <-> d_ref d = 0 /\ d_parent d = None).
Proof. intros Hd. unfold idle, orphan. split; (split; [intros (d' & Hd' & ?); congruence|by exists d]). Qed.

(** The lists after a change of [dp] to [d'], with the new lists [l] and [freed']. *)
Lemma listed_change freed freed' c dp d d' l n :
  listed freed c -> dentries c !! dp = Some d ->
  (forall x, x ∈ l <-> x = dp /\ d_ref d' = 0 /\ d_parent d' <> None \/ x <> dp /\ x ∈ lru_list c) -> NoDup l -> n = Z.of_nat (length l) ->
  (forall x, x ∈ freed' <-> x = dp /\ d_ref d' = 0 /\ d_parent d' = None \/ x <> dp /\ x ∈ freed) -> NoDup freed' ->
  (d_ref d' = 0 -> d_parent d' <> Some (unlinked_root c)) ->
  listed freed' (set_lru l n (set_dentries (<[dp := d']> (dentries c)) c)).
Proof.
  intros [L1 L2 L3 L4 L5 L6 L7] Hd Hl Hn ? Hf Hnf Hu. split; cbn; try done.
  - intros x. rewrite idle_insert, Hl, L1. tauto.
  - intros x. rewrite orphan_insert, Hf, L4. tauto.
  - intros x dx Hx. apply lookup_insert_Some in Hx as [[<- <-]|[_ Hx]]; [done|]. by apply (L6 x).
Qed.

(** A change of the number of references that [k] more processes have. *)
Lemma inv_set_ref E freed freed' H c dp d k l n :
  cache_inv E freed H c -> dentries c !! dp = Some d -> 0 <= H dp + k ->
  let c' := set_lru l n (set_dentries (<[dp := set_ref (d_ref d + k) d]> (dentries c)) c) in
  listed freed' c' -> cache_inv E freed' (plus dp k H) c'.
Proof.
  intros [T [N1 N2] L F I] Hd Hk c' L'. split; [| |exact L'| |]; cbn.
  - apply (tree_ext (dentries c)); [|done]. intros x. rewrite lookup_insert. case_decide; subst; [|done]. by rewrite Hd.
  - split; cbn; unfold plus.
    + intros x dx Hx. change (own c' x) with (own c x). apply lookup_insert_Some in Hx as [[<- <-]|[Hne Hx]].
      * rewrite decide_True by done. cbn. rewrite (N1 dp d Hd). lia.
      * rewrite decide_False by done. by apply N1.
    + intros x. rewrite lookup_insert. destruct (decide (x = dp)) as [->|Hx]; [by rewrite decide_True|]. rewrite decide_False by congruence. apply N2.
  - intros x Hx. apply F. rewrite lookup_insert in Hx. case_decide; subst; [by rewrite Hd|done].
  - intros i. rewrite (users_change _ i dp d) by done. rewrite I. cbn [d_ip set_ref]. repeat case_decide; done || lia.
Qed.

Lemma users_ext m m' i : (forall x, d_ip <$> m' !! x = d_ip <$> m !! x) -> inode_users m' i = inode_users m i.
Proof.
  intros Hip. unfold inode_users. rewrite <- !(size_dom (D := gset nat)). do 2 f_equal. apply leibniz_equiv, set_equiv. intros x.
  rewrite !elem_of_dom. unfold is_Some. setoid_rewrite map_lookup_filter_Some. cbn. specialize (Hip x). unfold has_ip.
  destruct (m !! x) as [d|], (m' !! x) as [d'|]; try done. injection Hip as Hip. naive_solver congruence.
Qed.

(** ** Taking a dentry out of the tree and putting it in *)

(** Dentry [x] when [ch] is no more a child of [p], and when it has become one. *)
Definition detached (ch p x : nat) (d : dentry) : dentry :=
  let d := if decide (x = p) then set_children (list_del ch (d_child_list d)) d else d in
  if decide (x = ch) then set_parent None d else d.
Definition attached (ch p x : nat) (d : dentry) : dentry :=
  let d := if decide (x = p) then set_children (ch :: d_child_list d) d else d in
  if decide (x = ch) then set_parent (Some p) d else d.

Lemma detached_fields ch p x d :
  d_ref (detached ch p x d) = d_ref d /\ d_ip (detached ch p x d) = d_ip d /\ d_name (detached ch p x d) = d_name d /\
  d_parent (detached ch p x d) = (if decide (x = ch) then None else d_parent d) /\
  d_child_list (detached ch p x d) = (if decide (x = p) then list_del ch (d_child_list d) else d_child_list d).
Proof. unfold detached. by repeat case_decide. Qed.

Lemma attached_fields ch p x d :
  d_ref (attached ch p x d) = d_ref d /\ d_ip (attached ch p x d) = d_ip d /\ d_name (attached ch p x d) = d_name d /\
  d_parent (attached ch p x d) = (if decide (x = ch) then Some p else d_parent d) /\
  d_child_list (attached ch p x d) = (if decide (x = p) then ch :: d_child_list d else d_child_list d).
Proof. unfold attached. by repeat case_decide. Qed.

(** Looking up in a table that was changed by a function of the dentries. *)
Lemma lookup_mapped (f : nat -> dentry -> dentry) (m m' : gmap nat dentry) : (forall x, m' !! x = f x <$> m !! x) ->
  (forall x d, m !! x = Some d -> m' !! x = Some (f x d)) /\ (forall x d', m' !! x = Some d' -> exists d, m !! x = Some d /\ d' = f x d).
Proof.
  intros Hm. split; intros x d Hx; [by rewrite Hm, Hx|]. rewrite Hm in Hx. apply fmap_Some in Hx as (d0 & ? & ?). by exists d0.
Qed.

Lemma tree_detach m m' r u ch dch p : (forall x, m' !! x = detached ch p x <$> m !! x) ->
  m !! ch = Some dch -> d_parent dch = Some p -> tree_ok m r u -> tree_ok m' r u.
Proof.
  intros Hm Hch Hp [Tc Tp Tn [Tr Tr'] Ta]. destruct (lookup_mapped _ _ _ Hm) as [H1 H2]. split.
  - intros x d' y Hx Hy. destruct (H2 _ _ Hx) as (d & Hd & ->). destruct (detached_fields ch p x d) as (_ & _ & _ & _ & Ec). rewrite Ec in Hy.
    assert (y ∈ d_child_list d /\ (x = p -> y <> ch)) as [Hy' Hn].
    { case_decide; [|done]. apply elem_of_list_del in Hy as [? ?]. done. }
    clear Hy Ec.
    destruct (Tc x d y Hd Hy') as (dy & Hdy & Hpy). exists (detached ch p y dy). split; [by apply H1|].
    destruct (detached_fields ch p y dy) as (_ & _ & _ & -> & _). case_decide; [|done]. subst. exfalso. rewrite Hch in Hdy. injection Hdy as <-. apply Hn; congruence.
  - intros y dy' x Hy Hpy. destruct (H2 _ _ Hy) as (dy & Hdy & ->). destruct (detached_fields ch p y dy) as (_ & _ & _ & Ep & _). rewrite Ep in Hpy. clear Ep.
    case_decide; [done|]. destruct (Tp y dy x Hdy Hpy) as (d & Hd & Hin). exists (detached ch p x d). split; [by apply H1|].
    destruct (detached_fields ch p x d) as (_ & _ & _ & _ & ->). case_decide; [|done]. by apply elem_of_list_del.
  - intros x d' Hx. destruct (H2 _ _ Hx) as (d & Hd & ->). destruct (detached_fields ch p x d) as (_ & _ & _ & _ & ->).
    case_decide; [apply NoDup_list_del|]; by apply (Tn x).
  - split; [done|]. intros x Hx. destruct (Tr' x Hx) as (d & Hd & Hn). exists (detached ch p x d). split; [by apply H1|].
    destruct (detached_fields ch p x d) as (_ & _ & _ & -> & _). by case_decide.
  - intros y1 y2 d1' d2' x Hy1 Hy2. destruct (H2 _ _ Hy1) as (d1 & Hd1 & ->). destruct (H2 _ _ Hy2) as (d2 & Hd2 & ->).
    destruct (detached_fields ch p y1 d1) as (_ & _ & -> & -> & _). destruct (detached_fields ch p y2 d2) as (_ & _ & -> & -> & _).
    repeat case_decide; try done. by apply Ta.
Qed.

Lemma tree_attach m m' r u ch dch p dp : (forall x, m' !! x = attached ch p x <$> m !! x) ->
  m !! ch = Some dch -> d_parent dch = None -> ch <> r -> ch <> u -> m !! p = Some dp ->
  (p <> u -> forall y dy, m !! y = Some dy -> d_parent dy = Some p -> d_name dy <> d_name dch) -> tree_ok m r u -> tree_ok m' r u.
Proof.
  intros Hm Hch Hp Hr Hu Hdp Hfresh [Tc Tp Tn [Tr Tr'] Ta]. destruct (lookup_mapped _ _ _ Hm) as [H1 H2].
  assert (forall x d, m !! x = Some d -> ch ∉ d_child_list d) as Hnew.
  { intros x d Hx Hin. destruct (Tc x d ch Hx Hin) as (d' & Hd' & ?). congruence. }
  split.
  - intros x d' y Hx Hy. destruct (H2 _ _ Hx) as (d & Hd & ->). destruct (attached_fields ch p x d) as (_ & _ & _ & _ & Ec). rewrite Ec in Hy.
    assert (y = ch /\ x = p \/ y ∈ d_child_list d) as Hy'.
    { case_decide; [|by right]. apply elem_of_cons in Hy as [->|]; [by left|by right]. }
    clear Hy Ec. destruct Hy' as [[-> ->]|Hy'].
    + exists (attached ch p ch dch). split; [by apply H1|]. destruct (attached_fields ch p ch dch) as (_ & _ & _ & -> & _). by rewrite decide_True.
    + destruct (Tc x d y Hd Hy') as (dy & Hdy & Hpy). exists (attached ch p y dy). split; [by apply H1|].
      destruct (attached_fields ch p y dy) as (_ & _ & _ & -> & _). case_decide; [|done]. subst. by destruct (Hnew x d Hd).
  - intros y dy' x Hy Hpy. destruct (H2 _ _ Hy) as (dy & Hdy & ->). destruct (attached_fields ch p y dy) as (_ & _ & _ & Ep & _). rewrite Ep in Hpy. clear Ep.
    case_decide.
    + injection Hpy as <-. subst y. exists (attached ch p p dp). split; [by apply H1|]. destruct (attached_fields ch p p dp) as (_ & _ & _ & _ & ->).
      rewrite decide_True by done. left.
    + destruct (Tp y dy x Hdy Hpy) as (d & Hd & Hin). exists (attached ch p x d). split; [by apply H1|].
      destruct (attached_fields ch p x d) as (_ & _ & _ & _ & ->). case_decide; [by right|done].
  - intros x d' Hx. destruct (H2 _ _ Hx) as (d & Hd & ->). destruct (attached_fields ch p x d) as (_ & _ & _ & _ & ->).
    case_decide; [apply NoDup_cons; split; [by apply (Hnew x)|]|]; by apply (Tn x).
  - split; [done|]. intros x Hx. destruct (Tr' x Hx) as (d & Hd & Hn). exists (attached ch p x d). split; [by apply H1|].
    destruct (attached_fields ch p x d) as (_ & _ & _ & -> & _). case_decide; [|done]. subst. by destruct Hx.
  - intros y1 y2 d1' d2' x Hy1 Hy2. destruct (H2 _ _ Hy1) as (d1 & Hd1 & ->). destruct (H2 _ _ Hy2) as (d2 & Hd2 & ->).
    destruct (attached_fields ch p y1 d1) as (_ & _ & -> & -> & _). destruct (attached_fields ch p y2 d2) as (_ & _ & -> & -> & _).
    repeat case_decide; try congruence; [| |by apply Ta].
    + intros [= <-] Hp2 Hpu Hn. subst y1. rewrite Hch in Hd1. injection Hd1 as <-. by destruct (Hfresh Hpu y2 d2 Hd2 Hp2).
    + intros Hp1 [= <-] Hpu Hn. subst y2. rewrite Hch in Hd2. injection Hd2 as <-. by destruct (Hfresh Hpu y1 d1 Hd1 Hp1).
Qed.

(** Idle dentries and orphans of a table that was changed by a function that keeps the
    counts. *)
Lemma idle_mapped (f : nat -> dentry -> dentry) (m m' : gmap nat dentry) x : (forall x, m' !! x = f x <$> m !! x) ->
  (idle m' x <-> exists d, m !! x = Some d /\ d_ref (f x d) = 0 /\ d_parent (f x d) <> None) /\
  (orphan m' x <-> exists d, m !! x = Some d /\ d_ref (f x d) = 0 /\ d_parent (f x d) = None).
Proof.
  intros Hm. unfold idle, orphan. rewrite !Hm. destruct (m !! x) as [d|]; cbn; split; naive_solver.
Qed.

Lemma count_mapped (f : nat -> dentry -> dentry) H H' c m' : counted H c -> (forall x, m' !! x = f x <$> dentries c !! x) ->
  (forall x d, dentries c !! x = Some d -> d_ref (f x d) - Z.of_nat (length (d_child_list (f x d))) - H' x = d_ref d - Z.of_nat (length (d_child_list d)) - H x) ->
  (forall x, 0 <= H' x /\ (H' x <> 0 -> is_Some (dentries c !! x))) -> forall l n, counted H' (set_lru l n (set_dentries m' c)).
Proof.
  intros [N1 N2] Hm Hr Hh l n. destruct (lookup_mapped _ _ _ Hm) as [H1 H2]. split; cbn.
  - intros x d' Hx. destruct (H2 _ _ Hx) as (d & Hd & ->). specialize (Hr x d Hd). specialize (N1 x d Hd).
    change (own (set_lru l n (set_dentries m' c)) x) with (own c x). lia.
  - intros x. destruct (Hh x) as [? Hs]. split; [done|]. intros Hx. destruct (Hs Hx) as [d Hd]. exists (f x d). by apply H1.
Qed.

Lemma inv_detach E freed freed' H c ch dch p m' l n :
  cache_inv E freed H c -> dentries c !! ch = Some dch -> d_parent dch = Some p ->
  (forall x, m' !! x = detached ch p x <$> dentries c !! x) ->
  0 < d_ref dch /\ freed' = freed /\ l = lru_list c /\ n = lru_size c \/
  d_ref dch = 0 /\ freed' = ch :: freed /\ l = list_del ch (lru_list c) /\ n = lru_size c - 1 ->
  cache_inv E freed' (plus p 1 H) (set_lru l n (set_dentries m' c)).
Proof.
  intros [T N L F I] Hch Hp Hm Hlists. destruct (t_parent _ _ _ T ch dch p Hch Hp) as (d_p & Hdp & Hin). split; cbn.
  - by apply (tree_detach (dentries c) m' _ _ ch dch p).
  - apply (count_mapped (detached ch p) H); [done|done| |].
    + intros x d Hd. destruct (detached_fields ch p x d) as (-> & _ & _ & _ & ->). unfold plus. case_decide; [|lia]. subst.
      rewrite Hdp in Hd. injection Hd as <-. rewrite (length_list_del ch (d_child_list d_p)); [lia|by apply (t_nodup _ _ _ T p)|done].
    + intros x. destruct (n_held _ _ N x). unfold plus. case_decide; [|done]. subst. split; [lia|]. by rewrite Hdp.
  - destruct L as [L1 L2 L3 L4 L5 L6 L7]. destruct (idle_at _ _ _ Hch) as [Hi Ho].
    assert (forall x, idle m' x <-> idle (dentries c) x /\ x <> ch) as Hidle.
    { intros x. rewrite (proj1 (idle_mapped _ _ _ x Hm)). unfold idle. split.
      - intros (d & Hd & Hr & Hn). destruct (detached_fields ch p x d) as (Er & _ & _ & Ep & _). rewrite Er in Hr. rewrite Ep in Hn. case_decide; [done|]. split; [by exists d|done].
      - intros [(d & Hd & Hr & Hn) Hx]. exists d. destruct (detached_fields ch p x d) as (-> & _ & _ & -> & _). by rewrite decide_False. }
    assert (forall x, orphan m' x <-> orphan (dentries c) x \/ x = ch /\ d_ref dch = 0) as Horphan.
    { intros x. rewrite (proj2 (idle_mapped _ _ _ x Hm)). unfold orphan. split.
      - intros (d & Hd & Hr & Hn). destruct (detached_fields ch p x d) as (Er & _ & _ & Ep & _). rewrite Er in Hr. rewrite Ep in Hn. case_decide; [subst; right; split; [done|congruence]|]. left. by exists d.
      - intros [(d & Hd & Hr & Hn)|[-> Hr]]; [exists d|exists dch]; (split; [done|]).
        + destruct (detached_fields ch p x d) as (-> & _ & _ & -> & _). by case_decide.
        + destruct (detached_fields ch p ch dch) as (-> & _ & _ & -> & _). by rewrite decide_True. }
    assert (forall dp d, m' !! dp = Some d -> d_ref d = 0 -> d_parent d <> Some (unlinked_root c)) as Hunl.
    { intros x d' Hx. destruct (proj2 (lookup_mapped _ _ _ Hm) _ _ Hx) as (d & Hd & ->). destruct (detached_fields ch p x d) as (-> & _ & _ & -> & _).
      case_decide; [done|]. by apply (L6 x). }
    destruct Hlists as [(Hr & -> & -> & ->)|(Hr & -> & -> & ->)]; split; cbn; try done.
    + intros x. rewrite Hidle, L1. split; [intros Hx; split; [done|]|tauto]. intros ->. apply Hi in Hx as [? _]. lia.
    + intros x. rewrite Horphan, L4. split; [tauto|]. intros [?|[_ ?]]; [done|lia].
    + intros x. rewrite elem_of_list_del, L1, Hidle. tauto.
    + by apply NoDup_list_del.
    + rewrite L3, (length_list_del ch (lru_list c)); [lia|done|]. apply L1, Hi. split; [done|]. by rewrite Hp.
    + intros x. rewrite elem_of_cons, L4, Horphan. tauto.
    + apply NoDup_cons. split; [|done]. rewrite L4, Ho. intros [_ Hn]. congruence.
  - intros x Hx. apply F. rewrite Hm in Hx. by apply fmap_is_Some in Hx.
  - intros i. rewrite I. f_equal. symmetry. apply users_ext. intros x. rewrite Hm. destruct (dentries c !! x) as [d|]; [|done]. cbn. f_equal. apply detached_fields.
Qed.

Lemma inv_attach E freed H c ch dch p m' :
  cache_inv E freed H c -> dentries c !! ch = Some dch -> d_parent dch = None -> 0 < d_ref dch -> ch <> root c -> ch <> unlinked_root c ->
  1 <= H p ->
  (p <> unlinked_root c -> forall y dy, dentries c !! y = Some dy -> d_parent dy = Some p -> d_name dy <> d_name dch) ->
  (forall x, m' !! x = attached ch p x <$> dentries c !! x) -> cache_inv E freed (plus p (-1) H) (set_dentries m' c).
Proof.
  intros [T N L F I] Hch Hp Href Hr Hu HHp Hfresh Hm.
  destruct (proj2 (n_held _ _ N p) ltac:(lia)) as [d_p Hdp]. split; cbn.
  - by apply (tree_attach (dentries c) m' _ _ ch dch p d_p).
  - refine (count_mapped (attached ch p) H (plus p (-1) H) c m' N Hm _ _ (lru_list c) (lru_size c)).
    + intros x d Hd. destruct (attached_fields ch p x d) as (-> & _ & _ & _ & ->). unfold plus. case_decide; cbn [length]; lia.
    + intros x. destruct (n_held _ _ N x). unfold plus. case_decide; [|done]. subst. split; [lia|]. by rewrite Hdp.
  - destruct L as [L1 L2 L3 L4 L5 L6 L7]. split; cbn; try done.
    + intros x. rewrite L1, (proj1 (idle_mapped _ _ _ x Hm)). unfold idle.
      split; intros (d & Hd & Hr0 & Hn); exists d; destruct (attached_fields ch p x d) as (Er & _ & _ & Ep & _); rewrite Er, Ep in *; case_decide; subst; try done; exfalso;
        (rewrite Hch in Hd; injection Hd as <-; lia).
    + intros x. rewrite L4, (proj2 (idle_mapped _ _ _ x Hm)). unfold orphan.
      split; intros (d & Hd & Hr0 & Hn); exists d; destruct (attached_fields ch p x d) as (Er & _ & _ & Ep & _); rewrite Er, Ep in *; case_decide; subst; try done; exfalso;
        (rewrite Hch in Hd; injection Hd as <-; lia).
    + intros x d' Hx. destruct (proj2 (lookup_mapped _ _ _ Hm) _ _ Hx) as (d & Hd & ->). destruct (attached_fields ch p x d) as (-> & _ & _ & -> & _).
      case_decide; [|by apply (L6 x)]. subst. rewrite Hch in Hd. injection Hd as <-. lia.
  - intros x Hx. apply F. rewrite Hm in Hx. by apply fmap_is_Some in Hx.
  - intros i. rewrite I. f_equal. symmetry. apply users_ext. intros x. rewrite Hm. destruct (dentries c !! x) as [d|]; [|done]. cbn. f_equal. apply attached_fields.
Qed.

(** ** Allocating and freeing *)

Lemma cache_inv_free E freed H c dp d : cache_inv E (dp :: freed) H c -> dentries c !! dp = Some d ->
  cache_inv E freed H (set_dentries (delete dp (dentries c)) (add_inode_ref (d_ip d) (-1) c)).
Proof.
  intros [T N L F I] Hd. destruct L as [L1 L2 L3 L4 L5 L6 L7].
  destruct (proj1 (L4 dp) ltac:(left)) as (d0 & Hd0 & Hr & Hp). rewrite Hd in Hd0. injection Hd0 as <-.
  pose proof (n_ref _ _ N dp d Hd) as Hn. pose proof (n_held _ _ N dp) as [Hh _]. unfold own in Hn.
  assert (d_child_list d = []) as Hc by (apply length_zero_iff_nil; case_decide; lia).
  assert (H dp = 0) by (case_decide; lia). assert (~ (dp = root c \/ dp = unlinked_root c)) as Hroots by (case_decide; [lia|done]). clear Hn.
  assert (forall x, delete dp (dentries c) !! x = if decide (x = dp) then None else dentries c !! x) as Hm.
  { intros x. case_decide; [subst; apply lookup_delete_eq|by apply lookup_delete_ne]. }
  apply NoDup_cons in L5 as [L5' L5]. split; cbn.
  - destruct T as [Tc Tp Tn [Tr Tr'] Ta]. split; [| | |split; [done|]|].
    + intros x dx y Hx Hy. rewrite Hm in Hx. case_decide; [done|]. destruct (Tc x dx y Hx Hy) as (dy & Hdy & Hpy). exists dy. rewrite Hm. case_decide; [congruence|done].
    + intros y dy x Hy Hpy. rewrite Hm in Hy. case_decide; [done|]. destruct (Tp y dy x Hy Hpy) as (dx & Hdx & Hin). exists dx. rewrite Hm. case_decide; [|done].
      subst. rewrite Hd in Hdx. injection Hdx as <-. rewrite Hc in Hin. by apply elem_of_nil in Hin.
    + intros x dx Hx. rewrite Hm in Hx. case_decide; [done|]. by apply (Tn x).
    + intros x Hx. rewrite Hm. case_decide; [subst; tauto|]. by apply Tr'.
    + intros y1 y2 d1 d2 x Hy1 Hy2. rewrite Hm in Hy1, Hy2. repeat case_decide; try done. by apply Ta.
  - split; cbn.
    + intros x dx Hx. rewrite Hm in Hx. case_decide; [done|]. by apply (n_ref _ _ N).
    + intros x. rewrite Hm. case_decide; [subst; split; [done|lia]|]. apply (n_held _ _ N).
  - split; cbn; try done.
    + intros x. rewrite L1. unfold idle. rewrite Hm. case_decide; [|done]. subst. rewrite Hd. split; [intros (d' & [= <-] & _ & ?); done|intros (d' & ? & _); done].
    + intros x. unfold orphan. rewrite Hm. case_decide.
      * subst. split; [done|intros (d' & ? & _); done].
      * rewrite <- (L4 x : _ <-> orphan _ _). rewrite elem_of_cons. tauto.
    + intros x dx Hx. rewrite Hm in Hx. case_decide; [done|]. by apply (L6 x).
  - intros x Hx. rewrite Hm in Hx. case_decide; [by destruct Hx|]. by apply F.
  - intros i. rewrite (I i), (users_delete (dentries c) i dp d Hd). repeat case_decide; done || lia.
Qed.

Lemma cache_inv_alloc E freed H c name : cache_inv E freed H c ->
  let new := next_dentry c in
  cache_inv E freed (plus new 1 H)
    (mk_cache (<[new := mk_dentry 1 None name None []]> (dentries c)) (S new) (root c) (unlinked_root c)
       (lru_list c) (lru_size c) (max_lru_size c) (inode_refs c)).
Proof.
  intros [T N L F I] new. assert (dentries c !! new = None) as Hnew.
  { destruct (dentries c !! new) as [d|] eqn:Hd; [|done]. specialize (F new ltac:(by exists d)). unfold new in F. lia. }
  assert (H new = 0) as HH. { destruct (n_held _ _ N new) as [_ Hh]. destruct (decide (H new = 0)) as [|Hn]; [done|]. specialize (Hh Hn). rewrite Hnew in Hh. by destruct Hh. }
  split; cbn.
  - destruct T as [Tc Tp Tn [Tr Tr'] Ta]. split; [| | |split; [done|]|].
    + intros x dx y Hx Hy. apply lookup_insert_Some in Hx as [[<- <-]|[_ Hx]]; [by apply elem_of_nil in Hy|].
      destruct (Tc x dx y Hx Hy) as (dy & Hdy & Hpy). exists dy. rewrite lookup_insert_ne by congruence. done.
    + intros y dy x Hy Hpy. apply lookup_insert_Some in Hy as [[<- <-]|[_ Hy]]; [done|].
      destruct (Tp y dy x Hy Hpy) as (dx & Hdx & Hin). exists dx. rewrite lookup_insert_ne by congruence. done.
    + intros x dx Hx. apply lookup_insert_Some in Hx as [[<- <-]|[_ Hx]]; [constructor|]. by apply (Tn x).
    + intros x Hx. destruct (Tr' x Hx) as (dx & Hdx & Hn). exists dx. rewrite lookup_insert_ne by congruence. done.
    + intros y1 y2 d1 d2 x Hy1 Hy2. apply lookup_insert_Some in Hy1 as [[<- <-]|[_ Hy1]]; [done|]. apply lookup_insert_Some in Hy2 as [[<- <-]|[_ Hy2]]; [done|]. by apply Ta.
  - split; cbn; unfold plus.
    + intros x dx Hx. unfold own; cbn. fold (own c x). apply lookup_insert_Some in Hx as [[<- <-]|[Hne Hx]]; [rewrite decide_True by done|rewrite decide_False by done; by apply (n_ref _ _ N)].
      cbn. rewrite HH. unfold own. rewrite decide_False; [done|]. intros Hx. destruct (proj2 (t_roots _ _ _ T) new Hx) as (dx & Hdx & _). congruence.
    + intros x. rewrite lookup_insert. destruct (decide (x = new)) as [->|Hx]; [rewrite decide_True by done; split; [lia|done]|]. rewrite decide_False by congruence. apply (n_held _ _ N).
  - destruct L as [L1 L2 L3 L4 L5 L6 L7]. split; cbn; try done.
    + intros x. rewrite idle_insert, L1. cbn. split; [|intros [(_ & ? & _)|[_ ?]]; done]. intros Hx. right. split; [|done]. intros ->. destruct Hx as (dx & Hdx & _). congruence.
    + intros x. rewrite orphan_insert, L4. cbn. split; [|intros [(_ & ? & _)|[_ ?]]; done]. intros Hx. right. split; [|done]. intros ->. destruct Hx as (dx & Hdx & _). congruence.
    + intros x dx Hx. apply lookup_insert_Some in Hx as [[<- <-]|[_ Hx]]; [done|]. by apply (L6 x).
  - intros x Hx. rewrite lookup_insert in Hx. case_decide; [subst; unfold new; lia|]. specialize (F x Hx). lia.
  - intros i. rewrite users_insert by done. cbn. rewrite (I i). case_decide; done || lia.
Qed.

Lemma inv_set_ip E freed H c dp d ip : cache_inv E freed H c -> dentries c !! dp = Some d -> d_ip d = None ->
  cache_inv E freed H (set_dentries (<[dp := set_ip ip d]> (dentries c)) (add_inode_ref ip 1 c)).
Proof.
  intros [T N L F I] Hd Hip.
  assert (forall x, <[dp := set_ip ip d]> (dentries c) !! x = (if decide (x = dp) then set_ip ip else id) <$> dentries c !! x) as Hm.
  { intros x. rewrite lookup_insert. repeat case_decide; subst; try congruence; [by rewrite Hd|by rewrite option_fmap_id]. }
  split; cbn.
  - apply (tree_ext (dentries c)); [|done]. intros x. rewrite Hm. case_decide; destruct (dentries c !! x); done.
  - assert (counted H (set_lru (lru_list c) (lru_size c) (set_dentries (<[dp := set_ip ip d]> (dentries c)) c))) as [N1 N2]; [|split; [exact N1|exact N2]].
    apply (count_mapped (fun x => if decide (x = dp) then set_ip ip else id) H); [done..| |apply (n_held _ _ N)]. intros x dx _. by case_decide.
  - destruct L as [L1 L2 L3 L4 L5 L6 L7]. destruct (idle_at _ _ _ Hd) as [Hi Ho]. split; cbn; try done.
    + intros x. rewrite L1, idle_insert. cbn. destruct (decide (x = dp)) as [->|]; tauto.
    + intros x. rewrite L4, orphan_insert. cbn. destruct (decide (x = dp)) as [->|]; tauto.
    + intros x dx Hx. apply lookup_insert_Some in Hx as [[<- <-]|[_ Hx]]; [exact (L6 dp d Hd)|exact (L6 x dx Hx)].
  - intros x Hx. apply F. rewrite lookup_insert in Hx. case_decide; [by subst; exists d|done].
  - intros i. rewrite (users_change _ i dp d) by done. rewrite (I i). cbn [d_ip set_ip]. repeat case_decide; congruence || lia.
Qed.

(** ** What operations keep *)

(** Dentries may have been freed; the others have their inode, name and parent. *)
Record kept (c c' : dentry_cache) : Prop := {
  k_roots : root c' = root c /\ unlinked_root c' = unlinked_root c /\ max_lru_size c' = max_lru_size c /\ next_dentry c' = next_dentry c;
  k_dentry x d' : dentries c' !! x = Some d' ->
    exists d, dentries c !! x = Some d /\ d_ip d' = d_ip d /\ d_name d' = d_name d /\ d_parent d' = d_parent d
}.

Lemma kept_refl c : kept c c.
Proof. split; [done|]. intros x d Hd. by exists d. Qed.

Lemma kept_trans c1 c2 c3 : kept c1 c2 -> kept c2 c3 -> kept c1 c3.
Proof.
  intros [(R1 & R2 & R3 & R4) K1] [(S1 & S2 & S3 & S4) K2]. split; [repeat split; congruence|]. intros x d3 Hd3.
  destruct (K2 _ _ Hd3) as (d2 & Hd2 & ? & ? & ?). destruct (K1 _ _ Hd2) as (d1 & Hd1 & ? & ? & ?). exists d1. repeat split; congruence.
Qed.

(** The dentries in the tree below the roots. *)
Definition in_tree (m : gmap nat dentry) : gset nat := dom (filter (fun kd => d_parent kd.2 <> None) m).

Lemma elem_of_in_tree m x : x ∈ in_tree m <-> exists d, m !! x = Some d /\ d_parent d <> None.
Proof. unfold in_tree. rewrite elem_of_dom. unfold is_Some. by setoid_rewrite map_lookup_filter_Some. Qed.

Lemma in_tree_size m : (size (in_tree m) <= size m)%nat.
Proof.
  rewrite <- (size_dom (D := gset nat) m). apply subseteq_size. intros x Hx. apply elem_of_in_tree in Hx as (d & Hd & _). apply elem_of_dom. by exists d.
Qed.

Lemma in_tree_kept c c' : kept c c' -> (size (in_tree (dentries c')) <= size (in_tree (dentries c)))%nat.
Proof.
  intros [_ K]. apply subseteq_size. intros x Hx. apply elem_of_in_tree in Hx as (d' & Hd' & Hp). destruct (K _ _ Hd') as (d & Hd & _ & _ & E).
  apply elem_of_in_tree. exists d. split; [done|]. congruence.
Qed.

Lemma in_tree_detach m m' ch dch p : (forall x, m' !! x = detached ch p x <$> m !! x) -> m !! ch = Some dch -> d_parent dch = Some p ->
  size (in_tree m) = S (size (in_tree m')).
Proof.
  intros Hm Hch Hp. assert (in_tree m = {[ch]} ∪ in_tree m') as ->.
  { apply leibniz_equiv, set_equiv. intros x. rewrite elem_of_union, elem_of_singleton, !elem_of_in_tree, Hm. split.
    - intros (d & Hd & Hn). destruct (decide (x = ch)) as [->|Hx]; [by left|]. right. rewrite Hd. exists (detached ch p x d). split; [done|].
      destruct (detached_fields ch p x d) as (_ & _ & _ & -> & _). by rewrite decide_False.
    - intros [->|(d' & Hd & Hn)]; [exists dch; split; [done|congruence]|]. apply fmap_Some in Hd as (d & Hd & ->). exists d. split; [done|].
      destruct (detached_fields ch p x d) as (_ & _ & _ & E & _). rewrite E in Hn. by case_decide. }
  rewrite size_union, size_singleton; [done|]. apply disjoint_singleton_l. rewrite elem_of_in_tree, Hm, Hch. intros (d' & [= <-] & Hn).
  destruct (detached_fields ch p ch dch) as (_ & _ & _ & E & _). rewrite E, decide_True in Hn by done. done.
Qed.

(** ** References *)

Lemma load_run c dp d : dentries c !! dp = Some d -> load_dentry dp c = Ret (d, c).
Proof. intros Hd. unfold load_dentry. rewrite (bind_run _ _ _ c c) by done. by rewrite Hd. Qed.

Lemma change_run c dp d f : dentries c !! dp = Some d -> change dp f c = Ret (tt, set_dentries (<[dp := f d]> (dentries c)) c).
Proof. intros Hd. unfold change. by rewrite (bind_run _ _ _ d c) by by apply load_run. Qed.

Lemma kept_ref c dp d r l n : dentries c !! dp = Some d -> kept c (set_lru l n (set_dentries (<[dp := set_ref r d]> (dentries c)) c)).
Proof. intros Hd. split; [done|]. cbn. intros x d' Hx. apply lookup_insert_Some in Hx as [[<- <-]|[_ Hx]]; [by exists d|by exists d']. Qed.

Lemma ref_pos E freed H c dp d : cache_inv E freed H c -> dentries c !! dp = Some d -> 0 <= d_ref d /\ H dp <= d_ref d /\ (0 < d_ref d <-> dp ∉ lru_list c /\ dp ∉ freed).
Proof.
  intros I Hd. pose proof (n_ref _ _ (v_count _ _ _ _ I) dp d Hd) as Hr. pose proof (n_held _ _ (v_count _ _ _ _ I) dp) as [Hh _].
  assert (0 <= own c dp) by (unfold own; case_decide; lia). split; [lia|]. split; [lia|].
  destruct (idle_at _ _ _ Hd) as [Hi Ho]. rewrite (l_lru _ _ (v_lists _ _ _ _ I)), (l_freed _ _ (v_lists _ _ _ _ I)), Hi, Ho.
  destruct (d_parent d); split; [intros; split; intros []; lia|intros [Hn Hn']; destruct (decide (d_ref d = 0)); [exfalso; by apply Hn|lia]|intros; split; intros []; lia|
    intros [Hn Hn']; destruct (decide (d_ref d = 0)); [exfalso; by apply Hn'|lia]].
Qed.

Lemma get_run E freed H c dp d : cache_inv E freed H c -> dentries c !! dp = Some d -> dp ∉ freed ->
  exists c', dentry_get dp c = Ret (tt, c') /\ cache_inv E freed (plus dp 1 H) c' /\ kept c c' /\ lru_size c' <= lru_size c.
Proof.
  intros I Hd Hf. destruct (ref_pos _ _ _ _ _ _ I Hd) as (Hpos & Hheld & Hz). pose proof (proj1 (n_held _ _ (v_count _ _ _ _ I) dp)) as Hh.
  unfold dentry_get. rewrite (bind_run _ _ _ d c) by by apply load_run. rewrite (bind_run _ _ _ tt _ (change_run c dp d _ Hd)).
  pose proof (v_lists _ _ _ _ I) as L. destruct (d_ref d =? 0) eqn:E0; zbool.
  - assert (dp ∈ lru_list c) as Hin. { destruct (decide (dp ∈ lru_list c)) as [|Hn]; [done|]. destruct Hz as [_ Hz]. specialize (Hz (conj Hn Hf)). lia. }
    unfold modify. cbn [lru_list set_dentries]. rewrite decide_True by done. eexists. split; [reflexivity|]. split; [|split; [by apply kept_ref|cbn; lia]].
    apply (inv_set_ref E freed freed H c dp d 1 (list_del dp (lru_list c)) (lru_size c - 1) I Hd ltac:(lia)).
    apply (listed_change freed freed c dp d); [done|done| | | | | |].
    + intros x. rewrite elem_of_list_del. cbn. destruct (decide (x = dp)) as [->|]; [|tauto]. split; [tauto|]. intros [(_ & ? & _)|[? _]]; [lia|done].
    + apply NoDup_list_del, (l_nodup _ _ L).
    + rewrite (l_size _ _ L), (length_list_del dp (lru_list c)); [lia|apply (l_nodup _ _ L)|done].
    + intros x. cbn. destruct (decide (x = dp)) as [->|]; [|tauto]. split; [done|]. intros [(_ & ? & _)|[? _]]; [lia|done].
    + apply (l_freed_nodup _ _ L).
    + cbn. lia.
  - eexists. split; [reflexivity|]. split; [|split; [exact (kept_ref c dp d (d_ref d + 1) (lru_list c) (lru_size c) Hd)|done]].
    apply (inv_set_ref E freed freed H c dp d 1 (lru_list c) (lru_size c) I Hd ltac:(lia)).
    destruct Hz as [Hz _]. destruct (Hz ltac:(lia)) as [Hl _].
    apply (listed_change freed freed c dp d); [done|done| |apply (l_nodup _ _ L)|apply (l_size _ _ L)| |apply (l_freed_nodup _ _ L)|cbn; lia];
      intros x; cbn; (destruct (decide (x = dp)) as [->|]; [|tauto]; split; [done|]; intros [(_ & ? & _)|[? _]]; [lia|done]).
Qed.

(** Dropping a reference: others are left, the dentry stays in the tree without any, or it
    is about to be freed. *)
Lemma inv_drop E freed H c dp d : cache_inv E freed H c -> dentries c !! dp = Some d -> 1 <= H dp ->
  let m := <[dp := set_ref (d_ref d - 1) d]> (dentries c) in
  (d_ref d <> 1 -> cache_inv E freed (plus dp (-1) H) (set_dentries m c)) /\
  (d_ref d = 1 -> d_parent d = None -> cache_inv E (dp :: freed) (plus dp (-1) H) (set_dentries m c)) /\
  (d_ref d = 1 -> d_parent d <> None -> d_parent d <> Some (unlinked_root c) ->
     cache_inv E freed (plus dp (-1) H) (set_lru (dp :: lru_list c) (lru_size c + 1) (set_dentries m c))).
Proof.
  intros I Hd Hh m. pose proof (v_lists _ _ _ _ I) as L. destruct (ref_pos _ _ _ _ _ _ I Hd) as (_ & Hr & [Hz _]). destruct (Hz ltac:(lia)) as [Hl Hf].
  pose proof (l_nodup _ _ L). pose proof (l_freed_nodup _ _ L). pose proof (l_size _ _ L) as Hs.
  split; [|split].
  - intros Hn. apply (inv_set_ref E freed freed H c dp d (-1) (lru_list c) (lru_size c) I Hd ltac:(lia)).
    apply (listed_change freed freed c dp d); try done; try (cbn; lia);
      intros x; cbn; (destruct (decide (x = dp)) as [->|]; [|tauto]; split; [done|]; intros [(_ & ? & _)|[? _]]; [lia|done]).
  - intros Hone Hp. apply (inv_set_ref E freed (dp :: freed) H c dp d (-1) (lru_list c) (lru_size c) I Hd ltac:(lia)).
    apply (listed_change freed (dp :: freed) c dp d); try done.
    + intros x. cbn. destruct (decide (x = dp)) as [->|]; [|tauto]. split; [done|]. intros [(_ & _ & ?)|[? _]]; done.
    + intros x. cbn. rewrite elem_of_cons. destruct (decide (x = dp)) as [->|]; [|tauto]. split; [|tauto]. intros _. left. split; [done|]. split; [lia|done].
    + by apply NoDup_cons.
    + cbn. intros _. by rewrite Hp.
  - intros Hone Hp Hu. apply (inv_set_ref E freed freed H c dp d (-1) (dp :: lru_list c) (lru_size c + 1) I Hd ltac:(lia)).
    apply (listed_change freed freed c dp d); try done.
    + intros x. cbn. rewrite elem_of_cons. destruct (decide (x = dp)) as [->|]; [|tauto]. split; [|tauto]. intros _. left. split; [done|]. split; [lia|done].
    + by apply NoDup_cons.
    + cbn [length]. lia.
    + intros x. cbn. destruct (decide (x = dp)) as [->|]; [|tauto]. split; [done|]. intros [(_ & _ & ?)|[? _]]; done.
Qed.

Lemma inv_freed_perm E freed freed' H c : freed ≡ₚ freed' -> cache_inv E freed H c -> cache_inv E freed' H c.
Proof.
  intros Hp [T N [L1 L2 L3 L4 L5 L6 L7] F I]. split; try done. split; try done; [|by rewrite <- Hp]. intros x. by rewrite <- Hp.
Qed.

Lemma detach_lookup (m : gmap nat dentry) ch dch p d_p : m !! ch = Some dch -> m !! p = Some d_p -> ch <> p ->
  forall x, <[ch := set_parent None dch]> (<[p := set_children (list_del ch (d_child_list d_p)) d_p]> m) !! x = detached ch p x <$> m !! x.
Proof.
  intros Hch Hp Hne x. rewrite !lookup_insert. unfold detached. repeat case_decide; subst; try congruence.
  - by rewrite Hch.
  - by rewrite Hp.
  - by destruct (m !! x).
Qed.

(** The references that a batch of the LRU list had to its parents. *)
Fixpoint adds (l : list (nat * option nat)) (H : nat -> Z) : nat -> Z :=
  match l with
  | [] => H
  | (_, Some p) :: l => adds l (plus p 1 H)
  | (_, None) :: l => adds l H
  end.

Lemma adds_plus p k l : forall H x, adds l (plus p k H) x = plus p k (adds l H) x.
Proof.
  induction l as [|[ch [q|]] l IH]; intros H x; cbn [adds]; [done| |apply IH].
  assert (forall l H H' x, (forall y, H y = H' y) -> adds l H x = adds l H' x) as Hext.
  { clear. induction l as [|[ch [q|]] l IH]; intros H H' x HH; cbn [adds]; [apply HH| |by apply IH]. apply IH. intros y. unfold plus. by rewrite HH. }
  rewrite <- IH. apply Hext. intros y. unfold plus. repeat case_decide; lia.
Qed.

(** The dentries of a batch lost their parents. *)
Record batch_kept (l : list nat) (c c' : dentry_cache) : Prop := {
  b_roots : root c' = root c /\ unlinked_root c' = unlinked_root c /\ max_lru_size c' = max_lru_size c /\ next_dentry c' = next_dentry c;
  b_dentry x d' : dentries c' !! x = Some d' ->
    exists d, dentries c !! x = Some d /\ d_ip d' = d_ip d /\ d_name d' = d_name d /\ (x ∉ l -> d_parent d' = d_parent d)
}.

Lemma batch_run target E : 0 <= target -> forall k freed H c, cache_inv E freed H c ->
  exists l c', drain_batch k target c = Ret (l, c') /\ cache_inv E (l.*1 ++ freed) (adds l H) c' /\ batch_kept l.*1 c c' /\
    size (in_tree (dentries c)) = (size (in_tree (dentries c')) + length l)%nat /\ (l = [] -> k = 0%nat \/ lru_size c <= target).
Proof.
  intros Ht. assert (forall freed H c, cache_inv E freed H c -> cache_inv E ([] ++ freed) (adds [] H) c /\ batch_kept [] c c) as Hnil.
  { intros freed H c I. split; [done|]. split; [done|]. intros x d Hd. by exists d. }
  induction k as [|k IH]; intros freed H c I; cbn [drain_batch].
  { exists [], c. destruct (Hnil _ _ _ I). split; [done|]. split; [done|]. split; [done|]. split; [cbn; lia|auto]. }
  rewrite (bind_run _ _ _ c c) by done. destruct (target <? lru_size c) eqn:E0; zbool; [|exists [], c; destruct (Hnil _ _ _ I); split; [done|]; split; [done|]; split; [done|]; split; [cbn; lia|auto]].
  pose proof (v_lists _ _ _ _ I) as L. rewrite (l_size _ _ L) in E0.
  destruct (last (lru_list c)) as [ch|] eqn:El; [|apply last_None in El; rewrite El in E0; cbn in E0; lia].
  assert (ch ∈ lru_list c) as Hin by (apply last_Some in El as [l' ->]; apply elem_of_app; right; by apply list_elem_of_singleton).
  destruct (proj1 (l_lru _ _ L ch) Hin) as (dch & Hch & Hr & Hp). rewrite (bind_run _ _ _ ch c) by done.
  rewrite (bind_run _ _ _ dch c) by by apply load_run. rewrite Hr. change (negb (0 =? 0)) with false. cbv iota.
  rewrite (bind_run _ _ _ tt (set_lru (list_del ch (lru_list c)) (lru_size c - 1) c)) by done.
  destruct (d_parent dch) as [p|] eqn:Ep; [|done]. clear Hp.
  destruct (t_parent _ _ _ (v_tree _ _ _ _ I) ch dch p Hch Ep) as (d_p & Hdp & Hchild).
  assert (ch <> p) as Hne.
  { intros ->. rewrite Hch in Hdp. injection Hdp as <-. pose proof (n_ref _ _ (v_count _ _ _ _ I) p dch Hch) as Hn. pose proof (n_held _ _ (v_count _ _ _ _ I) p) as [? _].
    unfold own in Hn. destruct (d_child_list dch); [by apply elem_of_nil in Hchild|]. cbn [length] in Hn. case_decide; lia. }
  set (m' := <[ch := set_parent None dch]> (<[p := set_children (list_del ch (d_child_list d_p)) d_p]> (dentries c))).
  pose proof (detach_lookup (dentries c) ch dch p d_p Hch Hdp Hne) as Hm. fold m' in Hm.
  set (c1 := set_lru (list_del ch (lru_list c)) (lru_size c - 1) (set_dentries m' c)).
  rewrite (bind_run _ _ _ tt c1).
  2:{ rewrite (bind_run _ _ _ d_p (set_lru (list_del ch (lru_list c)) (lru_size c - 1) c)) by by apply load_run.
      erewrite bind_run by by apply change_run. etrans; [apply (change_run _ ch dch); cbn; by rewrite lookup_insert_ne|reflexivity]. }
  pose proof (inv_detach E freed (ch :: freed) H c ch dch p m' (list_del ch (lru_list c)) (lru_size c - 1) I Hch Ep Hm ltac:(right; by rewrite Hr)) as I1. fold c1 in I1.
  destruct (IH (ch :: freed) (plus p 1 H) c1 I1) as (l & c' & Hrun & I' & K' & Hsize & _). rewrite (bind_run _ _ _ _ _ Hrun).
  exists ((ch, Some p) :: l), c'. split; [done|]. split; [|split; [|split; [|done]]].
  - cbn. apply (inv_freed_perm E (l.*1 ++ ch :: freed)); [|done]. rewrite <- Permutation_middle. done.
  - destruct K' as [(S1 & S2 & S3 & S4) K']. split; [done|]. intros x d' Hx. destruct (K' x d' Hx) as (d1 & Hd1 & E1 & E2 & E3).
    cbn in Hd1. rewrite Hm in Hd1. apply fmap_Some in Hd1 as (d & Hd & ->). destruct (detached_fields ch p x d) as (_ & F1 & F2 & F3 & _).
    exists d. split; [done|]. split; [congruence|]. split; [congruence|]. cbn. rewrite not_elem_of_cons. intros [Hx1 Hx2]. rewrite (E3 Hx2), F3. by rewrite decide_False.
  - pose proof (in_tree_detach (dentries c) m' ch dch p Hm Hch Ep). cbn in Hsize |- *. lia.
Qed.

Lemma free_run E freed H c dp d : cache_inv E (dp :: freed) H c -> dentries c !! dp = Some d ->
  exists c', dentry_free dp c = Ret (tt, c') /\ cache_inv E freed H c' /\ kept c c' /\ dentries c' !! dp = None /\ lru_size c' = lru_size c.
Proof.
  intros I Hd. exists (set_dentries (delete dp (dentries c)) (add_inode_ref (d_ip d) (-1) c)). split; [|split; [|split]].
  - unfold dentry_free. by rewrite (bind_run _ _ _ d c) by by apply load_run.
  - by apply cache_inv_free.
  - split; [done|]. cbn. intros x d' Hx. apply lookup_delete_Some in Hx as [_ Hx]. by exists d'.
  - cbn. split; [apply lookup_delete_eq|done].
Qed.

(** What [dentry_put] promises for a tree of less than [k] dentries. *)
Definition put_spec (put_ : nat -> ST dentry_cache unit) (k : nat) : Prop :=
  forall E freed H c dp, cache_inv E freed H c -> 1 <= H dp -> (size (in_tree (dentries c)) < k)%nat ->
  exists c', put_ dp c = Ret (tt, c') /\ cache_inv E freed (plus dp (-1) H) c' /\ kept c c' /\ lru_size c' <= Z.max (lru_size c) (max_lru_size c).

Section Drain.
Context (put_ : nat -> ST dentry_cache unit) (k : nat) (Hput : put_spec put_ k).

Lemma drop_run E : forall l freed H c, cache_inv E (l.*1 ++ freed) (adds l H) c -> (size (in_tree (dentries c)) < k)%nat -> (forall x, 0 <= H x) ->
  exists c', drop_batch put_ l c = Ret (tt, c') /\ cache_inv E freed H c' /\ kept c c' /\ forall x, x ∈ l.*1 -> dentries c' !! x = None.
Proof using Hput.
  induction l as [|[dp parent] l IH]; intros freed H c I Hk HH; cbn [drop_batch].
  { exists c. split; [done|]. split; [done|]. split; [apply kept_refl|]. intros x Hx. by apply elem_of_nil in Hx. }
  assert (exists c1, (match parent with Some p => put_ p | None => mret tt end) c = Ret (tt, c1) /\ cache_inv E (dp :: l.*1 ++ freed) (adds l H) c1 /\ kept c c1) as (c1 & Hrun & I1 & K1).
  { destruct parent as [p|]; [|exists c; split; [done|]; split; [done|apply kept_refl]]. cbn in I.
    destruct (Hput _ _ _ _ p I) as (c1 & Hrun & I1 & K1 & _); [|done|].
    - rewrite adds_plus. unfold plus. rewrite decide_True by done. enough (0 <= adds l H p) by lia. clear -HH. revert H HH.
      induction l as [|[x [q|]] l IH]; intros H HH; cbn; [apply HH| |by apply IH]. apply IH. intros y. unfold plus. specialize (HH y). case_decide; lia.
    - exists c1. split; [done|]. split; [|done]. eapply inv_ext; [|exact I1]. intros x. cbn [adds]. unfold plus at 1. rewrite !adds_plus. unfold plus. case_decide; lia. }
  rewrite (bind_run _ _ _ tt c1) by done.
  destruct (proj1 (l_freed _ _ (v_lists _ _ _ _ I1) dp) ltac:(left)) as (d & Hd & _).
  destruct (free_run _ _ _ _ _ _ I1 Hd) as (c2 & Hrun2 & I2 & K2 & Hgone & _). rewrite (bind_run _ _ _ tt c2) by done.
  pose proof (kept_trans _ _ _ K1 K2) as K12. pose proof (in_tree_kept _ _ K12).
  destruct (IH freed H c2 I2 ltac:(lia) HH) as (c3 & Hrun3 & I3 & K3 & Hgone3). exists c3. split; [done|]. split; [done|].
  split; [by apply (kept_trans _ c2)|]. intros x Hx. cbn in Hx. apply elem_of_cons in Hx as [->|Hx]; [|by apply Hgone3].
  destruct (dentries c3 !! dp) as [d3|] eqn:E3; [|done]. destruct (k_dentry _ _ K3 dp d3 E3) as (d2 & Hd2 & _). congruence.
Qed.

Lemma drain_run E freed H target : 0 <= target -> (forall x, 0 <= H x) -> forall fuel c, cache_inv E freed H c ->
  (size (in_tree (dentries c)) < fuel)%nat -> (size (in_tree (dentries c)) <= k)%nat ->
  exists c', drain_loop put_ fuel target c = Ret (tt, c') /\ cache_inv E freed H c' /\ kept c c' /\ lru_size c' <= target.
Proof using Hput.
  intros Ht HH. induction fuel as [|fuel IH]; intros c I Hf Hk; [lia|]. cbn [drain_loop]. rewrite (bind_run _ _ _ c c) by done.
  destruct (target <? lru_size c) eqn:E0; zbool; [|exists c; split; [done|]; split; [done|]; split; [apply kept_refl|done]].
  destruct (batch_run target E Ht DRAIN_BATCH_SIZE freed H c I) as (l & c1 & Hrun & I1 & K1 & Hsize & Hne). rewrite (bind_run _ _ _ _ _ Hrun).
  destruct l as [|e l]; [destruct (Hne eq_refl) as [?|?]; [done|lia]|]. cbn [length] in Hsize.
  destruct (drop_run E (e :: l) freed H c1 I1 ltac:(lia) HH) as (c2 & Hrun2 & I2 & K2 & Hgone). rewrite (bind_run _ _ _ tt c2) by done.
  pose proof (in_tree_kept _ _ K2). destruct (IH c2 I2 ltac:(lia) ltac:(lia)) as (c3 & Hrun3 & I3 & K3 & Hlru). exists c3. split; [done|]. split; [done|]. split; [|done].
  apply (kept_trans _ c2); [|done]. destruct K1 as [(R1 & R2 & R3 & R4) K1], K2 as [(S1 & S2 & S3 & S4) K2]. split; [repeat split; congruence|].
  intros x d2 Hd2. destruct (K2 x d2 Hd2) as (d1 & Hd1 & ? & ? & ?). destruct (K1 x d1 Hd1) as (d & Hd & ? & ? & Hp). exists d. split; [done|].
  split; [congruence|]. split; [congruence|]. rewrite <- Hp; [done|]. intros Hx. specialize (Hgone x Hx). congruence.
Qed.

Lemma move_run E freed H c dp d : cache_inv E freed H c -> dentries c !! dp = Some d -> 1 <= H dp -> d_ref d = 1 ->
  d_parent d <> None -> d_parent d <> Some (unlinked_root c) -> (size (in_tree (dentries c)) <= k)%nat ->
  exists c', move_to_lru put_ dp (set_dentries (<[dp := set_ref 0 d]> (dentries c)) c) = Ret (tt, c') /\ cache_inv E freed (plus dp (-1) H) c' /\ kept c c' /\ lru_size c' <= max_lru_size c.
Proof using Hput.
  intros I Hd Hh Hr Hp Hu Hk. pose proof (l_max _ _ (v_lists _ _ _ _ I)) as Hmax. destruct (inv_drop _ _ _ _ _ _ I Hd Hh) as (_ & _ & I1). specialize (I1 Hr Hp Hu). rewrite Hr in I1. change (1 - 1) with 0 in I1.
  set (m := <[dp := set_ref 0 d]> (dentries c)) in *. set (c1 := set_lru (dp :: lru_list c) (lru_size c + 1) (set_dentries m c)) in *.
  assert (dp ∉ lru_list c) as Hn by (destruct (ref_pos _ _ _ _ _ _ I Hd) as (_ & _ & [Hz _]); apply Hz; lia).
  pose proof (kept_ref c dp d 0 (dp :: lru_list c) (lru_size c + 1) Hd : kept c c1) as K1. pose proof (in_tree_kept _ _ K1).
  unfold move_to_lru. rewrite (bind_run _ _ _ tt c1). 2:{ unfold modify. cbn [lru_list set_dentries]. by rewrite decide_False. }
  rewrite (bind_run _ _ _ c1 c1) by done. unfold drain_lru. rewrite (bind_run _ _ _ c1 c1) by done. pose proof (in_tree_size (dentries c1)).
  destruct (drain_run E freed (plus dp (-1) H) (max_lru_size c1) Hmax (fun x => proj1 (n_held _ _ (v_count _ _ _ _ I1) x)) (S (size (dentries c1))) c1 I1 ltac:(lia) ltac:(lia))
    as (c' & Hrun & I' & K' & Hlru).
  exists c'. split; [done|]. split; [done|]. split; [by apply (kept_trans _ c1)|exact Hlru].
Qed.
End Drain.

(** Taking a dentry of unlinked files that has no references out of the tree. *)
Lemma inv_unlink E freed H c dp d p m' : cache_inv E freed H c -> dentries c !! dp = Some d -> 1 <= H dp -> d_ref d = 1 -> d_parent d = Some p ->
  (forall x, m' !! x = detached dp p x <$> <[dp := set_ref 0 d]> (dentries c) !! x) ->
  cache_inv E (dp :: freed) (plus dp (-1) (plus p 1 H)) (set_dentries m' c).
Proof.
  intros I Hd Hh Hr Hp Hm. destruct (t_parent _ _ _ (v_tree _ _ _ _ I) dp d p Hd Hp) as (d_p & Hdp & Hin).
  destruct (decide (dp = p)) as [->|Hne].
  { exfalso. rewrite Hd in Hdp. injection Hdp as <-. pose proof (n_ref _ _ (v_count _ _ _ _ I) p d Hd) as Hn. unfold own in Hn.
    destruct (d_child_list d); [by apply elem_of_nil in Hin|]. cbn [length] in Hn. case_decide; lia. }
  set (m1 := <[dp := set_parent None d]> (<[p := set_children (list_del dp (d_child_list d_p)) d_p]> (dentries c))).
  pose proof (detach_lookup (dentries c) dp d p d_p Hd Hdp Hne) as Hm1. fold m1 in Hm1.
  pose proof (inv_detach E freed freed H c dp d p m1 (lru_list c) (lru_size c) I Hd Hp Hm1 ltac:(left; repeat split; lia)) as I1.
  assert (m1 !! dp = Some (set_parent None d)) as Hd1 by apply lookup_insert_eq.
  destruct (inv_drop E freed (plus p 1 H) _ dp (set_parent None d) I1 Hd1) as (_ & I2 & _).
  { unfold plus. case_decide; lia. }
  specialize (I2 Hr eq_refl). cbn [d_ref set_parent] in I2. rewrite Hr in I2. change (1 - 1) with 0 in I2.
  assert (m' = <[dp := set_ref 0 (set_parent None d)]> m1) as ->; [|exact I2].
  apply map_eq. intros x. rewrite Hm, !lookup_insert. unfold detached. repeat case_decide; subst; try congruence; cbn.
  - done.
  - rewrite Hm1, Hdp. cbn. unfold detached. by repeat case_decide.
  - rewrite Hm1. destruct (dentries c !! x); [|done]. cbn. unfold detached. by rewrite !decide_False by congruence.
Qed.

(** [dentry_put] of a dentry of [unlinked_root]: [c] is the cache with its last reference
    dropped. *)
Lemma put_unlinked_run put_ k E freed H c dp d : put_spec put_ k -> cache_inv E freed H c -> dentries c !! dp = Some d -> 1 <= H dp -> d_ref d = 1 ->
  d_parent d = Some (unlinked_root c) -> (size (in_tree (dentries c)) <= k)%nat ->
  let c1 := set_dentries (<[dp := set_ref 0 d]> (dentries c)) c in
  exists c', (remove_from_unlinked put_ dp;; dentry_free dp) c1 = Ret (tt, c') /\ cache_inv E freed (plus dp (-1) H) c' /\ kept c c' /\
    lru_size c' <= Z.max (lru_size c) (max_lru_size c).
Proof.
  intros Hput I Hd Hh E1 Eu Hk c1. set (u := unlinked_root c) in *. destruct (t_parent _ _ _ (v_tree _ _ _ _ I) dp d _ Hd Eu) as (d_p & Hdp & _).
  assert (dp <> u) as Hne. { intros ->. destruct (proj2 (t_roots _ _ _ (v_tree _ _ _ _ I)) u) as (d0 & Hd0 & ?); [by right|]. congruence. }
  assert (dentries c1 !! dp = Some (set_ref 0 d)) as Hd1 by apply lookup_insert_eq. assert (dentries c1 !! u = Some d_p) as Hdp1 by (cbn; by rewrite lookup_insert_ne).
  set (m2 := <[dp := set_parent None (set_ref 0 d)]> (<[u := set_children (list_del dp (d_child_list d_p)) d_p]> (dentries c1))).
  pose proof (detach_lookup (dentries c1) dp (set_ref 0 d) u d_p Hd1 Hdp1 Hne) as Hm2. fold m2 in Hm2.
  pose proof (inv_unlink E freed H c dp d u m2 I Hd Hh E1 Eu Hm2) as J2.
  assert (size (in_tree (dentries c)) = S (size (in_tree m2))) as Hsize.
  { rewrite <- (in_tree_detach (dentries c1) m2 dp (set_ref 0 d) u Hm2 Hd1 Eu). f_equal. apply leibniz_equiv, set_equiv. intros x. rewrite !elem_of_in_tree. cbn.
    setoid_rewrite lookup_insert. case_decide as Ex; [|done]. subst. rewrite Hd. naive_solver. }
  destruct (Hput E (dp :: freed) _ (set_dentries m2 c) u J2) as (c3 & Hrun3 & I3 & K3 & Hlru3); [|cbn; lia|].
  { unfold plus. rewrite (decide_False (P := u = dp)) by congruence. rewrite decide_True by done. pose proof (n_held _ _ (v_count _ _ _ _ I) u) as [? _]. lia. }
  assert (cache_inv E (dp :: freed) (plus dp (-1) H) c3) as I4.
  { eapply inv_ext; [|exact I3]. intros x. unfold plus. repeat case_decide; subst; try done; lia. }
  destruct (proj1 (l_freed _ _ (v_lists _ _ _ _ I4) dp) ltac:(left)) as (d4 & Hd4 & _). destruct (free_run _ _ _ _ _ _ I4 Hd4) as (c5 & Hrun5 & I5 & K5 & Hgone & Hlru5).
  exists c5. split; [|split; [done|split; [|cbn in Hlru3; lia]]].
  - rewrite (bind_run _ _ _ tt c3); [done|]. unfold remove_from_unlinked. rewrite (bind_run _ _ _ (set_ref 0 d) c1) by by apply load_run. cbn [d_parent set_ref]. rewrite Eu.
    rewrite (bind_run _ _ _ d_p c1) by by apply load_run. erewrite bind_run by by apply change_run. rewrite (bind_run _ _ _ tt (set_dentries m2 c)); [exact Hrun3|].
    etrans; [apply (change_run _ dp (set_ref 0 d)); cbn [dentries set_dentries]; rewrite lookup_insert_ne by congruence; exact Hd1|reflexivity].
  - destruct K3 as [(S1 & S2 & S3 & S4) K3], K5 as [(R1 & R2 & R3 & R4) K5]. cbn in S1, S2, S3, S4. split; [repeat split; congruence|].
    intros x d5 Hd5. destruct (K5 x d5 Hd5) as (d3 & Hd3 & ? & ? & ?). destruct (K3 x d3 Hd3) as (d2 & Hd2 & ? & ? & ?). cbn in Hd2. rewrite Hm2 in Hd2.
    apply fmap_Some in Hd2 as (dx & Hdx & ->). assert (x <> dp) as Hx by (intros ->; congruence). cbn in Hdx. rewrite lookup_insert_ne in Hdx by congruence.
    destruct (detached_fields dp u x dx) as (_ & F1 & F2 & F3 & _). rewrite decide_False in F3 by done. exists dx. repeat split; congruence.
Qed.

Lemma put_run : forall fuel, put_spec (dentry_put_rec fuel) fuel.
Proof.
  induction fuel as [|fuel IH]; intros E freed H c dp I Hh Hf; [lia|]. cbn [dentry_put_rec].
  destruct (proj2 (n_held _ _ (v_count _ _ _ _ I) dp) ltac:(lia)) as [d Hd]. rewrite (bind_run _ _ _ d c) by by apply load_run.
  rewrite (bind_run _ _ _ tt _ (change_run c dp d _ Hd)). destruct (inv_drop _ _ _ _ _ _ I Hd Hh) as (I1 & I2 & _).
  pose proof (kept_ref c dp d (d_ref d - 1) (lru_list c) (lru_size c) Hd) as K1. destruct (d_ref d =? 1) eqn:E1; zbool; cbn [negb].
  2:{ eexists. split; [reflexivity|]. split; [by apply I1|]. split; [exact K1|cbn; lia]. }
  specialize (I2 E1). rewrite E1 in *. change (1 - 1) with 0 in *. set (c1 := set_dentries (<[dp := set_ref 0 d]> (dentries c)) c) in *.
  rewrite (bind_run _ _ _ c1 c1) by done. cbn [unlinked_root set_dentries c1]. case_decide as Eu; [by apply (put_unlinked_run _ fuel); [..|lia]|].
  destruct (d_parent d) as [p|] eqn:Ep.
  - destruct (move_run (dentry_put_rec fuel) fuel IH E freed H c dp d I Hd Hh E1) as (c' & Hrun & I' & K' & Hlru); [by rewrite Ep|by rewrite Ep|lia|].
    exists c'. split; [done|]. split; [done|]. split; [done|lia].
  - destruct (free_run E freed (plus dp (-1) H) c1 dp (set_ref 0 d) (I2 eq_refl) ltac:(apply lookup_insert_eq)) as (c2 & Hrun & I3 & K2 & _ & Hlru).
    exists c2. split; [done|]. split; [done|]. split; [by apply (kept_trans _ c1)|]. cbn in Hlru. lia.
Qed.

Lemma dentry_put_spec k : put_spec dentry_put k.
Proof.
  intros E freed H c dp I Hh _. unfold dentry_put. rewrite (bind_run _ _ _ c c) by done. pose proof (in_tree_size (dentries c)).
  by apply put_run; [..|lia].
Qed.

(** ** Path elements *)

(** The parts of a path between its slashes. *)
Fixpoint split_slash (path : list Z) : list (list Z) :=
  match path with
  | [] => [[]]
  | c :: path =>
      if c =? 47 then [] :: split_slash path
      else match split_slash path with [] => [[c]] | s :: l => (c :: s) :: l end
  end.

(** Empty parts do not count, and neither does a [.] that a slash follows. *)
Fixpoint clean (l : list (list Z)) : list (list Z) :=
  match l with
  | [] => []
  | [s] => if decide (s = []) then [] else [s]
  | s :: l => if decide (s = [] \/ s = [46]) then clean l else s :: clean l
  end.

(** The elements of a path; [None] for one that is too long. *)
Definition elements (path : list Z) : list (option (list Z)) :=
  (fun s => if NAME_MAX <? Z.of_nat (length s) then None else Some s) <$> clean (split_slash path).

Lemma split_slash_ne path : split_slash path <> [].
Proof. destruct path as [|c path]; cbn; [done|]. zcase; [done|]. by destruct (split_slash path). Qed.

Lemma clean_skip s l : l <> [] -> s = [] \/ s = [46] -> clean (s :: l) = clean l.
Proof. intros Hl Hs. destruct l as [|x l]; [done|]. cbn [clean]. by rewrite decide_True. Qed.

Lemma clean_slash path : clean (split_slash (47 :: path)) = clean (split_slash path).
Proof. cbn [split_slash]. change (47 =? 47) with true. cbv iota. apply clean_skip; [apply split_slash_ne|by left]. Qed.

Lemma clean_dot path : clean (split_slash (46 :: 47 :: path)) = clean (split_slash path).
Proof. change (split_slash (46 :: 47 :: path)) with ([46] :: split_slash path). apply clean_skip; [apply split_slash_ne|by right]. Qed.

Lemma split_name_parts path : let '(name, rest) := split_name path in
  (length name + length rest = length path)%nat /\ (47 ∉ name) /\ (rest = [] \/ exists r, rest = 47 :: r) /\
  split_slash path = name :: match rest with [] => [] | _ :: r => split_slash r end.
Proof.
  induction path as [|c path IH]; cbn [split_name split_slash].
  { split; [done|]. split; [apply not_elem_of_nil|]. split; [by left|done]. }
  destruct (c =? 47) eqn:E; zbool.
  - subst. split; [done|]. split; [apply not_elem_of_nil|]. split; [right; by exists path|done].
  - destruct (split_name path) as [name rest]. destruct IH as (Hl & Hn & Hr & Hs). cbn [length]. split; [lia|]. split; [rewrite not_elem_of_cons; split; [congruence|done]|].
    split; [done|]. by rewrite Hs.
Qed.

Lemma skip_end_run path : clean (split_slash (skip_end path)) = clean (split_slash path) /\ (length (skip_end path) <= length path)%nat.
Proof.
  induction path as [|c path [IH1 IH2]]; [done|]. destruct (decide (c = 47)) as [->|Hc].
  - rewrite clean_slash. cbn [skip_end length]. split; [done|lia].
  - assert (skip_end (c :: path) = c :: path) as ->; [|done]. cbn [skip_end]. repeat case_match; congruence.
Qed.

Lemma skip_slashes_run : forall n path, (length path < n)%nat ->
  clean (split_slash (skip_slashes path)) = clean (split_slash path) /\ (length (skip_slashes path) <= length path)%nat /\
  match skip_slashes path with 47 :: _ => False | 46 :: 47 :: _ => False | _ => True end.
Proof.
  induction n as [|n IH]; intros path Hn; [lia|]. destruct path as [|c path]; [done|].
  destruct (decide (c = 47)) as [->|Hc].
  { rewrite clean_slash. cbn [skip_slashes length] in *. destruct (IH path) as (H1 & H2 & H3); [lia|]. split; [done|]. split; [lia|done]. }
  destruct (decide (c = 46)) as [->|Hc'].
  - destruct path as [|c2 path]; [done|]. destruct (decide (c2 = 47)) as [->|Hc2].
    + rewrite clean_dot. cbn [skip_slashes length] in *. destruct (IH path) as (H1 & H2 & H3); [lia|]. split; [done|]. split; [lia|done].
    + assert (skip_slashes (46 :: c2 :: path) = 46 :: c2 :: path) as -> by (cbn [skip_slashes]; repeat case_match; congruence).
      split; [done|]. split; [done|]. repeat case_match; done || congruence.
  - assert (skip_slashes (c :: path) = c :: path) as -> by (cbn [skip_slashes]; repeat case_match; congruence).
    split; [done|]. split; [done|]. repeat case_match; done || congruence.
Qed.

Lemma skipelem_run path :
  match skipelem path with
  | None => elements path = []
  | Some (None, _) => exists es, elements path = None :: es
  | Some (Some name, rest) => elements path = Some name :: elements rest /\ (length rest < length path)%nat
  end.
Proof.
  unfold skipelem, elements. destruct (skip_slashes_run (S (length path)) path ltac:(lia)) as (<- & Hlen & Hhead).
  destruct (skip_slashes path) as [|c p] eqn:Ep; [done|].
  pose proof (split_name_parts (c :: p)) as Hparts. destruct (split_name (c :: p)) as [name rest] eqn:En. destruct Hparts as (Hl & Hn & Hr & ->).
  assert (name <> []) as Hname.
  { intros ->. cbn [split_name] in En. destruct (c =? 47) eqn:E; zbool; [by subst|]. destruct (split_name p). done. }
  assert (clean (name :: match rest with [] => [] | _ :: r => split_slash r end) = name :: clean (split_slash (skip_end rest))) as ->.
  { destruct Hr as [->|[r ->]]; [cbn; by rewrite decide_False|].
    rewrite (proj1 (skip_end_run (47 :: r))), clean_slash. destruct (split_slash r) as [|s l] eqn:Er; [by destruct (split_slash_ne r)|].
    cbn [clean]. rewrite decide_False; [done|]. intros [?|E]; [done|]. subst name. cbn [split_name] in En. destruct (c =? 47); [done|].
    destruct (split_name p) as [n' r'] eqn:Ep'. injection En as -> -> ->. destruct p as [|c2 p]; [done|]. cbn [split_name] in Ep'.
    destruct (c2 =? 47) eqn:E2; zbool; [by subst|]. by destruct (split_name p). }
  cbn [fmap list_fmap]. destruct (NAME_MAX <? Z.of_nat (length name)) eqn:E; zbool; [by eexists|]. split; [done|].
  pose proof (proj2 (skip_end_run rest)). assert (length name <> 0)%nat by (by destruct name). lia.
Qed.

(** ** Looking up in the cache *)

Lemma lookup_children_run E H c p name : cache_inv E [] H c -> forall l,
  (forall ch, ch ∈ l -> exists dch, dentries c !! ch = Some dch /\ d_parent dch = Some p) ->
  exists r c', lookup_children l name c = Ret (r, c') /\
    match r with
    | None => c' = c /\ forall ch dch, ch ∈ l -> dentries c !! ch = Some dch -> d_name dch <> name
    | Some ch => exists dch, dentries c !! ch = Some dch /\ d_parent dch = Some p /\ d_name dch = name /\ cache_inv E [] (plus ch 1 H) c' /\ kept c c' /\ lru_size c' <= lru_size c
    end.
Proof.
  intros I. induction l as [|ch l IH]; intros Hl; cbn [lookup_children].
  { exists None, c. split; [done|]. split; [done|]. intros ch dch Hch. by apply elem_of_nil in Hch. }
  destruct (Hl ch ltac:(left)) as (dch & Hch & Hp). rewrite (bind_run _ _ _ dch c) by by apply load_run. case_decide as En.
  - destruct (get_run E [] H c ch dch I Hch ltac:(apply not_elem_of_nil)) as (c' & Hrun & I' & K & Hlru). exists (Some ch), c'. rewrite (bind_run _ _ _ tt c') by done.
    split; [done|]. exists dch. done.
  - destruct (IH ltac:(intros x Hx; apply Hl; by right)) as (r & c' & Hrun & Hr). exists r, c'. split; [done|]. destruct r as [x|]; [done|]. destruct Hr as [-> Hr]. split; [done|].
    intros x dx Hx Hdx. apply elem_of_cons in Hx as [->|Hx]; [congruence|]. by apply (Hr x).
Qed.

Lemma children_lookup_run E H c p d name : cache_inv E [] H c -> dentries c !! p = Some d ->
  exists r c', dentry_cache_lookup_tree_locked p name c = Ret (r, c') /\
    match r with
    | None => c' = c /\ forall ch dch, dentries c !! ch = Some dch -> d_parent dch = Some p -> d_name dch <> name
    | Some ch => exists dch, dentries c !! ch = Some dch /\ d_parent dch = Some p /\ d_name dch = name /\ cache_inv E [] (plus ch 1 H) c' /\ kept c c' /\ lru_size c' <= lru_size c
    end.
Proof.
  intros I Hd. destruct (lookup_children_run E H c p name I (d_child_list d)) as (r & c' & Hrun & Hr).
  { intros ch Hch. by apply (t_child _ _ _ (v_tree _ _ _ _ I) p d). }
  exists r, c'. split; [unfold dentry_cache_lookup_tree_locked; by rewrite (bind_run _ _ _ d c) by by apply load_run|].
  destruct r as [ch|]; [done|]. destruct Hr as [-> Hr]. split; [done|]. intros ch dch Hch Hp.
  destruct (t_parent _ _ _ (v_tree _ _ _ _ I) ch dch p Hch Hp) as (d' & Hd' & Hin). rewrite Hd in Hd'. injection Hd' as <-. by apply (Hr ch).
Qed.

(** Entering a dentry in the tree. *)
Lemma register_run E H c p ch dch : cache_inv E [] H c -> dentries c !! ch = Some dch -> d_parent dch = None -> 1 <= H ch -> ch <> root c -> ch <> unlinked_root c ->
  is_Some (dentries c !! p) -> ch <> p -> (p <> unlinked_root c -> forall y dy, dentries c !! y = Some dy -> d_parent dy = Some p -> d_name dy <> d_name dch) ->
  exists c', dentry_register_with_parent p ch c = Ret (tt, c') /\ cache_inv E [] H c' /\
    root c' = root c /\ unlinked_root c' = unlinked_root c /\ max_lru_size c' = max_lru_size c /\ next_dentry c' = next_dentry c /\ lru_size c' <= lru_size c /\
    forall x d', dentries c' !! x = Some d' -> exists d, dentries c !! x = Some d /\ d_ip d' = d_ip d /\ d_name d' = d_name d /\
      d_parent d' = if decide (x = ch) then Some p else d_parent d.
Proof.
  intros I Hch Hp Hh Hr Hu [d_p Hdp] Hne Hfresh. unfold dentry_register_with_parent.
  destruct (get_run E [] H c p d_p I Hdp ltac:(apply not_elem_of_nil)) as (c1 & Hrun1 & I1 & K1 & Hlru1). rewrite (bind_run _ _ _ tt c1) by done.
  destruct (proj2 (n_held _ _ (v_count _ _ _ _ I1) ch)) as [dch1 Hch1]. { unfold plus. rewrite decide_False by done. lia. }
  destruct (proj2 (n_held _ _ (v_count _ _ _ _ I1) p)) as [dp1 Hdp1]. { unfold plus. rewrite decide_True by done. pose proof (n_held _ _ (v_count _ _ _ _ I) p). lia. }
  destruct (k_dentry _ _ K1 ch dch1 Hch1) as (d0 & Hd0 & E1 & E2 & E3). rewrite Hch in Hd0. injection Hd0 as <-.
  destruct (k_roots _ _ K1) as (R1 & R2 & R3 & R4). destruct (ref_pos _ _ _ _ _ _ I1 Hch1) as (_ & Hpos & _). unfold plus in Hpos. rewrite decide_False in Hpos by done.
  set (m' := <[p := set_children (ch :: d_child_list dp1) dp1]> (<[ch := set_parent (Some p) dch1]> (dentries c1))).
  assert (forall x, m' !! x = attached ch p x <$> dentries c1 !! x) as Hm.
  { intros x. unfold m', attached. rewrite !lookup_insert. repeat case_decide; subst; try congruence; [by rewrite Hdp1|by rewrite Hch1|by destruct (dentries c1 !! x)]. }
  exists (set_dentries m' c1). split; [|split; [|repeat split; try done]].
  - erewrite bind_run by by apply change_run. rewrite (bind_run _ _ _ dp1 (set_dentries (<[ch := set_parent (Some p) dch1]> (dentries c1)) c1)).
    2:{ apply load_run. cbn. by rewrite lookup_insert_ne. }
    etrans; [apply (change_run _ p dp1); cbn; by rewrite lookup_insert_ne|reflexivity].
  - eapply inv_ext; [|apply (inv_attach E [] (plus p 1 H) c1 ch dch1 p m' I1 Hch1); try congruence; try lia].
    + intros x. unfold plus. repeat case_decide; lia.
    + unfold plus. rewrite decide_True by done. pose proof (n_held _ _ (v_count _ _ _ _ I) p). lia.
    + rewrite R2. intros Hpu y dy Hy Hpy. destruct (k_dentry _ _ K1 y dy Hy) as (d & Hd & _ & En & Ep). rewrite En, E2. apply (Hfresh Hpu y d Hd). congruence.
  - cbn. intros x d' Hx. rewrite Hm in Hx. apply fmap_Some in Hx as (d1 & Hd1 & ->). destruct (k_dentry _ _ K1 x d1 Hd1) as (d & Hd & F1 & F2 & F3).
    destruct (attached_fields ch p x d1) as (_ & G1 & G2 & G3 & _). exists d. split; [done|]. rewrite G1, G2, G3, F3. done.
Qed.

(** ** The cache and the file system *)

(** The names and inodes on the way from a dentry up to the root. *)
Inductive path_of (c : dentry_cache) : nat -> list (list Z * option Z) -> Prop :=
| path_root d : dentries c !! root c = Some d -> path_of c (root c) [(d_name d, d_ip d)]
| path_child ch d p l : dentries c !! ch = Some d -> d_parent d = Some p -> path_of c p l -> path_of c ch ((d_name d, d_ip d) :: l).

Lemma path_kept E freed H c c' ch l : kept c c' -> cache_inv E freed H c' -> path_of c ch l -> is_Some (dentries c' !! ch) -> path_of c' ch l.
Proof.
  intros K I Hl. destruct (k_roots _ _ K) as (Hr & _). induction Hl as [d Hd|ch d p l Hd Hp Hl IH]; intros [d' Hd'];
    destruct (k_dentry _ _ K _ _ Hd') as (d0 & Hd0 & E1 & E2 & E3); rewrite Hd in Hd0; injection Hd0 as <-; rewrite <- E1, <- E2.
  - rewrite <- Hr. apply path_root. by rewrite Hr.
  - apply (path_child c' ch d' p); [done|congruence|]. apply IH. destruct (t_parent _ _ _ (v_tree _ _ _ _ I) ch d' p Hd') as (d_p & Hdp & _); [congruence|by exists d_p].
Qed.

Lemma path_not_unlinked E freed H c l : cache_inv E freed H c -> ~ path_of c (unlinked_root c) l.
Proof.
  intros I Hl. destruct (t_roots _ _ _ (v_tree _ _ _ _ I)) as [Hne Hr]. inversion Hl as [d Hd Heq|ch d p l' Hd Hp]; subst; [congruence|].
  destruct (Hr (unlinked_root c)) as (d0 & Hd0 & Hn); [by right|]. congruence.
Qed.

Lemma path_ip c ch n ip l : path_of c ch ((n, ip) :: l) -> exists d, dentries c !! ch = Some d /\ d_ip d = ip /\ d_name d = n.
Proof. inversion 1; subst; eauto. Qed.

Lemma path_fun E freed H c x l l' : cache_inv E freed H c -> path_of c x l -> path_of c x l' -> l = l'.
Proof.
  intros I Hl. destruct (proj2 (t_roots _ _ _ (v_tree _ _ _ _ I)) (root c)) as (d0 & Hd0 & Hn); [by left|].
  revert l'. induction Hl as [d Hd|ch d p l Hd Hp Hl IH]; intros l' Hl'; inversion Hl' as [d1 Hd1|ch1 d1 p1 l1 Hd1 Hp1 Hl1]; subst; try congruence.
  replace d1 with d in * by congruence. replace p1 with p in * by congruence. by rewrite (IH l1).
Qed.

Section Transparent.
Context (fs_lookup : Z -> list Z -> option Z) (attr : Z -> inode_attr) (cr : cred).

(** A dentry in a directory has the inode that the file system has for its name; only
    dentries with an inode have others below them. *)
Definition coherent (c : dentry_cache) : Prop :=
  forall ch d p d_p, dentries c !! ch = Some d -> d_parent d = Some p -> p <> unlinked_root c -> dentries c !! p = Some d_p ->
    exists ip, d_ip d_p = Some ip /\ d_ip d = fs_lookup ip (d_name d).

(** The invariant with the references [M] of one process; other processes have [O]. *)
Definition good (E : Z -> Z) (M : nat -> Z) (c : dentry_cache) : Prop :=
  coherent c /\ (forall x, 0 <= M x) /\ exists O, (forall x, 0 <= O x) /\ cache_inv E [] (fun x => O x + M x) c.

(** What does not change for the dentries to which a process has references. *)
Record stable (M : nat -> Z) (c c' : dentry_cache) : Prop := {
  s_roots : root c' = root c /\ unlinked_root c' = unlinked_root c;
  s_dentry x d : 0 < M x -> dentries c !! x = Some d ->
    exists d', dentries c' !! x = Some d' /\ d_ip d' = d_ip d /\ d_name d' = d_name d /\ d_parent d' = d_parent d;
  s_path x l : 0 < M x -> path_of c x l -> path_of c' x l
}.

Lemma stable_refl M c : stable M c c.
Proof. split; [done| |done]. intros x d _ Hd. by exists d. Qed.

Lemma stable_trans M M' c1 c2 c3 : (forall x, 0 < M x -> 0 < M' x) -> stable M c1 c2 -> stable M' c2 c3 -> stable M c1 c3.
Proof.
  intros HM [[R1 R2] D P] [[R1' R2'] D' P']. split; [split; congruence| |intros x l Hx Hl; apply P'; [by apply HM|by apply P]].
  intros x d Hx Hd. destruct (D x d Hx Hd) as (d2 & Hd2 & ? & ? & ?). destruct (D' x d2 (HM x Hx) Hd2) as (d3 & Hd3 & ? & ? & ?). exists d3. repeat split; congruence.
Qed.

Lemma good_held E M c x : good E M c -> 0 < M x -> is_Some (dentries c !! x).
Proof. intros (_ & _ & O & HO & I) Hx. apply (n_held _ _ (v_count _ _ _ _ I)). specialize (HO x). lia. Qed.

Lemma coherent_kept E freed H c c' : kept c c' -> cache_inv E freed H c' -> coherent c -> coherent c'.
Proof.
  intros K I C ch d p d_p Hd Hp Hu Hdp. destruct (k_roots _ _ K) as (_ & Hu' & _). destruct (k_dentry _ _ K _ _ Hd) as (d0 & Hd0 & E1 & E2 & E3).
  destruct (k_dentry _ _ K _ _ Hdp) as (p0 & Hp0 & F1 & _). rewrite E1, E2, F1. apply (C ch d0 p p0); congruence.
Qed.

(** An operation that keeps the dentries and leaves the process with [M']. *)
Lemma good_kept E M M' O c c' : kept c c' -> coherent c -> (forall x, 0 <= O x) -> (forall x, 0 <= M' x) -> cache_inv E [] (fun x => O x + M' x) c' ->
  good E M' c' /\ ((forall x, 0 < M x -> 0 < M' x) -> stable M c c').
Proof.
  intros K C HO HM' I. split; [split; [by eapply coherent_kept|]; split; [done|by exists O]|]. intros HM.
  assert (forall x, 0 < M x -> is_Some (dentries c' !! x)) as Hh. { intros x Hx. apply (n_held _ _ (v_count _ _ _ _ I)). specialize (HO x). specialize (HM x Hx). lia. }
  destruct (k_roots _ _ K) as (R1 & R2 & _). split; [done| |].
  - intros x d Hx Hd. destruct (Hh x Hx) as [d' Hd']. destruct (k_dentry _ _ K _ _ Hd') as (d0 & Hd0 & ? & ? & ?). rewrite Hd in Hd0. injection Hd0 as <-. by exists d'.
  - intros x l Hx Hl. by apply (path_kept E [] (fun x => O x + M' x) c c' x l K I Hl), Hh.
Qed.

Lemma good_put E M c dp : good E M c -> 1 <= M dp ->
  exists c', dentry_put dp c = Ret (tt, c') /\ good E (plus dp (-1) M) c' /\ stable (plus dp (-1) M) c c'.
Proof.
  intros (C & HM & O & HO & I) Hdp. specialize (HO dp) as HOdp.
  destruct (dentry_put_spec (S (size (in_tree (dentries c)))) E [] _ c dp I) as (c' & Hrun & I' & K & _); [cbn; lia|lia|]. exists c'. split; [done|].
  destruct (good_kept E (plus dp (-1) M) (plus dp (-1) M) O c c' K C HO) as [G S].
  - intros x. unfold plus. specialize (HM x). case_decide; [subst|]; lia.
  - eapply inv_ext; [|exact I']. intros x. unfold plus. case_decide; lia.
  - split; [done|]. by apply S.
Qed.

Lemma good_get E M c dp : good E M c -> is_Some (dentries c !! dp) ->
  exists c', dentry_get dp c = Ret (tt, c') /\ good E (plus dp 1 M) c' /\ stable M c c' /\ (forall l, path_of c dp l -> path_of c' dp l).
Proof.
  intros (C & HM & O & HO & I) [d Hd]. destruct (get_run E [] _ c dp d I Hd ltac:(apply not_elem_of_nil)) as (c' & Hrun & I' & K & _). exists c'. split; [done|].
  assert (cache_inv E [] (fun x => O x + plus dp 1 M x) c') as I2 by (eapply inv_ext; [|exact I']; intros x; unfold plus; case_decide; lia).
  destruct (good_kept E M (plus dp 1 M) O c c' K C HO) as [G S]; [intros x; unfold plus; specialize (HM x); case_decide; lia|done|].
  split; [done|]. split; [apply S; intros x; unfold plus; case_decide; lia|]. intros l Hl. apply (path_kept E [] _ c c' dp l K I2 Hl).
  apply (good_held E (plus dp 1 M) c' dp G). unfold plus. rewrite decide_True by done. specialize (HM dp). lia.
Qed.
(** A new dentry for [name]. *)
Lemma good_alloc E M c name : good E M c ->
  exists c', dentry_alloc_init_orphan name None c = Ret (next_dentry c, c') /\ good E (plus (next_dentry c) 1 M) c' /\ stable M c c' /\
    M (next_dentry c) = 0 /\ dentries c' !! next_dentry c = Some (mk_dentry 1 None name None []).
Proof.
  intros (C & HM & O & HO & I). set (new := next_dentry c).
  assert (dentries c !! new = None) as Hnew.
  { destruct (dentries c !! new) as [d|] eqn:Hd; [|done]. pose proof (v_fresh _ _ _ _ I new ltac:(by exists d)). unfold new in *. lia. }
  assert (M new = 0). { specialize (HM new). specialize (HO new). destruct (n_held _ _ (v_count _ _ _ _ I) new) as [_ Hh]. destruct (decide (M new = 0)) as [|Hn]; [done|].
    destruct Hh as [d Hd]; [lia|congruence]. }
  set (c' := mk_cache (<[new := mk_dentry 1 None name None []]> (dentries c)) (S new) (root c) (unlinked_root c) (lru_list c) (lru_size c) (max_lru_size c) (inode_refs c)).
  assert (cache_inv E [] (fun x => O x + plus new 1 M x) c') as I'.
  { eapply inv_ext; [|exact (cache_inv_alloc E [] _ c name I)]. intros x. unfold plus. fold new. case_decide; lia. }
  assert (forall x l, path_of c x l -> path_of c' x l) as Hpath.
  { intros x l Hl. induction Hl as [d Hd|ch d p l Hd Hp Hl IH]; [apply (path_root c')|apply (path_child c' ch d p); [|done|done]]; cbn; by rewrite lookup_insert_ne by congruence. }
  exists c'. split; [|split; [|split; [|split; [done|by apply lookup_insert_eq]]]].
  - unfold dentry_alloc_init_orphan. fold new. rewrite (bind_run _ _ _ c c) by done. rewrite (bind_run _ _ _ tt c') by done.
    assert (modify (add_inode_ref None 1) c' = Ret (tt, c')) as Hm by done. by rewrite (bind_run _ _ _ tt c' Hm).
  - split; [|split; [intros x; unfold plus; specialize (HM x); case_decide; lia|by exists O]].
    intros ch d p d_p Hd Hp Hu Hdp. cbn in *. apply lookup_insert_Some in Hd as [[<- <-]|[_ Hd]]; [done|]. apply lookup_insert_Some in Hdp as [[<- _]|[_ Hdp]]; [|by apply (C ch d p d_p)].
    destruct (t_parent _ _ _ (v_tree _ _ _ _ I) ch d new Hd Hp) as (d0 & Hd0 & _). congruence.
  - split; [done| |intros x l _; apply Hpath]. intros x d _ Hd. exists d. cbn. by rewrite lookup_insert_ne by congruence.
Qed.

(** The inode of a dentry that is not in the tree yet. *)
Lemma good_set_ip E M c dp d ip : good E M c -> dentries c !! dp = Some d -> d_ip d = None -> d_parent d = None -> d_child_list d = [] -> dp <> root c ->
  let c' := set_dentries (<[dp := set_ip ip d]> (dentries c)) (add_inode_ref ip 1 c) in
  good E M c' /\ stable (plus dp (- M dp) M) c c'.
Proof.
  intros (C & HM & O & HO & I) Hd Hip Hp Hch Hr c'. pose proof (inv_set_ip E [] _ c dp d ip I Hd Hip) as I'. fold c' in I'.
  assert (forall x dx, dentries c !! x = Some dx -> d_parent dx <> Some dp) as Hnochild.
  { intros x dx Hx Hpx. destruct (t_parent _ _ _ (v_tree _ _ _ _ I) x dx dp Hx Hpx) as (d0 & Hd0 & Hin). rewrite Hd in Hd0. injection Hd0 as <-. rewrite Hch in Hin. by apply elem_of_nil in Hin. }
  split; [split; [|split; [done|by exists O]]|].
  - intros ch dch p d_p Hdch Hpch Hu Hdp. cbn in *. apply lookup_insert_Some in Hdch as [[<- <-]|[_ Hdch]]; [cbn in Hpch; congruence|].
    apply lookup_insert_Some in Hdp as [[<- <-]|[_ Hdp]]; [by destruct (Hnochild ch dch)|]. by apply (C ch dch p d_p).
  - split; [done| |].
    + intros x dx Hx Hdx. cbn. destruct (decide (x = dp)) as [->|Hne]; [unfold plus in Hx; rewrite decide_True in Hx by done; lia|]. exists dx. by rewrite lookup_insert_ne.
    + intros x l Hx Hl. assert (x <> dp) as Hne. { intros ->. unfold plus in Hx. rewrite decide_True in Hx by done. lia. } clear Hx.
      induction Hl as [d0 Hd0|ch d0 p l Hd0 Hp0 Hl IH]; [apply (path_root c')|apply (path_child c' ch d0 p); [|done|apply IH; intros ->; by destruct (Hnochild ch d0)]];
        cbn; by rewrite lookup_insert_ne by congruence.
Qed.

(** Entering a dentry that has the inode of its name. *)
Lemma good_register E M c p n l ch dch ip : good E M c -> dentries c !! ch = Some dch -> d_parent dch = None -> d_child_list dch = [] -> 1 <= M ch ->
  ch <> root c -> ch <> unlinked_root c -> 1 <= M p -> ch <> p -> path_of c p ((n, Some ip) :: l) -> d_ip dch = fs_lookup ip (d_name dch) ->
  (forall y dy, dentries c !! y = Some dy -> d_parent dy = Some p -> d_name dy <> d_name dch) ->
  exists c', dentry_register_with_parent p ch c = Ret (tt, c') /\ good E M c' /\ stable (plus ch (- M ch) M) c c' /\
    path_of c' ch ((d_name dch, fs_lookup ip (d_name dch)) :: (n, Some ip) :: l).
Proof.
  intros (C & HM & O & HO & I) Hch Hp Hnil Hh Hr Hu HMp Hne Hpath Hip Hfresh. assert (good E M c) as G by (split; [done|]; split; [done|by exists O]).
  pose proof (HO ch). pose proof (HO p).
  destruct (register_run E _ c p ch dch I Hch Hp ltac:(cbn; lia) Hr Hu (good_held E M c p G ltac:(lia)) Hne ltac:(intros _; exact Hfresh)) as (c' & Hrun & I' & R1 & R2 & R3 & R4 & _ & D).
  assert (p <> unlinked_root c) as Hpu by (intros ->; by destruct (path_not_unlinked _ _ _ _ _ I Hpath)).
  assert (forall x dx, dentries c !! x = Some dx -> d_parent dx <> Some ch) as Hnochild.
  { intros x dx Hx Hpx. destruct (t_parent _ _ _ (v_tree _ _ _ _ I) x dx ch Hx Hpx) as (d0 & Hd0 & Hin). rewrite Hch in Hd0. injection Hd0 as <-. rewrite Hnil in Hin. by apply elem_of_nil in Hin. }
  assert (forall x l, x <> ch -> is_Some (dentries c' !! x) -> path_of c x l -> path_of c' x l) as Hpaths.
  { intros x l0 Hx Hs Hl. induction Hl as [d Hd|y d q l0 Hd Hq Hl IH]; destruct Hs as [d' Hd']; destruct (D _ _ Hd') as (d0 & Hd0 & E1 & E2 & E3);
      rewrite Hd in Hd0; injection Hd0 as <-; rewrite decide_False in E3 by done; rewrite <- E1, <- E2.
    - rewrite <- R1 in *. by apply path_root.
    - rewrite Hq in E3. apply (path_child c' y d' q); [done|done|]. apply IH; [intros ->; by destruct (Hnochild y d)|].
      destruct (t_parent _ _ _ (v_tree _ _ _ _ I') y d' q Hd' E3) as (d_q & Hdq & _). by exists d_q. }
  assert (good E M c') as G'.
  { split; [|split; [done|by exists O]]. intros y dy q dq Hy Hq Hqu Hdq. rewrite R2 in Hqu. destruct (D _ _ Hy) as (d0 & Hd0 & E1 & E2 & E3). destruct (D _ _ Hdq) as (q0 & Hq0 & F1 & _).
    rewrite E1, E2, F1. case_decide as Ey; [|apply (C y d0 q q0); congruence].
    subst y. rewrite Hch in Hd0. injection Hd0 as <-. rewrite Hq in E3. injection E3 as ->. exists ip. split; [|done].
    destruct (path_ip _ _ _ _ _ Hpath) as (d1 & Hd1 & <- & _). congruence. }
  exists c'. split; [done|]. split; [done|]. split.
  - split; [done| |].
    + intros x d Hx Hd. assert (x <> ch) as Hxc by (intros ->; unfold plus in Hx; rewrite decide_True in Hx by done; lia). unfold plus in Hx. rewrite decide_False in Hx by done.
      destruct (good_held _ _ _ _ G' Hx) as [d' Hd']. destruct (D _ _ Hd') as (d0 & Hd0 & E1 & E2 & E3). rewrite Hd in Hd0. injection Hd0 as <-. rewrite decide_False in E3 by done. by exists d'.
    + intros x l0 Hx. assert (x <> ch) as Hxc by (intros ->; unfold plus in Hx; rewrite decide_True in Hx by done; lia). unfold plus in Hx. rewrite decide_False in Hx by done.
      apply Hpaths; [done|]. by apply (good_held _ _ _ _ G').
  - destruct (good_held _ _ _ ch G' ltac:(lia)) as [d' Hd']. destruct (D _ _ Hd') as (d0 & Hd0 & E1 & E2 & E3). rewrite Hch in Hd0. injection Hd0 as <-. rewrite decide_True in E3 by done.
    rewrite <- Hip, <- E1, <- E2. apply (path_child c' ch d' p); [done|done|]. apply Hpaths; [congruence|apply (good_held _ _ _ _ G'); lia|done].
Qed.
Lemma good_ext E M M' c : (forall x, M' x = M x) -> good E M c -> good E M' c.
Proof.
  intros HM (C & H0 & O & HO & I). split; [done|]. split; [intros x; by rewrite HM|]. exists O. split; [done|]. eapply inv_ext; [|exact I]. intros x. cbn. by rewrite HM.
Qed.

Lemma good_lookup E M c dp n ip l name : good E M c -> path_of c dp ((n, Some ip) :: l) ->
  exists r c', dentry_cache_lookup_tree_locked dp name c = Ret (r, c') /\
    match r with
    | None => c' = c /\ forall ch dch, dentries c !! ch = Some dch -> d_parent dch = Some dp -> d_name dch <> name
    | Some ch => good E (plus ch 1 M) c' /\ stable M c c' /\ path_of c' ch ((name, fs_lookup ip name) :: (n, Some ip) :: l)
    end.
Proof.
  intros (C & HM & O & HO & I) Hpath. destruct (path_ip _ _ _ _ _ Hpath) as (d & Hd & Hip & _).
  destruct (children_lookup_run E _ c dp d name I Hd) as (r & c' & Hrun & Hr). exists r, c'. split; [done|]. destruct r as [ch|]; [|done].
  destruct Hr as (dch & Hch & Hp & Hn & I' & K & _).
  assert (cache_inv E [] (fun x => O x + plus ch 1 M x) c') as I2 by (eapply inv_ext; [|exact I']; intros x; unfold plus; case_decide; lia).
  destruct (good_kept E M (plus ch 1 M) O c c' K C HO) as [G S]; [intros x; unfold plus; specialize (HM x); case_decide; lia|done|].
  split; [done|]. split; [apply S; intros x; unfold plus; case_decide; lia|].
  apply (path_kept E [] _ c c' ch _ K I2); [|apply (good_held E (plus ch 1 M) c' ch G); unfold plus; rewrite decide_True by done; specialize (HM ch); lia].
  destruct (C ch dch dp d Hch Hp) as (ip' & Hip' & Hl); [|done|].
  - intros ->. by destruct (path_not_unlinked _ _ _ _ _ I Hpath).
  - rewrite Hip in Hip'. injection Hip' as <-. rewrite <- Hn, <- Hl. by apply (path_child c ch dch dp).
Qed.

Context (others : dentry_cache -> dentry_cache).
Context (Hothers : forall E M c, good E M c -> good E M (others c) /\ stable M c (others c)).

Lemma lookup_element_run E M c dp n ip l name : good E M c -> 1 <= M dp -> path_of c dp ((n, Some ip) :: l) ->
  exists next c', lookup_element fs_lookup others dp ip name c = Ret (next, c') /\ good E (plus next 1 M) c' /\ stable M c c' /\
    path_of c' next ((name, fs_lookup ip name) :: (n, Some ip) :: l).
Proof using Hothers.
  intros G HM Hpath. unfold lookup_element. destruct (good_lookup E M c dp n ip l name G Hpath) as (r & c0 & Hrun0 & Hr). rewrite (bind_run _ _ _ _ _ Hrun0).
  destruct r as [ch|]; [by exists ch, c0|]. destruct Hr as [-> _].
  destruct (good_alloc E M c name G) as (c1 & Hrun1 & G1 & S1 & HMnew & Hnew1). set (new := next_dentry c) in *. set (M1 := plus new 1 M) in *. rewrite (bind_run _ _ _ _ _ Hrun1).
  assert (forall x, 0 < M x -> 0 < M1 x /\ x <> new) as HM1. { intros x Hx. unfold M1, plus. case_decide; [subst; lia|]. split; [lia|done]. }
  destruct (Hothers E M1 c1 G1) as [G2 S2]. rewrite (bind_run _ _ _ tt (others c1)) by done. set (c2 := others c1) in *.
  destruct (s_dentry _ _ _ S2 new _ ltac:(unfold M1, plus; rewrite decide_True by done; lia) Hnew1) as (d2 & Hd2 & Eip & En & Ep). cbn in Eip, En, Ep.
  assert (new <> root c2 /\ new <> unlinked_root c2) as [Hr2 Hu2].
  { destruct (s_roots _ _ _ S2) as [-> ->]. destruct (s_roots _ _ _ S1) as [-> ->]. destruct G as (_ & _ & O & _ & I). destruct (t_roots _ _ _ (v_tree _ _ _ _ I)) as [_ Hr].
    split; intros Hx; (destruct (Hr new) as (d0 & Hd0 & _); [auto|]); pose proof (v_fresh _ _ _ _ I new ltac:(by exists d0)); unfold new in *; lia. }
  assert (d_child_list d2 = []) as Hc2.
  { destruct (d_child_list d2) as [|y ys] eqn:Ec; [done|]. exfalso. destruct G2 as (C2 & _ & O & _ & I2).
    destruct (t_child _ _ _ (v_tree _ _ _ _ I2) new d2 y Hd2 ltac:(rewrite Ec; left)) as (dy & Hdy & Hpy). destruct (C2 y dy new d2 Hdy Hpy Hu2 Hd2) as (i & Hi & _). congruence. }
  destruct (good_set_ip E M1 c2 new d2 (fs_lookup ip name) G2 Hd2 Eip Ep Hc2 Hr2) as [G3 S3]. set (c3 := set_dentries _ _) in *.
  rewrite (bind_run _ _ _ tt (add_inode_ref (fs_lookup ip name) 1 c2)) by done. rewrite (bind_run _ _ _ tt c3).
  2:{ etrans; [by apply (change_run _ new d2)|reflexivity]. }
  assert (stable M c c3) as S.
  { apply (stable_trans M (plus new (- M1 new) M1) c c2); [| |done].
    - intros x Hx. destruct (HM1 x Hx) as [? ?]. unfold plus at 1. by rewrite decide_False.
    - apply (stable_trans M M1 c c1); [apply HM1|done|done]. }
  assert (path_of c3 dp ((n, Some ip) :: l)) as Hpath3 by (apply (s_path _ _ _ S); [lia|done]).
  assert (dentries c3 !! new = Some (set_ip (fs_lookup ip name) d2)) as Hnew3 by apply lookup_insert_eq.
  destruct (good_lookup E M1 c3 dp n ip l name G3 Hpath3) as (r & c4 & Hrun4 & Hr). rewrite (bind_run _ _ _ _ _ Hrun4). destruct r as [ch|].
  - destruct Hr as (G4 & S4 & Hpath4). destruct (good_put E (plus ch 1 M1) c4 new G4) as (c5 & Hrun5 & G5 & S5).
    { destruct G3 as (_ & H0 & _). specialize (H0 new). unfold M1, plus in *. repeat case_decide; lia. }
    rewrite (bind_run _ _ _ tt c5) by done. exists ch, c5. split; [done|]. split; [|split].
    + eapply good_ext; [|exact G5]. intros x. unfold M1, plus. repeat case_decide; lia.
    + apply (stable_trans M (plus new (-1) (plus ch 1 M1)) c c4); [|by apply (stable_trans M M1 c c3); [apply HM1|..]|done].
      intros x Hx. destruct (HM1 x Hx) as [? ?]. unfold plus at 1. rewrite decide_False by done. unfold plus. case_decide; lia.
    + apply (s_path _ _ _ S5); [|done]. destruct G3 as (_ & H0 & _). specialize (H0 ch). destruct G as (_ & H0' & _). specialize (H0' ch). unfold M1, plus in *. repeat case_decide; subst; lia.
  - destruct Hr as [-> Hfresh]. destruct (good_register E M1 c3 dp n l new _ ip G3 Hnew3) as (c5 & Hrun5 & G5 & S5 & Hpath5); try done.
    + unfold M1, plus. rewrite decide_True by done. lia.
    + unfold M1, plus. case_decide; lia.
    + intros ->. lia.
    + cbn. by rewrite En.
    + cbn. by rewrite En.
    + rewrite (bind_run _ _ _ tt c5) by done. exists new, c5. split; [done|]. split; [done|]. split; [|cbn in Hpath5; by rewrite En in Hpath5].
      apply (stable_trans M (plus new (- M1 new) M1) c c3); [|done|done]. intros x Hx. destruct (HM1 x Hx) as [? ?]. unfold plus at 1. by rewrite decide_False.
Qed.

(** ** Resolving a path *)

(** The walk over the elements of a path on the file system itself; [l] are the names and inodes
    from the current one up to the root. *)
Fixpoint walk (l : list (list Z * option Z)) (es : list (option (list Z))) : list (list Z * option Z) + Z :=
  match es with
  | [] => inl l
  | None :: _ => inr (- ENOENT)
  | Some name :: es =>
      match l with
      | (_, Some ip) :: up =>
          if negb (S_ISDIR (i_mode (attr ip))) then inr (- ENOTDIR)
          else if check_dentry_permission cr (Some (attr ip)) MAY_EXEC <? 0 then inr (- EACCES)
          else if decide (name = [46]) then walk l es
          else if decide (name = [46; 46]) then walk (match up with [] => l | _ => up end) es
          else walk ((name, fs_lookup ip name) :: l) es
      | _ => inr (- ENOENT)
      end
  end.

(** The names and inodes that [dentry_from_path] should find, or the error; [cwd] is [None] if the
    current directory was removed. *)
Definition resolve (root_ : list Z * option Z) (cwd : option (list (list Z * option Z))) (path : list Z) : list (list Z * option Z) + Z :=
  match path with
  | [] => inr (- EINVAL)
  | c :: _ =>
      if c =? 47 then walk [root_] (elements path)
      else match cwd with None => inr (- ENOENT) | Some l => walk l (elements path) end
  end.

(** The result of a lookup by a process that had references [M] before. *)
Definition found (E : Z -> Z) (M : nat -> Z) (c : dentry_cache) (o : list (list Z * option Z) + Z) (r : option nat * Z) (c' : dentry_cache) : Prop :=
  match o with
  | inl l => exists dp, r = (Some dp, 0) /\ good E (plus dp 1 M) c' /\ path_of c' dp l
  | inr err => r = (None, err) /\ good E M c'
  end /\ stable M c c'.

Lemma found_ext E M M' c o r c' : (forall x, M' x = M x) -> found E M c o r c' -> found E M' c o r c'.
Proof.
  intros HM [Ho [S1 S2 S3]]. split; [|split; [done| |]; intros x; rewrite HM; auto]. destruct o as [l|err].
  - destruct Ho as (dp & ? & ? & ?). exists dp. split; [done|]. split; [|done]. eapply good_ext; [|done]. intros x. unfold plus. by rewrite HM.
  - destruct Ho as [? ?]. split; [done|]. by eapply good_ext.
Qed.

Lemma path_error E M c c0 dp err : good E (plus dp 1 M) c -> (forall x, 0 <= M x) -> stable M c0 c ->
  exists c', (dentry_put dp;; mret (@None nat, err)) c = Ret ((None, err), c') /\ found E M c0 (inr err) (None, err) c'.
Proof.
  intros G HM S. destruct (good_put E (plus dp 1 M) c dp G) as (c' & Hrun & G' & S').
  { unfold plus. rewrite decide_True by done. specialize (HM dp). lia. }
  assert (forall x, M x = plus dp (-1) (plus dp 1 M) x) as Hx by (intros x; unfold plus; repeat case_decide; lia).
  exists c'. rewrite (bind_run _ _ _ tt c') by done. split; [done|]. split; [split; [done|by eapply good_ext]|].
  apply (stable_trans M (plus dp (-1) (plus dp 1 M)) c0 c); [|done|done]. intros x. by rewrite <- Hx.
Qed.
(** The next dentry on the way, with a reference. *)
Lemma next_run E M c dp d n ip up name : good E M c -> 1 <= M dp -> path_of c dp ((n, Some ip) :: up) -> dentries c !! dp = Some d ->
  exists next c', (if decide (name = [46]) then dentry_get dp;; mret dp
                   else if decide (name = [46; 46]) then
                     match d_parent d with
                     | None => dentry_get dp;; mret dp
                     | Some parent => dentry_get parent;; mret parent
                     end
                   else lookup_element fs_lookup others dp ip name) c = Ret (next, c') /\
    good E (plus next 1 M) c' /\ stable M c c' /\
    path_of c' next (if decide (name = [46]) then (n, Some ip) :: up
                     else if decide (name = [46; 46]) then match up with [] => (n, Some ip) :: up | _ => up end
                     else (name, fs_lookup ip name) :: (n, Some ip) :: up).
Proof using Hothers.
  intros G HM Hpath Hd.
  assert (forall x l, is_Some (dentries c !! x) -> path_of c x l ->
    exists next c', (dentry_get x;; mret x) c = Ret (next, c') /\ good E (plus next 1 M) c' /\ stable M c c' /\ path_of c' next l) as Hget.
  { intros x l Hx Hl. destruct (good_get E M c x G Hx) as (c' & Hrun & G' & S' & Hp). exists x, c'. rewrite (bind_run _ _ _ tt c') by done. split; [done|]. split; [done|]. split; [done|by apply Hp]. }
  case_decide; [apply Hget; [by exists d|done]|]. case_decide; [|by apply lookup_element_run].
  inversion Hpath as [d0 Hd0 Heq1 Heq2|ch d0 p l0 Hd0 Hp Hl Heq1 Heq2]; subst.
  - destruct G as (C & H0 & O & HO & I). destruct (proj2 (t_roots _ _ _ (v_tree _ _ _ _ I)) (root c)) as (d1 & Hd1 & Hn); [by left|]. rewrite Hd in Hd1. injection Hd1 as <-. rewrite Hn.
    apply Hget; [by exists d|by apply path_root].
  - rewrite Hd in Hd0. injection Hd0 as <-. rewrite Hp. destruct up as [|[nu u] up]; [by inversion Hl|]. apply Hget; [|done]. destruct (path_ip _ _ _ _ _ Hl) as (d1 & Hd1 & _). by exists d1.
Qed.

Lemma path_loop_run E M : (forall x, 0 <= M x) -> forall fuel path c0 c dp l, good E (plus dp 1 M) c -> stable M c0 c -> path_of c dp l -> (length path < fuel)%nat ->
  exists r c', path_loop fs_lookup attr cr others fuel dp path c = Ret (r, c') /\ found E M c0 (walk l (elements path)) r c'.
Proof using Hothers.
  intros HM. induction fuel as [|fuel IH]; intros path c0 c dp l G S Hpath Hf; [lia|]. cbn [path_loop].
  assert (forall err, exists r c', (dentry_put dp;; mret (@None nat, err)) c = Ret (r, c') /\ found E M c0 (inr err) r c') as Herr.
  { intros err. destruct (path_error E M c c0 dp err G HM S) as (c' & Hrun & Hfound). by exists (None, err), c'. }
  pose proof (skipelem_run path) as Hskip. destruct (skipelem path) as [[[name|] rest]|].
  - destruct Hskip as [-> Hrest]. destruct l as [|[n0 ip0] up]; [by inversion Hpath|]. destruct (path_ip _ _ _ _ _ Hpath) as (d & Hd & Hip & _). cbn [walk].
    rewrite (bind_run _ _ _ d c) by by apply load_run. rewrite Hip. destruct ip0 as [ip|]; [|apply Herr].
    destruct (negb (S_ISDIR (i_mode (attr ip)))); [apply Herr|]. destruct (check_dentry_permission cr (Some (attr ip)) MAY_EXEC <? 0); [apply Herr|].
    destruct (next_run E (plus dp 1 M) c dp d n0 ip up name G ltac:(unfold plus; rewrite decide_True by done; specialize (HM dp); lia) Hpath Hd) as (next & c1 & Hrun1 & G1 & S1 & Hpath1).
    rewrite (bind_run _ _ _ _ _ Hrun1). destruct (good_put E _ c1 dp G1) as (c2 & Hrun2 & G2 & S2).
    { unfold plus. specialize (HM dp). repeat case_decide; lia. }
    rewrite (bind_run _ _ _ tt c2) by done.
    assert (forall x, plus next 1 M x = plus dp (-1) (plus next 1 (plus dp 1 M)) x) as Hx by (intros x; unfold plus; repeat case_decide; lia).
    assert (forall x, 0 < M x -> 0 < plus dp 1 M x /\ 0 < plus next 1 M x) as Hmono by (intros x; unfold plus; repeat case_decide; lia).
    set (l' := if decide (name = [46]) then _ else _) in Hpath1.
    destruct (IH rest c0 c2 next l' (good_ext _ _ _ _ Hx G2)) as (r & c' & Hrun & Hfound).
    + apply (stable_trans M (plus next 1 M) c0 c1); [apply Hmono| |].
      * apply (stable_trans M (plus dp 1 M) c0 c); [apply Hmono|done|done].
      * destruct S2 as [R D P]. split; [done| |]; intros x; rewrite Hx; auto.
    + apply (s_path _ _ _ S2); [|done]. rewrite <- Hx. unfold plus. rewrite decide_True by done. specialize (HM next). lia.
    + lia.
    + exists r, c'. split; [done|]. unfold l' in Hfound. by repeat case_decide.
  - destruct Hskip as [es ->]. apply Herr.
  - rewrite Hskip. exists (Some dp, 0), c. split; [done|]. split; [|done]. by exists dp.
Qed.

(** The state of [dentry_from_path] at its start. *)
Definition cwd_ok (c : dentry_cache) (cwd : nat) (l : option (list (list Z * option Z))) : Prop :=
  match l with
  | Some l => path_of c cwd l
  | None => exists d, dentries c !! cwd = Some d /\ d_parent d = Some (unlinked_root c)
  end.

Lemma from_root_run E M c cwd d path : good E M c -> dentries c !! root c = Some d ->
  exists r c', dentry_from_path fs_lookup attr cr others cwd (47 :: path) c = Ret (r, c') /\ found E M c (walk [(d_name d, d_ip d)] (elements (47 :: path))) r c'.
Proof using Hothers.
  intros G Hd. pose proof G as (_ & HM & _). unfold dentry_from_path. cbn [Z.eqb Pos.eqb].
  destruct (good_get E M c (root c) G ltac:(by exists d)) as (c1 & Hrun & G1 & S1 & Hp1). rewrite (bind_run _ _ _ (root c) c1).
  2:{ unfold dentry_cache_get_root. rewrite (bind_run _ _ _ c c) by done. by rewrite (bind_run _ _ _ tt c1). }
  apply path_loop_run; [done|done|done|by apply Hp1, path_root|lia].
Qed.

Lemma from_path_run E M c cwd l d path : good E M c -> 0 < M cwd -> cwd_ok c cwd l -> dentries c !! root c = Some d ->
  exists r c', dentry_from_path fs_lookup attr cr others cwd path c = Ret (r, c') /\ found E M c (resolve (d_name d, d_ip d) l path) r c'.
Proof using Hothers.
  intros G HMc Hcwd Hd. pose proof G as (C & HM & O & HO & I). unfold dentry_from_path, resolve. destruct path as [|x path].
  { exists (None, - EINVAL), c. split; [done|]. split; [done|apply stable_refl]. }
  destruct (x =? 47) eqn:Ex; zbool; [subst; by apply (from_root_run E M c cwd)|].
  destruct (good_held E M c cwd G HMc) as [dc Hdc]. destruct (good_get E M c cwd G ltac:(by exists dc)) as (c1 & Hrun & G1 & S1 & Hp1). rewrite (bind_run _ _ _ tt c1) by done.
    destruct (s_dentry _ _ _ S1 cwd dc HMc Hdc) as (d1 & Hd1 & _ & _ & Ep). rewrite (bind_run _ _ _ d1 c1) by by apply load_run. rewrite (bind_run _ _ _ c1 c1) by done.
    destruct (s_roots _ _ _ S1) as [_ ->]. rewrite Ep. destruct l as [l|]; cbn in Hcwd.
    + rewrite decide_False; [by apply path_loop_run; [..|by apply Hp1|lia]|]. intros Hu. inversion Hcwd as [d0 Hd0 Heq1 Heq2|ch d0 p l0 Hd0 Hp Hl Heq1 Heq2]; subst.
      * destruct (proj2 (t_roots _ _ _ (v_tree _ _ _ _ I)) (root c)) as (d2 & Hd2 & Hn); [by left|]. congruence.
      * rewrite Hdc in Hd0. injection Hd0 as <-. rewrite Hu in Hp. injection Hp as <-. by destruct (path_not_unlinked _ _ _ _ _ I Hl).
    + destruct Hcwd as (d0 & Hd0 & Hu). rewrite Hdc in Hd0. injection Hd0 as <-. rewrite decide_True by done.
      destruct (path_error E M c1 c cwd (- ENOENT) G1 HM S1) as (c' & Hrun' & Hfound). by exists (None, - ENOENT), c'.
Qed.
End Transparent.

(** ** Removing a name *)

(** Taking a dentry that is in use out of the tree, with the reference to its parent, to which
    there are others. *)
Lemma inv_unregister E H c ch dch p : cache_inv E [] H c -> dentries c !! ch = Some dch -> d_parent dch = Some p -> ch <> p -> 1 <= H ch -> 1 <= H p + own c p ->
  exists d_p, dentries c !! p = Some d_p /\ 2 <= d_ref d_p /\
    let m' := <[ch := set_parent None dch]> (<[p := set_ref (d_ref d_p - 1) (set_children (list_del ch (d_child_list d_p)) d_p)]> (dentries c)) in
    cache_inv E [] H (set_dentries m' c) /\ (forall x, is_Some (dentries c !! x) -> is_Some (m' !! x)) /\
    forall x d', m' !! x = Some d' -> exists d, dentries c !! x = Some d /\ d_ip d' = d_ip d /\ d_name d' = d_name d /\
      d_parent d' = (if decide (x = ch) then None else d_parent d) /\ (x <> p -> d_ref d' = d_ref d).
Proof.
  intros I Hch Hp Hne Hh Hhp. destruct (t_parent _ _ _ (v_tree _ _ _ _ I) ch dch p Hch Hp) as (d_p & Hdp & Hin). exists d_p. split; [done|].
  pose proof (n_ref _ _ (v_count _ _ _ _ I) p d_p Hdp) as Href. assert (2 <= d_ref d_p) as H2.
  { destruct (d_child_list d_p); [by apply elem_of_nil in Hin|]. cbn [length] in Href. lia. }
  split; [done|]. cbv zeta. set (m1 := <[ch := set_parent None dch]> (<[p := set_children (list_del ch (d_child_list d_p)) d_p]> (dentries c))).
  pose proof (detach_lookup (dentries c) ch dch p d_p Hch Hdp Hne) as Hm1. fold m1 in Hm1. destruct (ref_pos _ _ _ _ _ _ I Hch) as (_ & Hpos & _).
  pose proof (inv_detach E [] [] H c ch dch p m1 (lru_list c) (lru_size c) I Hch Hp Hm1 ltac:(left; repeat split; lia)) as I1.
  assert (m1 !! p = Some (set_children (list_del ch (d_child_list d_p)) d_p)) as Hp1 by (unfold m1; rewrite lookup_insert_ne by done; apply lookup_insert_eq).
  destruct (inv_drop E [] (plus p 1 H) _ p _ I1 Hp1) as (I2 & _). { unfold plus. rewrite decide_True by done. pose proof (n_held _ _ (v_count _ _ _ _ I) p). lia. }
  specialize (I2 ltac:(cbn; lia)). set (m' := <[ch := set_parent None dch]> _).
  assert (m' = <[p := set_ref (d_ref d_p - 1) (set_children (list_del ch (d_child_list d_p)) d_p)]> m1) as Em.
  { unfold m', m1. rewrite !(insert_insert_ne _ ch p) by done. by rewrite insert_insert_eq. }
  split; [|split].
  - rewrite Em. eapply inv_ext; [|exact I2]. intros x. unfold plus. repeat case_decide; lia.
  - intros x [d Hd]. unfold m'. rewrite !lookup_insert. repeat case_decide; by eexists.
  - intros x d' Hx. unfold m' in Hx. apply lookup_insert_Some in Hx as [[<- <-]|[Hx1 Hx]]; [exists dch; cbn; by rewrite decide_True|].
    apply lookup_insert_Some in Hx as [[<- <-]|[Hx2 Hx]]; [exists d_p; cbn; by rewrite decide_False by done|]. exists d'. by rewrite decide_False.
Qed.

Lemma unregister_run E H c ch dch p : cache_inv E [] H c -> dentries c !! ch = Some dch -> d_parent dch = Some p -> ch <> p -> 1 <= H ch -> 1 <= H p + own c p ->
  exists m', dentry_unregister_from_parent ch c = Ret (tt, set_dentries m' c) /\ dentry_cache_remove_from_unlinked ch c = Ret (tt, set_dentries m' c) /\
    cache_inv E [] H (set_dentries m' c) /\ (forall x, is_Some (dentries c !! x) -> is_Some (m' !! x)) /\
    forall x d', m' !! x = Some d' -> exists d, dentries c !! x = Some d /\ d_ip d' = d_ip d /\ d_name d' = d_name d /\
      d_parent d' = (if decide (x = ch) then None else d_parent d) /\ (x <> p -> d_ref d' = d_ref d).
Proof.
  intros I Hch Hp Hne Hh Hhp. destruct (inv_unregister E H c ch dch p I Hch Hp Hne Hh Hhp) as (d_p & Hdp & Hr & I' & Hdom & D).
  set (d1 := set_children (list_del ch (d_child_list d_p)) d_p) in *. set (m' := <[ch := set_parent None dch]> (<[p := set_ref (d_ref d_p - 1) d1]> (dentries c))) in *.
  assert (forall m c, m !! p = Some d1 -> dentry_put p (set_dentries m c) = Ret (tt, set_dentries (<[p := set_ref (d_ref d_p - 1) d1]> m) c)) as Hput.
  { intros m c0 Hm. unfold dentry_put. rewrite (bind_run _ _ _ (set_dentries m c0) (set_dentries m c0)) by done. cbn [dentry_put_rec].
    rewrite (bind_run _ _ _ d1 (set_dentries m c0)) by by apply load_run. rewrite (bind_run _ _ _ tt _ (change_run (set_dentries m c0) p d1 _ Hm)).
    change (d_ref d1) with (d_ref d_p). by rewrite (proj2 (Z.eqb_neq _ 1)) by lia. }
  exists m'. split; [|split; [|done]].
  - unfold dentry_unregister_from_parent. rewrite (bind_run _ _ _ dch c) by by apply load_run. rewrite Hp. rewrite (bind_run _ _ _ d_p c) by by apply load_run.
    rewrite (bind_run _ _ _ tt _ (change_run c p d_p _ Hdp)). fold d1. rewrite (bind_run _ _ _ _ _ (Hput _ c (lookup_insert_eq _ _ _))).
    etrans; [apply (change_run _ ch dch); cbn; rewrite !lookup_insert_ne by done; done|]. cbn. unfold m'. by rewrite insert_insert_eq.
  - unfold dentry_cache_remove_from_unlinked, remove_from_unlinked. rewrite (bind_run _ _ _ dch c) by by apply load_run. rewrite Hp. rewrite (bind_run _ _ _ d_p c) by by apply load_run.
    rewrite (bind_run _ _ _ tt _ (change_run c p d_p _ Hdp)). fold d1. erewrite bind_run.
    2:{ apply (change_run _ ch dch). cbn. by rewrite lookup_insert_ne. }
    etrans; [apply (Hput _ c); rewrite lookup_insert_ne by done; apply lookup_insert_eq|]. unfold m'. cbn. do 2 f_equal.
    rewrite (insert_insert_ne _ p ch) by done. by rewrite insert_insert_eq.
Qed.

(** The dentries have their inodes and names; [f] gives their new parents. *)
Record moved (f : nat -> option nat -> option nat) (c c' : dentry_cache) : Prop := {
  mv_roots : root c' = root c /\ unlinked_root c' = unlinked_root c;
  mv_dentry x d' : dentries c' !! x = Some d' ->
    exists d, dentries c !! x = Some d /\ d_ip d' = d_ip d /\ d_name d' = d_name d /\ d_parent d' = f x (d_parent d)
}.

Lemma moved_trans f g c1 c2 c3 : moved f c1 c2 -> moved g c2 c3 -> moved (fun x o => g x (f x o)) c1 c3.
Proof.
  intros [[R1 R2] D] [[R1' R2'] D']. split; [split; congruence|]. intros x d3 Hd3. destruct (D' _ _ Hd3) as (d2 & Hd2 & ? & ? & E2). destruct (D _ _ Hd2) as (d1 & Hd1 & ? & ? & E1).
  exists d1. repeat split; congruence.
Qed.

Lemma moved_kept f c1 c2 c3 : moved f c1 c2 -> kept c2 c3 -> moved f c1 c3.
Proof.
  intros [[R1 R2] D] [(R1' & R2' & _) D']. split; [split; congruence|]. intros x d3 Hd3. destruct (D' _ _ Hd3) as (d2 & Hd2 & ? & ? & ?). destruct (D _ _ Hd2) as (d1 & Hd1 & ? & ? & ?).
  exists d1. repeat split; congruence.
Qed.

Definition put_at (ch : nat) (o : option nat) : nat -> option nat -> option nat := fun x q => if decide (x = ch) then o else q.

Lemma unregister_moved E H c ch dch p : cache_inv E [] H c -> dentries c !! ch = Some dch -> d_parent dch = Some p -> ch <> p -> 1 <= H ch -> 1 <= H p + own c p ->
  exists c', dentry_unregister_from_parent ch c = Ret (tt, c') /\ dentry_cache_remove_from_unlinked ch c = Ret (tt, c') /\ cache_inv E [] H c' /\ moved (put_at ch None) c c'.
Proof.
  intros I Hch Hp Hne Hh Hhp. destruct (unregister_run E H c ch dch p I Hch Hp Hne Hh Hhp) as (m' & Hrun & Hrun' & I' & _ & D). exists (set_dentries m' c).
  split; [done|]. split; [done|]. split; [done|]. split; [done|]. intros x d' Hx. destruct (D x d' Hx) as (d & Hd & ? & ? & ? & _). by exists d.
Qed.

Lemma register_moved E H c p ch dch : cache_inv E [] H c -> dentries c !! ch = Some dch -> d_parent dch = None -> 1 <= H ch -> ch <> root c -> ch <> unlinked_root c ->
  is_Some (dentries c !! p) -> ch <> p -> (p <> unlinked_root c -> forall y dy, dentries c !! y = Some dy -> d_parent dy = Some p -> d_name dy <> d_name dch) ->
  exists c', dentry_register_with_parent p ch c = Ret (tt, c') /\ cache_inv E [] H c' /\ moved (put_at ch (Some p)) c c'.
Proof.
  intros I Hch Hp Hh Hr Hu Hdp Hne Hfresh. destruct (register_run E H c p ch dch I Hch Hp Hh Hr Hu Hdp Hne Hfresh) as (c' & Hrun & I' & R1 & R2 & _ & _ & _ & D).
  exists c'. split; [done|]. split; [done|]. by split.
Qed.

(** A dentry that a process has, after the parents changed. *)
Lemma moved_held E H f c c' x d : moved f c c' -> cache_inv E [] H c' -> 1 <= H x -> dentries c !! x = Some d ->
  exists d', dentries c' !! x = Some d' /\ d_ip d' = d_ip d /\ d_name d' = d_name d /\ d_parent d' = f x (d_parent d).
Proof.
  intros [_ D] I Hx Hd. destruct (proj2 (n_held _ _ (v_count _ _ _ _ I) x) ltac:(lia)) as [d' Hd']. destruct (D x d' Hd') as (d0 & Hd0 & ? & ? & ?).
  rewrite Hd in Hd0. injection Hd0 as <-. by exists d'.
Qed.

Section Switch.
Context (E : Z -> Z) (H : nat -> Z) (c : dentry_cache) (I : cache_inv E [] H c).
Context (file new p : nat) (dfile dnew dp : dentry).
Context (Hfile : dentries c !! file = Some dfile) (Hnew : dentries c !! new = Some dnew) (Hdp : dentries c !! p = Some dp).
Context (Hp : d_parent dfile = Some p) (Hpn : d_parent dnew = None) (Hname : d_name dnew = d_name dfile).
Context (Hhf : 1 <= H file) (Hhn : 1 <= H new) (Hhp : 1 <= H p) (Hr : new <> root c) (Hu : new <> unlinked_root c) (Hpu : p <> unlinked_root c) (Hfp : file <> p) (Hnp : new <> p).

Abbreviation u := (unlinked_root c).

Lemma switch_roots : file <> root c /\ file <> u /\ file <> new /\ is_Some (dentries c !! u) /\ own c u = 1.
Proof using I Hfile Hnew Hp Hpn.
  destruct (t_roots _ _ _ (v_tree _ _ _ _ I)) as [_ Hroots]. destruct (Hroots (root c)) as (d1 & Hd1 & Hn1); [by left|]. destruct (Hroots u) as (d2 & Hd2 & Hn2); [by right|].
  repeat split; try congruence; [by exists d2|]. unfold own. by rewrite decide_True by auto.
Qed.

(** The dentry of the file goes to the unlinked ones, the new one takes its place. *)
Lemma switch_run : exists c1 c2 c3, dentry_unregister_from_parent file c = Ret (tt, c1) /\ unlinked_root c1 = u /\
  dentry_register_with_parent u file c1 = Ret (tt, c2) /\ dentry_register_with_parent p new c2 = Ret (tt, c3) /\ cache_inv E [] H c3 /\
  moved (fun x o => if decide (x = new) then Some p else if decide (x = file) then Some u else o) c c3.
Proof using All.
  destruct switch_roots as (Hfr & Hfu & Hfn & Hsu & _).
  destruct (unregister_moved E H c file dfile p I Hfile Hp Hfp Hhf) as (c1 & Hrun1 & _ & I1 & K1). { unfold own. case_decide; lia. }
  destruct (mv_roots _ _ _ K1) as [R1 R1']. destruct (moved_held _ _ _ _ _ _ _ K1 I1 Hhf Hfile) as (df1 & Hf1 & _ & Ef1 & Ep1). unfold put_at in Ep1. rewrite decide_True in Ep1 by done.
  destruct (register_moved E H c1 u file df1 I1 Hf1 Ep1 Hhf) as (c2 & Hrun2 & I2 & K2); [congruence|congruence| |done|congruence|].
  { destruct (proj2 (t_roots _ _ _ (v_tree _ _ _ _ I1)) (unlinked_root c1)) as (d & Hd & _); [by right|]. rewrite R1' in Hd. by exists d. }
  destruct (mv_roots _ _ _ K2) as [R2 R2']. pose proof (moved_trans _ _ _ _ _ K1 K2) as K12. destruct (moved_held _ _ _ _ _ _ _ K12 I2 Hhn Hnew) as (dn2 & Hn2 & _ & En2 & Epn2).
  unfold put_at in Epn2. rewrite !decide_False in Epn2 by congruence.
  destruct (moved_held _ _ _ _ _ _ _ K12 I2 Hhp Hdp) as (dp2 & Hdp2 & _).
  destruct (register_moved E H c2 p new dn2 I2 Hn2) as (c3 & Hrun3 & I3 & K3); [congruence|done|congruence|congruence|by exists dp2|done| |].
  { intros _ y dy Hy Hpy. destruct (mv_dentry _ _ _ K12 y dy Hy) as (d0 & Hd0 & _ & En & Ep). rewrite En, En2, Hname. unfold put_at in Ep. case_decide as Ey; [rewrite Hpy in Ep; congruence|].
    intros Hn. apply Ey. by apply (t_names _ _ _ (v_tree _ _ _ _ I) y file d0 dfile p Hd0 Hfile ltac:(congruence) Hp Hpu). }
  exists c1, c2, c3. do 5 (split; [done|]). split; [destruct (mv_roots _ _ _ K3); split; congruence|].
  intros x d' Hx. destruct (mv_dentry _ _ _ (moved_trans _ _ _ _ _ K12 K3) x d' Hx) as (d & Hd & ? & ? & Ep). exists d. repeat split; try done. rewrite Ep. unfold put_at. by repeat case_decide.
Qed.

(** The way back. *)
Lemma switch_back_run c3 : cache_inv E [] H c3 -> moved (fun x o => if decide (x = new) then Some p else if decide (x = file) then Some u else o) c c3 ->
  exists c6, (dentry_unregister_from_parent new;; dentry_unregister_from_parent file;; dentry_register_with_parent p file) c3 = Ret (tt, c6) /\ cache_inv E [] H c6 /\
    moved (put_at new None) c c6.
Proof using All.
  intros I3 K3. destruct switch_roots as (Hfr & Hfu & Hfn & Hsu & Hown). destruct (mv_roots _ _ _ K3) as [R3 R3'].
  destruct (moved_held _ _ _ _ _ _ _ K3 I3 Hhn Hnew) as (dn3 & Hn3 & _ & En3 & Ep3). rewrite decide_True in Ep3 by done.
  destruct (unregister_moved E H c3 new dn3 p I3 Hn3 Ep3 Hnp Hhn) as (c4 & Hrun4 & _ & I4 & K4). { unfold own. case_decide; lia. }
  pose proof (moved_trans _ _ _ _ _ K3 K4) as K34. destruct (mv_roots _ _ _ K34) as [R4 R4'].
  destruct (moved_held _ _ _ _ _ _ _ K34 I4 Hhf Hfile) as (df4 & Hf4 & _ & Ef4 & Epf4). unfold put_at in Epf4. rewrite !(decide_False (P := file = new)), decide_True in Epf4 by done.
  destruct (unregister_moved E H c4 file df4 u I4 Hf4 Epf4 Hfu Hhf) as (c5 & Hrun5 & _ & I5 & K5).
  { unfold own in *. rewrite R4, R4'. pose proof (n_held _ _ (v_count _ _ _ _ I) u). lia. }
  pose proof (moved_trans _ _ _ _ _ K34 K5) as K35. destruct (mv_roots _ _ _ K35) as [R5 R5'].
  destruct (moved_held _ _ _ _ _ _ _ K35 I5 Hhf Hfile) as (df5 & Hf5 & _ & Ef5 & Epf5). unfold put_at in Epf5. rewrite (decide_True (P := file = file)) in Epf5 by done.
  destruct (moved_held _ _ _ _ _ _ _ K35 I5 Hhp Hdp) as (dp5 & Hdp5 & _).
  destruct (register_moved E H c5 p file df5 I5 Hf5 Epf5 Hhf) as (c6 & Hrun6 & I6 & K6); [congruence|congruence|by exists dp5|done| |].
  { intros _ y dy Hy Hpy. destruct (mv_dentry _ _ _ K35 y dy Hy) as (d0 & Hd0 & _ & En & Ep). rewrite En, Ef5. unfold put_at in Ep. repeat case_decide; try congruence.
    intros Hn. subst. by assert (y = file) by (apply (t_names _ _ _ (v_tree _ _ _ _ I) y file d0 dfile p Hd0 Hfile ltac:(congruence) Hp Hpu Hn)). }
  exists c6. rewrite (bind_run _ _ _ tt c4) by done. rewrite (bind_run _ _ _ tt c5) by done. split; [done|]. split; [done|].
  pose proof (moved_trans _ _ _ _ _ K35 K6) as K. split; [apply (mv_roots _ _ _ K)|]. intros x d' Hx. destruct (mv_dentry _ _ _ K x d' Hx) as (d & Hd & ? & ? & Ep). exists d. repeat split; try done.
  rewrite Ep. unfold put_at. repeat case_decide; try done; [congruence|]. subst. rewrite Hfile in Hd. injection Hd as <-. done.
Qed.
End Switch.

Section Remove.
Context (fs_lookup : Z -> list Z -> option Z) (attr : Z -> inode_attr) (cr : cred) (others : dentry_cache -> dentry_cache).
Context (Hothers : forall E M c, good fs_lookup E M c -> good fs_lookup E M (others c) /\ stable M c (others c)).

Abbreviation good_for := good.
Abbreviation good := (good fs_lookup).

(** The invariant without [coherent]. *)
Definition safe (E : Z -> Z) (M : nat -> Z) (c : dentry_cache) : Prop := (forall x, 0 <= M x) /\ exists O, (forall x, 0 <= O x) /\ cache_inv E [] (fun x => O x + M x) c.

(** The cache after the file [name] was removed from the directory of dentry [p]: a dentry
    for the name has no inode, all others are as before. *)
Definition name_gone (p : nat) (name : list Z) (c : dentry_cache) : Prop :=
  forall ch d q d_q, dentries c !! ch = Some d -> d_parent d = Some q -> q <> unlinked_root c -> dentries c !! q = Some d_q ->
    if decide (q = p /\ d_name d = name) then d_ip d = None else exists ip, d_ip d_q = Some ip /\ d_ip d = fs_lookup ip (d_name d).

Lemma put_good E M c a (r : Z) : good E (plus a 1 M) c -> (forall x, 0 <= M x) -> exists c', (dentry_put a;; mret r) c = Ret (r, c') /\ good E M c'.
Proof using.
  intros G HM. destruct (good_put fs_lookup E (plus a 1 M) c a G) as (c' & Hrun & G' & _). { unfold plus. rewrite decide_True by done. specialize (HM a). lia. }
  exists c'. rewrite (bind_run _ _ _ tt c') by done. split; [done|]. eapply good_ext; [|exact G']. intros x. unfold plus. repeat case_decide; lia.
Qed.

Lemma put_good2 E M c a b (r : Z) : good E (plus b 1 (plus a 1 M)) c -> (forall x, 0 <= M x) -> exists c', (dentry_put a;; dentry_put b;; mret r) c = Ret (r, c') /\ good E M c'.
Proof using.
  intros G HM. destruct (good_put fs_lookup E _ c a G) as (c1 & Hrun & G1 & _). { unfold plus. specialize (HM a). repeat case_decide; lia. }
  rewrite (bind_run _ _ _ tt c1) by done. apply put_good; [|done]. eapply good_ext; [|exact G1]. intros x. unfold plus. repeat case_decide; lia.
Qed.

(** The last three calls. *)
Lemma put_safe3 E M c a b n (r : Z) : safe E (plus n 1 (plus b 1 (plus a 1 M))) c -> (forall x, 0 <= M x) ->
  exists c', (dentry_put a;; dentry_put b;; dentry_put n;; mret r) c = Ret (r, c') /\ safe E M c' /\ kept c c'.
Proof using.
  assert (forall M c x, safe E (plus x 1 M) c -> (forall x, 0 <= M x) -> exists c', dentry_put x c = Ret (tt, c') /\ safe E M c' /\ kept c c') as Hput.
  { intros M0 c0 x (H0 & O & HO & I) HM0. destruct (dentry_put_spec (S (size (in_tree (dentries c0)))) E [] _ c0 x I) as (c' & Hrun & I' & K & _); [|lia|].
    - unfold plus. rewrite decide_True by done. specialize (HM0 x). specialize (HO x). lia.
    - exists c'. split; [done|]. split; [|done]. split; [done|]. exists O. split; [done|]. eapply inv_ext; [|exact I']. intros y. unfold plus. repeat case_decide; lia. }
  assert (forall M M' c, (forall x, M' x = M x) -> safe E M c -> safe E M' c) as Hext.
  { intros M0 M' c0 HE (H0 & O & HO & I). split; [intros x; by rewrite HE|]. exists O. split; [done|]. eapply inv_ext; [|exact I]. intros x. cbn. by rewrite HE. }
  intros S HM. assert (forall y k, 0 <= k -> forall M, (forall x, 0 <= M x) -> forall x, 0 <= plus y k M x) as Hpos. { intros y k Hk M0 HM0 x. unfold plus. specialize (HM0 x). case_decide; lia. }
  destruct (Hput (plus n 1 (plus b 1 M)) c a) as (c1 & Hrun1 & S1 & K1); [|by repeat apply Hpos|]. { eapply Hext; [|exact S]. intros x. unfold plus. repeat case_decide; lia. }
  destruct (Hput (plus n 1 M) c1 b) as (c2 & Hrun2 & S2 & K2); [|by apply Hpos|]. { eapply Hext; [|exact S1]. intros x. unfold plus. repeat case_decide; lia. }
  destruct (Hput M c2 n S2 HM) as (c3 & Hrun3 & S3 & K3). exists c3. rewrite (bind_run _ _ _ tt c1) by done. rewrite (bind_run _ _ _ tt c2) by done. rewrite (bind_run _ _ _ tt c3) by done.
  split; [done|]. split; [done|]. apply (kept_trans _ c2); [by apply (kept_trans _ c1)|done].
Qed.

(** What the rest of [do_rm] does when it has the file, its parent and a new dentry. *)
Lemma rm_tail_run E M c file new p dfile dnew ret : good E (plus new 1 (plus p 1 (plus file 1 M))) c -> (forall x, 0 <= M x) ->
  dentries c !! file = Some dfile -> d_parent dfile = Some p ->
  dentries c !! new = Some dnew -> d_parent dnew = None -> d_ip dnew = None -> d_name dnew = d_name dfile ->
  new <> root c -> new <> unlinked_root c -> file <> p -> p <> unlinked_root c ->
  exists c', (dentry_unregister_from_parent file;;
              c ← get;
              dentry_register_with_parent (unlinked_root c) file;;
              dentry_register_with_parent p new;;
              (if ret <? 0 then
                 dentry_unregister_from_parent new;;
                 dentry_unregister_from_parent file;;
                 dentry_register_with_parent p file
               else
                 d ← load_dentry file;
                 if d_ref d =? 1 then dentry_cache_remove_from_unlinked file else mret tt);;
              dentry_put file;; dentry_put p;; dentry_put new;; mret ret) c = Ret (ret, c') /\
    (ret < 0 /\ good E M c' \/ 0 <= ret /\ safe E M c' /\ name_gone p (d_name dfile) c' /\
       forall dp d, dentries c !! p = Some dp -> dentries c' !! p = Some d -> d_ip d = d_ip dp).
Proof using.
  intros (C & HM3 & O & HO & I) HM Hfile Hp Hnew Hpn Hipn Hname Hr Hu Hfp Hpu. set (M3 := plus new 1 (plus p 1 (plus file 1 M))) in *. set (H := fun x => O x + M3 x) in *.
  assert (1 <= H file /\ 1 <= H new /\ 1 <= H p) as (Hhf & Hhn & Hhp).
  { unfold H, M3, plus. pose proof (HO file). pose proof (HO new). pose proof (HO p). pose proof (HM file). pose proof (HM new). pose proof (HM p). repeat case_decide; lia. }
  destruct (t_parent _ _ _ (v_tree _ _ _ _ I) file dfile p Hfile Hp) as (dp & Hdp & _).
  assert (new <> p) as Hnp. { intros ->. destruct (C file dfile p dp Hfile Hp Hpu Hdp) as (i & Hi & _). congruence. }
  destruct (switch_run E H c I file new p dfile dnew dp) as (c1 & c2 & c3 & Hrun1 & Hu1 & Hrun2 & Hrun3 & I3 & K3); try done.
  destruct (switch_roots E H c I file new p dfile dnew) as (Hfr & Hfu & Hfn & _ & Hown); try done.
  rewrite (bind_run _ _ _ tt c1) by done. rewrite (bind_run _ _ _ c1 c1) by done. rewrite Hu1. rewrite (bind_run _ _ _ tt c2) by done. rewrite (bind_run _ _ _ tt c3) by done.
  destruct (ret <? 0) eqn:Eret; zbool.
  - destruct (switch_back_run E H c I file new p dfile dnew dp Hfile Hnew Hdp Hp Hpn Hname Hhf Hhn Hhp Hr Hu Hpu Hfp Hnp c3 I3 K3) as (c6 & Hrun6 & I6 & K6).
    rewrite (bind_run _ _ _ tt c6) by done. destruct (put_safe3 E M c6 file p new ret) as (c' & Hrun' & S' & K'); [split; [done|by exists O]|done|].
    exists c'. split; [done|]. left. split; [done|]. destruct S' as (_ & O' & HO' & I'). split; [|split; [done|by exists O']].
    pose proof (moved_kept _ _ _ _ K6 K') as K. destruct (mv_roots _ _ _ K) as [_ Ru]. intros x d q dq Hx Hq Hqu Hdq. destruct (mv_dentry _ _ _ K x d Hx) as (d0 & Hd0 & E1 & E2 & E3).
    destruct (mv_dentry _ _ _ K q dq Hdq) as (q0 & Hq0 & F1 & _). rewrite E1, E2, F1. unfold put_at in E3. case_decide; [congruence|]. apply (C x d0 q q0); congruence.
  - assert (exists c4 o, (d ← load_dentry file; if d_ref d =? 1 then dentry_cache_remove_from_unlinked file else mret tt) c3 = Ret (tt, c4) /\ cache_inv E [] H c4 /\
      (o = None \/ o = Some (unlinked_root c)) /\ moved (fun x q => if decide (x = new) then Some p else if decide (x = file) then o else q) c c4) as (c4 & o & Hrun4 & I4 & Ho & K4).
    { destruct (moved_held _ _ _ _ _ _ _ K3 I3 Hhf Hfile) as (df3 & Hf3 & _ & _ & Ep3). rewrite decide_False, decide_True in Ep3 by done. rewrite (bind_run _ _ _ df3 c3) by by apply load_run.
      destruct (mv_roots _ _ _ K3) as [R3 R3']. destruct (d_ref df3 =? 1); [|by exists c3, (Some (unlinked_root c)); split; [done|]; split; [done|]; split; [by right|]].
      destruct (unregister_moved E H c3 file df3 (unlinked_root c) I3 Hf3 Ep3 Hfu Hhf) as (c4 & _ & Hrun4 & I4 & K34).
      { unfold own in *. rewrite R3, R3'. pose proof (n_held _ _ (v_count _ _ _ _ I) (unlinked_root c)). lia. }
      exists c4, None. split; [done|]. split; [done|]. split; [by left|]. pose proof (moved_trans _ _ _ _ _ K3 K34) as K. split; [apply (mv_roots _ _ _ K)|].
      intros x d' Hx. destruct (mv_dentry _ _ _ K x d' Hx) as (d & Hd & ? & ? & Ep). exists d. do 3 (split; [done|]). rewrite Ep. unfold put_at. repeat case_decide; congruence. }
    rewrite (bind_run _ _ _ tt c4) by done. destruct (put_safe3 E M c4 file p new ret) as (c' & Hrun' & S' & K'); [split; [done|by exists O]|done|].
    exists c'. split; [done|]. right. split; [done|]. split; [done|]. pose proof (moved_kept _ _ _ _ K4 K') as K. destruct (mv_roots _ _ _ K) as [_ Ru]. split.
    + intros x d q dq Hx Hq Hqu Hdq. destruct (mv_dentry _ _ _ K x d Hx) as (d0 & Hd0 & E1 & E2 & E3). destruct (mv_dentry _ _ _ K q dq Hdq) as (q0 & Hq0 & F1 & _). rewrite Hq in E3.
      destruct (decide (x = new)) as [Ex|Hxn].
      * rewrite Ex, Hnew in Hd0. injection Hd0 as <-. injection E3 as ->. rewrite decide_True by (split; congruence). congruence.
      * destruct (decide (x = file)) as [Ex|Hxf]; [destruct Ho as [-> | ->]; congruence|]. rewrite decide_False.
        -- rewrite E1, E2, F1. apply (C x d0 q q0); congruence.
        -- intros [-> Hn]. apply Hxf. apply (t_names _ _ _ (v_tree _ _ _ _ I) x file d0 dfile p); congruence.
    + intros dp' d Hdp' Hd. destruct (mv_dentry _ _ _ K p d Hd) as (d0 & Hd0 & E1 & _). congruence.
Qed.

(** The answers of [do_rm] before it touches the tree, or the inode of the directory and the
    name to remove; [o] is what the path resolves to on the file system. *)
Definition rm_check (o : list (list Z * option Z) + Z) (path : list Z) (is_rmdir : bool) : Z + (Z * list Z) :=
  match o with
  | inr error => inl error
  | inl ((name, Some ip) :: (_, Some ip_parent) :: _) =>
      let perm_ok := check_dentry_permission cr (Some (attr ip_parent)) MAY_UNLINK in
      if (is_rmdir && negb (S_ISDIR (i_mode (attr ip))))%bool then inl (- ENOTDIR)
      else if (negb is_rmdir && S_ISDIR (i_mode (attr ip)))%bool then inl (- EISDIR)
      else if (bool_decide (name = [46]) || bool_decide (name = [46; 46]) || ends_in_dots path)%bool then inl (- EPERM)
      else if perm_ok <? 0 then inl perm_ok
      else inr (ip_parent, name)
  | inl _ => inl (- ENOENT)
  end.

(** The file system without the name. *)
Definition fs_without (ip_parent : Z) (name : list Z) (i : Z) (n : list Z) : option Z := if decide (i = ip_parent /\ n = name) then None else fs_lookup i n.

(** The cache after a removal. *)
Definition removed (E : Z -> Z) (M : nat -> Z) (ip_parent : Z) (name : list Z) (c' : dentry_cache) : Prop :=
  exists p, safe E M c' /\ name_gone p name c' /\ (forall d, dentries c' !! p = Some d -> d_ip d = Some ip_parent) /\
    ((forall q d, dentries c' !! q = Some d -> d_ip d = Some ip_parent -> q = p) -> good_for (fs_without ip_parent name) E M c').

Lemma gone_good E M c p ipp name : safe E M c -> name_gone p name c -> (forall d, dentries c !! p = Some d -> d_ip d = Some ipp) ->
  (forall q d, dentries c !! q = Some d -> d_ip d = Some ipp -> q = p) -> good_for (fs_without ipp name) E M c.
Proof using.
  intros [HM S] G Hp Hu. split; [|done]. intros ch d q dq Hd Hq Hqu Hdq. specialize (G ch d q dq Hd Hq Hqu Hdq). unfold fs_without. case_decide as Hc.
  - destruct Hc as [-> Hn]. exists ipp. split; [by apply Hp|]. by rewrite decide_True.
  - destruct G as (ip & Hip & Hl). exists ip. split; [done|]. rewrite decide_False; [done|]. intros [-> Hn]. apply Hc. split; [by apply (Hu q dq)|done].
Qed.

Lemma fresh_not_root E M c : good E M c -> next_dentry c <> root c /\ next_dentry c <> unlinked_root c.
Proof using.
  intros (_ & _ & O & _ & I). destruct (t_roots _ _ _ (v_tree _ _ _ _ I)) as [_ Hr].
  split; intros Hx; (destruct (Hr (next_dentry c)) as (d0 & Hd0 & _); [auto|]); pose proof (v_fresh _ _ _ _ I (next_dentry c) ltac:(by exists d0)); lia.
Qed.

(** From the check of the permissions on: the process sleeps, then it switches the dentries. *)
Lemma rm_switch_run E M c file p dfile dp ipp ret : good E (plus p 1 (plus file 1 M)) c -> (forall x, 0 <= M x) ->
  dentries c !! file = Some dfile -> d_parent dfile = Some p -> dentries c !! p = Some dp -> d_ip dp = Some ipp -> p <> unlinked_root c -> file <> p ->
  exists c', (modify others;;
              d ← load_dentry file;
              if decide (d_parent d <> Some p) then dentry_put file;; dentry_put p;; mret (- EACCES)
              else
                new_dentry ← dentry_alloc_init_orphan (d_name d) None;
                dentry_unregister_from_parent file;;
                c ← get;
                dentry_register_with_parent (unlinked_root c) file;;
                dentry_register_with_parent p new_dentry;;
                (if ret <? 0 then
                   dentry_unregister_from_parent new_dentry;;
                   dentry_unregister_from_parent file;;
                   dentry_register_with_parent p file
                 else
                   d ← load_dentry file;
                   if d_ref d =? 1 then dentry_cache_remove_from_unlinked file else mret tt);;
                dentry_put file;; dentry_put p;; dentry_put new_dentry;; mret ret) c = Ret (ret, c') /\
    (ret < 0 /\ good E M c' \/ 0 <= ret /\ removed E M ipp (d_name dfile) c').
Proof using Hothers.
  clear attr cr. intros G HM Hfile Hp Hdp Hipp Hpu Hfp. destruct (Hothers _ _ _ G) as [G1 S1]. rewrite (bind_run _ _ _ tt (others c)) by done. set (c1 := others c) in *.
  assert (0 < plus p 1 (plus file 1 M) file /\ 0 < plus p 1 (plus file 1 M) p) as [Hhf Hhp]. { unfold plus. pose proof (HM file). pose proof (HM p). repeat case_decide; lia. }
  destruct (s_dentry _ _ _ S1 file dfile Hhf Hfile) as (d1 & Hd1 & Eip & En & Ep). destruct (s_roots _ _ _ S1) as [Er Eu].
  rewrite (bind_run _ _ _ d1 c1) by by apply load_run. rewrite decide_False by (rewrite Ep, Hp; tauto).
  destruct (good_alloc fs_lookup E _ c1 (d_name d1) G1) as (c2 & Hrun2 & G2 & S2 & HMnew & Hnew). rewrite (bind_run _ _ _ _ _ Hrun2). set (new := next_dentry c1) in *.
  destruct (s_dentry _ _ _ S2 file d1 Hhf Hd1) as (d2 & Hd2 & Eip2 & En2 & Ep2). destruct (s_roots _ _ _ S2) as [Er2 Eu2].
  destruct (s_dentry _ _ _ S1 p dp Hhp Hdp) as (dp1 & Hdp1 & Eipp1 & _). destruct (s_dentry _ _ _ S2 p dp1 Hhp Hdp1) as (dp2 & Hdp2 & Eipp2 & _).
  destruct (fresh_not_root E _ c1 G1) as [Hr Hu]. fold new in Hr, Hu.
  destruct (rm_tail_run E M c2 file new p d2 (mk_dentry 1 None (d_name d1) None []) ret G2 HM Hd2) as (c' & Hrun & Hout); try done; try congruence.
  exists c'. split; [done|]. replace (d_name dfile) with (d_name d2) by congruence. destruct Hout as [?|(Hret & S & Gone & Hpip)]; [by left|]. right. split; [done|].
  assert (forall d, dentries c' !! p = Some d -> d_ip d = Some ipp) as Hpc. { intros d Hd. specialize (Hpip _ _ Hdp2 Hd). congruence. }
  exists p. split; [done|]. split; [done|]. split; [done|]. by apply gone_good.
Qed.

Lemma do_rm_run E M c cwd l d path is_rmdir ret : good E M c -> 0 < M cwd -> cwd_ok c cwd l -> dentries c !! root c = Some d ->
  (forall x, resolve fs_lookup attr cr (d_name d, d_ip d) l path <> inl [x]) ->
  exists r c', do_rm fs_lookup attr cr others cwd path is_rmdir ret c = Ret (r, c') /\
    match rm_check (resolve fs_lookup attr cr (d_name d, d_ip d) l path) path is_rmdir with
    | inl error => r = error /\ good E M c'
    | inr (ip_parent, name) => r = ret /\ (ret < 0 /\ good E M c' \/ 0 <= ret /\ removed E M ip_parent name c')
    end.
Proof using Hothers.
  intros G HMc Hcwd Hd Hnr. pose proof G as (_ & HM & _). unfold do_rm. destruct (from_path_run fs_lookup attr cr others Hothers E M c cwd l d path G HMc Hcwd Hd) as (r0 & c0 & Hrun & Hfound).
  rewrite (bind_run _ _ _ _ _ Hrun). destruct (resolve _ _ _ _ _ _) as [lst|err]; [|destruct Hfound as [[-> Gf] _]; by exists err, c0].
  destruct Hfound as [(file & -> & G0 & Hpath) _].
  assert (forall r : Z, exists (r' : Z) c', (dentry_put file;; mret r) c0 = Ret (r', c') /\ r' = r /\ good E M c') as Herr1. { intros r. destruct (put_good E M c0 file r G0 HM) as (c' & ? & ?). by exists r, c'. }
  inversion Hpath as [d0 Hd0 Heq1 Heq2|ch d0 p l0 Hd0 Hp Hl Heq1 Heq2]; subst; [by destruct (Hnr (d_name d0, d_ip d0))|]. cbn [rm_check].
  rewrite (bind_run _ _ _ d0 c0) by by apply load_run. destruct (d_ip d0) as [ip|] eqn:Hip; [|by apply Herr1].
  pose proof G0 as (C0 & _ & O & HO & I0). assert (p <> unlinked_root c0) as Hpu by (intros ->; by destruct (path_not_unlinked _ _ _ _ _ I0 Hl)).
  destruct (t_parent _ _ _ (v_tree _ _ _ _ I0) file d0 p Hd0 Hp) as (dp & Hdp & _). destruct (C0 file d0 p dp Hd0 Hp Hpu Hdp) as (ipp & Hipp & _).
  assert (exists np l1, l0 = (np, Some ipp) :: l1) as (np & l1 & ->). { inversion Hl; subst; replace dp with d1 in * by congruence; rewrite Hipp; eauto. }
  destruct (is_rmdir && negb (S_ISDIR (i_mode (attr ip))))%bool; [by apply Herr1|]. destruct (negb is_rmdir && S_ISDIR (i_mode (attr ip)))%bool; [by apply Herr1|].
  rewrite (bind_run _ _ _ p c0) by by rewrite Hp.
  destruct (good_get fs_lookup E _ c0 p G0 ltac:(by exists dp)) as (c1 & Hrun1 & G1 & S1 & Hp1). rewrite (bind_run _ _ _ tt c1) by done.
  assert (forall r : Z, exists (r' : Z) c', (dentry_put file;; dentry_put p;; mret r) c1 = Ret (r', c') /\ r' = r /\ good E M c') as Herr2. { intros r. destruct (put_good2 E M c1 file p r G1 HM) as (c' & ? & ?). by exists r, c'. }
  destruct (bool_decide _ || _ || _)%bool; [by apply Herr2|]. destruct (path_ip _ _ _ _ _ (Hp1 _ Hl)) as (dp1 & Hdp1 & Eip1 & _).
  rewrite (bind_run _ _ _ dp1 c1) by by apply load_run. rewrite Eip1. cbn [fmap option_fmap option_map]. destruct (check_dentry_permission _ _ _ <? 0); [by apply Herr2|].
  destruct (s_dentry _ _ _ S1 file d0 ltac:(unfold plus; rewrite decide_True by done; specialize (HM file); lia) Hd0) as (df & Hdf & _ & En & Ep). destruct (s_roots _ _ _ S1) as [_ Eu].
  destruct (rm_switch_run E M c1 file p df dp1 ipp ret G1 HM Hdf) as (c' & Hrun' & Hout); try congruence.
  - intros ->. pose proof (path_fun _ _ _ _ _ _ _ I0 Hpath Hl) as Hlen. apply (f_equal length) in Hlen. cbn in Hlen. lia.
  - exists ret, c'. by rewrite <- En.
Qed.
End Remove.

(** ** The start, and another process *)

(** The state after [dentry_cache_init] is right. *)
Lemma cache_init_inv refs root_ip : cache_inv refs [] (fun _ => 0) (dentry_cache_init refs root_ip).
Proof.
  set (c := dentry_cache_init refs root_ip).
  assert (forall x d, dentries c !! x = Some d -> (x < 2)%nat /\ d_ref d = 1 /\ d_parent d = None /\ d_child_list d = []) as Hall.
  { intros x d. cbn. rewrite lookup_insert_Some, lookup_singleton_Some. intros [[<- <-]|(_ & <- & <-)]; cbn; split; (lia || done). }
  assert (forall x, x = 0%nat \/ x = 1%nat -> exists d, dentries c !! x = Some d /\ d_parent d = None) as Hroots by (intros x [-> | ->]; by eexists).
  split.
  - split; [| | |split; [done|exact Hroots]|].
    + intros dp d ch Hd Hin. destruct (Hall _ _ Hd) as (_ & _ & _ & Hn). rewrite Hn in Hin. by apply elem_of_nil in Hin.
    + intros ch d dp Hd Hp. destruct (Hall _ _ Hd) as (_ & _ & Hn & _). congruence.
    + intros dp d Hd. destruct (Hall _ _ Hd) as (_ & _ & _ & ->). apply NoDup_nil_2.
    + intros ch1 ch2 d1 d2 dp Hd1 _ Hp. destruct (Hall _ _ Hd1) as (_ & _ & Hn & _). congruence.
  - split; [|done]. intros dp d Hd. destruct (Hall _ _ Hd) as (Hlt & -> & _ & ->). unfold own. rewrite decide_True by (cbn; lia). cbn. lia.
  - assert (forall x, ~ idle (dentries c) x /\ ~ orphan (dentries c) x) as Hno by (intros x; split; intros (d & Hd & H0 & _); destruct (Hall _ _ Hd) as (_ & H1 & _); congruence).
    split; [| | | | | |done].
    + intros dp. cbn [lru_list c dentry_cache_init add_inode_ref]. rewrite elem_of_nil. split; [done|apply Hno].
    + apply NoDup_nil_2.
    + done.
    + intros dp. rewrite elem_of_nil. split; [done|apply Hno].
    + apply NoDup_nil_2.
    + intros dp d Hd. destruct (Hall _ _ Hd) as (_ & -> & _). done.
  - intros dp [d Hd]. by destruct (Hall _ _ Hd) as [? _].
  - intros i. cbn. rewrite users_insert by done. change {[1%nat := ?d]} with (<[1%nat := d]> (∅ : gmap nat dentry)). rewrite users_insert by done.
    cbn [d_ip]. replace (inode_users ∅ i) with 0 by done. rewrite (decide_False (P := None = Some i)) by done. repeat case_decide; congruence || lia.
Qed.

Lemma init_good fs_lookup refs root_ip : good fs_lookup refs (fun _ => 0) (dentry_cache_init refs root_ip).
Proof.
  split; [|split; [done|]; exists (fun _ => 0); split; [done|apply cache_init_inv]].
  intros ch d p d_p. cbn. rewrite lookup_insert_Some, lookup_singleton_Some. intros [[_ <-]|(_ & _ & <-)]; done.
Qed.

Section Other.
Context (fs_lookup : Z -> list Z -> option Z) (attr : Z -> inode_attr) (cr : cred) (others : dentry_cache -> dentry_cache).
Context (Hothers : forall E M c, good fs_lookup E M c -> good fs_lookup E M (others c) /\ stable M c (others c)).

(** A process that looks up the path [/path] and drops the dentry again. *)
Definition visit (path : list Z) (c : dentry_cache) : dentry_cache :=
  match (r ← dentry_from_path fs_lookup attr cr others 0 (47 :: path);
         match r.1 with Some dp => dentry_put dp | None => mret tt end) c with
  | Ret (_, c') => c'
  | _ => c
  end.

(** It is one of the processes that a lookup may sleep for. *)
Lemma visit_stable path E M c : good fs_lookup E M c -> good fs_lookup E M (visit path c) /\ stable M c (visit path c).
Proof using Hothers.
  intros G. pose proof G as (_ & HM & O & _ & I). destruct (proj2 (t_roots _ _ _ (v_tree _ _ _ _ I)) (root c)) as (d & Hd & _); [by left|].
  destruct (from_root_run fs_lookup attr cr others Hothers E M c 0 d path G Hd) as (r & c' & Hrun & Hfound). unfold visit. rewrite (bind_run _ _ _ _ _ Hrun).
  destruct Hfound as [Hr S]. destruct (walk _ _ _ _ _) as [l|err]; [|by destruct Hr as [-> Gr]].
  destruct Hr as (dp & -> & G1 & _). cbn [fst]. destruct (good_put fs_lookup E _ c' dp G1) as (c2 & Hrun2 & G2 & S2).
  { unfold plus. rewrite decide_True by done. specialize (HM dp). lia. }
  rewrite Hrun2. assert (forall x, M x = plus dp (-1) (plus dp 1 M) x) as Hx by (intros x; unfold plus; repeat case_decide; lia).
  split; [by apply (good_ext fs_lookup _ _ _ _ Hx)|]. apply (stable_trans M (plus dp (-1) (plus dp 1 M)) c c'); [|done|done]. intros x. by rewrite Hx.
Qed.
End Other.

Lemma cache_drain_run E H c target : cache_inv E [] H c -> 0 <= target ->
  exists c', dentry_cache_drain_lru target c = Ret (tt, c') /\ cache_inv E [] H c' /\ kept c c' /\ lru_size c' <= target.
Proof.
  intros I Ht. unfold dentry_cache_drain_lru, drain_lru. rewrite (bind_run _ _ _ c c) by done. pose proof (in_tree_size (dentries c)).
  apply (drain_run dentry_put (size (in_tree (dentries c))) (dentry_put_spec _)); [done|intros x; apply (n_held _ _ (v_count _ _ _ _ I))|done|lia|lia].
Qed.

Lemma inv_set_max E freed H c n : cache_inv E freed H c -> 0 <= n -> cache_inv E freed H (set_max_lru n c).
Proof. intros [T [N1 N2] [L1 L2 L3 L4 L5 L6 L7] F V] Hn. split; [exact T|by split|by split|exact F|exact V]. Qed.

(** ** Properties *)



(** C24: Dropping a reference frees nothing that is in use and keeps the number of unused
    dentries bounded.  If all counts are right, [dentry_put] by a process that has a reference
    returns, all counts are right again with one reference less, and the LRU list is not longer
    than its maximum; so does [dentry_cache_set_max_lru] with the new maximum, and
    [dentry_cache_clear_lru] empties the list. *)
Theorem lru_bounded E H c : cache_inv E [] H c -> lru_size c <= max_lru_size c ->
  (forall dp, 1 <= H dp -> exists c', dentry_put dp c = Ret (tt, c') /\ cache_inv E [] (plus dp (-1) H) c' /\ kept c c' /\ lru_size c' <= max_lru_size c') /\
  (forall n, 0 <= n -> exists c', dentry_cache_set_max_lru n c = Ret (0, c') /\ cache_inv E [] H c' /\ max_lru_size c' = n /\ lru_size c' <= n) /\
  (exists c', dentry_cache_clear_lru c = Ret (0, c') /\ cache_inv E [] H c' /\ kept c c' /\ lru_list c' = []).
Proof.
  intros I Hlru. split; [|split].
  - intros dp Hdp. destruct (dentry_put_spec (S (size (in_tree (dentries c)))) E [] H c dp I Hdp ltac:(lia)) as (c' & Hrun & I' & K & Hb). exists c'.
    split; [done|]. split; [done|]. split; [done|]. destruct (k_roots _ _ K) as (_ & _ & -> & _). lia.
  - intros n Hn. destruct (cache_drain_run E H _ n (inv_set_max _ _ _ _ n I Hn) Hn) as (c' & Hrun & I' & K & Hb). exists c'. unfold dentry_cache_set_max_lru.
    rewrite (bind_run _ _ _ tt (set_max_lru n c)) by done. rewrite (bind_run _ _ _ tt c') by done. split; [done|]. split; [done|]. split; [|done]. by destruct (k_roots _ _ K) as (_ & _ & -> & _).
  - destruct (cache_drain_run E H c 0 I ltac:(lia)) as (c' & Hrun & I' & K & Hb). exists c'. unfold dentry_cache_clear_lru. rewrite (bind_run _ _ _ tt c') by done.
    split; [done|]. split; [done|]. split; [done|]. apply nil_length_inv. rewrite (l_size _ _ (v_lists _ _ _ _ I')) in Hb. lia.
Qed.

(** ** An example *)

(** A directory with inode 1, in which [f] is a file and [g] a directory; the superuser
    works in it, while another process looks up [/f]. *)
Definition ex_lookup (ip : Z) (name : list Z) : option Z :=
  if decide (ip = 1 /\ name = [102]) then Some 2 else if decide (ip = 1 /\ name = [103]) then Some 3 else None.
Definition ex_attr (ip : Z) : inode_attr := mk_attr (if ip =? 2 then 0x81A4 else 0x41ED) 0 0.
Definition ex_cred : cred := mk_cred 0 0 0 0 0 0 [].
Definition ex_others : dentry_cache -> dentry_cache := visit ex_lookup ex_attr ex_cred id [102].
Definition ex_cache : dentry_cache :=
  let c := dentry_cache_init (fun _ => 0) 1 in match dentry_get 0 c with Ret (_, c') => c' | _ => c end.
Definition ex_held (x : nat) : Z := if decide (x = 0%nat) then 1 else 0.
Definition ex_root : dentry := mk_dentry 2 (Some 1) [47] None [].

Lemma ex_others_stable E M c : good ex_lookup E M c -> good ex_lookup E M (ex_others c) /\ stable M c (ex_others c).
Proof. apply visit_stable. intros E0 M0 c0 G. split; [done|apply stable_refl]. Qed.

Lemma ex_good : good ex_lookup (fun _ => 0) ex_held ex_cache.
Proof.
  destruct (good_get ex_lookup _ _ _ 0 (init_good ex_lookup (fun _ => 0) 1)) as (c' & Hrun & G & _); [by eexists|].
  unfold ex_cache. cbn zeta. rewrite Hrun. apply (good_ext ex_lookup _ (plus 0 1 (fun _ => 0))); [|done].
  intros x. unfold ex_held, plus. by case_decide.
Qed.

Lemma ex_cwd : cwd_ok ex_cache 0 (Some [([47], Some 1)]).
Proof. by apply (path_root ex_cache ex_root). Qed.



Lemma ex_inv : cache_inv (fun _ => 0) [] ex_held ex_cache.
Proof.
  destruct (get_run _ _ _ _ 0 _ (cache_init_inv (fun _ => 0) 1) eq_refl ltac:(apply not_elem_of_nil)) as (c' & Hrun & I & _).
  unfold ex_cache. cbn zeta. rewrite Hrun. eapply inv_ext; [|exact I]. intros x. unfold ex_held, plus. by case_decide.
Qed.

Lemma lru_bounded_witness : exists c', dentry_put 0 ex_cache = Ret (tt, c') /\ cache_inv (fun _ => 0) [] (plus 0 (-1) ex_held) c' /\ kept ex_cache c' /\ lru_size c' <= max_lru_size c'.
Proof. refine (proj1 (lru_bounded (fun _ => 0) ex_held ex_cache ex_inv _) 0%nat _); vm_compute; discriminate. Defined.

(** [rmdir("/")] takes a reference to the parent of the root directory, which is NULL. *)
Lemma rmdir_root_undefined : do_rm ex_lookup ex_attr ex_cred ex_others 0 [47] true 0 ex_cache = Undef.
Proof. vm_compute. reflexivity. Qed.
